(* ===== verification/_CoqProject ===== *)
-Q . S2P
Prelude.v
GoText.v
Bytes.v
NetIP.v
Libs.v
Metadata.v
RuleItems.v
RuleAction.v
RuleEngine.v
RuleSpec.v
RuleSound.v
RuleBlind.v
RuleTheorems.v
RuleOptions.v
RuleBuild.v
RuleBuildTheorems.v
RuleStart.v
FakeIP.v
FakeIPTheorems.v
Bolt.v
CacheFile.v
CacheFileFakeIP.v
CacheFileTheorems.v
CacheFileDNS.v
CacheFileCleanup.v
CacheFileExamples.v
Sniff.v
DNSQuery.v
Router.v
RouterTheorems.v
RouterDispatch.v
RouterPreMatch.v
RouterExamples.v
DNSValidate.v
DNSRouter.v
DNSRace.v
DNSValidateTheorems.v
DNSUntagged.v
DNSRaceTheorems.v
DNSExamples.v
Lifecycle.v
LifecycleTheorems.v
Managers.v
OutboundManager.v
TransportManager.v
Box.v
ManagerTheorems.v
BoxTheorems.v
ManagerExamples.v
Ja3.v
Ja3Theorems.v
Quic.v
QuicTheorems.v
QuicSafety.v
Sniffers.v
SniffersTheorems.v
SniffExamples.v
DNSMessage.v
DNSClient.v
DNSClientLocks.v
DNSClientCache.v
DNSClientStore.v
DNSClientTheorems.v
DNSClientExamples.v
DNSLegacy.v
Srs.v
SrsTheorems.v
SrsRoundtrip.v
SrsRules.v
SrsExamples.v
TLSFragment.v
TLSFragmentTheorems.v
TLSFragmentExamples.v
Group.v
GroupTheorems.v
GroupExamples.v
