(* ===== verification/Prelude.v ===== *)
(** * sing-box: a verification library

    sing-box (under [src/singbox-go]) is a proxy platform: it accepts
    connections, decides by rules what becomes of each, answers DNS queries by
    rules of their own, and keeps what it learns in a cache file.  This library
    models the deciding parts as executable functions on explicit state and
    proves what makes them correct.

    ** The parts and how they interact

    A connection reaches the router ([route/route.go]) with its metadata
    ([adapter/inbound.go]).  The router looks up fake addresses in the FakeIP
    store ([dns/transport/fakeip]), peeks at the data ([common/sniff]), and goes
    through the rules ([route/rule]), whose items and actions read and change
    the metadata, to an outbound of the outbound manager
    ([adapter/outbound]).  The DNS router ([dns/router.go]) goes through its own
    rules, of the same engine, while queries are under way at the servers of the
    DNS server manager; it asks them through the DNS client ([dns/client.go]),
    which caches the answers.  FakeIP store, DNS cache, selections and rule-sets
    persist in the cache file ([experimental/cachefile]).  [box.go] creates the
    parts from the options and takes them through their start stages.

    ** Files

    Foundations: this file (errors as values, [let?], list lemmas, hints),
    [GoText] ([strings], [strconv], [hex]), [Bytes] (little and big endian
    integers, varints), [NetIP] ([net/netip] addresses and prefixes), [Libs]
    (the class of third-party operations with their documented laws and a
    concrete instance [ref_libs] for witnesses), [Bolt] (the transactions of the
    key-value store).

    - [Metadata]: [adapter.InboundContext] with the rule cache.
    - [RuleItems], [RuleAction], [RuleEngine]: every item, every action and the
      matching of default, logical and rule-set rules of [route/rule].
      [RuleSpec] states the meaning of a rule without state, groups or caching;
      like the code, and unlike the documentation of the flags, it clears the
      flags of a rule-set in its logical rules, and a second reading keeps them;
      [RuleSound], [RuleBlind] and [RuleTheorems] relate the two.
    - [RuleOptions], [RuleBuild]: [option/rule*.go] and the constructors;
      [RuleBuildTheorems].  [RuleStart]: starting and closing rules with the
      reference counts of rule-sets.
    - [FakeIP], [FakeIPTheorems]: the store over any storage, as a class with
      laws, with the in-memory storage as one instance.
    - [CacheFile], [CacheFileDNS], [CacheFileFakeIP], [CacheFileCleanup],
      [CacheFileTheorems], [CacheFileExamples]: the tables of the cache file and
      its writing goroutines as a step relation; the other instance of the
      FakeIP storage.
    - [Sniff], [DNSQuery], [Router], with [RouterTheorems], [RouterDispatch],
      [RouterPreMatch], [RouterExamples]: [route/route.go].
    - [DNSValidate], [DNSRouter], [DNSRace] and their theorems: the rules of
      [dns/router.go]; a schedule says when each server answers.
    - [Lifecycle], [Managers], [OutboundManager], [TransportManager], [Box] with
      [LifecycleTheorems], [ManagerTheorems], [BoxTheorems], [ManagerExamples]:
      the managers of [adapter/*/manager.go] and [dns/transport_manager.go], the
      start stages of [adapter/lifecycle.go], [box.go] and the checks of
      [option/options.go].
    - [Ja3], [Ja3Theorems]: the client hello parser of [common/ja3].  [Quic],
      [QuicTheorems], [QuicSafety]: the QUIC sniffer ([common/sniff/quic.go]);
      its outcomes include a panic and a loop that does not end, and its hash and
      cipher operations are the class [QUICCrypto].  [Sniffers],
      [SniffersTheorems]: the other sniffers of [common/sniff], which implement
      the interface [Sniffing] that [Router] is written against.
      [SniffExamples]: runs, among them the vectors of the Go tests.
    - [DNSLegacy]: the exchange of the legacy mode of [dns/router.go], against
      the interface [LegacyClient] of the client.
    - [DNSMessage], [DNSClient]: the DNS client of [dns/client.go].  Its exchanges
      and refreshes are processes; [step] is the next thing that happens to one of
      them.  The memory cache and the packing of messages are the class
      [ClientLibs], the persistent cache is the interface [CacheStore], which
      [DNSClientStore] implements with the cache file.  [DNSClientLocks],
      [DNSClientCache], [DNSClientTheorems], [DNSClientExamples].
    - [Srs], [SrsTheorems], [SrsRoundtrip], [SrsRules], [SrsExamples]: the
      binary rule-set files of [common/srs]; the domain matchers and the
      compression are the class [SrsLibs].
    - [TLSFragment], [TLSFragmentTheorems], [TLSFragmentExamples]: the
      fragmenting connection of [common/tlsfragment].
    - [Group], [GroupTheorems], [GroupExamples]: selectors and URL test groups
      ([protocol/group]) with the history of [common/urltest] and the
      connections of [common/interrupt].

    A Go function is a Rocq function of the same name; a method [T.M] is [T_M]
    or [M].  Mutated state is passed and returned; an error return is [result]
    or [option GoError]; a panic is [Err (GoPanic _)].  Interfaces of the
    environment (connections, registries, servers) are arguments.

    ** What the theorems show

    The conditions of a theorem are in its statement and its comment; the most
    important ones are named here.

    - Rules: the optimised evaluation decides the reference semantics and
      changes only the cache; built rules are well formed and their metadata is
      exact but for options with empty lists; reference counts are exact under
      any history.
    - Routing: the first final rule that holds is selected; pre-match agrees
      with it for rules that PreMatch and the router treat alike; dispatch meets
      no nil but a removed default outbound; sniffed data is kept; FakeIP
      destinations are matched as their domains.
    - DNS: every exchange with rules on untagged responses ends under every
      schedule with the result of a matching race rule or of the rules in order,
      or the context's error; time and asynchrony make no difference without
      race rules; validation makes the rules what the theorems ask, and rule-set
      updates keep it so.  In the legacy mode the rule that answers holds of the
      response, and no earlier one that was passed over does, for rules that keep
      names and addresses apart.
    - DNS client: every call is answered once, whatever waits for whatever; what
      is loaded from the memory cache is a checked answer of a server to the
      question, what is loaded from the store one for its name and type, with
      what is left of its lifetime; cache keys and messages agree on the subnet.
    - FakeIP and cache file: for ranges of at least four addresses allocation is
      correct, does not reuse addresses early and resumes after a restart; the
      last queued response wins under any interleaving; cleaning removes exactly
      what has expired.
    - Managers and instance: with different tags starts respect dependencies and
      end; managers are the abstract list; stages are in order with a barrier
      between them; checked configurations start without a panic.
    - Groups: a URL test chooses within the tolerance as long as no sum of delay
      and tolerance overflows and no delay is 0; its batches and the way through
      nested groups end; a selection survives a restart.
    - Rule-set files: reading is total; what is written is read back; a compiled
      rule-set of at most 100 levels and without empty lists decides like its
      source.
    - TLS fragments: the pieces make up the client's bytes and are cut inside
      the labels of the server name, which is found where it stands.
    - Sniffers: a client hello is parsed back; its pieces may arrive in any
      order and in any number of packets; a stream that fits the buffer is
      recognised however the network cuts it, if no sniffer before takes it; when
      the parsers panic is told exactly.
    - Closed theorems ([..._missed], [..._twice], [..._race], [..._corners] and
      others of kind error) exhibit behaviour the code should not have.

    ** Bounds and fuel

    Integers are Z with the width of the source written out where it can
    overflow (reference counts, ports, counters, lengths).  Fuel: an exchange
    with n DNS rules takes at most 10 n + 4 rounds; a start with n objects at
    most n + 1 turns, the search for a cycle at most one step more than the
    index has entries; the writers of the DNS cache at most five steps each.
    The peeking loop turns once per read and the exchange of the legacy mode once
    more than there are rules.  A chain of nested groups takes at most as many steps as there are outbounds.
    Parsers get as much fuel as there are bytes and each turn takes one; the
    loop over CRYPTO fragments gets one turn per fragment and one more, after
    which it provably never ends.  That these bounds suffice is part of the
    theorems.

    ** Not modelled

    Network and system I/O, TLS and the wire protocols of [protocol] and
    [transport] (third-party code or bytes on the wire, which the router knows
    only by tag and network); JSON decoding of the options (reflection); the
    HTTP and gRPC interfaces; logging, timers other than those of the DNS
    exchange, and locks, except where an interleaving is modelled.  Within
    modelled files: the repair of a damaged database file, the download and
    watching of rule-set files, the lookups of the DNS router and the reverse
    mapping, the truncation of DNS messages.  The sniffers for HTTP and TLS, the
    parsing of DNS messages and the decompression of rule-set files, taken as a
    whole, are what libraries answer, as arguments. *)

From stdpp Require Export base tactics list gmap strings countable.
From Stdlib Require Export ZArith Lia.

(** ** Notation of the development *)

Declare Scope go_scope.
Delimit Scope go_scope with go.
#[export] Set Default Goal Selector "!".
Local Open Scope Z_scope.

(** Go's [error] values.  The message fragments are kept as one string;
    [E_Cause err msg] is [E.Cause(err, msg)], which wraps [err], and
    [Rejected cause] the [RejectedError] of route/rule, [RcodeError rcode] the
    error type of dns/rcode.go.  [GoPanic msg]
    stands for a run-time panic that leaves the call. *)
Inductive GoError :=
  | E_New (msg : string)
  | E_Cause (err : GoError) (msg : string)
  | ErrInvalid
  | ErrEOF
  | Rejected (cause : GoError)
  | RcodeError (rcode : Z)
  | GoPanic (msg : string).

#[export] Instance GoError_eq_dec : EqDecision GoError.
Proof. solve_decision. Defined.

(** A Go call that returns [(value, error)]: the value when the error is nil. *)
Inductive result (A : Type) : Type :=
  | Ok (a : A)
  | Err (e : GoError).
Arguments Ok {A} a.
Arguments Err {A} e.

Definition result_bind {A B} (r : result A) (k : A -> result B) : result B :=
  match r with Ok a => k a | Err e => Err e end.

(** [E.Cause] on the error of a call. *)
Definition result_cause {A} (r : result A) (msg : string) : result A :=
  match r with Ok a => Ok a | Err e => Err (E_Cause e msg) end.

Definition result_of_option {A} (o : option A) (e : GoError) : result A :=
  match o with Some a => Ok a | None => Err e end.

Definition is_ok {A} (r : result A) : bool :=
  match r with Ok _ => true | Err _ => false end.

Notation "'let?' x := r 'in' k" := (result_bind r (fun x => k))
  (at level 10, x name, r at level 100, k at level 200) : go_scope.
Notation "'let?' ' p := r 'in' k" := (result_bind r (fun x => match x with p => k end))
  (at level 10, p strict pattern, r at level 100, k at level 200) : go_scope.
#[global] Open Scope go_scope.

Definition optList {A} (o : option A) : list A := match o with Some x => [x] | None => [] end.
Definition isSome {A} (o : option A) : bool := match o with Some _ => true | None => false end.

(** ** Tactics *)

(** Split every [match]/[if] of the goal, keeping the equations. *)
Ltac split_match :=
  match goal with
  | |- context [match ?x with _ => _ end] =>
      let H := fresh "Heq" in destruct x eqn:H
  end.

Ltac split_match_in H :=
  match type of H with
  | context [match ?x with _ => _ end] =>
      let E := fresh "Heq" in destruct x eqn:E
  end.

(** Take a successful [result_bind] chain apart. *)
Ltac inv_bind :=
  repeat match goal with
  | H : result_bind ?r _ = Ok _ |- _ =>
      let E := fresh "Hr" in
      destruct r eqn:E; cbn [result_bind] in H; [|discriminate H]
  | H : Ok _ = Ok _ |- _ => injection H as H
  | H : Err _ = Ok _ |- _ => discriminate H
  | H : Ok _ = Err _ |- _ => discriminate H
  end.

Create HintDb singbox.

(** ** Generic lemmas *)

Lemma result_bind_Ok {A B} (r : result A) (k : A -> result B) b :
  result_bind r k = Ok b <-> exists a, r = Ok a /\ k a = Ok b.
Proof. destruct r; cbn; naive_solver. Qed.

(** A property of the value a call returns, when it returns one. *)
Definition result_all {A} (P : A -> Prop) (r : result A) : Prop :=
  match r with Ok a => P a | Err _ => True end.

Lemma result_all_bind {A B} (P : A -> Prop) (Q : B -> Prop) (r : result A) (k : A -> result B) :
  result_all P r -> (forall a, P a -> result_all Q (k a)) -> result_all Q (result_bind r k).
Proof. destruct r; cbn; auto. Qed.

Lemma result_all_cause {A} (P : A -> Prop) (r : result A) msg :
  result_all P r -> result_all P (result_cause r msg).
Proof. by destruct r. Qed.

Lemma result_all_Ok {A} (P : A -> Prop) (r : result A) a : result_all P r -> r = Ok a -> P a.
Proof. by intros H ->. Qed.

Lemma result_all_mono {A} (P Q : A -> Prop) (r : result A) :
  result_all P r -> (forall a, P a -> Q a) -> result_all Q r.
Proof. destruct r; cbn; auto. Qed.

(** [for i, x := range l { y, err := f(i, x); if err != nil { return err }; out[i] = y }]. *)
Definition mapi_result {A B} (f : nat -> A -> result B) : nat -> list A -> result (list B) :=
  fix go i l :=
    match l with
    | [] => Ok []
    | x :: l => result_bind (f i x) (fun y => result_bind (go (S i) l) (fun ys => Ok (y :: ys)))
    end.

Lemma mapi_result_Ok {A B} (f : nat -> A -> result B) i l ys :
  mapi_result f i l = Ok ys -> Forall2 (fun x y => exists j, f j x = Ok y) l ys.
Proof.
  revert i ys. induction l as [|x l IH]; cbn; intros i ys H.
  - injection H as <-. constructor.
  - apply result_bind_Ok in H as (y & Hy & H). apply result_bind_Ok in H as (ys' & Hys & H).
    injection H as <-. constructor; [by exists i|by apply IH with (S i)].
Qed.

Lemma result_all_mapi {A B} (P : B -> Prop) (f : nat -> A -> result B) i l :
  Forall (fun x => forall j, result_all P (f j x)) l ->
  result_all (Forall P) (mapi_result f i l).
Proof.
  intros H. revert i. induction H as [|x l Hx Hl IH]; intros i; cbn; [constructor|].
  apply (result_all_bind P); [done|]. intros y Hy.
  apply (result_all_bind (Forall P)); [done|]. intros ys Hys. by constructor.
Qed.

Lemma result_all_pure {A} (P : A -> Prop) (r : result A) : (forall a, P a) -> result_all P r.
Proof. intros H. destruct r; cbn; auto. Qed.

(** [common.All] over a predicate that may panic. *)
Definition all_result {A} (f : A -> result bool) : list A -> result bool :=
  fix go l :=
    match l with
    | [] => Ok true
    | x :: l => result_bind (f x) (fun b : bool => if b then go l else Ok false)
    end.

(** The [map[K]bool] a constructor fills with [for _, k := range l { m[k] = true }],
    and the Go read [m[k]], which is [false] for a missing key. *)
Definition boolMap {K} `{Countable K} (l : list K) : gmap K bool :=
  foldl (fun m k => <[k := true]> m) ∅ l.

Definition boolMapGet {K} `{Countable K} (m : gmap K bool) (k : K) : bool :=
  default false (m !! k).

Section boolmap.
Context {K} `{Countable K}.

Lemma boolMap_foldl (l : list K) (m : gmap K bool) k :
  default false (foldl (fun m k => <[k := true]> m) m l !! k) = true
  <-> k ∈ l \/ default false (m !! k) = true.
Proof.
  revert m. induction l as [|x l IH]; intros m; cbn.
  - set_solver.
  - rewrite IH, lookup_insert, elem_of_cons.
    destruct (decide (x = k)) as [->|]; cbn; naive_solver.
Qed.

(** A set-shaped map built from a list answers exactly membership. *)
Lemma boolMapGet_boolMap (l : list K) k :
  boolMapGet (boolMap l) k = true <-> k ∈ l.
Proof.
  unfold boolMapGet, boolMap. rewrite boolMap_foldl, lookup_empty. cbn. naive_solver.
Qed.

Lemma boolMapGet_bool_decide (l : list K) k :
  boolMapGet (boolMap l) k = bool_decide (k ∈ l).
Proof.
  pose proof (boolMapGet_boolMap l k) as HB.
  destruct (boolMapGet (boolMap l) k).
  - symmetry. apply bool_decide_eq_true. by apply HB.
  - symmetry. apply bool_decide_eq_false. intros Hin. by apply HB in Hin.
Qed.
End boolmap.

(** Booleans as propositions. *)
Lemma existsb_ext {A} (f g : A -> bool) l :
  (forall x, x ∈ l -> f x = g x) -> existsb f l = existsb g l.
Proof.
  induction l as [|x l IH]; intros Hfg; cbn; [done|].
  rewrite Hfg by set_solver. rewrite IH; [done|]. intros y Hy. apply Hfg. set_solver.
Qed.

Lemma forallb_ext_in {A} (f g : A -> bool) l :
  (forall x, x ∈ l -> f x = g x) -> forallb f l = forallb g l.
Proof.
  induction l as [|x l IH]; intros Hfg; cbn; [done|].
  rewrite Hfg by set_solver. rewrite IH; [done|]. intros y Hy. apply Hfg. set_solver.
Qed.

Lemma existsb_elem {A} (f : A -> bool) l :
  existsb f l = true <-> exists x, x ∈ l /\ f x = true.
Proof.
  rewrite existsb_exists. split; intros (x & Hx & ?); exists x; split; try done;
    by apply list_elem_of_In.
Qed.
