(* ===== verification/GoText.v ===== *)
(** * Go's [strings], [strconv], [encoding/hex] and [net.ParseMAC]

    The parts of the standard library's text routines the program calls, on
    strings as byte sequences.  [int] is the 64-bit Go [int]. *)

From S2P Require Import Prelude.
From Stdlib Require Import Ascii String.
Local Open Scope string_scope.
Local Open Scope Z_scope.

Definition byteZ (c : ascii) : Z := Z.of_N (N_of_ascii c).
Definition len (s : string) : Z := Z.of_nat (String.length s).

Module strings.
Definition HasPrefix (s p : string) : bool := String.prefix p s.

(** [s[n:]] for [n <= len(s)]. *)
Fixpoint drop (n : nat) (s : string) : string :=
  match n, s with
  | O, _ => s
  | S n, String _ s => drop n s
  | S _, EmptyString => EmptyString
  end.

(** [s[:n]] for [n <= len(s)]. *)
Fixpoint take (n : nat) (s : string) : string :=
  match n, s with
  | S n, String c s => String c (take n s)
  | _, _ => EmptyString
  end.

Definition TrimPrefix (s p : string) : string :=
  if HasPrefix s p then drop (String.length p) s else s.

Definition HasSuffix (s p : string) : bool :=
  (String.length p <=? String.length s)%nat
  && String.eqb (drop (String.length s - String.length p) s) p.

(** [Index]: the first position of [sub], [None] for Go's -1. *)
Fixpoint Index (s sub : string) : option nat :=
  if HasPrefix s sub then Some 0%nat
  else match s with
       | EmptyString => None
       | String _ s' => S <$> Index s' sub
       end.

Definition Contains (s sub : string) : bool :=
  match Index s sub with Some _ => true | None => false end.

(** [Split] at a one-byte separator. *)
Fixpoint SplitByte (sep : ascii) (s : string) : list string :=
  match s with
  | EmptyString => [EmptyString]
  | String c s' =>
      if Ascii.eqb c sep then EmptyString :: SplitByte sep s'
      else match SplitByte sep s' with
           | [] => [String c EmptyString]
           | x :: l => String c x :: l
           end
  end.

Fixpoint Join (l : list string) (sep : string) : string :=
  match l with
  | [] => EmptyString
  | [x] => x
  | x :: l => (x ++ sep ++ Join l sep)%string
  end.

Definition isSpace (c : ascii) : bool :=
  let n := byteZ c in (n =? 32) || ((9 <=? n) && (n <=? 13)).
Fixpoint TrimLeftSpace (s : string) : string :=
  match s with
  | EmptyString => EmptyString
  | String c s' => if isSpace c then TrimLeftSpace s' else s
  end.
Fixpoint TrimRightSpace (s : string) : string :=
  match s with
  | EmptyString => EmptyString
  | String c s' =>
      match TrimRightSpace s' with
      | EmptyString => if isSpace c then EmptyString else String c EmptyString
      | t => String c t
      end
  end.
(** [TrimSpace] for the ASCII white space characters. *)
Definition TrimSpace (s : string) : string := TrimRightSpace (TrimLeftSpace s).
End strings.

Module strconv.
Definition isDigit (c : ascii) : bool := (48 <=? byteZ c) && (byteZ c <=? 57).
Definition digit (c : ascii) : Z := byteZ c - 48.

(** The value of a digit string, [None] when a byte is not a digit. *)
Fixpoint digits (acc : Z) (s : string) : option Z :=
  match s with
  | EmptyString => Some acc
  | String c s' => if isDigit c then digits (acc * 10 + digit c) s' else None
  end.

Definition maxInt : Z := 2 ^ 63 - 1.
Definition minInt : Z := - 2 ^ 63.

(** [ParseUint(s, 10, bitSize)]: the value, or the error. *)
Definition ParseUint (s : string) (bitSize : Z) : result Z :=
  match s with
  | EmptyString => Err (E_New "invalid syntax")
  | _ =>
      match digits 0 s with
      | None => Err (E_New "invalid syntax")
      | Some n =>
          if n <? 2 ^ bitSize then Ok n else Err (E_New "value out of range")
      end
  end.

(** [Atoi]: the returned integer and whether the error is nil.  A syntax
    error returns 0; an out-of-range value returns the nearest bound. *)
Definition Atoi (s : string) : Z * bool :=
  let '(neg, ds) :=
    match s with
    | String c s' =>
        if byteZ c =? 45 then (true, s') else if byteZ c =? 43 then (false, s') else (false, s)
    | EmptyString => (false, s)
    end in
  match ds with
  | EmptyString => (0, false)
  | _ =>
      match digits 0 ds with
      | None => (0, false)
      | Some n =>
          if neg then (if minInt <=? - n then (- n, true) else (minInt, false))
          else (if n <=? maxInt then (n, true) else (maxInt, false))
      end
  end.

Definition digitChar (d : Z) : ascii := ascii_of_N (Z.to_N (48 + d)).

(** Decimal digits of [n], least significant last; [fuel] bounds the number
    of digits. *)
Fixpoint decimal (fuel : nat) (n : Z) (acc : string) : string :=
  match fuel with
  | O => acc
  | S fuel =>
      let acc := String (digitChar (n mod 10)) acc in
      if n / 10 =? 0 then acc else decimal fuel (n / 10) acc
  end.

(** [Itoa] on a 64-bit [int]: twenty digits are enough. *)
Definition Itoa (n : Z) : string :=
  if n <? 0 then String "-" (decimal 20 (- n) "") else decimal 20 n "".
End strconv.

Module hex.
Definition nibble (c : ascii) : option Z :=
  let n := byteZ c in
  if (48 <=? n) && (n <=? 57) then Some (n - 48)
  else if (97 <=? n) && (n <=? 102) then Some (n - 87)
  else if (65 <=? n) && (n <=? 70) then Some (n - 55)
  else None.
(** [hex.DecodeString]. *)
Fixpoint DecodeString (s : string) : option (list Z) :=
  match s with
  | EmptyString => Some []
  | String a (String b s') =>
      match nibble a, nibble b, DecodeString s' with
      | Some x, Some y, Some l => Some (x * 16 + y :: l)
      | _, _, _ => None
      end
  | String _ EmptyString => None
  end.
Definition hexDigit (n : Z) : ascii :=
  ascii_of_N (Z.to_N (if n <? 10 then 48 + n else 87 + n)).
(** The verb [%x] on an unsigned integer of at most [fuel] hex digits. *)
Fixpoint hexFormat (fuel : nat) (n : Z) (acc : string) : string :=
  match fuel with
  | O => acc
  | S fuel =>
      let acc := String (hexDigit (n mod 16)) acc in
      if n / 16 =? 0 then acc else hexFormat fuel (n / 16) acc
  end.
Definition FormatUint (n : Z) : string := hexFormat 16 n EmptyString.
End hex.

(** [net.HardwareAddr] and [net.ParseMAC]. *)
Module net.
Definition byteHex (b : Z) : string :=
  String (hex.hexDigit (b / 16)) (String (hex.hexDigit (b mod 16)) EmptyString).
(** [HardwareAddr.String]: lower-case hex bytes joined with colons. *)
Definition HardwareAddr_String (a : list Z) : string := strings.Join (map byteHex a) ":".

(** [n] groups of two hex digits separated by [sep]. *)
Fixpoint parsePairs (n : nat) (sep : ascii) (s : string) : option (list Z) :=
  match n with
  | O => match s with EmptyString => Some [] | _ => None end
  | S n' =>
      match s with
      | String a (String b rest) =>
          match hex.nibble a, hex.nibble b with
          | Some x, Some y =>
              match rest with
              | EmptyString => match n' with O => Some [x * 16 + y] | _ => None end
              | String c rest' =>
                  if Ascii.eqb c sep then
                    match n' with
                    | O => None
                    | _ => cons (x * 16 + y) <$> parsePairs n' sep rest'
                    end
                  else None
              end
          | _, _ => None
          end
      | _ => None
      end
  end.

(** [n] groups of four hex digits separated by dots. *)
Fixpoint parseQuads (n : nat) (s : string) : option (list Z) :=
  match n with
  | O => match s with EmptyString => Some [] | _ => None end
  | S n' =>
      match s with
      | String a (String b (String c (String d rest))) =>
          match hex.nibble a, hex.nibble b, hex.nibble c, hex.nibble d with
          | Some w, Some x, Some y, Some z =>
              match rest with
              | EmptyString =>
                  match n' with O => Some [w * 16 + x; y * 16 + z] | _ => None end
              | String e rest' =>
                  if Ascii.eqb e "." then
                    match n' with
                    | O => None
                    | _ => (fun l => w * 16 + x :: y * 16 + z :: l) <$> parseQuads n' rest'
                    end
                  else None
              end
          | _, _, _, _ => None
          end
      | _ => None
      end
  end.

Definition macLen (n : nat) : bool := (n =? 6)%nat || (n =? 8)%nat || (n =? 20)%nat.

(** [net.ParseMAC]: EUI-48, EUI-64 or a 20-octet address. *)
Definition ParseMAC (s : string) : option (list Z) :=
  let l := String.length s in
  if (l <? 14)%nat then None
  else
    match String.get 2 s, String.get 4 s with
    | Some c2, Some c4 =>
        if Ascii.eqb c2 ":" || Ascii.eqb c2 "-" then
          if ((l + 1) mod 3 =? 0)%nat && macLen ((l + 1) / 3) then
            parsePairs ((l + 1) / 3) c2 s
          else None
        else if Ascii.eqb c4 "." then
          if ((l + 1) mod 5 =? 0)%nat && macLen (2 * (l + 1) / 5) then
            parseQuads ((l + 1) / 5) s
          else None
        else None
    | _, _ => None
    end.
End net.

Example ParseMAC_colon : net.ParseMAC "00:1A:2b:3c:4d:5e" = Some [0; 26; 43; 60; 77; 94].
Proof. reflexivity. Qed.
Example ParseMAC_dot : net.ParseMAC "001a.2b3c.4d5e" = Some [0; 26; 43; 60; 77; 94].
Proof. reflexivity. Qed.
Example Atoi_range : strconv.Atoi "99999999999999999999" = (2 ^ 63 - 1, false).
Proof. reflexivity. Qed.
Example Itoa_ex : strconv.Itoa 1024 = "1024".
Proof. reflexivity. Qed.
Example Split_ex : strings.SplitByte "-" "1.3.0-beta-x" = ["1.3.0"; "beta"; "x"].
Proof. reflexivity. Qed.

(** ** Concatenation *)

Lemma string_append_nil s : (s ++ "")%string = s.
Proof. induction s as [|c s IH]; [done|]. change ((String c s ++ "")%string) with (String c (s ++ "")). by rewrite IH. Qed.
Lemma string_append_assoc s t u : (s ++ (t ++ u))%string = ((s ++ t) ++ u)%string.
Proof.
  induction s as [|c s IH]; [done|]. change ((String c s ++ (t ++ u))%string) with (String c (s ++ (t ++ u))).
  by rewrite IH.
Qed.
