(* ===== verification/Bytes.v ===== *)
(** * Byte strings

    Byte slices are lists of integers below 256.  Fixed-width big-endian
    integers ([encoding/binary]) and unsigned varints ([binary.PutUvarint]),
    with their round trips, and the bits of a big-endian value. *)

From Stdlib Require Import Ascii String.
From S2P Require Import Prelude.
Local Open Scope Z_scope.

Definition is_byte (b : Z) : Prop := 0 <= b < 256.
#[export] Instance is_byte_dec b : Decision (is_byte b).
Proof. unfold is_byte. apply _. Defined.
Definition bytes_ok (l : list Z) : Prop := Forall is_byte l.

(** ** Big-endian integers *)

Definition be_value (l : list Z) : Z := foldl (fun acc b => acc * 256 + b) 0 l.

(** The low [k] bytes of [n], most significant first. *)
Fixpoint be_bytes (k : nat) (n : Z) : list Z :=
  match k with
  | O => []
  | S k => be_bytes k (n / 256) ++ [n mod 256]
  end%list.

Lemma be_value_snoc l b : be_value (l ++ [b]) = be_value l * 256 + b.
Proof. unfold be_value. by rewrite foldl_app. Qed.

Lemma be_value_bound l : bytes_ok l -> 0 <= be_value l < 256 ^ Z.of_nat (length l).
Proof.
  induction l as [|b l IH] using rev_ind; intros H; [cbn; lia|].
  apply Forall_app in H as [Hl Hb]. apply Forall_inv in Hb. specialize (IH Hl).
  rewrite be_value_snoc, length_app. cbn [length]. unfold is_byte in Hb.
  replace (Z.of_nat (length l + 1)) with (Z.of_nat (length l) + 1) by lia.
  rewrite Z.pow_add_r, Z.pow_1_r by lia. lia.
Qed.

Lemma be_bytes_length k n : length (be_bytes k n) = k.
Proof. revert n. induction k as [|k IH]; intros n; cbn; [done|]. rewrite length_app, IH. cbn. lia. Qed.

Lemma be_bytes_ok k n : bytes_ok (be_bytes k n).
Proof.
  revert n. induction k as [|k IH]; intros n; cbn; [constructor|].
  apply Forall_app. split; [apply IH|]. apply Forall_singleton. unfold is_byte.
  apply Z.mod_pos_bound. lia.
Qed.

Lemma be_value_bytes k n : be_value (be_bytes k n) = n mod 256 ^ Z.of_nat k.
Proof.
  revert n. induction k as [|k IH]; intros n; [cbn; by rewrite Z.mod_1_r|].
  cbn [be_bytes]. rewrite be_value_snoc, IH.
  replace (Z.of_nat (S k)) with (1 + Z.of_nat k) by lia. rewrite Z.pow_add_r by lia.
  rewrite Z.pow_1_r, Z.rem_mul_r by lia. lia.
Qed.

Lemma be_value_bytes_small k n : 0 <= n < 256 ^ Z.of_nat k -> be_value (be_bytes k n) = n.
Proof. intros H. rewrite be_value_bytes. by apply Z.mod_small. Qed.

Lemma be_bytes_value l : bytes_ok l -> be_bytes (length l) (be_value l) = l.
Proof.
  induction l as [|b l IH] using rev_ind; intros H; [done|].
  apply Forall_app in H as [Hl Hb]. apply Forall_inv in Hb. unfold is_byte in Hb.
  rewrite length_app, Nat.add_comm, be_value_snoc. cbn [length Nat.add be_bytes].
  rewrite Z.div_add_l, (Z.div_small b) by lia. rewrite Z.add_0_r, IH by done.
  rewrite Z.add_comm, Z.mod_add by lia. by rewrite Z.mod_small.
Qed.

Lemma be_value_app l l' :
  be_value (l ++ l') = be_value l * 256 ^ Z.of_nat (length l') + be_value l'.
Proof.
  induction l' as [|b l' IH] using rev_ind; [cbn; rewrite app_nil_r; lia|].
  rewrite app_assoc, !be_value_snoc, IH, length_app. cbn [length].
  replace (Z.of_nat (length l' + 1)) with (Z.of_nat (length l') + 1) by lia.
  rewrite Z.pow_add_r, Z.pow_1_r by lia. lia.
Qed.

Lemma be_value_middle l b l' :
  be_value (l ++ b :: l') = (be_value l * 256 + b) * 256 ^ Z.of_nat (length l') + be_value l'.
Proof. rewrite cons_middle, app_assoc, be_value_app, be_value_snoc. done. Qed.

(** ** Bits of a number in two parts *)

Lemma testbit_parts x y k n :
  0 <= y < 2 ^ k -> 0 <= k -> 0 <= n ->
  Z.testbit (x * 2 ^ k + y) n = if n <? k then Z.testbit y n else Z.testbit x (n - k).
Proof.
  intros Hy Hk Hn. destruct (Z.ltb_spec n k).
  - rewrite <- (Z.mod_pow2_bits_low _ k n) by lia.
    rewrite Z.add_comm, Z.mod_add by lia. by rewrite Z.mod_pow2_bits_low by lia.
  - replace n with ((n - k) + k) at 1 by lia. rewrite <- Z.div_pow2_bits by lia.
    rewrite Z.div_add_l by lia. rewrite (Z.div_small y) by lia. by rewrite Z.add_0_r.
Qed.

Lemma lor_bound y z k : 0 <= y < 2 ^ k -> 0 <= z < 2 ^ k -> 0 <= k -> 0 <= Z.lor y z < 2 ^ k.
Proof.
  intros Hy Hz Hk. split; [apply Z.lor_nonneg; lia|].
  destruct (decide (Z.lor y z = 0)) as [->|Hne]; [lia|].
  apply Z.log2_lt_pow2; [pose proof (Z.lor_nonneg y z); lia|].
  rewrite Z.log2_lor by lia.
  destruct (decide (y = 0)) as [->|]; destruct (decide (z = 0)) as [->|]; cbn in *; try done.
  - rewrite Z.max_r by apply Z.log2_nonneg. apply Z.log2_lt_pow2; lia.
  - rewrite Z.max_l by apply Z.log2_nonneg. apply Z.log2_lt_pow2; lia.
  - apply Z.max_lub_lt; apply Z.log2_lt_pow2; lia.
Qed.

Lemma lor_high x y z k :
  0 <= y < 2 ^ k -> 0 <= k -> Z.lor (x * 2 ^ k + y) (z * 2 ^ k) = Z.lor x z * 2 ^ k + y.
Proof.
  intros Hy Hk. apply Z.bits_inj'. intros n Hn.
  rewrite Z.lor_spec, !testbit_parts by done.
  pose proof (testbit_parts z 0 k n ltac:(lia) Hk Hn) as E. rewrite Z.add_0_r in E. rewrite E.
  rewrite Z.bits_0. destruct (n <? k); [by rewrite orb_false_r|]. by rewrite Z.lor_spec.
Qed.

Lemma lor_low x y z k :
  0 <= y < 2 ^ k -> 0 <= z < 2 ^ k -> 0 <= k ->
  Z.lor (x * 2 ^ k + y) z = x * 2 ^ k + Z.lor y z.
Proof.
  intros Hy Hz Hk. pose proof (lor_bound y z k Hy Hz Hk) as Hyz.
  apply Z.bits_inj'. intros n Hn. rewrite Z.lor_spec, !testbit_parts by done.
  pose proof (testbit_parts 0 z k n Hz Hk Hn) as E. rewrite Z.add_0_l in E. rewrite E.
  rewrite Z.bits_0. destruct (n <? k); [by rewrite Z.lor_spec|by rewrite orb_false_r].
Qed.

Lemma lor_ones_succ n : 0 <= n -> Z.lor (2 ^ n) (Z.ones n) = Z.ones (n + 1).
Proof.
  intros Hn. apply Z.bits_inj'. intros i Hi. rewrite Z.lor_spec, Z.pow2_bits_eqb by done.
  rewrite !Z.testbit_ones_nonneg by lia.
  destruct (Z.eqb_spec n i), (Z.ltb_spec i n), (Z.ltb_spec i (n + 1)); cbn; lia || done.
Qed.

(** Filling the low [h] bits. *)
Lemma lor_ones n h :
  0 <= n -> 0 <= h -> Z.lor n (Z.ones h) = n / 2 ^ h * 2 ^ h + (2 ^ h - 1).
Proof.
  intros Hn Hh. destruct (decide (h = 0)) as [->|Hne].
  { cbn. rewrite Z.lor_0_r, Z.div_1_r. lia. }
  pose proof (Z.mod_pos_bound n (2 ^ h)).
  rewrite (Z.div_mod n (2 ^ h)) at 1 by lia. rewrite (Z.mul_comm (2 ^ h)).
  rewrite lor_low by (rewrite ?Z.ones_equiv; lia). f_equal.
  rewrite Z.lor_ones_low; [by rewrite Z.ones_equiv; lia|lia|].
  destruct (decide (n mod 2 ^ h = 0)) as [->|]; [cbn; lia|]. apply Z.log2_lt_pow2; lia.
Qed.

(** ** Bytes of a string *)

Definition byte_of_ascii (c : ascii) : Z := Z.of_N (Ascii.N_of_ascii c).
Definition ascii_of_byte (b : Z) : ascii := Ascii.ascii_of_N (Z.to_N b).
Definition string_bytes (s : string) : list Z := map byte_of_ascii (String.list_ascii_of_string s).
Definition bytes_string (l : list Z) : string := String.string_of_list_ascii (map ascii_of_byte l).

Lemma byte_of_ascii_ok c : is_byte (byte_of_ascii c).
Proof. unfold is_byte, byte_of_ascii. pose proof (Ascii.N_ascii_bounded c). lia. Qed.

Lemma string_bytes_ok s : bytes_ok (string_bytes s).
Proof.
  unfold string_bytes. induction (String.list_ascii_of_string s); constructor; [|done].
  apply byte_of_ascii_ok.
Qed.

Lemma string_bytes_length s : length (string_bytes s) = String.length s.
Proof. induction s; cbn; [done|]. by f_equal. Qed.
Lemma ascii_of_byte_of_ascii c : ascii_of_byte (byte_of_ascii c) = c.
Proof. unfold ascii_of_byte, byte_of_ascii. rewrite N2Z.id. apply Ascii.ascii_N_embedding. Qed.

Lemma byte_of_ascii_of_byte b : is_byte b -> byte_of_ascii (ascii_of_byte b) = b.
Proof.
  unfold is_byte, ascii_of_byte, byte_of_ascii. intros H. rewrite Ascii.N_ascii_embedding; lia.
Qed.

Lemma bytes_string_bytes s : bytes_string (string_bytes s) = s.
Proof.
  unfold bytes_string, string_bytes. rewrite map_map.
  rewrite (map_ext _ id) by apply ascii_of_byte_of_ascii.
  rewrite map_id. apply String.string_of_list_ascii_of_string.
Qed.

Lemma string_bytes_string l : bytes_ok l -> string_bytes (bytes_string l) = l.
Proof.
  intros H. unfold bytes_string, string_bytes.
  rewrite String.list_ascii_of_string_of_list_ascii, map_map.
  induction H as [|b l Hb _ IH]; cbn; [done|]. by rewrite byte_of_ascii_of_byte, IH.
Qed.

#[export] Instance string_bytes_inj : Inj (=) (=) string_bytes.
Proof. intros s s' H. by rewrite <- (bytes_string_bytes s), H, bytes_string_bytes. Qed.

(** ** Readers

    A [bytes.Reader] is the list of the bytes left.  [io.EOF] is returned at
    the end, [io.ErrUnexpectedEOF] inside a value. *)

Definition ErrUnexpectedEOF : GoError := E_New "unexpected EOF".

(** [io.ReadFull] into a slice of [n] bytes. *)
Definition ReadFull (n : nat) (reader : list Z) : result (list Z * list Z) :=
  if (length reader <? n)%nat then
    Err (if (length reader =? 0)%nat then ErrEOF else ErrUnexpectedEOF)
  else Ok (take n reader, drop n reader).

(** [binary.Read(reader, binary.BigEndian, &x)] for an unsigned [x] of [n] bytes. *)
Definition readBE (n : nat) (reader : list Z) : result (Z * list Z) :=
  let? '(b, reader) := ReadFull n reader in Ok (be_value b, reader).

(** A two's complement integer of [8 * n] bits from its unsigned value. *)
Definition signed (n : nat) (x : Z) : Z :=
  let w := 8 * Z.of_nat n in if x <? 2 ^ (w - 1) then x else x - 2 ^ w.

Lemma ReadFull_app l rest : ReadFull (length l) (l ++ rest) = Ok (l, rest).
Proof.
  unfold ReadFull. rewrite length_app, (proj2 (Nat.ltb_ge _ (length l))) by lia.
  by rewrite take_app_length, drop_app_length.
Qed.

Lemma ReadFull_app' n l rest : length l = n -> ReadFull n (l ++ rest) = Ok (l, rest).
Proof. intros <-. apply ReadFull_app. Qed.

Lemma readBE_bytes n x rest :
  0 <= x < 256 ^ Z.of_nat n -> readBE n (be_bytes n x ++ rest) = Ok (x, rest).
Proof.
  intros Hx. unfold readBE. rewrite ReadFull_app' by apply be_bytes_length. cbn.
  by rewrite be_value_bytes_small.
Qed.

Lemma signed_mod n x :
  (0 < n)%nat -> - 2 ^ (8 * Z.of_nat n - 1) <= x < 2 ^ (8 * Z.of_nat n - 1) ->
  signed n (x mod 2 ^ (8 * Z.of_nat n)) = x.
Proof.
  intros Hn Hx. unfold signed.
  assert (E : 2 ^ (8 * Z.of_nat n) = 2 * 2 ^ (8 * Z.of_nat n - 1)).
  { rewrite <- Z.pow_succ_r by lia. f_equal. lia. }
  destruct (decide (0 <= x)).
  - rewrite Z.mod_small by lia. by rewrite (proj2 (Z.ltb_lt _ _)) by lia.
  - rewrite <- (Z.mod_add x 1) by lia. rewrite Z.mod_small by lia.
    rewrite (proj2 (Z.ltb_ge _ _)) by lia. lia.
Qed.

(** ** Unsigned varints ([binary.PutUvarint], [binary.ReadUvarint]) *)

(** [fuel] bytes are enough below [2 ^ (7 * fuel)]; a [uint64] takes at most ten. *)
Fixpoint putUvarint (fuel : nat) (x : Z) : list Z :=
  match fuel with
  | O => []
  | S fuel =>
      if x <? 128 then [x]
      else Z.lor (x mod 256) 128 :: putUvarint fuel (Z.shiftr x 7)
  end.
Definition uvarint (x : Z) : list Z := putUvarint 10 x.

Definition errOverflow : GoError := E_New "binary: varint overflows a 64-bit integer".

(** The loop with [left] iterations to go; [x] and [s] are its variables. *)
Fixpoint readUvarintLoop (left : nat) (x s : Z) (reader : list Z) : result (Z * list Z) :=
  match left with
  | O => Err errOverflow
  | S left' =>
      match reader with
      | [] => Err (if (left <? 10)%nat then ErrUnexpectedEOF else ErrEOF)
      | b :: reader =>
          if b <? 128 then
            if (left' =? 0)%nat && (1 <? b) then Err errOverflow
            else Ok (Z.lor x (Z.shiftl b s mod 2 ^ 64), reader)
          else readUvarintLoop left' (Z.lor x (Z.shiftl (Z.land b 127) s mod 2 ^ 64)) (s + 7) reader
      end
  end.
Definition ReadUvarint (reader : list Z) : result (Z * list Z) := readUvarintLoop 10 0 0 reader.

Lemma lor_128 x : 128 <= x -> 128 <= Z.lor (x mod 256) 128 < 256
  /\ Z.land (Z.lor (x mod 256) 128) 127 = x mod 128.
Proof.
  intros _. pose proof (Z.mod_pos_bound x 256).
  assert (Hb : 0 <= Z.lor (x mod 256) 128 < 2 ^ 8) by (apply lor_bound; lia).
  split.
  - split; [|lia]. pose proof (Z.lor_spec (x mod 256) 128 7) as E.
    destruct (Z.le_gt_cases 128 (Z.lor (x mod 256) 128)); [done|].
    rewrite (Z.bits_above_log2 (Z.lor _ _) 7) in E; [|lia|].
    + rewrite orb_comm in E. discriminate E.
    + destruct (decide (Z.lor (x mod 256) 128 = 0)) as [->|]; [done|]. apply Z.log2_lt_pow2; lia.
  - change 127 with (Z.ones 7). rewrite Z.land_ones by lia.
    apply Z.bits_inj'. intros n Hn. change (2 ^ 7) with 128. change 128 with (2 ^ 7) at 2 3.
    destruct (Z.lt_ge_cases n 7).
    + rewrite !Z.mod_pow2_bits_low by lia. rewrite Z.lor_spec.
      change 256 with (2 ^ 8). rewrite Z.mod_pow2_bits_low by lia.
      change 128 with (2 ^ 7). rewrite Z.pow2_bits_false by lia. apply orb_false_r.
    + by rewrite !Z.mod_pow2_bits_high by lia.
Qed.

Lemma lor_shifted acc n s :
  0 <= acc < 2 ^ s -> 0 <= s -> 0 <= n -> n * 2 ^ s < 2 ^ 64 ->
  Z.lor acc (Z.shiftl n s mod 2 ^ 64) = acc + n * 2 ^ s.
Proof.
  intros Ha Hs Hn Hb. rewrite Z.shiftl_mul_pow2 by done. rewrite Z.mod_small by lia.
  pose proof (lor_high 0 acc n s Ha Hs) as E. rewrite Z.lor_0_l, Z.mul_0_l, Z.add_0_l in E.
  rewrite E. lia.
Qed.

Lemma readUvarint_put left : forall acc s n rest,
  (0 < left <= 10)%nat -> s = 70 - 7 * Z.of_nat left -> 0 <= acc < 2 ^ s -> 0 <= n ->
  n * 2 ^ s < 2 ^ 64 ->
  readUvarintLoop left acc s (putUvarint left n ++ rest) = Ok (acc + n * 2 ^ s, rest).
Proof.
  induction left as [|left IH]; intros acc s n rest Hl Hs Ha Hn Hb; [lia|].
  cbn [putUvarint]. destruct (Z.ltb_spec n 128) as [Hsmall|Hbig].
  - cbn [app readUvarintLoop]. rewrite (proj2 (Z.ltb_lt n 128)) by done.
    assert (E : (left =? 0)%nat && (1 <? n) = false).
    { destruct (Nat.eqb_spec left 0) as [->|]; [|done]. cbn in Hs. subst s. apply Z.ltb_ge. lia. }
    rewrite E. rewrite lor_shifted by lia. done.
  - destruct (lor_128 n Hbig) as [Hr Hland].
    cbn [app readUvarintLoop]. rewrite (proj2 (Z.ltb_ge _ 128)) by lia. rewrite Hland.
    pose proof (Z.mod_pos_bound n 128 ltac:(lia)). pose proof (Z.div_mod n 128 ltac:(lia)) as Hdm.
    assert (Hp : 0 < 2 ^ s) by lia.
    assert (Hle : (n mod 128) * 2 ^ s <= n * 2 ^ s)
      by (apply Z.mul_le_mono_nonneg_r; [lia|apply Z.mod_le; lia]).
    rewrite lor_shifted by lia. rewrite Z.shiftr_div_pow2 by lia. change (2 ^ 7) with 128.
    assert (Hs7 : 2 ^ (s + 7) = 128 * 2 ^ s) by (rewrite Z.pow_add_r by lia; lia).
    assert (Hleft : (0 < left)%nat).
    { destruct left; [|lia]. cbn in Hs. subst s. lia. }
    rewrite IH; [|lia|lia| | |].
    + f_equal. f_equal. rewrite Hs7. rewrite Hdm at 3. lia.
    + rewrite Hs7. nia.
    + apply Z.div_pos; lia.
    + rewrite Hs7. nia.
Qed.

Lemma ReadUvarint_uvarint n rest :
  0 <= n < 2 ^ 64 -> ReadUvarint (uvarint n ++ rest) = Ok (n, rest).
Proof.
  intros Hn. unfold ReadUvarint, uvarint.
  rewrite readUvarint_put by (cbn; lia). by rewrite Z.mul_1_r.
Qed.

Lemma putUvarint_ok fuel : forall n, 0 <= n -> bytes_ok (putUvarint fuel n).
Proof.
  induction fuel as [|fuel IH]; intros n Hn; cbn; [constructor|].
  destruct (Z.ltb_spec n 128) as [Hs|Hb].
  - constructor; [|constructor]. unfold is_byte. lia.
  - constructor; [unfold is_byte; pose proof (lor_128 n Hb); lia|]. apply IH.
    by apply Z.shiftr_nonneg.
Qed.
