(* ===== verification/NetIP.v ===== *)
(** * Addresses: Go's [net/netip] and the [Socksaddr] struct

    [netip.Addr] and [netip.Prefix] are standard library types; the part of
    them the program uses is modelled here: the zero address, a 32-bit IPv4
    address, a 128-bit IPv6 address with its zone, prefixes with a bit length
    that [Contains] and [Overlaps] compare on.  [Socksaddr] is the struct
    [M.Socksaddr] the program builds with literals of its three fields. *)

From S2P Require Import Prelude.
From S2P Require Import Bytes.
Local Open Scope Z_scope.

(** ** [netip.Addr] *)

Inductive Addr :=
  | AddrNone
  | Addr4 (n : Z)
  | Addr6 (n : Z) (zone : string).

#[export] Instance Addr_eq_dec : EqDecision Addr.
Proof. solve_decision. Defined.

#[export] Instance Addr_countable : Countable Addr.
Proof.
  refine (inj_countable'
    (fun a => match a with
              | AddrNone => None
              | Addr4 n => Some (inl n)
              | Addr6 n z => Some (inr (n, z))
              end)
    (fun o => match o with
              | None => AddrNone
              | Some (inl n) => Addr4 n
              | Some (inr (n, z)) => Addr6 n z
              end) _).
  by intros [].
Defined.

Module Addr.
Definition IsValid (a : Addr) : bool :=
  match a with AddrNone => false | _ => true end.
Definition Is4 (a : Addr) : bool := match a with Addr4 _ => true | _ => false end.
Definition Is6 (a : Addr) : bool := match a with Addr6 _ _ => true | _ => false end.
(** An IPv4-mapped IPv6 address becomes the IPv4 address. *)
Definition Unmap (a : Addr) : Addr :=
  match a with
  | Addr6 n _ => if n / 2 ^ 32 =? 65535 then Addr4 (n mod 2 ^ 32) else a
  | _ => a
  end.
Definition IsLoopback (a : Addr) : bool :=
  match Unmap a with
  | Addr4 n => n / 2 ^ 24 =? 127
  | Addr6 n _ => n =? 1
  | AddrNone => false
  end.
Definition BitLen (a : Addr) : Z :=
  match a with AddrNone => 0 | Addr4 _ => 32 | Addr6 _ _ => 128 end.
Definition hasZone (a : Addr) : bool :=
  match a with Addr6 _ z => negb (String.eqb z "") | _ => false end.
Definition bits (a : Addr) : Z :=
  match a with AddrNone => 0 | Addr4 n => n | Addr6 n _ => n end.
(** [Next]: the following address, the zero [Addr] when there is none. *)
Definition Next (a : Addr) : Addr :=
  match a with
  | AddrNone => AddrNone
  | Addr4 n => if decide (n = 2^32 - 1) then AddrNone else Addr4 (n + 1)
  | Addr6 n z => if decide (n = 2^128 - 1) then AddrNone else Addr6 (n + 1) z
  end.
Definition withoutZone (a : Addr) : Addr :=
  match a with Addr6 n _ => Addr6 n "" | _ => a end.
(** The 16-byte form; an IPv4 address is mapped to [::ffff:a.b.c.d]. *)
Definition As16 (a : Addr) : list Z :=
  match a with
  | AddrNone => be_bytes 16 0
  | Addr4 n => be_bytes 16 (65535 * 2 ^ 32 + n)
  | Addr6 n _ => be_bytes 16 n
  end.
Definition AddrFrom4 (b : list Z) : Addr := Addr4 (be_value b).
Definition AddrFrom16 (b : list Z) : Addr := Addr6 (be_value b) "".
Definition AsSlice (a : Addr) : list Z :=
  match a with AddrNone => [] | Addr4 n => be_bytes 4 n | Addr6 n _ => be_bytes 16 n end.
Definition MarshalBinary (a : Addr) : list Z :=
  match a with Addr6 _ z => AsSlice a ++ string_bytes z | _ => AsSlice a end%list.
Definition UnmarshalBinary (b : list Z) : option Addr :=
  let n := length b in
  if (n =? 0)%nat then Some AddrNone
  else if (n =? 4)%nat then Some (AddrFrom4 b)
  else if (n =? 16)%nat then Some (AddrFrom16 b)
  else if (16 <? n)%nat then Some (Addr6 (be_value (take 16 b)) (bytes_string (drop 16 b)))
  else None.
(** The value lies within the width of its family. *)
Definition wf (a : Addr) : Prop := 0 <= bits a < 2 ^ BitLen a.
End Addr.

(** ** [netip.Prefix] *)

Record Prefix := mkPrefix { p_Addr : Addr; p_Bits : Z }.

#[export] Instance Prefix_eq_dec : EqDecision Prefix.
Proof. solve_decision. Defined.

#[export] Instance Prefix_countable : Countable Prefix.
Proof.
  refine (inj_countable' (fun p => (p_Addr p, p_Bits p)) (fun '(a, b) => mkPrefix a b) _). by intros [].
Defined.

Module Prefix.
(** The zero [Prefix]. *)
Definition zero : Prefix := mkPrefix AddrNone (-1).
(** [PrefixFrom]: the zone is dropped, an out-of-range length is stored as the
    invalid length -1. *)
Definition PrefixFrom (a : Addr) (b : Z) : Prefix :=
  if Addr.IsValid a && bool_decide (0 <= b <= Addr.BitLen a)
  then mkPrefix (Addr.withoutZone a) b else mkPrefix (Addr.withoutZone a) (-1).
(** The length is stored in one byte, -1 as 255. *)
Definition MarshalBinary (p : Prefix) : list Z :=
  (Addr.MarshalBinary (Addr.withoutZone (p_Addr p)) ++ [p_Bits p mod 256])%list.
Definition UnmarshalBinary (b : list Z) : option Prefix :=
  match rev b with
  | [] => None
  | bits :: addr =>
      match Addr.UnmarshalBinary (rev addr) with
      | None => None
      | Some a => Some (PrefixFrom a bits)
      end
  end.
Definition IsValid (p : Prefix) : bool :=
  Addr.IsValid (p_Addr p) && bool_decide (0 <= p_Bits p).
Definition Contains (p : Prefix) (ip : Addr) : bool :=
  if negb (IsValid p) || Addr.hasZone ip then false
  else
    let f1 := Addr.BitLen (p_Addr p) in
    let f2 := Addr.BitLen ip in
    if (f1 =? 0) || (f2 =? 0) || negb (f1 =? f2) then false
    else Z.shiftr (Z.lxor (Addr.bits ip) (Addr.bits (p_Addr p))) (f1 - p_Bits p) =? 0.
(** [Addr.Prefix(b)]: the address with the bits after the first [b] cleared. *)
Definition masked (a : Addr) (b : Z) : Addr :=
  let keep n := Z.shiftl (Z.shiftr n (Addr.BitLen a - b)) (Addr.BitLen a - b) in
  match a with
  | AddrNone => AddrNone
  | Addr4 n => Addr4 (keep n)
  | Addr6 n _ => Addr6 (keep n) ""
  end.
Definition Overlaps (p o : Prefix) : bool :=
  if negb (IsValid p) || negb (IsValid o) then false
  else if bool_decide (p = o) then true
  else if negb (Bool.eqb (Addr.Is4 (p_Addr p)) (Addr.Is4 (p_Addr o))) then false
  else
    let minBits := if p_Bits p <? p_Bits o then p_Bits p else p_Bits o in
    if minBits =? 0 then true
    else bool_decide (masked (p_Addr p) minBits = masked (p_Addr o) minBits).
Definition wf (p : Prefix) : Prop :=
  Addr.wf (p_Addr p) /\ 0 <= p_Bits p <= Addr.BitLen (p_Addr p).
(** What the package's own constructors give: the zero prefix, or an address
    without zone and a length within its width. *)
Definition canonical (p : Prefix) : Prop :=
  p = zero \/ (wf p /\ Addr.IsValid (p_Addr p) = true /\ Addr.hasZone (p_Addr p) = false).
End Prefix.

(** ** [M.Socksaddr] *)

Record Socksaddr := mkSocksaddr { sa_Addr : Addr; sa_Port : Z; sa_Fqdn : string }.

#[export] Instance Socksaddr_eq_dec : EqDecision Socksaddr.
Proof. solve_decision. Defined.

Definition Socksaddr_zero : Socksaddr := mkSocksaddr AddrNone 0 "".

(** ** Lemmas *)

(** Two numbers agree above bit [k] when their quotients by [2^k] agree. *)
Lemma lxor_shiftr_0 (a b k : Z) :
  0 <= k ->
  (Z.shiftr (Z.lxor a b) k =? 0) = (a / 2 ^ k =? b / 2 ^ k).
Proof.
  intros Hk. rewrite Z.shiftr_lxor, !Z.shiftr_div_pow2 by done.
  apply Bool.eq_iff_eq_true. rewrite !Z.eqb_eq. apply Z.lxor_eq_0_iff.
Qed.

(** [Contains] on an IPv4 prefix, as a statement about the integers. *)
Lemma Contains_Addr4 (a b n : Z) :
  0 <= b <= 32 ->
  Prefix.Contains (mkPrefix (Addr4 a) b) (Addr4 n) = (n / 2 ^ (32 - b) =? a / 2 ^ (32 - b)).
Proof.
  intros Hb. unfold Prefix.Contains, Prefix.IsValid.
  cbn [p_Addr p_Bits Addr.IsValid Addr.hasZone Addr.BitLen Addr.bits].
  rewrite bool_decide_eq_true_2 by lia. cbn -[Z.shiftr Z.lxor Z.sub].
  apply lxor_shiftr_0. lia.
Qed.

Lemma Contains_Addr6 (a b n : Z) (z : string) :
  0 <= b <= 128 ->
  Prefix.Contains (mkPrefix (Addr6 a z) b) (Addr6 n "") = (n / 2 ^ (128 - b) =? a / 2 ^ (128 - b)).
Proof.
  intros Hb. unfold Prefix.Contains, Prefix.IsValid.
  cbn [p_Addr p_Bits Addr.IsValid Addr.hasZone Addr.BitLen Addr.bits].
  rewrite bool_decide_eq_true_2 by lia. cbn -[Z.shiftr Z.lxor Z.sub].
  apply lxor_shiftr_0. lia.
Qed.

Lemma Contains_IsValid (p : Prefix) (a : Addr) :
  Prefix.Contains p a = true -> Addr.IsValid a = true.
Proof.
  unfold Prefix.Contains. destruct a; cbn -[Z.shiftr Z.lxor]; [|done..].
  destruct (_ || _); [done|]. by rewrite orb_true_r.
Qed.

(** ** Round trips *)

Lemma Addr_roundtrip (a : Addr) :
  Addr.wf a -> Addr.UnmarshalBinary (Addr.MarshalBinary a) = Some a.
Proof.
  intros Hwf. destruct a as [|n|n z]; [done| |]; unfold Addr.wf in Hwf; cbn in Hwf.
  - unfold Addr.UnmarshalBinary, Addr.MarshalBinary, Addr.AsSlice, Addr.AddrFrom4.
    rewrite be_bytes_length. cbn [Nat.eqb]. by rewrite be_value_bytes_small.
  - unfold Addr.UnmarshalBinary, Addr.MarshalBinary, Addr.AsSlice, Addr.AddrFrom16.
    rewrite length_app, be_bytes_length.
    rewrite take_app_length', drop_app_length' by by rewrite be_bytes_length.
    rewrite be_value_bytes_small, bytes_string_bytes by done.
    destruct z as [|c z]; [|done]. change (string_bytes _) with (@nil Z).
    rewrite app_nil_r. cbn [length Nat.add Nat.eqb]. by rewrite be_value_bytes_small.
Qed.

Lemma hasZone_withoutZone a : Addr.hasZone a = false -> Addr.withoutZone a = a.
Proof. destruct a as [| |n []]; done. Qed.

Lemma Prefix_roundtrip (p : Prefix) :
  Prefix.canonical p -> Prefix.UnmarshalBinary (Prefix.MarshalBinary p) = Some p.
Proof.
  intros [->|([Ha Hb] & Hv & Hz)]; [done|].
  unfold Prefix.UnmarshalBinary, Prefix.MarshalBinary.
  rewrite rev_app_distr. cbn [rev app]. rewrite rev_involutive, hasZone_withoutZone, Addr_roundtrip by done.
  unfold Prefix.PrefixFrom. rewrite Hv, hasZone_withoutZone by done.
  assert (Addr.BitLen (p_Addr p) <= 128) by by destruct (p_Addr p).
  rewrite Z.mod_small by lia. rewrite bool_decide_eq_true_2 by done. by destruct p.
Qed.
