(* ===== verification/Libs.v ===== *)
(** * What the program relies on outside its own sources

    DNS messages as [github.com/miekg/dns] lays them out (the fields the
    program reads), and one class, [Libs], of the operations of other packages
    the program calls.  Every definition that calls one of them takes the
    class as an argument.  The laws are the documented behaviour of the slice
    helpers of [sing/common]; nothing is assumed of the other operations.
    [ref_libs] is a concrete instance, for the examples and the witnesses. *)

From S2P Require Import Prelude.
From S2P Require Import GoText.
From S2P Require Import Bytes.
From S2P Require Import NetIP.
From Stdlib Require Import Ascii.
Local Open Scope Z_scope.

(** ** DNS messages *)

Record RR_Header := mkHeader {
  hdr_Name : string; hdr_Rrtype : Z; hdr_Class : Z; hdr_Ttl : Z }.

Inductive SVCBKeyValue :=
  | SVCBIPv4Hint (hint : list (list Z))
  | SVCBIPv6Hint (hint : list (list Z))
  | SVCBOther (raw : list Z).

(** EDNS options: the client subnet, and any other one with its code. *)
Inductive EDNS0 :=
  | EDNS0_SUBNET (family sourceNetmask sourceScope : Z) (address : list Z)
  | EDNS0_Other (code : Z) (data : list Z).

(** The record types the program tells apart; [RR_Other] is any other one. *)
Inductive RRData :=
  | RR_A (ip : list Z)
  | RR_AAAA (ip : list Z)
  | RR_HTTPS (value : list SVCBKeyValue)
  | RR_SOA (rdata : list Z) (minttl : Z)
  | RR_OPT (option : list EDNS0)
  | RR_Other (rdata : list Z).

Record RR := mkRR { rr_Header : RR_Header; rr_Data : RRData }.

Record Question := mkQuestion { q_Name : string; q_Qtype : Z; q_Qclass : Z }.

Record Msg := mkMsg {
  msg_Id : Z;
  msg_Response : bool;
  msg_Authoritative : bool;
  msg_RecursionDesired : bool;
  msg_RecursionAvailable : bool;
  msg_Rcode : Z;
  msg_Question : list Question;
  msg_Answer : list RR;
  msg_Ns : list RR;
  msg_Extra : list RR }.

Definition RcodeSuccess : Z := 0.

(** ** Libraries *)

Class Libs := {
  (* sing/common/metadata, sing/common/network *)
  sa_IsIP : Socksaddr -> bool;
  sa_IsIPv4 : Socksaddr -> bool;
  sa_IsIPv6 : Socksaddr -> bool;
  sa_IsDomain : Socksaddr -> bool;
  sa_IsValid : Socksaddr -> bool;
  M_AddrFromIP : list Z -> Addr;
  M_IsDomainName : string -> bool;
  N_IsPublicAddr : Addr -> bool;
  (* go4.org/netipx: the set a builder makes of the added prefixes and addresses *)
  IPSet : Type;
  IPSet_Build : list (Prefix + Addr) -> option IPSet;
  IPSet_Contains : IPSet -> Addr -> bool;
  (* sing/common/domain *)
  DomainMatcher : Type;
  NewMatcher : list string -> list string -> bool -> DomainMatcher;
  DomainMatcher_Match : DomainMatcher -> string -> bool;
  AdGuardMatcher : Type;
  NewAdGuardMatcher : list string -> AdGuardMatcher;
  AdGuardMatcher_Match : AdGuardMatcher -> string -> bool;
  (* regexp *)
  Regexp : Type;
  regexp_Compile : string -> option Regexp;
  regexp_MatchString : Regexp -> string -> bool;
  (* miekg/dns *)
  dns_IsDuplicate : RR -> RR -> bool;
  dns_CanonicalName : string -> string;
  (* Unicode case mapping, path and address syntax of the standard library *)
  strings_ToLower : string -> string;
  strings_EqualFold : string -> string -> bool;
  filepath_Base : string -> string;
  netip_ParsePrefix : string -> option Prefix;
  netip_ParseAddr : string -> option Addr;
  (* sing/common, sing/common/format *)
  common_Any : forall {A : Type}, list A -> (A -> bool) -> bool;
  common_All : forall {A : Type}, list A -> (A -> bool) -> bool;
  common_Contains : forall {A : Type} {_ : EqDecision A}, list A -> A -> bool;
  common_Filter : forall {A : Type}, list A -> (A -> bool) -> list A;
  common_Find : forall {A : Type}, list A -> (A -> bool) -> option A;
  common_Uniq : forall {A : Type} {_ : EqDecision A}, list A -> list A;
  F_ToString : list string -> string;
  F_ToString_int : Z -> string;
  (* printing of library values *)
  Prefix_String : Prefix -> string;
  Addr_String : Addr -> string;
  Duration_String : Z -> string;
  sa_AddrString : Socksaddr -> string;
  M_ParseSocksaddrHostPort : string -> Z -> Socksaddr;
  RR_String : RR -> string;
  dns_RcodeToString : Z -> string;
  dns_TypeToString : Z -> option string;
  varbin_WriteUvarint : Z -> list Z;
  (* what their documentation states *)
  common_Any_spec : forall A (l : list A) f, common_Any l f = existsb f l;
  common_All_spec : forall A (l : list A) f, common_All l f = forallb f l;
  common_Contains_spec : forall A (HA : EqDecision A) (l : list A) x,
    common_Contains l x = bool_decide (x ∈ l);
  common_Filter_spec : forall A (l : list A) f, common_Filter l f = List.filter f l;
  common_Find_spec : forall A (l : list A) f, common_Find l f = List.find f l;
  common_Uniq_spec : forall A (HA : EqDecision A) (l : list A) x,
    x ∈ common_Uniq l <-> x ∈ l;
  common_Uniq_NoDup : forall A (HA : EqDecision A) (l : list A), NoDup (common_Uniq l);
  F_ToString_spec : forall l, F_ToString l = strings.Join l "";
  F_ToString_int_spec : forall n, F_ToString_int n = strconv.Itoa n;
  M_AddrFromIP_nil : M_AddrFromIP [] = AddrNone;
  M_AddrFromIP_slice : forall a,
    Addr.wf a -> Addr.IsValid a = true -> Addr.hasZone a = false ->
    M_AddrFromIP (Addr.AsSlice a) = a;
  varbin_WriteUvarint_spec : forall n, 0 <= n < 2 ^ 64 -> varbin_WriteUvarint n = uvarint n
}.

(** ** A concrete instance

    Sets of addresses are lists of prefixes and addresses, matchers are exact
    and suffix string comparisons, a regular expression matches the strings
    that contain it. *)

Definition ref_IPSet_Contains (s : list (Prefix + Addr)) (a : Addr) : bool :=
  existsb (fun e => match e with
                    | inl p => Prefix.Contains p a
                    | inr b => bool_decide (a = b)
                    end) s.

Definition ref_AddrFromIP (ip : list Z) : Addr :=
  if (length ip =? 4)%nat then Addr4 (be_value ip)
  else if (length ip =? 16)%nat then Addr6 (be_value ip) "" else AddrNone.

Lemma ref_AddrFromIP_slice a :
  Addr.wf a -> Addr.IsValid a = true -> Addr.hasZone a = false -> ref_AddrFromIP (Addr.AsSlice a) = a.
Proof.
  intros Hwf Hv Hz. unfold ref_AddrFromIP. destruct a as [|n|n [|c z]]; try done;
    cbn [Addr.AsSlice]; rewrite be_bytes_length; cbn [Nat.eqb]; f_equal;
    by apply be_value_bytes_small.
Qed.

Definition ref_IsPrivate (a : Addr) : bool :=
  existsb (fun p => Prefix.Contains p a)
    [mkPrefix (Addr4 (10 * 2^24)) 8; mkPrefix (Addr4 (172 * 2^24 + 16 * 2^16)) 12;
     mkPrefix (Addr4 (192 * 2^24 + 168 * 2^16)) 16; mkPrefix (Addr4 (127 * 2^24)) 8].

Definition ref_libs : Libs := {|
  sa_IsIP a := Addr.IsValid (sa_Addr a);
  sa_IsIPv4 a := Addr.Is4 (sa_Addr a);
  sa_IsIPv6 a := Addr.Is6 (sa_Addr a);
  sa_IsDomain a := negb (Addr.IsValid (sa_Addr a)) && negb (String.eqb (sa_Fqdn a) "");
  sa_IsValid a := Addr.IsValid (sa_Addr a) || negb (String.eqb (sa_Fqdn a) "");
  M_AddrFromIP := ref_AddrFromIP;
  M_IsDomainName s := negb (String.eqb s "");
  N_IsPublicAddr a := negb (ref_IsPrivate a);
  IPSet := list (Prefix + Addr);
  IPSet_Build l := Some l;
  IPSet_Contains := ref_IPSet_Contains;
  DomainMatcher := list string * list string;
  NewMatcher d s _ := (d, s);
  DomainMatcher_Match m s :=
    existsb (String.eqb s) (fst m) || existsb (strings.HasSuffix s) (snd m);
  AdGuardMatcher := list string;
  NewAdGuardMatcher l := l;
  AdGuardMatcher_Match m s := existsb (String.eqb s) m;
  Regexp := string;
  regexp_Compile s := Some s;
  regexp_MatchString r s := strings.Contains s r;
  dns_IsDuplicate a b := String.eqb (hdr_Name (rr_Header a)) (hdr_Name (rr_Header b));
  dns_CanonicalName s := s;
  strings_ToLower s := s;
  strings_EqualFold := String.eqb;
  filepath_Base s := List.last (strings.SplitByte "/"%char s) ""%string;
  netip_ParsePrefix _ := None;
  netip_ParseAddr _ := None;
  common_Any A l f := existsb f l;
  common_All A l f := forallb f l;
  common_Contains A _ l x := bool_decide (x ∈ l);
  common_Filter A l f := List.filter f l;
  common_Find A l f := List.find f l;
  common_Uniq A _ l := remove_dups l;
  F_ToString l := strings.Join l "";
  F_ToString_int := strconv.Itoa;
  Prefix_String p := strconv.Itoa (Addr.bits (p_Addr p));
  Addr_String a := strconv.Itoa (Addr.bits a);
  Duration_String := strconv.Itoa;
  sa_AddrString a := sa_Fqdn a;
  M_ParseSocksaddrHostPort host port := mkSocksaddr AddrNone port host;
  RR_String r := hdr_Name (rr_Header r);
  dns_RcodeToString := strconv.Itoa;
  dns_TypeToString _ := None;
  varbin_WriteUvarint := uvarint;
  common_Any_spec _ _ _ := eq_refl;
  common_All_spec _ _ _ := eq_refl;
  common_Contains_spec _ _ _ _ := eq_refl;
  common_Filter_spec _ _ _ := eq_refl;
  common_Find_spec _ _ _ := eq_refl;
  common_Uniq_spec A HA l x := elem_of_remove_dups l x;
  common_Uniq_NoDup A HA l := NoDup_remove_dups l;
  F_ToString_spec _ := eq_refl;
  F_ToString_int_spec _ := eq_refl;
  M_AddrFromIP_nil := eq_refl;
  M_AddrFromIP_slice := ref_AddrFromIP_slice;
  varbin_WriteUvarint_spec _ _ := eq_refl
|}.
