(* ===== verification/Metadata.v ===== *)
(** * Connection metadata: [adapter/inbound.go]

    The struct [InboundContext] every rule reads and the matcher writes its
    rule cache into, the rule-cache resets, and the addresses a DNS response
    exposes to address rules. *)

From S2P Require Import Prelude.
From S2P Require Import GoText.
From S2P Require Import NetIP.
From S2P Require Import Libs.
Local Open Scope Z_scope.

(** [adapter.ConnectionOwner] (adapter/platform.go). *)
Record ConnectionOwner := mkOwner {
  ProcessID : Z; UserId : Z; UserName : string; ProcessPath : string;
  AndroidPackageNames : list string }.

(** The only value ever stored in [SniffContext]: the CRYPTO fragments the
    QUIC sniffer has collected (common/sniff/quic.go). *)
Record qCryptoFragment := mkFragment { qf_offset : Z; qf_length : Z; qf_payload : list Z }.

Set Primitive Projections.
(** [adapter.InboundContext].  A nil pointer or slice used as a pointer is
    [None]; durations and method numbers are integers. *)
Record InboundContext := mkContext {
  m_Inbound : string;
  m_InboundType : string;
  m_IPVersion : Z;
  m_Network : string;
  m_Source : Socksaddr;
  m_Destination : Socksaddr;
  m_User : string;
  m_Outbound : string;
  m_RouteRule : string;
  m_RouteOutbound : string;
  m_Protocol : string;
  m_Domain : string;
  m_Client : string;
  m_SniffContext : option (list qCryptoFragment);
  m_SnifferNames : list string;
  m_SniffError : option GoError;
  m_InboundDetour : string;
  m_LastInbound : string;
  m_OriginDestination : Socksaddr;
  m_RouteOriginalDestination : Socksaddr;
  m_UDPDisableDomainUnmapping : bool;
  m_UDPConnect : bool;
  m_UDPTimeout : Z;
  m_TLSFragment : bool;
  m_TLSFragmentFallbackDelay : Z;
  m_TLSRecordFragment : bool;
  m_TLSSpoof : string;
  m_TLSSpoofMethod : Z;
  m_NetworkStrategy : option Z;
  m_NetworkType : list Z;
  m_FallbackNetworkType : list Z;
  m_FallbackDelay : Z;
  m_DestinationAddresses : list Addr;
  m_DNSResponse : option Msg;
  m_NamedDNSResponses : gmap string Msg;
  m_DestinationAddressMatchFromResponse : bool;
  m_SourceGeoIPCode : string;
  m_GeoIPCode : string;
  m_ProcessInfo : option ConnectionOwner;
  m_SourceMACAddress : option (list Z);
  m_SourceHostname : string;
  m_QueryType : Z;
  m_QueryClientSubnet : Prefix;
  m_QueryDNSSEC : bool;
  m_FakeIP : bool;
  m_PreMatch : bool;
  m_IPCIDRMatchSource : bool;
  m_IPCIDRAcceptEmpty : bool;
  m_SourceAddressMatch : bool;
  m_SourcePortMatch : bool;
  m_DestinationAddressMatch : bool;
  m_DestinationPortMatch : bool;
  m_DeferredIPCIDRMatchGroups : Z;
  m_IgnoreDestinationIPCIDRMatch : bool
}.
Unset Primitive Projections.

(** ** Assignments [c.Field = v] *)

Definition set_Destination (c : InboundContext) v := {| c with m_Destination := v |}.
Definition set_DNSResponse (c : InboundContext) v := {| c with m_DNSResponse := v |}.
Definition set_DestinationAddressMatchFromResponse (c : InboundContext) v :=
  {| c with m_DestinationAddressMatchFromResponse := v |}.
Definition set_IPCIDRMatchSource (c : InboundContext) v := {| c with m_IPCIDRMatchSource := v |}.
Definition set_IPCIDRAcceptEmpty (c : InboundContext) v := {| c with m_IPCIDRAcceptEmpty := v |}.
Definition set_Deferred (c : InboundContext) v := {| c with m_DeferredIPCIDRMatchGroups := v |}.
Definition set_IgnoreDestinationIPCIDRMatch (c : InboundContext) v :=
  {| c with m_IgnoreDestinationIPCIDRMatch := v |}.

Definition set_RouteOriginalDestination (c : InboundContext) v := {| c with m_RouteOriginalDestination := v |}.
Definition set_DestinationAddresses (c : InboundContext) v := {| c with m_DestinationAddresses := v |}.
Definition set_NetworkStrategy (c : InboundContext) v := {| c with m_NetworkStrategy := v |}.
Definition set_NetworkType (c : InboundContext) v := {| c with m_NetworkType := v |}.
Definition set_FallbackNetworkType (c : InboundContext) v := {| c with m_FallbackNetworkType := v |}.
Definition set_FallbackDelay (c : InboundContext) v := {| c with m_FallbackDelay := v |}.
Definition set_UDPDisableDomainUnmapping (c : InboundContext) v := {| c with m_UDPDisableDomainUnmapping := v |}.
Definition set_UDPConnect (c : InboundContext) v := {| c with m_UDPConnect := v |}.
Definition set_UDPTimeout (c : InboundContext) v := {| c with m_UDPTimeout := v |}.
Definition set_TLSRecordFragment (c : InboundContext) v := {| c with m_TLSRecordFragment := v |}.
Definition set_TLSFragment (c : InboundContext) v d :=
  {| c with m_TLSFragment := v; m_TLSFragmentFallbackDelay := d |}.
Definition set_TLSSpoof (c : InboundContext) v method :=
  {| c with m_TLSSpoof := v; m_TLSSpoofMethod := method |}.

(** [if b { ... }] with the assignments [f]. *)
Definition when (b : bool) (f : InboundContext -> InboundContext) (c : InboundContext) : InboundContext :=
  if b then f c else c.

(** [InboundContext{}]: every field at its Go zero value. *)
Definition InboundContext_zero : InboundContext := {|
  m_Inbound := ""; m_InboundType := ""; m_IPVersion := 0; m_Network := "";
  m_Source := Socksaddr_zero; m_Destination := Socksaddr_zero; m_User := "";
  m_Outbound := ""; m_RouteRule := ""; m_RouteOutbound := ""; m_Protocol := "";
  m_Domain := ""; m_Client := ""; m_SniffContext := None; m_SnifferNames := [];
  m_SniffError := None; m_InboundDetour := ""; m_LastInbound := "";
  m_OriginDestination := Socksaddr_zero; m_RouteOriginalDestination := Socksaddr_zero;
  m_UDPDisableDomainUnmapping := false; m_UDPConnect := false; m_UDPTimeout := 0;
  m_TLSFragment := false; m_TLSFragmentFallbackDelay := 0; m_TLSRecordFragment := false;
  m_TLSSpoof := ""; m_TLSSpoofMethod := 0; m_NetworkStrategy := None; m_NetworkType := [];
  m_FallbackNetworkType := []; m_FallbackDelay := 0; m_DestinationAddresses := [];
  m_DNSResponse := None; m_NamedDNSResponses := ∅;
  m_DestinationAddressMatchFromResponse := false; m_SourceGeoIPCode := "";
  m_GeoIPCode := ""; m_ProcessInfo := None; m_SourceMACAddress := None;
  m_SourceHostname := ""; m_QueryType := 0; m_QueryClientSubnet := Prefix.zero;
  m_QueryDNSSEC := false; m_FakeIP := false; m_PreMatch := false;
  m_IPCIDRMatchSource := false; m_IPCIDRAcceptEmpty := false;
  m_SourceAddressMatch := false; m_SourcePortMatch := false;
  m_DestinationAddressMatch := false; m_DestinationPortMatch := false;
  m_DeferredIPCIDRMatchGroups := 0; m_IgnoreDestinationIPCIDRMatch := false |}.

(** ** Rule cache *)

Definition ResetRuleMatchCache (c : InboundContext) : InboundContext :=
  {| c with
     m_SourceAddressMatch := false;
     m_SourcePortMatch := false;
     m_DestinationAddressMatch := false;
     m_DestinationPortMatch := false;
     m_DeferredIPCIDRMatchGroups := 0 |}.

Definition ResetRuleCache (c : InboundContext) : InboundContext :=
  ResetRuleMatchCache (set_IPCIDRAcceptEmpty (set_IPCIDRMatchSource c false) false).

(** ** Addresses of a DNS response *)

Section response.
Context `{Libs}.

Definition hintAddresses (v : SVCBKeyValue) : list Addr :=
  match v with
  | SVCBIPv4Hint hint =>
      List.filter Addr.IsValid (map (fun ip => Addr.Unmap (M_AddrFromIP ip)) hint)
  | SVCBIPv6Hint hint => List.filter Addr.IsValid (map M_AddrFromIP hint)
  | SVCBOther _ => []
  end.

Definition recordAddresses (r : RR) : list Addr :=
  match rr_Data r with
  | RR_A ip | RR_AAAA ip => List.filter Addr.IsValid [M_AddrFromIP ip]
  | RR_HTTPS value => flat_map hintAddresses value
  | RR_SOA _ _ | RR_OPT _ | RR_Other _ => []
  end.

Definition DNSResponseAddresses (response : option Msg) : list Addr :=
  match response with
  | None => []
  | Some response =>
      if negb (msg_Rcode response =? RcodeSuccess) then []
      else flat_map recordAddresses (msg_Answer response)
  end.

Definition DNSResponseAddressesForMatch (c : InboundContext) : list Addr :=
  DNSResponseAddresses (m_DNSResponse c).
End response.
