(* ===== verification/RuleItems.v ===== *)
(** * Rule items: [route/rule/rule_item_*.go], [route/rule/*_interface_address.go]

    One record per item type with its constructor, its [Match] and its
    [String].  The items read the connection metadata and, for the items about
    the machine's own network, the state the network manager reports
    ([RuleEnv]); none of them writes the metadata.  [RuleItem] is the interface
    value: a tagged union of the item types. *)

From S2P Require Import Prelude.
From S2P Require Import GoText.
From S2P Require Import NetIP.
From S2P Require Import Libs.
From S2P Require Import Metadata.
Local Open Scope Z_scope.
Local Open Scope string_scope.
Local Open Scope Z_scope.

(** ** What the network manager and the Clash mode manager report *)

(** [control.Interface]: the fields the items read. *)
Record Interface := mkInterface { if_Name : string; if_Addresses : list Prefix }.
Definition Interface_zero : Interface := mkInterface "" [].

Record NetworkInterface := mkNetworkInterface {
  ni_Interface : Interface; ni_Type : Z; ni_Expensive : bool; ni_Constrained : bool }.

(** [tun.DefaultInterfaceMonitor]. *)
Record InterfaceMonitor := mkMonitor {
  mon_DefaultInterface : option Interface; mon_MyInterfaces : list string }.

Record WIFIState := mkWIFIState { SSID : string; BSSID : string }.

Record RuleEnv := mkEnv {
  env_DefaultNetworkInterface : option NetworkInterface;
  env_NetworkInterfaces : list NetworkInterface;
  env_Interfaces : list Interface;
  env_InterfaceMonitor : option InterfaceMonitor;
  env_WIFIState : WIFIState;
  env_ClashMode : string;
  env_IsAndroid : bool }.

(** [adapter.OutboundWithPreferredRoutes] and [adapter.DNSTransportWithPreferredDomain].
    Of the metadata they are given, implementations of the first read the
    [PreMatch] flag (the bridge outbound) and nothing else. *)
Record PreferredOutbound := mkPreferredOutbound {
  PreferredDomain : bool -> string -> bool;
  PreferredAddress : bool -> Addr -> bool }.
Record PreferredTransport := mkPreferredTransport { TransportPreferredDomain : string -> bool }.

(** [C.InterfaceType] (constant/network.go). *)
Definition InterfaceTypeWIFI : Z := 0.
Definition InterfaceTypeCellular : Z := 1.
Definition InterfaceTypeEthernet : Z := 2.
Definition InterfaceTypeOther : Z := 3.

Section items.
Context `{L : Libs}.

Definition InterfaceType_String (t : Z) : string :=
  if t =? InterfaceTypeWIFI then "wifi"
  else if t =? InterfaceTypeCellular then "cellular"
  else if t =? InterfaceTypeEthernet then "ethernet"
  else if t =? InterfaceTypeOther then "other"
  else F_ToString_int t.

(** The description of a list-valued item: the value itself when there is one,
    the values in brackets otherwise. *)
Definition listString (name : string) (l : list string) : string :=
  match l with
  | [x] => F_ToString [name; x]
  | _ => F_ToString [name ++ "["; strings.Join l " "; "]"]
  end%string.

(** The same, with the list cut after three values. *)
Definition listString3 (name : string) (l : list string) : string :=
  match l with
  | [x] => name ++ x
  | _ =>
      if (3 <? length l)%nat then name ++ "[" ++ strings.Join (firstn 3 l) " " ++ "...]"
      else name ++ "[" ++ strings.Join l " " ++ "]"
  end%string.

(** The regular expression items cut the list too, without the ellipsis. *)
Definition regexString (name : string) (l : list string) : string :=
  match l with
  | [x] => name ++ x
  | _ =>
      if (3 <? length l)%nat then name ++ F_ToString ["["; strings.Join (firstn 3 l) " "; "]"]
      else name ++ F_ToString ["["; strings.Join l " "; "]"]
  end%string.

(** The host name a domain item matches: the sniffed domain, else the name of
    the destination. *)
Definition domainHost (m : InboundContext) : string :=
  if negb (String.eqb (m_Domain m) "") then m_Domain m else sa_Fqdn (m_Destination m).

(** ** Items on a set of strings *)

Record InboundItem := mkInboundItem { inbounds : list string; inboundMap : gmap string bool }.
Definition NewInboundRule (inbounds : list string) : InboundItem :=
  mkInboundItem inbounds (boolMap inbounds).
Definition InboundItem_Match (r : InboundItem) (m : InboundContext) : bool :=
  boolMapGet (inboundMap r) (m_Inbound m).
Definition InboundItem_String (r : InboundItem) : string := listString "inbound=" (inbounds r).

Record AuthUserItem := mkAuthUserItem { au_users : list string; au_userMap : gmap string bool }.
Definition NewAuthUserItem (users : list string) : AuthUserItem :=
  mkAuthUserItem users (boolMap users).
Definition AuthUserItem_Match (r : AuthUserItem) (m : InboundContext) : bool :=
  boolMapGet (au_userMap r) (m_User m).
Definition AuthUserItem_String (r : AuthUserItem) : string := listString "auth_user=" (au_users r).

Record ClientItem := mkClientItem { clients : list string; clientMap : gmap string bool }.
Definition NewClientItem (clients : list string) : ClientItem :=
  mkClientItem clients (boolMap clients).
Definition ClientItem_Match (r : ClientItem) (m : InboundContext) : bool :=
  boolMapGet (clientMap r) (m_Client m).
Definition ClientItem_String (r : ClientItem) : string := listString "client=" (clients r).

Record ProtocolItem := mkProtocolItem { protocols : list string; protocolMap : gmap string bool }.
Definition NewProtocolItem (protocols : list string) : ProtocolItem :=
  mkProtocolItem protocols (boolMap protocols).
Definition ProtocolItem_Match (r : ProtocolItem) (m : InboundContext) : bool :=
  boolMapGet (protocolMap r) (m_Protocol m).
Definition ProtocolItem_String (r : ProtocolItem) : string := listString "protocol=" (protocols r).

Record NetworkItem := mkNetworkItem { networks : list string; networkMap : gmap string bool }.
Definition NewNetworkItem (networks : list string) : NetworkItem :=
  mkNetworkItem networks (boolMap networks).
Definition NetworkItem_Match (r : NetworkItem) (m : InboundContext) : bool :=
  boolMapGet (networkMap r) (m_Network m).
Definition NetworkItem_String (r : NetworkItem) : string := listString "network=" (networks r).

(** [outbound]: the tag ["any"] stands for every non-empty outbound. *)
Record OutboundItem := mkOutboundItem {
  ob_outbounds : list string; outboundMap : gmap string bool; matchAny : bool }.
Definition NewOutboundRule (outbounds : list string) : OutboundItem :=
  foldl (fun r outbound =>
           if String.eqb outbound "any" then
             mkOutboundItem (ob_outbounds r) (outboundMap r) true
           else mkOutboundItem (ob_outbounds r) (<[outbound := true]> (outboundMap r))
                  (matchAny r))
    (mkOutboundItem outbounds ∅ false) outbounds.
Definition OutboundItem_Match (r : OutboundItem) (m : InboundContext) : bool :=
  if matchAny r then negb (String.eqb (m_Outbound m) "")
  else boolMapGet (outboundMap r) (m_Outbound m).
Definition OutboundItem_String (r : OutboundItem) : string :=
  listString "outbound=" (ob_outbounds r).

Record SourceHostnameItem := mkSourceHostnameItem {
  hostnames : list string; hostnameMap : gmap string bool }.
Definition NewSourceHostnameItem (hostnames : list string) : SourceHostnameItem :=
  mkSourceHostnameItem hostnames (boolMap hostnames).
Definition SourceHostnameItem_Match (r : SourceHostnameItem) (m : InboundContext) : bool :=
  if String.eqb (m_SourceHostname m) "" then false
  else boolMapGet (hostnameMap r) (m_SourceHostname m).
Definition SourceHostnameItem_String (r : SourceHostnameItem) : string :=
  listString "source_hostname=" (hostnames r).

(** [source_mac_address]: addresses are compared in their canonical spelling. *)
Definition canonicalMAC (address : string) : string :=
  match net.ParseMAC address with
  | Some parsed => net.HardwareAddr_String parsed
  | None => address
  end.
Record SourceMACAddressItem := mkSourceMACAddressItem {
  mac_addresses : list string; mac_addressMap : gmap string bool }.
Definition NewSourceMACAddressItem (addressList : list string) : SourceMACAddressItem :=
  mkSourceMACAddressItem addressList (boolMap (map canonicalMAC addressList)).
Definition SourceMACAddressItem_Match (r : SourceMACAddressItem) (m : InboundContext) : bool :=
  match m_SourceMACAddress m with
  | None => false
  | Some mac => boolMapGet (mac_addressMap r) (net.HardwareAddr_String mac)
  end.
Definition SourceMACAddressItem_String (r : SourceMACAddressItem) : string :=
  listString "source_mac_address=" (mac_addresses r).

(** ** Process items *)

Record ProcessItem := mkProcessItem {
  pn_processes : list string; pn_processMap : gmap string bool }.
Definition NewProcessItem (processNameList : list string) : ProcessItem :=
  mkProcessItem processNameList (boolMap processNameList).
Definition ProcessItem_Match (r : ProcessItem) (m : InboundContext) : bool :=
  match m_ProcessInfo m with
  | None => false
  | Some p =>
      if String.eqb (ProcessPath p) "" then false
      else boolMapGet (pn_processMap r) (filepath_Base (ProcessPath p))
  end.
Definition ProcessItem_String (r : ProcessItem) : string := listString "process_name=" (pn_processes r).

Record ProcessPathItem := mkProcessPathItem {
  pp_processes : list string; pp_processMap : gmap string bool }.
Definition NewProcessPathItem (processNameList : list string) : ProcessPathItem :=
  mkProcessPathItem processNameList (boolMap processNameList).
(** [isAndroid] is the build constant [C.IsAndroid]. *)
Definition ProcessPathItem_Match (isAndroid : bool) (r : ProcessPathItem) (m : InboundContext) : bool :=
  match m_ProcessInfo m with
  | None => false
  | Some p =>
      if negb (String.eqb (ProcessPath p) "") && boolMapGet (pp_processMap r) (ProcessPath p) then true
      else isAndroid && existsb (boolMapGet (pp_processMap r)) (AndroidPackageNames p)
  end.
Definition ProcessPathItem_String (r : ProcessPathItem) : string :=
  listString "process_path=" (pp_processes r).

Record PackageNameItem := mkPackageNameItem {
  packageNames : list string; packageMap : gmap string bool }.
Definition NewPackageNameItem (packageNameList : list string) : PackageNameItem :=
  mkPackageNameItem packageNameList (boolMap packageNameList).
Definition PackageNameItem_Match (r : PackageNameItem) (m : InboundContext) : bool :=
  match m_ProcessInfo m with
  | None => false
  | Some p => existsb (boolMapGet (packageMap r)) (AndroidPackageNames p)
  end.
Definition PackageNameItem_String (r : PackageNameItem) : string :=
  listString "package_name=" (packageNames r).

Record UserItem := mkUserItem { u_users : list string; u_userMap : gmap string bool }.
Definition NewUserItem (users : list string) : UserItem := mkUserItem users (boolMap users).
Definition UserItem_Match (r : UserItem) (m : InboundContext) : bool :=
  match m_ProcessInfo m with
  | None => false
  | Some p =>
      if String.eqb (UserName p) "" then false else boolMapGet (u_userMap r) (UserName p)
  end.
Definition UserItem_String (r : UserItem) : string := listString "user=" (u_users r).

Record UserIdItem := mkUserIdItem { userIds : list Z; userIdMap : gmap Z bool }.
Definition NewUserIDItem (userIdList : list Z) : UserIdItem := mkUserIdItem userIdList (boolMap userIdList).
Definition UserIdItem_Match (r : UserIdItem) (m : InboundContext) : bool :=
  match m_ProcessInfo m with
  | None => false
  | Some p => if UserId p =? -1 then false else boolMapGet (userIdMap r) (UserId p)
  end.
Definition UserIdItem_String (r : UserIdItem) : string :=
  listString "user_id=" (map F_ToString_int (userIds r)).

(** ** Regular expression items *)

(** Compile a list of expressions; the error names the first bad one. *)
Fixpoint compileAll (i : Z) (l : list string) : result (list Regexp) :=
  match l with
  | [] => Ok []
  | e :: l =>
      match regexp_Compile e with
      | None => Err (E_Cause (E_New "regexp") ("parse expression " ++ strconv.Itoa i)%string)
      | Some x => let? xs := compileAll (i + 1) l in Ok (x :: xs)
      end
  end.

Record DomainRegexItem := mkDomainRegexItem {
  dr_matchers : list Regexp; dr_description : string }.
Definition NewDomainRegexItem (expressions : list string) : result DomainRegexItem :=
  let? matchers := compileAll 0 expressions in
  Ok (mkDomainRegexItem matchers (regexString "domain_regex=" expressions)).
Definition DomainRegexItem_Match (r : DomainRegexItem) (m : InboundContext) : bool :=
  let host := domainHost m in
  if String.eqb host "" then false
  else existsb (fun x => regexp_MatchString x (strings_ToLower host)) (dr_matchers r).

Record ProcessPathRegexItem := mkProcessPathRegexItem {
  ppr_matchers : list Regexp; ppr_description : string }.
Definition NewProcessPathRegexItem (expressions : list string) : result ProcessPathRegexItem :=
  let? matchers := compileAll 0 expressions in
  Ok (mkProcessPathRegexItem matchers (regexString "process_path_regex=" expressions)).
Definition ProcessPathRegexItem_Match (r : ProcessPathRegexItem) (m : InboundContext) : bool :=
  match m_ProcessInfo m with
  | None => false
  | Some p =>
      if String.eqb (ProcessPath p) "" then false
      else existsb (fun x => regexp_MatchString x (ProcessPath p)) (ppr_matchers r)
  end.

Record PackageNameRegexItem := mkPackageNameRegexItem {
  pnr_matchers : list Regexp; pnr_description : string }.
Definition NewPackageNameRegexItem (expressions : list string) : result PackageNameRegexItem :=
  let? matchers := compileAll 0 expressions in
  Ok (mkPackageNameRegexItem matchers (regexString "package_name_regex=" expressions)).
Definition PackageNameRegexItem_Match (r : PackageNameRegexItem) (m : InboundContext) : bool :=
  match m_ProcessInfo m with
  | None => false
  | Some p =>
      existsb (fun x => existsb (regexp_MatchString x) (AndroidPackageNames p)) (pnr_matchers r)
  end.

(** ** Domain items *)

Record DomainItem := mkDomainItem { d_matcher : DomainMatcher; d_description : string }.
Definition domainDescription (domains domainSuffixes : list string) : string :=
  let d := match domains with [] => ""%string | _ => listString3 "domain=" domains end in
  match domainSuffixes with
  | [] => d
  | _ => ((if String.eqb d "" then "" else d ++ " ")
          ++ listString3 "domain_suffix=" domainSuffixes)%string
  end.
Definition NewDomainItem (domains domainSuffixes : list string) : result DomainItem :=
  if bool_decide (""%string ∈ domains) then Err (E_New "domain: empty item is not allowed")
  else if bool_decide (""%string ∈ domainSuffixes) then
    Err (E_New "domain_suffix: empty item is not allowed")
  else Ok (mkDomainItem (NewMatcher domains domainSuffixes false)
             (domainDescription domains domainSuffixes)).
Definition NewRawDomainItem (matcher : DomainMatcher) : DomainItem :=
  mkDomainItem matcher "domain/domain_suffix=<binary>".
Definition DomainItem_Match (r : DomainItem) (m : InboundContext) : bool :=
  let host := domainHost m in
  if String.eqb host "" then false
  else DomainMatcher_Match (d_matcher r) (strings_ToLower host).

Record DomainKeywordItem := mkDomainKeywordItem { keywords : list string }.
Definition NewDomainKeywordItem (keywords : list string) : DomainKeywordItem :=
  mkDomainKeywordItem keywords.
Definition DomainKeywordItem_Match (r : DomainKeywordItem) (m : InboundContext) : bool :=
  let host := domainHost m in
  if String.eqb host "" then false
  else existsb (strings.Contains (strings_ToLower host)) (keywords r).
Definition DomainKeywordItem_String (r : DomainKeywordItem) : string :=
  listString3 "domain_keyword=" (keywords r).

Record AdGuardDomainItem := mkAdGuardDomainItem { ag_matcher : AdGuardMatcher }.
Definition NewAdGuardDomainItem (ruleLines : list string) : AdGuardDomainItem :=
  mkAdGuardDomainItem (NewAdGuardMatcher ruleLines).
Definition NewRawAdGuardDomainItem (matcher : AdGuardMatcher) : AdGuardDomainItem :=
  mkAdGuardDomainItem matcher.
Definition AdGuardDomainItem_Match (r : AdGuardDomainItem) (m : InboundContext) : bool :=
  let host := domainHost m in
  if String.eqb host "" then false
  else AdGuardMatcher_Match (ag_matcher r) (strings_ToLower host).

(** ** Address items *)

Record IPCIDRItem := mkIPCIDRItem {
  ipSet : IPSet; cidr_isSource : bool; cidr_description : string }.

(** Each string is a prefix or an address. *)
Fixpoint parseCIDRs (i : Z) (l : list string) : result (list (Prefix + Addr)) :=
  match l with
  | [] => Ok []
  | s :: l =>
      match netip_ParsePrefix s with
      | Some p => let? r := parseCIDRs (i + 1) l in Ok (inl p :: r)
      | None =>
          match netip_ParseAddr s with
          | Some a => let? r := parseCIDRs (i + 1) l in Ok (inr a :: r)
          | None => Err (E_Cause (E_New "netip.ParsePrefix") ("parse [" ++ strconv.Itoa i ++ "]")%string)
          end
      end
  end.
Definition NewIPCIDRItem (isSource : bool) (prefixStrings : list string) : result IPCIDRItem :=
  let? entries := parseCIDRs 0 prefixStrings in
  let description :=
    listString3 (if isSource then "source_ip_cidr=" else "ip_cidr=") prefixStrings in
  let? set := result_of_option (IPSet_Build entries) (E_New "netipx.IPSetBuilder") in
  Ok (mkIPCIDRItem set isSource description).
Definition NewRawIPCIDRItem (isSource : bool) (set : IPSet) : IPCIDRItem :=
  mkIPCIDRItem set isSource
    ((if isSource then "source_ip_cidr=" else "ip_cidr=") ++ "<binary>")%string.
Definition IPCIDRItem_Match (r : IPCIDRItem) (m : InboundContext) : bool :=
  if cidr_isSource r || m_IPCIDRMatchSource m then
    IPSet_Contains (ipSet r) (sa_Addr (m_Source m))
  else if m_DestinationAddressMatchFromResponse m then
    match DNSResponseAddressesForMatch m with
    | [] => m_IPCIDRAcceptEmpty m
    | addresses => existsb (IPSet_Contains (ipSet r)) addresses
    end
  else if sa_IsIP (m_Destination m) then
    IPSet_Contains (ipSet r) (sa_Addr (m_Destination m))
  else
    match m_DestinationAddresses m with
    | [] => m_IPCIDRAcceptEmpty m
    | addresses => common_Any addresses (IPSet_Contains (ipSet r))
    end.

Record IPIsPrivateItem := mkIPIsPrivateItem { priv_isSource : bool }.
Definition NewIPIsPrivateItem (isSource : bool) : IPIsPrivateItem := mkIPIsPrivateItem isSource.
Definition IPIsPrivateItem_Match (r : IPIsPrivateItem) (m : InboundContext) : bool :=
  if priv_isSource r then negb (N_IsPublicAddr (sa_Addr (m_Source m)))
  else if m_DestinationAddressMatchFromResponse m then
    existsb (fun a => negb (N_IsPublicAddr a)) (DNSResponseAddressesForMatch m)
  else if Addr.IsValid (sa_Addr (m_Destination m)) then
    negb (N_IsPublicAddr (sa_Addr (m_Destination m)))
  else existsb (fun a => negb (N_IsPublicAddr a)) (m_DestinationAddresses m).
Definition IPIsPrivateItem_String (r : IPIsPrivateItem) : string :=
  if priv_isSource r then "source_ip_is_private=true" else "ip_is_private=true".

Definition IPAcceptAnyItem_Match (m : InboundContext) : bool :=
  if m_DestinationAddressMatchFromResponse m then
    (0 <? length (DNSResponseAddressesForMatch m))%nat
  else (0 <? length (m_DestinationAddresses m))%nat.
Definition IPAcceptAnyItem_String : string := "ip_accept_any=true".

Record IPVersionItem := mkIPVersionItem { isIPv6 : bool }.
Definition NewIPVersionItem (isIPv6 : bool) : IPVersionItem := mkIPVersionItem isIPv6.
Definition IPVersionItem_Match (r : IPVersionItem) (m : InboundContext) : bool :=
  negb (m_IPVersion m =? 0) && Bool.eqb (m_IPVersion m =? 6) (isIPv6 r)
  || sa_IsIP (m_Destination m) && Bool.eqb (sa_IsIPv6 (m_Destination m)) (isIPv6 r).
Definition IPVersionItem_String (r : IPVersionItem) : string :=
  ("ip_version=" ++ if isIPv6 r then "6" else "4")%string.

(** ** Port items *)

Record PortItem := mkPortItem { ports : list Z; portMap : gmap Z bool; port_isSource : bool }.
Definition NewPortItem (isSource : bool) (ports : list Z) : PortItem :=
  mkPortItem ports (boolMap ports) isSource.
Definition PortItem_Match (r : PortItem) (m : InboundContext) : bool :=
  if port_isSource r then boolMapGet (portMap r) (sa_Port (m_Source m))
  else boolMapGet (portMap r) (sa_Port (m_Destination m)).
Definition PortItem_String (r : PortItem) : string :=
  listString (if port_isSource r then "source_port=" else "port=") (map F_ToString_int (ports r)).

Record rangeItem := mkRangeItem { range_start : Z; range_end : Z }.
Record PortRangeItem := mkPortRangeItem {
  pr_isSource : bool; portRanges : list string; portRangeList : list rangeItem }.

(** One range [start:end]; a missing start is 0, a missing end is 65535. *)
Definition parsePortRange (portRange : string) : result rangeItem :=
  let bad := E_New ("bad port range: " ++ portRange) in
  match strings.Index portRange ":" with
  | None => Err bad
  | Some subIndex =>
      let? start :=
        match subIndex with
        | O => Ok 0
        | _ => result_cause (strconv.ParseUint (strings.take subIndex portRange) 16)
                 ("bad port range: " ++ portRange)
        end in
      let? stop :=
        if (subIndex =? String.length portRange - 1)%nat then Ok 65535
        else result_cause (strconv.ParseUint (strings.drop (subIndex + 1) portRange) 16)
               ("bad port range: " ++ portRange) in
      Ok (mkRangeItem start stop)
  end%string.
Fixpoint parsePortRanges (l : list string) : result (list rangeItem) :=
  match l with
  | [] => Ok []
  | s :: l =>
      let? r := parsePortRange s in
      let? rs := parsePortRanges l in
      Ok (r :: rs)
  end.
Definition NewPortRangeItem (isSource : bool) (rangeList : list string) : result PortRangeItem :=
  let? portRangeList := parsePortRanges rangeList in
  Ok (mkPortRangeItem isSource rangeList portRangeList).
Definition PortRangeItem_Match (r : PortRangeItem) (m : InboundContext) : bool :=
  let port := if pr_isSource r then sa_Port (m_Source m) else sa_Port (m_Destination m) in
  existsb (fun x => (range_start x <=? port) && (port <=? range_end x)) (portRangeList r).
Definition PortRangeItem_String (r : PortRangeItem) : string :=
  listString (if pr_isSource r then "source_port_range=" else "port_range=") (portRanges r).

(** ** DNS items *)

Record QueryTypeItem := mkQueryTypeItem { typeList : list Z; typeMap : gmap Z bool }.
Definition NewQueryTypeItem (typeList : list Z) : QueryTypeItem :=
  mkQueryTypeItem typeList (boolMap typeList).
Definition QueryTypeItem_Match (r : QueryTypeItem) (m : InboundContext) : bool :=
  if m_QueryType m =? 0 then false else boolMapGet (typeMap r) (m_QueryType m).
Definition DNSQueryTypeToString (queryType : Z) : string :=
  match dns_TypeToString queryType with
  | Some typeName => typeName
  | None => F_ToString_int queryType
  end.
Definition QueryTypeItem_String (r : QueryTypeItem) : string :=
  listString "query_type=" (map DNSQueryTypeToString (typeList r)).

Record QueryClientSubnetItem := mkQueryClientSubnetItem { qcs_prefixes : list Prefix }.
Definition NewQueryClientSubnetItem (prefixables : list Prefix) : QueryClientSubnetItem :=
  mkQueryClientSubnetItem prefixables.
Definition QueryClientSubnetItem_Match (r : QueryClientSubnetItem) (m : InboundContext) : bool :=
  let clientSubnet := m_QueryClientSubnet m in
  if negb (Prefix.IsValid clientSubnet) then false
  else existsb (fun prefix => (p_Bits prefix <=? p_Bits clientSubnet)
                              && Prefix.Contains prefix (p_Addr clientSubnet)) (qcs_prefixes r).
Definition QueryClientSubnetItem_String (r : QueryClientSubnetItem) : string :=
  listString "query_client_subnet=" (map Prefix_String (qcs_prefixes r)).

Definition QueryDNSSECItem_Match (m : InboundContext) : bool := m_QueryDNSSEC m.
Definition QueryDNSSECItem_String : string := "query_dnssec=true".

Record DNSResponseRCodeItem := mkDNSResponseRCodeItem { rcode : Z }.
Definition NewDNSResponseRCodeItem (rcode : Z) : DNSResponseRCodeItem := mkDNSResponseRCodeItem rcode.
Definition DNSResponseRCodeItem_Match (r : DNSResponseRCodeItem) (m : InboundContext) : bool :=
  match m_DNSResponse m with None => false | Some msg => msg_Rcode msg =? rcode r end.
Definition DNSResponseRCodeItem_String (r : DNSResponseRCodeItem) : string :=
  F_ToString ["response_rcode="; dns_RcodeToString (rcode r)]%string.

(** [option.DNSRecordOptions]: an expected record, nil when the option is empty. *)
Definition DNSRecordOptions_Match (o : option RR) (record : RR) : bool :=
  match o with None => false | Some rr => dns_IsDuplicate rr record end.

(** The three message sections a record item selects from. *)
Inductive responseSection := dnsResponseAnswers | dnsResponseNS | dnsResponseExtra.
Definition selectSection (s : responseSection) (message : Msg) : list RR :=
  match s with
  | dnsResponseAnswers => msg_Answer message
  | dnsResponseNS => msg_Ns message
  | dnsResponseExtra => msg_Extra message
  end.
Record DNSResponseRecordItem := mkDNSResponseRecordItem {
  rec_field : string; rec_records : list (option RR); rec_selector : responseSection }.
Definition NewDNSResponseRecordItem (field : string) (records : list (option RR))
    (selector : responseSection) : DNSResponseRecordItem :=
  mkDNSResponseRecordItem field records selector.
Definition DNSResponseRecordItem_Match (r : DNSResponseRecordItem) (m : InboundContext) : bool :=
  match m_DNSResponse m with
  | None => false
  | Some msg =>
      let records := selectSection (rec_selector r) msg in
      existsb (fun expected => existsb (DNSRecordOptions_Match expected) records) (rec_records r)
  end.
Definition DNSResponseRecordItem_String (r : DNSResponseRecordItem) : string :=
  (rec_field r ++ "=[" ++ strings.Join (map RR_String (omap id (rec_records r))) " " ++ "]")%string.

(** ** Items on the machine's network *)

Section network.
Context (env : RuleEnv).

Definition NetworkTypeItem_Match (networkType : list Z) : bool :=
  match env_DefaultNetworkInterface env with
  | None => false
  | Some ni => common_Contains networkType (ni_Type ni)
  end.
Definition NetworkTypeItem_String (networkType : list Z) : string :=
  listString "network_type=" (map InterfaceType_String networkType).

Definition NetworkIsExpensiveItem_Match : bool :=
  match env_DefaultNetworkInterface env with None => false | Some ni => ni_Expensive ni end.
Definition NetworkIsExpensiveItem_String : string := "network_is_expensive=true".

Definition NetworkIsConstrainedItem_Match : bool :=
  match env_DefaultNetworkInterface env with None => false | Some ni => ni_Constrained ni end.
Definition NetworkIsConstrainedItem_String : string := "network_is_expensive=true".

Record WIFISSIDItem := mkWIFISSIDItem { ssidList : list string; ssidMap : gmap string bool }.
Definition NewWIFISSIDItem (ssidList : list string) : WIFISSIDItem :=
  mkWIFISSIDItem ssidList (boolMap ssidList).
Definition WIFISSIDItem_Match (r : WIFISSIDItem) : bool :=
  boolMapGet (ssidMap r) (SSID (env_WIFIState env)).
Definition WIFISSIDItem_String (r : WIFISSIDItem) : string := listString "wifi_ssid=" (ssidList r).

(** [adapter.NormalizeWIFIBSSID] (adapter/network.go). *)
Definition NormalizeWIFIBSSID (raw : string) : string :=
  let bssid := strings.TrimSpace raw in
  if String.eqb bssid "" then ""%string
  else
    let decode :=
      if (String.length bssid =? 12)%nat then
        match hex.DecodeString bssid with
        | Some decoded => net.HardwareAddr_String decoded
        | None => bssid
        end
      else bssid in
    match net.ParseMAC bssid with
    | Some parsed => if (length parsed =? 6)%nat then net.HardwareAddr_String parsed else decode
    | None => decode
    end.

Record WIFIBSSIDItem := mkWIFIBSSIDItem { bssidList : list string; bssidMap : gmap string bool }.
Definition NewWIFIBSSIDItem (bssidList : list string) : WIFIBSSIDItem :=
  mkWIFIBSSIDItem bssidList (boolMap (map NormalizeWIFIBSSID bssidList)).
Definition WIFIBSSIDItem_Match (r : WIFIBSSIDItem) : bool :=
  boolMapGet (bssidMap r) (BSSID (env_WIFIState env)).
Definition WIFIBSSIDItem_String (r : WIFIBSSIDItem) : string := listString "wifi_bssid=" (bssidList r).

(** [default_interface_address]: every configured prefix overlaps an address of
    the default interface. *)
Definition DefaultInterfaceAddressItem_Match (interfaceAddresses : list Prefix) : bool :=
  match env_InterfaceMonitor env with
  | None => false
  | Some monitor =>
      match mon_DefaultInterface monitor with
      | None => false
      | Some defaultInterface =>
          forallb (fun address =>
            negb (common_All (if_Addresses defaultInterface)
                    (fun it => negb (Prefix.Overlaps address it)))) interfaceAddresses
      end
  end.
Definition DefaultInterfaceAddressItem_String (interfaceAddresses : list Prefix) : string :=
  listString3 "default_interface_address=" (map Prefix_String interfaceAddresses).

(** [interface_address]: for each named interface, one of its prefixes overlaps
    an address of the interface of that name. *)
Record InterfaceAddressItem := mkInterfaceAddressItem {
  ia_addresses : gmap string (list Prefix); ia_description : string }.
Definition prefixesString (prefixes : list Prefix) : string :=
  strings.Join (map Prefix_String prefixes) ",".
Definition NewInterfaceAddressItem (entries : list (string * list Prefix)) : InterfaceAddressItem :=
  mkInterfaceAddressItem
    (foldl (fun m e => <[fst e := snd e]> m) ∅ entries)
    ("interface_address=[" ++
       strings.Join (map (fun e => fst e ++ "=" ++ prefixesString (snd e)) entries) " " ++ "]")%string.
Definition InterfaceAddressItem_Match (r : InterfaceAddressItem) : bool :=
  forallb (fun '(ifName, addresses) =>
    let iface := default Interface_zero
                   (common_Find (env_Interfaces env) (fun it => String.eqb (if_Name it) ifName)) in
    if String.eqb (if_Name iface) "" then false
    else negb (common_All addresses (fun address =>
           common_All (if_Addresses iface) (fun it => negb (Prefix.Overlaps address it)))))
    (map_to_list (ia_addresses r)).

(** [network_interface_address]: the same per interface type, over the
    interfaces that are not the program's own. *)
Record NetworkInterfaceAddressItem := mkNetworkInterfaceAddressItem {
  nia_addresses : gmap Z (list Prefix); nia_description : string }.
Definition NewNetworkInterfaceAddressItem (entries : list (Z * list Prefix)) :
    NetworkInterfaceAddressItem :=
  mkNetworkInterfaceAddressItem
    (foldl (fun m e => <[fst e := snd e]> m) ∅ entries)
    ("network_interface_address=[" ++
       strings.Join (map (fun e => InterfaceType_String (fst e) ++ "=" ++ prefixesString (snd e))
                       entries) " " ++ "]")%string.
Definition NetworkInterfaceAddressItem_Match (r : NetworkInterfaceAddressItem) : bool :=
  let myInterfaces :=
    match env_InterfaceMonitor env with None => [] | Some monitor => mon_MyInterfaces monitor end in
  forallb (fun '(ifType, addresses) =>
    existsb (fun ni =>
      if common_Contains myInterfaces (if_Name (ni_Interface ni)) then false
      else if negb (ni_Type ni =? ifType) then false
      else common_Any (if_Addresses (ni_Interface ni)) (fun it =>
             common_Any addresses (fun prefix => Prefix.Overlaps prefix it)))
      (env_NetworkInterfaces env))
    (map_to_list (nia_addresses r)).

(** [clash_mode]: [started] tells whether [Start] found a mode manager. *)
Record ClashModeItem := mkClashModeItem { clashMode_started : bool; clashMode_mode : string }.
Definition NewClashModeItem (mode : string) : ClashModeItem := mkClashModeItem false mode.
Definition ClashModeItem_Start (found : bool) (r : ClashModeItem) : ClashModeItem :=
  mkClashModeItem found (clashMode_mode r).
Definition ClashModeItem_Match (r : ClashModeItem) : bool :=
  if negb (clashMode_started r) then false
  else strings_EqualFold (env_ClashMode env) (clashMode_mode r).
Definition ClashModeItem_String (r : ClashModeItem) : string :=
  ("clash_mode=" ++ clashMode_mode r)%string.
End network.

(** ** Preferred-by items *)

Record PreferredByItem := mkPreferredByItem {
  pb_outboundTags : list string; pb_outbounds : list PreferredOutbound }.
Definition NewPreferredByItem (outboundTags : list string) : PreferredByItem :=
  mkPreferredByItem outboundTags [].
(** [lookup] is the outbound manager: [None] for an unknown tag, else the type
    of the outbound and, if it implements them, its preferred routes. *)
Fixpoint preferredOutbounds (lookup : string -> option (string * option PreferredOutbound))
    (outboundTags : list string) (outbounds : list PreferredOutbound) : option GoError * list PreferredOutbound :=
  match outboundTags with
  | [] => (None, outbounds)
  | outboundTag :: outboundTags =>
      match lookup outboundTag with
      | None => (Some (E_New ("outbound not found: " ++ outboundTag)), outbounds)
      | Some (typ, None) => (Some (E_New ("outbound type does not support preferred routes: " ++ typ)), outbounds)
      | Some (_, Some outbound) => preferredOutbounds lookup outboundTags (outbounds ++ [outbound])%list
      end%string
  end.
Definition PreferredByItem_Start (lookup : string -> option (string * option PreferredOutbound))
    (r : PreferredByItem) : option GoError * PreferredByItem :=
  let '(err, outbounds) := preferredOutbounds lookup (pb_outboundTags r) (pb_outbounds r) in
  (err, mkPreferredByItem (pb_outboundTags r) outbounds).
Definition PreferredByItem_Match (r : PreferredByItem) (m : InboundContext) : bool :=
  let host := domainHost m in
  if negb (String.eqb host "") && existsb (fun o => PreferredDomain o (m_PreMatch m) host) (pb_outbounds r) then true
  else if sa_IsIP (m_Destination m)
          && existsb (fun o => PreferredAddress o (m_PreMatch m) (sa_Addr (m_Destination m))) (pb_outbounds r)
       then true
  else existsb (fun address => existsb (fun o => PreferredAddress o (m_PreMatch m) address) (pb_outbounds r))
         (m_DestinationAddresses m).
Definition PreferredByItem_String (r : PreferredByItem) : string :=
  listString "preferred_by=" (pb_outboundTags r).

Record PreferredByDNSItem := mkPreferredByDNSItem {
  pbd_transportTags : list string; pbd_transports : list PreferredTransport }.
Definition NewPreferredByDNSItem (transportTags : list string) : PreferredByDNSItem :=
  mkPreferredByDNSItem transportTags [].
Fixpoint preferredTransports (lookup : string -> option (string * option PreferredTransport))
    (transportTags : list string) (transports : list PreferredTransport) : option GoError * list PreferredTransport :=
  match transportTags with
  | [] => (None, transports)
  | transportTag :: transportTags =>
      match lookup transportTag with
      | None => (Some (E_New ("DNS server not found: " ++ transportTag)), transports)
      | Some (typ, None) => (Some (E_New ("DNS server type does not support preferred_by: " ++ typ)), transports)
      | Some (_, Some transport) => preferredTransports lookup transportTags (transports ++ [transport])%list
      end%string
  end.
Definition PreferredByDNSItem_Start (lookup : string -> option (string * option PreferredTransport))
    (r : PreferredByDNSItem) : option GoError * PreferredByDNSItem :=
  let '(err, transports) := preferredTransports lookup (pbd_transportTags r) (pbd_transports r) in
  (err, mkPreferredByDNSItem (pbd_transportTags r) transports).
Definition PreferredByDNSItem_Match (r : PreferredByDNSItem) (m : InboundContext) : bool :=
  let host := domainHost m in
  if String.eqb host "" then false
  else
    let canonical := dns_CanonicalName host in
    existsb (fun t => TransportPreferredDomain t canonical) (pbd_transports r).
Definition PreferredByDNSItem_String (r : PreferredByDNSItem) : string :=
  listString "preferred_by=" (pbd_transportTags r).

(** ** The interface value *)

Inductive RuleItem :=
  | ItemInbound (r : InboundItem)
  | ItemAuthUser (r : AuthUserItem)
  | ItemClient (r : ClientItem)
  | ItemProtocol (r : ProtocolItem)
  | ItemNetwork (r : NetworkItem)
  | ItemOutbound (r : OutboundItem)
  | ItemSourceHostname (r : SourceHostnameItem)
  | ItemSourceMACAddress (r : SourceMACAddressItem)
  | ItemProcessName (r : ProcessItem)
  | ItemProcessPath (r : ProcessPathItem)
  | ItemProcessPathRegex (r : ProcessPathRegexItem)
  | ItemPackageName (r : PackageNameItem)
  | ItemPackageNameRegex (r : PackageNameRegexItem)
  | ItemUser (r : UserItem)
  | ItemUserId (r : UserIdItem)
  | ItemDomain (r : DomainItem)
  | ItemDomainKeyword (r : DomainKeywordItem)
  | ItemDomainRegex (r : DomainRegexItem)
  | ItemAdGuardDomain (r : AdGuardDomainItem)
  | ItemIPCIDR (r : IPCIDRItem)
  | ItemIPIsPrivate (r : IPIsPrivateItem)
  | ItemIPAcceptAny
  | ItemIPVersion (r : IPVersionItem)
  | ItemPort (r : PortItem)
  | ItemPortRange (r : PortRangeItem)
  | ItemQueryType (r : QueryTypeItem)
  | ItemQueryClientSubnet (r : QueryClientSubnetItem)
  | ItemQueryDNSSEC
  | ItemDNSResponseRCode (r : DNSResponseRCodeItem)
  | ItemDNSResponseRecord (r : DNSResponseRecordItem)
  | ItemNetworkType (networkType : list Z)
  | ItemNetworkIsExpensive
  | ItemNetworkIsConstrained
  | ItemWIFISSID (r : WIFISSIDItem)
  | ItemWIFIBSSID (r : WIFIBSSIDItem)
  | ItemDefaultInterfaceAddress (interfaceAddresses : list Prefix)
  | ItemInterfaceAddress (r : InterfaceAddressItem)
  | ItemNetworkInterfaceAddress (r : NetworkInterfaceAddressItem)
  | ItemClashMode (r : ClashModeItem)
  | ItemPreferredBy (r : PreferredByItem)
  | ItemPreferredByDNS (r : PreferredByDNSItem).

(** Method dispatch of [RuleItem.Match]. *)
Definition RuleItem_Match (env : RuleEnv) (item : RuleItem) (m : InboundContext) : bool :=
  match item with
  | ItemInbound r => InboundItem_Match r m
  | ItemAuthUser r => AuthUserItem_Match r m
  | ItemClient r => ClientItem_Match r m
  | ItemProtocol r => ProtocolItem_Match r m
  | ItemNetwork r => NetworkItem_Match r m
  | ItemOutbound r => OutboundItem_Match r m
  | ItemSourceHostname r => SourceHostnameItem_Match r m
  | ItemSourceMACAddress r => SourceMACAddressItem_Match r m
  | ItemProcessName r => ProcessItem_Match r m
  | ItemProcessPath r => ProcessPathItem_Match (env_IsAndroid env) r m
  | ItemProcessPathRegex r => ProcessPathRegexItem_Match r m
  | ItemPackageName r => PackageNameItem_Match r m
  | ItemPackageNameRegex r => PackageNameRegexItem_Match r m
  | ItemUser r => UserItem_Match r m
  | ItemUserId r => UserIdItem_Match r m
  | ItemDomain r => DomainItem_Match r m
  | ItemDomainKeyword r => DomainKeywordItem_Match r m
  | ItemDomainRegex r => DomainRegexItem_Match r m
  | ItemAdGuardDomain r => AdGuardDomainItem_Match r m
  | ItemIPCIDR r => IPCIDRItem_Match r m
  | ItemIPIsPrivate r => IPIsPrivateItem_Match r m
  | ItemIPAcceptAny => IPAcceptAnyItem_Match m
  | ItemIPVersion r => IPVersionItem_Match r m
  | ItemPort r => PortItem_Match r m
  | ItemPortRange r => PortRangeItem_Match r m
  | ItemQueryType r => QueryTypeItem_Match r m
  | ItemQueryClientSubnet r => QueryClientSubnetItem_Match r m
  | ItemQueryDNSSEC => QueryDNSSECItem_Match m
  | ItemDNSResponseRCode r => DNSResponseRCodeItem_Match r m
  | ItemDNSResponseRecord r => DNSResponseRecordItem_Match r m
  | ItemNetworkType networkType => NetworkTypeItem_Match env networkType
  | ItemNetworkIsExpensive => NetworkIsExpensiveItem_Match env
  | ItemNetworkIsConstrained => NetworkIsConstrainedItem_Match env
  | ItemWIFISSID r => WIFISSIDItem_Match env r
  | ItemWIFIBSSID r => WIFIBSSIDItem_Match env r
  | ItemDefaultInterfaceAddress a => DefaultInterfaceAddressItem_Match env a
  | ItemInterfaceAddress r => InterfaceAddressItem_Match env r
  | ItemNetworkInterfaceAddress r => NetworkInterfaceAddressItem_Match env r
  | ItemClashMode r => ClashModeItem_Match env r
  | ItemPreferredBy r => PreferredByItem_Match r m
  | ItemPreferredByDNS r => PreferredByDNSItem_Match r m
  end.

(** Method dispatch of [RuleItem.String]; items built with a description
    return it. *)
Definition RuleItem_String (item : RuleItem) : string :=
  match item with
  | ItemInbound r => InboundItem_String r
  | ItemAuthUser r => AuthUserItem_String r
  | ItemClient r => ClientItem_String r
  | ItemProtocol r => ProtocolItem_String r
  | ItemNetwork r => NetworkItem_String r
  | ItemOutbound r => OutboundItem_String r
  | ItemSourceHostname r => SourceHostnameItem_String r
  | ItemSourceMACAddress r => SourceMACAddressItem_String r
  | ItemProcessName r => ProcessItem_String r
  | ItemProcessPath r => ProcessPathItem_String r
  | ItemProcessPathRegex r => ppr_description r
  | ItemPackageName r => PackageNameItem_String r
  | ItemPackageNameRegex r => pnr_description r
  | ItemUser r => UserItem_String r
  | ItemUserId r => UserIdItem_String r
  | ItemDomain r => d_description r
  | ItemDomainKeyword r => DomainKeywordItem_String r
  | ItemDomainRegex r => dr_description r
  | ItemAdGuardDomain _ => "!adguard_domain_rules=<binary>"
  | ItemIPCIDR r => cidr_description r
  | ItemIPIsPrivate r => IPIsPrivateItem_String r
  | ItemIPAcceptAny => IPAcceptAnyItem_String
  | ItemIPVersion r => IPVersionItem_String r
  | ItemPort r => PortItem_String r
  | ItemPortRange r => PortRangeItem_String r
  | ItemQueryType r => QueryTypeItem_String r
  | ItemQueryClientSubnet r => QueryClientSubnetItem_String r
  | ItemQueryDNSSEC => QueryDNSSECItem_String
  | ItemDNSResponseRCode r => DNSResponseRCodeItem_String r
  | ItemDNSResponseRecord r => DNSResponseRecordItem_String r
  | ItemNetworkType networkType => NetworkTypeItem_String networkType
  | ItemNetworkIsExpensive => NetworkIsExpensiveItem_String
  | ItemNetworkIsConstrained => NetworkIsConstrainedItem_String
  | ItemWIFISSID r => WIFISSIDItem_String r
  | ItemWIFIBSSID r => WIFIBSSIDItem_String r
  | ItemDefaultInterfaceAddress a => DefaultInterfaceAddressItem_String a
  | ItemInterfaceAddress r => ia_description r
  | ItemNetworkInterfaceAddress r => nia_description r
  | ItemClashMode r => ClashModeItem_String r
  | ItemPreferredBy r => PreferredByItem_String r
  | ItemPreferredByDNS r => PreferredByDNSItem_String r
  end.
End items.
