(* ===== verification/RuleAction.v ===== *)
(** * Rule actions: [route/rule/rule_action.go], [common/tlsspoof/spoof.go] (options)

    The action values of route and DNS rules, their constructors from the
    options, their descriptions, and the three actions that compute:
    [reject] with its flood counter, [sniff] with its list of sniffers and
    [predefined] with the records it answers. *)

From S2P Require Import Prelude.
From S2P Require Import GoText.
From S2P Require Import NetIP.
From S2P Require Import Libs.
From S2P Require Import Metadata.
From S2P Require Import RuleItems.
From stdpp Require Import sorting.
Local Open Scope string_scope.
Local Open Scope Z_scope.

(** ** Constants ([constant/rule.go], [constant/protocol.go], [constant/dns.go]) *)

Definition RuleActionTypeRoute : string := "route".
Definition RuleActionTypeRouteOptions : string := "route-options".
Definition RuleActionTypeEvaluate : string := "evaluate".
Definition RuleActionTypeRespond : string := "respond".
Definition RuleActionTypeDirect : string := "direct".
Definition RuleActionTypeBypass : string := "bypass".
Definition RuleActionTypeReject : string := "reject".
Definition RuleActionTypeHijackDNS : string := "hijack-dns".
Definition RuleActionTypeSniff : string := "sniff".
Definition RuleActionTypeResolve : string := "resolve".
Definition RuleActionTypePredefined : string := "predefined".

Definition RuleActionRejectMethodDefault : string := "default".
Definition RuleActionRejectMethodDrop : string := "drop".
Definition RuleActionRejectMethodReply : string := "reply".

Definition ProtocolTLS : string := "tls".
Definition ProtocolHTTP : string := "http".
Definition ProtocolQUIC : string := "quic".
Definition ProtocolDNS : string := "dns".
Definition ProtocolSTUN : string := "stun".
Definition ProtocolBitTorrent : string := "bittorrent".
Definition ProtocolDTLS : string := "dtls".
Definition ProtocolSSH : string := "ssh".
Definition ProtocolRDP : string := "rdp".
Definition ProtocolNTP : string := "ntp".

Definition DomainStrategyAsIS : Z := 0.
Definition DomainStrategyPreferIPv4 : Z := 1.
Definition DomainStrategyPreferIPv6 : Z := 2.
Definition DomainStrategyIPv4Only : Z := 3.
Definition DomainStrategyIPv6Only : Z := 4.

Definition NetworkStrategyDefault : Z := 0.
Definition NetworkStrategyFallback : Z := 1.
Definition NetworkStrategyHybrid : Z := 2.

(** Durations are nanoseconds. *)
Definition Second : Z := 1000000000.

(** ** TLS spoofing options *)

Definition MethodWrongSequence : Z := 0.
Definition MethodWrongChecksum : Z := 1.
Definition MethodWrongAcknowledgment : Z := 2.
Definition MethodWrongMD5Sig : Z := 3.
Definition MethodWrongTimestamp : Z := 4.

Definition ParseMethod (s : string) : result Z :=
  if String.eqb s "" || String.eqb s "wrong-sequence" then Ok MethodWrongSequence
  else if String.eqb s "wrong-checksum" then Ok MethodWrongChecksum
  else if String.eqb s "wrong-ack" then Ok MethodWrongAcknowledgment
  else if String.eqb s "wrong-md5" then Ok MethodWrongMD5Sig
  else if String.eqb s "wrong-timestamp" then Ok MethodWrongTimestamp
  else Err (E_New ("tls_spoof: unknown method: " ++ s)%string).

Definition Method_String (m : Z) : string :=
  if m =? MethodWrongSequence then "wrong-sequence"
  else if m =? MethodWrongChecksum then "wrong-checksum"
  else if m =? MethodWrongAcknowledgment then "wrong-ack"
  else if m =? MethodWrongMD5Sig then "wrong-md5"
  else if m =? MethodWrongTimestamp then "wrong-timestamp"
  else "unknown".

(** [platformSupported] is the build constant [PlatformSupported]. *)
Definition ParseOptions (platformSupported : bool) (spoof method : string) : result (string * Z) :=
  if String.eqb spoof "" then
    if negb (String.eqb method "") then Err (E_New "spoof_method requires spoof")
    else Ok (""%string, 0)
  else if negb platformSupported then Err (E_New "tls_spoof is not supported on this platform")
  else let? parsedMethod := ParseMethod method in Ok (spoof, parsedMethod).

(** ** Options ([option/rule_action.go]) *)

Record RawRouteOptionsActionOptions := mkRawRouteOptions {
  rro_OverrideAddress : string;
  rro_OverridePort : Z;
  rro_NetworkStrategy : option Z;
  rro_FallbackDelay : Z;
  rro_UDPDisableDomainUnmapping : bool;
  rro_UDPConnect : bool;
  rro_UDPTimeout : Z;
  rro_TLSFragment : bool;
  rro_TLSFragmentFallbackDelay : Z;
  rro_TLSRecordFragment : bool;
  rro_TLSSpoof : string;
  rro_TLSSpoofMethod : string }.

Record AbstractDNSRouteActionOptions := mkDNSRouteOptions {
  dro_Timeout : Z;
  dro_Strategy : Z;
  dro_DisableCache : bool;
  dro_DisableOptimisticCache : bool;
  dro_RewriteTTL : option Z;
  dro_ClientSubnet : option Prefix;
  dro_RemoveClientSubnet : bool }.

(** [AbstractDialerOptions]: the fields a description shows. *)
Record DirectActionOptions := mkDirectOptions {
  dio_BindInterface : string;
  dio_Inet4BindAddress : option Addr;
  dio_Inet6BindAddress : option Addr;
  dio_RoutingMark : Z;
  dio_ReuseAddr : bool;
  dio_ConnectTimeout : Z;
  dio_TCPFastOpen : bool;
  dio_TCPMultiPath : bool;
  dio_UDPFragment : option bool;
  dio_DomainStrategy : Z;
  dio_FallbackDelay : Z }.

Record RouteActionResolve := mkResolveOptions {
  reo_Server : string;
  reo_Timeout : Z;
  reo_Strategy : Z;
  reo_DisableCache : bool;
  reo_DisableOptimisticCache : bool;
  reo_RewriteTTL : option Z;
  reo_ClientSubnet : option Prefix }.

(** [option.RuleAction]: the action name with the options of that action (the
    options of the other actions are left at zero by the decoder). *)
Inductive RuleActionOptions :=
  | OptNone
  | OptRoute (Outbound : string) (o : RawRouteOptionsActionOptions)
  | OptRouteOptions (o : RawRouteOptionsActionOptions)
  | OptBypass (Outbound : string) (o : RawRouteOptionsActionOptions)
  | OptDirect (o : DirectActionOptions)
  | OptReject (Method : string) (NoDrop : bool)
  | OptHijackDNS
  | OptSniff (Sniffer : list string) (Timeout : Z)
  | OptResolve (o : RouteActionResolve)
  | OptUnknown (Action : string).

(** [option.DNSRuleAction], with [Race] beside the options of the action. *)
Inductive DNSRuleActionVariant :=
  | DOptNone
  | DOptRoute (Server : string) (Speculative : bool) (o : AbstractDNSRouteActionOptions)
  | DOptEvaluate (Server Tag : string) (Speculative : bool) (o : AbstractDNSRouteActionOptions)
  | DOptRespond
  | DOptRouteOptions (o : AbstractDNSRouteActionOptions)
  | DOptReject (Method : string) (NoDrop : bool)
  | DOptPredefined (Rcode : option Z) (Answer Ns Extra : list RR)
  | DOptUnknown (Action : string).
Record DNSRuleActionOptions := mkDNSRuleActionOptions {
  da_Race : bool; da_Options : DNSRuleActionVariant }.

(** ** Action values *)

Record RuleActionRouteOptions := mkRouteOptions {
  OverrideAddress : Socksaddr;
  OverridePort : Z;
  ro_NetworkStrategy : option Z;
  ro_NetworkType : option (list Z);
  ro_FallbackNetworkType : option (list Z);
  ro_FallbackDelay : Z;
  ro_UDPDisableDomainUnmapping : bool;
  ro_UDPConnect : bool;
  ro_UDPTimeout : Z;
  ro_TLSFragment : bool;
  ro_TLSFragmentFallbackDelay : Z;
  ro_TLSRecordFragment : bool;
  ro_TLSSpoof : string;
  ro_TLSSpoofMethod : Z }.

Record RuleActionDNSRouteOptions := mkDNSOptions {
  ao_Strategy : Z;
  ao_Timeout : Z;
  ao_DisableCache : bool;
  ao_DisableOptimisticCache : bool;
  ao_RewriteTTL : option Z;
  ao_ClientSubnet : Prefix;
  ao_RemoveClientSubnet : bool }.

Inductive StreamSniffer :=
  | TLSClientHello | HTTPHost | StreamDomainNameQuery | BitTorrent | SSH | RDP.
Inductive PacketSniffer :=
  | QUICClientHello | DomainNameQuery | STUNMessage | UTP | UDPTracker | DTLSRecord | NTP.
#[export] Instance StreamSniffer_eq_dec : EqDecision StreamSniffer.
Proof. solve_decision. Defined.
#[export] Instance PacketSniffer_eq_dec : EqDecision PacketSniffer.
Proof. solve_decision. Defined.

Record RuleActionSniff := mkSniff {
  sn_SnifferNames : list string;
  sn_StreamSniffers : list StreamSniffer;
  sn_PacketSniffers : list PacketSniffer;
  sn_Timeout : Z;
  sn_OverrideDestination : bool }.

Record RuleActionResolve := mkResolve {
  rs_Server : string;
  rs_Timeout : Z;
  rs_Strategy : Z;
  rs_DisableCache : bool;
  rs_DisableOptimisticCache : bool;
  rs_RewriteTTL : option Z;
  rs_ClientSubnet : Prefix }.

Record RuleActionPredefined := mkPredefined {
  pd_Rcode : Z; pd_Answer : list RR; pd_Ns : list RR; pd_Extra : list RR }.

(** [adapter.RuleAction]: one constructor per implementation.  The dialer of a
    direct action is represented by the options it was made from; the drop
    counter of a reject action is the state of [RuleActionReject_Error]. *)
Inductive RuleAction :=
  | RuleActionRoute (Outbound : string) (o : RuleActionRouteOptions)
  | RuleActionBypass (Outbound : string) (o : RuleActionRouteOptions)
  | ActRouteOptions (o : RuleActionRouteOptions)
  | RuleActionDNSRoute (Server : string) (Speculative : bool) (o : RuleActionDNSRouteOptions)
  | RuleActionEvaluate (Server Tag : string) (Speculative : bool) (o : RuleActionDNSRouteOptions)
  | RuleActionRespond
  | ActDNSRouteOptions (o : RuleActionDNSRouteOptions)
  | RuleActionDirect (Dialer : DirectActionOptions) (description : string)
  | RuleActionReject (Method : string) (NoDrop : bool)
  | RuleActionHijackDNS
  | ActSniff (r : RuleActionSniff)
  | ActResolve (r : RuleActionResolve)
  | ActPredefined (r : RuleActionPredefined).

(** The methods [Type()]. *)
Definition RuleAction_Type (a : RuleAction) : string :=
  match a with
  | RuleActionRoute _ _ | RuleActionDNSRoute _ _ _ => RuleActionTypeRoute
  | RuleActionBypass _ _ => RuleActionTypeBypass
  | ActRouteOptions _ | ActDNSRouteOptions _ => RuleActionTypeRouteOptions
  | RuleActionEvaluate _ _ _ _ => RuleActionTypeEvaluate
  | RuleActionRespond => RuleActionTypeRespond
  | RuleActionDirect _ _ => RuleActionTypeDirect
  | RuleActionReject _ _ => RuleActionTypeReject
  | RuleActionHijackDNS => RuleActionTypeHijackDNS
  | ActSniff _ => RuleActionTypeSniff
  | ActResolve _ => RuleActionTypeResolve
  | ActPredefined _ => RuleActionTypePredefined
  end.

Section actions.
Context `{L : Libs}.

(** ** Descriptions *)

(** The strategies are the five constants; Go panics on any other value. *)
Definition DomainStrategy_String (s : Z) : string :=
  if s =? DomainStrategyPreferIPv4 then "prefer_ipv4"
  else if s =? DomainStrategyPreferIPv6 then "prefer_ipv6"
  else if s =? DomainStrategyIPv4Only then "ipv4_only"
  else if s =? DomainStrategyIPv6Only then "ipv6_only"
  else "".

Definition NetworkStrategy_String (s : Z) : string :=
  if s =? NetworkStrategyDefault then "default"
  else if s =? NetworkStrategyFallback then "fallback"
  else if s =? NetworkStrategyHybrid then "hybrid"
  else F_ToString_int s.

(** [if cond { descriptions = append(descriptions, text) }]. *)
Definition descIf (cond : bool) (text : string) : list string := if cond then [text] else [].
Definition descOpt {A} (o : option A) (text : A -> string) : list string :=
  match o with None => [] | Some a => [text a] end.

Definition RuleActionRouteOptions_Descriptions (r : RuleActionRouteOptions) : list string :=
  (descIf (sa_IsValid (OverrideAddress r))
     (F_ToString ["override-address="; sa_AddrString (OverrideAddress r)]) ++
   descIf (0 <? OverridePort r)
     (F_ToString ["override-port="; F_ToString_int (OverridePort r)]) ++
   descOpt (ro_NetworkStrategy r)
     (fun s => F_ToString ["network-strategy="; NetworkStrategy_String s]) ++
   descOpt (ro_NetworkType r)
     (fun l => F_ToString ["network-type="; strings.Join (map InterfaceType_String l) ","]) ++
   descOpt (ro_FallbackNetworkType r)
     (fun l => F_ToString ["fallback-network-type=";
                           strings.Join (map InterfaceType_String l) ","]) ++
   descIf (0 <? ro_FallbackDelay r)
     (F_ToString ["fallback-delay="; Duration_String (ro_FallbackDelay r)]) ++
   descIf (ro_UDPDisableDomainUnmapping r) "udp-disable-domain-unmapping" ++
   descIf (ro_UDPConnect r) "udp-connect" ++
   descIf (0 <? ro_UDPTimeout r) "udp-timeout" ++
   descIf (ro_TLSFragment r) "tls-fragment" ++
   descIf (0 <? ro_TLSFragmentFallbackDelay r)
     (F_ToString ["tls-fragment-fallback-delay=";
                  Duration_String (ro_TLSFragmentFallbackDelay r)]) ++
   descIf (ro_TLSRecordFragment r) "tls-record-fragment" ++
   (if negb (String.eqb (ro_TLSSpoof r) "") then
      [F_ToString ["tls-spoof="; ro_TLSSpoof r];
       F_ToString ["tls-spoof-method="; Method_String (ro_TLSSpoofMethod r)]]
    else []))%list.

(** The options part shared by the DNS route, evaluate and route-options actions. *)
Definition dnsOptionDescriptions (o : RuleActionDNSRouteOptions) : list string :=
  (descIf (ao_DisableCache o) "disable-cache" ++
   descIf (ao_DisableOptimisticCache o) "disable-optimistic-cache" ++
   descOpt (ao_RewriteTTL o) (fun ttl => F_ToString ["rewrite-ttl="; F_ToString_int ttl]) ++
   descIf (0 <? ao_Timeout o) (F_ToString ["timeout="; Duration_String (ao_Timeout o)]) ++
   descIf (Prefix.IsValid (ao_ClientSubnet o))
     (F_ToString ["client-subnet="; Prefix_String (ao_ClientSubnet o)]) ++
   descIf (ao_RemoveClientSubnet o) "remove-client-subnet")%list.

Definition formatDNSRouteAction (action server : string) (speculative : bool)
    (options : RuleActionDNSRouteOptions) : string :=
  F_ToString [action; "(";
    strings.Join ([server] ++ descIf speculative "speculative" ++
                  dnsOptionDescriptions options)%list ","; ")"].

Definition RuleActionDNSRouteOptions_String (r : RuleActionDNSRouteOptions) : string :=
  F_ToString ["route-options("; strings.Join (dnsOptionDescriptions r) ","; ")"].

Definition RuleActionSniff_String (r : RuleActionSniff) : string :=
  let noNames := (length (sn_SnifferNames r) =? 0)%nat in
  if noNames && (sn_Timeout r =? 0) then "sniff"
  else if negb noNames && (sn_Timeout r =? 0) then
    F_ToString ["sniff("; strings.Join (sn_SnifferNames r) ","; ")"]
  else if noNames && (0 <? sn_Timeout r) then
    F_ToString ["sniff("; Duration_String (sn_Timeout r); ")"]
  else F_ToString ["sniff("; strings.Join (sn_SnifferNames r) ","; ",";
                   Duration_String (sn_Timeout r); ")"].

Definition RuleActionResolve_String (r : RuleActionResolve) : string :=
  let options :=
    (descIf (negb (String.eqb (rs_Server r) "")) (rs_Server r) ++
     descIf (negb (rs_Strategy r =? DomainStrategyAsIS)) (DomainStrategy_String (rs_Strategy r)) ++
     descIf (rs_DisableCache r) "disable_cache" ++
     descIf (rs_DisableOptimisticCache r) "disable_optimistic_cache" ++
     descOpt (rs_RewriteTTL r) (fun ttl => F_ToString ["rewrite_ttl="; F_ToString_int ttl]) ++
     descIf (0 <? rs_Timeout r) (F_ToString ["timeout="; Duration_String (rs_Timeout r)]) ++
     descIf (Prefix.IsValid (rs_ClientSubnet r))
       (F_ToString ["client_subnet="; Prefix_String (rs_ClientSubnet r)]))%list in
  match options with
  | [] => "resolve"
  | _ => F_ToString ["resolve("; strings.Join options ","; ")"]
  end.

Definition RuleActionPredefined_String (r : RuleActionPredefined) : string :=
  F_ToString ["predefined(";
    strings.Join ([dns_RcodeToString (pd_Rcode r)] ++ map RR_String (pd_Answer r) ++
                  map RR_String (pd_Ns r) ++ map RR_String (pd_Extra r))%list ","; ")"].

(** Method dispatch of [RuleAction.String]. *)
Definition RuleAction_String (a : RuleAction) : string :=
  match a with
  | RuleActionRoute outbound o =>
      F_ToString ["route("; strings.Join (outbound :: RuleActionRouteOptions_Descriptions o) ","; ")"]
  | RuleActionBypass outbound o =>
      if String.eqb outbound "" then "bypass()"
      else F_ToString ["bypass("; strings.Join (outbound :: RuleActionRouteOptions_Descriptions o) ",";
                       ")"]
  | ActRouteOptions o =>
      F_ToString ["route-options("; strings.Join (RuleActionRouteOptions_Descriptions o) ","; ")"]
  | RuleActionDNSRoute server speculative o => formatDNSRouteAction "route" server speculative o
  | RuleActionEvaluate server _ speculative o =>
      formatDNSRouteAction "evaluate" server speculative o
  | RuleActionRespond => "respond"
  | ActDNSRouteOptions o => RuleActionDNSRouteOptions_String o
  | RuleActionDirect _ description => "direct" ++ description
  | RuleActionReject method _ =>
      if String.eqb method RuleActionRejectMethodDefault then "reject"
      else F_ToString ["reject("; method; ")"]
  | RuleActionHijackDNS => "hijack-dns"
  | ActSniff r => RuleActionSniff_String r
  | ActResolve r => RuleActionResolve_String r
  | ActPredefined r => RuleActionPredefined_String r
  end%string.

(** ** Constructors *)

(** [DirectActionOptions.Descriptions] (option/rule_action.go). *)
Definition DirectActionOptions_Descriptions (d : DirectActionOptions) : list string :=
  (descIf (negb (String.eqb (dio_BindInterface d) "")) ("bind_interface=" ++ dio_BindInterface d)%string ++
   descOpt (dio_Inet4BindAddress d) (fun a => "inet4_bind_address=" ++ Addr_String a)%string ++
   descOpt (dio_Inet6BindAddress d) (fun a => "inet6_bind_address=" ++ Addr_String a)%string ++
   descIf (negb (dio_RoutingMark d =? 0))
     ("routing_mark=0x" ++ hex.FormatUint (dio_RoutingMark d))%string ++
   descIf (dio_ReuseAddr d) "reuse_addr" ++
   descIf (negb (dio_ConnectTimeout d =? 0))
     ("connect_timeout=" ++ Duration_String (dio_ConnectTimeout d))%string ++
   descIf (dio_TCPFastOpen d) "tcp_fast_open" ++
   descIf (dio_TCPMultiPath d) "tcp_multi_path" ++
   descOpt (dio_UDPFragment d)
     (fun b : bool => "udp_fragment=" ++ (if b then "true" else "false"))%string ++
   descIf (negb (dio_DomainStrategy d =? DomainStrategyAsIS))
     ("domain_strategy=" ++ DomainStrategy_String (dio_DomainStrategy d))%string ++
   descIf (negb (dio_FallbackDelay d =? 0))
     ("fallback_delay=" ++ Duration_String (dio_FallbackDelay d))%string)%list.

Definition directDescription (descriptions : list string) : string :=
  match descriptions with
  | [] => ""
  | [d0] => F_ToString ["("; d0; ")"]
  | [d0; d1] => F_ToString ["("; d0; ","; d1; ")"]
  | d0 :: d1 :: _ => F_ToString ["("; d0; ","; d1; ",...)"]
  end.

(** [RuleActionSniff.build]: the sniffers of the names, in their order. *)
Definition sniffersOf (name : string) : option (list StreamSniffer * list PacketSniffer) :=
  if String.eqb name ProtocolTLS then Some ([TLSClientHello], [])
  else if String.eqb name ProtocolHTTP then Some ([HTTPHost], [])
  else if String.eqb name ProtocolQUIC then Some ([], [QUICClientHello])
  else if String.eqb name ProtocolDNS then Some ([StreamDomainNameQuery], [DomainNameQuery])
  else if String.eqb name ProtocolSTUN then Some ([], [STUNMessage])
  else if String.eqb name ProtocolBitTorrent then Some ([BitTorrent], [UTP; UDPTracker])
  else if String.eqb name ProtocolDTLS then Some ([], [DTLSRecord])
  else if String.eqb name ProtocolSSH then Some ([SSH], [])
  else if String.eqb name ProtocolRDP then Some ([RDP], [])
  else if String.eqb name ProtocolNTP then Some ([], [NTP])
  else None.

Fixpoint sniffBuildLoop (names : list string) (r : RuleActionSniff) : result RuleActionSniff :=
  match names with
  | [] => Ok r
  | name :: names =>
      match sniffersOf name with
      | None => Err (E_New ("unknown sniffer: " ++ name)%string)
      | Some (streams, packets) =>
          sniffBuildLoop names
            (mkSniff (sn_SnifferNames r) (sn_StreamSniffers r ++ streams)%list
               (sn_PacketSniffers r ++ packets)%list (sn_Timeout r) (sn_OverrideDestination r))
      end
  end.
Definition RuleActionSniff_build (r : RuleActionSniff) : result RuleActionSniff :=
  sniffBuildLoop (sn_SnifferNames r) r.

(** [dialer_New] is the error of [dialer.New] on the options, if any. *)
Definition newRuleActionRouteOptions (platformSupported : bool)
    (options : RawRouteOptionsActionOptions) : result RuleActionRouteOptions :=
  let? '(spoof, spoofMethod) :=
    ParseOptions platformSupported (rro_TLSSpoof options) (rro_TLSSpoofMethod options) in
  Ok {| OverrideAddress := M_ParseSocksaddrHostPort (rro_OverrideAddress options) 0;
        OverridePort := rro_OverridePort options;
        ro_NetworkStrategy := rro_NetworkStrategy options;
        ro_NetworkType := None;
        ro_FallbackNetworkType := None;
        ro_FallbackDelay := rro_FallbackDelay options;
        ro_UDPDisableDomainUnmapping := rro_UDPDisableDomainUnmapping options;
        ro_UDPConnect := rro_UDPConnect options;
        ro_UDPTimeout := rro_UDPTimeout options;
        ro_TLSFragment := rro_TLSFragment options;
        ro_TLSFragmentFallbackDelay := rro_TLSFragmentFallbackDelay options;
        ro_TLSRecordFragment := rro_TLSRecordFragment options;
        ro_TLSSpoof := spoof;
        ro_TLSSpoofMethod := spoofMethod |}.

Definition NewRuleAction (platformSupported : bool)
    (dialer_New : DirectActionOptions -> option GoError) (action : RuleActionOptions) :
    result (option RuleAction) :=
  match action with
  | OptNone => Ok None
  | OptRoute outbound o =>
      let? routeOptions := newRuleActionRouteOptions platformSupported o in
      Ok (Some (RuleActionRoute outbound routeOptions))
  | OptRouteOptions o =>
      let? routeOptions := newRuleActionRouteOptions platformSupported o in
      Ok (Some (ActRouteOptions routeOptions))
  | OptBypass outbound o =>
      let? routeOptions := newRuleActionRouteOptions platformSupported o in
      Ok (Some (RuleActionBypass outbound routeOptions))
  | OptDirect o =>
      match dialer_New o with
      | Some err => Err err
      | None => Ok (Some (RuleActionDirect o (directDescription (DirectActionOptions_Descriptions o))))
      end
  | OptReject method noDrop => Ok (Some (RuleActionReject method noDrop))
  | OptHijackDNS => Ok (Some RuleActionHijackDNS)
  | OptSniff sniffer timeout =>
      let? sniffAction := RuleActionSniff_build (mkSniff sniffer [] [] timeout false) in
      Ok (Some (ActSniff sniffAction))
  | OptResolve o =>
      Ok (Some (ActResolve {|
        rs_Server := reo_Server o; rs_Timeout := reo_Timeout o; rs_Strategy := reo_Strategy o;
        rs_DisableCache := reo_DisableCache o;
        rs_DisableOptimisticCache := reo_DisableOptimisticCache o;
        rs_RewriteTTL := reo_RewriteTTL o;
        rs_ClientSubnet := default Prefix.zero (reo_ClientSubnet o) |}))
  | OptUnknown name => Err (GoPanic ("unknown rule action: " ++ name)%string)
  end.

Definition newDNSRouteOptions (o : AbstractDNSRouteActionOptions) : RuleActionDNSRouteOptions := {|
  ao_Strategy := dro_Strategy o; ao_Timeout := dro_Timeout o;
  ao_DisableCache := dro_DisableCache o;
  ao_DisableOptimisticCache := dro_DisableOptimisticCache o;
  ao_RewriteTTL := dro_RewriteTTL o;
  ao_ClientSubnet := default Prefix.zero (dro_ClientSubnet o);
  ao_RemoveClientSubnet := dro_RemoveClientSubnet o |}.

Definition NewDNSRuleAction (action : DNSRuleActionVariant) : result (option RuleAction) :=
  match action with
  | DOptNone => Ok None
  | DOptRoute server speculative o =>
      Ok (Some (RuleActionDNSRoute server speculative (newDNSRouteOptions o)))
  | DOptEvaluate server tag speculative o =>
      Ok (Some (RuleActionEvaluate server tag speculative (newDNSRouteOptions o)))
  | DOptRespond => Ok (Some RuleActionRespond)
  | DOptRouteOptions o => Ok (Some (ActDNSRouteOptions (newDNSRouteOptions o)))
  | DOptReject method noDrop => Ok (Some (RuleActionReject method noDrop))
  | DOptPredefined rcode answer ns extra =>
      Ok (Some (ActPredefined (mkPredefined (default RcodeSuccess rcode) answer ns extra)))
  | DOptUnknown name => Err (GoPanic ("unknown rule action: " ++ name)%string)
  end.

(** ** Reject *)

(** The cause inside a [RejectedError]. *)
Inductive RejectedError := ErrReset | ErrDrop.

(** [RuleActionReject.Error] at the time [timeNow], on the drop counter: the
    error (nil for the method [reply]) and the new counter. *)
Definition RuleActionReject_Error (method : string) (noDrop : bool) (timeNow : Z)
    (dropCounter : list Z) : result (option RejectedError) * list Z :=
  if String.eqb method RuleActionRejectMethodDefault then
    if noDrop then (Ok (Some ErrReset), dropCounter)
    else
      let dropCounter := common_Filter dropCounter (fun t => timeNow - t <=? 30 * Second) in
      let dropCounter := (dropCounter ++ [timeNow])%list in
      if (50 <? length dropCounter)%nat then (Ok (Some ErrDrop), dropCounter)
      else (Ok (Some ErrReset), dropCounter)
  else if String.eqb method RuleActionRejectMethodDrop then (Ok (Some ErrDrop), dropCounter)
  else if String.eqb method RuleActionRejectMethodReply then (Ok None, dropCounter)
  else (Err (GoPanic ("unknown reject method: " ++ method)%string), dropCounter).

(** ** Predefined responses *)

Definition setName (r : RR) (name : string) : RR :=
  let h := rr_Header r in
  mkRR (mkHeader name (hdr_Rrtype h) (hdr_Class h) (hdr_Ttl h)) (rr_Data r).

Definition rewriteRecord (question : Question) (it : RR) : RR :=
  let name := hdr_Name (rr_Header it) in
  if strings.HasPrefix name "*" then
    if strings.HasSuffix (q_Name question) (strings.drop 1 name)
    then setName it (q_Name question) else it
  else it.
Definition rewriteRecords (records : list RR) (question : Question) : list RR :=
  map (rewriteRecord question) records.

(** [RuleActionPredefined.Response]; indexing [request.Question[0]] panics on a
    message without question. *)
Definition RuleActionPredefined_Response (r : RuleActionPredefined) (request : Msg) : result Msg :=
  match msg_Question request with
  | [] => Err (GoPanic "index out of range")
  | q :: _ =>
      Ok {| msg_Id := msg_Id request; msg_Response := true; msg_Authoritative := true;
            msg_RecursionDesired := true; msg_RecursionAvailable := true; msg_Rcode := pd_Rcode r;
            msg_Question := msg_Question request;
            msg_Answer := rewriteRecords (pd_Answer r) q;
            msg_Ns := rewriteRecords (pd_Ns r) q;
            msg_Extra := rewriteRecords (pd_Extra r) q |}
  end.

(** [adapter.IsFinalAction] (adapter/rule.go). *)
Definition IsFinalAction (action : RuleAction) : bool :=
  let t := RuleAction_Type action in
  if String.eqb t RuleActionTypeSniff || String.eqb t RuleActionTypeResolve
     || String.eqb t RuleActionTypeEvaluate then false else true.
End actions.

(** ** Theorems *)

(** The drop counter after the calls at the times [ts]. *)
Definition rejectCounter `{L : Libs} (ts : list Z) : list Z :=
  foldl (fun c t => snd (RuleActionReject_Error RuleActionRejectMethodDefault false t c)) [] ts.

(** The calls of [ts] that are at most 30 seconds before [now]. *)
Definition recentCalls (now : Z) (ts : list Z) : list Z :=
  List.filter (fun t => now - t <=? 30 * Second) ts.

Section theorems.
Context `{L : Libs}.

Lemma reject_counter_step now c :
  snd (RuleActionReject_Error RuleActionRejectMethodDefault false now c)
  = (recentCalls now c ++ [now])%list.
Proof.
  unfold RuleActionReject_Error, recentCalls. cbn -[Nat.ltb Second].
  rewrite common_Filter_spec. by split_match.
Qed.

Lemma recentCalls_mono now now' ts :
  now <= now' -> recentCalls now' (recentCalls now ts) = recentCalls now' ts.
Proof.
  intros Hle. unfold recentCalls. induction ts as [|t ts IH]; cbn -[Second]; [done|].
  destruct (Z.leb_spec (now - t) (30 * Second)) as [Hn|Hn]; cbn -[Second]; [by rewrite IH|].
  destruct (Z.leb_spec (now' - t) (30 * Second)); [lia|done].
Qed.

Lemma recentCalls_self now : recentCalls now [now] = [now].
Proof. unfold recentCalls, Second. cbn. rewrite Z.sub_diag. done. Qed.

Lemma recentCalls_app now a b :
  recentCalls now (a ++ b) = (recentCalls now a ++ recentCalls now b)%list.
Proof. apply List.filter_app. Qed.

Lemma reject_counter_window ts now :
  StronglySorted Z.le (ts ++ [now]) ->
  rejectCounter (ts ++ [now]) = recentCalls now (ts ++ [now]).
Proof.
  revert now. induction ts as [|t ts IH] using rev_ind; intros now Hs.
  - unfold rejectCounter. cbn [app foldl]. by rewrite reject_counter_step, recentCalls_self.
  - assert (Hs' : StronglySorted Z.le (ts ++ [t])).
    { by apply StronglySorted_app in Hs as (_ & Hs & _). }
    assert (Hle : t <= now).
    { apply StronglySorted_app in Hs as (Hs & _ & _). apply (Hs t now); set_solver. }
    unfold rejectCounter. rewrite foldl_app. cbn [foldl].
    fold (rejectCounter (ts ++ [t])). rewrite reject_counter_step, (IH t Hs').
    rewrite recentCalls_mono by done.
    by rewrite (recentCalls_app now (ts ++ [t]) [now]), recentCalls_self.
Qed.

(** Flood protection of the default reject action: with calls at
    non-decreasing times [ts] and then [now], the call at [now] drops exactly
    when more than 50 of the calls, itself included, fall within the last 30
    seconds, and resets the connection otherwise. *)
Theorem reject_flood_window (ts : list Z) (now : Z)
    (Hs : StronglySorted Z.le (ts ++ [now])) :
  fst (RuleActionReject_Error RuleActionRejectMethodDefault false now (rejectCounter ts))
  = Ok (Some (if (50 <? length (recentCalls now (ts ++ [now])))%nat then ErrDrop else ErrReset)).
Proof.
  pose proof (reject_counter_window ts now Hs) as Hw.
  unfold rejectCounter in Hw. rewrite foldl_app in Hw. cbn [foldl] in Hw.
  fold (rejectCounter ts) in Hw. rewrite reject_counter_step in Hw. rewrite <- Hw.
  unfold RuleActionReject_Error. cbn -[Nat.ltb Second]. rewrite common_Filter_spec.
  fold (recentCalls now (rejectCounter ts)). by split_match.
Qed.

Lemma sniffBuildLoop_spec names r :
  sniffBuildLoop names r =
  match find (fun n => match sniffersOf n with None => true | _ => false end) names with
  | Some n => Err (E_New ("unknown sniffer: " ++ n)%string)
  | None => Ok (mkSniff (sn_SnifferNames r)
      (sn_StreamSniffers r ++ concat (map (fun n => default [] (fst <$> sniffersOf n)) names))%list
      (sn_PacketSniffers r ++ concat (map (fun n => default [] (snd <$> sniffersOf n)) names))%list
      (sn_Timeout r) (sn_OverrideDestination r))
  end.
Proof.
  revert r. induction names as [|n names IH]; intros r; cbn -[sniffersOf].
  - destruct r. cbn. by rewrite !app_nil_r.
  - destruct (sniffersOf n) as [[st pk]|]; [|done].
    rewrite IH. cbn. split_match; [done|]. by rewrite <- !app_assoc.
Qed.

(** The sniff action is built exactly when every configured sniffer name is
    known; it then runs, in the configured order, the stream and the packet
    sniffers of the names, and the error otherwise names the first unknown
    sniffer. *)
Theorem sniff_build_complete (names : list string) (timeout : Z) :
  RuleActionSniff_build (mkSniff names [] [] timeout false) =
  match find (fun n => match sniffersOf n with None => true | _ => false end) names with
  | Some n => Err (E_New ("unknown sniffer: " ++ n)%string)
  | None => Ok (mkSniff names
      (concat (map (fun n => default [] (fst <$> sniffersOf n)) names))
      (concat (map (fun n => default [] (snd <$> sniffersOf n)) names)) timeout false)
  end.
Proof. apply sniffBuildLoop_spec. Qed.
End theorems.

Lemma reject_flood_window_witness :
  fst (@RuleActionReject_Error ref_libs RuleActionRejectMethodDefault false (40 * Second)
         (@rejectCounter ref_libs (repeat 0 2 ++ repeat (20 * Second) 50)))
  = Ok (Some ErrDrop).
Proof.
  rewrite (@reject_flood_window ref_libs).
  - vm_compute. reflexivity.
  - vm_compute. repeat (constructor; [|repeat (constructor; [discriminate|]); constructor]).
    constructor.
Defined.
