(* ===== verification/RuleEngine.v ===== *)
(** * The rule engine: [route/rule/{match_state,rule_abstract,rule_item_rule_set,rule_set,rule_dns}.go]

    The rule tree and its matching procedure.  A rule is matched against the
    connection metadata, which [Match] also writes: it resets the rule cache,
    sets the rule-set flags around a nested match and records the address
    checks it had to defer.  Every operation therefore returns its verdict
    together with the metadata it leaves behind.

    Rule-sets are held by value at the time of the match. *)

From S2P Require Import Prelude.
From S2P Require Import GoText.
From S2P Require Import NetIP.
From S2P Require Import Libs.
From S2P Require Import Metadata.
From S2P Require Import RuleItems.
From S2P Require Import RuleAction.
Local Open Scope string_scope.
Local Open Scope Z_scope.

Definition RuleTypeDefault : string := "default".
Definition RuleTypeLogical : string := "logical".
Definition LogicalTypeAnd : string := "and".
Definition LogicalTypeOr : string := "or".

(** ** Match state ([match_state.go]) *)

Definition ruleMatchSourceAddress : Z := 1.
Definition ruleMatchSourcePort : Z := 2.
Definition ruleMatchDestinationAddress : Z := 4.
Definition ruleMatchDestinationPort : Z := 8.

Record ruleGroupMatch := mkGroupMatch { required : Z; satisfied : Z }.
Definition ruleGroupMatch_done (g : ruleGroupMatch) : bool :=
  Z.ldiff (required g) (satisfied g) =? 0.
Definition mergeWith (g other : ruleGroupMatch) : ruleGroupMatch :=
  mkGroupMatch (Z.lor (required g) (required other)) (Z.lor (satisfied g) (satisfied other)).
Definition ruleMatchState_has (s target : Z) : bool := negb (Z.land s target =? 0).

(** [groups.required |= state] and [groups.satisfied |= state]. *)
Definition require (g : ruleGroupMatch) (state : Z) : ruleGroupMatch :=
  mkGroupMatch (Z.lor (required g) state) (satisfied g).
Definition satisfy (g : ruleGroupMatch) (state : Z) : ruleGroupMatch :=
  mkGroupMatch (required g) (Z.lor (satisfied g) state).

Record ruleMatchSnapshot := mkSnapshot {
  snap_ipCidrMatchSource : bool; snap_ipCidrAcceptEmpty : bool; snap_deferred : Z }.
Definition snapshotRuleMatch (m : InboundContext) : ruleMatchSnapshot :=
  mkSnapshot (m_IPCIDRMatchSource m) (m_IPCIDRAcceptEmpty m) (m_DeferredIPCIDRMatchGroups m).
Definition restore (s : ruleMatchSnapshot) (m : InboundContext) : InboundContext :=
  set_Deferred (set_IPCIDRAcceptEmpty (set_IPCIDRMatchSource m (snap_ipCidrMatchSource s))
                  (snap_ipCidrAcceptEmpty s)) (snap_deferred s).

(** ** The rule tree *)

(** [adapter.RuleSetMetadata]. *)
Record RuleSetMetadata := mkRuleSetMetadata {
  ContainsProcessRule : bool;
  ContainsWIFIRule : bool;
  ContainsIPCIDRRule : bool;
  ContainsDNSQueryTypeRule : bool;
  ContainsNonIPCIDRRule : bool }.

Section engine.
Context `{L : Libs}.

(** An entry of [allItems]: an item of one of the groups, or the rule-set item. *)
Inductive AllItem := AllItemOf (item : RuleItem) | AllItemRuleSet.

Inductive abstractDefaultRule :=
  | mkDefaultRule
      (items sourceAddressItems sourcePortItems destinationAddressItems
       destinationIPCIDRItems destinationPortItems : list RuleItem)
      (allItems : list AllItem)
      (ruleSetItem : option RuleSetItem)
      (invert : bool)
      (action : option RuleAction)
with RuleSetItem :=
  | mkRuleSetItem (tagList : list string) (setList : list RuleSet)
      (ipCidrMatchSource ipCidrAcceptEmpty : bool)
with RuleSet :=
  | mkRuleSet (tag : string) (rules : list HeadlessRule) (metadata : RuleSetMetadata)
with abstractLogicalRule :=
  | mkLogicalRule (rules : list HeadlessRule) (mode : string) (invert : bool)
      (action : option RuleAction)
(** The implementations of [adapter.HeadlessRule]. *)
with HeadlessRule :=
  | DefaultRule (r : abstractDefaultRule)
  | DefaultHeadlessRule (r : abstractDefaultRule)
  | DefaultDNSRule (r : abstractDefaultRule) (matchResponse : bool) (matchResponseTag : string)
      (race : bool)
  | LogicalRule (r : abstractLogicalRule)
  | LogicalHeadlessRule (r : abstractLogicalRule)
  | LogicalDNSRule (r : abstractLogicalRule) (matchResponseTags : list string)
      (matchResponseAnonymous race : bool).

Definition items (r : abstractDefaultRule) :=
  match r with mkDefaultRule i _ _ _ _ _ _ _ _ _ => i end.
Definition sourceAddressItems (r : abstractDefaultRule) :=
  match r with mkDefaultRule _ i _ _ _ _ _ _ _ _ => i end.
Definition sourcePortItems (r : abstractDefaultRule) :=
  match r with mkDefaultRule _ _ i _ _ _ _ _ _ _ => i end.
Definition destinationAddressItems (r : abstractDefaultRule) :=
  match r with mkDefaultRule _ _ _ i _ _ _ _ _ _ => i end.
Definition destinationIPCIDRItems (r : abstractDefaultRule) :=
  match r with mkDefaultRule _ _ _ _ i _ _ _ _ _ => i end.
Definition destinationPortItems (r : abstractDefaultRule) :=
  match r with mkDefaultRule _ _ _ _ _ i _ _ _ _ => i end.
Definition allItems (r : abstractDefaultRule) :=
  match r with mkDefaultRule _ _ _ _ _ _ i _ _ _ => i end.
Definition ruleSetItem (r : abstractDefaultRule) :=
  match r with mkDefaultRule _ _ _ _ _ _ _ i _ _ => i end.
Definition rule_invert (r : abstractDefaultRule) :=
  match r with mkDefaultRule _ _ _ _ _ _ _ _ i _ => i end.
Definition rule_action (r : abstractDefaultRule) :=
  match r with mkDefaultRule _ _ _ _ _ _ _ _ _ a => a end.
Definition setList (r : RuleSetItem) := match r with mkRuleSetItem _ s _ _ => s end.
Definition ipCidrMatchSource (r : RuleSetItem) := match r with mkRuleSetItem _ _ b _ => b end.
Definition ipCidrAcceptEmpty (r : RuleSetItem) := match r with mkRuleSetItem _ _ _ b => b end.
Definition set_rules (s : RuleSet) := match s with mkRuleSet _ r _ => r end.
Definition RuleSet_Metadata (s : RuleSet) := match s with mkRuleSet _ _ d => d end.
Definition logical_rules (r : abstractLogicalRule) := match r with mkLogicalRule l _ _ _ => l end.
Definition logical_mode (r : abstractLogicalRule) := match r with mkLogicalRule _ o _ _ => o end.
Definition logical_invert (r : abstractLogicalRule) := match r with mkLogicalRule _ _ i _ => i end.
Definition logical_action (r : abstractLogicalRule) := match r with mkLogicalRule _ _ _ a => a end.

(** ** Matching a default rule *)

Context (env : RuleEnv).

Definition matchAnyItem (items : list RuleItem) (m : InboundContext) : bool :=
  common_Any items (fun it => RuleItem_Match env it m).

Definition nonEmpty {A} (l : list A) : bool := (0 <? length l)%nat.

Definition destinationIPCIDRMatchesSource (r : abstractDefaultRule) (m : InboundContext) : bool :=
  m_IPCIDRMatchSource m && nonEmpty (destinationIPCIDRItems r).

Definition destinationIPCIDRMatchesDestination (r : abstractDefaultRule) (m : InboundContext) : bool :=
  negb (m_IgnoreDestinationIPCIDRMatch m) && negb (m_IPCIDRMatchSource m)
  && nonEmpty (destinationIPCIDRItems r).

Definition evaluateGroups (r : abstractDefaultRule) (m : InboundContext) :
    ruleGroupMatch * InboundContext :=
  let groups := mkGroupMatch 0 0 in
  let groups :=
    if nonEmpty (sourceAddressItems r) then
      let groups := require groups ruleMatchSourceAddress in
      if matchAnyItem (sourceAddressItems r) m then satisfy groups ruleMatchSourceAddress
      else groups
    else groups in
  let groups :=
    if destinationIPCIDRMatchesSource r m then
      let groups := require groups ruleMatchSourceAddress in
      if negb (ruleMatchState_has (satisfied groups) ruleMatchSourceAddress)
         && matchAnyItem (destinationIPCIDRItems r) m
      then satisfy groups ruleMatchSourceAddress else groups
    else groups in
  let groups :=
    if nonEmpty (sourcePortItems r) then
      let groups := require groups ruleMatchSourcePort in
      if matchAnyItem (sourcePortItems r) m then satisfy groups ruleMatchSourcePort else groups
    else groups in
  let groups :=
    if nonEmpty (destinationAddressItems r) then
      let groups := require groups ruleMatchDestinationAddress in
      if matchAnyItem (destinationAddressItems r) m then satisfy groups ruleMatchDestinationAddress
      else groups
    else groups in
  let groups :=
    if destinationIPCIDRMatchesDestination r m then
      let groups := require groups ruleMatchDestinationAddress in
      if negb (ruleMatchState_has (satisfied groups) ruleMatchDestinationAddress)
         && matchAnyItem (destinationIPCIDRItems r) m
      then satisfy groups ruleMatchDestinationAddress else groups
    else groups in
  let groups :=
    if nonEmpty (destinationPortItems r) then
      let groups := require groups ruleMatchDestinationPort in
      if matchAnyItem (destinationPortItems r) m then satisfy groups ruleMatchDestinationPort
      else groups
    else groups in
  let m :=
    if m_IgnoreDestinationIPCIDRMatch m && negb (m_IPCIDRMatchSource m)
       && nonEmpty (destinationIPCIDRItems r) && (length (destinationAddressItems r) =? 0)%nat
    then set_Deferred m (Z.lor (m_DeferredIPCIDRMatchGroups m) ruleMatchDestinationAddress)
    else m in
  (groups, m).

Definition evaluateForMerge (r : abstractDefaultRule) (m : InboundContext) :
    ruleGroupMatch * bool * InboundContext :=
  let '(groups, m) := evaluateGroups r m in
  if negb (forallb (fun item => RuleItem_Match env item m) (items r))
  then (mkGroupMatch 0 0, false, m)
  else (groups, true, m).

(** ** Rule-sets *)

Definition mergeableRuleIn (rules : list HeadlessRule) : option abstractDefaultRule :=
  match rules with
  | [DefaultHeadlessRule rule] =>
      if rule_invert rule || (match ruleSetItem rule with Some _ => true | None => false end)
      then None else Some rule
  | _ => None
  end.
Definition mergeableRule (s : RuleSet) : option abstractDefaultRule := mergeableRuleIn (set_rules s).

Definition prepareNestedMatch (r : RuleSetItem) (m : InboundContext) : InboundContext :=
  set_IPCIDRAcceptEmpty
    (set_IPCIDRMatchSource (ResetRuleMatchCache m) (ipCidrMatchSource r)) (ipCidrAcceptEmpty r).

(** The end of a loop that collected the deferred groups of its branches. *)
Definition finishDeferred (snapshot : ruleMatchSnapshot) (m : InboundContext) (matched : bool)
    (deferredGroups : Z) : bool * InboundContext :=
  let m := restore snapshot m in
  if matched
  then (true, set_Deferred m (Z.lor (m_DeferredIPCIDRMatchGroups m) deferredGroups))
  else (false, m).

(** The loops are parameterised by the match of an element. *)
Section loops.
Context (matchSet : RuleSet -> InboundContext -> bool * InboundContext)
        (matchRule : HeadlessRule -> InboundContext -> bool * InboundContext).

Fixpoint ruleSetItemLoop (r : RuleSetItem) (snapshot : ruleMatchSnapshot) (sets : list RuleSet)
    (m : InboundContext) : bool * InboundContext :=
  match sets with
  | [] => (false, restore snapshot m)
  | ruleSet :: sets =>
      let m := prepareNestedMatch r m in
      let '(b, m) := matchSet ruleSet m in
      if b then (true, restore snapshot m) else ruleSetItemLoop r snapshot sets m
  end.

Fixpoint outerGroupsLoop (r : RuleSetItem) (outerGroups : ruleGroupMatch)
    (snapshot : ruleMatchSnapshot) (sets : list RuleSet) (m : InboundContext) (matched : bool)
    (deferredGroups : Z) : bool * InboundContext :=
  match sets with
  | [] => finishDeferred snapshot m matched deferredGroups
  | ruleSet :: sets =>
      let m := prepareNestedMatch r m in
      match mergeableRule ruleSet with
      | Some branch =>
          let '(branchGroups, branchMatched, m) := evaluateForMerge branch m in
          let merged := mergeWith outerGroups branchGroups in
          if branchMatched && ruleGroupMatch_done merged then
            let branchDeferredGroups :=
              Z.ldiff (m_DeferredIPCIDRMatchGroups m) (satisfied merged) in
            if branchDeferredGroups =? 0 then
              let m := restore snapshot m in
              (true, set_Deferred m (Z.ldiff (m_DeferredIPCIDRMatchGroups m) (satisfied merged)))
            else outerGroupsLoop r outerGroups snapshot sets m true
                   (Z.lor deferredGroups branchDeferredGroups)
          else outerGroupsLoop r outerGroups snapshot sets m matched deferredGroups
      | None =>
          if ruleGroupMatch_done outerGroups then
            let '(b, m) := matchSet ruleSet m in
            if b then
              if m_DeferredIPCIDRMatchGroups m =? 0 then (true, restore snapshot m)
              else outerGroupsLoop r outerGroups snapshot sets m true
                     (Z.lor deferredGroups (m_DeferredIPCIDRMatchGroups m))
            else outerGroupsLoop r outerGroups snapshot sets m matched deferredGroups
          else outerGroupsLoop r outerGroups snapshot sets m matched deferredGroups
      end
  end.

Fixpoint anyHeadlessLoop (snapshot : ruleMatchSnapshot) (rules : list HeadlessRule)
    (m : InboundContext) (matched : bool) (deferredGroups : Z) : bool * InboundContext :=
  match rules with
  | [] => finishDeferred snapshot m matched deferredGroups
  | rule :: rules =>
      let m := ResetRuleMatchCache m in
      let '(b, m) := matchRule rule m in
      if b then
        if m_DeferredIPCIDRMatchGroups m =? 0 then (true, restore snapshot m)
        else anyHeadlessLoop snapshot rules m true
               (Z.lor deferredGroups (m_DeferredIPCIDRMatchGroups m))
      else anyHeadlessLoop snapshot rules m matched deferredGroups
  end.

(** The two loops of [abstractLogicalRule.Match]: the flag, the deferred groups
    and the metadata when the loop is left. *)
Fixpoint logicalAndLoop (rules : list HeadlessRule) (m : InboundContext) (deferredGroups : Z) :
    bool * Z * InboundContext :=
  match rules with
  | [] => (true, deferredGroups, m)
  | rule :: rules =>
      let m := ResetRuleCache m in
      let '(b, m) := matchRule rule m in
      if negb b then (false, 0, m)
      else logicalAndLoop rules m (Z.lor deferredGroups (m_DeferredIPCIDRMatchGroups m))
  end.

Fixpoint logicalOrLoop (rules : list HeadlessRule) (m : InboundContext) (matched : bool)
    (deferredGroups : Z) : bool * Z * InboundContext :=
  match rules with
  | [] => (matched, deferredGroups, m)
  | rule :: rules =>
      let m := ResetRuleCache m in
      let '(b, m) := matchRule rule m in
      if b then
        if m_DeferredIPCIDRMatchGroups m =? 0 then (true, 0, m)
        else logicalOrLoop rules m true (Z.lor deferredGroups (m_DeferredIPCIDRMatchGroups m))
      else logicalOrLoop rules m matched deferredGroups
  end.
End loops.

(** The end of [abstractDefaultRule.matchInner]. *)
Definition matchInnerWith
    (outer : RuleSetItem -> InboundContext -> ruleGroupMatch -> bool * InboundContext)
    (r : abstractDefaultRule) (i : option RuleSetItem) (m : InboundContext) : bool * InboundContext :=
  let '(groups, m) := evaluateGroups r m in
  if negb (forallb (fun item => RuleItem_Match env item m) (items r)) then (false, m)
  else
    let '(matched, m) :=
      match i with
      | Some item => outer item m groups
      | None => (ruleGroupMatch_done groups, m)
      end in
    if matched
    then (true, set_Deferred m (Z.ldiff (m_DeferredIPCIDRMatchGroups m) (satisfied groups)))
    else (false, m).

(** The end of [abstractDefaultRule.Match], after [matchInner]. *)
Definition applyInvert (invert : bool) (res : bool * InboundContext) : bool * InboundContext :=
  let '(matched, m) := res in
  if invert then
    if negb matched then (true, set_Deferred m 0)
    else (negb (m_DeferredIPCIDRMatchGroups m =? 0), m)
  else (matched, m).

(** The end of [abstractLogicalRule.Match], after the loop. *)
Definition logicalFinish (snapshot : ruleMatchSnapshot) (invert : bool)
    (res : bool * Z * InboundContext) : bool * InboundContext :=
  let '(matched, deferredGroups, m) := res in
  let m := restore snapshot m in
  let m := if matched
           then set_Deferred m (Z.lor (m_DeferredIPCIDRMatchGroups m) deferredGroups) else m in
  if invert then
    if negb matched then (true, m) else (negb (deferredGroups =? 0), m)
  else (matched, m).

(** [DefaultDNSRule.matchForMatch] around the match of the embedded rule: a rule
    on a response is matched on a copy of the metadata. *)
Definition matchForMatchWith (matchDefault : InboundContext -> bool * InboundContext)
    (matchResponse : bool) (matchResponseTag : string) (invert : bool) (m : InboundContext) :
    bool * InboundContext :=
  if matchResponse then
    let response := if negb (String.eqb matchResponseTag "")
                    then m_NamedDNSResponses m !! matchResponseTag else m_DNSResponse m in
    match response with
    | None => (invert, m)
    | Some _ =>
        let matchMetadata := set_DestinationAddressMatchFromResponse (set_DNSResponse m response) true in
        (fst (matchDefault matchMetadata), m)
    end
  else matchDefault m.

Fixpoint DefaultRule_Match (r : abstractDefaultRule) (m : InboundContext) : bool * InboundContext :=
  match r with
  | mkDefaultRule _ _ _ _ _ _ all i invert _ =>
      if (length all =? 0)%nat then (true, m)
      else applyInvert invert (matchInnerWith matchWithOuterGroups r i m)
  end
with matchWithOuterGroups (i : RuleSetItem) (m : InboundContext) (outerGroups : ruleGroupMatch) :
    bool * InboundContext :=
  match i with
  | mkRuleSetItem _ sets _ _ =>
      outerGroupsLoop RuleSet_Match i outerGroups (snapshotRuleMatch m) sets m false 0
  end
with RuleSet_Match (s : RuleSet) (m : InboundContext) : bool * InboundContext :=
  match s with
  | mkRuleSet _ rules _ => anyHeadlessLoop HeadlessRule_Match (snapshotRuleMatch m) rules m false 0
  end
with LogicalRule_Match (r : abstractLogicalRule) (m : InboundContext) : bool * InboundContext :=
  match r with
  | mkLogicalRule rules mode invert _ =>
      let snapshot := snapshotRuleMatch m in
      logicalFinish snapshot invert
        (if String.eqb mode LogicalTypeAnd then logicalAndLoop HeadlessRule_Match rules m 0
         else logicalOrLoop HeadlessRule_Match rules m false 0)
  end
with HeadlessRule_Match (h : HeadlessRule) (m : InboundContext) : bool * InboundContext :=
  match h with
  | DefaultRule r | DefaultHeadlessRule r => DefaultRule_Match r m
  | DefaultDNSRule r matchResponse tag _ =>
      matchForMatchWith (DefaultRule_Match r) matchResponse tag (rule_invert r) m
  | LogicalRule r | LogicalHeadlessRule r | LogicalDNSRule r _ _ _ => LogicalRule_Match r m
  end.

(** ** DNS rules ([rule_dns.go]) *)

Definition RuleSetItem_ContainsDestinationIPCIDRRule (r : RuleSetItem) : bool :=
  if ipCidrMatchSource r then false
  else common_Any (setList r) (fun ruleSet => ContainsIPCIDRRule (RuleSet_Metadata ruleSet)).

Definition DefaultDNSRule_WithAddressLimit (r : abstractDefaultRule) : bool :=
  if nonEmpty (destinationIPCIDRItems r) then true
  else match ruleSetItem r with
       | None => false
       | Some i => RuleSetItem_ContainsDestinationIPCIDRRule i
       end.

(** The type assertion [rawRule.(adapter.DNSRule)]. *)
Definition isDNSRule (h : HeadlessRule) : bool :=
  match h with DefaultDNSRule _ _ _ _ | LogicalDNSRule _ _ _ _ => true | _ => false end.

(** [DNSRule.WithAddressLimit]; [false] on a rule that is not a DNS rule, which
    the type assertion of the logical rule skips. *)
Fixpoint DNSRule_WithAddressLimit (h : HeadlessRule) : bool :=
  match h with
  | DefaultDNSRule r _ _ _ => DefaultDNSRule_WithAddressLimit r
  | LogicalDNSRule (mkLogicalRule rules _ _ _) _ _ _ => existsb DNSRule_WithAddressLimit rules
  | _ => false
  end.

Definition MatchResponseTag (h : HeadlessRule) : string :=
  match h with DefaultDNSRule _ _ tag _ => tag | _ => "" end.
Definition MatchResponseTags (h : HeadlessRule) : list string :=
  match h with
  | DefaultDNSRule _ _ tag _ => if String.eqb tag "" then [] else [tag]
  | LogicalDNSRule _ tags _ _ => tags
  | _ => []
  end.
Definition MatchResponseAnonymous (h : HeadlessRule) : bool :=
  match h with
  | DefaultDNSRule _ matchResponse tag _ => matchResponse && String.eqb tag ""
  | LogicalDNSRule _ _ anonymous _ => anonymous
  | _ => false
  end.
Definition DNSRule_Race (h : HeadlessRule) : bool :=
  match h with DefaultDNSRule _ _ _ race | LogicalDNSRule _ _ _ race => race | _ => false end.

(** [DNSRule.LegacyPreMatch]: the match with the destination address items left
    out, before there is a response. *)
Definition ignoringDestination (f : InboundContext -> bool * InboundContext) (m : InboundContext) :
    bool * InboundContext :=
  let '(b, m) := f (set_IgnoreDestinationIPCIDRMatch m true) in
  (b, set_IgnoreDestinationIPCIDRMatch m false).
Definition LegacyPreMatch (h : HeadlessRule) (m : InboundContext) : bool * InboundContext :=
  match h with
  | DefaultDNSRule r matchResponse _ _ =>
      if matchResponse then (false, m) else ignoringDestination (DefaultRule_Match r) m
  | LogicalDNSRule r _ _ _ => ignoringDestination (LogicalRule_Match r) m
  | _ => (false, m)
  end.

(** [DNSRule.MatchAddressLimit]: the match of the response, on a copy of the
    metadata. *)
Definition MatchAddressLimit (h : HeadlessRule) (m : InboundContext) (response : option Msg) : bool :=
  let matchMetadata :=
    set_DestinationAddressMatchFromResponse (set_DNSResponse (ResetRuleCache m) response) true in
  match h with
  | DefaultDNSRule r _ _ _ => fst (DefaultRule_Match r matchMetadata)
  | LogicalDNSRule r _ _ _ => fst (LogicalRule_Match r matchMetadata)
  | _ => false
  end.

(** ** Actions and types of rules *)

Definition rule_Action (h : HeadlessRule) : option RuleAction :=
  match h with
  | DefaultRule r | DefaultHeadlessRule r | DefaultDNSRule r _ _ _ => rule_action r
  | LogicalRule r | LogicalHeadlessRule r | LogicalDNSRule r _ _ _ => logical_action r
  end.
Definition rule_Type (h : HeadlessRule) : string :=
  match h with
  | DefaultRule _ | DefaultHeadlessRule _ | DefaultDNSRule _ _ _ _ => RuleTypeDefault
  | LogicalRule _ | LogicalHeadlessRule _ | LogicalDNSRule _ _ _ _ => RuleTypeLogical
  end.

Definition RuleSetItem_String (r : RuleSetItem) : string :=
  match r with mkRuleSetItem tagList _ _ _ => listString "rule_set=" tagList end.

Definition invertString (invert : bool) (s : string) : string :=
  (if invert then "!(" ++ s ++ ")" else s)%string.

(** The entry of the rule-set item prints the item of the rule. *)
Definition abstractDefaultRule_String (r : abstractDefaultRule) : string :=
  invertString (rule_invert r)
    (strings.Join (map (fun entry => match entry with
       | AllItemOf item => RuleItem_String item
       | AllItemRuleSet => match ruleSetItem r with Some i => RuleSetItem_String i | None => ""%string end
       end) (allItems r)) " ").

Fixpoint rule_String (h : HeadlessRule) : string :=
  match h with
  | DefaultRule r | DefaultHeadlessRule r | DefaultDNSRule r _ _ _ => abstractDefaultRule_String r
  | LogicalRule r | LogicalHeadlessRule r | LogicalDNSRule r _ _ _ =>
      match r with
      | mkLogicalRule rules mode invert _ =>
          let op := if String.eqb mode LogicalTypeAnd then "&&"%string
                    else if String.eqb mode LogicalTypeOr then "||"%string else ""%string in
          invertString invert (strings.Join (map rule_String rules) (" " ++ op ++ " ")%string)
      end
  end.

(** ** Rule-set contents ([rule_set.go]) *)

Definition itemIPSets (item : RuleItem) : list IPSet :=
  match item with ItemIPCIDR r => [ipSet r] | _ => [] end.

(** [extractIPSetFromRule] panics on rules that are not headless. *)
Fixpoint extractIPSetFromRule (h : HeadlessRule) : result (list IPSet) :=
  match h with
  | DefaultHeadlessRule r => Ok (flat_map itemIPSets (destinationIPCIDRItems r))
  | LogicalHeadlessRule (mkLogicalRule rules _ _ _) =>
      foldr (fun r acc => let? x := r in let? y := acc in Ok (x ++ y)%list) (Ok [])
        (map extractIPSetFromRule rules)
  | _ => Err (GoPanic "unexpected rule type")
  end.

(** [RuleSetItem.Match]. *)
Definition RuleSetItem_Match (r : RuleSetItem) (m : InboundContext) : bool * InboundContext :=
  ruleSetItemLoop RuleSet_Match r (snapshotRuleMatch m) (setList r) m.
End engine.

#[global] Arguments nonEmpty : simpl never.

(** ** Unfolding equations *)

Lemma DefaultRule_Match_eq `{L : Libs} env r m :
  DefaultRule_Match env r m =
  if (length (allItems r) =? 0)%nat then (true, m)
  else applyInvert (rule_invert r)
         (matchInnerWith env (matchWithOuterGroups env) r (ruleSetItem r) m).
Proof. by destruct r. Qed.

Lemma matchWithOuterGroups_eq `{L : Libs} env i m outerGroups :
  matchWithOuterGroups env i m outerGroups =
  outerGroupsLoop env (RuleSet_Match env) i outerGroups (snapshotRuleMatch m) (setList i) m false 0.
Proof. by destruct i. Qed.

Lemma RuleSet_Match_eq `{L : Libs} env s m :
  RuleSet_Match env s m =
  anyHeadlessLoop (HeadlessRule_Match env) (snapshotRuleMatch m) (set_rules s) m false 0.
Proof. by destruct s. Qed.

Lemma LogicalRule_Match_eq `{L : Libs} env r m :
  LogicalRule_Match env r m =
  logicalFinish (snapshotRuleMatch m) (logical_invert r)
    (if String.eqb (logical_mode r) LogicalTypeAnd
     then logicalAndLoop (HeadlessRule_Match env) (logical_rules r) m 0
     else logicalOrLoop (HeadlessRule_Match env) (logical_rules r) m false 0).
Proof. by destruct r. Qed.
