(* ===== verification/RuleSpec.v ===== *)
(** * What a rule means, and the rule cache

    [spec_*] is the reference semantics of the rule tree: a boolean by
    recursion on the rule, without bit masks, without the rule cache and
    without deferral.  [same_but_cache] relates two metadata values that differ
    in the rule cache only; no rule item looks at the cache, and matching a rule
    writes nothing else ([DefaultRule_Match] and its callees restore the flags
    they set).  The file also holds the induction principle of the rule tree. *)

From S2P Require Import Prelude.
From S2P Require Import GoText.
From S2P Require Import NetIP.
From S2P Require Import Libs.
From S2P Require Import Metadata.
From S2P Require Import RuleItems.
From S2P Require Import RuleAction.
From S2P Require Import RuleEngine.
Local Open Scope Z_scope.

(** ** Groups *)

(** The four groups of a default rule, and the bit mask of a set of groups. *)
Inductive group := SrcAddr | SrcPort | DstAddr | DstPort.
Definition groups : list group := [SrcAddr; SrcPort; DstAddr; DstPort].

Definition bit (b : bool) (n : Z) : Z := if b then n else 0.
Definition mask (f : group -> bool) : Z :=
  bit (f SrcAddr) ruleMatchSourceAddress + bit (f SrcPort) ruleMatchSourcePort +
  bit (f DstAddr) ruleMatchDestinationAddress + bit (f DstPort) ruleMatchDestinationPort.

Lemma mask_lor f g : Z.lor (mask f) (mask g) = mask (fun x => f x || g x).
Proof.
  unfold mask. by destruct (f SrcAddr), (f SrcPort), (f DstAddr), (f DstPort),
    (g SrcAddr), (g SrcPort), (g DstAddr), (g DstPort).
Qed.

Lemma done_mask f g :
  ruleGroupMatch_done (mkGroupMatch (mask f) (mask g)) = forallb (fun x => implb (f x) (g x)) groups.
Proof.
  unfold ruleGroupMatch_done, mask. cbn [required satisfied forallb groups].
  by destruct (f SrcAddr), (f SrcPort), (f DstAddr), (f DstPort),
    (g SrcAddr), (g SrcPort), (g DstAddr), (g DstPort).
Qed.

(** The deferred groups are a destination address or nothing. *)
Definition pendingMask (p : bool) : Z := bit p ruleMatchDestinationAddress.

Lemma pending_ldiff p f : Z.ldiff (pendingMask p) (mask f) = pendingMask (p && negb (f DstAddr)).
Proof.
  unfold pendingMask, mask.
  by destruct p, (f SrcAddr), (f SrcPort), (f DstAddr), (f DstPort).
Qed.

Lemma pending_lor p q : Z.lor (pendingMask p) (pendingMask q) = pendingMask (p || q).
Proof. by destruct p, q. Qed.

Lemma pending_eqb p : (pendingMask p =? 0) = negb p.
Proof. by destruct p. Qed.

Lemma pending_0 p : pendingMask p = 0 <-> p = false.
Proof. by destruct p. Qed.

(** ** Metadata up to the rule cache *)

Record same_but_cache (m m' : InboundContext) : Prop := mkSame {
  same_reset : ResetRuleMatchCache m = ResetRuleMatchCache m' }.
Infix "≈c" := same_but_cache (at level 70) : go_scope.

#[export] Instance same_but_cache_equiv : Equivalence same_but_cache.
Proof.
  split; [done|intros m m' [H]; done|]. intros a b c [H1] [H2]. constructor. congruence.
Qed.

(** A function of the metadata that does not look at the cache. *)
Lemma cache_blind {A} (f : InboundContext -> A) m m' :
  (forall c, f (ResetRuleMatchCache c) = f c) -> m ≈c m' -> f m = f m'.
Proof. intros Hf [H]. by rewrite <- (Hf m), <- (Hf m'), H. Qed.

(** An operation on the metadata that keeps the cache apart. *)
Lemma cache_apart (f : InboundContext -> InboundContext) m m' :
  (forall c, ResetRuleMatchCache (f (ResetRuleMatchCache c)) = ResetRuleMatchCache (f c)) ->
  m ≈c m' -> f m ≈c f m'.
Proof. intros Hf [H]. constructor. by rewrite <- (Hf m), <- (Hf m'), H. Qed.

#[export] Instance set_Deferred_proper : Proper (same_but_cache ==> eq ==> same_but_cache) set_Deferred.
Proof. intros m m' H d d' <-. by apply (cache_apart (fun c => set_Deferred c d)). Qed.
#[export] Instance ResetRuleMatchCache_proper :
  Proper (same_but_cache ==> same_but_cache) ResetRuleMatchCache.
Proof. intros m m'. by apply cache_apart. Qed.
#[export] Instance ResetRuleCache_proper : Proper (same_but_cache ==> same_but_cache) ResetRuleCache.
Proof. intros m m'. by apply cache_apart. Qed.

Lemma same_ignore m m' :
  m ≈c m' -> m_IgnoreDestinationIPCIDRMatch m = m_IgnoreDestinationIPCIDRMatch m'.
Proof. by apply cache_blind. Qed.
Lemma same_src m m' : m ≈c m' -> m_IPCIDRMatchSource m = m_IPCIDRMatchSource m'.
Proof. by apply cache_blind. Qed.

Lemma set_Deferred_same m d : set_Deferred m d ≈c m.
Proof. done. Qed.
Lemma ResetRuleMatchCache_same m : ResetRuleMatchCache m ≈c m.
Proof. by constructor. Qed.

(** Same metadata up to the cache and the two rule-set flags. *)
Lemma same_reset_cache m m' : m ≈c m' -> ResetRuleCache m = ResetRuleCache m'.
Proof. by apply cache_blind. Qed.

Lemma restore_same m0 m :
  ResetRuleCache m = ResetRuleCache m0 -> restore (snapshotRuleMatch m0) m ≈c m0.
Proof.
  intros H. constructor.
  change (set_IPCIDRAcceptEmpty (set_IPCIDRMatchSource (ResetRuleCache m) (m_IPCIDRMatchSource m0))
            (m_IPCIDRAcceptEmpty m0) = ResetRuleMatchCache m0).
  by rewrite H.
Qed.

Lemma restore_deferred m0 m :
  m_DeferredIPCIDRMatchGroups (restore (snapshotRuleMatch m0) m) = m_DeferredIPCIDRMatchGroups m0.
Proof. done. Qed.

#[export] Hint Resolve restore_same same_reset_cache set_Deferred_same : singbox.

Section spec.
Context `{L : Libs} (env : RuleEnv).

(** Items read the metadata up to the rule cache. *)
Lemma RuleItem_Match_same m m' i : m ≈c m' -> RuleItem_Match env i m = RuleItem_Match env i m'.
Proof.
  apply cache_blind. intros c. by destruct i.
Qed.

Definition anyOf (l : list RuleItem) (m : InboundContext) : bool :=
  existsb (fun it => RuleItem_Match env it m) l.
Definition allOf (l : list RuleItem) (m : InboundContext) : bool :=
  forallb (fun it => RuleItem_Match env it m) l.

Lemma anyOf_same m m' l : m ≈c m' -> anyOf l m = anyOf l m'.
Proof. intros H. apply existsb_ext. intros i _. by apply RuleItem_Match_same. Qed.
Lemma allOf_same m m' l : m ≈c m' -> allOf l m = allOf l m'.
Proof. intros H. apply forallb_ext_in. intros i _. by apply RuleItem_Match_same. Qed.

(** ** Reference semantics *)

(** The items of a group.  [ip_cidr] items count as source items under
    [rule_set_ip_cidr_match_source], and are left out of the destination group
    when destination addresses are ignored. *)
Definition groupItems (r : abstractDefaultRule) (ignore src : bool) (g : group) : list RuleItem :=
  match g with
  | SrcAddr => sourceAddressItems r ++ (if src then destinationIPCIDRItems r else [])
  | SrcPort => sourcePortItems r
  | DstAddr =>
      destinationAddressItems r ++ (if src || ignore then [] else destinationIPCIDRItems r)
  | DstPort => destinationPortItems r
  end%list.

(** A group without items holds; a group with items holds when one matches. *)
Definition groupHolds (r : abstractDefaultRule) (m : InboundContext) (g : group) : bool :=
  let l := groupItems r false (m_IPCIDRMatchSource m) g in
  implb (nonEmpty l) (anyOf l m).

(** A group of a rule merged with the only rule of a rule-set. *)
Definition mergedHolds (r : abstractDefaultRule) (m : InboundContext) (b : abstractDefaultRule)
    (mb : InboundContext) (g : group) : bool :=
  let l := groupItems r false (m_IPCIDRMatchSource m) g in
  let lb := groupItems b false (m_IPCIDRMatchSource mb) g in
  implb (nonEmpty l || nonEmpty lb) (anyOf l m || anyOf lb mb).

(** The metadata a rule-set is matched with. *)
Definition withFlags (i : RuleSetItem) (m : InboundContext) : InboundContext :=
  set_IPCIDRAcceptEmpty (set_IPCIDRMatchSource m (ipCidrMatchSource i)) (ipCidrAcceptEmpty i).

(** One rule-set of a rule: a rule-set of one plain rule is merged group by
    group with the rule, any other one is a further condition. *)
Definition branchHolds (specSet : RuleSet -> InboundContext -> bool) (r : abstractDefaultRule)
    (m : InboundContext) (i : RuleSetItem) (s : RuleSet) : bool :=
  match mergeableRule s with
  | Some b => allOf (items b) (withFlags i m)
              && forallb (mergedHolds r m b (withFlags i m)) groups
  | None => forallb (groupHolds r m) groups && specSet s (withFlags i m)
  end.

Definition responseOf (tag : string) (m : InboundContext) : option Msg :=
  if negb (String.eqb tag "") then m_NamedDNSResponses m !! tag else m_DNSResponse m.

Fixpoint spec_default (r : abstractDefaultRule) (m : InboundContext) : bool :=
  match r with
  | mkDefaultRule its _ _ _ _ _ all rs invert _ =>
      if (length all =? 0)%nat then true
      else xorb invert
        (allOf its m &&
         match rs with
         | None => forallb (groupHolds r m) groups
         | Some (mkRuleSetItem tags sets a b) =>
             existsb (branchHolds spec_set r m (mkRuleSetItem tags sets a b)) sets
         end)
  end
with spec_set (s : RuleSet) (m : InboundContext) : bool :=
  match s with mkRuleSet _ rules _ => existsb (fun h => spec_rule h m) rules end
with spec_logical (r : abstractLogicalRule) (m : InboundContext) : bool :=
  match r with
  | mkLogicalRule rules mode invert _ =>
      xorb invert
        (if String.eqb mode LogicalTypeAnd then forallb (fun h => spec_rule h (ResetRuleCache m)) rules
         else existsb (fun h => spec_rule h (ResetRuleCache m)) rules)
  end
with spec_rule (h : HeadlessRule) (m : InboundContext) : bool :=
  match h with
  | DefaultRule r | DefaultHeadlessRule r => spec_default r m
  | DefaultDNSRule r matchResponse tag _ =>
      if matchResponse then
        match responseOf tag m with
        | None => rule_invert r
        | Some msg =>
            spec_default r
              (set_DestinationAddressMatchFromResponse (set_DNSResponse m (Some msg)) true)
        end
      else spec_default r m
  | LogicalRule r | LogicalHeadlessRule r | LogicalDNSRule r _ _ _ => spec_logical r m
  end.

(** The reading of the documentation, in which the logical rules of a rule-set
    see the flags of the rule-set item ([rule_set_ip_cidr_match_source] and
    [rule_set_ip_cidr_accept_empty]) too; [spec_logical] clears them as the code
    does. *)
Fixpoint keeping_default (r : abstractDefaultRule) (m : InboundContext) : bool :=
  match r with
  | mkDefaultRule its _ _ _ _ _ all rs invert _ =>
      if (length all =? 0)%nat then true
      else xorb invert
        (allOf its m &&
         match rs with
         | None => forallb (groupHolds r m) groups
         | Some (mkRuleSetItem tags sets a b) =>
             existsb (branchHolds keeping_set r m (mkRuleSetItem tags sets a b)) sets
         end)
  end
with keeping_set (s : RuleSet) (m : InboundContext) : bool :=
  match s with mkRuleSet _ rules _ => existsb (fun h => keeping_rule h m) rules end
with keeping_logical (r : abstractLogicalRule) (m : InboundContext) : bool :=
  match r with
  | mkLogicalRule rules mode invert _ =>
      xorb invert
        (if String.eqb mode LogicalTypeAnd then forallb (fun h => keeping_rule h (ResetRuleMatchCache m)) rules
         else existsb (fun h => keeping_rule h (ResetRuleMatchCache m)) rules)
  end
with keeping_rule (h : HeadlessRule) (m : InboundContext) : bool :=
  match h with
  | DefaultRule r | DefaultHeadlessRule r => keeping_default r m
  | DefaultDNSRule r matchResponse tag _ =>
      if matchResponse then
        match responseOf tag m with
        | None => rule_invert r
        | Some msg =>
            keeping_default r
              (set_DestinationAddressMatchFromResponse (set_DNSResponse m (Some msg)) true)
        end
      else keeping_default r m
  | LogicalRule r | LogicalHeadlessRule r | LogicalDNSRule r _ _ _ => keeping_logical r m
  end.

(** No logical rule stands in a rule-set that is referred to with a flag. *)
Definition isLogicalRule (h : HeadlessRule) : bool :=
  match h with LogicalRule _ | LogicalHeadlessRule _ | LogicalDNSRule _ _ _ _ => true | _ => false end.
Fixpoint flagsSeen_default (r : abstractDefaultRule) : bool :=
  match r with
  | mkDefaultRule _ _ _ _ _ _ _ rs _ _ =>
      match rs with
      | None => true
      | Some (mkRuleSetItem _ sets a b) =>
          forallb (fun s => flagsSeen_set s && implb (a || b) (negb (existsb isLogicalRule (set_rules s)))) sets
      end
  end
with flagsSeen_set (s : RuleSet) : bool :=
  match s with mkRuleSet _ rules _ => forallb flagsSeen_rule rules end
with flagsSeen_logical (r : abstractLogicalRule) : bool :=
  match r with mkLogicalRule rules _ _ _ => forallb flagsSeen_rule rules end
with flagsSeen_rule (h : HeadlessRule) : bool :=
  match h with
  | DefaultRule r | DefaultHeadlessRule r | DefaultDNSRule r _ _ _ => flagsSeen_default r
  | LogicalRule r | LogicalHeadlessRule r | LogicalDNSRule r _ _ _ => flagsSeen_logical r
  end.

Lemma spec_default_eq r m :
  spec_default r m =
  if (length (allItems r) =? 0)%nat then true
  else xorb (rule_invert r)
    (allOf (items r) m &&
     match ruleSetItem r with
     | None => forallb (groupHolds r m) groups
     | Some i => existsb (branchHolds spec_set r m i) (setList i)
     end).
Proof. destruct r as [? ? ? ? ? ? ? [[]|] ? ?]; done. Qed.

Lemma spec_set_eq s m : spec_set s m = existsb (fun h => spec_rule h m) (set_rules s).
Proof. by destruct s. Qed.

Lemma spec_logical_eq r m :
  spec_logical r m =
  xorb (logical_invert r)
    (if String.eqb (logical_mode r) LogicalTypeAnd
     then forallb (fun h => spec_rule h (ResetRuleCache m)) (logical_rules r)
     else existsb (fun h => spec_rule h (ResetRuleCache m)) (logical_rules r)).
Proof. by destruct r. Qed.

Lemma spec_dns_eq r matchResponse tag race m :
  spec_rule (DefaultDNSRule r matchResponse tag race) m =
  if matchResponse then
    match responseOf tag m with
    | None => rule_invert r
    | Some msg =>
        spec_default r (set_DestinationAddressMatchFromResponse (set_DNSResponse m (Some msg)) true)
    end
  else spec_default r m.
Proof. done. Qed.

(** ** Groups of a rule as bit masks *)

Lemma nonEmpty_app {A} (l k : list A) : nonEmpty (l ++ k) = nonEmpty l || nonEmpty k.
Proof. by destruct l, k. Qed.

Lemma nonEmpty_nil {A} (l : list A) : nonEmpty l = false -> l = [].
Proof. by destruct l. Qed.

Lemma anyOf_app l k m : anyOf (l ++ k) m = anyOf l m || anyOf k m.
Proof. apply existsb_app. Qed.

Lemma matchAnyItem_eq l m : matchAnyItem env l m = anyOf l m.
Proof. apply common_Any_spec. Qed.

(** Whether matching the rule leaves the destination address undecided. *)
Definition pending (r : abstractDefaultRule) (m : InboundContext) : bool :=
  m_IgnoreDestinationIPCIDRMatch m && negb (m_IPCIDRMatchSource m)
  && nonEmpty (destinationIPCIDRItems r) && negb (nonEmpty (destinationAddressItems r)).

Lemma evaluateGroups_eq r m :
  let l := groupItems r (m_IgnoreDestinationIPCIDRMatch m) (m_IPCIDRMatchSource m) in
  evaluateGroups env r m =
  (mkGroupMatch (mask (fun g => nonEmpty (l g))) (mask (fun g => anyOf (l g) m)),
   if pending r m
   then set_Deferred m (Z.lor (m_DeferredIPCIDRMatchGroups m) ruleMatchDestinationAddress)
   else m).
Proof.
  cbn zeta. unfold evaluateGroups, destinationIPCIDRMatchesSource,
    destinationIPCIDRMatchesDestination, pending, mask. cbn [groupItems].
  rewrite !nonEmpty_app, !anyOf_app, !matchAnyItem_eq.
  replace (length (destinationAddressItems r) =? 0)%nat
    with (negb (nonEmpty (destinationAddressItems r)))
    by (by destruct (destinationAddressItems r)).
  f_equal.
  assert (Hn : forall l, nonEmpty l = false -> anyOf l m = false)
    by (intros l Hl; by rewrite (nonEmpty_nil l Hl)).
  destruct (nonEmpty (sourceAddressItems r)) eqn:E1; [|rewrite (Hn _ E1)];
  (destruct (nonEmpty (destinationIPCIDRItems r)) eqn:E2; [|rewrite (nonEmpty_nil _ E2)]);
  (destruct (nonEmpty (sourcePortItems r)) eqn:E3; [|rewrite (Hn _ E3)]);
  (destruct (nonEmpty (destinationAddressItems r)) eqn:E4; [|rewrite (Hn _ E4)]);
  (destruct (nonEmpty (destinationPortItems r)) eqn:E5; [|rewrite (Hn _ E5)]);
  destruct (m_IPCIDRMatchSource m), (m_IgnoreDestinationIPCIDRMatch m); cbn [andb orb negb];
  rewrite ?E2; cbn [nonEmpty anyOf existsb length Nat.ltb Nat.leb];
  destruct (anyOf (sourceAddressItems r) m), (anyOf (sourcePortItems r) m),
    (anyOf (destinationAddressItems r) m), (anyOf (destinationPortItems r) m),
    (anyOf (destinationIPCIDRItems r) m); reflexivity.
Qed.
End spec.

