(* ===== verification/RuleSound.v ===== *)
(** * The engine implements the semantics

    One induction relates the stateful engine to the reference semantics, in
    both of its modes.  Without deferral the verdict is the semantics and the
    metadata changes in the rule cache only.  With destination addresses
    ignored (the pre-match of legacy DNS rules) the verdict is three-valued:
    "no", "yes" (no deferred group left) and "undecided" (a deferred group
    left); "no" and "yes" agree with the match that follows when the response
    is known, for rules that keep host names and [ip_cidr] apart
    ([safe_rule]). *)

From S2P Require Import Prelude.
From S2P Require Import GoText.
From S2P Require Import NetIP.
From S2P Require Import Libs.
From S2P Require Import Metadata.
From S2P Require Import RuleItems.
From S2P Require Import RuleAction.
From S2P Require Import RuleEngine.
From S2P Require Import RuleSpec.
Local Open Scope Z_scope.

(** ** Induction on the rule tree *)

Section rule_induction.
Context `{L : Libs}.
Context (PD : abstractDefaultRule -> Prop) (PI : RuleSetItem -> Prop) (PS : RuleSet -> Prop)
  (PL : abstractLogicalRule -> Prop) (PH : HeadlessRule -> Prop).
Context
  (HD : forall its sa sp da dc dp all rs inv act,
     (forall i, rs = Some i -> PI i) -> PD (mkDefaultRule its sa sp da dc dp all rs inv act))
  (HI : forall tags sets a b, Forall PS sets -> PI (mkRuleSetItem tags sets a b))
  (HS : forall tag rules md, Forall PH rules -> PS (mkRuleSet tag rules md))
  (HL : forall rules mode inv act, Forall PH rules -> PL (mkLogicalRule rules mode inv act))
  (HDR : forall r, PD r -> PH (DefaultRule r))
  (HDH : forall r, PD r -> PH (DefaultHeadlessRule r))
  (HDD : forall r a b c, PD r -> PH (DefaultDNSRule r a b c))
  (HLR : forall r, PL r -> PH (LogicalRule r))
  (HLH : forall r, PL r -> PH (LogicalHeadlessRule r))
  (HLD : forall r a b c, PL r -> PH (LogicalDNSRule r a b c)).

Definition Forall_of {A} (P : A -> Prop) (f : forall x, P x) : forall l, Forall P l :=
  fix go l := match l with [] => Forall_nil_2 P | x :: l => Forall_cons_2 P x l (f x) (go l) end.

Fixpoint default_rule_ind (r : abstractDefaultRule) : PD r :=
  match r with
  | mkDefaultRule its sa sp da dc dp all rs inv act =>
      HD its sa sp da dc dp all rs inv act
        (match rs return forall i, rs = Some i -> PI i with
         | None => fun i H => False_ind _ (None_ne_Some i H)
         | Some i' => fun i H => eq_ind i' PI (rule_set_item_ind i') i (Some_inj i' i H)
         end)
  end
with rule_set_item_ind (i : RuleSetItem) : PI i :=
  match i with mkRuleSetItem tags sets a b => HI tags sets a b (Forall_of PS rule_set_ind sets) end
with rule_set_ind (s : RuleSet) : PS s :=
  match s with mkRuleSet tag rules md => HS tag rules md (Forall_of PH headless_rule_ind rules) end
with logical_rule_ind (r : abstractLogicalRule) : PL r :=
  match r with
  | mkLogicalRule rules mode inv act => HL rules mode inv act (Forall_of PH headless_rule_ind rules)
  end
with headless_rule_ind (h : HeadlessRule) : PH h :=
  match h with
  | DefaultRule r => HDR r (default_rule_ind r)
  | DefaultHeadlessRule r => HDH r (default_rule_ind r)
  | DefaultDNSRule r a b c => HDD r a b c (default_rule_ind r)
  | LogicalRule r => HLR r (logical_rule_ind r)
  | LogicalHeadlessRule r => HLH r (logical_rule_ind r)
  | LogicalDNSRule r a b c => HLD r a b c (logical_rule_ind r)
  end.
End rule_induction.

(** ** Deferral *)

Section deferral.
Context `{L : Libs}.

(** The item gives the same verdict before and after the response is known. *)
Definition responseFree (src : bool) (i : RuleItem) : bool :=
  match i with
  | ItemIPCIDR r => cidr_isSource r || src
  | ItemIPIsPrivate r => priv_isSource r
  | ItemIPAcceptAny | ItemDNSResponseRCode _ | ItemDNSResponseRecord _ => false
  | _ => true
  end.

(** The rule has an [ip_cidr] item on the destination: its pre-match may be
    undecided. *)
Fixpoint canDefer_default (src : bool) (r : abstractDefaultRule) : bool :=
  match r with
  | mkDefaultRule _ _ _ _ dc _ _ rs _ _ =>
      (negb src && nonEmpty dc)
      || match rs with
         | None => false
         | Some (mkRuleSetItem _ sets a _) => existsb (canDefer_set a) sets
         end
  end
with canDefer_set (src : bool) (s : RuleSet) : bool :=
  match s with mkRuleSet _ rules _ => existsb (canDefer_rule src) rules end
with canDefer_logical (r : abstractLogicalRule) : bool :=
  match r with mkLogicalRule rules _ _ _ => existsb (canDefer_rule false) rules end
with canDefer_rule (src : bool) (h : HeadlessRule) : bool :=
  match h with
  | DefaultRule r | DefaultHeadlessRule r | DefaultDNSRule r _ _ _ => canDefer_default src r
  | LogicalRule r | LogicalHeadlessRule r | LogicalDNSRule r _ _ _ => canDefer_logical r
  end.

(** Host name items and destination [ip_cidr] items are not mixed in a rule,
    nor in a rule merged with the rule of a rule-set; a rule with host name
    items takes no rule-set of several rules that can defer. *)
Definition separated (r : abstractDefaultRule) (src : bool) (s : RuleSet) (a : bool) : bool :=
  match mergeableRule s with
  | Some b =>
      negb (nonEmpty (destinationAddressItems r) && (negb a && nonEmpty (destinationIPCIDRItems b)))
      && negb (negb src && nonEmpty (destinationIPCIDRItems r) && nonEmpty (destinationAddressItems b))
  | None => negb (nonEmpty (destinationAddressItems r) && canDefer_set a s)
  end.

Definition safe_items (src : bool) (r : abstractDefaultRule) : bool :=
  forallb (responseFree src)
    (items r ++ sourceAddressItems r ++ sourcePortItems r ++ destinationAddressItems r
       ++ destinationPortItems r)%list
  && (if src then forallb (responseFree true) (destinationIPCIDRItems r)
      else negb (nonEmpty (destinationAddressItems r) && nonEmpty (destinationIPCIDRItems r))).

Fixpoint safe_default (src : bool) (r : abstractDefaultRule) : bool :=
  match r with
  | mkDefaultRule _ _ _ _ _ _ _ rs _ _ =>
      safe_items src r
      && match rs with
         | None => true
         | Some (mkRuleSetItem _ sets a _) =>
             forallb (fun s => safe_set a s && separated r src s a) sets
         end
  end
with safe_set (src : bool) (s : RuleSet) : bool :=
  match s with mkRuleSet _ rules _ => forallb (safe_rule src) rules end
with safe_logical (r : abstractLogicalRule) : bool :=
  match r with mkLogicalRule rules _ _ _ => forallb (safe_rule false) rules end
with safe_rule (src : bool) (h : HeadlessRule) : bool :=
  match h with
  | DefaultRule r | DefaultHeadlessRule r => safe_default src r
  | DefaultDNSRule r matchResponse _ _ => negb matchResponse && safe_default src r
  | LogicalRule r | LogicalHeadlessRule r | LogicalDNSRule r _ _ _ => safe_logical r
  end.
End deferral.

(** The metadata of the match that follows the response [resp]. *)
Definition withResponse (m : InboundContext) (resp : option Msg) : InboundContext :=
  set_IgnoreDestinationIPCIDRMatch
    (set_DestinationAddressMatchFromResponse (set_DNSResponse m resp) true) false.

(** [mp] is the metadata the verdict on [m] is about: [m] itself, or, when the
    destination addresses are ignored, [m] with some response. *)
Definition related (m mp : InboundContext) : Prop :=
  if m_IgnoreDestinationIPCIDRMatch m then exists resp, mp ≈c withResponse m resp else mp ≈c m.

Lemma related_src m mp : related m mp -> m_IPCIDRMatchSource mp = m_IPCIDRMatchSource m.
Proof.
  unfold related. destruct (m_IgnoreDestinationIPCIDRMatch m).
  - intros [resp H]. by rewrite (same_src _ _ H).
  - apply same_src.
Qed.

(** Operations that set the flags and reset the cache keep the relation. *)
Lemma related_map (F : InboundContext -> InboundContext) m m1 mp :
  (forall c c', c ≈c c' -> F c ≈c F c') ->
  (forall c, m_IgnoreDestinationIPCIDRMatch (F c) = m_IgnoreDestinationIPCIDRMatch c) ->
  (forall c resp, F (withResponse c resp) ≈c withResponse (F c) resp) ->
  (forall c c' resp, c ≈c c' -> withResponse c resp ≈c withResponse c' resp) ->
  m1 ≈c F m -> related m mp -> related m1 (F mp).
Proof.
  intros HF Hign Hcomm Hw Hm1 Hrel. unfold related in *.
  rewrite (same_ignore _ _ Hm1), Hign. destruct (m_IgnoreDestinationIPCIDRMatch m).
  - destruct Hrel as [resp Hrel]. exists resp. rewrite (HF _ _ Hrel), Hcomm.
    apply Hw. by symmetry.
  - rewrite (HF _ _ Hrel). by symmetry.
Qed.

Lemma withResponse_same c c' resp : c ≈c c' -> withResponse c resp ≈c withResponse c' resp.
Proof.
  by apply (cache_apart (fun c => withResponse c resp)).
Qed.

Lemma withFlags_same `{L : Libs} i c c' : c ≈c c' -> withFlags i c ≈c withFlags i c'.
Proof.
  by apply cache_apart.
Qed.

Lemma prepare_same `{L : Libs} i m m1 :
  ResetRuleCache m1 = ResetRuleCache m -> prepareNestedMatch i m1 ≈c withFlags i m.
Proof.
  intros H. constructor.
  change (withFlags i (ResetRuleCache m1) = withFlags i (ResetRuleCache m)). by rewrite H.
Qed.

Lemma related_prepare `{L : Libs} i m m1 mp :
  ResetRuleCache m1 = ResetRuleCache m -> related m mp ->
  related (prepareNestedMatch i m1) (withFlags i mp).
Proof.
  intros H. apply (related_map (withFlags i)); try done.
  - apply withFlags_same.
  - apply withResponse_same.
  - by apply prepare_same.
Qed.

Lemma related_reset m m1 mp :
  ResetRuleCache m1 = ResetRuleCache m -> related m mp ->
  related (ResetRuleCache m1) (ResetRuleCache mp).
Proof.
  intros H. apply (related_map ResetRuleCache); try done;
    [apply ResetRuleCache_proper|apply withResponse_same].
Qed.

Lemma related_same m m1 mp : m1 ≈c m -> related m mp -> related m1 mp.
Proof. intros H. apply (related_map id); try done. apply withResponse_same. Qed.

(** ** Items and groups before and after the response *)

Section soundness.
Context `{L : Libs} (env : RuleEnv).

Lemma responseFree_match i m resp :
  responseFree (m_IPCIDRMatchSource m) i = true ->
  RuleItem_Match env i (withResponse m resp) = RuleItem_Match env i m.
Proof.
  destruct i; try done; cbn [responseFree]; intros H;
    unfold RuleItem_Match, IPCIDRItem_Match, IPIsPrivateItem_Match.
  - change (m_IPCIDRMatchSource (withResponse m resp)) with (m_IPCIDRMatchSource m). by rewrite H.
  - by rewrite H.
Qed.

Lemma related_item i m mp :
  related m mp ->
  (m_IgnoreDestinationIPCIDRMatch m = true -> responseFree (m_IPCIDRMatchSource m) i = true) ->
  RuleItem_Match env i mp = RuleItem_Match env i m.
Proof.
  unfold related. destruct (m_IgnoreDestinationIPCIDRMatch m) eqn:E; intros Hrel Hfree.
  - destruct Hrel as [resp Hrel]. rewrite (RuleItem_Match_same _ _ _ _ Hrel).
    by apply responseFree_match, Hfree.
  - by apply RuleItem_Match_same.
Qed.

Lemma related_anyOf l m mp :
  related m mp ->
  (m_IgnoreDestinationIPCIDRMatch m = true ->
   forallb (responseFree (m_IPCIDRMatchSource m)) l = true) ->
  anyOf env l mp = anyOf env l m.
Proof.
  intros Hrel Hfree. apply existsb_ext. intros i Hi. apply related_item; [done|].
  intros Hig. apply (proj1 (forallb_forall _ _) (Hfree Hig)). by apply list_elem_of_In.
Qed.

Lemma related_allOf l m mp :
  related m mp ->
  (m_IgnoreDestinationIPCIDRMatch m = true ->
   forallb (responseFree (m_IPCIDRMatchSource m)) l = true) ->
  allOf env l mp = allOf env l m.
Proof.
  intros Hrel Hfree. apply forallb_ext_in. intros i Hi. apply related_item; [done|].
  intros Hig. apply (proj1 (forallb_forall _ _) (Hfree Hig)). by apply list_elem_of_In.
Qed.

(** The items of the groups, as the engine evaluates them on [m]. *)
Definition pre (r : abstractDefaultRule) (m : InboundContext) : group -> list RuleItem :=
  groupItems r (m_IgnoreDestinationIPCIDRMatch m) (m_IPCIDRMatchSource m).
(** The same, as the semantics sees them. *)
Definition post (r : abstractDefaultRule) (m : InboundContext) : group -> list RuleItem :=
  groupItems r false (m_IPCIDRMatchSource m).

Definition safeWhenIgnoring (m : InboundContext) (b : bool) : Prop :=
  m_IgnoreDestinationIPCIDRMatch m = true -> b = true.

Lemma pending_pre r m :
  pending r m = true ->
  pre r m DstAddr = [] /\ nonEmpty (post r m DstAddr) = true.
Proof.
  unfold pending, pre, post. cbn [groupItems]. rewrite nonEmpty_app.
  destruct (m_IgnoreDestinationIPCIDRMatch m), (m_IPCIDRMatchSource m); cbn; try done.
  destruct (nonEmpty (destinationIPCIDRItems r)); [|done]. cbn.
  destruct (nonEmpty (destinationAddressItems r)) eqn:E; [done|].
  by rewrite (nonEmpty_nil _ E).
Qed.

Lemma pre_post r m g :
  safeWhenIgnoring m (safe_items (m_IPCIDRMatchSource m) r) ->
  g <> DstAddr \/ pending r m = false -> pre r m g = post r m g.
Proof.
  unfold safeWhenIgnoring, safe_items, pending, pre, post.
  destruct (m_IgnoreDestinationIPCIDRMatch m); [|done].
  intros Hs Hg. specialize (Hs eq_refl). apply andb_prop in Hs as [_ Hs].
  destruct g; try done. destruct Hg as [Hg|Hg]; [done|]. cbn [groupItems].
  destruct (m_IPCIDRMatchSource m); [done|]. cbn in *.
  destruct (nonEmpty (destinationIPCIDRItems r)) eqn:E; cbn in *.
  - by destruct (nonEmpty (destinationAddressItems r)).
  - by rewrite (nonEmpty_nil _ E).
Qed.

Lemma safe_items_free r m g :
  safeWhenIgnoring m (safe_items (m_IPCIDRMatchSource m) r) ->
  m_IgnoreDestinationIPCIDRMatch m = true ->
  forallb (responseFree (m_IPCIDRMatchSource m)) (pre r m g) = true.
Proof.
  intros Hs Hig. specialize (Hs Hig). unfold safe_items in Hs. unfold pre. rewrite Hig.
  rewrite !forallb_app in Hs. repeat (apply andb_prop in Hs as [Hs ?]).
  repeat match goal with H : _ && _ = true |- _ => apply andb_prop in H as [? ?] end.
  destruct g; cbn [groupItems]; rewrite ?forallb_app, ?orb_true_r;
    destruct (m_IPCIDRMatchSource m); cbn; rewrite ?andb_true_r; try done.
  apply andb_true_intro. done.
Qed.

Lemma any_pre_post r m mp g :
  related m mp -> safeWhenIgnoring m (safe_items (m_IPCIDRMatchSource m) r) ->
  g <> DstAddr \/ pending r m = false ->
  anyOf env (post r m g) mp = anyOf env (pre r m g) m.
Proof.
  intros Hrel Hs Hg. rewrite <- (pre_post r m g Hs Hg).
  apply related_anyOf; [done|]. intros Hig. by apply safe_items_free.
Qed.

Lemma items_related r m mp :
  related m mp -> safeWhenIgnoring m (safe_items (m_IPCIDRMatchSource m) r) ->
  allOf env (items r) mp = allOf env (items r) m.
Proof.
  intros Hrel Hs. apply related_allOf; [done|]. intros Hig. specialize (Hs Hig).
  unfold safe_items in Hs. apply andb_prop in Hs as [Hs _].
  rewrite forallb_app in Hs. by apply andb_prop in Hs as [Hs _].
Qed.

Lemma groupHolds_post r m mp g :
  related m mp ->
  groupHolds env r mp g = implb (nonEmpty (post r m g)) (anyOf env (post r m g) mp).
Proof. intros Hrel. unfold groupHolds, post. by rewrite (related_src _ _ Hrel). Qed.

(** The verdict on the groups of a rule: a failing group fails afterwards too,
    and the verdicts agree when nothing is pending. *)
Definition preDone (r : abstractDefaultRule) (m : InboundContext) : bool :=
  forallb (fun g => implb (nonEmpty (pre r m g)) (anyOf env (pre r m g) m)) groups.

Lemma preDone_post r m mp :
  related m mp -> safeWhenIgnoring m (safe_items (m_IPCIDRMatchSource m) r) ->
  (preDone r m = false -> forallb (groupHolds env r mp) groups = false) /\
  (pending r m = false -> forallb (groupHolds env r mp) groups = preDone r m).
Proof.
  intros Hrel Hs.
  assert (Hg : forall g, g <> DstAddr \/ pending r m = false ->
    groupHolds env r mp g = implb (nonEmpty (pre r m g)) (anyOf env (pre r m g) m)).
  { intros g Hg. rewrite (groupHolds_post _ m) by done.
    rewrite (any_pre_post r m mp) by done. by rewrite (pre_post r m) by done. }
  assert (Heq : pending r m = false -> forallb (groupHolds env r mp) groups = preDone r m).
  { intros Hp. apply forallb_ext_in. intros g _. apply Hg. by right. }
  split; [|done]. intros Hd. destruct (pending r m) eqn:Hp; [|by rewrite Heq].
  unfold preDone in Hd. cbn [forallb groups] in *.
  rewrite (proj1 (pending_pre _ _ Hp)) in Hd. cbn [anyOf existsb] in Hd.
  rewrite (Hg SrcAddr), (Hg SrcPort), (Hg DstPort) by (left; discriminate). change (nonEmpty []) with false in Hd. cbn [implb] in Hd.
  rewrite !andb_false_iff in Hd |- *. intuition congruence.
Qed.

Definition mergedDone (r : abstractDefaultRule) (m : InboundContext) (b : abstractDefaultRule)
    (mb : InboundContext) : bool :=
  forallb (fun g => implb (nonEmpty (pre r m g) || nonEmpty (pre b mb g))
                      (anyOf env (pre r m g) m || anyOf env (pre b mb g) mb)) groups.

(** The two rules leave nothing about the destination address that one of them
    decides and the other one leaves pending. *)
Definition noMix (r : abstractDefaultRule) (m : InboundContext) (b : abstractDefaultRule)
    (mb : InboundContext) : Prop :=
  pending r m || pending b mb = true -> pre r m DstAddr = [] /\ pre b mb DstAddr = [].

Lemma mergedDone_post r m mp b mb mbp :
  related m mp -> safeWhenIgnoring m (safe_items (m_IPCIDRMatchSource m) r) ->
  related mb mbp -> safeWhenIgnoring mb (safe_items (m_IPCIDRMatchSource mb) b) ->
  noMix r m b mb ->
  (mergedDone r m b mb = false -> forallb (mergedHolds env r mp b mbp) groups = false) /\
  (pending r m || pending b mb = false ->
   forallb (mergedHolds env r mp b mbp) groups = mergedDone r m b mb).
Proof.
  intros Hrel Hs Hrelb Hsb Hmix.
  assert (Hg : forall g, g <> DstAddr \/ pending r m || pending b mb = false ->
    mergedHolds env r mp b mbp g =
    implb (nonEmpty (pre r m g) || nonEmpty (pre b mb g))
      (anyOf env (pre r m g) m || anyOf env (pre b mb g) mb)).
  { intros g Hg. unfold mergedHolds.
    rewrite (related_src _ _ Hrel), (related_src _ _ Hrelb). fold (post r m g) (post b mb g).
    assert (g <> DstAddr \/ pending r m = false) by (rewrite orb_false_iff in Hg; naive_solver).
    assert (g <> DstAddr \/ pending b mb = false) by (rewrite orb_false_iff in Hg; naive_solver).
    rewrite (any_pre_post r m mp), (any_pre_post b mb mbp) by done.
    by rewrite (pre_post r m), (pre_post b mb) by done. }
  assert (Heq : pending r m || pending b mb = false ->
                forallb (mergedHolds env r mp b mbp) groups = mergedDone r m b mb).
  { intros Hp. apply forallb_ext_in. intros g _. apply Hg. by right. }
  split; [|done]. intros Hd.
  destruct (pending r m || pending b mb) eqn:Hp; [|by rewrite Heq].
  unfold mergedDone in Hd. cbn [forallb groups] in *.
  destruct (Hmix Hp) as [H1 H2]. rewrite H1, H2 in Hd. cbn [anyOf existsb] in Hd.
  rewrite (Hg SrcAddr), (Hg SrcPort), (Hg DstPort) by (left; discriminate).
  change (nonEmpty []) with false in Hd. cbn [implb orb] in Hd.
  rewrite !andb_false_iff in Hd |- *. intuition congruence.
Qed.

(** The state [evaluateGroups] leaves. *)
Definition afterGroups (r : abstractDefaultRule) (m : InboundContext) : InboundContext :=
  if pending r m
  then set_Deferred m (Z.lor (m_DeferredIPCIDRMatchGroups m) ruleMatchDestinationAddress) else m.

Definition preGroups (r : abstractDefaultRule) (m : InboundContext) : ruleGroupMatch :=
  mkGroupMatch (mask (fun g => nonEmpty (pre r m g))) (mask (fun g => anyOf env (pre r m g) m)).

Lemma evaluateGroups_pre r m : evaluateGroups env r m = (preGroups r m, afterGroups r m).
Proof. apply evaluateGroups_eq. Qed.

Lemma preGroups_done r m : ruleGroupMatch_done (preGroups r m) = preDone r m.
Proof. apply done_mask. Qed.

Lemma afterGroups_same r m : afterGroups r m ≈c m.
Proof. unfold afterGroups. by destruct (pending r m). Qed.

Lemma afterGroups_deferred r m :
  m_DeferredIPCIDRMatchGroups m = 0 ->
  m_DeferredIPCIDRMatchGroups (afterGroups r m) = pendingMask (pending r m).
Proof. intros H. unfold afterGroups. destruct (pending r m); cbn; by rewrite H. Qed.

Lemma evaluateForMerge_pre b m :
  evaluateForMerge env b m =
  (if allOf env (items b) m then preGroups b m else mkGroupMatch 0 0,
   allOf env (items b) m, afterGroups b m).
Proof.
  unfold evaluateForMerge. rewrite evaluateGroups_pre.
  fold (allOf env (items b) (afterGroups b m)).
  rewrite (allOf_same env _ _ _ (afterGroups_same b m)). by destruct (allOf env (items b) m).
Qed.

Lemma merged_done r m b mb :
  ruleGroupMatch_done (mergeWith (preGroups r m) (preGroups b mb)) = mergedDone r m b mb.
Proof. unfold mergeWith, preGroups. cbn [required satisfied]. by rewrite !mask_lor, done_mask. Qed.

Lemma merged_ldiff p r m b mb :
  Z.ldiff (pendingMask p) (satisfied (mergeWith (preGroups r m) (preGroups b mb)))
  = pendingMask (p && negb (anyOf env (pre r m DstAddr) m || anyOf env (pre b mb DstAddr) mb)).
Proof. unfold mergeWith, preGroups. cbn [required satisfied]. by rewrite mask_lor, pending_ldiff. Qed.

Lemma pre_ignoring r m :
  m_IgnoreDestinationIPCIDRMatch m = true -> pre r m DstAddr = destinationAddressItems r.
Proof. intros H. unfold pre. cbn [groupItems]. by rewrite H, orb_true_r, app_nil_r. Qed.

Lemma separated_noMix r m b mb s :
  mergeableRule s = Some b ->
  m_IgnoreDestinationIPCIDRMatch mb = m_IgnoreDestinationIPCIDRMatch m ->
  safeWhenIgnoring m (separated r (m_IPCIDRMatchSource m) s (m_IPCIDRMatchSource mb)) ->
  noMix r m b mb.
Proof.
  intros Hb Hig Hs Hp. assert (Hi : m_IgnoreDestinationIPCIDRMatch m = true).
  { unfold pending in Hp. rewrite Hig in Hp. by destruct (m_IgnoreDestinationIPCIDRMatch m). }
  specialize (Hs Hi). unfold separated in Hs. rewrite Hb in Hs.
  rewrite !pre_ignoring by congruence. unfold pending in Hp. rewrite Hig, Hi in Hp.
  split; apply nonEmpty_nil;
    destruct (nonEmpty (destinationAddressItems r)), (nonEmpty (destinationAddressItems b)),
      (nonEmpty (destinationIPCIDRItems r)), (nonEmpty (destinationIPCIDRItems b)),
      (m_IPCIDRMatchSource m), (m_IPCIDRMatchSource mb); cbn in *; congruence.
Qed.

(** ** The three-valued verdict *)

(** [res] is the verdict and the metadata the engine leaves, [holds] what the
    semantics says afterwards; [can] tells whether the rule can defer. *)
Definition sound (m : InboundContext) (can : bool) (res : bool * InboundContext) (holds : bool) : Prop :=
  snd res ≈c m /\
  exists q, m_DeferredIPCIDRMatchGroups (snd res) = pendingMask q /\
    (m_IgnoreDestinationIPCIDRMatch m && can = false -> q = false) /\
    (if fst res then q = false -> holds = true else holds = false).

Definition sound_set (s : RuleSet) : Prop :=
  forall m mp, m_DeferredIPCIDRMatchGroups m = 0 -> related m mp ->
    safeWhenIgnoring m (safe_set (m_IPCIDRMatchSource m) s) ->
    sound m (canDefer_set (m_IPCIDRMatchSource m) s) (RuleSet_Match env s m) (spec_set env s mp).

Definition sound_rule (h : HeadlessRule) : Prop :=
  forall m mp, m_DeferredIPCIDRMatchGroups m = 0 -> related m mp ->
    safeWhenIgnoring m (safe_rule (m_IPCIDRMatchSource m) h) ->
    sound m (canDefer_rule (m_IPCIDRMatchSource m) h) (HeadlessRule_Match env h m)
      (spec_rule env h mp).

(** One iteration of a collecting loop, from the state the snapshot was taken in. *)
Lemma finish_sound m0 p m matched :
  m_DeferredIPCIDRMatchGroups m0 = pendingMask p ->
  ResetRuleCache m = ResetRuleCache m0 ->
  snd (finishDeferred (snapshotRuleMatch m0) m matched (pendingMask matched)) ≈c m0 /\
  m_DeferredIPCIDRMatchGroups
    (snd (finishDeferred (snapshotRuleMatch m0) m matched (pendingMask matched)))
  = pendingMask (p || matched).
Proof.
  intros Hp Hm. unfold finishDeferred. destruct matched; cbn [snd].
  - split; [rewrite set_Deferred_same; by apply restore_same|].
    change (Z.lor (m_DeferredIPCIDRMatchGroups m0) (pendingMask true) = pendingMask (p || true)).
    rewrite Hp. apply pending_lor.
  - split; [by apply restore_same|]. rewrite restore_deferred, Hp. by rewrite orb_false_r.
Qed.

Lemma mergeable_inv s b :
  mergeableRule s = Some b -> exists tag md, s = mkRuleSet tag [DefaultHeadlessRule b] md.
Proof.
  destruct s as [tag rules md]. unfold mergeableRule, mergeableRuleIn. cbn [set_rules].
  destruct rules as [|[]  [|]]; try done.
  destruct (rule_invert r || _); [done|]. intros [= ->]. eauto.
Qed.

Lemma safe_default_items src r : safe_default src r = true -> safe_items src r = true.
Proof. destruct r. cbn [safe_default]. intros H. by apply andb_prop in H as [H _]. Qed.

Lemma canDefer_pending r m :
  pending r m = true -> canDefer_default (m_IPCIDRMatchSource m) r = true.
Proof.
  destruct r as [its sa sp da dc dp all rs inv act].
  unfold pending. cbn [destinationIPCIDRItems canDefer_default].
  destruct (m_IgnoreDestinationIPCIDRMatch m), (m_IPCIDRMatchSource m); cbn; try done.
  by destruct (nonEmpty dc).
Qed.

(** The loop over the rule-sets of a rule.  The context fixes the rule, the
    state [m0] the loop starts in and the state [mp] the verdict is about. *)
Section outer.
Context (r : abstractDefaultRule) (i : RuleSetItem) (m0 mp : InboundContext)
  (Hdef : m_DeferredIPCIDRMatchGroups m0 = pendingMask (pending r m0))
  (Hrel : related m0 mp)
  (Hsafe : safeWhenIgnoring m0 (safe_items (m_IPCIDRMatchSource m0) r)).

Notation loop := (outerGroupsLoop env (RuleSet_Match env) i (preGroups r m0) (snapshotRuleMatch m0)).
Notation holds := (branchHolds env (spec_set env) r mp i).

(** What one rule-set contributes: its verdict [b], whether it is undecided
    ([q]) and the state [m1] the next one starts in. *)
Definition branch_ok (s : RuleSet) (b q : bool) (m1 fin : InboundContext) : Prop :=
  ResetRuleCache m1 = ResetRuleCache m0 /\
  fin ≈c m0 /\ m_DeferredIPCIDRMatchGroups fin = pendingMask (pending r m0) /\
  (if b then q = false -> pending r m0 = false -> holds s = true else holds s = false) /\
  (m_IgnoreDestinationIPCIDRMatch m0
     && (negb (nonEmpty (destinationAddressItems r)) && canDefer_set (ipCidrMatchSource i) s) = false ->
   q = false).

Definition branch_next (sets : list RuleSet) (matched b q : bool) (m1 fin : InboundContext) :
    bool * InboundContext :=
  if b then if q then loop sets m1 true (pendingMask true) else (true, fin)
  else loop sets m1 matched (pendingMask matched).

Definition branch_safe (s : RuleSet) : bool :=
  safe_set (ipCidrMatchSource i) s
  && separated r (m_IPCIDRMatchSource m0) s (ipCidrMatchSource i).

Lemma merged_step s bq sets m matched :
  mergeableRule s = Some bq -> safeWhenIgnoring m0 (branch_safe s) ->
  ResetRuleCache m = ResetRuleCache m0 ->
  exists b q m1 fin, branch_ok s b q m1 fin /\
    loop (s :: sets) m matched (pendingMask matched) = branch_next sets matched b q m1 fin.
Proof.
  intros Hb Hs Hm. set (mn := prepareNestedMatch i m).
  assert (Hmn : mn ≈c withFlags i m0) by by apply prepare_same.
  assert (Hign : m_IgnoreDestinationIPCIDRMatch mn = m_IgnoreDestinationIPCIDRMatch m0)
    by apply (same_ignore _ _ Hmn).
  assert (Hreln : related mn (withFlags i mp)) by by apply related_prepare with m0.
  destruct (mergeable_inv _ _ Hb) as (tag & md & ->).
  assert (Hsb : safeWhenIgnoring mn (safe_items (m_IPCIDRMatchSource mn) bq)).
  { intros H. rewrite Hign in H. apply Hs, andb_prop in H as [H _]. cbn in H.
    rewrite andb_true_r in H. by apply safe_default_items. }
  assert (Hmix : noMix r m0 bq mn).
  { apply (separated_noMix _ _ _ _ _ Hb Hign). intros H. by apply Hs, andb_prop in H as [_ H]. }
  exists (allOf env (items bq) mn && mergedDone r m0 bq mn), (pending bq mn), (afterGroups bq mn),
    (set_Deferred (restore (snapshotRuleMatch m0) (afterGroups bq mn))
       (pendingMask (pending r m0))).
  assert (Hreset : ResetRuleCache (afterGroups bq mn) = ResetRuleCache m0).
  { rewrite (same_reset_cache _ _ (afterGroups_same bq mn)), (same_reset_cache _ _ Hmn). done. }
  assert (Hq : pending r m0 || pending bq mn = true ->
               anyOf env (pre r m0 DstAddr) m0 || anyOf env (pre bq mn DstAddr) mn = false).
  { intros H. by destruct (Hmix H) as [-> ->]. }
  split.
  - split_and!; [done|rewrite set_Deferred_same; by apply restore_same|done| |].
    + unfold branchHolds. rewrite Hb, (items_related bq mn (withFlags i mp) Hreln Hsb).
      destruct (mergedDone_post r m0 mp bq mn _ Hrel Hsafe Hreln Hsb Hmix) as [H1 H2].
      destruct (allOf env (items bq) mn); cbn [andb]; [|done].
      destruct (mergedDone r m0 bq mn) eqn:E; [|by apply H1].
      intros Hq1 Hq2. rewrite H2; [done|]. by rewrite Hq1, Hq2.
    + intros Hc. destruct (pending bq mn) eqn:E; [|done]. exfalso.
      pose proof (canDefer_pending _ _ E) as Hd. change (m_IPCIDRMatchSource mn) with (ipCidrMatchSource i) in Hd.
      cbn [canDefer_set existsb canDefer_rule] in Hc. rewrite Hd in Hc.
      assert (Hi : m_IgnoreDestinationIPCIDRMatch m0 = true).
      { rewrite <- Hign. unfold pending in E. by destruct (m_IgnoreDestinationIPCIDRMatch mn). }
      destruct (Hmix ltac:(by rewrite E, orb_true_r)) as [Hda _]. rewrite pre_ignoring in Hda by done.
      by rewrite Hi, Hda in Hc.
  - cbn [outerGroupsLoop]. rewrite Hb. fold mn. rewrite evaluateForMerge_pre.
    destruct (allOf env (items bq) mn); cbn [andb]; [|done].
    rewrite merged_done. destruct (mergedDone r m0 bq mn); [|done].
    rewrite (afterGroups_deferred bq mn) by done. rewrite merged_ldiff, pending_eqb.
    unfold branch_next. destruct (pending bq mn) eqn:E; cbn [andb].
    + rewrite Hq by by rewrite orb_true_r. cbn [negb].
      by rewrite pending_lor, orb_true_r.
    + rewrite restore_deferred, Hdef, merged_ldiff. cbn [negb].
      destruct (pending r m0) eqn:E0; cbn [andb]; [|done]. by rewrite Hq.
Qed.

Lemma nested_step s sets m matched :
  mergeableRule s = None -> sound_set s -> safeWhenIgnoring m0 (branch_safe s) ->
  ResetRuleCache m = ResetRuleCache m0 ->
  exists b q m1 fin, branch_ok s b q m1 fin /\
    loop (s :: sets) m matched (pendingMask matched) = branch_next sets matched b q m1 fin.
Proof.
  intros Hb Hset Hs Hm. set (mn := prepareNestedMatch i m).
  assert (Hmn : mn ≈c withFlags i m0) by by apply prepare_same.
  assert (Hign : m_IgnoreDestinationIPCIDRMatch mn = m_IgnoreDestinationIPCIDRMatch m0)
    by apply (same_ignore _ _ Hmn).
  assert (Hss : safeWhenIgnoring mn (safe_set (m_IPCIDRMatchSource mn) s)).
  { intros H. rewrite Hign in H. by apply Hs, andb_prop in H as [H _]. }
  destruct (preDone_post r m0 mp Hrel Hsafe) as [Hd1 Hd2].
  destruct (preDone r m0) eqn:Ed.
  - destruct (Hset mn (withFlags i mp) eq_refl) as (Hsame & q & Hq & Hcan & Hv); [|done|].
    { by apply related_prepare with m0. }
    destruct (RuleSet_Match env s mn) as [b m1] eqn:E. cbn [fst snd] in *.
    assert (Hreset : ResetRuleCache m1 = ResetRuleCache m0).
    { rewrite (same_reset_cache _ _ Hsame), (same_reset_cache _ _ Hmn). done. }
    exists b, q, m1, (restore (snapshotRuleMatch m0) m1). split.
    + split_and!; [done|by apply restore_same|done| |].
      * unfold branchHolds. rewrite Hb.
        destruct b; [|by rewrite Hv, andb_false_r].
        intros Hq0 Hp0. by rewrite (Hd2 Hp0), (Hv Hq0).
      * intros Hc. apply Hcan. rewrite Hign.
        change (m_IPCIDRMatchSource mn) with (ipCidrMatchSource i).
        destruct (m_IgnoreDestinationIPCIDRMatch m0) eqn:Ei; [|done]. cbn [andb] in *.
        specialize (Hs Ei). unfold branch_safe, separated in Hs. rewrite Hb in Hs.
        destruct (nonEmpty (destinationAddressItems r)); [|done].
        destruct (canDefer_set (ipCidrMatchSource i) s); [|done].
        by rewrite andb_false_r in Hs.
    + cbn [outerGroupsLoop]. rewrite Hb, preGroups_done, Ed. fold mn. rewrite E.
      unfold branch_next. destruct b; [|done]. rewrite Hq, pending_eqb.
      destruct q; [|done]. cbn [negb]. by rewrite pending_lor, orb_true_r.
  - exists false, false, mn, m0. split.
    + split_and!; [by rewrite (same_reset_cache _ _ Hmn)|done|done| |done].
      unfold branchHolds. by rewrite Hb, (Hd1 eq_refl).
    + cbn [outerGroupsLoop]. by rewrite Hb, preGroups_done, Ed.
Qed.

Lemma outerLoop_sound sets :
  Forall sound_set sets -> safeWhenIgnoring m0 (forallb branch_safe sets) ->
  forall m matched, ResetRuleCache m = ResetRuleCache m0 ->
  let res := loop sets m matched (pendingMask matched) in
  snd res ≈c m0 /\
  exists q, m_DeferredIPCIDRMatchGroups (snd res) = pendingMask q /\
    (if fst res then q = false -> existsb holds sets = true
     else matched = false /\ existsb holds sets = false) /\
    (pending r m0 = false -> matched = false ->
     m_IgnoreDestinationIPCIDRMatch m0
       && (negb (nonEmpty (destinationAddressItems r))
           && existsb (canDefer_set (ipCidrMatchSource i)) sets) = false -> q = false).
Proof.
  intros Hsets. induction Hsets as [|s sets Hset Hsets IH]; intros Hs m matched Hm res.
  - destruct (finish_sound m0 _ m matched Hdef Hm) as [H1 H2].
    subst res. cbn [outerGroupsLoop]. split; [done|]. eexists. split; [exact H2|]. split.
    + unfold finishDeferred. destruct matched; cbn [fst]; [|done]. by rewrite orb_true_r.
    + by intros -> ->.
  - assert (Hs1 : safeWhenIgnoring m0 (branch_safe s)).
    { intros H. by apply Hs, andb_prop in H as [H _]. }
    assert (Hs2 : safeWhenIgnoring m0 (forallb branch_safe sets)).
    { intros H. by apply Hs, andb_prop in H as [_ H]. }
    assert (exists b q m1 fin, branch_ok s b q m1 fin /\
      loop (s :: sets) m matched (pendingMask matched) = branch_next sets matched b q m1 fin)
      as (b & q & m1 & fin & (Hm1 & Hf1 & Hf2 & Hv & Hc) & Heq).
    { destruct (mergeableRule s) eqn:E; [by eapply merged_step|by apply nested_step]. }
    subst res. rewrite Heq. unfold branch_next. cbn [existsb].
    destruct b; [destruct q|].
    + destruct (IH Hs2 m1 true Hm1) as (H1 & q' & H2 & H3 & H4). split; [done|].
      exists q'. split; [done|]. split.
      * destruct (fst _); [|naive_solver]. intros Hq'. by rewrite (H3 Hq'), orb_true_r.
      * intros _ _ Hcan. exfalso. enough (true = false) by done. apply Hc.
        destruct (m_IgnoreDestinationIPCIDRMatch m0), (nonEmpty (destinationAddressItems r)),
          (canDefer_set (ipCidrMatchSource i) s); cbn in *; congruence.
    + cbn [fst snd]. split; [done|]. eexists. split; [exact Hf2|]. split; [|by intros ->].
      intros Hp. by rewrite (Hv eq_refl Hp).
    + destruct (IH Hs2 m1 matched Hm1) as (H1 & q' & H2 & H3 & H4). split; [done|].
      exists q'. split; [done|]. rewrite Hv. split; [done|].
      intros Hp Hmt Hcan. apply H4; [done|done|].
      destruct (m_IgnoreDestinationIPCIDRMatch m0), (nonEmpty (destinationAddressItems r)),
        (canDefer_set (ipCidrMatchSource i) s); cbn in *; congruence.
Qed.
End outer.

(** ** Rule-sets and logical rules *)

Section lists.
Context (m0 mp : InboundContext).

Lemma anyLoop_sound rules :
  m_DeferredIPCIDRMatchGroups m0 = 0 -> related m0 mp ->
  Forall sound_rule rules ->
  safeWhenIgnoring m0 (forallb (safe_rule (m_IPCIDRMatchSource m0)) rules) ->
  forall m matched, m ≈c m0 ->
  let res := anyHeadlessLoop (HeadlessRule_Match env) (snapshotRuleMatch m0) rules m matched
               (pendingMask matched) in
  snd res ≈c m0 /\
  exists q, m_DeferredIPCIDRMatchGroups (snd res) = pendingMask q /\
    (if fst res then q = false -> existsb (fun h => spec_rule env h mp) rules = true
     else matched = false /\ existsb (fun h => spec_rule env h mp) rules = false) /\
    (matched = false ->
     m_IgnoreDestinationIPCIDRMatch m0
       && existsb (canDefer_rule (m_IPCIDRMatchSource m0)) rules = false -> q = false).
Proof.
  intros Hdef Hrel Hrules. induction Hrules as [|h rules Hh Hrules IH]; intros Hs m matched Hm res.
  - destruct (finish_sound m0 false m matched Hdef (same_reset_cache _ _ Hm)) as [H1 H2].
    subst res. cbn [anyHeadlessLoop]. split; [done|]. exists matched. split; [exact H2|].
    split; [|done]. unfold finishDeferred. by destruct matched.
  - assert (Hs1 : safeWhenIgnoring m0 (safe_rule (m_IPCIDRMatchSource m0) h)).
    { intros H. by apply Hs, andb_prop in H as [H _]. }
    assert (Hs2 : safeWhenIgnoring m0 (forallb (safe_rule (m_IPCIDRMatchSource m0)) rules)).
    { intros H. by apply Hs, andb_prop in H as [_ H]. }
    assert (Hmr : ResetRuleMatchCache m ≈c m0) by by rewrite ResetRuleMatchCache_same.
    destruct (Hh (ResetRuleMatchCache m) mp eq_refl) as (Hsame & q & Hq & Hcan & Hv).
    { by apply related_same with m0. }
    { unfold safeWhenIgnoring. by rewrite (same_ignore _ _ Hmr), (same_src _ _ Hmr). }
    rewrite (same_ignore _ _ Hmr), (same_src _ _ Hmr) in Hcan.
    subst res. cbn [anyHeadlessLoop existsb].
    destruct (HeadlessRule_Match env h (ResetRuleMatchCache m)) as [b m1] eqn:E.
    cbn [fst snd] in *. rewrite Hmr in Hsame. destruct b.
    + rewrite Hq, pending_eqb. destruct q; cbn [negb].
      * rewrite pending_lor, orb_true_r.
        destruct (IH Hs2 m1 true Hsame) as (H1 & q' & H2 & H3 & H4). split; [done|].
        exists q'. split; [done|]. split.
        -- destruct (fst _); [|naive_solver]. intros Hq'. by rewrite (H3 Hq'), orb_true_r.
        -- intros _ Hc. discriminate Hcan.
           by destruct (m_IgnoreDestinationIPCIDRMatch m0), (canDefer_rule _ h).
      * cbn [fst snd]. split; [by apply restore_same, same_reset_cache|].
        exists false. split; [by rewrite restore_deferred|]. split; [|done].
        intros _. by rewrite (Hv eq_refl).
    + destruct (IH Hs2 m1 matched Hsame) as (H1 & q' & H2 & H3 & H4). split; [done|].
      exists q'. split; [done|]. rewrite Hv. split; [done|].
      intros Hmt Hc. apply H4; [done|].
      by destruct (m_IgnoreDestinationIPCIDRMatch m0), (canDefer_rule _ h).
Qed.

(** The loops of a logical rule; [holds] is the semantics of the loop's list. *)
Definition logical_ok (d : bool) (can : bool) (holds : bool) (res : bool * Z * InboundContext) : Prop :=
  let '(b, dg, m') := res in
  ResetRuleCache m' = ResetRuleCache m0 /\
  exists q, dg = pendingMask q /\
    (if b then q = false -> d = false /\ holds = true else q = false /\ holds = false) /\
    (d = false -> m_IgnoreDestinationIPCIDRMatch m0 && can = false -> q = false).

Lemma logical_element h m :
  sound_rule h -> related m0 mp -> safeWhenIgnoring m0 (safe_rule false h) ->
  ResetRuleCache m = ResetRuleCache m0 ->
  let res := HeadlessRule_Match env h (ResetRuleCache m) in
  ResetRuleCache (snd res) = ResetRuleCache m0 /\
  exists q, m_DeferredIPCIDRMatchGroups (snd res) = pendingMask q /\
    (m_IgnoreDestinationIPCIDRMatch m0 && canDefer_rule false h = false -> q = false) /\
    (if fst res then q = false -> spec_rule env h (ResetRuleCache mp) = true
     else spec_rule env h (ResetRuleCache mp) = false).
Proof.
  intros Hh Hrel Hs Hm res. subst res. rewrite Hm.
  destruct (Hh (ResetRuleCache m0) (ResetRuleCache mp) eq_refl) as (Hsame & H); [|done|].
  { by apply related_reset with m0. }
  split; [|done]. by rewrite (same_reset_cache _ _ Hsame).
Qed.

Lemma andLoop_sound rules :
  related m0 mp -> Forall sound_rule rules ->
  safeWhenIgnoring m0 (forallb (safe_rule false) rules) ->
  forall m d, ResetRuleCache m = ResetRuleCache m0 ->
  logical_ok d (existsb (canDefer_rule false) rules)
    (forallb (fun h => spec_rule env h (ResetRuleCache mp)) rules)
    (logicalAndLoop (HeadlessRule_Match env) rules m (pendingMask d)).
Proof.
  intros Hrel Hrules. induction Hrules as [|h rules Hh Hrules IH]; intros Hs m d Hm.
  - cbn. split; [done|]. exists d. naive_solver.
  - destruct (logical_element h m Hh Hrel) as (Hm1 & q & Hq & Hcan & Hv); [|done|].
    { intros H. by apply Hs, andb_prop in H as [H _]. }
    cbn [logicalAndLoop forallb existsb].
    destruct (HeadlessRule_Match env h (ResetRuleCache m)) as [b m1]. cbn [fst snd] in *.
    destruct b; cbn [negb].
    + rewrite Hq, pending_lor.
      assert (Hs2 : safeWhenIgnoring m0 (forallb (safe_rule false) rules)).
      { intros H. by apply Hs, andb_prop in H as [_ H]. }
      specialize (IH Hs2 m1 (d || q) Hm1). unfold logical_ok in *.
      destruct (logicalAndLoop _ _ _ _) as [[b dg] m2]. destruct IH as (H1 & q' & H2 & H3 & H4).
      split; [done|]. exists q'. split; [done|]. split.
      * destruct b; [|destruct H3 as [-> ->]; by rewrite andb_false_r].
        intros Hq'. destruct (H3 Hq') as [Hdq Hf]. apply orb_false_iff in Hdq as [-> ->].
        by rewrite (Hv eq_refl).
      * intros -> Hc. apply H4; [apply Hcan|];
          by destruct (m_IgnoreDestinationIPCIDRMatch m0), (canDefer_rule false h).
    + split; [done|]. exists false. rewrite Hv. naive_solver.
Qed.

Lemma orLoop_sound rules :
  related m0 mp -> Forall sound_rule rules ->
  safeWhenIgnoring m0 (forallb (safe_rule false) rules) ->
  forall m d, ResetRuleCache m = ResetRuleCache m0 ->
  let '(b, dg, m') := logicalOrLoop (HeadlessRule_Match env) rules m d (pendingMask d) in
  ResetRuleCache m' = ResetRuleCache m0 /\
  exists q, dg = pendingMask q /\
    (if b then q = false -> existsb (fun h => spec_rule env h (ResetRuleCache mp)) rules = true
     else d = false /\ q = false
          /\ existsb (fun h => spec_rule env h (ResetRuleCache mp)) rules = false) /\
    (d = false -> m_IgnoreDestinationIPCIDRMatch m0 && existsb (canDefer_rule false) rules = false ->
     q = false).
Proof.
  intros Hrel Hrules. induction Hrules as [|h rules Hh Hrules IH]; intros Hs m d Hm.
  - cbn. split; [done|]. exists d. by destruct d.
  - destruct (logical_element h m Hh Hrel) as (Hm1 & q & Hq & Hcan & Hv); [|done|].
    { intros H. by apply Hs, andb_prop in H as [H _]. }
    assert (Hs2 : safeWhenIgnoring m0 (forallb (safe_rule false) rules)).
    { intros H. by apply Hs, andb_prop in H as [_ H]. }
    cbn [logicalOrLoop existsb].
    destruct (HeadlessRule_Match env h (ResetRuleCache m)) as [b m1]. cbn [fst snd] in *.
    destruct b.
    + rewrite Hq, pending_eqb. destruct q; cbn [negb].
      * rewrite pending_lor, orb_true_r. specialize (IH Hs2 m1 true Hm1).
        destruct (logicalOrLoop _ _ _ _ _) as [[b dg] m2]. destruct IH as (H1 & q' & H2 & H3 & H4).
        split; [done|]. exists q'. split; [done|]. split.
        -- destruct b; [|naive_solver]. intros Hq'. by rewrite (H3 Hq'), orb_true_r.
        -- intros _ Hc. discriminate Hcan.
           by destruct (m_IgnoreDestinationIPCIDRMatch m0), (canDefer_rule false h).
      * split; [done|]. exists false. split; [done|]. split; [|done].
        intros _. by rewrite (Hv eq_refl).
    + specialize (IH Hs2 m1 d Hm1).
      destruct (logicalOrLoop _ _ _ _ _) as [[b dg] m2]. destruct IH as (H1 & q' & H2 & H3 & H4).
      split; [done|]. exists q'. rewrite Hv. split; [done|]. split; [done|].
      intros Hd Hc. apply H4; [done|].
      by destruct (m_IgnoreDestinationIPCIDRMatch m0), (canDefer_rule false h).
Qed.
End lists.

(** ** Default rules *)

Definition sound_default (r : abstractDefaultRule) : Prop :=
  forall m mp, m_DeferredIPCIDRMatchGroups m = 0 -> related m mp ->
    safeWhenIgnoring m (safe_default (m_IPCIDRMatchSource m) r) ->
    sound m (canDefer_default (m_IPCIDRMatchSource m) r) (DefaultRule_Match env r m)
      (spec_default env r mp).

Definition sound_logical (r : abstractLogicalRule) : Prop :=
  forall m mp, m_DeferredIPCIDRMatchGroups m = 0 -> related m mp ->
    safeWhenIgnoring m (safe_logical r) ->
    sound m (canDefer_logical r) (LogicalRule_Match env r m) (spec_logical env r mp).

Lemma sound_invert m can invert res holds :
  sound m can res holds -> sound m can (applyInvert invert res) (xorb invert holds).
Proof.
  intros (Hsame & q & Hq & Hcan & Hv). destruct res as [b m']. cbn [fst snd] in *.
  unfold applyInvert. destruct invert; [|by split; [|exists q]].
  destruct b; cbn [negb].
  - split; [done|]. exists q. cbn [fst snd]. rewrite Hq, pending_eqb. split; [done|]. split; [done|].
    destruct q; cbn [negb]; [done|]. by rewrite (Hv eq_refl).
  - split; [cbn [snd]; by rewrite set_Deferred_same|]. exists false. by rewrite Hv.
Qed.

Lemma pre_same r m m' : m ≈c m' -> pre r m = pre r m'.
Proof. intros H. unfold pre. by rewrite (same_ignore _ _ H), (same_src _ _ H). Qed.

Lemma preGroups_same r m m' : m ≈c m' -> preGroups r m = preGroups r m'.
Proof.
  intros H. unfold preGroups, mask. rewrite (pre_same r m m' H).
  by rewrite !(anyOf_same env _ _ _ H).
Qed.

Lemma pending_same r m m' : m ≈c m' -> pending r m = pending r m'.
Proof. intros H. unfold pending. by rewrite (same_ignore _ _ H), (same_src _ _ H). Qed.

(** A rule-set item leaves nothing deferred on the groups the rule satisfied. *)
Lemma satisfied_not_pending r m :
  anyOf env (pre r m DstAddr) m = true ->
  pending r m = false /\
  m_IgnoreDestinationIPCIDRMatch m && negb (nonEmpty (destinationAddressItems r)) = false.
Proof.
  intros H. split.
  - destruct (pending r m) eqn:E; [|done]. by rewrite (proj1 (pending_pre _ _ E)) in H.
  - destruct (m_IgnoreDestinationIPCIDRMatch m) eqn:E; [|done].
    rewrite pre_ignoring in H by done. by destruct (destinationAddressItems r).
Qed.

Lemma matchInner_finish r m (can b : bool) m' (q holds : bool) :
  m' ≈c m -> m_DeferredIPCIDRMatchGroups m' = pendingMask q ->
  (anyOf env (pre r m DstAddr) m = true -> q = false) ->
  (m_IgnoreDestinationIPCIDRMatch m && can = false -> q = false) ->
  (if b then q = false -> holds = true else holds = false) ->
  sound m can
    (if b then (true, set_Deferred m' (Z.ldiff (m_DeferredIPCIDRMatchGroups m')
                                         (satisfied (preGroups r m))))
     else (false, m')) holds.
Proof.
  intros Hsame Hq Hsat Hcan Hv. destruct b; [|split; [done|]; by exists q].
  split; [cbn [snd]; by rewrite set_Deferred_same|]. exists q. split; [|done]. cbn [snd].
  change (Z.ldiff (m_DeferredIPCIDRMatchGroups m') (satisfied (preGroups r m)) = pendingMask q).
  rewrite Hq. unfold preGroups. cbn [satisfied]. rewrite pending_ldiff.
  destruct q; [|done]. destruct (anyOf env (pre r m DstAddr) m); [|done]. by specialize (Hsat eq_refl).
Qed.

Lemma safe_default_sets src r i :
  safe_default src r = true -> ruleSetItem r = Some i ->
  forallb (fun s => safe_set (ipCidrMatchSource i) s && separated r src s (ipCidrMatchSource i))
    (setList i) = true.
Proof.
  destruct r as [? ? ? ? ? ? ? [[]|] ? ?]; cbn [ruleSetItem]; [|done].
  intros H [= <-]. cbn [safe_default] in H. by apply andb_prop in H as [_ H].
Qed.

Lemma canDefer_default_sets src r i :
  canDefer_default src r = false -> ruleSetItem r = Some i ->
  existsb (canDefer_set (ipCidrMatchSource i)) (setList i) = false.
Proof.
  destruct r as [? ? ? ? ? ? ? [[]|] ? ?]; cbn [ruleSetItem]; [|done].
  intros H [= <-]. cbn [canDefer_default] in H. by apply orb_false_iff in H as [_ H].
Qed.

(** The inner match with a rule-set item. *)
Lemma sound_rule_sets r i m mp :
  m_DeferredIPCIDRMatchGroups m = 0 -> related m mp ->
  safeWhenIgnoring m (safe_default (m_IPCIDRMatchSource m) r) ->
  ruleSetItem r = Some i -> Forall sound_set (setList i) ->
  let res := matchWithOuterGroups env i (afterGroups r m) (preGroups r m) in
  snd res ≈c m /\
  exists q, m_DeferredIPCIDRMatchGroups (snd res) = pendingMask q /\
    (anyOf env (pre r m DstAddr) m = true -> q = false) /\
    (m_IgnoreDestinationIPCIDRMatch m && canDefer_default (m_IPCIDRMatchSource m) r = false ->
     q = false) /\
    (if fst res then q = false -> existsb (branchHolds env (spec_set env) r mp i) (setList i) = true
     else existsb (branchHolds env (spec_set env) r mp i) (setList i) = false).
Proof.
  intros Hdef Hrel Hs Hi Hsets res. subst res. rewrite matchWithOuterGroups_eq.
  pose proof (afterGroups_same r m) as H1. set (m1 := afterGroups r m) in *.
  destruct (outerLoop_sound r i m1 mp) with (sets := setList i) (m := m1) (matched := false)
    as (H2 & q & Hq & Hv & Hc); try done.
  { rewrite (pending_same r _ _ H1). by apply afterGroups_deferred. }
  { by apply related_same with m. }
  { intros H. rewrite (same_ignore _ _ H1) in H. rewrite (same_src _ _ H1).
    by apply safe_default_items, Hs. }
  { intros H. rewrite (same_ignore _ _ H1) in H. unfold branch_safe. rewrite (same_src _ _ H1).
    by apply safe_default_sets; [apply Hs|]. }
  rewrite (preGroups_same r _ _ H1) in H2, Hq, Hv. change (pendingMask false) with 0 in *.
  rewrite (same_ignore _ _ H1), (pending_same r _ _ H1) in Hc.
  split; [by rewrite H2|]. exists q. split; [done|]. split_and!.
  - intros Hsat. apply satisfied_not_pending in Hsat as [Hp Hn]. apply Hc; [done|done|].
    by rewrite andb_assoc, Hn.
  - intros Hcan. destruct (m_IgnoreDestinationIPCIDRMatch m) eqn:E.
    + apply Hc; [|done|].
      * destruct (pending r m) eqn:Ep; [|done]. apply canDefer_pending in Ep. cbn in Hcan. congruence.
      * cbn [andb] in *. by rewrite (canDefer_default_sets _ _ _ Hcan Hi), andb_false_r.
    + apply Hc; [|done|done]. unfold pending. by rewrite E.
  - destruct (fst _); [done|]. by destruct Hv.
Qed.

Lemma sound_default_rule r :
  (forall i, ruleSetItem r = Some i -> Forall sound_set (setList i)) -> sound_default r.
Proof.
  intros Hrs m mp Hdef Hrel Hs.
  assert (Hsi : safeWhenIgnoring m (safe_items (m_IPCIDRMatchSource m) r)).
  { intros H. by apply safe_default_items, Hs. }
  rewrite DefaultRule_Match_eq, spec_default_eq.
  destruct (length (allItems r) =? 0)%nat; [split; [done|]; by exists false|].
  apply sound_invert. unfold matchInnerWith. rewrite evaluateGroups_pre.
  fold (allOf env (items r) (afterGroups r m)).
  rewrite (allOf_same env _ _ _ (afterGroups_same r m)), (items_related r m mp Hrel Hsi).
  pose proof (afterGroups_deferred r m Hdef) as Hd1.
  assert (Hcp : m_IgnoreDestinationIPCIDRMatch m && canDefer_default (m_IPCIDRMatchSource m) r = false ->
                pending r m = false).
  { intros H. destruct (pending r m) eqn:E; [|done]. rewrite (canDefer_pending _ _ E) in H.
    unfold pending in E. by destruct (m_IgnoreDestinationIPCIDRMatch m). }
  destruct (allOf env (items r) m); cbn [negb andb];
    [|split; [apply afterGroups_same|]; by exists (pending r m)].
  destruct (ruleSetItem r) as [i|] eqn:Ei.
  - destruct (sound_rule_sets r i m mp Hdef Hrel Hs Ei (Hrs _ eq_refl)) as (H2 & q & Hq & Hsat & Hcan & Hv).
    destruct (matchWithOuterGroups env i (afterGroups r m) (preGroups r m)) as [b m2].
    by apply (matchInner_finish r m _ b m2 q).
  - rewrite preGroups_done. destruct (preDone_post r m mp Hrel Hsi) as [Hv1 Hv2].
    apply (matchInner_finish r m _ _ _ (pending r m)); [apply afterGroups_same|done| |done|].
    + intros Hsat. by apply satisfied_not_pending in Hsat as [Hsat _].
    + destruct (preDone r m) eqn:E; [|by apply Hv1]. intros Hp. by rewrite Hv2.
Qed.

(** ** All rules *)

Lemma sound_logical_rule r : Forall sound_rule (logical_rules r) -> sound_logical r.
Proof.
  intros Hrules m mp Hdef Hrel Hs. rewrite LogicalRule_Match_eq, spec_logical_eq.
  destruct r as [rules mode inv act]. cbn [logical_rules logical_mode logical_invert] in *.
  change (canDefer_logical _) with (existsb (canDefer_rule false) rules).
  change (safe_logical _) with (forallb (safe_rule false) rules) in Hs.
  assert (H : let '(b, dg, m') := (if String.eqb mode LogicalTypeAnd
      then logicalAndLoop (HeadlessRule_Match env) rules m 0
      else logicalOrLoop (HeadlessRule_Match env) rules m false 0) in
    ResetRuleCache m' = ResetRuleCache m /\
    exists q, dg = pendingMask q /\
      let holds := if String.eqb mode LogicalTypeAnd
        then forallb (fun h => spec_rule env h (ResetRuleCache mp)) rules
        else existsb (fun h => spec_rule env h (ResetRuleCache mp)) rules in
      (if b then q = false -> holds = true else q = false /\ holds = false) /\
      (m_IgnoreDestinationIPCIDRMatch m && existsb (canDefer_rule false) rules = false -> q = false)).
  { destruct (String.eqb mode LogicalTypeAnd).
    - pose proof (andLoop_sound m mp rules Hrel Hrules Hs m false eq_refl) as H. unfold logical_ok in H.
      change (pendingMask false) with 0 in H. destruct (logicalAndLoop _ _ _ _) as [[b dg] m'].
      destruct H as (H1 & q & H2 & H3 & H4). split; [done|]. exists q. split; [done|].
      destruct b; naive_solver.
    - pose proof (orLoop_sound m mp rules Hrel Hrules Hs m false eq_refl) as H.
      change (pendingMask false) with 0 in H. destruct (logicalOrLoop _ _ _ _ _) as [[b dg] m'].
      destruct H as (H1 & q & H2 & H3 & H4). split; [done|]. exists q. split; [done|].
      destruct b; naive_solver. }
  destruct (if String.eqb mode LogicalTypeAnd then _ else _) as [[b dg] m'].
  destruct H as (Hm & q & -> & Hv & Hcan). unfold logicalFinish.
  pose proof (restore_same m m' Hm) as Hres. cbn zeta in Hv.
  destruct b.
  - rewrite restore_deferred, Hdef, pending_eqb. cbn [negb]. rewrite negb_involutive. destruct inv.
    + split; [cbn [snd]; by rewrite set_Deferred_same|]. exists q. split; [done|]. split; [done|].
      cbn [fst]. destruct q; [done|]. by rewrite Hv.
    + split; [cbn [snd]; by rewrite set_Deferred_same|]. exists q. split; [done|]. split; [done|].
      cbn [fst]. by rewrite xorb_false_l.
  - destruct Hv as [-> ->].
    destruct inv; (split; [done|]; exists false; split; [exact Hdef|done]).
Qed.

Lemma sound_set_rules s : Forall sound_rule (set_rules s) -> sound_set s.
Proof.
  intros Hrules m mp Hdef Hrel Hs. rewrite RuleSet_Match_eq, spec_set_eq.
  destruct s as [tag rules md]. cbn [set_rules] in *.
  change (canDefer_set _ _) with (existsb (canDefer_rule (m_IPCIDRMatchSource m)) rules).
  change (safe_set _ _) with (forallb (safe_rule (m_IPCIDRMatchSource m)) rules) in Hs.
  destruct (anyLoop_sound m mp rules Hdef Hrel Hrules Hs m false) as (H1 & q & H2 & H3 & H4); [done|].
  split; [done|]. exists q. split; [done|]. split; [by apply H4|].
  change (pendingMask false) with 0 in H3. destruct (fst _); [done|]. by destruct H3.
Qed.

(** A rule on a response is matched on a copy: it never defers. *)
Lemma sound_dns_rule r matchResponse tag race :
  sound_default r -> sound_rule (DefaultDNSRule r matchResponse tag race).
Proof.
  intros Hr m mp Hdef Hrel Hs. rewrite spec_dns_eq.
  change (HeadlessRule_Match _ _ _)
    with (matchForMatchWith (DefaultRule_Match env r) matchResponse tag (rule_invert r) m).
  change (canDefer_rule _ _) with (canDefer_default (m_IPCIDRMatchSource m) r).
  change (safe_rule _ _) with (negb matchResponse && safe_default (m_IPCIDRMatchSource m) r) in Hs.
  unfold matchForMatchWith. destruct matchResponse; [|by apply Hr].
  destruct (m_IgnoreDestinationIPCIDRMatch m) eqn:Ei; [by specialize (Hs Ei)|].
  unfold related in Hrel. rewrite Ei in Hrel.
  assert (Hresp : responseOf tag mp = responseOf tag m) by (revert Hrel; by apply cache_blind).
  rewrite Hresp. unfold responseOf.
  set (response := if negb (String.eqb tag "") then _ else _).
  destruct response as [msg|] eqn:E; [|split; [done|]; exists false; by destruct (rule_invert r)].
  set (copy := fun c => set_DestinationAddressMatchFromResponse (set_DNSResponse c (Some msg)) true).
  assert (Hcopy : copy mp ≈c copy m) by by apply cache_apart.
  destruct (Hr (copy m) (copy mp)) as (_ & q & _ & Hcan & Hv); [done| | |].
  { unfold related. change (m_IgnoreDestinationIPCIDRMatch (copy m))
      with (m_IgnoreDestinationIPCIDRMatch m). by rewrite Ei. }
  { intros H. change (m_IgnoreDestinationIPCIDRMatch (copy m))
      with (m_IgnoreDestinationIPCIDRMatch m) in H. congruence. }
  change (m_IgnoreDestinationIPCIDRMatch (copy m)) with (m_IgnoreDestinationIPCIDRMatch m) in Hcan.
  rewrite Ei in Hcan. specialize (Hcan eq_refl).
  split; [done|]. exists false. split; [done|]. split; [done|]. cbn [fst].
  unfold copy in Hv. destruct (fst _); [by intros _; apply Hv|done].
Qed.

Theorem sound_all h : sound_rule h.
Proof.
  apply (headless_rule_ind sound_default (fun i => Forall sound_set (setList i)) sound_set
           sound_logical sound_rule).
  - intros. apply sound_default_rule. done.
  - done.
  - intros. by apply sound_set_rules.
  - intros. by apply sound_logical_rule.
  - intros r Hr. exact Hr.
  - intros r Hr. exact Hr.
  - intros. by apply sound_dns_rule.
  - intros r Hr. exact Hr.
  - intros r Hr. exact Hr.
  - intros r a b c Hr. exact Hr.
Qed.
End soundness.
