(* ===== verification/RuleBlind.v ===== *)
(** * What rules do not look at

    A rule gives the same answer on two metadata that agree on everything its
    items read.  [goodRule] says which items and which response bindings a rule
    tree has, rule-sets included; [blind_rule] lifts a relation that those items
    respect to the whole tree. *)

From S2P Require Import Prelude.
From S2P Require Import GoText.
From S2P Require Import NetIP.
From S2P Require Import Libs.
From S2P Require Import Metadata.
From S2P Require Import RuleItems.
From S2P Require Import RuleAction.
From S2P Require Import RuleEngine.
From S2P Require Import RuleSpec.
From S2P Require Import RuleSound.
Local Open Scope Z_scope.

Section good.
Context `{L : Libs}.
Context (goodItem : RuleItem -> bool) (goodDNS : bool -> string -> bool).

Fixpoint goodDefault (r : abstractDefaultRule) : bool :=
  match r with
  | mkDefaultRule its sa sp da dc dp _ rs _ _ =>
      forallb goodItem its && forallb goodItem sa && forallb goodItem sp && forallb goodItem da
      && forallb goodItem dc && forallb goodItem dp
      && match rs with None => true | Some (mkRuleSetItem _ sets _ _) => forallb goodSet sets end
  end
with goodSet (s : RuleSet) : bool :=
  match s with mkRuleSet _ rules _ => forallb goodRule rules end
with goodLogical (r : abstractLogicalRule) : bool :=
  match r with mkLogicalRule rules _ _ _ => forallb goodRule rules end
with goodRule (h : HeadlessRule) : bool :=
  match h with
  | DefaultRule r | DefaultHeadlessRule r => goodDefault r
  | DefaultDNSRule r matchResponse tag _ => goodDNS matchResponse tag && goodDefault r
  | LogicalRule r | LogicalHeadlessRule r | LogicalDNSRule r _ _ _ => goodLogical r
  end.

Lemma goodDefault_items r :
  goodDefault r = true ->
  forallb goodItem (items r) = true /\ (forall ignore src g, forallb goodItem (groupItems r ignore src g) = true)
  /\ forall i, ruleSetItem r = Some i -> forallb goodSet (setList i) = true.
Proof.
  destruct r as [its sa sp da dc dp all rs inv act]. cbn [goodDefault]. rewrite !andb_true_iff.
  intros [[[[[[H1 H2] H3] H4] H5] H6] H7]. split_and!; [done| |].
  - intros ignore src [| | |]; cbn [groupItems sourceAddressItems sourcePortItems destinationAddressItems
      destinationIPCIDRItems destinationPortItems]; rewrite ?forallb_app, ?H2, ?H3, ?H4, ?H6; try done.
    + by destruct src.
    + by destruct (src || ignore).
  - intros i. cbn [ruleSetItem]. intros ->. by destruct i.
Qed.

Lemma goodSet_merged s b : goodSet s = true -> mergeableRule s = Some b -> goodDefault b = true.
Proof.
  destruct s as [tag rules md]. unfold mergeableRule, mergeableRuleIn. cbn [set_rules goodSet].
  destruct rules as [|[| |r| | |] [|]]; try done. cbn [forallb goodRule].
  destruct (_ || _); [done|]. rewrite andb_true_r. by intros ? [= <-].
Qed.

(** Trees without restriction. *)
Lemma good_all :
  (forall i, goodItem i = true) -> (forall a tag, goodDNS a tag = true) -> forall h, goodRule h = true.
Proof.
  intros Hi Hd. assert (Hl : forall l, forallb goodItem l = true) by (intros l; apply forallb_forall; auto).
  apply (headless_rule_ind (fun r => goodDefault r = true) (fun i => forallb goodSet (setList i) = true)
    (fun s => goodSet s = true) (fun r => goodLogical r = true) (fun h => goodRule h = true)); try done.
  - intros its sa sp da dc dp all rs inv act H. cbn [goodDefault]. rewrite !Hl.
    destruct rs as [[tags sets a b]|]; [|done]. exact (H _ eq_refl).
  - intros tags sets a b H. apply forallb_forall. by apply List.Forall_forall.
  - intros tag rules md H. apply forallb_forall. by apply List.Forall_forall.
  - intros rules mode inv act H. apply forallb_forall. by apply List.Forall_forall.
  - intros r a b c H. cbn [goodRule]. by rewrite Hd, H.
Qed.
End good.

Section mono.
Context `{L : Libs} (P P' : RuleItem -> bool) (Q Q' : bool -> string -> bool).
Context (HP : forall i, P i = true -> P' i = true) (HQ : forall a tag, Q a tag = true -> Q' a tag = true).

Lemma forallb_mono {A} (f g : A -> bool) l :
  (forall x, In x l -> f x = true -> g x = true) -> forallb f l = true -> forallb g l = true.
Proof. intros H Hf. apply forallb_forall. intros x Hx. apply H; [done|]. by apply (proj1 (forallb_forall _ _) Hf). Qed.

Lemma good_mono_set s : goodSet P Q s = true -> goodSet P' Q' s = true.
Proof.
  revert s. apply (rule_set_ind (fun r => goodDefault P Q r = true -> goodDefault P' Q' r = true)
    (fun i => forallb (goodSet P Q) (setList i) = true -> forallb (goodSet P' Q') (setList i) = true)
    (fun s => goodSet P Q s = true -> goodSet P' Q' s = true)
    (fun r => goodLogical P Q r = true -> goodLogical P' Q' r = true)
    (fun h => goodRule P Q h = true -> goodRule P' Q' h = true)); try done.
  - intros its sa sp da dc dp all rs inv act H. cbn [goodDefault]. rewrite !andb_true_iff.
    intros [[[[[[H1 H2] H3] H4] H5] H6] H7]. split_and!; try (by eapply forallb_mono; [intros i _; apply HP|]).
    destruct rs as [[tags sets a b]|]; [|done]. exact (H _ eq_refl H7).
  - intros tags sets a b H. cbn [setList]. apply forallb_mono. by rewrite List.Forall_forall in H.
  - intros tag rules md H. apply forallb_mono. by rewrite List.Forall_forall in H.
  - intros rules mode inv act H. apply forallb_mono. by rewrite List.Forall_forall in H.
  - intros r a b c H. cbn [goodRule]. rewrite !andb_true_iff. intros [H1 H2]. split; [by apply HQ|by apply H].
Qed.
End mono.

(** The metadata a rule on a response is matched with. *)
Definition onResponse (m : InboundContext) (msg : Msg) : InboundContext :=
  set_DestinationAddressMatchFromResponse (set_DNSResponse m (Some msg)) true.

(** A relation the items and the bindings respect. *)
Record respects `{L : Libs} (env : RuleEnv) (R : InboundContext -> InboundContext -> Prop)
    (goodItem : RuleItem -> bool) (goodDNS : bool -> string -> bool) : Prop := {
  rs_src m m' : R m m' -> m_IPCIDRMatchSource m = m_IPCIDRMatchSource m';
  rs_flags i m m' : R m m' -> R (withFlags i m) (withFlags i m');
  rs_reset m m' : R m m' -> R (ResetRuleCache m) (ResetRuleCache m');
  rs_item i m m' : goodItem i = true -> R m m' -> RuleItem_Match env i m = RuleItem_Match env i m';
  rs_dns tag m m' : goodDNS true tag = true -> R m m' ->
    responseOf tag m = responseOf tag m' /\ forall msg, R (onResponse m msg) (onResponse m' msg) }.

Section blind.
Context `{L : Libs} (env : RuleEnv) (R : InboundContext -> InboundContext -> Prop).
Context (goodItem : RuleItem -> bool) (goodDNS : bool -> string -> bool).
Context (HR : respects env R goodItem goodDNS).

Lemma anyOf_blind l m m' : forallb goodItem l = true -> R m m' -> anyOf env l m = anyOf env l m'.
Proof.
  intros Hl Hm. apply existsb_ext. intros i Hi%list_elem_of_In. apply (rs_item _ _ _ _ HR); [|done].
  by apply (proj1 (forallb_forall _ _) Hl).
Qed.
Lemma allOf_blind l m m' : forallb goodItem l = true -> R m m' -> allOf env l m = allOf env l m'.
Proof.
  intros Hl Hm. apply forallb_ext_in. intros i Hi%list_elem_of_In. apply (rs_item _ _ _ _ HR); [|done].
  by apply (proj1 (forallb_forall _ _) Hl).
Qed.

Notation goodD := (goodDefault goodItem goodDNS).
Notation goodS := (goodSet goodItem goodDNS).
Notation goodH := (goodRule goodItem goodDNS).

Lemma groups_blind r m m' :
  goodD r = true -> R m m' -> forallb (groupHolds env r m) groups = forallb (groupHolds env r m') groups.
Proof.
  intros Hr Hm. destruct (goodDefault_items _ _ _ Hr) as (_ & Hg & _). apply forallb_ext_in. intros g _.
  unfold groupHolds. rewrite (rs_src _ _ _ _ HR _ _ Hm). by rewrite (anyOf_blind _ _ _ (Hg _ _ _) Hm).
Qed.

Definition blindSet (s : RuleSet) : Prop := goodS s = true -> forall m m', R m m' -> spec_set env s m = spec_set env s m'.
Definition blindHeadless (h : HeadlessRule) : Prop :=
  goodH h = true -> forall m m', R m m' -> spec_rule env h m = spec_rule env h m'.

Lemma branch_blind r m m' i s :
  blindSet s -> goodS s = true -> goodD r = true -> R m m' ->
  branchHolds env (spec_set env) r m i s = branchHolds env (spec_set env) r m' i s.
Proof.
  intros Hs Hgs Hr Hm. unfold branchHolds. pose proof (rs_flags _ _ _ _ HR i _ _ Hm) as Hf.
  destruct (mergeableRule s) as [b|] eqn:E.
  - pose proof (goodSet_merged _ _ _ _ Hgs E) as Hb. destruct (goodDefault_items _ _ _ Hb) as (Hi & Hg & _).
    destruct (goodDefault_items _ _ _ Hr) as (_ & Hg' & _). rewrite (allOf_blind _ _ _ Hi Hf). f_equal.
    apply forallb_ext_in. intros g _. unfold mergedHolds.
    by rewrite (rs_src _ _ _ _ HR _ _ Hm), (rs_src _ _ _ _ HR _ _ Hf),
      (anyOf_blind _ _ _ (Hg _ _ _) Hf), (anyOf_blind _ _ _ (Hg' _ _ _) Hm).
  - by rewrite (groups_blind _ _ _ Hr Hm), (Hs Hgs _ _ Hf).
Qed.

Lemma default_blind r :
  (forall i, ruleSetItem r = Some i -> Forall blindSet (setList i)) ->
  goodD r = true -> forall m m', R m m' -> spec_default env r m = spec_default env r m'.
Proof.
  intros H Hr m m' Hm. destruct (goodDefault_items _ _ _ Hr) as (Hi & _ & Hsets).
  rewrite !spec_default_eq, (allOf_blind _ _ _ Hi Hm).
  destruct (ruleSetItem r) as [i|]; [|by rewrite (groups_blind _ _ _ Hr Hm)].
  specialize (H i eq_refl). specialize (Hsets i eq_refl). rewrite List.Forall_forall in H. rewrite forallb_forall in Hsets.
  replace (existsb (branchHolds env (spec_set env) r m i) (setList i))
    with (existsb (branchHolds env (spec_set env) r m' i) (setList i)); [done|].
  apply existsb_ext. intros s Hs%list_elem_of_In. symmetry. by apply branch_blind; auto.
Qed.

Lemma rules_blind rules m m' :
  Forall blindHeadless rules -> forallb goodH rules = true -> R m m' ->
  forall h, h ∈ rules -> spec_rule env h m = spec_rule env h m'.
Proof.
  intros H Hg Hm h Hin%list_elem_of_In. rewrite List.Forall_forall in H. rewrite forallb_forall in Hg.
  by apply H; auto.
Qed.

Lemma blind_rule h m m' : goodH h = true -> R m m' -> spec_rule env h m = spec_rule env h m'.
Proof.
  intros Hg Hm. revert h Hg m m' Hm.
  apply (headless_rule_ind (fun r => goodD r = true -> forall m m', R m m' -> spec_default env r m = spec_default env r m')
    (fun i => Forall blindSet (setList i)) blindSet
    (fun r => goodLogical goodItem goodDNS r = true -> forall m m', R m m' -> spec_logical env r m = spec_logical env r m')
    blindHeadless); try by intros.
  - intros. by apply default_blind.
  - intros tag rules md H Hg m m' Hm. rewrite !spec_set_eq. apply existsb_ext. by apply rules_blind.
  - intros rules mode inv act H Hg m m' Hm. rewrite !spec_logical_eq. f_equal.
    pose proof (rs_reset _ _ _ _ HR _ _ Hm) as Hm'.
    destruct (String.eqb _ _); [apply forallb_ext_in|apply existsb_ext]; by apply rules_blind.
  - intros r mr tag race Hr Hg m m' Hm. cbn [goodRule] in Hg. apply andb_true_iff in Hg as [Hd Hg].
    rewrite !spec_dns_eq. destruct mr; [|by apply Hr].
    destruct (rs_dns _ _ _ _ HR tag _ _ Hd Hm) as [-> Hmsg].
    destruct (responseOf tag m') as [msg|]; [|done]. by apply Hr, Hmsg.
Qed.
End blind.
