(* ===== verification/RuleTheorems.v ===== *)
(** * Theorems on matching

    What the engine computes ([match_is_semantics]), what it leaves in the
    metadata ([match_frame]), what the pre-match of a legacy DNS rule may claim
    before the response is known ([prematch_three_valued]).
    Two examples show where the pre-match stops: a pre-match that gives up a rule
    that holds, and a rule-set flag that nested logical rules do not see. *)

From S2P Require Import Prelude.
From S2P Require Import GoText.
From S2P Require Import NetIP.
From S2P Require Import Libs.
From S2P Require Import Metadata.
From S2P Require Import RuleItems.
From S2P Require Import RuleAction.
From S2P Require Import RuleEngine.
From S2P Require Import RuleSpec.
From S2P Require Import RuleSound.
Local Open Scope string_scope.
Local Open Scope Z_scope.

(** ** Frame *)

Section frame.
Context `{L : Libs} (env : RuleEnv).

Definition frame_rule (h : HeadlessRule) : Prop := forall m, snd (HeadlessRule_Match env h m) ≈c m.
Definition frame_set (s : RuleSet) : Prop := forall m, snd (RuleSet_Match env s m) ≈c m.
Definition frame_default (r : abstractDefaultRule) : Prop :=
  forall m, snd (DefaultRule_Match env r m) ≈c m.
Definition frame_logical (r : abstractLogicalRule) : Prop :=
  forall m, snd (LogicalRule_Match env r m) ≈c m.

Lemma finish_frame m0 m matched d :
  ResetRuleCache m = ResetRuleCache m0 ->
  snd (finishDeferred (snapshotRuleMatch m0) m matched d) ≈c m0.
Proof.
  intros H. unfold finishDeferred.
  destruct matched; cbn [snd]; [rewrite set_Deferred_same|]; by apply restore_same.
Qed.

Lemma prepare_reset i m : ResetRuleCache (prepareNestedMatch i m) = ResetRuleCache m.
Proof. done. Qed.

Lemma outerLoop_frame i g m0 sets :
  Forall frame_set sets -> forall m matched d, ResetRuleCache m = ResetRuleCache m0 ->
  snd (outerGroupsLoop env (RuleSet_Match env) i g (snapshotRuleMatch m0) sets m matched d) ≈c m0.
Proof.
  intros Hsets. induction Hsets as [|s sets Hs Hsets IH]; intros m matched d Hm.
  - by apply finish_frame.
  - cbn [outerGroupsLoop]. destruct (mergeableRule s) as [b|].
    + rewrite evaluateForMerge_pre.
      assert (Hr : ResetRuleCache (afterGroups b (prepareNestedMatch i m)) = ResetRuleCache m0)
        by by rewrite (same_reset_cache _ _ (afterGroups_same b _)).
      destruct (_ && _); [|by apply IH]. destruct (_ =? 0); [|by apply IH].
      cbn [snd]. rewrite set_Deferred_same. by apply restore_same.
    + specialize (Hs (prepareNestedMatch i m)).
      destruct (RuleSet_Match env s (prepareNestedMatch i m)) as [b m1]. cbn [snd] in Hs.
      assert (Hr : ResetRuleCache m1 = ResetRuleCache m0) by by rewrite (same_reset_cache _ _ Hs).
      repeat split_match; try by apply IH. by apply restore_same.
Qed.

Lemma default_frame r :
  (forall i, ruleSetItem r = Some i -> Forall frame_set (setList i)) -> frame_default r.
Proof.
  intros Hi m. rewrite DefaultRule_Match_eq. destruct (length (allItems r) =? 0)%nat; [done|].
  assert (H : snd (matchInnerWith env (matchWithOuterGroups env) r (ruleSetItem r) m) ≈c m).
  { unfold matchInnerWith. rewrite evaluateGroups_pre. pose proof (afterGroups_same r m) as Ha.
    destruct (negb _); [done|]. destruct (ruleSetItem r) as [i|].
    - rewrite matchWithOuterGroups_eq.
      pose proof (outerLoop_frame i (preGroups env r m) (afterGroups r m) _ (Hi i eq_refl)
                    (afterGroups r m) false 0 eq_refl) as Hf.
      destruct (outerGroupsLoop _ _ _ _ _ _ _ _ _) as [[] m2]; cbn [snd] in *;
        [rewrite set_Deferred_same|]; by rewrite Hf.
    - destruct (ruleGroupMatch_done _); cbn [snd]; [rewrite set_Deferred_same|]; done. }
  destruct (matchInnerWith _ _ _ _ _) as [b m1]. unfold applyInvert. cbn [snd] in H.
  repeat split_match; cbn [snd]; [|done..]. by rewrite set_Deferred_same.
Qed.

Lemma anyLoop_frame m0 rules :
  Forall frame_rule rules -> forall m matched d, ResetRuleCache m = ResetRuleCache m0 ->
  snd (anyHeadlessLoop (HeadlessRule_Match env) (snapshotRuleMatch m0) rules m matched d) ≈c m0.
Proof.
  intros Hrules. induction Hrules as [|h rules Hh Hrules IH]; intros m matched d Hm.
  - by apply finish_frame.
  - cbn [anyHeadlessLoop]. specialize (Hh (ResetRuleMatchCache m)).
    destruct (HeadlessRule_Match env h (ResetRuleMatchCache m)) as [b m1]. cbn [snd] in Hh.
    assert (Hr : ResetRuleCache m1 = ResetRuleCache m0) by by rewrite (same_reset_cache _ _ Hh).
    repeat split_match; try by apply IH. by apply restore_same.
Qed.

Lemma logical_step_frame h m0 m :
  frame_rule h -> ResetRuleCache m = ResetRuleCache m0 ->
  ResetRuleCache (snd (HeadlessRule_Match env h (ResetRuleCache m))) = ResetRuleCache m0.
Proof. intros Hh Hm. by rewrite (same_reset_cache _ _ (Hh (ResetRuleCache m))). Qed.

Lemma andLoop_frame m0 rules :
  Forall frame_rule rules -> forall m d, ResetRuleCache m = ResetRuleCache m0 ->
  ResetRuleCache (snd (logicalAndLoop (HeadlessRule_Match env) rules m d)) = ResetRuleCache m0.
Proof.
  intros Hrules. induction Hrules as [|h rules Hh Hrules IH]; intros m d Hm; [done|].
  pose proof (logical_step_frame h m0 m Hh Hm) as Hr. cbn [logicalAndLoop].
  destruct (HeadlessRule_Match env h (ResetRuleCache m)) as [[] m1]; cbn [snd negb] in *; [|done].
  by apply IH.
Qed.

Lemma orLoop_frame m0 rules :
  Forall frame_rule rules -> forall m b d, ResetRuleCache m = ResetRuleCache m0 ->
  ResetRuleCache (snd (logicalOrLoop (HeadlessRule_Match env) rules m b d)) = ResetRuleCache m0.
Proof.
  intros Hrules. induction Hrules as [|h rules Hh Hrules IH]; intros m b d Hm; [done|].
  pose proof (logical_step_frame h m0 m Hh Hm) as Hr. cbn [logicalOrLoop].
  destruct (HeadlessRule_Match env h (ResetRuleCache m)) as [[] m1]; cbn [snd] in *; [|by apply IH].
  split_match; [done|]. by apply IH.
Qed.

Lemma logical_frame r : Forall frame_rule (logical_rules r) -> frame_logical r.
Proof.
  intros Hr m. rewrite LogicalRule_Match_eq.
  assert (H : ResetRuleCache (snd (if String.eqb (logical_mode r) LogicalTypeAnd
      then logicalAndLoop (HeadlessRule_Match env) (logical_rules r) m 0
      else logicalOrLoop (HeadlessRule_Match env) (logical_rules r) m false 0)) = ResetRuleCache m).
  { destruct (String.eqb _ _); [by apply andLoop_frame|by apply orLoop_frame]. }
  destruct (if String.eqb _ _ then _ else _) as [[b d] m']. cbn [snd] in H.
  unfold logicalFinish. pose proof (restore_same m m' H) as Hs.
  destruct b, (logical_invert r); cbn [snd negb]; rewrite ?set_Deferred_same; done.
Qed.

Lemma dns_frame r matchResponse tag race :
  frame_default r -> frame_rule (DefaultDNSRule r matchResponse tag race).
Proof.
  intros Hr m. change (HeadlessRule_Match _ _ _)
    with (matchForMatchWith (DefaultRule_Match env r) matchResponse tag (rule_invert r) m).
  unfold matchForMatchWith. destruct matchResponse; [|apply Hr]. by repeat split_match.
Qed.

Lemma frame_all h : frame_rule h.
Proof.
  apply (headless_rule_ind frame_default (fun i => Forall frame_set (setList i)) frame_set
           frame_logical frame_rule); try by intros.
  - intros. by apply default_frame.
  - intros tag rules md H m. rewrite RuleSet_Match_eq. by apply anyLoop_frame.
  - intros. by apply logical_frame.
  - intros. by apply dns_frame.
Qed.

(** Matching a rule of any kind, in any mode, writes the rule cache of the
    metadata and nothing else: the rule-set flags it sets around a nested match
    are restored, and every other field is as before. *)
Theorem match_frame (h : HeadlessRule) (m : InboundContext) :
  ResetRuleMatchCache (snd (HeadlessRule_Match env h m)) = ResetRuleMatchCache m.
Proof. apply frame_all. Qed.
End frame.

(** ** Exact matching *)

Section exact.
Context `{L : Libs} (env : RuleEnv).

Lemma set_ignore_id c b :
  m_IgnoreDestinationIPCIDRMatch c = b -> set_IgnoreDestinationIPCIDRMatch c b = c.
Proof. by intros <-. Qed.

Lemma match_exact h m :
  m_IgnoreDestinationIPCIDRMatch m = false -> m_DeferredIPCIDRMatchGroups m = 0 ->
  fst (HeadlessRule_Match env h m) = spec_rule env h m
  /\ m_DeferredIPCIDRMatchGroups (snd (HeadlessRule_Match env h m)) = 0.
Proof.
  intros Hi Hd. destruct (sound_all env h m m Hd) as (_ & q & Hq & Hcan & Hv).
  { unfold related. by rewrite Hi. }
  { intros H. congruence. }
  rewrite Hi in Hcan. rewrite (Hcan eq_refl) in *. split; [|done].
  destruct (fst _); [by rewrite Hv|done].
Qed.

(** Without flags a logical rule has none to clear. *)
Definition flagless (m : InboundContext) : Prop := m_IPCIDRMatchSource m = false /\ m_IPCIDRAcceptEmpty m = false.
Lemma flagless_reset m : flagless m -> ResetRuleCache m = ResetRuleMatchCache m.
Proof. intros [H1 H2]. unfold ResetRuleCache. f_equal. destruct m. cbn in *. by subst. Qed.

Definition keeps_default (r : abstractDefaultRule) : Prop :=
  flagsSeen_default r = true -> forall m, keeping_default env r m = spec_default env r m.
Definition keeps_rule (h : HeadlessRule) : Prop :=
  flagsSeen_rule h = true -> forall m, (isLogicalRule h = true -> flagless m) -> keeping_rule env h m = spec_rule env h m.
Definition keeps_set (s : RuleSet) : Prop :=
  flagsSeen_set s = true -> forall m, (existsb isLogicalRule (set_rules s) = true -> flagless m) ->
  keeping_set env s m = spec_set env s m.
Definition keeps_logical (r : abstractLogicalRule) : Prop :=
  flagsSeen_logical r = true -> forall m, flagless m -> keeping_logical env r m = spec_logical env r m.

Lemma keeping_default_spec its sa sp da dc dp all rs inv act :
  (forall i, rs = Some i -> Forall keeps_set (setList i)) -> keeps_default (mkDefaultRule its sa sp da dc dp all rs inv act).
Proof.
  intros IH Hf m. cbn [keeping_default spec_default]. destruct (length all =? 0)%nat; [done|]. do 2 f_equal.
  destruct rs as [[tags sets a b]|]; [|done]. specialize (IH _ eq_refl). cbn [setList flagsSeen_default] in *.
  apply existsb_ext. intros s Hs. rewrite Forall_forall in IH.
  apply list_elem_of_In in Hs. pose proof (IH s Hs) as IHs. apply (proj1 (forallb_forall _ _) Hf) in Hs. apply andb_true_iff in Hs as [Hs Hab].
  unfold branchHolds. destruct (mergeableRule s); [done|]. f_equal. apply IHs; [done|].
  intros Hl. rewrite Hl in Hab. by destruct a, b.
Qed.

Lemma keeps_all h : keeps_rule h.
Proof.
  apply (headless_rule_ind keeps_default (fun i => Forall keeps_set (setList i)) keeps_set keeps_logical keeps_rule); try done.
  - apply keeping_default_spec.
  - intros tag rules md IH Hf m Hm. cbn [keeping_set spec_set flagsSeen_set set_rules] in *. apply existsb_ext. intros x Hh.
    rewrite Forall_forall in IH. pose proof (proj1 (list_elem_of_In _ _) Hh) as Hin.
    apply IH; [done|by apply (proj1 (forallb_forall _ _) Hf)|]. intros Hl. apply Hm, existsb_exists. by exists x.
  - intros rules mode inv act IH Hf m Hm. cbn [keeping_logical spec_logical flagsSeen_logical] in *. rewrite (flagless_reset m Hm).
    rewrite Forall_forall in IH. assert (H : forall x, In x rules ->
      keeping_rule env x (ResetRuleMatchCache m) = spec_rule env x (ResetRuleMatchCache m)).
    { intros x Hh. apply IH; [done|by apply (proj1 (forallb_forall _ _) Hf)|done]. }
    f_equal. destruct (String.eqb mode LogicalTypeAnd); [apply forallb_ext_in; intros x Hx; by apply H, list_elem_of_In|].
    apply existsb_ext. intros x Hx. by apply H, list_elem_of_In.
  - intros r Hr Hf m _. by apply Hr.
  - intros r Hr Hf m _. by apply Hr.
  - intros r mr tag race Hr Hf m _. cbn [keeping_rule spec_rule]. destruct mr; [|by apply Hr].
    destruct (responseOf tag m); [by apply Hr|done].
  - intros r Hr Hf m Hm. by apply Hr, Hm.
  - intros r Hr Hf m Hm. by apply Hr, Hm.
  - intros r a b c Hr Hf m Hm. by apply Hr, Hm.
Qed.

(** C1 The engine decides every rule as its reference semantics does, for metadata
    that does not ignore destination addresses and has nothing deferred: a default
    rule holds when each of its groups (source address, source port,
    destination address, destination port) is empty or has a matching item and
    every other item matches; a rule-set of one plain rule is merged into the
    groups of the rule, any other one is a further condition, several of them
    are alternatives; a logical rule is the conjunction or disjunction of its
    parts, seen without the flags of the rule-set it stands in; [invert] negates.
    Nothing stays deferred.  Where no logical rule stands in a rule-set referred
    to with such a flag, the reading that passes the flags on to logical rules,
    as the documentation of the flags has it, gives the same. *)
Theorem match_is_semantics (h : HeadlessRule) (m : InboundContext)
    (Hignore : m_IgnoreDestinationIPCIDRMatch m = false) (Hdeferred : m_DeferredIPCIDRMatchGroups m = 0) :
  fst (HeadlessRule_Match env h m) = spec_rule env h m
  /\ m_DeferredIPCIDRMatchGroups (snd (HeadlessRule_Match env h m)) = 0
  /\ (flagsSeen_rule h = true -> m_IPCIDRMatchSource m = false -> m_IPCIDRAcceptEmpty m = false ->
      fst (HeadlessRule_Match env h m) = keeping_rule env h m).
Proof.
  destruct (match_exact h m Hignore Hdeferred) as [H1 H2]. split_and!; [done..|].
  intros Hf Hs He. rewrite H1. symmetry. by apply keeps_all.
Qed.

(** ** Legacy DNS rules *)

(** The metadata [MatchAddressLimit] matches. *)
Definition limitMetadata (m : InboundContext) (response : option Msg) : InboundContext :=
  set_DestinationAddressMatchFromResponse (set_DNSResponse (ResetRuleCache m) response) true.

(** The match of the rule that a DNS rule embeds. *)
Lemma limit_semantics h m response :
  isDNSRule h = true -> safe_rule false h = true -> m_IgnoreDestinationIPCIDRMatch m = false ->
  MatchAddressLimit env h m response = spec_rule env h (limitMetadata m response).
Proof.
  intros Hdns Hs Hi. destruct h as [| |r mr tag race| | |r tags an race]; try done.
  - cbn in Hs. destruct mr; [done|].
    by apply (match_exact (DefaultDNSRule r false tag race) (limitMetadata m response)).
  - by apply (match_exact (LogicalDNSRule r tags an race) (limitMetadata m response)).
Qed.

Lemma prematch_sound h m response :
  isDNSRule h = true -> safe_rule false h = true -> m_IgnoreDestinationIPCIDRMatch m = false ->
  let res := LegacyPreMatch env h (ResetRuleCache m) in
  ResetRuleCache (snd res) = ResetRuleCache m /\
  m_IgnoreDestinationIPCIDRMatch (snd res) = false /\
  exists q, m_DeferredIPCIDRMatchGroups (snd res) = pendingMask q /\
    (canDefer_rule false h = false -> q = false) /\
    (if fst res then q = false -> spec_rule env h (limitMetadata m response) = true
     else spec_rule env h (limitMetadata m response) = false).
Proof.
  intros Hdns Hs Hi res.
  set (m1 := set_IgnoreDestinationIPCIDRMatch (ResetRuleCache m) true).
  assert (Hres : res = (fst (HeadlessRule_Match env h m1),
    set_IgnoreDestinationIPCIDRMatch (snd (HeadlessRule_Match env h m1)) false)).
  { subst res. destruct h as [| |r mr tag race| | |r tags an race]; try done.
    - cbn in Hs. destruct mr; [done|]. cbn [LegacyPreMatch]. unfold ignoringDestination. fold m1.
      change (HeadlessRule_Match env _ m1) with (DefaultRule_Match env r m1).
      by destruct (DefaultRule_Match env r m1).
    - cbn [LegacyPreMatch]. unfold ignoringDestination. fold m1.
      change (HeadlessRule_Match env _ m1) with (LogicalRule_Match env r m1).
      by destruct (LogicalRule_Match env r m1). }
  rewrite Hres. cbn [fst snd].
  destruct (sound_all env h m1 (limitMetadata m response) eq_refl) as (Hsame & q & Hq & Hcan & Hv).
  { unfold related. cbn. exists response.
    change (withResponse m1 response)
      with (set_IgnoreDestinationIPCIDRMatch (limitMetadata m response) false).
    by rewrite set_ignore_id. }
  { intros _. exact Hs. }
  split_and!; [|done|].
  - pose proof (same_reset_cache _ _ Hsame) as Hr.
    change (set_IgnoreDestinationIPCIDRMatch
              (ResetRuleCache (snd (HeadlessRule_Match env h m1))) false = ResetRuleCache m).
    rewrite Hr. by apply (set_ignore_id (ResetRuleCache m)).
  - exists q. split_and!; [done|by apply Hcan|done].
Qed.

(** The pre-match of a legacy DNS rule that keeps host names and addresses
    apart is a sound three-valued verdict: when it fails the rule fails for
    every response, and when it succeeds and leaves no deferred group the rule
    holds for every response. *)
Theorem prematch_three_valued (h : HeadlessRule) (m : InboundContext) (response : option Msg)
    (Hdns : isDNSRule h = true) (Hsafe : safe_rule false h = true)
    (Hignore : m_IgnoreDestinationIPCIDRMatch m = false) :
  let '(b, m1) := LegacyPreMatch env h (ResetRuleCache m) in
  (b = false -> MatchAddressLimit env h m response = false) /\
  (b = true -> m_DeferredIPCIDRMatchGroups m1 = 0 -> MatchAddressLimit env h m response = true).
Proof.
  destruct (prematch_sound h m response Hdns Hsafe Hignore) as (_ & _ & q & Hq & _ & Hv).
  destruct (LegacyPreMatch env h (ResetRuleCache m)) as [b m1]. cbn [fst snd] in *.
  rewrite limit_semantics by done. split; intros ->; [done|].
  rewrite Hq, pending_0. done.
Qed.

(** The metadata of a rule-set tells of its destination [ip_cidr] rules; no
    such rule is left when [ip_cidr] is to match the source. *)
Definition metadata_set (a : bool) (s : RuleSet) : bool :=
  implb (canDefer_set a s) (negb a && ContainsIPCIDRRule (RuleSet_Metadata s)).
Fixpoint metadata_rule (h : HeadlessRule) : bool :=
  match h with
  | DefaultDNSRule r _ _ _ =>
      match ruleSetItem r with
      | None => true
      | Some i => forallb (metadata_set (ipCidrMatchSource i)) (setList i)
      end
  | LogicalDNSRule (mkLogicalRule rules _ _ _) _ _ _ =>
      forallb (fun h => isDNSRule h && metadata_rule h) rules
  | _ => true
  end.

Lemma no_limit_default r mr tag race :
  metadata_rule (DefaultDNSRule r mr tag race) = true ->
  DefaultDNSRule_WithAddressLimit r = false -> canDefer_default false r = false.
Proof.
  unfold DefaultDNSRule_WithAddressLimit. intros Hm.
  destruct r as [its sa sp da dc dp all [[tags sets a b]|] inv act];
    cbn [destinationIPCIDRItems ruleSetItem canDefer_default] in *;
    destruct (nonEmpty dc); try done.
  intros Hl. cbn [metadata_rule ruleSetItem setList ipCidrMatchSource] in Hm. cbn [negb andb orb].
  unfold RuleSetItem_ContainsDestinationIPCIDRRule in Hl. cbn [ipCidrMatchSource setList] in Hl.
  rewrite common_Any_spec in Hl. apply not_true_iff_false. intros He.
  apply existsb_exists in He as (s & Hin & Hc).
  apply (proj1 (forallb_forall _ _) Hm) in Hin as Hs. unfold metadata_set in Hs. rewrite Hc in Hs.
  destruct a; [done|]. cbn in Hs. apply not_true_iff_false in Hl. apply Hl, existsb_exists.
  by exists s.
Qed.

Lemma no_limit_no_defer h :
  metadata_rule h = true -> isDNSRule h = true -> DNSRule_WithAddressLimit h = false ->
  canDefer_rule false h = false.
Proof.
  apply (headless_rule_ind (fun _ => True) (fun _ => True) (fun _ => True)
    (fun r => Forall (fun h => metadata_rule h = true -> isDNSRule h = true ->
       DNSRule_WithAddressLimit h = false -> canDefer_rule false h = false) (logical_rules r))
    (fun h => metadata_rule h = true -> isDNSRule h = true ->
       DNSRule_WithAddressLimit h = false -> canDefer_rule false h = false)); try done.
  - intros r mr tag race _ Hm _ Hl. by eapply no_limit_default.
  - intros [rules mode inv act] tags an race IH Hm _ Hl. cbn in *.
    apply not_true_iff_false. intros He. apply existsb_exists in He as (x & Hin & Hc).
    rewrite Forall_forall in IH. apply (proj1 (forallb_forall _ _) Hm) in Hin as Hx.
    apply andb_prop in Hx as [Hx1 Hx2].
    enough (canDefer_rule false x = false) by congruence.
    apply IH; [done|done|done|].
    destruct (DNSRule_WithAddressLimit x) eqn:E; [|done].
    apply not_true_iff_false in Hl. exfalso. apply Hl, existsb_exists. by exists x.
Qed.

(** ** Rule-set flags and logical rules *)

Lemma and_loop_reset rules m m' d :
  ResetRuleCache m = ResetRuleCache m' ->
  fst (logicalAndLoop (HeadlessRule_Match env) rules m d)
  = fst (logicalAndLoop (HeadlessRule_Match env) rules m' d).
Proof. intros H. destruct rules; [done|]. cbn [logicalAndLoop]. by rewrite H. Qed.

Lemma or_loop_reset rules m m' b d :
  ResetRuleCache m = ResetRuleCache m' ->
  fst (logicalOrLoop (HeadlessRule_Match env) rules m b d)
  = fst (logicalOrLoop (HeadlessRule_Match env) rules m' b d).
Proof. intros H. destruct rules; [done|]. cbn [logicalOrLoop]. by rewrite H. Qed.

Lemma logicalFinish_fst snapshot invert res :
  fst (logicalFinish snapshot invert res) =
  let '(matched, d) := fst res in
  if invert then negb matched || negb (d =? 0) else matched.
Proof. destruct res as [[[] d] m]; by destruct invert. Qed.

(** The verdict of a logical rule does not depend on the rule-set flags it is
    matched under: the flags [rule_set_ip_cidr_match_source] and
    [rule_set_ip_cidr_accept_empty] of the enclosing rule have no effect on a
    logical rule inside a rule-set. *)
Theorem logical_ignores_rule_set_flags (r : abstractLogicalRule) (m : InboundContext) (src empty : bool) :
  fst (LogicalRule_Match env r (set_IPCIDRAcceptEmpty (set_IPCIDRMatchSource m src) empty))
  = fst (LogicalRule_Match env r m).
Proof.
  rewrite !LogicalRule_Match_eq, !logicalFinish_fst.
  destruct (String.eqb _ _); [by rewrite (and_loop_reset _ _ m)|by rewrite (or_loop_reset _ _ m)].
Qed.
End exact.

(** ** Examples *)

Module RuleExamples.
#[local] Existing Instance ref_libs.

Definition env0 : RuleEnv := mkEnv None [] [] None (mkWIFIState "" "") "" false.
Definition cidr (a b c d bits : Z) : RuleItem :=
  ItemIPCIDR (NewRawIPCIDRItem false
    [inl (mkPrefix (Addr4 (a * 2 ^ 24 + b * 2 ^ 16 + c * 2 ^ 8 + d)) bits)]).
Definition exDomainItem (d : string) : RuleItem := ItemDomain (NewRawDomainItem ([d], [])).

Definition ipRule (i : RuleItem) : abstractDefaultRule :=
  mkDefaultRule [] [] [] [] [i] [] [AllItemOf i] None false None.
Definition domainRule (i : RuleItem) : abstractDefaultRule :=
  mkDefaultRule [] [] [] [i] [] [] [AllItemOf i] None false None.
Definition ipMetadata : RuleSetMetadata := mkRuleSetMetadata false false true false false.

(** The rule-sets of the address filter tests, and one of two [ip_cidr] rules. *)
Definition mixedSet : RuleSet :=
  mkRuleSet "mixed" [DefaultHeadlessRule (domainRule (exDomainItem "ads.example"));
                     DefaultHeadlessRule (ipRule (cidr 1 1 1 0 24))] ipMetadata.
Definition twoIPSet : RuleSet :=
  mkRuleSet "two-ip" [DefaultHeadlessRule (ipRule (cidr 1 1 1 0 24));
                      DefaultHeadlessRule (ipRule (cidr 2 2 2 0 24))] ipMetadata.
Definition logicalIPSet : RuleSet :=
  mkRuleSet "logical-ip"
    [LogicalHeadlessRule (mkLogicalRule [DefaultHeadlessRule (ipRule (cidr 192 168 0 0 16))]
                            LogicalTypeOr false None)] ipMetadata.

Definition setRule (s : RuleSet) (src invert : bool) : abstractDefaultRule :=
  mkDefaultRule [] [] [] [] [] [] [AllItemRuleSet]
    (Some (mkRuleSetItem ["set"] [s] src false)) invert None.
Definition domainSetRule (d : string) (s : RuleSet) (invert : bool) : abstractDefaultRule :=
  mkDefaultRule [] [] [] [exDomainItem d] [] [] [AllItemOf (exDomainItem d); AllItemRuleSet]
    (Some (mkRuleSetItem ["set"] [s] false false)) invert None.
Definition dnsRule (r : abstractDefaultRule) : HeadlessRule := DefaultDNSRule r false "" false.

Definition queryFor (d : string) : InboundContext :=
  {| InboundContext_zero with m_Domain := d; m_QueryType := 1;
     m_Source := mkSocksaddr (Addr4 (192 * 2 ^ 24 + 168 * 2 ^ 16 + 256 + 10)) 5353 "" |}.
Definition answer (ip : list Z) : Msg :=
  {| msg_Id := 0; msg_Response := true; msg_Authoritative := false; msg_RecursionDesired := false;
     msg_RecursionAvailable := false; msg_Rcode := 0; msg_Question := [];
     msg_Answer := [mkRR (mkHeader "" 1 1 0) (RR_A ip)]; msg_Ns := []; msg_Extra := [] |}.

(** The rule [{rule_set: mixed, invert: true}] on a query that hits neither the
    domain nor, with the answer 8.8.8.8, the addresses. *)
Lemma match_is_semantics_witness :
  fst (HeadlessRule_Match env0 (dnsRule (setRule mixedSet false true)) (queryFor "ads.example")) = false
  /\ m_DeferredIPCIDRMatchGroups
       (snd (HeadlessRule_Match env0 (dnsRule (setRule mixedSet false true))
               (queryFor "ads.example"))) = 0.
Proof.
  destruct (match_is_semantics env0 (dnsRule (setRule mixedSet false true))
              (queryFor "ads.example") eq_refl eq_refl) as (H1 & H2 & _).
  split; [|exact H2]. rewrite H1. vm_compute. reflexivity.
Defined.

Lemma prematch_three_valued_witness :
  MatchAddressLimit env0 (dnsRule (setRule mixedSet false true)) (queryFor "ads.example")
    (Some (answer [8; 8; 8; 8])) = false.
Proof.
  assert (H := prematch_three_valued env0 (dnsRule (setRule mixedSet false true))
             (queryFor "ads.example") (Some (answer [8; 8; 8; 8])) eq_refl eq_refl eq_refl).
  destruct (LegacyPreMatch env0 (dnsRule (setRule mixedSet false true))
              (ResetRuleCache (queryFor "ads.example"))) as [b m1] eqn:E.
  apply H. vm_compute in E. congruence.
Defined.

(** The pre-match is not complete for an inverted rule that combines a host
    name with a rule-set of several [ip_cidr] rules: it gives the rule up for
    every query of that name, though the rule holds when the answer is in none
    of the prefixes. *)
Theorem inverted_prematch_gives_up :
  fst (LegacyPreMatch env0 (dnsRule (domainSetRule "cn.example" twoIPSet true))
         (ResetRuleCache (queryFor "cn.example"))) = false
  /\ MatchAddressLimit env0 (dnsRule (domainSetRule "cn.example" twoIPSet true))
       (queryFor "cn.example") (Some (answer [8; 8; 8; 8])) = true
  /\ spec_rule env0 (dnsRule (domainSetRule "cn.example" twoIPSet true))
       (limitMetadata (queryFor "cn.example") (Some (answer [8; 8; 8; 8]))) = true.
Proof. vm_compute. auto. Qed.

(** With [rule_set_ip_cidr_match_source], a rule-set whose [ip_cidr] rule sits
    inside a logical rule passes the pre-match undecided and is never checked
    against the answer, since the rule reports no address limit: the rule routes
    the query though it does not hold, neither for the source nor for the
    answer. *)
Theorem match_source_logical_unchecked :
  let rule := dnsRule (setRule logicalIPSet true false) in
  let q := queryFor "a.example" in
  let m := {| q with m_Source := mkSocksaddr (Addr4 (10 * 2 ^ 24 + 1)) 5353 "" |} in
  fst (LegacyPreMatch env0 rule (ResetRuleCache m)) = true
  /\ DNSRule_WithAddressLimit rule = false
  /\ spec_rule env0 rule (limitMetadata m (Some (answer [8; 8; 8; 8]))) = false.
Proof. vm_compute. auto. Qed.
End RuleExamples.
