(* ===== verification/RuleOptions.v ===== *)
(** * Rule options: [option/rule.go], [option/rule_dns.go], [option/rule_set.go],
      [route/rule/rule_nested_action.go]

    The configuration of rules as the JSON decoder leaves it, and the checks on
    it that come before the rules are built.  A [Listable] field is a list; the
    flag [EmptyLists] tells whether some list was given explicitly and is empty,
    which [reflect.DeepEqual] tells apart from an absent one. *)

From S2P Require Import Prelude.
From S2P Require Import GoText.
From S2P Require Import NetIP.
From S2P Require Import Libs.
From S2P Require Import Metadata.
From S2P Require Import RuleItems.
From S2P Require Import RuleAction.
From S2P Require Import RuleEngine.
Local Open Scope string_scope.
Local Open Scope Z_scope.

(** ** Route rules *)

Record RawDefaultRule := mkRawDefaultRule {
  r_Inbound : list string;
  r_IPVersion : Z;
  r_Network : list string;
  r_AuthUser : list string;
  r_Protocol : list string;
  r_Client : list string;
  r_Domain : list string;
  r_DomainSuffix : list string;
  r_DomainKeyword : list string;
  r_DomainRegex : list string;
  r_Geosite : list string;
  r_SourceGeoIP : list string;
  r_GeoIP : list string;
  r_SourceIPCIDR : list string;
  r_SourceIPIsPrivate : bool;
  r_IPCIDR : list string;
  r_IPIsPrivate : bool;
  r_SourcePort : list Z;
  r_SourcePortRange : list string;
  r_Port : list Z;
  r_PortRange : list string;
  r_ProcessName : list string;
  r_ProcessPath : list string;
  r_ProcessPathRegex : list string;
  r_PackageName : list string;
  r_PackageNameRegex : list string;
  r_User : list string;
  r_UserID : list Z;
  r_ClashMode : string;
  r_NetworkType : list Z;
  r_NetworkIsExpensive : bool;
  r_NetworkIsConstrained : bool;
  r_WIFISSID : list string;
  r_WIFIBSSID : list string;
  r_InterfaceAddress : option (list (string * list Prefix));
  r_NetworkInterfaceAddress : option (list (Z * list Prefix));
  r_DefaultInterfaceAddress : list Prefix;
  r_SourceMACAddress : list string;
  r_SourceHostname : list string;
  r_PreferredBy : list string;
  r_RuleSet : list string;
  r_RuleSetIPCIDRMatchSource : bool;
  r_Invert : bool;
  r_Deprecated_RulesetIPCIDRMatchSource : bool;
  r_EmptyLists : bool }.

(** An absent or empty map: [m != nil && m.Size() > 0] is its negation. *)
Definition typedMapEmpty {A} (m : option (list A)) : bool :=
  match m with None => true | Some l => negb (nonEmpty l) end.

(** The fields other than [Invert] that are not at their zero value. *)
Definition RawDefaultRule_set (r : RawDefaultRule) : list bool :=
  [nonEmpty (r_Inbound r); negb (r_IPVersion r =? 0); nonEmpty (r_Network r);
   nonEmpty (r_AuthUser r); nonEmpty (r_Protocol r); nonEmpty (r_Client r);
   nonEmpty (r_Domain r); nonEmpty (r_DomainSuffix r); nonEmpty (r_DomainKeyword r);
   nonEmpty (r_DomainRegex r); nonEmpty (r_Geosite r); nonEmpty (r_SourceGeoIP r);
   nonEmpty (r_GeoIP r); nonEmpty (r_SourceIPCIDR r); r_SourceIPIsPrivate r;
   nonEmpty (r_IPCIDR r); r_IPIsPrivate r; nonEmpty (r_SourcePort r);
   nonEmpty (r_SourcePortRange r); nonEmpty (r_Port r); nonEmpty (r_PortRange r);
   nonEmpty (r_ProcessName r); nonEmpty (r_ProcessPath r); nonEmpty (r_ProcessPathRegex r);
   nonEmpty (r_PackageName r); nonEmpty (r_PackageNameRegex r); nonEmpty (r_User r);
   nonEmpty (r_UserID r); negb (String.eqb (r_ClashMode r) ""); nonEmpty (r_NetworkType r);
   r_NetworkIsExpensive r; r_NetworkIsConstrained r; nonEmpty (r_WIFISSID r);
   nonEmpty (r_WIFIBSSID r); isSome (r_InterfaceAddress r); isSome (r_NetworkInterfaceAddress r);
   nonEmpty (r_DefaultInterfaceAddress r); nonEmpty (r_SourceMACAddress r);
   nonEmpty (r_SourceHostname r); nonEmpty (r_PreferredBy r); nonEmpty (r_RuleSet r);
   r_RuleSetIPCIDRMatchSource r; r_Deprecated_RulesetIPCIDRMatchSource r; r_EmptyLists r].

(** [option.DefaultRule]: the raw rule with its action. *)
Record DefaultRuleOptions := mkDefaultRuleOptions {
  dr_Raw : RawDefaultRule; dr_Action : RuleActionOptions }.

(** [reflect.DeepEqual(action, option.RuleAction{})]. *)
Definition ruleActionIsZero (a : RuleActionOptions) : bool :=
  match a with OptNone => true | _ => false end.

Definition DefaultRuleOptions_IsValid (r : DefaultRuleOptions) : bool :=
  existsb id (RawDefaultRule_set (dr_Raw r)) || negb (ruleActionIsZero (dr_Action r)).

(** [option.Rule] and [option.LogicalRule]. *)
Inductive RuleOptions :=
  | mkRuleOptions (Type' : string) (DefaultOptions : DefaultRuleOptions)
      (LogicalOptions : LogicalRuleOptions)
with LogicalRuleOptions :=
  | mkLogicalRuleOptions (Mode : string) (Rules : list RuleOptions) (Invert : bool)
      (Action : RuleActionOptions).

Fixpoint RuleOptions_IsValid (r : RuleOptions) : result bool :=
  match r with
  | mkRuleOptions typ d l =>
      if String.eqb typ RuleTypeDefault then Ok (DefaultRuleOptions_IsValid d)
      else if String.eqb typ RuleTypeLogical then LogicalRuleOptions_IsValid l
      else Err (GoPanic ("unknown rule type: " ++ typ)%string)
  end
with LogicalRuleOptions_IsValid (l : LogicalRuleOptions) : result bool :=
  match l with
  | mkLogicalRuleOptions _ rules _ _ =>
      if nonEmpty rules then all_result RuleOptions_IsValid rules else Ok false
  end.

(** ** DNS rules *)

Record DNSRuleMatchResponse := mkMatchResponse { mr_Enabled : bool; mr_Tag : string }.
Definition MatchResponse_IsEnabled (m : option DNSRuleMatchResponse) : bool :=
  match m with None => false | Some m => mr_Enabled m end.
Definition MatchResponse_ResponseTag (m : option DNSRuleMatchResponse) : string :=
  match m with None => "" | Some m => mr_Tag m end.

Record RawDefaultDNSRule := mkRawDefaultDNSRule {
  d_Inbound : list string;
  d_IPVersion : Z;
  d_QueryType : list Z;
  d_QueryClientSubnet : list Prefix;
  d_QueryDNSSEC : bool;
  d_Network : list string;
  d_AuthUser : list string;
  d_Protocol : list string;
  d_Domain : list string;
  d_DomainSuffix : list string;
  d_DomainKeyword : list string;
  d_DomainRegex : list string;
  d_SourceIPCIDR : list string;
  d_SourceIPIsPrivate : bool;
  d_SourcePort : list Z;
  d_SourcePortRange : list string;
  d_Port : list Z;
  d_PortRange : list string;
  d_ProcessName : list string;
  d_ProcessPath : list string;
  d_ProcessPathRegex : list string;
  d_PackageName : list string;
  d_PackageNameRegex : list string;
  d_User : list string;
  d_UserID : list Z;
  d_Outbound : list string;
  d_ClashMode : string;
  d_NetworkType : list Z;
  d_NetworkIsExpensive : bool;
  d_NetworkIsConstrained : bool;
  d_WIFISSID : list string;
  d_WIFIBSSID : list string;
  d_InterfaceAddress : option (list (string * list Prefix));
  d_NetworkInterfaceAddress : option (list (Z * list Prefix));
  d_DefaultInterfaceAddress : list Prefix;
  d_SourceMACAddress : list string;
  d_SourceHostname : list string;
  d_PreferredBy : list string;
  d_RuleSet : list string;
  d_RuleSetIPCIDRMatchSource : bool;
  d_MatchResponse : option DNSRuleMatchResponse;
  d_IPCIDR : list string;
  d_IPIsPrivate : bool;
  d_IPAcceptAny : bool;
  d_ResponseRcode : option Z;
  d_ResponseAnswer : list (option RR);
  d_ResponseNs : list (option RR);
  d_ResponseExtra : list (option RR);
  d_Invert : bool;
  d_Geosite : list string;
  d_SourceGeoIP : list string;
  d_GeoIP : list string;
  d_RuleSetIPCIDRAcceptEmpty : bool;
  d_Deprecated_RulesetIPCIDRMatchSource : bool;
  d_EmptyLists : bool }.

Definition RawDefaultDNSRule_set (r : RawDefaultDNSRule) : list bool :=
  [nonEmpty (d_Inbound r); negb (d_IPVersion r =? 0); nonEmpty (d_QueryType r);
   nonEmpty (d_QueryClientSubnet r); d_QueryDNSSEC r; nonEmpty (d_Network r);
   nonEmpty (d_AuthUser r); nonEmpty (d_Protocol r); nonEmpty (d_Domain r);
   nonEmpty (d_DomainSuffix r); nonEmpty (d_DomainKeyword r); nonEmpty (d_DomainRegex r);
   nonEmpty (d_SourceIPCIDR r); d_SourceIPIsPrivate r; nonEmpty (d_SourcePort r);
   nonEmpty (d_SourcePortRange r); nonEmpty (d_Port r); nonEmpty (d_PortRange r);
   nonEmpty (d_ProcessName r); nonEmpty (d_ProcessPath r); nonEmpty (d_ProcessPathRegex r);
   nonEmpty (d_PackageName r); nonEmpty (d_PackageNameRegex r); nonEmpty (d_User r);
   nonEmpty (d_UserID r); nonEmpty (d_Outbound r); negb (String.eqb (d_ClashMode r) "");
   nonEmpty (d_NetworkType r); d_NetworkIsExpensive r; d_NetworkIsConstrained r;
   nonEmpty (d_WIFISSID r); nonEmpty (d_WIFIBSSID r); isSome (d_InterfaceAddress r);
   isSome (d_NetworkInterfaceAddress r); nonEmpty (d_DefaultInterfaceAddress r);
   nonEmpty (d_SourceMACAddress r); nonEmpty (d_SourceHostname r); nonEmpty (d_PreferredBy r);
   nonEmpty (d_RuleSet r); d_RuleSetIPCIDRMatchSource r; isSome (d_MatchResponse r);
   nonEmpty (d_IPCIDR r); d_IPIsPrivate r; d_IPAcceptAny r; isSome (d_ResponseRcode r);
   nonEmpty (d_ResponseAnswer r); nonEmpty (d_ResponseNs r); nonEmpty (d_ResponseExtra r);
   nonEmpty (d_Geosite r); nonEmpty (d_SourceGeoIP r); nonEmpty (d_GeoIP r);
   d_RuleSetIPCIDRAcceptEmpty r; d_Deprecated_RulesetIPCIDRMatchSource r; d_EmptyLists r].

Record DefaultDNSRuleOptions := mkDefaultDNSRuleOptions {
  dd_Raw : RawDefaultDNSRule; dd_Action : DNSRuleActionOptions }.

Definition dnsRuleActionIsZero (a : DNSRuleActionOptions) : bool :=
  match da_Options a with DOptNone => negb (da_Race a) | _ => false end.

Definition DefaultDNSRuleOptions_IsValid (r : DefaultDNSRuleOptions) : bool :=
  existsb id (RawDefaultDNSRule_set (dd_Raw r)) || negb (dnsRuleActionIsZero (dd_Action r)).

Inductive DNSRuleOptions :=
  | mkDNSRuleOptions (Type' : string) (DefaultOptions : DefaultDNSRuleOptions)
      (LogicalOptions : LogicalDNSRuleOptions)
with LogicalDNSRuleOptions :=
  | mkLogicalDNSRuleOptions (Mode : string) (Rules : list DNSRuleOptions) (Invert : bool)
      (Action : DNSRuleActionOptions).

Fixpoint DNSRuleOptions_IsValid (r : DNSRuleOptions) : result bool :=
  match r with
  | mkDNSRuleOptions typ d l =>
      if String.eqb typ RuleTypeDefault then Ok (DefaultDNSRuleOptions_IsValid d)
      else if String.eqb typ RuleTypeLogical then LogicalDNSRuleOptions_IsValid l
      else Err (GoPanic ("unknown DNS rule type: " ++ typ)%string)
  end
with LogicalDNSRuleOptions_IsValid (l : LogicalDNSRuleOptions) : result bool :=
  match l with
  | mkLogicalDNSRuleOptions _ rules _ _ =>
      if nonEmpty rules then all_result DNSRuleOptions_IsValid rules else Ok false
  end.

(** ** Headless rules *)

Section headless.
Context `{L : Libs}.

(** [h_EmptyIPCIDR] and [h_EmptyLists] tell whether [IPCIDR], respectively
    another list, was given explicitly and is empty. *)
Record DefaultHeadlessRuleOptions := mkDefaultHeadlessRuleOptions {
  h_QueryType : list Z;
  h_Network : list string;
  h_Domain : list string;
  h_DomainSuffix : list string;
  h_DomainKeyword : list string;
  h_DomainRegex : list string;
  h_SourceIPCIDR : list string;
  h_IPCIDR : list string;
  h_SourcePort : list Z;
  h_SourcePortRange : list string;
  h_Port : list Z;
  h_PortRange : list string;
  h_ProcessName : list string;
  h_ProcessPath : list string;
  h_ProcessPathRegex : list string;
  h_PackageName : list string;
  h_PackageNameRegex : list string;
  h_NetworkType : list Z;
  h_NetworkIsExpensive : bool;
  h_NetworkIsConstrained : bool;
  h_WIFISSID : list string;
  h_WIFIBSSID : list string;
  h_NetworkInterfaceAddress : option (list (Z * list Prefix));
  h_DefaultInterfaceAddress : list Prefix;
  h_Invert : bool;
  h_DomainMatcher : option DomainMatcher;
  h_SourceIPSet : option IPSet;
  h_IPSet : option IPSet;
  h_AdGuardDomain : list string;
  h_AdGuardDomainMatcher : option AdGuardMatcher;
  h_EmptyIPCIDR : bool;
  h_EmptyLists : bool }.

(** The fields other than [Invert], [IPCIDR] and [IPSet] that are not zero. *)
Definition DefaultHeadlessRule_otherSet (r : DefaultHeadlessRuleOptions) : list bool :=
  [nonEmpty (h_QueryType r); nonEmpty (h_Network r); nonEmpty (h_Domain r);
   nonEmpty (h_DomainSuffix r); nonEmpty (h_DomainKeyword r); nonEmpty (h_DomainRegex r);
   nonEmpty (h_SourceIPCIDR r); nonEmpty (h_SourcePort r); nonEmpty (h_SourcePortRange r);
   nonEmpty (h_Port r); nonEmpty (h_PortRange r); nonEmpty (h_ProcessName r);
   nonEmpty (h_ProcessPath r); nonEmpty (h_ProcessPathRegex r); nonEmpty (h_PackageName r);
   nonEmpty (h_PackageNameRegex r); nonEmpty (h_NetworkType r); h_NetworkIsExpensive r;
   h_NetworkIsConstrained r; nonEmpty (h_WIFISSID r); nonEmpty (h_WIFIBSSID r);
   isSome (h_NetworkInterfaceAddress r); nonEmpty (h_DefaultInterfaceAddress r);
   isSome (h_DomainMatcher r); isSome (h_SourceIPSet r); nonEmpty (h_AdGuardDomain r);
   isSome (h_AdGuardDomainMatcher r); h_EmptyLists r].

Definition DefaultHeadlessRuleOptions_IsValid (r : DefaultHeadlessRuleOptions) : bool :=
  existsb id (DefaultHeadlessRule_otherSet r)
  || nonEmpty (h_IPCIDR r) || isSome (h_IPSet r) || h_EmptyIPCIDR r.

Inductive HeadlessRuleOptions :=
  | mkHeadlessRuleOptions (Type' : string) (DefaultOptions : DefaultHeadlessRuleOptions)
      (LogicalOptions : LogicalHeadlessRuleOptions)
with LogicalHeadlessRuleOptions :=
  | mkLogicalHeadlessRuleOptions (Mode : string) (Rules : list HeadlessRuleOptions) (Invert : bool).

Fixpoint HeadlessRuleOptions_IsValid (r : HeadlessRuleOptions) : result bool :=
  match r with
  | mkHeadlessRuleOptions typ d l =>
      if String.eqb typ RuleTypeDefault || String.eqb typ "" then
        Ok (DefaultHeadlessRuleOptions_IsValid d)
      else if String.eqb typ RuleTypeLogical then LogicalHeadlessRuleOptions_IsValid l
      else Err (GoPanic ("unknown rule type: " ++ typ)%string)
  end
with LogicalHeadlessRuleOptions_IsValid (l : LogicalHeadlessRuleOptions) : result bool :=
  match l with
  | mkLogicalHeadlessRuleOptions _ rules _ =>
      if nonEmpty rules then all_result HeadlessRuleOptions_IsValid rules else Ok false
  end.

(** ** Rule-set metadata ([route/rule/rule_set.go]) *)

Fixpoint HasHeadlessRule1 (cond : DefaultHeadlessRuleOptions -> bool) (rule : HeadlessRuleOptions) :
    bool :=
  match rule with
  | mkHeadlessRuleOptions typ d (mkLogicalHeadlessRuleOptions _ rules _) =>
      if String.eqb typ RuleTypeDefault then cond d
      else if String.eqb typ RuleTypeLogical then existsb (HasHeadlessRule1 cond) rules
      else false
  end.
Definition HasHeadlessRule (rules : list HeadlessRuleOptions)
    (cond : DefaultHeadlessRuleOptions -> bool) : bool :=
  existsb (HasHeadlessRule1 cond) rules.

Definition isProcessHeadlessRule (rule : DefaultHeadlessRuleOptions) : bool :=
  nonEmpty (h_ProcessName rule) || nonEmpty (h_ProcessPath rule)
  || nonEmpty (h_ProcessPathRegex rule) || nonEmpty (h_PackageName rule)
  || nonEmpty (h_PackageNameRegex rule).
Definition isWIFIHeadlessRule (rule : DefaultHeadlessRuleOptions) : bool :=
  nonEmpty (h_WIFISSID rule) || nonEmpty (h_WIFIBSSID rule).
Definition isIPCIDRHeadlessRule (rule : DefaultHeadlessRuleOptions) : bool :=
  nonEmpty (h_IPCIDR rule) || isSome (h_IPSet rule).
Definition isDNSQueryTypeHeadlessRule (rule : DefaultHeadlessRuleOptions) : bool :=
  nonEmpty (h_QueryType rule).
Definition isNonIPCIDRHeadlessRule (rule : DefaultHeadlessRuleOptions) : bool :=
  existsb id (DefaultHeadlessRule_otherSet rule).

Definition buildRuleSetMetadata (headlessRules : list HeadlessRuleOptions) : RuleSetMetadata := {|
  ContainsProcessRule := HasHeadlessRule headlessRules isProcessHeadlessRule;
  ContainsWIFIRule := HasHeadlessRule headlessRules isWIFIHeadlessRule;
  ContainsIPCIDRRule := HasHeadlessRule headlessRules isIPCIDRHeadlessRule;
  ContainsDNSQueryTypeRule := HasHeadlessRule headlessRules isDNSQueryTypeHeadlessRule;
  ContainsNonIPCIDRRule := HasHeadlessRule headlessRules isNonIPCIDRHeadlessRule |}.
End headless.

(** ** Actions of nested rules ([route/rule/rule_nested_action.go]) *)

Definition RouteRuleActionNestedUnsupportedMessage : string :=
  "rule action is not supported in nested rules".
Definition DNSRuleActionNestedUnsupportedMessage : string :=
  "DNS rule action is not supported in nested rules".

Definition ruleHasConfiguredAction (rule : RuleOptions) : bool :=
  match rule with
  | mkRuleOptions typ d (mkLogicalRuleOptions _ _ _ a) =>
      if String.eqb typ "" || String.eqb typ RuleTypeDefault
      then negb (ruleActionIsZero (dr_Action d))
      else if String.eqb typ RuleTypeLogical then negb (ruleActionIsZero a)
      else false
  end.

(** The text of a loop index in an error. *)
Definition indexMessage (prefix : string) (i : nat) (suffix : string) : string :=
  (prefix ++ strconv.Itoa (Z.of_nat i) ++ suffix)%string.
Definition subRuleMessage (i : nat) : string := indexMessage "sub rule[" i "]".

Fixpoint validateNoNestedRuleActions (rule : RuleOptions) (nested : bool) : result unit :=
  if nested && ruleHasConfiguredAction rule then Err (E_New RouteRuleActionNestedUnsupportedMessage)
  else
    match rule with
    | mkRuleOptions typ _ (mkLogicalRuleOptions _ rules _ _) =>
        if negb (String.eqb typ RuleTypeLogical) then Ok tt
        else
          let? _ := mapi_result (fun i subRule =>
            result_cause (validateNoNestedRuleActions subRule true) (subRuleMessage i)) 0 rules in
          Ok tt
    end.
Definition ValidateNoNestedRuleActions (rule : RuleOptions) : result unit :=
  validateNoNestedRuleActions rule false.

Definition dnsRuleHasConfiguredAction (rule : DNSRuleOptions) : bool :=
  match rule with
  | mkDNSRuleOptions typ d (mkLogicalDNSRuleOptions _ _ _ a) =>
      if String.eqb typ "" || String.eqb typ RuleTypeDefault
      then negb (dnsRuleActionIsZero (dd_Action d))
      else if String.eqb typ RuleTypeLogical then negb (dnsRuleActionIsZero a)
      else false
  end.

Fixpoint validateNoNestedDNSRuleActions (rule : DNSRuleOptions) (nested : bool) : result unit :=
  if nested && dnsRuleHasConfiguredAction rule then Err (E_New DNSRuleActionNestedUnsupportedMessage)
  else
    match rule with
    | mkDNSRuleOptions typ _ (mkLogicalDNSRuleOptions _ rules _ _) =>
        if negb (String.eqb typ RuleTypeLogical) then Ok tt
        else
          let? _ := mapi_result (fun i subRule =>
            result_cause (validateNoNestedDNSRuleActions subRule true) (subRuleMessage i)) 0 rules in
          Ok tt
    end.
Definition ValidateNoNestedDNSRuleActions (rule : DNSRuleOptions) : result unit :=
  validateNoNestedDNSRuleActions rule false.
