(* ===== verification/RuleBuild.v ===== *)
(** * Building rules: [route/rule/rule_default.go], [rule_dns.go], [rule_headless.go],
      [rule_set_local.go] (reload)

    The constructors of route, DNS and headless rules from their options.  Each
    option that is set appends one item to its group and to [allItems], in the
    order of the code; the first error ends the construction. *)

From S2P Require Import Prelude.
From S2P Require Import GoText.
From S2P Require Import NetIP.
From S2P Require Import Libs.
From S2P Require Import Metadata.
From S2P Require Import RuleItems.
From S2P Require Import RuleAction.
From S2P Require Import RuleEngine.
From S2P Require Import RuleSpec.
From S2P Require Import RuleSound.
From S2P Require Import RuleTheorems.
From S2P Require Import RuleOptions.
Local Open Scope string_scope.
Local Open Scope Z_scope.

Section build.
Context `{L : Libs}.

(** The group an item is appended to. *)
Inductive ruleField :=
  | F_items | F_sourceAddress | F_sourcePort | F_destinationAddress | F_destinationIPCIDR
  | F_destinationPort.

(** [rule.<group> = append(rule.<group>, item); rule.allItems = append(rule.allItems, item)]. *)
Definition appendItem (f : ruleField) (item : RuleItem) (r : abstractDefaultRule) :
    abstractDefaultRule :=
  match r with
  | mkDefaultRule its sa sp da dc dp all rs inv act =>
      let all := (all ++ [AllItemOf item])%list in
      match f with
      | F_items => mkDefaultRule (its ++ [item]) sa sp da dc dp all rs inv act
      | F_sourceAddress => mkDefaultRule its (sa ++ [item]) sp da dc dp all rs inv act
      | F_sourcePort => mkDefaultRule its sa (sp ++ [item]) da dc dp all rs inv act
      | F_destinationAddress => mkDefaultRule its sa sp (da ++ [item]) dc dp all rs inv act
      | F_destinationIPCIDR => mkDefaultRule its sa sp da (dc ++ [item]) dp all rs inv act
      | F_destinationPort => mkDefaultRule its sa sp da dc (dp ++ [item]) all rs inv act
      end%list
  end.

(** [rule.ruleSetItem = item; rule.allItems = append(rule.allItems, item)]. *)
Definition setRuleSetItem (item : RuleSetItem) (r : abstractDefaultRule) : abstractDefaultRule :=
  match r with
  | mkDefaultRule its sa sp da dc dp all _ inv act =>
      mkDefaultRule its sa sp da dc dp (all ++ [AllItemRuleSet])%list (Some item) inv act
  end.

Definition emptyRule (invert : bool) (action : option RuleAction) : abstractDefaultRule :=
  mkDefaultRule [] [] [] [] [] [] [] None invert action.

(** [if cond { item, err := mk(); if err != nil { return err }; append }]. *)
Definition addWhen (cond : bool) (f : ruleField) (item : result RuleItem) (r : abstractDefaultRule) :
    result abstractDefaultRule :=
  if cond then let? i := item in Ok (appendItem f i r) else Ok r.

(** [if cond { return nil, err }]. *)
Definition failWhen (cond : bool) (msg : string) (r : abstractDefaultRule) :
    result abstractDefaultRule :=
  if cond then Err (E_New msg) else Ok r.

Definition NewRuleSetItem (tagList : list string) (matchSource acceptEmpty : bool) : RuleSetItem :=
  mkRuleSetItem tagList [] matchSource acceptEmpty.

(** The item constructors, with the error context their callers add. *)
Definition domainItem (domain domainSuffix : list string) : result RuleItem :=
  let? i := NewDomainItem domain domainSuffix in Ok (ItemDomain i).
Definition domainRegexItem (l : list string) : result RuleItem :=
  let? i := NewDomainRegexItem l in Ok (ItemDomainRegex i).
Definition cidrItem (isSource : bool) (l : list string) (msg : string) : result RuleItem :=
  let? i := result_cause (NewIPCIDRItem isSource l) msg in Ok (ItemIPCIDR i).
Definition portRangeItem (isSource : bool) (l : list string) (msg : string) : result RuleItem :=
  let? i := result_cause (NewPortRangeItem isSource l) msg in Ok (ItemPortRange i).
Definition processPathRegexItem (l : list string) : result RuleItem :=
  let? i := result_cause (NewProcessPathRegexItem l) "process_path_regex" in
  Ok (ItemProcessPathRegex i).
Definition packageNameRegexItem (l : list string) : result RuleItem :=
  let? i := result_cause (NewPackageNameRegexItem l) "package_name_regex" in
  Ok (ItemPackageNameRegex i).
(** [ip_version] is 4 or 6. *)
Definition ipVersionItem (version : Z) : result RuleItem :=
  if (version =? 4) || (version =? 6) then Ok (ItemIPVersion (NewIPVersionItem (version =? 6)))
  else Err (E_New ("invalid ip version: " ++ strconv.Itoa version)%string).

Definition geositeRemoved : string :=
  "geosite database is deprecated in sing-box 1.8.0 and removed in sing-box 1.12.0".
Definition geoipRemoved : string :=
  "geoip database is deprecated in sing-box 1.8.0 and removed in sing-box 1.12.0".
Definition matchSourceRemoved : string :=
  "rule_set_ipcidr_match_source is deprecated in sing-box 1.10.0 and removed in sing-box 1.11.0".

(** ** Route rules *)

(** [platformSupported] and [dialer_New] are as in [NewRuleAction]. *)
Context (platformSupported : bool) (dialer_New : DirectActionOptions -> option GoError).

(** The items of [NewDefaultRule], before the rule-set item. *)
Definition defaultRuleItems (o : RawDefaultRule) (r : abstractDefaultRule) :
    result abstractDefaultRule :=
  let? r := addWhen (nonEmpty (r_Inbound o)) F_items
    (Ok (ItemInbound (NewInboundRule (r_Inbound o)))) r in
  let? r := addWhen (0 <? r_IPVersion o) F_items
    (ipVersionItem (r_IPVersion o)) r in
  let? r := addWhen (nonEmpty (r_Network o)) F_items
    (Ok (ItemNetwork (NewNetworkItem (r_Network o)))) r in
  let? r := addWhen (nonEmpty (r_AuthUser o)) F_items
    (Ok (ItemAuthUser (NewAuthUserItem (r_AuthUser o)))) r in
  let? r := addWhen (nonEmpty (r_Protocol o)) F_items
    (Ok (ItemProtocol (NewProtocolItem (r_Protocol o)))) r in
  let? r := addWhen (nonEmpty (r_Client o)) F_items
    (Ok (ItemClient (NewClientItem (r_Client o)))) r in
  let? r := addWhen (nonEmpty (r_Domain o) || nonEmpty (r_DomainSuffix o)) F_destinationAddress
    (domainItem (r_Domain o) (r_DomainSuffix o)) r in
  let? r := addWhen (nonEmpty (r_DomainKeyword o)) F_destinationAddress
    (Ok (ItemDomainKeyword (NewDomainKeywordItem (r_DomainKeyword o)))) r in
  let? r := addWhen (nonEmpty (r_DomainRegex o)) F_destinationAddress
    (domainRegexItem (r_DomainRegex o)) r in
  let? r := failWhen (nonEmpty (r_Geosite o)) geositeRemoved r in
  let? r := failWhen (nonEmpty (r_SourceGeoIP o)) geoipRemoved r in
  let? r := failWhen (nonEmpty (r_GeoIP o)) geoipRemoved r in
  let? r := addWhen (nonEmpty (r_SourceIPCIDR o)) F_sourceAddress
    (cidrItem true (r_SourceIPCIDR o) "source_ip_cidr") r in
  let? r := addWhen (r_SourceIPIsPrivate o) F_sourceAddress
    (Ok (ItemIPIsPrivate (NewIPIsPrivateItem true))) r in
  let? r := addWhen (nonEmpty (r_IPCIDR o)) F_destinationIPCIDR
    (cidrItem false (r_IPCIDR o) "ipcidr") r in
  let? r := addWhen (r_IPIsPrivate o) F_destinationIPCIDR
    (Ok (ItemIPIsPrivate (NewIPIsPrivateItem false))) r in
  let? r := addWhen (nonEmpty (r_SourcePort o)) F_sourcePort
    (Ok (ItemPort (NewPortItem true (r_SourcePort o)))) r in
  let? r := addWhen (nonEmpty (r_SourcePortRange o)) F_sourcePort
    (portRangeItem true (r_SourcePortRange o) "source_port_range") r in
  let? r := addWhen (nonEmpty (r_Port o)) F_destinationPort
    (Ok (ItemPort (NewPortItem false (r_Port o)))) r in
  let? r := addWhen (nonEmpty (r_PortRange o)) F_destinationPort
    (portRangeItem false (r_PortRange o) "port_range") r in
  let? r := addWhen (nonEmpty (r_ProcessName o)) F_items
    (Ok (ItemProcessName (NewProcessItem (r_ProcessName o)))) r in
  let? r := addWhen (nonEmpty (r_ProcessPath o)) F_items
    (Ok (ItemProcessPath (NewProcessPathItem (r_ProcessPath o)))) r in
  let? r := addWhen (nonEmpty (r_ProcessPathRegex o)) F_items
    (processPathRegexItem (r_ProcessPathRegex o)) r in
  let? r := addWhen (nonEmpty (r_PackageName o)) F_items
    (Ok (ItemPackageName (NewPackageNameItem (r_PackageName o)))) r in
  let? r := addWhen (nonEmpty (r_PackageNameRegex o)) F_items
    (packageNameRegexItem (r_PackageNameRegex o)) r in
  let? r := addWhen (nonEmpty (r_User o)) F_items
    (Ok (ItemUser (NewUserItem (r_User o)))) r in
  let? r := addWhen (nonEmpty (r_UserID o)) F_items
    (Ok (ItemUserId (NewUserIDItem (r_UserID o)))) r in
  let? r := addWhen (negb (String.eqb (r_ClashMode o) "")) F_items
    (Ok (ItemClashMode (NewClashModeItem (r_ClashMode o)))) r in
  let? r := addWhen (nonEmpty (r_NetworkType o)) F_items
    (Ok (ItemNetworkType (r_NetworkType o))) r in
  let? r := addWhen (r_NetworkIsExpensive o) F_items
    (Ok ItemNetworkIsExpensive) r in
  let? r := addWhen (r_NetworkIsConstrained o) F_items
    (Ok ItemNetworkIsConstrained) r in
  let? r := addWhen (nonEmpty (r_WIFISSID o)) F_items
    (Ok (ItemWIFISSID (NewWIFISSIDItem (r_WIFISSID o)))) r in
  let? r := addWhen (nonEmpty (r_WIFIBSSID o)) F_items
    (Ok (ItemWIFIBSSID (NewWIFIBSSIDItem (r_WIFIBSSID o)))) r in
  let? r := addWhen (negb (typedMapEmpty (r_InterfaceAddress o))) F_items
    (Ok (ItemInterfaceAddress (NewInterfaceAddressItem (default [] (r_InterfaceAddress o))))) r in
  let? r := addWhen (negb (typedMapEmpty (r_NetworkInterfaceAddress o))) F_items
    (Ok (ItemNetworkInterfaceAddress
           (NewNetworkInterfaceAddressItem (default [] (r_NetworkInterfaceAddress o))))) r in
  let? r := addWhen (nonEmpty (r_DefaultInterfaceAddress o)) F_items
    (Ok (ItemDefaultInterfaceAddress (r_DefaultInterfaceAddress o))) r in
  let? r := addWhen (nonEmpty (r_SourceMACAddress o)) F_items
    (Ok (ItemSourceMACAddress (NewSourceMACAddressItem (r_SourceMACAddress o)))) r in
  let? r := addWhen (nonEmpty (r_SourceHostname o)) F_items
    (Ok (ItemSourceHostname (NewSourceHostnameItem (r_SourceHostname o)))) r in
  let? r := addWhen (nonEmpty (r_PreferredBy o)) F_items
    (Ok (ItemPreferredBy (NewPreferredByItem (r_PreferredBy o)))) r in
  Ok r.

Definition NewDefaultRule (options : DefaultRuleOptions) : result HeadlessRule :=
  let o := dr_Raw options in
  let? action := result_cause (NewRuleAction platformSupported dialer_New (dr_Action options))
                   "action" in
  let? r := defaultRuleItems o (emptyRule (r_Invert o) action) in
  if nonEmpty (r_RuleSet o) then
    if r_Deprecated_RulesetIPCIDRMatchSource o then Err (E_New matchSourceRemoved)
    else
      Ok (DefaultRule
            (setRuleSetItem (NewRuleSetItem (r_RuleSet o) (r_RuleSetIPCIDRMatchSource o) false) r))
  else Ok (DefaultRule r).

(** The mode of a logical rule. *)
Definition checkMode (mode : string) : result string :=
  if String.eqb mode LogicalTypeAnd then Ok LogicalTypeAnd
  else if String.eqb mode LogicalTypeOr then Ok LogicalTypeOr
  else Err (E_New ("unknown logical mode: " ++ mode)%string).

(** The check of [NewRule] on the action: a route action names an outbound. *)
Definition missingOutbound (action : RuleActionOptions) : bool :=
  match action with
  | OptNone => true
  | OptRoute outbound _ => String.eqb outbound ""
  | _ => false
  end.

Fixpoint NewRule (options : RuleOptions) (checkOutbound : bool) : result HeadlessRule :=
  match options with
  | mkRuleOptions typ d l =>
      if String.eqb typ "" || String.eqb typ RuleTypeDefault then
        if negb (DefaultRuleOptions_IsValid d) then Err (E_New "missing conditions")
        else if missingOutbound (dr_Action d) && checkOutbound then
          Err (E_New "missing outbound field")
        else NewDefaultRule d
      else if String.eqb typ RuleTypeLogical then
        let? valid := LogicalRuleOptions_IsValid l in
        match l with
        | mkLogicalRuleOptions _ _ _ action =>
            if negb valid then Err (E_New "missing conditions")
            else if missingOutbound action && checkOutbound then Err (E_New "missing outbound field")
            else NewLogicalRule l
        end
      else Err (E_New ("unknown rule type: " ++ typ)%string)
  end
with NewLogicalRule (l : LogicalRuleOptions) : result HeadlessRule :=
  match l with
  | mkLogicalRuleOptions mode rules invert action =>
      let? action := result_cause (NewRuleAction platformSupported dialer_New action) "action" in
      let? mode := checkMode mode in
      let? rules := mapi_result (fun i subOptions =>
        let? _ := result_cause (validateNoNestedRuleActions subOptions true) (subRuleMessage i) in
        result_cause (NewRule subOptions false) (subRuleMessage i)) 0 rules in
      Ok (LogicalRule (mkLogicalRule rules mode invert action))
  end.

(** ** Headless rules *)

(** [hasNetworkManager] tells whether the context has a network manager. *)
Definition NewDefaultHeadlessRuleItems (hasNetworkManager : bool) (o : DefaultHeadlessRuleOptions)
    (r : abstractDefaultRule) : result abstractDefaultRule :=
  let? r := addWhen (nonEmpty (h_QueryType o)) F_items
    (Ok (ItemQueryType (NewQueryTypeItem (h_QueryType o)))) r in
  let? r := addWhen (nonEmpty (h_Network o)) F_items
    (Ok (ItemNetwork (NewNetworkItem (h_Network o)))) r in
  let? r :=
    if nonEmpty (h_Domain o) || nonEmpty (h_DomainSuffix o) then
      addWhen true F_destinationAddress (domainItem (h_Domain o) (h_DomainSuffix o)) r
    else match h_DomainMatcher o with
         | Some matcher =>
             addWhen true F_destinationAddress (Ok (ItemDomain (NewRawDomainItem matcher))) r
         | None => Ok r
         end in
  let? r := addWhen (nonEmpty (h_DomainKeyword o)) F_destinationAddress
    (Ok (ItemDomainKeyword (NewDomainKeywordItem (h_DomainKeyword o)))) r in
  let? r := addWhen (nonEmpty (h_DomainRegex o)) F_destinationAddress
    (result_cause (domainRegexItem (h_DomainRegex o)) "domain_regex") r in
  let? r :=
    if nonEmpty (h_SourceIPCIDR o) then
      addWhen true F_sourceAddress (cidrItem true (h_SourceIPCIDR o) "source_ip_cidr") r
    else match h_SourceIPSet o with
         | Some set => addWhen true F_sourceAddress (Ok (ItemIPCIDR (NewRawIPCIDRItem true set))) r
         | None => Ok r
         end in
  let? r :=
    if nonEmpty (h_IPCIDR o) then
      addWhen true F_destinationIPCIDR (cidrItem false (h_IPCIDR o) "ipcidr") r
    else match h_IPSet o with
         | Some set =>
             addWhen true F_destinationIPCIDR (Ok (ItemIPCIDR (NewRawIPCIDRItem false set))) r
         | None => Ok r
         end in
  let? r := addWhen (nonEmpty (h_SourcePort o)) F_sourcePort
    (Ok (ItemPort (NewPortItem true (h_SourcePort o)))) r in
  let? r := addWhen (nonEmpty (h_SourcePortRange o)) F_sourcePort
    (portRangeItem true (h_SourcePortRange o) "source_port_range") r in
  let? r := addWhen (nonEmpty (h_Port o)) F_destinationPort
    (Ok (ItemPort (NewPortItem false (h_Port o)))) r in
  let? r := addWhen (nonEmpty (h_PortRange o)) F_destinationPort
    (portRangeItem false (h_PortRange o) "port_range") r in
  let? r := addWhen (nonEmpty (h_ProcessName o)) F_items
    (Ok (ItemProcessName (NewProcessItem (h_ProcessName o)))) r in
  let? r := addWhen (nonEmpty (h_ProcessPath o)) F_items
    (Ok (ItemProcessPath (NewProcessPathItem (h_ProcessPath o)))) r in
  let? r := addWhen (nonEmpty (h_ProcessPathRegex o)) F_items
    (processPathRegexItem (h_ProcessPathRegex o)) r in
  let? r := addWhen (nonEmpty (h_PackageName o)) F_items
    (Ok (ItemPackageName (NewPackageNameItem (h_PackageName o)))) r in
  let? r := addWhen (nonEmpty (h_PackageNameRegex o)) F_items
    (packageNameRegexItem (h_PackageNameRegex o)) r in
  let? r := addWhen (hasNetworkManager && nonEmpty (h_NetworkType o)) F_items
    (Ok (ItemNetworkType (h_NetworkType o))) r in
  let? r := addWhen (hasNetworkManager && h_NetworkIsExpensive o) F_items
    (Ok ItemNetworkIsExpensive) r in
  let? r := addWhen (hasNetworkManager && h_NetworkIsConstrained o) F_items
    (Ok ItemNetworkIsConstrained) r in
  let? r := addWhen (hasNetworkManager && nonEmpty (h_WIFISSID o)) F_items
    (Ok (ItemWIFISSID (NewWIFISSIDItem (h_WIFISSID o)))) r in
  let? r := addWhen (hasNetworkManager && nonEmpty (h_WIFIBSSID o)) F_items
    (Ok (ItemWIFIBSSID (NewWIFIBSSIDItem (h_WIFIBSSID o)))) r in
  let? r := addWhen (hasNetworkManager && negb (typedMapEmpty (h_NetworkInterfaceAddress o))) F_items
    (Ok (ItemNetworkInterfaceAddress
           (NewNetworkInterfaceAddressItem (default [] (h_NetworkInterfaceAddress o))))) r in
  let? r := addWhen (hasNetworkManager && nonEmpty (h_DefaultInterfaceAddress o)) F_items
    (Ok (ItemDefaultInterfaceAddress (h_DefaultInterfaceAddress o))) r in
  if nonEmpty (h_AdGuardDomain o) then
    addWhen true F_destinationAddress
      (Ok (ItemAdGuardDomain (NewAdGuardDomainItem (h_AdGuardDomain o)))) r
  else match h_AdGuardDomainMatcher o with
       | Some matcher =>
           addWhen true F_destinationAddress
             (Ok (ItemAdGuardDomain (NewRawAdGuardDomainItem matcher))) r
       | None => Ok r
       end.

Definition NewDefaultHeadlessRule (hasNetworkManager : bool) (o : DefaultHeadlessRuleOptions) :
    result HeadlessRule :=
  let? r := NewDefaultHeadlessRuleItems hasNetworkManager o (emptyRule (h_Invert o) None) in
  Ok (DefaultHeadlessRule r).

Fixpoint NewHeadlessRule (hasNetworkManager : bool) (options : HeadlessRuleOptions) :
    result HeadlessRule :=
  match options with
  | mkHeadlessRuleOptions typ d l =>
      if String.eqb typ "" || String.eqb typ RuleTypeDefault then
        if negb (DefaultHeadlessRuleOptions_IsValid d) then Err (E_New "missing conditions")
        else NewDefaultHeadlessRule hasNetworkManager d
      else if String.eqb typ RuleTypeLogical then
        let? valid := LogicalHeadlessRuleOptions_IsValid l in
        if negb valid then Err (E_New "missing conditions")
        else NewLogicalHeadlessRule hasNetworkManager l
      else Err (E_New ("unknown rule type: " ++ typ)%string)
  end
with NewLogicalHeadlessRule (hasNetworkManager : bool) (l : LogicalHeadlessRuleOptions) :
    result HeadlessRule :=
  match l with
  | mkLogicalHeadlessRuleOptions mode rules invert =>
      let? mode := checkMode mode in
      let? rules := mapi_result (fun i subRule =>
        result_cause (NewHeadlessRule hasNetworkManager subRule) (subRuleMessage i)) 0 rules in
      Ok (LogicalHeadlessRule (mkLogicalRule rules mode invert None))
  end.

(** ** DNS rules *)

Definition defaultDNSRuleItems (o : RawDefaultDNSRule) (r : abstractDefaultRule) :
    result abstractDefaultRule :=
  let? r := addWhen (nonEmpty (d_Inbound o)) F_items
    (Ok (ItemInbound (NewInboundRule (d_Inbound o)))) r in
  let? r := addWhen (0 <? d_IPVersion o) F_items
    (ipVersionItem (d_IPVersion o)) r in
  let? r := addWhen (nonEmpty (d_QueryType o)) F_items
    (Ok (ItemQueryType (NewQueryTypeItem (d_QueryType o)))) r in
  let? r := addWhen (nonEmpty (d_QueryClientSubnet o)) F_items
    (Ok (ItemQueryClientSubnet (NewQueryClientSubnetItem (d_QueryClientSubnet o)))) r in
  let? r := addWhen (d_QueryDNSSEC o) F_items
    (Ok ItemQueryDNSSEC) r in
  let? r := addWhen (nonEmpty (d_Network o)) F_items
    (Ok (ItemNetwork (NewNetworkItem (d_Network o)))) r in
  let? r := addWhen (nonEmpty (d_AuthUser o)) F_items
    (Ok (ItemAuthUser (NewAuthUserItem (d_AuthUser o)))) r in
  let? r := addWhen (nonEmpty (d_Protocol o)) F_items
    (Ok (ItemProtocol (NewProtocolItem (d_Protocol o)))) r in
  let? r := addWhen (nonEmpty (d_Domain o) || nonEmpty (d_DomainSuffix o)) F_destinationAddress
    (domainItem (d_Domain o) (d_DomainSuffix o)) r in
  let? r := addWhen (nonEmpty (d_DomainKeyword o)) F_destinationAddress
    (Ok (ItemDomainKeyword (NewDomainKeywordItem (d_DomainKeyword o)))) r in
  let? r := addWhen (nonEmpty (d_DomainRegex o)) F_destinationAddress
    (result_cause (domainRegexItem (d_DomainRegex o)) "domain_regex") r in
  let? r := failWhen (nonEmpty (d_Geosite o)) geositeRemoved r in
  let? r := failWhen (nonEmpty (d_SourceGeoIP o)) geoipRemoved r in
  let? r := failWhen (nonEmpty (d_GeoIP o)) geoipRemoved r in
  let? r := addWhen (nonEmpty (d_SourceIPCIDR o)) F_sourceAddress
    (cidrItem true (d_SourceIPCIDR o) "source_ip_cidr") r in
  let? r := addWhen (nonEmpty (d_IPCIDR o)) F_destinationIPCIDR
    (cidrItem false (d_IPCIDR o) "ip_cidr") r in
  let? r := addWhen (d_SourceIPIsPrivate o) F_sourceAddress
    (Ok (ItemIPIsPrivate (NewIPIsPrivateItem true))) r in
  let? r := addWhen (d_IPIsPrivate o) F_destinationIPCIDR
    (Ok (ItemIPIsPrivate (NewIPIsPrivateItem false))) r in
  let? r := addWhen (d_IPAcceptAny o) F_destinationIPCIDR
    (Ok ItemIPAcceptAny) r in
  let? r := addWhen (isSome (d_ResponseRcode o)) F_items
    (Ok (ItemDNSResponseRCode (NewDNSResponseRCodeItem (default 0 (d_ResponseRcode o))))) r in
  let? r := addWhen (nonEmpty (d_ResponseAnswer o)) F_items
    (Ok (ItemDNSResponseRecord
           (NewDNSResponseRecordItem "response_answer" (d_ResponseAnswer o) dnsResponseAnswers))) r in
  let? r := addWhen (nonEmpty (d_ResponseNs o)) F_items
    (Ok (ItemDNSResponseRecord
           (NewDNSResponseRecordItem "response_ns" (d_ResponseNs o) dnsResponseNS))) r in
  let? r := addWhen (nonEmpty (d_ResponseExtra o)) F_items
    (Ok (ItemDNSResponseRecord
           (NewDNSResponseRecordItem "response_extra" (d_ResponseExtra o) dnsResponseExtra))) r in
  let? r := addWhen (nonEmpty (d_SourcePort o)) F_sourcePort
    (Ok (ItemPort (NewPortItem true (d_SourcePort o)))) r in
  let? r := addWhen (nonEmpty (d_SourcePortRange o)) F_sourcePort
    (portRangeItem true (d_SourcePortRange o) "source_port_range") r in
  let? r := addWhen (nonEmpty (d_Port o)) F_destinationPort
    (Ok (ItemPort (NewPortItem false (d_Port o)))) r in
  let? r := addWhen (nonEmpty (d_PortRange o)) F_destinationPort
    (portRangeItem false (d_PortRange o) "port_range") r in
  let? r := addWhen (nonEmpty (d_ProcessName o)) F_items
    (Ok (ItemProcessName (NewProcessItem (d_ProcessName o)))) r in
  let? r := addWhen (nonEmpty (d_ProcessPath o)) F_items
    (Ok (ItemProcessPath (NewProcessPathItem (d_ProcessPath o)))) r in
  let? r := addWhen (nonEmpty (d_ProcessPathRegex o)) F_items
    (processPathRegexItem (d_ProcessPathRegex o)) r in
  let? r := addWhen (nonEmpty (d_PackageName o)) F_items
    (Ok (ItemPackageName (NewPackageNameItem (d_PackageName o)))) r in
  let? r := addWhen (nonEmpty (d_PackageNameRegex o)) F_items
    (packageNameRegexItem (d_PackageNameRegex o)) r in
  let? r := addWhen (nonEmpty (d_User o)) F_items
    (Ok (ItemUser (NewUserItem (d_User o)))) r in
  let? r := addWhen (nonEmpty (d_UserID o)) F_items
    (Ok (ItemUserId (NewUserIDItem (d_UserID o)))) r in
  let? r := addWhen (nonEmpty (d_Outbound o)) F_items
    (Ok (ItemOutbound (NewOutboundRule (d_Outbound o)))) r in
  let? r := addWhen (negb (String.eqb (d_ClashMode o) "")) F_items
    (Ok (ItemClashMode (NewClashModeItem (d_ClashMode o)))) r in
  let? r := addWhen (nonEmpty (d_NetworkType o)) F_items
    (Ok (ItemNetworkType (d_NetworkType o))) r in
  let? r := addWhen (d_NetworkIsExpensive o) F_items
    (Ok ItemNetworkIsExpensive) r in
  let? r := addWhen (d_NetworkIsConstrained o) F_items
    (Ok ItemNetworkIsConstrained) r in
  let? r := addWhen (nonEmpty (d_WIFISSID o)) F_items
    (Ok (ItemWIFISSID (NewWIFISSIDItem (d_WIFISSID o)))) r in
  let? r := addWhen (nonEmpty (d_WIFIBSSID o)) F_items
    (Ok (ItemWIFIBSSID (NewWIFIBSSIDItem (d_WIFIBSSID o)))) r in
  let? r := addWhen (negb (typedMapEmpty (d_InterfaceAddress o))) F_items
    (Ok (ItemInterfaceAddress (NewInterfaceAddressItem (default [] (d_InterfaceAddress o))))) r in
  let? r := addWhen (negb (typedMapEmpty (d_NetworkInterfaceAddress o))) F_items
    (Ok (ItemNetworkInterfaceAddress
           (NewNetworkInterfaceAddressItem (default [] (d_NetworkInterfaceAddress o))))) r in
  let? r := addWhen (nonEmpty (d_DefaultInterfaceAddress o)) F_items
    (Ok (ItemDefaultInterfaceAddress (d_DefaultInterfaceAddress o))) r in
  let? r := addWhen (nonEmpty (d_SourceMACAddress o)) F_items
    (Ok (ItemSourceMACAddress (NewSourceMACAddressItem (d_SourceMACAddress o)))) r in
  let? r := addWhen (nonEmpty (d_SourceHostname o)) F_items
    (Ok (ItemSourceHostname (NewSourceHostnameItem (d_SourceHostname o)))) r in
  let? r := addWhen (nonEmpty (d_PreferredBy o)) F_items
    (Ok (ItemPreferredByDNS (NewPreferredByDNSItem (d_PreferredBy o)))) r in
  Ok r.

(** [deprecated.OptionRuleSetIPCIDRAcceptEmpty.MessageWithLink()]. *)
Definition acceptEmptyMessage : string :=
  F_ToString ["Legacy `rule_set_ip_cidr_accept_empty` DNS rule item"; " is deprecated in sing-box ";
    "1.14.0"; " and will be removed in sing-box "; "1.16.0";
    ", checkout documentation for migration: ";
    "https://sing-box.sagernet.org/migration/#migrate-address-filter-fields-to-response-matching"].

Definition NewDefaultDNSRule (options : DefaultDNSRuleOptions) (legacyDNSMode : bool) :
    result HeadlessRule :=
  let o := dd_Raw options in
  let? action := NewDNSRuleAction (da_Options (dd_Action options)) in
  let? r := defaultDNSRuleItems o (emptyRule (d_Invert o) action) in
  let wrap r :=
    DefaultDNSRule r (MatchResponse_IsEnabled (d_MatchResponse o))
      (MatchResponse_ResponseTag (d_MatchResponse o)) (da_Race (dd_Action options)) in
  if d_RuleSetIPCIDRAcceptEmpty o && negb legacyDNSMode then Err (E_New acceptEmptyMessage)
  else if nonEmpty (d_RuleSet o) then
    if d_Deprecated_RulesetIPCIDRMatchSource o then Err (E_New matchSourceRemoved)
    else
      Ok (wrap (setRuleSetItem (NewRuleSetItem (d_RuleSet o) (d_RuleSetIPCIDRMatchSource o)
                                  (d_RuleSetIPCIDRAcceptEmpty o)) r))
  else Ok (wrap r).

Definition isFinalForRace (a : DNSRuleActionVariant) : bool :=
  match a with
  | DOptNone | DOptRoute _ _ _ | DOptRespond | DOptReject _ _ | DOptPredefined _ _ _ _ => true
  | _ => false
  end.
Definition routeOptionsOf (a : DNSRuleActionVariant) : option AbstractDNSRouteActionOptions :=
  match a with
  | DOptRoute _ _ o | DOptEvaluate _ _ _ o | DOptRouteOptions o => Some o
  | _ => None
  end.
Definition validateDNSRuleAction (action : DNSRuleActionOptions) : result unit :=
  let a := da_Options action in
  if (match a with DOptReject method _ => String.eqb method RuleActionRejectMethodReply
                 | _ => false end)
  then Err (E_New "reject method `reply` is not supported for DNS rules")
  else if (match routeOptionsOf a with
           | Some o => dro_RemoveClientSubnet o && isSome (dro_ClientSubnet o)
           | None => false end)
  then Err (E_New "`client_subnet` and `remove_client_subnet` are mutually exclusive")
  else if da_Race action then
    if negb (isFinalForRace a) then Err (E_New "`race` requires a final action")
    else if (match a with DOptRoute _ speculative _ => speculative | _ => false end)
    then Err (E_New "`race` and `speculative` cannot be combined on the same rule")
    else Ok tt
  else Ok tt.

Definition missingServer (a : DNSRuleActionVariant) : bool :=
  match a with
  | DOptNone => true
  | DOptRoute server _ _ | DOptEvaluate server _ _ _ => String.eqb server ""
  | _ => false
  end.
Definition isEvaluate (a : DNSRuleActionVariant) : bool :=
  match a with DOptEvaluate _ _ _ _ => true | _ => false end.

(** The end of [NewLogicalDNSRule]: the response tags of the sub-rules. *)
Definition finishLogicalDNSRule (r : abstractLogicalRule) (race : bool) : result HeadlessRule :=
  let tags := common_Uniq (flat_map MatchResponseTags (logical_rules r)) in
  let anonymous := existsb MatchResponseAnonymous (logical_rules r) in
  if race && negb (nonEmpty tags) && negb anonymous
  then Err (E_New "`race` requires `match_response` in sub-rules")
  else Ok (LogicalDNSRule r tags anonymous race).

Fixpoint NewDNSRule (options : DNSRuleOptions) (checkServer legacyDNSMode : bool) :
    result HeadlessRule :=
  match options with
  | mkDNSRuleOptions typ d l =>
      if String.eqb typ "" || String.eqb typ RuleTypeDefault then
        let a := dd_Action d in
        if negb (DefaultDNSRuleOptions_IsValid d) then Err (E_New "missing conditions")
        else if negb checkServer && isEvaluate (da_Options a) then
          Err (E_New "evaluate is only allowed on top-level DNS rules")
        else
          let? _ := validateDNSRuleAction a in
          if da_Race a && negb (MatchResponse_IsEnabled (d_MatchResponse (dd_Raw d))) then
            Err (E_New "`race` requires `match_response`")
          else if missingServer (da_Options a) && checkServer then Err (E_New "missing server field")
          else NewDefaultDNSRule d legacyDNSMode
      else if String.eqb typ RuleTypeLogical then
        let? valid := LogicalDNSRuleOptions_IsValid l in
        match l with
        | mkLogicalDNSRuleOptions _ _ _ a =>
            if negb valid then Err (E_New "missing conditions")
            else if negb checkServer && isEvaluate (da_Options a) then
              Err (E_New "evaluate is only allowed on top-level DNS rules")
            else
              let? _ := validateDNSRuleAction a in
              if missingServer (da_Options a) && checkServer then Err (E_New "missing server field")
              else NewLogicalDNSRule l legacyDNSMode
        end
      else Err (E_New ("unknown rule type: " ++ typ)%string)
  end
with NewLogicalDNSRule (l : LogicalDNSRuleOptions) (legacyDNSMode : bool) : result HeadlessRule :=
  match l with
  | mkLogicalDNSRuleOptions mode rules invert a =>
      let? action := NewDNSRuleAction (da_Options a) in
      let? mode := checkMode mode in
      let? rules := mapi_result (fun i subRule =>
        let? _ := result_cause (validateNoNestedDNSRuleActions subRule true) (subRuleMessage i) in
        result_cause (NewDNSRule subRule false legacyDNSMode) (subRuleMessage i)) 0 rules in
      finishLogicalDNSRule (mkLogicalRule rules mode invert action) (da_Race a)
  end.

(** ** Rule-sets *)

(** [LocalRuleSet.reloadRules]: the rules and the metadata replace those of the
    rule-set when every rule is built and the update is accepted. *)
Definition reloadRules (hasNetworkManager : bool)
    (validate : string -> RuleSetMetadata -> result unit) (headlessRules : list HeadlessRuleOptions)
    (s : RuleSet) : result RuleSet :=
  match s with
  | mkRuleSet tag _ _ =>
      let? rules := mapi_result (fun i o =>
        result_cause (NewHeadlessRule hasNetworkManager o)
          (indexMessage "parse rule_set.rules.[" i "]")) 0 headlessRules in
      let metadata := buildRuleSetMetadata headlessRules in
      let? _ := validate tag metadata in
      Ok (mkRuleSet tag rules metadata)
  end.
End build.

(** ** Invariants of built rules *)

Section built.
Context `{L : Libs}.

(** The group an item belongs to. *)
Definition kindOf (i : RuleItem) : ruleField :=
  match i with
  | ItemDomain _ | ItemDomainKeyword _ | ItemDomainRegex _ | ItemAdGuardDomain _ => F_destinationAddress
  | ItemIPCIDR r => if cidr_isSource r then F_sourceAddress else F_destinationIPCIDR
  | ItemIPIsPrivate r => if priv_isSource r then F_sourceAddress else F_destinationIPCIDR
  | ItemIPAcceptAny => F_destinationIPCIDR
  | ItemPort r => if port_isSource r then F_sourcePort else F_destinationPort
  | ItemPortRange r => if pr_isSource r then F_sourcePort else F_destinationPort
  | _ => F_items
  end.

Definition fieldItems (f : ruleField) (r : abstractDefaultRule) : list RuleItem :=
  match f with
  | F_items => items r
  | F_sourceAddress => sourceAddressItems r
  | F_sourcePort => sourcePortItems r
  | F_destinationAddress => destinationAddressItems r
  | F_destinationIPCIDR => destinationIPCIDRItems r
  | F_destinationPort => destinationPortItems r
  end.

Definition groupedItems (r : abstractDefaultRule) : list RuleItem :=
  (items r ++ sourceAddressItems r ++ sourcePortItems r ++ destinationAddressItems r
     ++ destinationIPCIDRItems r ++ destinationPortItems r)%list.

(** [allItems] lists the items of the groups and the rule-set item, each once;
    each item is in the group of its kind. *)
Record wellBuilt (r : abstractDefaultRule) : Prop := {
  wb_all : Permutation (allItems r)
    (map AllItemOf (groupedItems r) ++ (if isSome (ruleSetItem r) then [AllItemRuleSet] else []))%list;
  wb_kind : forall f i, i ∈ fieldItems f r -> kindOf i = f }.

Lemma wellBuilt_empty invert action : wellBuilt (emptyRule invert action).
Proof. split; [done|]. intros f i Hi. destruct f; cbn in Hi; set_solver. Qed.

Lemma fieldItems_append f g i j r :
  j ∈ fieldItems g (appendItem f i r) -> j ∈ fieldItems g r \/ (j = i /\ g = f).
Proof. destruct r, f, g; cbn; rewrite ?elem_of_app, ?list_elem_of_singleton; naive_solver. Qed.

Lemma wellBuilt_append f i r : kindOf i = f -> wellBuilt r -> wellBuilt (appendItem f i r).
Proof.
  intros Hk [Hall Hkind]. destruct r as [its sa sp da dc dp all rs inv act]. split.
  - cbn [ruleSetItem allItems] in *.
    assert (Hp : Permutation (groupedItems
      (appendItem f i (mkDefaultRule its sa sp da dc dp all rs inv act)))
      (i :: groupedItems (mkDefaultRule its sa sp da dc dp all rs inv act))).
    { unfold groupedItems. destruct f;
        cbn [appendItem items sourceAddressItems sourcePortItems destinationAddressItems
             destinationIPCIDRItems destinationPortItems]; solve_Permutation. }
    rewrite Hp. cbn [map app].
    replace (ruleSetItem (appendItem f i _)) with rs by by destruct f.
    rewrite <- Hall. replace (allItems _) with (all ++ [AllItemOf i])%list by by destruct f.
    solve_Permutation.
  - intros g j Hj. apply fieldItems_append in Hj as [Hj|[-> ->]]; [by apply Hkind|done].
Qed.

Definition hasKind (f : ruleField) (i : RuleItem) : Prop := kindOf i = f.

Lemma addWhen_built c f item r :
  result_all (hasKind f) item -> wellBuilt r -> result_all wellBuilt (addWhen c f item r).
Proof.
  intros Hi Hr. unfold addWhen. destruct c; [|done].
  apply (result_all_bind (hasKind f)); [done|]. intros i Hk. by apply wellBuilt_append.
Qed.

Lemma failWhen_built c msg r : wellBuilt r -> result_all wellBuilt (failWhen c msg r).
Proof. intros Hr. by destruct c. Qed.

Lemma domainItem_kind d s : result_all (hasKind F_destinationAddress) (domainItem d s).
Proof. unfold domainItem, NewDomainItem. by repeat (case_bool_decide; [done|]). Qed.
Lemma domainRegexItem_kind l : result_all (hasKind F_destinationAddress) (domainRegexItem l).
Proof. unfold domainRegexItem. by destruct (NewDomainRegexItem l). Qed.
Lemma cidrItem_kind (b : bool) l msg :
  result_all (hasKind (if b then F_sourceAddress else F_destinationIPCIDR)) (cidrItem b l msg).
Proof.
  unfold cidrItem, NewIPCIDRItem. destruct (parseCIDRs 0 l); [|done]. cbn.
  by destruct (IPSet_Build _).
Qed.
Lemma portRangeItem_kind (b : bool) l msg :
  result_all (hasKind (if b then F_sourcePort else F_destinationPort)) (portRangeItem b l msg).
Proof.
  unfold portRangeItem, NewPortRangeItem. by destruct (parsePortRanges l).
Qed.
Lemma processPathRegexItem_kind l : result_all (hasKind F_items) (processPathRegexItem l).
Proof. unfold processPathRegexItem. by destruct (NewProcessPathRegexItem l). Qed.
Lemma packageNameRegexItem_kind l : result_all (hasKind F_items) (packageNameRegexItem l).
Proof. unfold packageNameRegexItem. by destruct (NewPackageNameRegexItem l). Qed.
Lemma ipVersionItem_kind v : result_all (hasKind F_items) (ipVersionItem v).
Proof. unfold ipVersionItem. by destruct (_ || _). Qed.

#[local] Hint Resolve domainItem_kind domainRegexItem_kind processPathRegexItem_kind
  packageNameRegexItem_kind ipVersionItem_kind result_all_cause : built.
#[local] Hint Extern 1 (result_all (hasKind F_sourceAddress) (cidrItem true _ _)) =>
  apply (cidrItem_kind true) : built.
#[local] Hint Extern 1 (result_all (hasKind F_destinationIPCIDR) (cidrItem false _ _)) =>
  apply (cidrItem_kind false) : built.
#[local] Hint Extern 1 (result_all (hasKind F_sourcePort) (portRangeItem true _ _)) =>
  apply (portRangeItem_kind true) : built.
#[local] Hint Extern 1 (result_all (hasKind F_destinationPort) (portRangeItem false _ _)) =>
  apply (portRangeItem_kind false) : built.
#[local] Hint Extern 2 (result_all (hasKind _) (Ok _)) => reflexivity : built.

(** One step of a constructor: an item appended, or a removed option refused. *)
Ltac build_step :=
  match goal with
  | |- result_all _ (result_bind (addWhen _ _ _ _) _) =>
      eapply result_all_bind; [apply addWhen_built; [eauto with built|eassumption]|intros ? ?]
  | |- result_all _ (result_bind (failWhen _ _ _) _) =>
      eapply result_all_bind; [apply failWhen_built; eassumption|intros ? ?]
  | |- result_all _ (result_bind (if ?c then _ else match ?m with _ => _ end) _) =>
      apply (result_all_bind wellBuilt);
      [destruct c; [|destruct m];
       [apply addWhen_built; [eauto with built|eassumption]..|assumption]|intros ? ?]
  | |- result_all _ (addWhen _ _ _ _) => apply addWhen_built; [eauto with built|eassumption]
  | |- result_all _ (Ok _) => assumption
  end.

Lemma defaultRuleItems_built o r : wellBuilt r -> result_all wellBuilt (defaultRuleItems o r).
Proof. intros Hr. unfold defaultRuleItems. repeat build_step. Qed.

Lemma defaultDNSRuleItems_built o r : wellBuilt r -> result_all wellBuilt (defaultDNSRuleItems o r).
Proof. intros Hr. unfold defaultDNSRuleItems. repeat build_step. Qed.

Lemma headlessItems_built nm o r :
  wellBuilt r -> result_all wellBuilt (NewDefaultHeadlessRuleItems nm o r).
Proof.
  intros Hr. unfold NewDefaultHeadlessRuleItems. repeat build_step.
  split_match; [build_step|]. split_match; build_step.
Qed.

Lemma wellBuilt_ruleSet i r :
  ruleSetItem r = None -> wellBuilt r -> wellBuilt (setRuleSetItem i r).
Proof.
  intros Hn [Hall Hkind]. destruct r as [its sa sp da dc dp all rs inv act].
  cbn [ruleSetItem] in Hn. subst rs. cbn [ruleSetItem isSome allItems] in Hall.
  rewrite app_nil_r in Hall. split.
  - exact (Permutation_app_tail _ Hall).
  - intros f j Hj. apply (Hkind f). by destruct f.
Qed.

(** ** Rule trees *)

(** Every default rule of a tree has the property. *)
Fixpoint allDefaults (P : abstractDefaultRule -> Prop) (h : HeadlessRule) : Prop :=
  match h with
  | DefaultRule r | DefaultHeadlessRule r | DefaultDNSRule r _ _ _ => P r
  | LogicalRule (mkLogicalRule rules _ _ _) | LogicalHeadlessRule (mkLogicalRule rules _ _ _)
  | LogicalDNSRule (mkLogicalRule rules _ _ _) _ _ _ =>
      foldr (fun h acc => allDefaults P h /\ acc) True rules
  end.

Lemma allDefaults_list P rules :
  Forall (allDefaults P) rules -> foldr (fun h acc => allDefaults P h /\ acc) True rules.
Proof. induction 1; cbn; auto. Qed.
End built.
