(* ===== verification/RuleBuildTheorems.v ===== *)
(** * Theorems on building rules

    The rules the constructors of [RuleBuild] accept: every default rule of the
    tree lists each item once and in the group of its kind, actions stand at the
    top of the tree only, and the metadata of a rule-set tells which kinds of
    items its rules have. *)

From S2P Require Import Prelude.
From S2P Require Import GoText.
From S2P Require Import NetIP.
From S2P Require Import Libs.
From S2P Require Import Metadata.
From S2P Require Import RuleItems.
From S2P Require Import RuleAction.
From S2P Require Import RuleEngine.
From S2P Require Import RuleSpec.
From S2P Require Import RuleSound.
From S2P Require Import RuleTheorems.
From S2P Require Import RuleOptions.
From S2P Require Import RuleBuild.
Local Open Scope string_scope.
Local Open Scope Z_scope.

(** ** Induction on options *)

Fixpoint RuleOptions_nested_ind (P : RuleOptions -> Prop)
    (H : forall typ d mode rules inv act, Forall P rules ->
         P (mkRuleOptions typ d (mkLogicalRuleOptions mode rules inv act))) (o : RuleOptions) : P o :=
  match o with
  | mkRuleOptions typ d (mkLogicalRuleOptions mode rules inv act) =>
      H typ d mode rules inv act (Forall_of P (RuleOptions_nested_ind P H) rules)
  end.

Fixpoint DNSRuleOptions_nested_ind (P : DNSRuleOptions -> Prop)
    (H : forall typ d mode rules inv act, Forall P rules ->
         P (mkDNSRuleOptions typ d (mkLogicalDNSRuleOptions mode rules inv act)))
    (o : DNSRuleOptions) : P o :=
  match o with
  | mkDNSRuleOptions typ d (mkLogicalDNSRuleOptions mode rules inv act) =>
      H typ d mode rules inv act (Forall_of P (DNSRuleOptions_nested_ind P H) rules)
  end.

Fixpoint HeadlessRuleOptions_nested_ind `{L : Libs} (P : HeadlessRuleOptions -> Prop)
    (H : forall typ d mode rules inv, Forall P rules ->
         P (mkHeadlessRuleOptions typ d (mkLogicalHeadlessRuleOptions mode rules inv)))
    (o : HeadlessRuleOptions) : P o :=
  match o with
  | mkHeadlessRuleOptions typ d (mkLogicalHeadlessRuleOptions mode rules inv) =>
      H typ d mode rules inv (Forall_of P (HeadlessRuleOptions_nested_ind P H) rules)
  end.

Section trees.
Context `{L : Libs}.
Context (platformSupported : bool) (dialer_New : DirectActionOptions -> option GoError).

Notation NewRule := (NewRule platformSupported dialer_New).
Notation NewDefaultRule := (NewDefaultRule platformSupported dialer_New).

(** ** What appending items keeps *)

Lemma addWhen_inv (P : abstractDefaultRule -> Prop) c f item r :
  (forall i r, P r -> P (appendItem f i r)) -> P r -> result_all P (addWhen c f item r).
Proof.
  intros Hk H. unfold addWhen. destruct c; [|done]. destruct item as [i|]; [|done]. by apply Hk.
Qed.
Lemma failWhen_inv (P : abstractDefaultRule -> Prop) c msg r :
  P r -> result_all P (failWhen c msg r).
Proof. by destruct c. Qed.

(** One step of a constructor that keeps [P]; [tac] shows that appending does. *)
Ltac keep_step P tac :=
  match goal with
  | |- result_all _ (result_bind (addWhen _ _ _ _) _) =>
      apply (result_all_bind P); [apply addWhen_inv; [tac|assumption]|intros ? ?]
  | |- result_all _ (result_bind (failWhen _ _ _) _) =>
      apply (result_all_bind P); [apply failWhen_inv; assumption|intros ? ?]
  | |- result_all _ (result_bind (if ?c then _ else match ?m with _ => _ end) _) =>
      apply (result_all_bind P);
      [destruct c; [|destruct m];
       [apply addWhen_inv; [tac|assumption]..|assumption]|intros ? ?]
  | |- result_all _ (if ?c then _ else match ?m with _ => _ end) =>
      destruct c; [|destruct m]; [apply addWhen_inv; [tac|assumption]..|assumption]
  | |- result_all _ (Ok _) => assumption
  end.

Section keeps.
Context (P : abstractDefaultRule -> Prop) (Hkeep : forall f i r, P r -> P (appendItem f i r)).

Lemma defaultRuleItems_keeps o r : P r -> result_all P (defaultRuleItems o r).
Proof. intros Hr. unfold defaultRuleItems. repeat keep_step P ltac:(apply Hkeep). Qed.
Lemma defaultDNSRuleItems_keeps o r : P r -> result_all P (defaultDNSRuleItems o r).
Proof. intros Hr. unfold defaultDNSRuleItems. repeat keep_step P ltac:(apply Hkeep). Qed.
Lemma headlessItems_keeps nm o r : P r -> result_all P (NewDefaultHeadlessRuleItems nm o r).
Proof. intros Hr. unfold NewDefaultHeadlessRuleItems. repeat keep_step P ltac:(apply Hkeep). Qed.
End keeps.

(** Appending items sets neither the rule-set item nor the action. *)
Definition bare (act : option RuleAction) (r : abstractDefaultRule) : Prop :=
  ruleSetItem r = None /\ rule_action r = act.
Lemma bare_append act f i r : bare act r -> bare act (appendItem f i r).
Proof. by destruct r, f. Qed.
Lemma bare_empty inv act : bare act (emptyRule inv act).
Proof. done. Qed.

Lemma result_all_and {A} (P Q : A -> Prop) (r : result A) :
  result_all P r -> result_all Q r -> result_all (fun a => P a /\ Q a) r.
Proof. destruct r; cbn; auto. Qed.

Lemma routeItems_spec o inv act :
  result_all (fun r => wellBuilt r /\ bare act r) (defaultRuleItems o (emptyRule inv act)).
Proof.
  apply result_all_and; [apply defaultRuleItems_built, wellBuilt_empty|].
  apply defaultRuleItems_keeps; [apply bare_append|done].
Qed.
Lemma dnsItems_spec o inv act :
  result_all (fun r => wellBuilt r /\ bare act r) (defaultDNSRuleItems o (emptyRule inv act)).
Proof.
  apply result_all_and; [apply defaultDNSRuleItems_built, wellBuilt_empty|].
  apply defaultDNSRuleItems_keeps; [apply bare_append|done].
Qed.

(** A default rule that is built carries the action of its options. *)
Lemma NewDefaultRule_spec d :
  result_all (fun h => allDefaults wellBuilt h
    /\ NewRuleAction platformSupported dialer_New (dr_Action d) = Ok (rule_Action h)
    /\ rule_Type h = RuleTypeDefault) (NewDefaultRule d).
Proof.
  unfold RuleBuild.NewDefaultRule.
  destruct (NewRuleAction _ _ _) as [act|]; [|done]. cbn [result_cause result_bind].
  eapply result_all_bind; [apply routeItems_spec|]. intros r (Hw & Hn & <-).
  split_match; [split_match; [done|]|]; (split; [|by destruct r]); [|done].
  by apply wellBuilt_ruleSet.
Qed.

Lemma NewDefaultDNSRule_spec d legacy :
  result_all (fun h => allDefaults wellBuilt h
    /\ NewDNSRuleAction (da_Options (dd_Action d)) = Ok (rule_Action h)
    /\ rule_Type h = RuleTypeDefault) (NewDefaultDNSRule d legacy).
Proof.
  unfold NewDefaultDNSRule.
  destruct (NewDNSRuleAction _) as [act|]; [|done]. cbn [result_bind].
  eapply result_all_bind; [apply dnsItems_spec|]. intros r (Hw & Hn & <-).
  split_match; [done|]. split_match; [split_match; [done|]|]; (split; [|by destruct r]); [|done].
  by apply wellBuilt_ruleSet.
Qed.

(** ** Rule trees *)

(** The rules below a logical rule have no action. *)
Fixpoint nestedActionless (h : HeadlessRule) : Prop :=
  match h with
  | LogicalRule (mkLogicalRule rules _ _ _) | LogicalHeadlessRule (mkLogicalRule rules _ _ _)
  | LogicalDNSRule (mkLogicalRule rules _ _ _) _ _ _ =>
      foldr (fun h acc => (rule_Action h = None /\ nestedActionless h) /\ acc) True rules
  | _ => True
  end.

(** An action that routes names its outbound or server. *)
Definition namesTarget (a : RuleAction) : Prop :=
  match a with
  | RuleActionRoute target _ | RuleActionDNSRoute target _ _ | RuleActionEvaluate target _ _ _ =>
      target <> ""
  | _ => True
  end.

(** What holds of the rule [h] built from options that have an action or not,
    with the check of the action or without. *)
Record builtTree (configured check : bool) (h : HeadlessRule) : Prop := {
  bt_defaults : allDefaults wellBuilt h;
  bt_nested : nestedActionless h;
  bt_unconfigured : configured = false -> rule_Action h = None;
  bt_checked : check = true -> exists a, rule_Action h = Some a /\ namesTarget a }.

(** The sub-rules of a logical rule. *)
Record subTree (h : HeadlessRule) : Prop := {
  st_defaults : allDefaults wellBuilt h;
  st_nested : rule_Action h = None /\ nestedActionless h }.

Lemma subTree_of h : builtTree false false h -> subTree h.
Proof. intros [Hd Hn Hu _]. split; auto. Qed.

Lemma subTrees rules :
  Forall subTree rules ->
  foldr (fun h acc => allDefaults wellBuilt h /\ acc) True rules
  /\ foldr (fun h acc => (rule_Action h = None /\ nestedActionless h) /\ acc) True rules.
Proof. induction 1 as [|h rules [Hd Hn] _ [IH1 IH2]]; cbn; auto. Qed.

(** ** Route rules *)

Lemma NewRuleAction_spec a :
  result_all (fun act => (ruleActionIsZero a = true -> act = None)
    /\ (missingOutbound a = false -> exists x, act = Some x /\ namesTarget x))
    (NewRuleAction platformSupported dialer_New a).
Proof.
  destruct a; cbn [NewRuleAction]; try done;
    repeat (apply (result_all_bind (fun _ => True)); [by apply result_all_pure|intros ? _]);
    try (split; [done|]; intros Hm; eexists; split; [done|]; cbn in *; by try apply String.eqb_neq).
  destruct (dialer_New _); [done|]. split; [done|]. intros _. eexists. by split.
Qed.

Lemma checked_action a h check :
  missingOutbound a && check = false ->
  NewRuleAction platformSupported dialer_New a = Ok (rule_Action h) ->
  (negb (ruleActionIsZero a) = false -> rule_Action h = None)
  /\ (check = true -> exists x, rule_Action h = Some x /\ namesTarget x).
Proof.
  intros Hc Ha. pose proof (NewRuleAction_spec a) as H. rewrite Ha in H. destruct H as [H0 H1].
  split.
  - intros Hz. apply H0. by destruct (ruleActionIsZero a).
  - intros ->. rewrite andb_true_r in Hc. auto.
Qed.

Lemma unconfigured_sub o msg :
  result_all (fun _ => ruleHasConfiguredAction o = false)
    (result_cause (validateNoNestedRuleActions o true) msg).
Proof.
  apply result_all_cause. destruct o as [typ d [mode rules inv act]].
  cbn [validateNoNestedRuleActions andb]. destruct (ruleHasConfiguredAction _) eqn:E; [done|].
  by apply result_all_pure.
Qed.

Lemma NewRule_eq typ d mode rules inv act check :
  let l := mkLogicalRuleOptions mode rules inv act in
  NewRule (mkRuleOptions typ d l) check =
  if String.eqb typ "" || String.eqb typ RuleTypeDefault then
    if negb (DefaultRuleOptions_IsValid d) then Err (E_New "missing conditions")
    else if missingOutbound (dr_Action d) && check then Err (E_New "missing outbound field")
    else NewDefaultRule d
  else if String.eqb typ RuleTypeLogical then
    let? valid := LogicalRuleOptions_IsValid l in
    if negb valid then Err (E_New "missing conditions")
    else if missingOutbound act && check then Err (E_New "missing outbound field")
    else NewLogicalRule platformSupported dialer_New l
  else Err (E_New ("unknown rule type: " ++ typ)%string).
Proof. done. Qed.

Lemma NewLogicalRule_eq mode rules inv act :
  NewLogicalRule platformSupported dialer_New (mkLogicalRuleOptions mode rules inv act) =
  let? action := result_cause (NewRuleAction platformSupported dialer_New act) "action" in
  let? mode := checkMode mode in
  let? rules := mapi_result (fun i sub =>
    let? _ := result_cause (validateNoNestedRuleActions sub true) (subRuleMessage i) in
    result_cause (NewRule sub false) (subRuleMessage i)) 0 rules in
  Ok (LogicalRule (mkLogicalRule rules mode inv action)).
Proof. done. Qed.

Lemma NewRule_tree o :
  forall check, result_all (builtTree (ruleHasConfiguredAction o) check) (NewRule o check).
Proof.
  induction o as [typ d mode rules inv act IH] using RuleOptions_nested_ind. intros check.
  rewrite NewRule_eq. cbn [ruleHasConfiguredAction]. destruct (String.eqb typ _ || _).
  { destruct (negb (DefaultRuleOptions_IsValid d)); [done|]. destruct (_ && _) eqn:Hc; [done|].
    eapply result_all_mono; [apply NewDefaultRule_spec|]. intros h (Hw & Ha & Ht).
    destruct (checked_action _ _ _ Hc Ha). split; [done| |done..]. by destruct h. }
  destruct (String.eqb typ _); [|done].
  apply (result_all_bind (fun _ => True)); [by apply result_all_pure|]. intros valid _.
  destruct (negb valid); [done|]. destruct (_ && _) eqn:Hc; [done|]. rewrite NewLogicalRule_eq.
  destruct (NewRuleAction _ _ act) as [a|] eqn:Ha; [|done]. cbn [result_cause result_bind].
  apply (result_all_bind (fun _ => True)); [by apply result_all_pure|]. intros m _.
  apply (result_all_bind (Forall subTree)).
  - apply result_all_mapi. eapply Forall_impl; [|exact IH]. intros o Ho i.
    eapply result_all_bind; [apply unconfigured_sub|]. intros ? Hu.
    apply result_all_cause. specialize (Ho false). rewrite Hu in Ho.
    eapply result_all_mono; [exact Ho|apply subTree_of].
  - intros rs Hrs. destruct (subTrees rs Hrs) as [Hd Hn].
    set (h := LogicalRule (mkLogicalRule rs m inv a)).
    destruct (checked_action act h check Hc Ha). by split.
Qed.

(** ** DNS rules *)

Lemma NewDNSRuleAction_spec a :
  result_all (fun act => (dnsRuleActionIsZero a = true -> act = None)
    /\ (missingServer (da_Options a) = false -> exists x, act = Some x /\ namesTarget x))
    (NewDNSRuleAction (da_Options a)).
Proof.
  destruct a as [race a]. unfold dnsRuleActionIsZero. cbn [da_Options].
  destruct a; cbn [NewDNSRuleAction]; try done;
    (split; [done|]); intros Hm; eexists; (split; [done|]); cbn in *; by try apply String.eqb_neq.
Qed.

Lemma checked_dns_action a h check :
  missingServer (da_Options a) && check = false ->
  NewDNSRuleAction (da_Options a) = Ok (rule_Action h) ->
  (negb (dnsRuleActionIsZero a) = false -> rule_Action h = None)
  /\ (check = true -> exists x, rule_Action h = Some x /\ namesTarget x).
Proof.
  intros Hc Ha. pose proof (NewDNSRuleAction_spec a) as H. rewrite Ha in H. destruct H as [H0 H1].
  split.
  - intros Hz. apply H0. by destruct (dnsRuleActionIsZero a).
  - intros ->. rewrite andb_true_r in Hc. auto.
Qed.

Lemma unconfigured_dns_sub o msg :
  result_all (fun _ => dnsRuleHasConfiguredAction o = false)
    (result_cause (validateNoNestedDNSRuleActions o true) msg).
Proof.
  apply result_all_cause. destruct o as [typ d [mode rules inv act]].
  cbn [validateNoNestedDNSRuleActions andb]. destruct (dnsRuleHasConfiguredAction _) eqn:E; [done|].
  by apply result_all_pure.
Qed.

Lemma NewDNSRule_eq typ d mode rules inv a check legacy :
  let l := mkLogicalDNSRuleOptions mode rules inv a in
  NewDNSRule (mkDNSRuleOptions typ d l) check legacy =
  if String.eqb typ "" || String.eqb typ RuleTypeDefault then
    if negb (DefaultDNSRuleOptions_IsValid d) then Err (E_New "missing conditions")
    else if negb check && isEvaluate (da_Options (dd_Action d)) then
      Err (E_New "evaluate is only allowed on top-level DNS rules")
    else
      let? _ := validateDNSRuleAction (dd_Action d) in
      if da_Race (dd_Action d) && negb (MatchResponse_IsEnabled (d_MatchResponse (dd_Raw d))) then
        Err (E_New "`race` requires `match_response`")
      else if missingServer (da_Options (dd_Action d)) && check then
        Err (E_New "missing server field")
      else NewDefaultDNSRule d legacy
  else if String.eqb typ RuleTypeLogical then
    let? valid := LogicalDNSRuleOptions_IsValid l in
    if negb valid then Err (E_New "missing conditions")
    else if negb check && isEvaluate (da_Options a) then
      Err (E_New "evaluate is only allowed on top-level DNS rules")
    else
      let? _ := validateDNSRuleAction a in
      if missingServer (da_Options a) && check then Err (E_New "missing server field")
      else NewLogicalDNSRule l legacy
  else Err (E_New ("unknown rule type: " ++ typ)%string).
Proof. done. Qed.

Lemma NewLogicalDNSRule_eq mode rules inv a legacy :
  NewLogicalDNSRule (mkLogicalDNSRuleOptions mode rules inv a) legacy =
  let? action := NewDNSRuleAction (da_Options a) in
  let? mode := checkMode mode in
  let? rules := mapi_result (fun i sub =>
    let? _ := result_cause (validateNoNestedDNSRuleActions sub true) (subRuleMessage i) in
    result_cause (NewDNSRule sub false legacy) (subRuleMessage i)) 0 rules in
  finishLogicalDNSRule (mkLogicalRule rules mode inv action) (da_Race a).
Proof. done. Qed.

Lemma NewDNSRule_tree legacy o :
  forall check,
  result_all (builtTree (dnsRuleHasConfiguredAction o) check) (NewDNSRule o check legacy).
Proof.
  induction o as [typ d mode rules inv act IH] using DNSRuleOptions_nested_ind. intros check.
  rewrite NewDNSRule_eq. cbn [dnsRuleHasConfiguredAction]. destruct (String.eqb typ _ || _).
  { destruct (negb (DefaultDNSRuleOptions_IsValid d)); [done|].
    destruct (_ && isEvaluate _); [done|].
    apply (result_all_bind (fun _ => True)); [by apply result_all_pure|]. intros _ _.
    destruct (da_Race _ && _); [done|]. destruct (_ && _) eqn:Hc; [done|].
    eapply result_all_mono; [apply NewDefaultDNSRule_spec|]. intros h (Hw & Ha & Ht).
    destruct (checked_dns_action _ _ _ Hc Ha). split; [done| |done..]. by destruct h. }
  destruct (String.eqb typ _); [|done].
  apply (result_all_bind (fun _ => True)); [by apply result_all_pure|]. intros valid _.
  destruct (negb valid); [done|]. destruct (_ && isEvaluate _); [done|].
  apply (result_all_bind (fun _ => True)); [by apply result_all_pure|]. intros _ _.
  destruct (_ && _) eqn:Hc; [done|]. rewrite NewLogicalDNSRule_eq.
  destruct (NewDNSRuleAction _) as [a|] eqn:Ha; [|done]. cbn [result_bind].
  apply (result_all_bind (fun _ => True)); [by apply result_all_pure|]. intros m _.
  apply (result_all_bind (Forall subTree)).
  - apply result_all_mapi. eapply Forall_impl; [|exact IH]. intros o Ho i.
    eapply result_all_bind; [apply unconfigured_dns_sub|]. intros ? Hu.
    apply result_all_cause. specialize (Ho false). rewrite Hu in Ho.
    eapply result_all_mono; [exact Ho|apply subTree_of].
  - intros rs Hrs. destruct (subTrees rs Hrs) as [Hd Hn]. unfold finishLogicalDNSRule.
    split_match; [done|].
    match goal with |- result_all _ (Ok ?h) => destruct (checked_dns_action act h check Hc Ha) end.
    by split.
Qed.

(** ** Headless rules *)

Lemma NewHeadlessRule_eq nm typ d mode rules inv :
  let l := mkLogicalHeadlessRuleOptions mode rules inv in
  NewHeadlessRule nm (mkHeadlessRuleOptions typ d l) =
  if String.eqb typ "" || String.eqb typ RuleTypeDefault then
    if negb (DefaultHeadlessRuleOptions_IsValid d) then Err (E_New "missing conditions")
    else NewDefaultHeadlessRule nm d
  else if String.eqb typ RuleTypeLogical then
    let? valid := LogicalHeadlessRuleOptions_IsValid l in
    if negb valid then Err (E_New "missing conditions") else NewLogicalHeadlessRule nm l
  else Err (E_New ("unknown rule type: " ++ typ)%string).
Proof. done. Qed.

Lemma NewLogicalHeadlessRule_eq nm mode rules inv :
  NewLogicalHeadlessRule nm (mkLogicalHeadlessRuleOptions mode rules inv) =
  let? mode := checkMode mode in
  let? rules := mapi_result (fun i sub =>
    result_cause (NewHeadlessRule nm sub) (subRuleMessage i)) 0 rules in
  Ok (LogicalHeadlessRule (mkLogicalRule rules mode inv None)).
Proof. done. Qed.

Lemma NewHeadlessRule_defaults nm o : result_all (allDefaults wellBuilt) (NewHeadlessRule nm o).
Proof.
  induction o as [typ d mode rules inv IH] using HeadlessRuleOptions_nested_ind.
  rewrite NewHeadlessRule_eq. destruct (_ || _).
  { destruct (negb _); [done|]. unfold NewDefaultHeadlessRule.
    eapply result_all_bind; [apply headlessItems_built, wellBuilt_empty|done]. }
  destruct (String.eqb typ _); [|done].
  apply (result_all_bind (fun _ => True)); [by apply result_all_pure|]. intros valid _.
  destruct (negb valid); [done|]. rewrite NewLogicalHeadlessRule_eq.
  apply (result_all_bind (fun _ => True)); [by apply result_all_pure|]. intros m _.
  apply (result_all_bind (Forall (allDefaults wellBuilt))).
  - apply result_all_mapi. eapply Forall_impl; [|exact IH]. intros o Ho i. by apply result_all_cause.
  - intros rs Hrs. by apply allDefaults_list.
Qed.

(** C36 Whatever the options, a rule that is built (route, DNS or headless, at
    any depth) lists in [allItems] exactly the items of its groups and its
    rule-set item, each once, and every item is in the group of its kind. *)
Theorem built_rules_well_formed :
  (forall o check, result_all (allDefaults wellBuilt) (NewRule o check)) /\
  (forall o check legacy, result_all (allDefaults wellBuilt) (NewDNSRule o check legacy)) /\
  (forall nm o, result_all (allDefaults wellBuilt) (NewHeadlessRule nm o)).
Proof.
  split_and!; intros.
  - eapply result_all_mono; [apply NewRule_tree|by intros h []].
  - eapply result_all_mono; [apply NewDNSRule_tree|by intros h []].
  - apply NewHeadlessRule_defaults.
Qed.

(** A route or DNS rule accepted for the top level has an action, a routing
    action names its outbound or server, and no rule below it has an action. *)
Theorem top_level_action_only :
  (forall o, result_all (fun h => (exists a, rule_Action h = Some a /\ namesTarget a)
     /\ nestedActionless h) (NewRule o true)) /\
  (forall o legacy, result_all (fun h => (exists a, rule_Action h = Some a /\ namesTarget a)
     /\ nestedActionless h) (NewDNSRule o true legacy)).
Proof.
  split; intros; (eapply result_all_mono; [apply NewRule_tree || apply NewDNSRule_tree|]);
    intros h [_ Hn _ Hc]; auto.
Qed.
End trees.

(** ** Rule-set metadata *)

Section metadata.
Context `{L : Libs}.
Implicit Types (p : RuleItem -> bool) (v : bool).

Definition isProcessItem (i : RuleItem) : bool :=
  match i with
  | ItemProcessName _ | ItemProcessPath _ | ItemProcessPathRegex _ | ItemPackageName _
  | ItemPackageNameRegex _ => true
  | _ => false
  end.
Definition isWIFIItem (i : RuleItem) : bool :=
  match i with ItemWIFISSID _ | ItemWIFIBSSID _ => true | _ => false end.
Definition isQueryTypeItem (i : RuleItem) : bool :=
  match i with ItemQueryType _ => true | _ => false end.
(** Items on a DNS response. *)
Definition isResponseItem (i : RuleItem) : bool :=
  match i with ItemDNSResponseRCode _ | ItemDNSResponseRecord _ => true | _ => false end.
Definition isDestinationItem (i : RuleItem) : bool :=
  match kindOf i with F_destinationIPCIDR => true | _ => false end.

Definition isOtherItem (i : RuleItem) : bool := negb (isDestinationItem i).

Definition hasItem (p : RuleItem -> bool) (r : abstractDefaultRule) : bool :=
  existsb p (groupedItems r).

Lemma hasItem_append p f i r : hasItem p (appendItem f i r) = hasItem p r || p i.
Proof.
  unfold hasItem. rewrite <- (orb_comm (p i)). change (p i || existsb p (groupedItems r))
    with (existsb p (i :: groupedItems r)).
  assert (Hp : Permutation (groupedItems (appendItem f i r)) (i :: groupedItems r)).
  { destruct r, f; unfold groupedItems; cbn; solve_Permutation. }
  apply eq_true_iff_eq. rewrite !existsb_exists. by setoid_rewrite Hp.
Qed.

(** The value [v] of a flag on the item a constructor gives. *)
Lemma addWhen_flag p v c f item r :
  result_all (fun i => p i = v) item ->
  result_all (fun r' => hasItem p r' = hasItem p r || (c && v)) (addWhen c f item r).
Proof.
  intros Hi. unfold addWhen. destruct c; cbn; [|by rewrite orb_false_r].
  destruct item as [i|]; [|done]. cbn in *. by rewrite hasItem_append, Hi.
Qed.

Lemma failWhen_flag p c msg r :
  result_all (fun r' => hasItem p r' = hasItem p r) (failWhen c msg r).
Proof. by destruct c. Qed.

(** The items of the fallible constructors. *)
Lemma domainItem_flag p v d s :
  (forall x, p (ItemDomain x) = v) -> result_all (fun i => p i = v) (domainItem d s).
Proof. intros H. unfold domainItem. destruct (NewDomainItem d s); [apply H|done]. Qed.
Lemma domainRegexItem_flag p v l msg :
  (forall x, p (ItemDomainRegex x) = v) ->
  result_all (fun i => p i = v) (result_cause (domainRegexItem l) msg).
Proof. intros H. unfold domainRegexItem. destruct (NewDomainRegexItem l); [apply H|done]. Qed.
Lemma cidrItem_flag p v b l msg :
  (forall x, cidr_isSource x = b -> p (ItemIPCIDR x) = v) ->
  result_all (fun i => p i = v) (cidrItem b l msg).
Proof.
  intros H. unfold cidrItem, NewIPCIDRItem. destruct (parseCIDRs 0 l); [|done]. cbn.
  destruct (IPSet_Build _); [|done]. by apply H.
Qed.
Lemma portRangeItem_flag p v b l msg :
  (forall x, pr_isSource x = b -> p (ItemPortRange x) = v) ->
  result_all (fun i => p i = v) (portRangeItem b l msg).
Proof.
  intros H. unfold portRangeItem, NewPortRangeItem. destruct (parsePortRanges l); [|done].
  by apply H.
Qed.
Lemma processPathRegexItem_flag p v l :
  (forall x, p (ItemProcessPathRegex x) = v) ->
  result_all (fun i => p i = v) (processPathRegexItem l).
Proof. intros H. unfold processPathRegexItem. destruct (NewProcessPathRegexItem l); [apply H|done]. Qed.
Lemma packageNameRegexItem_flag p v l :
  (forall x, p (ItemPackageNameRegex x) = v) ->
  result_all (fun i => p i = v) (packageNameRegexItem l).
Proof. intros H. unfold packageNameRegexItem. destruct (NewPackageNameRegexItem l); [apply H|done]. Qed.

Lemma ipVersionItem_flag p v version :
  (forall x, p (ItemIPVersion x) = v) -> result_all (fun i => p i = v) (ipVersionItem version).
Proof. intros H. unfold ipVersionItem. destruct (_ || _); [apply H|done]. Qed.

(** The flag of one item, known from its constructor. *)
Ltac flag_refl :=
  cbn [result_all isDestinationItem isQueryTypeItem isProcessItem isWIFIItem isResponseItem kindOf cidr_isSource
       priv_isSource port_isSource pr_isSource NewPortItem NewRawIPCIDRItem];
  repeat match goal with H : _ = ?b |- context [if _ then _ else _] => rewrite H end;
  reflexivity.
Ltac item_flag :=
  unfold isOtherItem, isDestinationItem;
  first
  [ apply domainItem_flag; intros ?; flag_refl
  | apply domainRegexItem_flag; intros ?; flag_refl
  | apply processPathRegexItem_flag; intros ?; flag_refl
  | apply packageNameRegexItem_flag; intros ?; flag_refl
  | apply ipVersionItem_flag; intros ?; flag_refl
  | apply cidrItem_flag; intros ? ?; flag_refl
  | apply portRangeItem_flag; intros ? ?; flag_refl
  | flag_refl ].

(** Either of two sources for one item. *)
Lemma addEither_flag {A} p v c f item (o : option A) mk r :
  result_all (fun i => p i = v) item -> (forall x, p (mk x) = v) ->
  result_all (fun r' => hasItem p r' = hasItem p r || ((c || isSome o) && v))
    (if c then addWhen true f item r
     else match o with Some x => addWhen true f (Ok (mk x)) r | None => Ok r end).
Proof.
  intros Hi Hm. destruct c; [by apply addWhen_flag|]. destruct o as [x|].
  - apply addWhen_flag. apply Hm.
  - cbn. by rewrite orb_false_r.
Qed.

Ltac flag_step p :=
  match goal with
  | |- result_all _ (result_bind (addWhen _ _ _ _) _) =>
      eapply result_all_bind; [eapply (addWhen_flag p); item_flag|]
  | |- result_all _ (result_bind (failWhen _ _ _) _) => eapply result_all_bind; [eapply (failWhen_flag p)|]
  | |- result_all _ (result_bind (if _ then _ else
         match _ with Some x => addWhen true _ (Ok (@?mk x)) _ | None => _ end) _) =>
      eapply result_all_bind;
      [eapply (addEither_flag p _ _ _ _ _ mk); [item_flag|intros ?; unfold isOtherItem, isDestinationItem; flag_refl]|]
  | |- result_all _ (if _ then _ else
         match _ with Some x => addWhen true _ (Ok (@?mk x)) _ | None => _ end) =>
      eapply result_all_mono;
      [eapply (addEither_flag p _ _ _ _ _ mk); [item_flag|intros ?; unfold isOtherItem, isDestinationItem; flag_refl]|]
  end;
  let r := fresh "r" in let H := fresh "H" in
  intros r H; cbv beta in H;
  repeat match type of H with
  | context [?c && false] => rewrite (andb_false_r c) in H
  | context [?c && true] => rewrite (andb_true_r c) in H
  | context [?c || false] => rewrite (orb_false_r c) in H
  | context [hasItem ?p (emptyRule ?i ?a)] => change (hasItem p (emptyRule i a)) with false in H
  | context [false || ?c] => change (false || c) with c in H
  end;
  try match type of H with _ = hasItem _ ?r0 || _ =>
    match goal with E : hasItem _ r0 = _ |- _ => rewrite E in H; clear E end end;
  try match type of H with _ = hasItem _ ?r0 =>
    match goal with E : hasItem _ r0 = _ |- _ => rewrite E in H; clear E end end.

Lemma headless_isDestination nm o inv act :
  result_all (fun r => hasItem isDestinationItem r = isIPCIDRHeadlessRule o)
    (NewDefaultHeadlessRuleItems nm o (emptyRule inv act)).
Proof. unfold NewDefaultHeadlessRuleItems. repeat flag_step isDestinationItem. assumption. Qed.

Lemma headless_isQueryType nm o inv act :
  result_all (fun r => hasItem isQueryTypeItem r = isDNSQueryTypeHeadlessRule o)
    (NewDefaultHeadlessRuleItems nm o (emptyRule inv act)).
Proof. unfold NewDefaultHeadlessRuleItems. repeat flag_step isQueryTypeItem. assumption. Qed.
Lemma headless_isProcess nm o inv act :
  result_all (fun r => hasItem isProcessItem r = isProcessHeadlessRule o)
    (NewDefaultHeadlessRuleItems nm o (emptyRule inv act)).
Proof. unfold NewDefaultHeadlessRuleItems. repeat flag_step isProcessItem. assumption. Qed.
Lemma headless_isWIFI o inv act :
  result_all (fun r => hasItem isWIFIItem r = isWIFIHeadlessRule o)
    (NewDefaultHeadlessRuleItems true o (emptyRule inv act)).
Proof. unfold NewDefaultHeadlessRuleItems. repeat flag_step isWIFIItem. assumption. Qed.

(** The fields that [isNonIPCIDRHeadlessRule] sees and that make no item: an
    empty map, and a list that is empty and not nil. *)
Definition emptyFields (o : DefaultHeadlessRuleOptions) : bool :=
  h_EmptyLists o || match h_NetworkInterfaceAddress o with Some [] => true | _ => false end.
Definition otherFields (o : DefaultHeadlessRuleOptions) : bool :=
  isNonIPCIDRHeadlessRule {| o with h_EmptyLists := false;
    h_NetworkInterfaceAddress := if typedMapEmpty (h_NetworkInterfaceAddress o) then None else h_NetworkInterfaceAddress o |}.
Lemma isNonIPCIDR_split o : isNonIPCIDRHeadlessRule o = otherFields o || emptyFields o.
Proof.
  unfold otherFields, emptyFields, isNonIPCIDRHeadlessRule, DefaultHeadlessRule_otherSet.
  destruct o as [? ? ? ? ? ? ? ? ? ? ? ? ? ? ? ? ? ? ? ? ? ? nia ? ? ? ? ? ? ? ? el]. cbn -[nonEmpty].
  destruct nia as [[|]|], el; cbn -[nonEmpty]; by rewrite ?orb_true_r, ?orb_false_r.
Qed.
Lemma headless_isOther o inv act :
  result_all (fun r => hasItem isOtherItem r = otherFields o)
    (NewDefaultHeadlessRuleItems true o (emptyRule inv act)).
Proof.
  unfold NewDefaultHeadlessRuleItems. repeat flag_step isOtherItem. cbv beta.
  match goal with H : hasItem isOtherItem ?r = _ |- hasItem isOtherItem ?r = _ => rewrite H end. clear.
  unfold otherFields, isNonIPCIDRHeadlessRule, DefaultHeadlessRule_otherSet.
  destruct o as [? ? ? ? ? ? ? ? ? ? ? ? ? ? ? ? ? ? ? ? ? ? nia ? ? ? ? ? ? ? ? el]. cbn -[nonEmpty].
  destruct nia as [[|]|]; cbn -[nonEmpty]; try change (nonEmpty (@nil (Z * list Prefix))) with false; cbn [negb isSome];
    rewrite ?andb_true_r, ?andb_false_r, ?orb_false_r, ?orb_true_r; try done; apply eq_true_iff_eq; rewrite !orb_true_iff; intuition congruence.
Qed.

Lemma headless_isResponse nm o inv act :
  result_all (fun r => hasItem isResponseItem r = false) (NewDefaultHeadlessRuleItems nm o (emptyRule inv act)).
Proof. unfold NewDefaultHeadlessRuleItems. repeat flag_step isResponseItem. assumption. Qed.
Lemma dns_isResponse o inv act :
  result_all (fun r => hasItem isResponseItem r =
      isSome (d_ResponseRcode o) || nonEmpty (d_ResponseAnswer o) || nonEmpty (d_ResponseNs o) || nonEmpty (d_ResponseExtra o))
    (defaultDNSRuleItems o (emptyRule inv act)).
Proof. unfold defaultDNSRuleItems. repeat flag_step isResponseItem. assumption. Qed.

(** The rules of a tree, down to the default rules. *)
Fixpoint anyDefault (Q : abstractDefaultRule -> bool) (h : HeadlessRule) : bool :=
  match h with
  | DefaultRule r | DefaultHeadlessRule r | DefaultDNSRule r _ _ _ => Q r
  | LogicalRule (mkLogicalRule rules _ _ _) | LogicalHeadlessRule (mkLogicalRule rules _ _ _)
  | LogicalDNSRule (mkLogicalRule rules _ _ _) _ _ _ => existsb (anyDefault Q) rules
  end.

(** A type is given at every level, as decoding a rule-set leaves it. *)
Fixpoint typed (o : HeadlessRuleOptions) : bool :=
  match o with
  | mkHeadlessRuleOptions typ _ (mkLogicalHeadlessRuleOptions _ rules _) =>
      negb (String.eqb typ "") && forallb typed rules
  end.

Lemma existsb_Forall2 {A B} (f : A -> bool) (g : B -> bool) l l' :
  Forall2 (fun x y => f y = g x) l' l -> existsb f l = existsb g l'.
Proof. induction 1 as [|x y l' l Hxy _ IH]; cbn; [done|]. by rewrite Hxy, IH. Qed.

(** The sub-rules, built one by one. *)
Lemma any_built nm any cond msg i l rs :
  Forall (fun o => typed o = true ->
            result_all (fun h => any h = HasHeadlessRule1 cond o) (NewHeadlessRule nm o)) l ->
  forallb typed l = true ->
  mapi_result (fun i o => result_cause (NewHeadlessRule nm o) (msg i)) i l = Ok rs ->
  existsb any rs = existsb (HasHeadlessRule1 cond) l.
Proof.
  intros IH Ht Hrs. apply existsb_Forall2. apply mapi_result_Ok in Hrs.
  induction Hrs as [|o h l rs [j Hj] Hrs IHl]; [constructor|].
  apply Forall_cons_iff in IH as [Ho IH]. cbn in Ht. apply andb_prop in Ht as [Ht1 Ht2].
  constructor; [|by apply IHl]. specialize (Ho Ht1).
  destruct (NewHeadlessRule nm o); [|done]. by injection Hj as <-.
Qed.

Lemma NewHeadlessRule_any nm any Q cond :
  (forall r, any (DefaultHeadlessRule r) = Q r) ->
  (forall rs mode inv act,
     any (LogicalHeadlessRule (mkLogicalRule rs mode inv act)) = existsb any rs) ->
  (forall d, result_all (fun r => Q r = cond d)
               (NewDefaultHeadlessRuleItems nm d (emptyRule (h_Invert d) None))) ->
  forall o, typed o = true ->
  result_all (fun h => any h = HasHeadlessRule1 cond o) (NewHeadlessRule nm o).
Proof.
  intros Hd Hl Hq o.
  induction o as [typ d mode rules inv IH] using HeadlessRuleOptions_nested_ind.
  rewrite NewHeadlessRule_eq. cbn [typed HasHeadlessRule1]. intros Ht.
  apply andb_prop in Ht as [Ht Hrules]. apply negb_true_iff in Ht. rewrite Ht. cbn [orb].
  destruct (String.eqb typ RuleTypeDefault).
  { destruct (negb _); [done|]. unfold NewDefaultHeadlessRule.
    eapply result_all_bind; [apply Hq|]. intros r Hr. cbn. by rewrite Hd. }
  destruct (String.eqb typ RuleTypeLogical); [|done].
  apply (result_all_bind (fun _ => True)); [by apply result_all_pure|]. intros valid _.
  destruct (negb valid); [done|]. rewrite NewLogicalHeadlessRule_eq.
  apply (result_all_bind (fun _ => True)); [by apply result_all_pure|]. intros m _.
  destruct (mapi_result _ 0 rules) as [rs|] eqn:Hrs; [|done]. cbn. rewrite Hl.
  eapply any_built; [exact IH|done|exact Hrs].
Qed.

(** The destination items of a well built rule are one group. *)
Lemma groupedItems_elem i r : In i (groupedItems r) <-> exists f, i ∈ fieldItems f r.
Proof.
  unfold groupedItems. rewrite !in_app_iff, <- !list_elem_of_In. split.
  - intros [H|[H|[H|[H|[H|H]]]]];
      [exists F_items|exists F_sourceAddress|exists F_sourcePort|exists F_destinationAddress
      |exists F_destinationIPCIDR|exists F_destinationPort]; exact H.
  - intros [[] H]; cbn in H; tauto.
Qed.

Lemma hasItem_destination r :
  wellBuilt r -> hasItem isDestinationItem r = nonEmpty (destinationIPCIDRItems r).
Proof.
  intros [_ Hk]. unfold hasItem, isDestinationItem. apply eq_true_iff_eq.
  rewrite existsb_exists. split.
  - intros (i & Hin & Hi). apply groupedItems_elem in Hin as [f Hf]. rewrite (Hk f i Hf) in Hi.
    destruct f; try done. cbn in Hf. by destruct (destinationIPCIDRItems r); [set_solver|].
  - intros Hne. destruct (destinationIPCIDRItems r) as [|i l] eqn:E; [done|].
    assert (Hi : i ∈ fieldItems F_destinationIPCIDR r) by (cbn; rewrite E; set_solver).
    exists i. rewrite groupedItems_elem, (Hk _ i Hi). eauto.
Qed.

(** A built headless rule defers when it has a destination item. *)
Lemma headless_canDefer nm d :
  result_all (fun r => canDefer_default false r = isIPCIDRHeadlessRule d)
    (NewDefaultHeadlessRuleItems nm d (emptyRule (h_Invert d) None)).
Proof.
  pose proof (headless_isDestination nm d (h_Invert d) None) as Hd.
  pose proof (headlessItems_built nm d _ (wellBuilt_empty (h_Invert d) None)) as Hw.
  pose proof (headlessItems_keeps (bare None) (bare_append None) nm d _
                (bare_empty (h_Invert d) None)) as Hb.
  destruct (NewDefaultHeadlessRuleItems _ _ _) as [r|]; [|done]. cbn in *.
  rewrite <- Hd, hasItem_destination by done. destruct Hb as [Hb _].
  destruct r as [its sa sp da dc dp all rs inv act]. cbn in Hb. subst rs.
  cbn [canDefer_default negb andb destinationIPCIDRItems]. apply orb_false_r.
Qed.

Definition ruleSet_rules (s : RuleSet) : list HeadlessRule :=
  match s with mkRuleSet _ rules _ => rules end.

Lemma HasHeadlessRule_or c1 c2 rules :
  HasHeadlessRule rules (fun d => c1 d || c2 d) = HasHeadlessRule rules c1 || HasHeadlessRule rules c2.
Proof.
  assert (H : forall r, HasHeadlessRule1 (fun d => c1 d || c2 d) r = HasHeadlessRule1 c1 r || HasHeadlessRule1 c2 r).
  { intros r. induction r as [typ d mode l inv IH] using HeadlessRuleOptions_nested_ind. cbn [HasHeadlessRule1].
    destruct (String.eqb typ RuleTypeDefault); [done|]. destruct (String.eqb typ RuleTypeLogical); [|done].
    induction IH as [|x l Hx _ IH]; [done|]. cbn [existsb]. rewrite Hx, IH. destruct (HasHeadlessRule1 c1 x), (HasHeadlessRule1 c2 x);
      cbn [orb]; by rewrite ?orb_true_r. }
  unfold HasHeadlessRule. induction rules as [|x l IH]; [done|]. cbn [existsb]. rewrite H, IH.
  destruct (HasHeadlessRule1 c1 x), (HasHeadlessRule1 c2 x); cbn [orb]; by rewrite ?orb_true_r.
Qed.
Lemma HasHeadlessRule_ext c1 c2 rules : (forall d, c1 d = c2 d) -> HasHeadlessRule rules c1 = HasHeadlessRule rules c2.
Proof.
  intros Hc. assert (H : forall r, HasHeadlessRule1 c1 r = HasHeadlessRule1 c2 r).
  { intros r. induction r as [typ d mode l inv IH] using HeadlessRuleOptions_nested_ind. cbn [HasHeadlessRule1]. rewrite Hc.
    destruct (String.eqb typ RuleTypeDefault); [done|]. destruct (String.eqb typ RuleTypeLogical); [|done].
    induction IH as [|x l Hx _ IH]; [done|]. cbn [existsb]. by rewrite Hx, IH. }
  unfold HasHeadlessRule. induction rules as [|x l IH]; [done|]. cbn [existsb]. by rewrite H, IH.
Qed.

(** The flags of a rule-set, against what its built rules contain. *)
Definition metadataExact (headlessRules : list HeadlessRuleOptions) (s : RuleSet) : Prop :=
  let has p := existsb (anyDefault (hasItem p)) (ruleSet_rules s) in
  ContainsIPCIDRRule (RuleSet_Metadata s) = has isDestinationItem
  /\ ContainsProcessRule (RuleSet_Metadata s) = has isProcessItem
  /\ ContainsWIFIRule (RuleSet_Metadata s) = has isWIFIItem
  /\ ContainsDNSQueryTypeRule (RuleSet_Metadata s) = has isQueryTypeItem
  /\ ContainsNonIPCIDRRule (RuleSet_Metadata s) = has isOtherItem || HasHeadlessRule headlessRules emptyFields.

(** C35 Loading a rule-set computes its metadata, when a network manager is there
    and every rule names its type, as decoded rules do: the flags for
    destination addresses, processes, Wi-Fi and query types are set when, and
    only when, a rule of the loaded set, at any depth, has such an item.  The
    flag for other items is set when, and only when, a rule has an item that is
    no destination address or the options of one have an empty list or map,
    which makes no item.  The address flag is the one the address check of
    legacy DNS rules relies on. *)
Theorem reload_metadata_exact validate headlessRules s s'
    (Htyped : forallb typed headlessRules = true)
    (Hreload : reloadRules true validate headlessRules s = Ok s') :
  metadataExact headlessRules s' /\ metadata_set false s' = true.
Proof.
  destruct s as [tag rules0 md0]. cbn [reloadRules] in Hreload. inv_bind. subst s'.
  rename a into rs.
  assert (H : forall any Q cond, (forall r, any (DefaultHeadlessRule r) = Q r) ->
    (forall rs mode inv act,
       any (LogicalHeadlessRule (mkLogicalRule rs mode inv act)) = existsb any rs) ->
    (forall d, result_all (fun r => Q r = cond d)
               (NewDefaultHeadlessRuleItems true d (emptyRule (h_Invert d) None))) ->
    HasHeadlessRule headlessRules cond = existsb any rs).
  { intros any Q cond Hd Hl Hq. symmetry. eapply any_built; [|exact Htyped|exact Hr].
    apply Forall_forall. intros o _. by apply (NewHeadlessRule_any true any Q cond). }
  split.
  - unfold metadataExact. cbn [RuleSet_Metadata buildRuleSetMetadata ruleSet_rules ContainsIPCIDRRule
      ContainsProcessRule ContainsWIFIRule ContainsDNSQueryTypeRule ContainsNonIPCIDRRule].
    rewrite (HasHeadlessRule_ext isNonIPCIDRHeadlessRule _ _ isNonIPCIDR_split), HasHeadlessRule_or.
    split_and!; [..|f_equal];
      match goal with |- _ = existsb (anyDefault ?Q) _ => apply (H (anyDefault Q) Q) end;
      try done; intros d;
      auto using headless_isDestination, headless_isProcess, headless_isWIFI, headless_isQueryType, headless_isOther.
  - unfold metadata_set. cbn [canDefer_set RuleSet_Metadata buildRuleSetMetadata ContainsIPCIDRRule].
    rewrite (H (canDefer_rule false) (canDefer_default false)); auto using headless_canDefer.
    by destruct (existsb _ _).
Qed.
End metadata.

(** ** Examples *)

Module BuildExamples.
#[local] Existing Instance ref_libs.

Definition headlessOptions (domainSuffix processName : list string) (ipSet : option IPSet) :
    DefaultHeadlessRuleOptions :=
  mkDefaultHeadlessRuleOptions [] [] [] domainSuffix [] [] [] [] [] [] [] [] processName [] [] []
    [] [] false false [] [] None [] false None None ipSet [] None false false.
Definition plain (d : DefaultHeadlessRuleOptions) : HeadlessRuleOptions :=
  mkHeadlessRuleOptions RuleTypeDefault d (mkLogicalHeadlessRuleOptions "" [] false).
Definition exRules : list HeadlessRuleOptions :=
  [plain (headlessOptions ["example.org"] [] None);
   mkHeadlessRuleOptions RuleTypeLogical (headlessOptions [] [] None)
     (mkLogicalHeadlessRuleOptions LogicalTypeAnd
        [plain (headlessOptions [] [] (Some [inl (mkPrefix (Addr4 (10 * 2 ^ 24)) 8)]));
         plain (headlessOptions [] ["curl"] None)] false)].
Definition exSet : RuleSet := mkRuleSet "set" [] (mkRuleSetMetadata false false false false false).
Definition accept (_ : string) (_ : RuleSetMetadata) : result unit := Ok tt.

Lemma reload_metadata_exact_witness :
  exists s', reloadRules true accept exRules exSet = Ok s'
    /\ ContainsIPCIDRRule (RuleSet_Metadata s') = true
    /\ metadataExact exRules s' /\ metadata_set false s' = true.
Proof.
  destruct (reloadRules true accept exRules exSet) as [s'|] eqn:E; [|discriminate E].
  exists s'. split; [reflexivity|]. split; [by injection E as <-|].
  apply (reload_metadata_exact accept exRules exSet s'); [reflexivity|exact E].
Defined.
End BuildExamples.
