(* ===== verification/RuleStart.v ===== *)
(** * Starting and closing rules

    [Start] and [Close] of [route/rule/rule_abstract.go], of the items that have
    them, and the reference counts of rule-sets.  The theorem: whatever is
    started and closed, in any order, with or without errors, the count of a
    rule-set is the number of places that hold it, and [DecRef] never panics. *)

From S2P Require Import Prelude.
From S2P Require Import GoText.
From S2P Require Import NetIP.
From S2P Require Import Libs.
From S2P Require Import Metadata.
From S2P Require Import RuleItems.
From S2P Require Import RuleAction.
From S2P Require Import RuleEngine.
From S2P Require Import RuleSound.
From S2P Require Import RuleOptions.
From S2P Require Import RuleBuild.
Local Open Scope Z_scope.

(** ** Reference counts *)

(** An [atomic.Int32] per rule-set, by its tag. *)
Notation refCounts := (gmap string Z).
Definition int32 (n : Z) : Z := (n + 2 ^ 31) mod 2 ^ 32 - 2 ^ 31.
Definition refCount (refs : refCounts) (tag : string) : Z := default 0 (refs !! tag).
Definition IncRef (tag : string) (refs : refCounts) : refCounts :=
  <[tag := int32 (refCount refs tag + 1)]> refs.
Definition DecRef (tag : string) (refs : refCounts) : result refCounts :=
  let n := int32 (refCount refs tag - 1) in
  if n <? 0 then Err (GoPanic "rule-set: negative refs") else Ok (<[tag := n]> refs).

Lemma int32_small n : - 2 ^ 31 <= n < 2 ^ 31 -> int32 n = n.
Proof. intros H. unfold int32. rewrite Z.mod_small; lia. Qed.

Lemma refCount_inc tag refs t :
  0 <= refCount refs tag < 2 ^ 31 - 1 ->
  refCount (IncRef tag refs) t = refCount refs t + (if decide (t = tag) then 1 else 0).
Proof.
  intros H. unfold IncRef. rewrite int32_small by lia. unfold refCount.
  destruct (decide (t = tag)) as [->|Hne]; [by rewrite lookup_insert_eq|].
  rewrite lookup_insert_ne by done. lia.
Qed.

Lemma refCount_dec tag refs :
  0 < refCount refs tag < 2 ^ 31 -> exists refs', DecRef tag refs = Ok refs' /\
  forall t, refCount refs' t = refCount refs t - (if decide (t = tag) then 1 else 0).
Proof.
  intros H. unfold DecRef. rewrite int32_small by lia.
  replace (_ <? 0) with false by (symmetry; apply Z.ltb_ge; lia). eexists. split; [done|].
  intros t. unfold refCount in *. destruct (decide (t = tag)) as [->|Hne]; [by rewrite lookup_insert_eq|].
  rewrite lookup_insert_ne by done. lia.
Qed.

Section start.
Context `{L : Libs}.

Definition set_tag (s : RuleSet) : string := match s with mkRuleSet tag _ _ => tag end.
Definition tagList (i : RuleSetItem) : list string := match i with mkRuleSetItem tags _ _ _ => tags end.

(** What the items look up when they start. *)
Record StartEnv := mkStartEnv {
  se_RuleSet : string -> option RuleSet;
  se_ClashMode : bool;
  se_Outbound : string -> option (string * option PreferredOutbound);
  se_Transport : string -> option (string * option PreferredTransport) }.

Context (se : StartEnv).

(** ** The rule-set item *)

Fixpoint releaseSets (sets : list RuleSet) (refs : refCounts) : result refCounts :=
  match sets with
  | [] => Ok refs
  | ruleSet :: sets => let? refs := DecRef (set_tag ruleSet) refs in releaseSets sets refs
  end.
Definition RuleSetItem_Close (i : RuleSetItem) (refs : refCounts) : result (RuleSetItem * refCounts) :=
  match i with
  | mkRuleSetItem tags sets a b =>
      let? refs := releaseSets sets refs in Ok (mkRuleSetItem tags [] a b, refs)
  end.

(** The loop of [RuleSetItem.Start]; [held] is the list so far. *)
Fixpoint acquireSets (tags : list string) (held : list RuleSet) (refs : refCounts) :
    option GoError * list RuleSet * refCounts :=
  match tags with
  | [] => (None, held, refs)
  | tag :: tags =>
      match se_RuleSet se tag with
      | None => (Some (E_New ("rule-set not found: " ++ tag)%string), held, refs)
      | Some ruleSet => acquireSets tags (held ++ [ruleSet]) (IncRef (set_tag ruleSet) refs)
      end
  end.
Definition RuleSetItem_Start (i : RuleSetItem) (refs : refCounts) :
    result (option GoError * RuleSetItem * refCounts) :=
  let? '(i, refs) := RuleSetItem_Close i refs in
  match i with
  | mkRuleSetItem tags _ a b =>
      let '(err, held, refs) := acquireSets tags [] refs in
      let i := mkRuleSetItem tags held a b in
      match err with
      | Some e => let? '(i, refs) := RuleSetItem_Close i refs in Ok (Some e, i, refs)
      | None => Ok (None, i, refs)
      end
  end.

(** ** The other items *)

Definition RuleItem_Start (i : RuleItem) : option GoError * RuleItem :=
  match i with
  | ItemClashMode r => (None, ItemClashMode (ClashModeItem_Start (se_ClashMode se) r))
  | ItemPreferredBy r => let '(err, r) := PreferredByItem_Start (se_Outbound se) r in (err, ItemPreferredBy r)
  | ItemPreferredByDNS r => let '(err, r) := PreferredByDNSItem_Start (se_Transport se) r in (err, ItemPreferredByDNS r)
  | _ => (None, i)
  end.

(** The groups hold the items of [allItems] by reference.  Of each of the three
    kinds of items that have a [Start] a rule has at most one, so that an item of
    a group has started when an item of its kind has. *)
Definition sameStarter (i : RuleItem) (j : AllItem) : bool :=
  match i, j with
  | ItemClashMode _, AllItemOf (ItemClashMode _)
  | ItemPreferredBy _, AllItemOf (ItemPreferredBy _)
  | ItemPreferredByDNS _, AllItemOf (ItemPreferredByDNS _) => true
  | _, _ => false
  end.
Definition startedAmong (reached : list AllItem) (i : RuleItem) : RuleItem :=
  if existsb (sameStarter i) reached then snd (RuleItem_Start i) else i.
Definition startedAll (reached : list AllItem) (i : AllItem) : AllItem :=
  match i with AllItemOf i => AllItemOf (startedAmong reached i) | AllItemRuleSet => AllItemRuleSet end.

(** ** Rules *)

(** The loop over [allItems], to the first error; with the items it has reached. *)
Fixpoint startItems (all reached : list AllItem) (rs : option RuleSetItem) (refs : refCounts) :
    result (option GoError * list AllItem * option RuleSetItem * refCounts) :=
  match all with
  | [] => Ok (None, reached, rs, refs)
  | AllItemOf i :: all =>
      let reached := reached ++ [AllItemOf i] in
      match fst (RuleItem_Start i) with
      | Some e => Ok (Some e, reached, rs, refs)
      | None => startItems all reached rs refs
      end
  | AllItemRuleSet :: all =>
      match rs with
      | None => startItems all reached rs refs
      | Some i =>
          let? '(err, i, refs) := RuleSetItem_Start i refs in
          match err with
          | Some e => Ok (Some e, reached, Some i, refs)
          | None => startItems all reached (Some i) refs
          end
      end
  end.
Definition DefaultRule_Start (r : abstractDefaultRule) (refs : refCounts) :
    result (option GoError * abstractDefaultRule * refCounts) :=
  match r with
  | mkDefaultRule its sa sp da dc dp all rs invert action =>
      let? '(err, reached, rs, refs) := startItems all [] rs refs in
      let started := map (startedAmong reached) in
      Ok (err, mkDefaultRule (started its) (started sa) (started sp) (started da) (started dc) (started dp)
                 (map (startedAll reached) all) rs invert action, refs)
  end.

Fixpoint closeItems (all : list AllItem) (rs : option RuleSetItem) (refs : refCounts) :
    result (option RuleSetItem * refCounts) :=
  match all with
  | [] => Ok (rs, refs)
  | AllItemOf _ :: all => closeItems all rs refs
  | AllItemRuleSet :: all =>
      match rs with
      | None => closeItems all rs refs
      | Some i => let? '(i, refs) := RuleSetItem_Close i refs in closeItems all (Some i) refs
      end
  end.
Definition DefaultRule_Close (r : abstractDefaultRule) (refs : refCounts) :
    result (abstractDefaultRule * refCounts) :=
  match r with
  | mkDefaultRule its sa sp da dc dp all rs invert action =>
      let? '(rs, refs) := closeItems all rs refs in
      Ok (mkDefaultRule its sa sp da dc dp all rs invert action, refs)
  end.

(** The loops of the logical rule over its rules. *)
Section loops.
Context (start : HeadlessRule -> refCounts -> result (option GoError * HeadlessRule * refCounts)).
Context (close : HeadlessRule -> refCounts -> result (HeadlessRule * refCounts)).
Fixpoint startLoop (rules : list HeadlessRule) (refs : refCounts) :
    result (option GoError * list HeadlessRule * refCounts) :=
  match rules with
  | [] => Ok (None, [], refs)
  | h :: rules =>
      let? '(err, h, refs) := start h refs in
      match err with
      | Some e => Ok (Some e, h :: rules, refs)
      | None => let? '(err, rules, refs) := startLoop rules refs in Ok (err, h :: rules, refs)
      end
  end.
Fixpoint closeLoop (rules : list HeadlessRule) (refs : refCounts) : result (list HeadlessRule * refCounts) :=
  match rules with
  | [] => Ok ([], refs)
  | h :: rules =>
      let? '(h, refs) := close h refs in
      let? '(rules, refs) := closeLoop rules refs in Ok (h :: rules, refs)
  end.
End loops.

Fixpoint HeadlessRule_Start (h : HeadlessRule) (refs : refCounts) :
    result (option GoError * HeadlessRule * refCounts) :=
  let start r refs wrap := let? '(err, r, refs) := DefaultRule_Start r refs in Ok (err, wrap r, refs) in
  let startLogical rules mode invert action refs wrap :=
    let? '(err, rules, refs) := startLoop HeadlessRule_Start rules refs in
    Ok (err, wrap (mkLogicalRule rules mode invert action), refs) in
  match h with
  | DefaultRule r => start r refs DefaultRule
  | DefaultHeadlessRule r => start r refs DefaultHeadlessRule
  | DefaultDNSRule r mr tag race => start r refs (fun r => DefaultDNSRule r mr tag race)
  | LogicalRule (mkLogicalRule rules mode inv act) => startLogical rules mode inv act refs LogicalRule
  | LogicalHeadlessRule (mkLogicalRule rules mode inv act) => startLogical rules mode inv act refs LogicalHeadlessRule
  | LogicalDNSRule (mkLogicalRule rules mode inv act) tags anonymous race =>
      startLogical rules mode inv act refs (fun r => LogicalDNSRule r tags anonymous race)
  end.

Fixpoint HeadlessRule_Close (h : HeadlessRule) (refs : refCounts) : result (HeadlessRule * refCounts) :=
  let close r refs wrap := let? '(r, refs) := DefaultRule_Close r refs in Ok (wrap r, refs) in
  let closeLogical rules mode invert action refs wrap :=
    let? '(rules, refs) := closeLoop HeadlessRule_Close rules refs in
    Ok (wrap (mkLogicalRule rules mode invert action), refs) in
  match h with
  | DefaultRule r => close r refs DefaultRule
  | DefaultHeadlessRule r => close r refs DefaultHeadlessRule
  | DefaultDNSRule r mr tag race => close r refs (fun r => DefaultDNSRule r mr tag race)
  | LogicalRule (mkLogicalRule rules mode inv act) => closeLogical rules mode inv act refs LogicalRule
  | LogicalHeadlessRule (mkLogicalRule rules mode inv act) => closeLogical rules mode inv act refs LogicalHeadlessRule
  | LogicalDNSRule (mkLogicalRule rules mode inv act) tags anonymous race =>
      closeLogical rules mode inv act refs (fun r => LogicalDNSRule r tags anonymous race)
  end.

(** ** The counts are exact *)

Notation occ l t := (Z.of_nat (count_occ String.string_dec l t)).

(** The counts are those of [l] on top of [c]. *)
Definition exact (c : string -> Z) (l : list string) (refs : refCounts) : Prop :=
  forall t, refCount refs t = c t + occ l t.
Definition fits (c : string -> Z) (l : list string) : Prop := forall t, 0 <= c t /\ c t + occ l t < 2 ^ 31.

Lemma occ_cons x l t : occ (x :: l) t = (if decide (t = x) then 1 else 0) + occ l t.
Proof.
  cbn [count_occ]. destruct (String.string_dec x t), (decide (t = x)); subst; (lia || congruence).
Qed.
Lemma occ_app l k t : occ (l ++ k) t = occ l t + occ k t.
Proof. rewrite count_occ_app. lia. Qed.
Lemma exact_app c l k refs : exact c (l ++ k) refs <-> exact (fun t => c t + occ k t) l refs.
Proof. split; intros H t; specialize (H t); rewrite occ_app in *; lia. Qed.
Lemma exact_app_l c l k refs : exact c (l ++ k) refs <-> exact (fun t => c t + occ l t) k refs.
Proof. split; intros H t; specialize (H t); rewrite occ_app in *; lia. Qed.

Definition names (sets : list RuleSet) : list string := map set_tag sets.

Lemma release_spec c sets : forall refs,
  exact c (names sets) refs -> fits c (names sets) ->
  exists refs', releaseSets sets refs = Ok refs' /\ exact c [] refs'.
Proof.
  induction sets as [|s sets IH]; intros refs He Hf; [by exists refs|]. cbn [releaseSets names map] in *.
  destruct (refCount_dec (set_tag s) refs) as (refs' & E & Hr).
  { specialize (He (set_tag s)). specialize (Hf (set_tag s)). rewrite occ_cons in *. rewrite decide_True in * by done.
    lia. }
  rewrite E. cbn [result_bind]. apply IH.
  - intros t. rewrite Hr. specialize (He t). rewrite occ_cons in He. unfold names in *. lia.
  - intros t. specialize (Hf t). rewrite occ_cons in Hf. unfold names in *. destruct (decide _); lia.
Qed.

Definition lookupTagged : Prop := forall tag s, se_RuleSet se tag = Some s -> set_tag s = tag.
Hypothesis Htagged : lookupTagged.

Lemma acquire_spec c tags : forall held refs err held' refs',
  exact c (names held) refs -> fits c (names held ++ tags) ->
  acquireSets tags held refs = (err, held', refs') ->
  exact c (names held') refs' /\ fits c (names held')
  /\ (err = None -> names held' = (names held ++ tags)%list).
Proof.
  induction tags as [|tag tags IH]; intros held refs err held' refs' He Hf; cbn [acquireSets].
  { intros [= <- <- <-]. rewrite app_nil_r in *. done. }
  destruct (se_RuleSet se tag) as [s|] eqn:Es.
  - pose proof (Htagged _ _ Es) as Ht. intros H. apply IH in H as (H1 & H2 & H3).
    + split_and!; [done..|]. intros He'. rewrite (H3 He'). unfold names. rewrite map_app, <-app_assoc. cbn. by rewrite Ht.
    + intros t. unfold names. rewrite map_app, occ_app. cbn [map]. rewrite Ht, refCount_inc.
      * rewrite (He t). unfold names. rewrite occ_cons. cbn [count_occ]. lia.
      * rewrite (He tag). specialize (Hf tag). rewrite occ_app, occ_cons, decide_True in Hf by done. lia.
    + unfold names in *. rewrite map_app, <-app_assoc. cbn. by rewrite Ht.
  - intros [= <- <- <-]. split_and!; [done| |done]. intros t. specialize (Hf t). rewrite occ_app in Hf. lia.
Qed.

(** An item holds the sets of its tags, or none. *)
Definition itemOk (i : RuleSetItem) : Prop := names (setList i) = [] \/ names (setList i) = tagList i.

Lemma fits_item c i : itemOk i -> fits c (tagList i) -> fits c (names (setList i)).
Proof. intros [H|H] Hf t; specialize (Hf t); rewrite H; cbn; lia. Qed.

Lemma item_close c i refs :
  itemOk i -> exact c (names (setList i)) refs -> fits c (tagList i) ->
  exists i' refs', RuleSetItem_Close i refs = Ok (i', refs') /\ exact c [] refs'
    /\ setList i' = [] /\ tagList i' = tagList i.
Proof.
  intros Hi He Hf. destruct (release_spec c _ _ He (fits_item _ _ Hi Hf)) as (refs' & E & H').
  destruct i as [tags sets a b]. cbn [RuleSetItem_Close setList] in *. rewrite E. cbn [result_bind].
  by eexists _, _.
Qed.

Lemma item_start c i refs :
  itemOk i -> exact c (names (setList i)) refs -> fits c (tagList i) ->
  exists err i' refs', RuleSetItem_Start i refs = Ok (err, i', refs')
    /\ exact c (names (setList i')) refs' /\ itemOk i' /\ tagList i' = tagList i
    /\ (err = None -> names (setList i') = tagList i).
Proof.
  intros Hi He Hf. destruct (item_close _ _ _ Hi He Hf) as (i1 & refs1 & E1 & He1 & Hs1 & Ht1).
  unfold RuleSetItem_Start. rewrite E1. cbn [result_bind].
  destruct i1 as [tags sets a b]. cbn [setList tagList] in *. subst sets tags.
  destruct (acquireSets (tagList i) [] refs1) as [[err held] refs2] eqn:E2.
  apply (acquire_spec c) in E2 as (He2 & Hf2 & Hn); [|done|done].
  destruct err as [e|].
  - destruct (release_spec c held refs2 He2 Hf2) as (refs3 & E3 & He3). cbn [RuleSetItem_Close].
    rewrite E3. cbn [result_bind]. eexists _, _, _. split_and!; [done|done|by left|done|done].
  - eexists _, _, _. specialize (Hn eq_refl). cbn in Hn. split_and!; [done|done|by right|done|done].
Qed.

(** What a rule holds, and what it names. *)
Definition heldOf (rs : option RuleSetItem) : list string :=
  match rs with Some i => names (setList i) | None => [] end.
Definition wantedOf (rs : option RuleSetItem) : list string := match rs with Some i => tagList i | None => [] end.
Definition optItemOk (rs : option RuleSetItem) : Prop := forall i, rs = Some i -> itemOk i.

Lemma startItems_spec c all : forall reached rs refs,
  optItemOk rs -> exact c (heldOf rs) refs -> fits c (wantedOf rs) ->
  exists err reached' rs' refs', startItems all reached rs refs = Ok (err, reached', rs', refs')
    /\ exact c (heldOf rs') refs' /\ optItemOk rs' /\ wantedOf rs' = wantedOf rs /\ isSome rs' = isSome rs.
Proof.
  induction all as [|[i|] all IH]; intros reached rs refs Hi He Hf; cbn [startItems].
  - by exists None, reached, rs, refs.
  - destruct (fst (RuleItem_Start i)) as [e|]; [by eexists (Some e), _, rs, refs|by apply IH].
  - destruct rs as [i|]; [|by apply IH].
    destruct (item_start c i refs (Hi i eq_refl) He Hf) as (err & i' & refs' & -> & He' & Hi' & Ht & _).
    cbn [result_bind]. assert (Ho : optItemOk (Some i')) by (by intros ? [= <-]).
    destruct err as [e|]; [by exists (Some e), reached, (Some i'), refs'|].
    destruct (IH reached (Some i') refs') as (err & reached2 & rs2 & refs2 & E & H1 & H2 & H3 & H4); [done|done|cbn; by rewrite Ht|].
    exists err, reached2, rs2, refs2. split_and!; try done. rewrite H3. exact Ht.
Qed.

Lemma closeItems_spec c all : forall rs refs,
  optItemOk rs -> exact c (heldOf rs) refs -> fits c (wantedOf rs) ->
  exists rs' refs', closeItems all rs refs = Ok (rs', refs')
    /\ exact c (heldOf rs') refs' /\ optItemOk rs' /\ wantedOf rs' = wantedOf rs /\ isSome rs' = isSome rs
    /\ (heldOf rs = [] \/ AllItemRuleSet ∈ all -> heldOf rs' = []).
Proof.
  induction all as [|[i|] all IH]; intros rs refs Hi He Hf; cbn [closeItems].
  { exists rs, refs. split_and!; try done. set_solver. }
  { destruct (IH rs refs Hi He Hf) as (rs' & refs' & E & H1 & H2 & H3 & H5 & H4). exists rs', refs'.
    split_and!; try done. set_solver. }
  destruct rs as [i|].
  2:{ destruct (IH None refs Hi He Hf) as (rs' & refs' & E & H1 & H2 & H3 & H5 & H4). exists rs', refs'.
      split_and!; try done. intros _. apply H4. by left. }
  destruct (item_close c i refs (Hi i eq_refl) He Hf) as (i' & refs' & -> & He' & Hs & Ht). cbn [result_bind].
  destruct (IH (Some i') refs') as (rs2 & refs2 & E & H1 & H2 & H3 & H5 & H4).
  - intros ? [= <-]. left. by rewrite Hs.
  - cbn. by rewrite Hs.
  - cbn. by rewrite Ht.
  - exists rs2, refs2. split_and!; try done; [rewrite H3; exact Ht|]. intros _. apply H4. left. cbn. by rewrite Hs.
Qed.

(** ** Rule trees *)

Fixpoint heldTags (h : HeadlessRule) : list string :=
  match h with
  | DefaultRule r | DefaultHeadlessRule r | DefaultDNSRule r _ _ _ => heldOf (ruleSetItem r)
  | LogicalRule (mkLogicalRule rules _ _ _) | LogicalHeadlessRule (mkLogicalRule rules _ _ _)
  | LogicalDNSRule (mkLogicalRule rules _ _ _) _ _ _ => flat_map heldTags rules
  end.
Fixpoint wantedTags (h : HeadlessRule) : list string :=
  match h with
  | DefaultRule r | DefaultHeadlessRule r | DefaultDNSRule r _ _ _ => wantedOf (ruleSetItem r)
  | LogicalRule (mkLogicalRule rules _ _ _) | LogicalHeadlessRule (mkLogicalRule rules _ _ _)
  | LogicalDNSRule (mkLogicalRule rules _ _ _) _ _ _ => flat_map wantedTags rules
  end.
(** The rule-set item of a rule is among its items. *)
Definition listed (r : abstractDefaultRule) : Prop :=
  optItemOk (ruleSetItem r) /\ (isSome (ruleSetItem r) = true -> AllItemRuleSet ∈ allItems r).
Definition treeOk : HeadlessRule -> Prop := allDefaults listed.

(** [h'] is [h] after an operation that is exact on the counts. *)
Definition moved (c : string -> Z) (wanted : list string) (held' : list string) (wanted' : list string)
    (refs' : refCounts) : Prop := exact c held' refs' /\ wanted' = wanted.

Definition startOk (h : HeadlessRule) : Prop := forall c refs,
  treeOk h -> exact c (heldTags h) refs -> fits c (wantedTags h) ->
  exists err h' refs', HeadlessRule_Start h refs = Ok (err, h', refs') /\ treeOk h'
    /\ moved c (wantedTags h) (heldTags h') (wantedTags h') refs'.
Definition closeOk (h : HeadlessRule) : Prop := forall c refs,
  treeOk h -> exact c (heldTags h) refs -> fits c (wantedTags h) ->
  exists h' refs', HeadlessRule_Close h refs = Ok (h', refs') /\ treeOk h'
    /\ moved c (wantedTags h) (heldTags h') (wantedTags h') refs' /\ heldTags h' = [].

Lemma default_start r c refs :
  listed r -> exact c (heldOf (ruleSetItem r)) refs -> fits c (wantedOf (ruleSetItem r)) ->
  exists err r' refs', DefaultRule_Start r refs = Ok (err, r', refs') /\ listed r'
    /\ moved c (wantedOf (ruleSetItem r)) (heldOf (ruleSetItem r')) (wantedOf (ruleSetItem r')) refs'.
Proof.
  destruct r as [its sa sp da dc dp all rs inv act]. intros [Hi Hl] He Hf. cbn [ruleSetItem allItems] in *.
  destruct (startItems_spec c all [] rs refs Hi He Hf) as (err & reached & rs' & refs' & E & He' & Hi' & Hw & Hs).
  cbn [DefaultRule_Start]. rewrite E. cbn [result_bind].
  eexists _, _, _; (split_and!; [done|split; [exact Hi'|]|split; [exact He'|exact Hw]]).
  cbn [ruleSetItem allItems]; rewrite Hs; intros H; specialize (Hl H).
  apply list_elem_of_In, (in_map (startedAll reached)) in Hl. by apply list_elem_of_In.
Qed.

Lemma default_close r c refs :
  listed r -> exact c (heldOf (ruleSetItem r)) refs -> fits c (wantedOf (ruleSetItem r)) ->
  exists r' refs', DefaultRule_Close r refs = Ok (r', refs') /\ listed r'
    /\ moved c (wantedOf (ruleSetItem r)) (heldOf (ruleSetItem r')) (wantedOf (ruleSetItem r')) refs'
    /\ heldOf (ruleSetItem r') = [].
Proof.
  destruct r as [its sa sp da dc dp all rs inv act]. intros [Hi Hl] He Hf. cbn [ruleSetItem allItems] in *.
  destruct (closeItems_spec c all rs refs Hi He Hf) as (rs' & refs' & E & He' & Hi' & Hw & Hs & Hc).
  cbn [DefaultRule_Close]. rewrite E. cbn [result_bind]. eexists _, _.
  split_and!; [done|split; [exact Hi'|]|split; [exact He'|exact Hw]|].
  - cbn [ruleSetItem allItems]. by rewrite Hs.
  - apply Hc. destruct rs; [right; by apply Hl|by left].
Qed.

Lemma treeOk_list rules : foldr (fun h acc => allDefaults listed h /\ acc) True rules <-> Forall treeOk rules.
Proof.
  split; [|apply allDefaults_list]. induction rules as [|h rules IH]; cbn [foldr]; [constructor|].
  intros [H1 H2]. apply Forall_cons; auto.
Qed.

Definition heldLeq (h : HeadlessRule) : Prop := treeOk h -> forall t, occ (heldTags h) t <= occ (wantedTags h) t.

Lemma held_list rules t :
  Forall heldLeq rules -> Forall treeOk rules ->
  occ (flat_map heldTags rules) t <= occ (flat_map wantedTags rules) t.
Proof.
  induction 1 as [|h rules Hh _ IH]; intros Hok; [done|]. cbn [flat_map]. rewrite !occ_app.
  specialize (Hh (Forall_inv Hok) t). specialize (IH (Forall_inv_tail Hok)). lia.
Qed.

Lemma held_wanted h : heldLeq h.
Proof.
  assert (Hd : forall r, listed r -> forall t, occ (heldOf (ruleSetItem r)) t <= occ (wantedOf (ruleSetItem r)) t).
  { intros r [Hi _] t. destruct (ruleSetItem r) as [i|]; [|done]. cbn [heldOf wantedOf].
    destruct (Hi i eq_refl) as [-> | ->]; [cbn|]; lia. }
  apply (headless_rule_ind (fun _ => True) (fun _ => True) (fun _ => True)
    (fun r => Forall heldLeq (logical_rules r)) heldLeq); try done; try (intros; intros Hok; by apply Hd);
    intros [rules mode inv act]; intros; intros Hok%treeOk_list t; by apply held_list.
Qed.

Lemma fits_held c l k k' : (forall t, occ k' t <= occ k t) -> fits c (l ++ k) -> fits (fun t => c t + occ k' t) l.
Proof. intros Hk Hf t. specialize (Hf t). specialize (Hk t). rewrite occ_app in Hf. lia. Qed.

Lemma startLoop_spec rules : forall c refs,
  Forall startOk rules -> Forall treeOk rules ->
  exact c (flat_map heldTags rules) refs -> fits c (flat_map wantedTags rules) ->
  exists err rules' refs', startLoop HeadlessRule_Start rules refs = Ok (err, rules', refs') /\ Forall treeOk rules'
    /\ moved c (flat_map wantedTags rules) (flat_map heldTags rules') (flat_map wantedTags rules') refs'.
Proof.
  induction rules as [|h rules IH]; intros c refs Hs Hok He Hf; cbn [startLoop flat_map] in *.
  { by exists None, [], refs. }
  pose proof (Forall_inv_tail Hok) as Hok'.
  destruct (Forall_inv Hs (fun t => c t + occ (flat_map heldTags rules) t) refs) as (err & h' & refs' & E & Hh & He' & Hw).
  { exact (Forall_inv Hok). } { by apply exact_app. }
  { eapply fits_held; [|exact Hf]. intros t. apply held_list; [|done]. apply Forall_forall. intros. apply held_wanted. }
  rewrite E. cbn [result_bind]. destruct err as [e|].
  { eexists _, _, _. split_and!; [done|by apply Forall_cons|]. split; [by apply exact_app|]. cbn [flat_map]. by rewrite Hw. }
  destruct (IH (fun t => c t + occ (heldTags h') t) refs' (Forall_inv_tail Hs) Hok')
    as (err & rules' & refs2 & E2 & Hr & He2 & Hw2).
  { by apply exact_app_l, exact_app. }
  { intros t. specialize (Hf t). rewrite occ_app in Hf. pose proof (held_wanted h' Hh t). rewrite Hw in *. lia. }
  rewrite E2. cbn [result_bind]. eexists _, _, _. split_and!; [done|by apply Forall_cons|].
  split; [by apply exact_app_l|]. cbn [flat_map]. by rewrite Hw, Hw2.
Qed.

Lemma closeLoop_spec rules : forall c refs,
  Forall closeOk rules -> Forall treeOk rules ->
  exact c (flat_map heldTags rules) refs -> fits c (flat_map wantedTags rules) ->
  exists rules' refs', closeLoop HeadlessRule_Close rules refs = Ok (rules', refs') /\ Forall treeOk rules'
    /\ moved c (flat_map wantedTags rules) (flat_map heldTags rules') (flat_map wantedTags rules') refs'
    /\ flat_map heldTags rules' = [].
Proof.
  induction rules as [|h rules IH]; intros c refs Hs Hok He Hf; cbn [closeLoop flat_map] in *.
  { by exists [], refs. }
  pose proof (Forall_inv_tail Hok) as Hok'.
  destruct (Forall_inv Hs (fun t => c t + occ (flat_map heldTags rules) t) refs) as (h' & refs' & E & Hh & [He' Hw] & Hn).
  { exact (Forall_inv Hok). } { by apply exact_app. }
  { eapply fits_held; [|exact Hf]. intros t. apply held_list; [|done]. apply Forall_forall. intros. apply held_wanted. }
  rewrite E. cbn [result_bind].
  destruct (IH (fun t => c t + occ (heldTags h') t) refs' (Forall_inv_tail Hs) Hok')
    as (rules' & refs2 & E2 & Hr & [He2 Hw2] & Hn2).
  { by apply exact_app_l, exact_app. }
  { intros t. specialize (Hf t). rewrite occ_app in Hf. pose proof (held_wanted h' Hh t). rewrite Hw in *. lia. }
  rewrite E2. cbn [result_bind]. eexists _, _. split_and!; [done|by apply Forall_cons| |].
  - split; [by apply exact_app_l|]. cbn [flat_map]. by rewrite Hw, Hw2.
  - cbn [flat_map]. by rewrite Hn, Hn2.
Qed.

Lemma rule_start h : startOk h.
Proof.
  apply (headless_rule_ind (fun _ => True) (fun _ => True) (fun _ => True)
    (fun r => Forall startOk (logical_rules r)) startOk); try done.
  1-3: intros; intros k refs Hok He Hf; destruct (default_start _ k refs Hok He Hf) as (err & r' & refs' & E & Hl & Hm);
    cbn [HeadlessRule_Start]; rewrite E; by eexists _, _, _.
  all: intros [rules mode inv act]; intros; intros k refs Hok%treeOk_list He Hf;
    destruct (startLoop_spec rules k refs) as (err & rules' & refs' & E & Hl & Hm); [done..|];
    cbn [HeadlessRule_Start]; rewrite E; eexists _, _, _; (split_and!; [done|by apply treeOk_list|exact Hm]).
Qed.

Lemma rule_close h : closeOk h.
Proof.
  apply (headless_rule_ind (fun _ => True) (fun _ => True) (fun _ => True)
    (fun r => Forall closeOk (logical_rules r)) closeOk); try done.
  1-3: intros; intros k refs Hok He Hf; destruct (default_close _ k refs Hok He Hf) as (r' & refs' & E & Hl & Hm);
    cbn [HeadlessRule_Close]; rewrite E; by eexists _, _.
  all: intros [rules mode inv act]; intros; intros k refs Hok%treeOk_list He Hf;
    destruct (closeLoop_spec rules k refs) as (rules' & refs' & E & Hl & Hm); [done..|];
    cbn [HeadlessRule_Close]; rewrite E; eexists _, _; (split_and!; [done|by apply treeOk_list|apply Hm..]).
Qed.
End start.

(** ** Any order of starts and closes *)

Notation occ l t := (Z.of_nat (count_occ String.string_dec l t)).

Section lifecycle.
Context `{L : Libs} (se : StartEnv).

Inductive lifecycle := StartRule (k : nat) | CloseRule (k : nat).

(** A step on the rule at an index; an error of [Start] leaves the rule as it is then. *)
Definition runStep (step : lifecycle) (rules : list HeadlessRule) (refs : refCounts) :
    result (list HeadlessRule * refCounts) :=
  match step with
  | StartRule k =>
      match rules !! k with
      | None => Ok (rules, refs)
      | Some h => let? '(_, h, refs) := HeadlessRule_Start se h refs in Ok (<[k := h]> rules, refs)
      end
  | CloseRule k =>
      match rules !! k with
      | None => Ok (rules, refs)
      | Some h => let? '(h, refs) := HeadlessRule_Close h refs in Ok (<[k := h]> rules, refs)
      end
  end.
Fixpoint runSteps (steps : list lifecycle) (rules : list HeadlessRule) (refs : refCounts) :
    result (list HeadlessRule * refCounts) :=
  match steps with
  | [] => Ok (rules, refs)
  | step :: steps => let? '(rules, refs) := runStep step rules refs in runSteps steps rules refs
  end.

Context (Htagged : lookupTagged se).

(** The counts of a list of rules. *)
Record counted (wanted : list string) (rules : list HeadlessRule) (refs : refCounts) : Prop := {
  ct_ok : Forall treeOk rules;
  ct_exact : exact (fun _ => 0) (flat_map heldTags rules) refs;
  ct_wanted : flat_map wantedTags rules = wanted }.

Lemma flat_map_split {A B} (f : A -> list B) (l : list A) k x :
  l !! k = Some x -> flat_map f l = (flat_map f (take k l) ++ f x ++ flat_map f (drop (S k) l))%list.
Proof. intros H. rewrite <-(take_drop_middle l k x H) at 1. by rewrite flat_map_app. Qed.

Lemma flat_map_set {A B} (f : A -> list B) (l : list A) k x y :
  l !! k = Some x -> flat_map f (<[k := y]> l) = (flat_map f (take k l) ++ f y ++ flat_map f (drop (S k) l))%list.
Proof.
  intros H. apply lookup_lt_Some in H. rewrite insert_take_drop by done. by rewrite flat_map_app.
Qed.

(** One rule among the others. *)
Lemma counted_step wanted rules refs k h h' refs' :
  counted wanted rules refs -> rules !! k = Some h -> treeOk h' ->
  let c t := occ (flat_map heldTags (take k rules)) t + occ (flat_map heldTags (drop (S k) rules)) t in
  moved c (wantedTags h) (heldTags h') (wantedTags h') refs' ->
  counted wanted (<[k := h']> rules) refs'.
Proof.
  intros [Hok He Hw] Hk Hh' c [He' Hw']. split.
  - by apply Forall_insert.
  - intros t. specialize (He' t). rewrite (flat_map_set _ _ _ _ _ Hk), !occ_app. unfold c in He'. lia.
  - rewrite (flat_map_set _ _ _ _ _ Hk), Hw', <-(flat_map_split _ _ _ _ Hk). done.
Qed.

Lemma counted_one wanted rules refs k h :
  counted wanted rules refs -> rules !! k = Some h -> fits (fun _ => 0) wanted ->
  let c t := occ (flat_map heldTags (take k rules)) t + occ (flat_map heldTags (drop (S k) rules)) t in
  treeOk h /\ exact c (heldTags h) refs /\ fits c (wantedTags h).
Proof.
  intros [Hok He Hw] Hk Hf c. rewrite (flat_map_split _ _ _ _ Hk) in He.
  pose proof (proj1 (Forall_lookup _ _) Hok _ _ Hk) as Hh. split_and!; [done| |].
  - intros t. specialize (He t). rewrite !occ_app in He. unfold c. lia.
  - intros t. specialize (Hf t). subst wanted. rewrite (flat_map_split _ _ _ _ Hk), !occ_app in Hf. unfold c.
    assert (Hle : forall l, Forall treeOk l -> occ (flat_map heldTags l) t <= occ (flat_map wantedTags l) t).
    { intros l Hl. apply held_list; [apply Forall_forall; intros; apply held_wanted|done]. }
    pose proof (Hle _ (Forall_take _ k _ Hok)). pose proof (Hle _ (Forall_drop _ (S k) _ Hok)). lia.
Qed.

Lemma runStep_counted wanted step rules refs :
  counted wanted rules refs -> fits (fun _ => 0) wanted ->
  exists rules' refs', runStep step rules refs = Ok (rules', refs') /\ counted wanted rules' refs'.
Proof.
  intros Hc Hf. destruct step as [k|k]; cbn [runStep]; (destruct (rules !! k) as [h|] eqn:E; [|by eexists _, _]);
    destruct (counted_one _ _ _ _ _ Hc E Hf) as (H1 & H2 & H3).
  - destruct (rule_start se Htagged h _ _ H1 H2 H3) as (err & h' & refs' & -> & Hh & Hm). cbn [result_bind].
    eexists _, _. split; [done|]. by eapply counted_step.
  - destruct (rule_close se Htagged h _ _ H1 H2 H3) as (h' & refs' & -> & Hh & Hm & _). cbn [result_bind].
    eexists _, _. split; [done|]. by eapply counted_step.
Qed.

Lemma runSteps_counted wanted steps : forall rules refs,
  counted wanted rules refs -> fits (fun _ => 0) wanted ->
  exists rules' refs', runSteps steps rules refs = Ok (rules', refs') /\ counted wanted rules' refs'.
Proof.
  induction steps as [|step steps IH]; intros rules refs Hc Hf; cbn [runSteps]; [by eexists _, _|].
  destruct (runStep_counted _ step _ _ Hc Hf) as (rules1 & refs1 & -> & Hc1). by apply IH.
Qed.
End lifecycle.

(** A built rule that was not started yet. *)
Definition unstarted `{L : Libs} (h : HeadlessRule) : Prop := allDefaults wellBuilt h /\ heldTags h = [].

Lemma unstarted_ok `{L : Libs} h : unstarted h -> treeOk h.
Proof.
  revert h. apply (headless_rule_ind (fun _ => True) (fun _ => True) (fun _ => True)
    (fun r => Forall (fun h => unstarted h -> treeOk h) (logical_rules r)) (fun h => unstarted h -> treeOk h)); try done.
  1-3: intros r; intros; match goal with H : unstarted _ |- _ => destruct H as [[Ha _] Hh] end; split;
    [intros i Hi; left; cbn [heldTags] in Hh; by rewrite Hi in Hh
    |intros Hs; rewrite Ha, Hs; apply elem_of_app; right; by left].
  all: intros [rules mode inv act]; intros; match goal with H : unstarted _ |- _ => destruct H as [Ha Hh] end;
    cbn [heldTags] in Hh; cbn [allDefaults] in Ha; apply treeOk_list.
  all: match goal with H : Forall _ (logical_rules _) |- _ => cbn [logical_rules] in H; induction H as [|h rules Hi _ IH] end;
    [by apply Forall_nil|]; cbn [foldr flat_map] in *; apply app_nil in Hh as [Hh1 Hh2]; destruct Ha as [Ha1 Ha2];
    apply Forall_cons; [by apply Hi|by apply IH].
Qed.

Lemma unstarted_held `{L : Libs} rules : Forall unstarted rules -> flat_map heldTags rules = [].
Proof. induction 1 as [|h rules [_ Hh] _ IH]; [done|]. cbn [flat_map]. by rewrite Hh. Qed.

(** C15 Rules may be started and closed in any order, repeatedly, with starts
    that fail on a missing rule-set or outbound in between: no [DecRef] panics,
    the reference count of a rule-set is always the number of times a rule holds
    it, and once every rule is closed no count is left. *)
Theorem rule_set_refs_exact `{L : Libs} (se : StartEnv) (rules : list HeadlessRule) (steps : list lifecycle) :
  lookupTagged se -> Forall unstarted rules ->
  (forall t, occ (flat_map wantedTags rules) t < 2 ^ 31) ->
  exists rules' refs', runSteps se steps rules ∅ = Ok (rules', refs')
    /\ (forall t, refCount refs' t = occ (flat_map heldTags rules') t)
    /\ exists rules'' refs'', closeLoop HeadlessRule_Close rules' refs' = Ok (rules'', refs'')
       /\ forall t, refCount refs'' t = 0.
Proof.
  intros Ht Hu Hw. assert (Hf : fits (fun _ => 0) (flat_map wantedTags rules)) by (intros t; specialize (Hw t); lia).
  destruct (runSteps_counted se Ht (flat_map wantedTags rules) steps rules ∅) as (rules' & refs' & E & Hc).
  { split; [|intros t|done].
    - eapply Forall_impl; [|exact Hu]. apply unstarted_ok.
    - by rewrite (unstarted_held _ Hu). }
  { done. }
  exists rules', refs'. split; [done|]. destruct Hc as [Hok He Hwt]. split; [done|].
  destruct (closeLoop_spec rules' (fun _ => 0) refs') as (rules2 & refs2 & E2 & _ & [He2 _] & Hn);
    [apply Forall_forall; intros; exact (rule_close se Ht _)|done|done|by rewrite Hwt|].
  exists rules2, refs2. split; [done|]. intros t. rewrite (He2 t), Hn. done.
Qed.

(** ** A run *)

Module RuleStartRuns.
#[local] Existing Instance ref_libs.

Definition setNamed (tag : string) : RuleSet :=
  mkRuleSet tag [] (mkRuleSetMetadata false false false false false).
Definition known (tag : string) : option RuleSet :=
  if String.eqb tag "a" || String.eqb tag "b" then Some (setNamed tag) else None.
Definition startEnv : StartEnv := mkStartEnv known false (fun _ => None) (fun _ => None).
Definition naming (tags : list string) : HeadlessRule :=
  DefaultRule (setRuleSetItem (NewRuleSetItem tags false false) (emptyRule false None)).
Definition named : list HeadlessRule := [naming ["a"; "b"]; naming ["a"; "missing"]; naming ["a"]].
Definition steps : list lifecycle := [StartRule 0; StartRule 1; StartRule 2; StartRule 0; CloseRule 2; CloseRule 2].

Definition countsOf (res : result (list HeadlessRule * gmap string Z)) : option (list Z) :=
  match res with Ok (_, refs) => Some [refCount refs "a"; refCount refs "b"; refCount refs "missing"] | Err _ => None end.

Lemma naming_unstarted tags : unstarted (naming tags).
Proof. split; [|done]. apply wellBuilt_ruleSet; [done|]. apply wellBuilt_empty. Qed.

Lemma rule_set_refs_exact_witness :
  countsOf (runSteps startEnv steps named ∅) = Some [1; 1; 0]
  /\ exists rules' refs', runSteps startEnv steps named ∅ = Ok (rules', refs')
     /\ (forall t, refCount refs' t = Z.of_nat (count_occ String.string_dec (flat_map heldTags rules') t))
     /\ exists rules'' refs'', closeLoop HeadlessRule_Close rules' refs' = Ok (rules'', refs'')
        /\ forall t, refCount refs'' t = 0.
Proof.
  split; [vm_compute; reflexivity|]. apply (rule_set_refs_exact startEnv named steps).
  - intros tag s. cbn. unfold known. destruct (_ || _); [|done]. by intros [= <-].
  - repeat (apply Forall_cons; [apply naming_unstarted|]). by apply Forall_nil.
  - intros t. change (flat_map wantedTags named) with ["a"; "b"; "a"; "missing"; "a"]%string.
    cbn [count_occ]. repeat (destruct (String.string_dec _ _)); lia.
Defined.
End RuleStartRuns.
