(* ===== verification/FakeIP.v ===== *)
(** * FakeIP: [dns/transport/fakeip], [adapter/fakeip.go], [adapter/fakeip_metadata.go]

    The FakeIP server answers address queries with addresses of a configured
    range and remembers which domain each address stands for.  [FakeIPStorage]
    is the interface between the allocator ([Store]) and the place the mapping
    is kept in, with the laws the allocator relies on; [MemoryStorage] is one
    implementation.  The store is proved against the interface. *)

From S2P Require Import Prelude.
From S2P Require Import Bytes.
From S2P Require Import NetIP.
Local Open Scope string_scope.
Local Open Scope Z_scope.

(** ** Saved cursors *)

Record FakeIPMetadata := mkFakeIPMetadata {
  fm_Inet4Range : Prefix; fm_Inet6Range : Prefix;
  fm_Inet4Current : Addr; fm_Inet6Current : Addr }.

(** [binary.Write(&buffer, binary.BigEndian, uint16(len(data))); buffer.Write(data)]. *)
Definition writeElement (data : list Z) : list Z :=
  (be_bytes 2 (Z.of_nat (length data)) ++ data)%list.

Definition FakeIPMetadata_MarshalBinary (m : FakeIPMetadata) : list Z :=
  concat (map writeElement
    [Prefix.MarshalBinary (fm_Inet4Range m); Prefix.MarshalBinary (fm_Inet6Range m);
     Addr.MarshalBinary (fm_Inet4Current m); Addr.MarshalBinary (fm_Inet6Current m)]).

Definition shortRead (reader : list Z) : string :=
  if (length reader =? 0)%nat then "EOF" else "unexpected EOF".

(** One length-prefixed element; [common.Must] panics when the length is cut. *)
Definition readElement (reader : list Z) : result (list Z * list Z) :=
  if (length reader <? 2)%nat then Err (GoPanic (shortRead reader))
  else
    let n := Z.to_nat (be_value (take 2 reader)) in
    let reader := drop 2 reader in
    if (length reader <? n)%nat then Err (E_New (shortRead reader))
    else Ok (take n reader, drop n reader).

Definition unmarshalWith {A} (f : list Z -> option A) (b : list Z) : result A :=
  match f b with Some a => Ok a | None => Err (E_New "unexpected slice size") end.

Definition FakeIPMetadata_UnmarshalBinary (data : list Z) : result FakeIPMetadata :=
  let? '(e, reader) := readElement data in
  let? r4 := unmarshalWith Prefix.UnmarshalBinary e in
  let? '(e, reader) := readElement reader in
  let? r6 := unmarshalWith Prefix.UnmarshalBinary e in
  let? '(e, reader) := readElement reader in
  let? c4 := unmarshalWith Addr.UnmarshalBinary e in
  let? '(e, _) := readElement reader in
  let? c6 := unmarshalWith Addr.UnmarshalBinary e in
  Ok (mkFakeIPMetadata r4 r6 c4 c6).

(** ** The storage interface *)

Class FakeIPStorage (S : Type) := {
  fs_Metadata : S -> option FakeIPMetadata * S;
  fs_SaveMetadata : FakeIPMetadata -> S -> option GoError * S;
  fs_SaveMetadataAsync : FakeIPMetadata -> S -> S;
  fs_Store : Addr -> string -> S -> option GoError * S;
  fs_Load : S -> Addr -> option string;
  fs_LoadDomain : S -> string -> bool -> option Addr;
  fs_Reset : S -> option GoError * S }.

(** An address a storage is given: it has a family and no zone. *)
Definition storable (a : Addr) : Prop :=
  Addr.IsValid a = true /\ Addr.hasZone a = false /\ Addr.wf a.

(** What a store saves: ranges and cursors without zones, within their widths. *)
Definition metadataOk (m : FakeIPMetadata) : Prop :=
  Prefix.canonical (fm_Inet4Range m) /\ Prefix.canonical (fm_Inet6Range m)
  /\ (Addr.wf (fm_Inet4Current m) /\ Addr.hasZone (fm_Inet4Current m) = false)
  /\ (Addr.wf (fm_Inet6Current m) /\ Addr.hasZone (fm_Inet6Current m) = false).

(** The mapping [v'] a failed operation leaves of [v]: all of it, or nothing
    when the storage had to be reset. *)
Definition keptOrLost (v v' : Addr -> option string) : Prop :=
  (forall b, storable b -> v' b = v b) \/ (forall b, storable b -> v' b = None).

(** What a storage promises: it holds one map from addresses to domains, which
    is injective on each family; [fs_LoadDomain] reads it backwards.  Storing
    an unmapped domain updates the map, or reports an error. *)
Class FakeIPStorageLaws (S : Type) `{FakeIPStorage S} := {
  fs_ok : S -> Prop;
  fs_view : S -> Addr -> option string;
  fs_load s a : fs_ok s -> storable a -> fs_Load s a = fs_view s a;
  fs_load_domain s d v6 a :
    fs_ok s -> fs_LoadDomain s d v6 = Some a
               <-> storable a /\ fs_view s a = Some d /\ Addr.Is6 a = v6;
  fs_store s a d e s' :
    fs_ok s -> storable a -> fs_LoadDomain s d (Addr.Is6 a) = None ->
    fs_Store a d s = (e, s') ->
    fs_ok s' /\ match e with
                | None => forall b, storable b ->
                    fs_view s' b = if decide (b = a) then Some d else fs_view s b
                | Some _ => keptOrLost (fs_view s) (fs_view s')
                end;
  fs_reset s s' :
    fs_ok s -> fs_Reset s = (None, s') -> fs_ok s' /\ forall b, storable b -> fs_view s' b = None;
  fs_metadata s m s' :
    fs_ok s -> fs_Metadata s = (m, s') ->
    fs_ok s' /\ (m <> None -> forall b, storable b -> fs_view s' b = fs_view s b);
  fs_save s m s' :
    fs_ok s -> metadataOk m -> fs_SaveMetadata m s = (None, s') ->
    fs_ok s' /\ forall b, storable b -> fs_view s' b = fs_view s b;
  fs_save_async s m :
    fs_ok s -> metadataOk m -> fs_ok (fs_SaveMetadataAsync m s) /\
    forall b, storable b -> fs_view (fs_SaveMetadataAsync m s) b = fs_view s b }.

(** ** [MemoryStorage] *)

Record MemoryStorage := mkMemoryStorage {
  addressCache : gmap Addr string;
  domainCache4 : gmap string Addr;
  domainCache6 : gmap string Addr }.

Definition NewMemoryStorage : MemoryStorage := mkMemoryStorage ∅ ∅ ∅.

Definition MemoryStorage_FakeIPStore (address : Addr) (domain : string) (s : MemoryStorage) :
    option GoError * MemoryStorage :=
  let s :=
    match addressCache s !! address with
    | Some oldDomain =>
        if Addr.Is4 address
        then mkMemoryStorage (addressCache s) (delete oldDomain (domainCache4 s)) (domainCache6 s)
        else mkMemoryStorage (addressCache s) (domainCache4 s) (delete oldDomain (domainCache6 s))
    | None => s
    end in
  let s := mkMemoryStorage (<[address := domain]> (addressCache s)) (domainCache4 s) (domainCache6 s) in
  let s :=
    if Addr.Is4 address
    then mkMemoryStorage (addressCache s) (<[domain := address]> (domainCache4 s)) (domainCache6 s)
    else mkMemoryStorage (addressCache s) (domainCache4 s) (<[domain := address]> (domainCache6 s)) in
  (None, s).

Definition MemoryStorage_FakeIPStoreAsync (address : Addr) (domain : string) (s : MemoryStorage) :
    MemoryStorage := snd (MemoryStorage_FakeIPStore address domain s).
Definition MemoryStorage_FakeIPLoad (s : MemoryStorage) (address : Addr) : option string :=
  addressCache s !! address.
Definition MemoryStorage_FakeIPLoadDomain (s : MemoryStorage) (domain : string) (isIPv6 : bool) :
    option Addr :=
  if negb isIPv6 then domainCache4 s !! domain else domainCache6 s !! domain.
Definition MemoryStorage_FakeIPReset (s : MemoryStorage) : option GoError * MemoryStorage :=
  (None, mkMemoryStorage ∅ ∅ ∅).

#[export] Instance MemoryStorage_storage : FakeIPStorage MemoryStorage := {
  fs_Metadata s := (None, s);
  fs_SaveMetadata _ s := (None, s);
  fs_SaveMetadataAsync _ s := s;
  fs_Store := MemoryStorage_FakeIPStore;
  fs_Load := MemoryStorage_FakeIPLoad;
  fs_LoadDomain := MemoryStorage_FakeIPLoadDomain;
  fs_Reset := MemoryStorage_FakeIPReset }.

(** One family of the mapping: [D] reads [A] backwards on the addresses of [F]. *)
Definition inverseOn (F : Addr -> bool) (A : gmap Addr string) (D : gmap string Addr) : Prop :=
  forall d a, D !! d = Some a <-> A !! a = Some d /\ F a = true.

Lemma inverseOn_store F A D a d :
  inverseOn F A D -> F a = true -> D !! d = None ->
  inverseOn F (<[a := d]> A)
    (<[d := a]> (match A !! a with Some old => delete old D | None => D end)).
Proof.
  intros H Ha Hd d' a'. destruct (decide (d' = d)) as [->|Hne].
  - rewrite lookup_insert_eq. split; [intros [= <-]; by rewrite lookup_insert_eq|].
    destruct (decide (a' = a)) as [->|]; [done|].
    rewrite lookup_insert_ne by done. rewrite <- (H d a'), Hd. done.
  - rewrite lookup_insert_ne by done.
    destruct (decide (a' = a)) as [->|Hna].
    + rewrite lookup_insert_eq. split; [|by intros [[= ->] _]].
      intros HD. exfalso. destruct (A !! a) as [old|] eqn:E.
      * apply lookup_delete_Some in HD as [Ho HD]. apply H in HD as [HD _]. congruence.
      * apply H in HD as [HD _]. congruence.
    + rewrite (lookup_insert_ne A) by done. rewrite <- (H d' a').
      destruct (A !! a) as [old|] eqn:E; [|done]. rewrite lookup_delete_Some.
      split; [by intros []|]. intros HD. split; [|done]. intros ->.
      assert (D !! d' = Some a) by by apply H. congruence.
Qed.

Lemma inverseOn_other F A D a d :
  inverseOn F A D -> F a = false -> inverseOn F (<[a := d]> A) D.
Proof.
  intros H Ha d' a'. rewrite (H d' a'). destruct (decide (a' = a)) as [->|].
  - rewrite Ha. split; by intros [_ ?].
  - by rewrite lookup_insert_ne.
Qed.

Record memory_ok (s : MemoryStorage) : Prop := {
  mo_valid : forall a d, addressCache s !! a = Some d -> storable a;
  mo_4 : inverseOn Addr.Is4 (addressCache s) (domainCache4 s);
  mo_6 : inverseOn Addr.Is6 (addressCache s) (domainCache6 s) }.

Lemma memory_ok_empty : memory_ok (mkMemoryStorage ∅ ∅ ∅).
Proof. split; unfold inverseOn; cbn; intros *; rewrite ?lookup_empty; naive_solver. Qed.

Lemma memory_store s a d :
  memory_ok s -> storable a -> MemoryStorage_FakeIPLoadDomain s d (Addr.Is6 a) = None ->
  memory_ok (snd (MemoryStorage_FakeIPStore a d s))
  /\ addressCache (snd (MemoryStorage_FakeIPStore a d s)) = <[a := d]> (addressCache s).
Proof.
  intros [Hv H4 H6] Ha Hd. destruct s as [A D4 D6]. cbn in *.
  assert (Hv' : forall a' d', <[a := d]> A !! a' = Some d' -> storable a').
  { intros a' d' E. apply lookup_insert_Some in E as [[<- _]|[_ E]]; eauto. }
  unfold MemoryStorage_FakeIPStore, MemoryStorage_FakeIPLoadDomain in *. cbn in *.
  destruct a as [|n|n z]; [by destruct Ha| |]; cbn in *.
  - pose proof (inverseOn_store _ A D4 (Addr4 n) d H4 eq_refl Hd) as Hs.
    pose proof (inverseOn_other _ A D6 (Addr4 n) d H6 eq_refl) as Ho.
    destruct (A !! Addr4 n); cbn; (split; [by split|done]).
  - pose proof (inverseOn_store _ A D6 (Addr6 n z) d H6 eq_refl Hd) as Hs.
    pose proof (inverseOn_other _ A D4 (Addr6 n z) d H4 eq_refl) as Ho.
    destruct (A !! Addr6 n z); cbn; (split; [by split|done]).
Qed.

Lemma storable_family a : storable a -> Addr.Is6 a = negb (Addr.Is4 a).
Proof. destruct a; [by intros []|done..]. Qed.

#[export] Instance MemoryStorage_laws : FakeIPStorageLaws MemoryStorage.
Proof.
  refine (Build_FakeIPStorageLaws _ _ memory_ok (fun s a => addressCache s !! a) _ _ _ _ _ _ _).
  - done.
  - intros [A D4 D6] d v6 a [Hv H4 H6]. cbn in *. unfold MemoryStorage_FakeIPLoadDomain. cbn.
    destruct v6; cbn; [rewrite (H6 d a)|rewrite (H4 d a)]; (split; [intros [HA Hf]|intros (Ha & HA & Hf)]).
    + eauto.
    + done.
    + pose proof (Hv _ _ HA) as Ha. rewrite (storable_family a), Hf by done. done.
    + rewrite storable_family in Hf by done. by destruct (Addr.Is4 a).
  - intros s a d e s' Hok Ha Hd [= <- <-].
    destruct (memory_store s a d Hok Ha Hd) as [Hok' E]. split; [done|]. intros b _.
    change (addressCache (snd (MemoryStorage_FakeIPStore a d s)) !! b
            = if decide (b = a) then Some d else addressCache s !! b).
    rewrite E. destruct (decide (b = a)) as [->|]; [by rewrite lookup_insert_eq|].
    by rewrite lookup_insert_ne.
  - intros s s' _ [= <-]. split; [apply memory_ok_empty|done].
  - by intros s m s' Hok [= <- <-].
  - by intros s m s' Hok _ [= <-].
  - done.
Defined.

(** ** [Store] *)

(** [raw[i/8] |= 1 << (7 - i%8)]. *)
Definition setHostBit (raw : list Z) (i : Z) : list Z :=
  let k := Z.to_nat (i / 8) in
  <[k := Z.lor (raw !!! k) (Z.shiftl 1 (7 - i mod 8))]> raw.

Definition broadcastAddress (prefix : Prefix) : Addr :=
  let addr := p_Addr prefix in
  let raw := Addr.As16 addr in
  let bits := p_Bits prefix in
  let bits := if Addr.Is4 addr then bits + 96 else bits in
  let raw := foldl setHostBit raw (seqZ bits (128 - bits)) in
  if Addr.Is4 addr then Addr.AddrFrom4 (drop 12 raw) else Addr.AddrFrom16 raw.

Section store.
Context {S : Type} `{FakeIPStorage S}.

Record Store := mkStore {
  st_inet4Range : Prefix; st_inet6Range : Prefix;
  st_inet4Last : Addr; st_inet6Last : Addr;
  st_storage : option S;
  st_inet4Current : Addr; st_inet6Current : Addr }.

Definition set_storage (st : Store) (s : S) : Store :=
  mkStore (st_inet4Range st) (st_inet6Range st) (st_inet4Last st) (st_inet6Last st) (Some s)
    (st_inet4Current st) (st_inet6Current st).
Definition set_currents (st : Store) (c4 c6 : Addr) : Store :=
  mkStore (st_inet4Range st) (st_inet6Range st) (st_inet4Last st) (st_inet6Last st)
    (st_storage st) c4 c6.

Definition NewStore (inet4Range inet6Range : Prefix) : Store :=
  mkStore inet4Range inet6Range
    (if Prefix.IsValid inet4Range then broadcastAddress inet4Range else AddrNone)
    (if Prefix.IsValid inet6Range then broadcastAddress inet6Range else AddrNone)
    None AddrNone AddrNone.

Definition Store_metadata (st : Store) : FakeIPMetadata :=
  mkFakeIPMetadata (st_inet4Range st) (st_inet6Range st) (st_inet4Current st) (st_inet6Current st).

(** [storage] is the cache file when it stores FakeIP, a new [MemoryStorage]
    otherwise. *)
Definition Store_Start (storage : S) (st : Store) : Store :=
  let '(metadata, storage) := fs_Metadata storage in
  let fresh :=
    let st := set_currents st
      (if Prefix.IsValid (st_inet4Range st) then Addr.Next (p_Addr (st_inet4Range st))
       else st_inet4Current st)
      (if Prefix.IsValid (st_inet6Range st) then Addr.Next (p_Addr (st_inet6Range st))
       else st_inet6Current st) in
    set_storage st (snd (fs_Reset storage)) in
  match metadata with
  | Some m =>
      if bool_decide (fm_Inet4Range m = st_inet4Range st)
         && bool_decide (fm_Inet6Range m = st_inet6Range st)
      then set_storage (set_currents st (fm_Inet4Current m) (fm_Inet6Current m)) storage
      else fresh
  | None => fresh
  end.

Definition Store_Contains (st : Store) (address : Addr) : bool :=
  Prefix.Contains (st_inet4Range st) address || Prefix.Contains (st_inet6Range st) address.

Definition Store_Close (st : Store) : option GoError * Store :=
  match st_storage st with
  | None => (None, st)
  | Some s =>
      let '(err, s) := fs_SaveMetadata (Store_metadata st) s in
      (err, set_storage st s)
  end.

(** The address after [current] in the range, wrapping before the last one. *)
Definition nextAddress (range : Prefix) (last current : Addr) : Addr :=
  let next := Addr.Next current in
  if bool_decide (next = last) || negb (Prefix.Contains range next)
  then Addr.Next (Addr.Next (p_Addr range)) else next.

(** The part of [Create] under the lock.  An error of the storage is logged; it
    is returned here beside the address. *)
Definition Create_locked (domain : string) (isIPv6 : bool) (s : S) (st : Store) :
    result (Addr * option GoError * Store) :=
  match fs_LoadDomain s domain isIPv6 with
  | Some address => Ok (address, None, st)
  | None =>
      let? '(address, st) :=
        if negb isIPv6 then
          if negb (Addr.IsValid (st_inet4Current st))
          then Err (E_New "missing IPv4 fakeip address range")
          else
            let next := nextAddress (st_inet4Range st) (st_inet4Last st) (st_inet4Current st) in
            Ok (next, set_currents st next (st_inet6Current st))
        else
          if negb (Addr.IsValid (st_inet6Current st))
          then Err (E_New "missing IPv6 fakeip address range")
          else
            let next := nextAddress (st_inet6Range st) (st_inet6Last st) (st_inet6Current st) in
            Ok (next, set_currents st (st_inet4Current st) next) in
      let '(err, s) := fs_Store address domain s in
      Ok (address, err, set_storage st (fs_SaveMetadataAsync (Store_metadata st) s))
  end.

Definition Store_Create (domain : string) (isIPv6 : bool) (st : Store) :
    result (Addr * option GoError * Store) :=
  match st_storage st with
  | None => Err (GoPanic "invalid memory address or nil pointer dereference")
  | Some s =>
      match fs_LoadDomain s domain isIPv6 with
      | Some address => Ok (address, None, st)
      | None => Create_locked domain isIPv6 s st
      end
  end.

Definition Store_Lookup (st : Store) (address : Addr) : result (option string) :=
  match st_storage st with
  | None => Err (GoPanic "invalid memory address or nil pointer dereference")
  | Some s => Ok (fs_Load s address)
  end.

Definition Store_Reset (st : Store) : result (option GoError * Store) :=
  match st_storage st with
  | None => Err (GoPanic "invalid memory address or nil pointer dereference")
  | Some s => let '(err, s) := fs_Reset s in Ok (err, set_storage st s)
  end.
End store.
Arguments Store S : clear implicits.

(** ** The broadcast address *)

Lemma setHostBit_length raw i : length (setHostBit raw i) = length raw.
Proof. unfold setHostBit. apply length_insert. Qed.

Lemma byte_lor_bit b j : is_byte b -> 0 <= j < 8 -> is_byte (Z.lor b (2 ^ j)).
Proof.
  unfold is_byte. intros Hb Hj. change 256 with (2 ^ 8). apply lor_bound; [done| |lia].
  split; [lia|]. apply Z.pow_lt_mono_r; lia.
Qed.

Lemma setHostBit_value raw i :
  length raw = 16%nat -> bytes_ok raw -> 0 <= i < 128 ->
  bytes_ok (setHostBit raw i) /\ be_value (setHostBit raw i) = Z.lor (be_value raw) (2 ^ (127 - i)).
Proof.
  intros Hlen Hok Hi. unfold setHostBit. rewrite Z.shiftl_1_l.
  set (k := Z.to_nat (i / 8)). set (j := 7 - i mod 8).
  assert (Hj : 0 <= j < 8) by (unfold j; pose proof (Z.mod_pos_bound i 8); lia).
  assert (Hk : (k < length raw)%nat) by (unfold k; pose proof (Z.div_lt_upper_bound i 8 16); lia).
  destruct (lookup_lt_is_Some_2 raw k Hk) as [b Hb].
  pose proof (proj1 (Forall_lookup _ _) Hok k b Hb) as Hbyte. cbn in Hbyte.
  rewrite (list_lookup_total_correct _ _ _ Hb).
  split; [apply Forall_insert; [done|by apply byte_lor_bit]|].
  rewrite insert_take_drop by done. rewrite <- (take_drop_middle raw k b Hb) at 3.
  set (l1 := take k raw). set (l2 := drop (Datatypes.S k) raw).
  assert (Hok2 : bytes_ok l2) by by apply Forall_drop.
  assert (Hl2 : length l2 = (15 - k)%nat) by (unfold l2; rewrite length_drop; lia).
  rewrite !be_value_middle.
  pose proof (be_value_bound l2 Hok2) as Hv2. unfold is_byte in Hbyte.
  change 256 with (2 ^ 8) in *. rewrite <- Z.pow_mul_r in * by lia.
  assert (Hbit : 0 <= 2 ^ j < 2 ^ 8) by (split; [lia|apply Z.pow_lt_mono_r; lia]).
  rewrite <- (lor_low (be_value l1) b (2 ^ j) 8) by (done || lia).
  rewrite <- lor_high by lia. rewrite <- Z.pow_add_r by lia. do 2 f_equal.
  unfold j. rewrite Hl2. unfold k. pose proof (Z.div_mod i 8). lia.
Qed.

Lemma hostBits_value n : 0 <= n -> forall raw b,
  length raw = 16%nat -> bytes_ok raw -> 0 <= b -> b + n = 128 ->
  let raw' := foldl setHostBit raw (seqZ b n) in
  length raw' = 16%nat /\ bytes_ok raw' /\ be_value raw' = Z.lor (be_value raw) (Z.ones n).
Proof.
  intros Hn. pattern n. apply natlike_ind; [| |done].
  - intros raw b Hlen Hok Hb Hsum. cbn. by rewrite Z.lor_0_r.
  - intros k Hk IH raw b Hlen Hok Hb Hsum raw'. subst raw'.
    rewrite seqZ_cons by lia. cbn [foldl]. rewrite Z.pred_succ.
    destruct (setHostBit_value raw b Hlen Hok) as [Hok' Hv]; [lia|].
    destruct (IH (setHostBit raw b) (Z.succ b)) as (Hl & Ho & E);
      [by rewrite setHostBit_length|done|lia|lia|].
    split_and!; [done|done|]. rewrite E, Hv, <- Z.lor_assoc. f_equal.
    replace (127 - b) with k by lia. by apply lor_ones_succ.
Qed.

(** The last address of the range of [n] with [h] host bits. *)
Definition lastOf (n h : Z) : Z := n / 2 ^ h * 2 ^ h + (2 ^ h - 1).

Lemma broadcast_4 n b :
  0 <= n < 2 ^ 32 -> 0 <= b <= 32 ->
  broadcastAddress (mkPrefix (Addr4 n) b) = Addr4 (lastOf n (32 - b)).
Proof.
  intros Hn Hb. unfold broadcastAddress, lastOf. cbn [p_Addr p_Bits Addr.Is4 Addr.As16].
  pose proof (hostBits_value (128 - (b + 96)) ltac:(lia) (be_bytes 16 (65535 * 2 ^ 32 + n)) (b + 96))
    as (Hl & Ho & Hv); [apply be_bytes_length|apply be_bytes_ok|lia|lia|].
  set (raw := foldl _ _ _) in *. rewrite be_value_bytes_small in Hv by lia.
  replace (128 - (b + 96)) with (32 - b) in Hv by lia.
  assert (H2 : 2 ^ (32 - b) <= 2 ^ 32) by (apply Z.pow_le_mono_r; lia).
  rewrite lor_low in Hv by (rewrite ?Z.ones_equiv; lia).
  rewrite <- (take_drop 12 raw), be_value_app, length_drop, Hl in Hv.
  pose proof (be_value_bound (drop 12 raw) (Forall_drop _ _ _ Ho)) as Hd.
  rewrite length_drop, Hl in Hd. change (256 ^ Z.of_nat (16 - 12)) with (2 ^ 32) in *.
  pose proof (lor_bound n (Z.ones (32 - b)) 32 ltac:(lia) ltac:(rewrite Z.ones_equiv; lia) ltac:(lia)).
  unfold Addr.AddrFrom4. f_equal. rewrite <- lor_ones by lia. lia.
Qed.

Lemma broadcast_6 n b z :
  0 <= n < 2 ^ 128 -> 0 <= b <= 128 ->
  broadcastAddress (mkPrefix (Addr6 n z) b) = Addr6 (lastOf n (128 - b)) "".
Proof.
  intros Hn Hb. unfold broadcastAddress, lastOf. cbn [p_Addr p_Bits Addr.Is4 Addr.As16].
  pose proof (hostBits_value (128 - b) ltac:(lia) (be_bytes 16 n) b) as (Hl & Ho & Hv);
    [apply be_bytes_length|apply be_bytes_ok|lia|lia|].
  unfold Addr.AddrFrom16. f_equal. rewrite Hv, be_value_bytes_small by done. apply lor_ones; lia.
Qed.
