(* ===== verification/FakeIPTheorems.v ===== *)
(** * Theorems on FakeIP

    Allocation stays in the configured range, an allocated address leads back
    to its domain, and an address is not given out again before the whole range
    has been used. *)

From S2P Require Import Prelude.
From S2P Require Import Bytes.
From S2P Require Import NetIP.
From S2P Require Import FakeIP.
Local Open Scope string_scope.
Local Open Scope Z_scope.

(** ** The addresses of a family *)

Definition widthOf (v6 : bool) : Z := if v6 then 128 else 32.
Definition addrOf (v6 : bool) (n : Z) : Addr := if v6 then Addr6 n "" else Addr4 n.

#[export] Instance addrOf_inj v6 : Inj (=) (=) (addrOf v6).
Proof. intros x y. destruct v6; by intros [=]. Qed.

Lemma addrOf_Is6 v6 n : Addr.Is6 (addrOf v6 n) = v6.
Proof. by destruct v6. Qed.

Lemma addrOf_storable v6 n : 0 <= n < 2 ^ widthOf v6 -> storable (addrOf v6 n).
Proof. intros H. destruct v6; (split; [done|]); (split; [done|]); exact H. Qed.

Lemma addrOf_Next v6 n : n + 1 < 2 ^ widthOf v6 -> Addr.Next (addrOf v6 n) = addrOf v6 (n + 1).
Proof. destruct v6; cbn [widthOf addrOf Addr.Next]; intros H; rewrite decide_False by lia; done. Qed.

Lemma addrOf_Contains v6 n h x :
  0 <= h <= widthOf v6 ->
  Prefix.Contains (mkPrefix (addrOf v6 n) (widthOf v6 - h)) (addrOf v6 x)
  = (x / 2 ^ h =? n / 2 ^ h).
Proof.
  intros Hh. destruct v6; cbn [widthOf addrOf] in *.
  - rewrite Contains_Addr6 by lia. by replace (128 - (128 - h)) with h by lia.
  - rewrite Contains_Addr4 by lia. by replace (32 - (32 - h)) with h by lia.
Qed.

(** A range with room: it starts at [n], has [h] host bits, and the address
    after next is before the last one. *)
Record roomy (v6 : bool) (p : Prefix) (n h : Z) : Prop := {
  rm_prefix : p = mkPrefix (addrOf v6 n) (widthOf v6 - h);
  rm_h : 0 <= h <= widthOf v6;
  rm_n : 0 <= n < 2 ^ widthOf v6;
  rm_room : n + 2 < lastOf n h }.

Section range.
Context (v6 : bool) (p : Prefix) (n h : Z) (Hr : roomy v6 p n h).

Lemma lastOf_bound : n <= lastOf n h < 2 ^ widthOf v6.
Proof.
  destruct Hr as [_ Hh Hn _]. unfold lastOf.
  pose proof (Z.div_mod n (2 ^ h)). pose proof (Z.mod_pos_bound n (2 ^ h)).
  split; [lia|].
  replace (2 ^ widthOf v6) with (2 ^ (widthOf v6 - h) * 2 ^ h) in *
    by (rewrite <- Z.pow_add_r by lia; f_equal; lia).
  assert (n / 2 ^ h < 2 ^ (widthOf v6 - h)) by (apply Z.div_lt_upper_bound; lia). nia.
Qed.

Lemma range_contains x : n <= x <= lastOf n h -> Prefix.Contains p (addrOf v6 x) = true.
Proof.
  destruct Hr as [-> Hh _ _]. intros Hx. rewrite addrOf_Contains by done. apply Z.eqb_eq.
  unfold lastOf in Hx. pose proof (Z.div_mod n (2 ^ h)). pose proof (Z.mod_pos_bound n (2 ^ h)).
  symmetry. apply (Z.div_unique x (2 ^ h) (n / 2 ^ h) (x - n / 2 ^ h * 2 ^ h)); lia.
Qed.

Lemma broadcast_range : broadcastAddress p = addrOf v6 (lastOf n h).
Proof.
  destruct Hr as [-> Hh Hn _]. destruct v6; cbn [addrOf widthOf] in *.
  - rewrite broadcast_6 by lia. by replace (128 - (128 - h)) with h by lia.
  - rewrite broadcast_4 by lia. by replace (32 - (32 - h)) with h by lia.
Qed.

(** The cursor moves one address on and wraps from the last but one to the
    second after the start. *)
Lemma nextAddress_range x :
  n + 1 <= x < lastOf n h ->
  nextAddress p (addrOf v6 (lastOf n h)) (addrOf v6 x)
  = addrOf v6 (if x + 1 =? lastOf n h then n + 2 else x + 1).
Proof.
  intros Hx. pose proof lastOf_bound as Hl. unfold nextAddress.
  rewrite addrOf_Next, range_contains by lia. cbn [negb]. rewrite orb_false_r.
  destruct (Z.eqb_spec (x + 1) (lastOf n h)) as [E|E].
  - rewrite bool_decide_eq_true_2 by by rewrite E.
    rewrite (rm_prefix _ _ _ _ Hr). cbn [p_Addr]. rewrite !addrOf_Next by lia. f_equal. lia.
  - by rewrite bool_decide_eq_false_2 by (intros E'; apply addrOf_inj in E'; lia).
Qed.

(** The number of addresses given out, and the [i]-th of them. *)
Definition poolSize : Z := lastOf n h - (n + 2).
Definition slot (i : Z) : Addr := addrOf v6 (n + 2 + i mod poolSize).

Lemma poolSize_pos : 0 < poolSize.
Proof. destruct Hr. unfold poolSize. lia. Qed.

Lemma slot_pool i : exists x, slot i = addrOf v6 x /\ n + 2 <= x < lastOf n h.
Proof.
  exists (n + 2 + i mod poolSize). split; [done|]. pose proof poolSize_pos.
  pose proof (Z.mod_pos_bound i poolSize). unfold poolSize in *. lia.
Qed.

Lemma nextAddress_slot i :
  -1 <= i < poolSize ->
  nextAddress p (addrOf v6 (lastOf n h)) (addrOf v6 (n + 2 + i)) = slot (i + 1).
Proof.
  intros Hi. rewrite nextAddress_range by (unfold poolSize in Hi; lia). unfold slot.
  destruct (Z.eqb_spec (n + 2 + i + 1) (lastOf n h)) as [E|E]; f_equal.
  - replace (i + 1) with (1 * poolSize) by (unfold poolSize; lia). rewrite Z.mod_mul; [lia|].
    pose proof poolSize_pos. lia.
  - rewrite Z.mod_small; [lia|]. unfold poolSize in *. lia.
Qed.

Lemma slot_inj i j : 0 <= i - j < poolSize -> slot i = slot j -> i = j.
Proof.
  intros Hij E. apply addrOf_inj in E. pose proof poolSize_pos.
  assert (E' : (i - j) mod poolSize = 0).
  { rewrite Zminus_mod. replace (i mod poolSize) with (j mod poolSize) by lia.
    by rewrite Z.sub_diag, Z.mod_0_l by lia. }
  rewrite Z.mod_small in E' by lia. lia.
Qed.
End range.

(** ** The store *)

(** A family without range, or one with room whose cursor is in the range. *)
Inductive familyOk (v6 : bool) (p : Prefix) (last current : Addr) : Prop :=
  | family_off : p = Prefix.zero -> current = AddrNone -> familyOk v6 p last current
  | family_on n h i :
      roomy v6 p n h -> last = addrOf v6 (lastOf n h) -> -1 <= i < poolSize n h ->
      current = addrOf v6 (n + 2 + i) -> familyOk v6 p last current.

Section store.
Context {S : Type} `{HL : FakeIPStorageLaws S}.

Definition rangeOf (v6 : bool) (st : Store S) : Prefix :=
  if v6 then st_inet6Range st else st_inet4Range st.
Definition lastAddr (v6 : bool) (st : Store S) : Addr :=
  if v6 then st_inet6Last st else st_inet4Last st.
Definition currentOf (v6 : bool) (st : Store S) : Addr :=
  if v6 then st_inet6Current st else st_inet4Current st.

(** The invariant of a started store: both families are in order, and every
    address of the mapping is in a range. *)
Record storeOk (s : S) (st : Store S) : Prop := {
  so_storage : st_storage st = Some s;
  so_laws : fs_ok s;
  so_mapped : forall a d, storable a -> fs_view s a = Some d -> Store_Contains st a = true;
  so_family : forall v6, familyOk v6 (rangeOf v6 st) (lastAddr v6 st) (currentOf v6 st) }.

Definition moveCursor (v6 : bool) (st : Store S) (a : Addr) : Store S :=
  if v6 then set_currents st (st_inet4Current st) a else set_currents st a (st_inet6Current st).

(** [Create] for a domain that has no address. *)
Lemma Create_fresh s st d v6 :
  storeOk s st -> fs_LoadDomain s d v6 = None ->
  Store_Create d v6 st =
  if negb (Addr.IsValid (currentOf v6 st))
  then Err (E_New (if v6 then "missing IPv6 fakeip address range"
                   else "missing IPv4 fakeip address range"))
  else
    let a := nextAddress (rangeOf v6 st) (lastAddr v6 st) (currentOf v6 st) in
    let st := moveCursor v6 st a in
    let '(err, s) := fs_Store a d s in
    Ok (a, err, set_storage st (fs_SaveMetadataAsync (Store_metadata st) s)).
Proof.
  intros [Hs _ _ _] Hd. unfold Store_Create, Create_locked. rewrite Hs, Hd.
  destruct v6; cbn -[fs_Store nextAddress]; by destruct (negb _).
Qed.

Lemma Create_known s st d v6 a :
  storeOk s st -> fs_LoadDomain s d v6 = Some a -> Store_Create d v6 st = Ok (a, None, st).
Proof. intros [Hs _ _ _] Hd. unfold Store_Create. by rewrite Hs, Hd. Qed.

Lemma rangeOf_Contains st v6 a :
  Prefix.Contains (rangeOf v6 st) a = true -> Store_Contains st a = true.
Proof. unfold Store_Contains. destruct v6; cbn; intros ->; by rewrite ?orb_true_r. Qed.

Lemma family_valid v6 p last current :
  familyOk v6 p last current -> Addr.IsValid current = negb (bool_decide (p = Prefix.zero)).
Proof.
  intros [-> ->|n h i Hr _ _ ->].
  - by rewrite bool_decide_eq_true_2.
  - rewrite bool_decide_eq_false_2; [by destruct v6|].
    rewrite (rm_prefix _ _ _ _ Hr). destruct v6; discriminate.
Qed.

(** The address the cursor moves to, in a family that is on. *)
Lemma family_next v6 p last current :
  familyOk v6 p last current -> Addr.IsValid current = true ->
  let a := nextAddress p last current in
  storable a /\ Addr.Is6 a = v6 /\ Prefix.Contains p a = true /\ familyOk v6 p last a.
Proof.
  intros [_ ->|n h i Hr -> Hi ->] Hv a; [done|]. subst a.
  rewrite (nextAddress_slot v6 p n h Hr) by done.
  destruct (slot_pool v6 p n h Hr (i + 1)) as (x & -> & Hx).
  pose proof (lastOf_bound v6 p n h Hr) as Hl. destruct Hr as [Hp Hh Hn Hroom] eqn:E.
  split_and!; [apply addrOf_storable; lia|by destruct v6|apply (range_contains v6 p n h Hr); lia|].
  apply (family_on _ _ _ _ n h (x - (n + 2))); [done|done| |f_equal; lia].
  unfold poolSize. lia.
Qed.

(** What is saved of a store in order can be read back. *)
Lemma family_metadata v6 p last current :
  familyOk v6 p last current ->
  Prefix.canonical p /\ Addr.wf current /\ Addr.hasZone current = false.
Proof.
  intros [-> ->|n h i Hr _ Hi ->]; [split; [by left|done]|].
  pose proof (lastOf_bound v6 p n h Hr). destruct Hr as [-> Hh Hn Hroom]. unfold poolSize in Hi.
  split_and!; [right; split_and!| |by destruct v6].
  - split; cbn [p_Addr p_Bits]; [destruct v6; exact Hn|]. destruct v6; cbn in *; lia.
  - by destruct v6.
  - by destruct v6.
  - unfold Addr.wf. destruct v6; cbn [addrOf Addr.bits Addr.BitLen widthOf] in *; lia.
Qed.

Lemma storeOk_metadata s st : storeOk s st -> metadataOk (Store_metadata st).
Proof.
  intros [_ _ _ Hf]. pose proof (family_metadata _ _ _ _ (Hf false)).
  pose proof (family_metadata _ _ _ _ (Hf true)). unfold metadataOk. cbn in *. tauto.
Qed.

(** The mapping after [a] was stored for [d], or not. *)
Definition mapped (v v' : Addr -> option string) (e : option GoError) (a : Addr) (d : string) : Prop :=
  match e with
  | None => forall b, storable b -> v' b = if decide (b = a) then Some d else v b
  | Some _ => keptOrLost v v'
  end.

(** Storing the new address keeps the invariant, whether or not the storage
    reports an error. *)
Lemma storeOk_create s st d v6 e s1 :
  storeOk s st -> fs_LoadDomain s d v6 = None -> Addr.IsValid (currentOf v6 st) = true ->
  let a := nextAddress (rangeOf v6 st) (lastAddr v6 st) (currentOf v6 st) in
  fs_Store a d s = (e, s1) ->
  let st1 := moveCursor v6 st a in
  let s2 := fs_SaveMetadataAsync (Store_metadata st1) s1 in
  storeOk s2 (set_storage st1 s2) /\ storable a /\ Store_Contains st a = true /\ Addr.Is6 a = v6
  /\ mapped (fs_view s) (fs_view s2) e a d.
Proof.
  intros [Hs Hok Hm Hf] Hd Hv a Hst st1 s2.
  destruct (family_next _ _ _ _ (Hf v6) Hv) as (Ha & H6 & Hc & Hfam). fold a in Ha, H6, Hc, Hfam.
  apply rangeOf_Contains in Hc. rewrite <- H6 in Hd.
  destruct (fs_store s a d e s1 Hok Ha Hd Hst) as [Hok1 Hview].
  assert (Hf1 : forall w, familyOk w (rangeOf w st1) (lastAddr w st1) (currentOf w st1)).
  { intros w. specialize (Hf w). subst st1. destruct v6, w; done. }
  assert (Hmd : metadataOk (Store_metadata st1)).
  { pose proof (family_metadata _ _ _ _ (Hf1 false)). pose proof (family_metadata _ _ _ _ (Hf1 true)).
    unfold metadataOk. cbn in *. tauto. }
  destruct (fs_save_async s1 (Store_metadata st1) Hok1 Hmd) as [Hok2 Hview2].
  fold s2 in Hok2, Hview2.
  assert (HV : mapped (fs_view s) (fs_view s2) e a d).
  { unfold mapped, keptOrLost in *. destruct e; [|by intros b Hb; rewrite Hview2, Hview].
    destruct Hview as [H0|H0]; [left|right]; intros b Hb; by rewrite Hview2, H0. }
  assert (HC : forall b, Store_Contains (set_storage st1 s2) b = Store_Contains st b)
    by by destruct v6.
  split_and!; [|done..]. split; [done|done| |intros w; specialize (Hf1 w); by destruct w].
  intros b d' Hb. rewrite HC. unfold mapped, keptOrLost in HV. destruct e.
  - destruct HV as [E|E]; rewrite E by done; [by apply Hm|done].
  - rewrite HV by done. destruct (decide (b = a)) as [->|]; [done|by apply Hm].
Qed.

Lemma Lookup_view s st a : storeOk s st -> storable a -> Store_Lookup st a = Ok (fs_view s a).
Proof. intros [Hs Hok _ _] Ha. unfold Store_Lookup. rewrite Hs. f_equal. by apply fs_load. Qed.

Lemma LoadDomain_fresh s d v6 :
  fs_ok s -> fs_LoadDomain s d v6 = None <->
  (forall a, storable a -> fs_view s a = Some d -> Addr.Is6 a <> v6).
Proof.
  intros Hok. split.
  - intros HN a Hs Ha H6. assert (fs_LoadDomain s d v6 = Some a) by by apply fs_load_domain.
    congruence.
  - intros Hno. destruct (fs_LoadDomain s d v6) as [a|] eqn:E; [|done].
    apply fs_load_domain in E as (Hs & Ha & H6); [|done]. by destruct (Hno a Hs Ha).
Qed.

Lemma create_lemma (s : S) (st : Store S) (d : string) (v6 : bool) (Hst : storeOk s st) :
  match Store_Create d v6 st with
  | Ok (a, e, st') =>
      exists s', storeOk s' st'
      /\ storable a /\ Store_Contains st' a = true /\ Addr.Is6 a = v6
      /\ (e = None -> Store_Lookup st' a = Ok (Some d) /\ Store_Create d v6 st' = Ok (a, None, st')
           /\ forall b, storable b -> b <> a -> Store_Lookup st' b = Store_Lookup st b)
      /\ (e <> None -> (forall b, storable b -> Store_Lookup st' b = Store_Lookup st b)
           \/ (forall b, storable b -> Store_Lookup st' b = Ok None))
  | Err _ => rangeOf v6 st = Prefix.zero /\ fs_LoadDomain s d v6 = None
  end.
Proof.
  destruct (fs_LoadDomain s d v6) as [a|] eqn:Hd.
  - rewrite (Create_known s st d v6 a) by done. exists s.
    pose proof (proj1 (fs_load_domain s d v6 a (so_laws _ _ Hst)) Hd) as (Hs & Ha & H6).
    split_and!; [done|done|by eapply so_mapped|done| |done]. intros _.
    rewrite (Lookup_view s), Ha by done. split_and!; [done| |done]. by apply (Create_known s).
  - rewrite (Create_fresh s) by done. pose proof (so_family _ _ Hst v6) as Hf.
    rewrite (family_valid _ _ _ _ Hf). rewrite negb_involutive. case_bool_decide as Hz; [done|].
    assert (Hv : Addr.IsValid (currentOf v6 st) = true)
      by by rewrite (family_valid _ _ _ _ Hf), bool_decide_eq_false_2.
    cbv zeta. destruct (fs_Store _ d s) as [e s1] eqn:E.
    destruct (storeOk_create s st d v6 e s1 Hst Hd Hv E) as (Hok & Hs & Hc & H6 & Hview).
    set (a := nextAddress _ _ _) in *. set (st1 := moveCursor v6 st a) in *.
    set (s2 := fs_SaveMetadataAsync _ s1) in *. exists s2.
    split_and!; [done|done|by destruct v6|done| |]; intros He; unfold mapped, keptOrLost in Hview.
    + subst e. split_and!.
      * by rewrite (Lookup_view s2), Hview, decide_True.
      * apply (Create_known s2); [done|]. apply fs_load_domain; [apply Hok|].
        by rewrite Hview, decide_True.
      * intros b Hb Hne. by rewrite (Lookup_view s2), (Lookup_view s), Hview, decide_False.
    + destruct e; [|done]. destruct Hview as [H0|H0]; [left|right]; intros b Hb;
        rewrite (Lookup_view s2), ?(Lookup_view s), H0; done.
Qed.

(** C7 [Create] on a started store whose ranges have room (the third address
    of a range comes before its last one, so that a range has at least four),
    whatever the storage: it fails only for a family without range; otherwise the address is of the asked family and in
    the range and the store is in order again.  Unless the storage reported an
    error, the address leads back to the domain, the domain keeps the address
    and no other address changes its domain; an error of the storage leaves
    the mapping as it was or empty. *)
Theorem create_correct (s : S) (st : Store S) (d : string) (v6 : bool) (Hst : storeOk s st) :
  match Store_Create d v6 st with
  | Ok (a, e, st') =>
      exists s', storeOk s' st'
      /\ storable a /\ Store_Contains st' a = true /\ Addr.Is6 a = v6
      /\ (e = None -> Store_Lookup st' a = Ok (Some d) /\ Store_Create d v6 st' = Ok (a, None, st')
           /\ forall b, storable b -> b <> a -> Store_Lookup st' b = Store_Lookup st b)
      /\ (e <> None -> (forall b, storable b -> Store_Lookup st' b = Store_Lookup st b)
           \/ (forall b, storable b -> Store_Lookup st' b = Ok None))
  | Err _ => rangeOf v6 st = Prefix.zero /\ fs_LoadDomain s d v6 = None
  end.
Proof. by apply create_lemma. Qed.

(** ** Runs of allocations *)

(** New domains, one after the other, until one meets an error. *)
Fixpoint createAll (v6 : bool) (domains : list string) (st : Store S) : option (list Addr * Store S) :=
  match domains with
  | [] => Some ([], st)
  | d :: domains =>
      match Store_Create d v6 st with
      | Ok (a, None, st) =>
          match createAll v6 domains st with
          | Some (l, st) => Some (a :: l, st)
          | None => None
          end
      | _ => None
      end
  end.

(** One step of such a run, with the cursor at [i]. *)
Lemma create_step s st d v6 n h i a st' :
  storeOk s st -> roomy v6 (rangeOf v6 st) n h -> -1 <= i < poolSize n h ->
  currentOf v6 st = addrOf v6 (n + 2 + i) -> lastAddr v6 st = addrOf v6 (lastOf n h) ->
  fs_LoadDomain s d v6 = None -> Store_Create d v6 st = Ok (a, None, st') ->
  a = slot v6 n h (i + 1)
  /\ (exists s', storeOk s' st' /\ mapped (fs_view s) (fs_view s') None a d)
  /\ rangeOf v6 st' = rangeOf v6 st /\ lastAddr v6 st' = lastAddr v6 st /\ currentOf v6 st' = a.
Proof.
  intros Hst Hr Hi Hcur Hlast Hd HC. rewrite (Create_fresh s) in HC by done.
  rewrite Hcur in HC. assert (Hv : Addr.IsValid (addrOf v6 (n + 2 + i)) = true) by by destruct v6.
  rewrite Hv, <- Hcur in HC. cbn [negb] in HC. cbv zeta in HC.
  destruct (fs_Store _ d s) as [e s1] eqn:E. rewrite <- Hcur in Hv.
  destruct (storeOk_create s st d v6 e s1 Hst Hd Hv E) as (Hok & _ & _ & _ & Hview).
  injection HC as Ha He HS. subst e. rewrite HS in Hok. rewrite Ha in *.
  split_and!.
  - by rewrite <- Ha, Hcur, Hlast, (nextAddress_slot v6 _ n h Hr).
  - eexists. split; [exact Hok|exact Hview].
  - rewrite <- HS. by destruct v6.
  - rewrite <- HS. by destruct v6.
  - rewrite <- HS. by destruct v6.
Qed.

Lemma slot_mod v6 n h i k :
  0 < poolSize n h -> slot v6 n h (i mod poolSize n h + k) = slot v6 n h (i + k).
Proof. intros Hp. unfold slot. by rewrite Zplus_mod_idemp_l. Qed.

(** The slots a run takes from the cursor [i] on. *)
Definition slotsFrom (v6 : bool) (n h i : Z) (k : nat) : list Addr :=
  map (fun j => slot v6 n h (i + Z.of_nat j)) (seq 0 k).

Lemma slotsFrom_S v6 n h i k :
  slotsFrom v6 n h i (Datatypes.S k) = slot v6 n h i :: slotsFrom v6 n h (i + 1) k.
Proof.
  unfold slotsFrom. cbn [seq map]. rewrite Z.add_0_r. f_equal. rewrite <- seq_shift, map_map.
  apply map_ext. intros j. f_equal. lia.
Qed.

Lemma slotsFrom_mod v6 n h i k :
  0 < poolSize n h -> slotsFrom v6 n h (i mod poolSize n h + 1) k = slotsFrom v6 n h (i + 1) k.
Proof.
  intros Hp. unfold slotsFrom. apply map_ext. intros j. rewrite <- !Z.add_assoc. by apply slot_mod.
Qed.

Lemma slotsFrom_elem v6 p n h i k :
  roomy v6 p n h -> Z.of_nat k < poolSize n h -> slot v6 n h i ∉ slotsFrom v6 n h (i + 1) k.
Proof.
  intros Hr Hk Hin. unfold slotsFrom in Hin.
  apply list_elem_of_In, in_map_iff in Hin as (j & E & Hj%in_seq).
  apply (slot_inj v6 p n h Hr) in E; lia.
Qed.

Lemma createAll_slots v6 n h domains : forall s st i l st',
  storeOk s st -> roomy v6 (rangeOf v6 st) n h -> -1 <= i < poolSize n h ->
  currentOf v6 st = addrOf v6 (n + 2 + i) -> lastAddr v6 st = addrOf v6 (lastOf n h) ->
  NoDup domains -> (forall d, d ∈ domains -> fs_LoadDomain s d v6 = None) ->
  createAll v6 domains st = Some (l, st') ->
  l = slotsFrom v6 n h (i + 1) (length domains) /\
  exists s', storeOk s' st' /\ (forall b, storable b -> b ∉ l -> fs_view s' b = fs_view s b) /\
  (Z.of_nat (length domains) <= poolSize n h ->
   Forall2 (fun d a => storable a /\ fs_view s' a = Some d) domains l).
Proof.
  induction domains as [|d domains IH]; intros s st i l st' Hst Hr Hi Hcur Hlast Hnd Hfresh HC.
  { injection HC as <- <-. split; [done|]. exists s. split_and!; [done|done|constructor]. }
  inversion_clear Hnd as [|? ? Hd Hnd']. cbn [createAll] in HC.
  destruct (Store_Create d v6 st) as [[[a [e|]] st1]|] eqn:E1; try done.
  destruct (createAll v6 domains st1) as [[l1 st2]|] eqn:E2; [|done]. injection HC as <- <-.
  destruct (create_step s st d v6 n h i a st1 Hst Hr Hi Hcur Hlast) as
    (Ha & (s1 & Hst1 & Hv1) & Hr1 & Hl1 & Hc1); [apply Hfresh; set_solver|done|].
  pose proof (poolSize_pos v6 _ n h Hr) as Hp. set (i1 := (i + 1) mod poolSize n h).
  pose proof (Z.mod_pos_bound (i + 1) (poolSize n h) Hp) as Hi1. fold i1 in Hi1.
  destruct (IH s1 st1 i1 l1 st2) as (El & s2 & Hst2 & Hframe & Hall);
    [done|by rewrite Hr1|lia|by rewrite Hc1, Ha|by rewrite Hl1|done| |done|].
  { intros d' Hd'. apply LoadDomain_fresh; [apply Hst1|]. intros b Hsb. rewrite (Hv1 b) by done.
    destruct (decide (b = a)); [intros [= <-]; done|].
    intros Hb. apply (LoadDomain_fresh s d' v6); [apply Hst|apply Hfresh; set_solver|done|done]. }
  subst i1. rewrite slotsFrom_mod in El by done. split.
  { cbn [length]. by rewrite slotsFrom_S, <- El, Ha. }
  exists s2. split_and!; [done| |].
  - intros b Hsb [Hb Hbl]%not_elem_of_cons. rewrite Hframe, (Hv1 b) by done.
    by rewrite decide_False.
  - cbn [length]. intros Hlen. assert (Hsa : storable a).
    { destruct (slot_pool v6 _ n h Hr (i + 1)) as (x & Ex & Hx). rewrite Ha, Ex.
      apply addrOf_storable. pose proof (lastOf_bound v6 _ n h Hr). destruct Hr. lia. }
    constructor; [|apply Hall; lia]. split; [done|].
    rewrite Hframe; [by rewrite (Hv1 a), decide_True|done|].
    rewrite El, Ha. apply (slotsFrom_elem v6 _ n h _ _ Hr). lia.
Qed.

Lemma slotsFrom_NoDup v6 p n h k : forall i,
  roomy v6 p n h -> Z.of_nat k <= poolSize n h -> NoDup (slotsFrom v6 n h i k).
Proof.
  induction k as [|k IH]; intros i Hr Hk; [constructor|].
  rewrite slotsFrom_S. constructor; [|by apply IH; [|lia]].
  apply (slotsFrom_elem v6 p); [done|lia].
Qed.

(** A family with a range always gets an address; the only error is one the
    storage reports. *)
Lemma create_total s st d v6 : storeOk s st -> rangeOf v6 st <> Prefix.zero ->
  exists a e s' st', Store_Create d v6 st = Ok (a, e, st') /\ storeOk s' st'
    /\ rangeOf v6 st' = rangeOf v6 st.
Proof.
  intros Hst Hz. destruct (fs_LoadDomain s d v6) as [a|] eqn:Hd.
  { exists a, None, s, st. by rewrite (Create_known s st d v6 a). }
  rewrite (Create_fresh s) by done. pose proof (so_family _ _ Hst v6) as Hf.
  assert (Hv : Addr.IsValid (currentOf v6 st) = true)
    by by rewrite (family_valid _ _ _ _ Hf), bool_decide_eq_false_2.
  rewrite Hv. cbn [negb]. cbv zeta. destruct (fs_Store _ d s) as [e s1] eqn:E.
  destruct (storeOk_create s st d v6 e s1 Hst Hd Hv E) as (Hok & _).
  do 4 eexists. split; [done|]. split; [exact Hok|]. by destruct v6.
Qed.

(** A run stops only where the storage reports an error. *)
Definition storageFails (v6 : bool) (domains : list string) (st : Store S) : Prop :=
  exists before d after l st1 a e st2, domains = (before ++ d :: after)%list
  /\ createAll v6 before st = Some (l, st1) /\ Store_Create d v6 st1 = Ok (a, Some e, st2).

Lemma createAll_total v6 domains : forall s st, storeOk s st -> rangeOf v6 st <> Prefix.zero ->
  createAll v6 domains st = None -> storageFails v6 domains st.
Proof.
  induction domains as [|d domains IH]; intros s st Hst Hz; [done|].
  destruct (create_total s st d v6 Hst Hz) as (a & [e|] & s' & st' & E & Hst' & Hr); cbn; rewrite E.
  { intros _. by exists [], d, domains, [], st, a, e, st'. }
  destruct (createAll v6 domains st') as [[l st'']|] eqn:El; [done|]. intros _.
  destruct (IH s' st' Hst') as (before & d' & after & l & st1 & a1 & e1 & st2 & -> & E1 & E2); [by rewrite Hr|done|].
  exists (d :: before), d', after, (a :: l), st1, a1, e1, st2. split_and!; [done| |done]. cbn. by rewrite E, E1.
Qed.

(** C38 At most as many new, different domains as a range has usable addresses
    (it has some: [roomy]), on a started store over any storage: if no creation
    reports an error of the storage, all are given an address, the addresses are
    pairwise different, and in the end each of them still leads to its domain; no
    address is reused before the whole range has been used.  A run that stops
    does so at a creation that reports an error of the storage. *)
Theorem allocation_window (s : S) (st : Store S) (v6 : bool) (n h : Z) (domains : list string)
    (Hst : storeOk s st) (Hr : roomy v6 (rangeOf v6 st) n h)
    (Hnd : NoDup domains) (Hfresh : forall d, d ∈ domains -> fs_LoadDomain s d v6 = None)
    (Hlen : Z.of_nat (length domains) <= lastOf n h - (n + 2)) :
  match createAll v6 domains st with
  | Some (l, st') => NoDup l /\ Forall2 (fun d a => Store_Lookup st' a = Ok (Some d)) domains l
  | None => storageFails v6 domains st
  end.
Proof.
  assert (Hz : rangeOf v6 st <> Prefix.zero)
    by (rewrite (rm_prefix _ _ _ _ Hr); by destruct v6).
  destruct (createAll v6 domains st) as [[l st']|] eqn:Hrun; [|by eapply createAll_total].
  pose proof (so_family _ _ Hst v6) as Hf. destruct Hf as [E _|n' h' i Hr' Hl Hi Hc]; [done|].
  assert (n' = n /\ h' = h) as [-> ->].
  { pose proof (rm_prefix _ _ _ _ Hr) as E. rewrite (rm_prefix _ _ _ _ Hr') in E.
    injection E as E1%addrOf_inj E2. lia. }
  destruct (createAll_slots v6 n h domains s st i l st') as (El & s' & Hst' & _ & Hall); try done.
  split.
  - rewrite El. by apply (slotsFrom_NoDup v6 (rangeOf v6 st)).
  - eapply Forall2_impl; [|by apply Hall]. intros d a [Hs Ha]. by rewrite (Lookup_view s'), Ha.
Qed.

(** ** Starting *)

(** The ranges a store is configured with: none, or one with room. *)
Definition rangeOk (v6 : bool) (p : Prefix) : Prop :=
  p = Prefix.zero \/ exists n h, roomy v6 p n h.

Lemma roomy_valid v6 p n h : roomy v6 p n h -> Prefix.IsValid p = true.
Proof.
  intros [-> Hh _ _]. unfold Prefix.IsValid. cbn [p_Addr p_Bits].
  rewrite bool_decide_eq_true_2 by lia. by destruct v6.
Qed.

Lemma family_start v6 p :
  rangeOk v6 p ->
  familyOk v6 p (if Prefix.IsValid p then broadcastAddress p else AddrNone)
    (if Prefix.IsValid p then Addr.Next (p_Addr p) else AddrNone).
Proof.
  intros [->|(n & h & Hr)]; [by apply family_off|]. rewrite (roomy_valid _ _ _ _ Hr).
  pose proof (poolSize_pos _ _ _ _ Hr). pose proof (lastOf_bound _ _ _ _ Hr).
  apply (family_on _ _ _ _ n h (-1)); [done|by apply (broadcast_range v6)|lia|].
  rewrite (rm_prefix _ _ _ _ Hr). cbn [p_Addr]. destruct Hr.
  rewrite addrOf_Next by lia. f_equal. lia.
Qed.

(** A store started on a storage without saved cursors, or with those of
    other ranges, is in order and empty: it forgets the old mapping, which
    may lie outside its ranges, and starts at the first address. *)
Theorem start_fresh (s : S) (r4 r6 : Prefix) (m : option FakeIPMetadata) (s1 s2 : S)
    (Hok : fs_ok s) (H4 : rangeOk false r4) (H6 : rangeOk true r6)
    (Hm : fs_Metadata s = (m, s1)) (Hreset : fs_Reset s1 = (None, s2))
    (Hother : forall x, m = Some x -> fm_Inet4Range x <> r4 \/ fm_Inet6Range x <> r6) :
  storeOk s2 (Store_Start s (NewStore r4 r6))
  /\ forall a, storable a -> Store_Lookup (Store_Start s (NewStore r4 r6)) a = Ok None.
Proof.
  destruct (fs_metadata s m s1 Hok Hm) as [Hok1 _].
  destruct (fs_reset s1 s2 Hok1 Hreset) as [Hok2 Hv2].
  assert (Hst : storeOk s2 (Store_Start s (NewStore r4 r6))).
  { unfold Store_Start. rewrite Hm.
    assert (E : match m with
      | Some m => bool_decide (fm_Inet4Range m = r4) && bool_decide (fm_Inet6Range m = r6)
      | None => false end = false).
    { destruct m as [x|]; [|done]. destruct (Hother x eq_refl);
        [by rewrite (bool_decide_eq_false_2 (_ = r4))|].
      by rewrite (bool_decide_eq_false_2 (_ = r6)), andb_false_r. }
    cbn [st_inet4Range st_inet6Range NewStore].
    destruct m as [x|]; [rewrite E|]; rewrite Hreset; (split; [done|done| |]);
      try (intros a d Ha Hd; rewrite Hv2 in Hd by done; discriminate);
      intros []; cbn; by apply family_start. }
  split; [done|]. intros a Ha. by rewrite (Lookup_view s2), Hv2.
Qed.

Lemma restart_lemma s s1 st :
  storeOk s st -> fs_Metadata s = (Some (Store_metadata st), s1) ->
  let st' := Store_Start s (NewStore (st_inet4Range st) (st_inet6Range st)) in
  storeOk s1 st' /\ (forall v6, currentOf v6 st' = currentOf v6 st)
  /\ forall a, storable a -> Store_Lookup st' a = Store_Lookup st a.
Proof.
  intros Hst Hm st'. destruct (fs_metadata s _ s1 (so_laws _ _ Hst) Hm) as [Hok1 Hv1].
  specialize (Hv1 ltac:(done)).
  assert (E : st' = mkStore (st_inet4Range st) (st_inet6Range st)
    (if Prefix.IsValid (st_inet4Range st) then broadcastAddress (st_inet4Range st) else AddrNone)
    (if Prefix.IsValid (st_inet6Range st) then broadcastAddress (st_inet6Range st) else AddrNone)
    (Some s1) (st_inet4Current st) (st_inet6Current st)).
  { subst st'. unfold Store_Start. rewrite Hm. cbn. by rewrite !bool_decide_eq_true_2. }
  assert (Hst' : storeOk s1 st').
  { rewrite E. split; [done|done| |].
    - intros a d Ha Hd. rewrite Hv1 in Hd by done. by apply (so_mapped _ _ Hst a d).
    - intros v6. pose proof (so_family _ _ Hst v6) as Hf. destruct Hf as [Hz Hc|n h i Hr _ Hi Hc].
      + destruct v6; by apply family_off.
      + apply (family_on _ _ _ _ n h i); try done; destruct v6; try done; cbn in *;
          rewrite (roomy_valid _ _ _ _ Hr); exact (broadcast_range _ _ _ _ Hr). }
  split_and!; [done|rewrite E; by intros []|]. intros a Ha.
  by rewrite (Lookup_view s1), (Lookup_view s), Hv1.
Qed.
End store.

(** ** Saved cursors *)

Lemma readElement_write data rest :
  Z.of_nat (length data) < 65536 -> readElement (writeElement data ++ rest) = Ok (data, rest).
Proof.
  intros Hlen. unfold readElement, writeElement.
  rewrite <- app_assoc, length_app, be_bytes_length.
  rewrite (proj2 (Nat.ltb_ge _ 2)) by lia.
  rewrite take_app_length', drop_app_length' by by rewrite be_bytes_length.
  rewrite be_value_bytes_small by (change (256 ^ Z.of_nat 2) with 65536; lia).
  rewrite Nat2Z.id, length_app, (proj2 (Nat.ltb_ge _ (length data))) by lia.
  by rewrite take_app_length, drop_app_length.
Qed.

Lemma AsSlice_length a : (length (Addr.AsSlice a) <= 16)%nat.
Proof. destruct a; cbn [Addr.AsSlice length]; rewrite ?be_bytes_length; lia. Qed.

Lemma MarshalBinary_length a :
  Addr.hasZone a = false -> (length (Addr.MarshalBinary a) <= 16)%nat.
Proof.
  intros Hz. destruct a as [|n|n []]; try apply AsSlice_length; [|done].
  change (Addr.MarshalBinary (Addr6 n "")) with (Addr.AsSlice (Addr6 n "") ++ [])%list.
  rewrite app_nil_r. apply AsSlice_length.
Qed.

Lemma Prefix_MarshalBinary_length p :
  Prefix.canonical p -> (length (Prefix.MarshalBinary p) <= 17)%nat.
Proof.
  intros Hp. unfold Prefix.MarshalBinary. rewrite length_app. cbn [length].
  enough (length (Addr.MarshalBinary (Addr.withoutZone (p_Addr p))) <= 16)%nat by lia.
  apply MarshalBinary_length. by destruct (p_Addr p).
Qed.

Lemma metadata_roundtrip_lemma m :
  metadataOk m -> FakeIPMetadata_UnmarshalBinary (FakeIPMetadata_MarshalBinary m) = Ok m.
Proof.
  intros (H4 & H6 & [Hc4 Hz4] & [Hc6 Hz6]).
  unfold FakeIPMetadata_UnmarshalBinary, FakeIPMetadata_MarshalBinary. cbn [map concat].
  pose proof (Prefix_MarshalBinary_length _ H4). pose proof (Prefix_MarshalBinary_length _ H6).
  pose proof (MarshalBinary_length _ Hz4). pose proof (MarshalBinary_length _ Hz6).
  repeat (rewrite readElement_write by lia; cbn [result_bind]; unfold unmarshalWith;
          rewrite ?Prefix_roundtrip, ?Addr_roundtrip by done; cbn [result_bind]).
  by destruct m.
Qed.

(** The saved form of the cursors reads back as what was saved. *)
Theorem metadata_roundtrip (m : FakeIPMetadata) (Hm : metadataOk m) :
  FakeIPMetadata_UnmarshalBinary (FakeIPMetadata_MarshalBinary m) = Ok m.
Proof. by apply metadata_roundtrip_lemma. Qed.

(** ** Examples *)

Module FakeIPExamples.

Definition range4 : Prefix := mkPrefix (Addr4 (198 * 2 ^ 24 + 18 * 2 ^ 16)) 29.
Definition st0 : Store MemoryStorage := Store_Start NewMemoryStorage (NewStore range4 Prefix.zero).
Definition s0 : MemoryStorage := mkMemoryStorage ∅ ∅ ∅.

Lemma range4_roomy : roomy false range4 (198 * 2 ^ 24 + 18 * 2 ^ 16) 3.
Proof. split; [done|done|done|by vm_compute]. Qed.

Lemma start_fresh_witness :
  storeOk s0 st0 /\ forall a, storable a -> Store_Lookup st0 a = Ok None.
Proof.
  apply (start_fresh NewMemoryStorage range4 Prefix.zero None NewMemoryStorage s0);
    [apply memory_ok_empty|right; eexists _, _; apply range4_roomy|by left|done|done|done].
Defined.

Lemma st0_ok : storeOk s0 st0.
Proof.
  split; [done|apply memory_ok_empty|done|].
  intros []; [by apply family_off|].
  apply (family_on _ _ _ _ (198 * 2 ^ 24 + 18 * 2 ^ 16) 3 (-1));
    [apply range4_roomy|by vm_compute|by vm_compute|done].
Qed.

Lemma create_correct_witness :
  exists st', Store_Create "a.example" false st0
    = Ok (Addr4 (198 * 2 ^ 24 + 18 * 2 ^ 16 + 2), None, st')
    /\ Store_Lookup st' (Addr4 (198 * 2 ^ 24 + 18 * 2 ^ 16 + 2)) = Ok (Some "a.example").
Proof.
  pose proof (create_correct s0 st0 "a.example" false st0_ok) as H.
  destruct (Store_Create "a.example" false st0) as [[[a e] st']|] eqn:E; [|by destruct H].
  assert (Ha : a = Addr4 (198 * 2 ^ 24 + 18 * 2 ^ 16 + 2) /\ e = None)
    by (vm_compute in E; by injection E as <- <- _).
  destruct Ha as [-> ->]. exists st'. split; [done|].
  destruct H as (_ & _ & _ & _ & _ & H & _). by apply H.
Defined.

Lemma allocation_window_witness :
  match createAll false ["a"; "b"; "c"; "d"; "e"] st0 with
  | Some (l, st') => NoDup l /\ Forall2 (fun d a => Store_Lookup st' a = Ok (Some d)) ["a"; "b"; "c"; "d"; "e"] l
  | None => storageFails false ["a"; "b"; "c"; "d"; "e"] st0
  end.
Proof.
  apply (allocation_window s0 st0 false (198 * 2 ^ 24 + 18 * 2 ^ 16) 3);
    [apply st0_ok|apply range4_roomy| |done|by vm_compute].
  apply (bool_decide_eq_true_1 _). by vm_compute.
Defined.

Lemma metadata_roundtrip_witness :
  FakeIPMetadata_UnmarshalBinary (FakeIPMetadata_MarshalBinary (Store_metadata st0))
  = Ok (Store_metadata st0).
Proof.
  apply metadata_roundtrip.
  split_and!; [right; by vm_compute|by left|by vm_compute|by vm_compute|by vm_compute|by vm_compute].
Defined.

(** A range of two addresses has no room: the first address given out is not
    in the range, so a connection to it is not recognised as FakeIP. *)
Theorem small_range_leaves_range :
  let range := mkPrefix (Addr4 (198 * 2 ^ 24 + 18 * 2 ^ 16)) 31 in
  let st := Store_Start NewMemoryStorage (NewStore range Prefix.zero) in
  exists a st', Store_Create "a.example" false st = Ok (a, None, st')
    /\ Store_Contains st' a = false /\ Store_Lookup st' a = Ok (Some "a.example").
Proof. do 2 eexists. split; [by vm_compute|]. by vm_compute. Qed.
End FakeIPExamples.
