(* ===== verification/Bolt.v ===== *)
(** * The key/value database: [github.com/sagernet/bbolt]

    The database is code outside the repository.  [Bbolt] names the operations
    the cache file uses, on buckets given by their path, with the documented
    behaviour it relies on: a write is seen by later reads of the same key and
    by no others, deleting a bucket deletes what is below it.  A write may
    fail; the transaction is then rolled back by the caller of the operation.
    [ref_bolt] is a concrete instance. *)

From S2P Require Import Prelude.
From S2P Require Import Bytes.
Local Open Scope string_scope.
Local Open Scope Z_scope.

Notation Path := (list (list Z)).

(** [p] is [q] or a bucket above [q]. *)
Definition above (p q : Path) : bool := bool_decide (take (length p) q = p).

Class Bbolt := {
  BoltDB : Type;
  bolt_empty : BoltDB;
  bolt_bucket : BoltDB -> Path -> bool;
  bolt_get : BoltDB -> Path -> list Z -> option (list Z);
  (* the names of the buckets in a bucket, its keys with values, in byte order *)
  bolt_children : BoltDB -> Path -> list (list Z);
  bolt_entries : BoltDB -> Path -> list (list Z * list Z);
  bolt_create : Path -> BoltDB -> result BoltDB;
  bolt_put : Path -> list Z -> list Z -> BoltDB -> result BoltDB;
  bolt_delete : Path -> list Z -> BoltDB -> result BoltDB;
  bolt_deleteBucket : Path -> BoltDB -> result BoltDB;
  (* documented behaviour *)
  bolt_empty_bucket p : bolt_bucket bolt_empty p = false;
  bolt_get_nobucket db p k : bolt_bucket db p = false -> bolt_get db p k = None;
  bolt_create_bucket p db db' q :
    bolt_create p db = Ok db' -> bolt_bucket db' q = bolt_bucket db q || bool_decide (q = p);
  bolt_create_get p db db' q k : bolt_create p db = Ok db' -> bolt_get db' q k = bolt_get db q k;
  bolt_put_key p v db : bolt_put p [] v db = Err (E_New "key required");
  bolt_put_bucket p k v db db' q :
    bolt_put p k v db = Ok db' -> bolt_bucket db' q = bolt_bucket db q;
  bolt_put_get p k v db db' q j :
    bolt_put p k v db = Ok db' ->
    bolt_get db' q j = if decide (q = p /\ j = k) then Some v else bolt_get db q j;
  bolt_delete_bucket p k db db' q :
    bolt_delete p k db = Ok db' -> bolt_bucket db' q = bolt_bucket db q;
  bolt_delete_get p k db db' q j :
    bolt_delete p k db = Ok db' ->
    bolt_get db' q j = if decide (q = p /\ j = k) then None else bolt_get db q j;
  bolt_deleteBucket_bucket p db db' q :
    bolt_deleteBucket p db = Ok db' -> bolt_bucket db' q = bolt_bucket db q && negb (above p q);
  bolt_deleteBucket_get p db db' q k :
    bolt_deleteBucket p db = Ok db' ->
    bolt_get db' q k = if above p q then None else bolt_get db q k;
  bolt_entries_get db p k v : In (k, v) (bolt_entries db p) <-> bolt_get db p k = Some v;
  bolt_children_bucket db p n : In n (bolt_children db p) <-> bolt_bucket db (p ++ [n])%list = true
}.

(** ** A concrete instance: a map from paths to maps *)

Notation RefDB := (gmap Path (gmap (list Z) (list Z))).

Definition ref_get (db : RefDB) (p : Path) (k : list Z) : option (list Z) :=
  match db !! p with Some m => m !! k | None => None end.
Definition ref_create (p : Path) (db : RefDB) : result RefDB :=
  Ok (match db !! p with Some _ => db | None => <[p := ∅]> db end).
Definition ref_put (p : Path) (k v : list Z) (db : RefDB) : result RefDB :=
  match k with
  | [] => Err (E_New "key required")
  | _ => match db !! p with
         | Some m => Ok (<[p := <[k := v]> m]> db)
         | None => Err (E_New "bucket not found")
         end
  end.
Definition ref_delete (p : Path) (k : list Z) (db : RefDB) : result RefDB :=
  match db !! p with
  | Some m => Ok (<[p := delete k m]> db)
  | None => Err (E_New "bucket not found")
  end.
Definition ref_deleteBucket (p : Path) (db : RefDB) : result RefDB :=
  Ok (filter (fun q => above p (fst q) = false) db).
Definition ref_children (db : RefDB) (p : Path) : list (list Z) :=
  omap (fun q => match drop (length p) (fst q) with
                 | [n] => if above p (fst q) then Some n else None
                 | _ => None
                 end) (map_to_list db).

Lemma ref_insert_get (db : RefDB) p m q k :
  ref_get (<[p := m]> db) q k = if decide (q = p) then m !! k else ref_get db q k.
Proof.
  unfold ref_get. destruct (decide (q = p)) as [->|]; [by rewrite lookup_insert_eq|].
  by rewrite lookup_insert_ne.
Qed.

Lemma ref_insert_bucket (db : RefDB) p m q :
  isSome (<[p := m]> db !! q) = isSome (db !! q) || bool_decide (q = p).
Proof.
  destruct (decide (q = p)) as [->|].
  - by rewrite lookup_insert_eq, bool_decide_eq_true_2, orb_true_r.
  - by rewrite lookup_insert_ne, bool_decide_eq_false_2, orb_false_r.
Qed.

Lemma ref_filter (db : RefDB) p q :
  filter (fun q => above p (fst q) = false) db !! q = if above p q then None else db !! q.
Proof.
  destruct (above p q) eqn:E.
  - apply map_lookup_filter_None. right. intros m _. cbn. by rewrite E.
  - destruct (db !! q) as [m|] eqn:Em.
    + apply map_lookup_filter_Some. by rewrite Em.
    + apply map_lookup_filter_None. by left.
Qed.

Lemma ref_children_spec (db : RefDB) p n :
  In n (ref_children db p) <-> isSome (db !! (p ++ [n])%list) = true.
Proof.
  unfold ref_children. rewrite <- list_elem_of_In, list_elem_of_omap. split.
  - intros ([q m] & Hq & Hn). apply elem_of_map_to_list in Hq. cbn in Hn.
    destruct (drop (length p) q) as [|n' [|]] eqn:Ed; try done.
    destruct (above p q) eqn:Ea; [|done]. injection Hn as <-.
    apply bool_decide_eq_true_1 in Ea. rewrite <- (take_drop (length p) q), Ea, Ed in Hq.
    by rewrite Hq.
  - intros Hs. destruct (db !! _) as [m|] eqn:E; [|done]. exists ((p ++ [n])%list, m).
    rewrite elem_of_map_to_list. split; [done|]. cbn. rewrite drop_app_length.
    unfold above. by rewrite take_app_length, bool_decide_eq_true_2.
Qed.

Lemma above_refl p : above p p = true.
Proof. unfold above. by rewrite take_ge, bool_decide_eq_true_2. Qed.

Lemma ref_entries_spec (db : RefDB) p k v :
  In (k, v) (match db !! p with Some m => map_to_list m | None => [] end) <-> ref_get db p k = Some v.
Proof.
  unfold ref_get. destruct (db !! p) as [m|]; [|done].
  by rewrite <- list_elem_of_In, elem_of_map_to_list.
Qed.

Definition ref_bolt : Bbolt.
Proof.
  refine {| BoltDB := RefDB; bolt_empty := ∅; bolt_bucket db p := isSome (db !! p);
    bolt_get := ref_get; bolt_children := ref_children;
    bolt_entries db p := match db !! p with Some m => map_to_list m | None => [] end;
    bolt_create := ref_create; bolt_put := ref_put; bolt_delete := ref_delete;
    bolt_deleteBucket := ref_deleteBucket |}.
  - done.
  - intros db p k. unfold ref_get. by destruct (db !! p).
  - intros p db db' q [= <-]. destruct (db !! p) as [m|] eqn:E; [|apply ref_insert_bucket].
    destruct (decide (q = p)) as [->|]; [by rewrite E|].
    by rewrite bool_decide_eq_false_2, orb_false_r.
  - intros p db db' q k [= <-]. destruct (db !! p) as [m|] eqn:E; [done|].
    rewrite ref_insert_get. destruct (decide (q = p)) as [->|]; [|done].
    unfold ref_get. by rewrite E.
  - done.
  - intros p k v db db' q. unfold ref_put. destruct k; [done|].
    destruct (db !! p) as [m|] eqn:E; [|done]. intros [= <-]. rewrite ref_insert_bucket.
    destruct (decide (q = p)) as [->|]; [by rewrite E|].
    by rewrite bool_decide_eq_false_2, orb_false_r.
  - intros p k v db db' q j. unfold ref_put. destruct k as [|b k]; [done|].
    destruct (db !! p) as [m|] eqn:E; [|done]. intros [= <-]. rewrite ref_insert_get.
    destruct (decide (q = p)) as [->|]; [|by rewrite decide_False by naive_solver].
    destruct (decide (j = b :: k)) as [->|].
    + by rewrite lookup_insert_eq, decide_True.
    + rewrite lookup_insert_ne, decide_False by naive_solver. unfold ref_get. by rewrite E.
  - intros p k db db' q. unfold ref_delete. destruct (db !! p) as [m|] eqn:E; [|done].
    intros [= <-]. rewrite ref_insert_bucket. destruct (decide (q = p)) as [->|]; [by rewrite E|].
    by rewrite bool_decide_eq_false_2, orb_false_r.
  - intros p k db db' q j. unfold ref_delete. destruct (db !! p) as [m|] eqn:E; [|done].
    intros [= <-]. rewrite ref_insert_get.
    destruct (decide (q = p)) as [->|]; [|by rewrite decide_False by naive_solver].
    destruct (decide (j = k)) as [->|].
    + by rewrite lookup_delete_eq, decide_True.
    + rewrite lookup_delete_ne, decide_False by naive_solver. unfold ref_get. by rewrite E.
  - intros p db db' q [= <-]. rewrite ref_filter. destruct (above p q); cbn; [|by rewrite andb_true_r].
    by rewrite andb_false_r.
  - intros p db db' q k [= <-]. unfold ref_get. rewrite ref_filter. by destruct (above p q).
  - apply ref_entries_spec.
  - apply ref_children_spec.
Defined.
