(* ===== verification/CacheFile.v ===== *)
(** * The cache file: [experimental/cachefile], [adapter.SavedBinary]

    The cache file keeps in one database the selected outbounds, the expanded
    groups, the Clash mode, downloaded rule-sets, the FakeIP mapping, rejected
    DNS responses and the DNS cache.  A transaction is a function on the
    database that may fail; [view], [batch] and [update] run one, roll back on
    an error and reset the database after a panic.  Times are nanoseconds. *)

From S2P Require Import Prelude.
From S2P Require Import GoText.
From S2P Require Import Bytes.
From S2P Require Import NetIP.
From S2P Require Import Libs.
From S2P Require Import FakeIP.
From S2P Require Import Bolt.
Local Open Scope string_scope.
Local Open Scope Z_scope.

(** ** Bucket names *)

Definition bucketSelected : list Z := string_bytes "selected".
Definition bucketExpand : list Z := string_bytes "group_expand".
Definition bucketMode : list Z := string_bytes "clash_mode".
Definition bucketRuleSet : list Z := string_bytes "rule_set".
Definition bucketRDRC : list Z := string_bytes "rdrc2".
Definition bucketDNSCache : list Z := string_bytes "dns_cache".
Definition bucketNameList : list (list Z) :=
  [bucketSelected; bucketExpand; bucketMode; bucketRuleSet; bucketRDRC; bucketDNSCache].
Definition cacheIDDefault : list Z := string_bytes "default".
Definition fakeipBucketPrefix : string := "fakeip_".
Definition bucketFakeIP : list Z := string_bytes (fakeipBucketPrefix ++ "address").
Definition bucketFakeIPDomain4 : list Z := string_bytes (fakeipBucketPrefix ++ "domain4").
Definition bucketFakeIPDomain6 : list Z := string_bytes (fakeipBucketPrefix ++ "domain6").
Definition keyMetadata : list Z := string_bytes (fakeipBucketPrefix ++ "metadata").

Definition ErrNotExist : GoError := E_New "file does not exist".

(** ** Times *)

Definition nanoseconds : Z := 1000000000.
Definition Unix (t : Z) : Z := t / nanoseconds.
Definition time_Unix (sec : Z) : Z := sec * nanoseconds.
(** [binary.BigEndian.PutUint64(b, uint64(t.Unix()))]. *)
Definition putTime (t : Z) : list Z := be_bytes 8 (Unix t mod 2 ^ 64).
(** [time.Unix(int64(binary.BigEndian.Uint64(b)), 0)] on at least eight bytes. *)
Definition getTime (b : list Z) : Z := time_Unix (signed 8 (be_value (take 8 b))).

(** ** [SavedBinary] *)

Record SavedBinary := mkSavedBinary {
  sb_Content : list Z; sb_LastUpdated : Z; sb_LastEtag : string; sb_URLHash : list Z }.

Section savedBinary.
Context `{L : Libs}.

Definition writeCounted (b : list Z) : list Z :=
  (varbin_WriteUvarint (Z.of_nat (length b)) ++ b)%list.

Definition SavedBinary_MarshalBinary (s : SavedBinary) : list Z :=
  ([2] ++ writeCounted (sb_Content s) ++ putTime (sb_LastUpdated s)
   ++ writeCounted (string_bytes (sb_LastEtag s)) ++ writeCounted (sb_URLHash s))%list.

(** A length, refused when it exceeds what is left, and that many bytes. *)
Definition readCounted (what : string) (reader : list Z) : result (list Z * list Z) :=
  let? '(n, reader) := ReadUvarint reader in
  if Z.of_nat (length reader) <? n
  then Err (E_New ("invalid " ++ what ++ " length: " ++ strconv.Itoa n)%string)
  else ReadFull (Z.to_nat n) reader.

Definition SavedBinary_UnmarshalBinary (data : list Z) : result SavedBinary :=
  let? '(version, reader) := readBE 1 data in
  let? '(content, reader) := readCounted "content" reader in
  let? '(lastUpdated, reader) := readBE 8 reader in
  let? '(etag, reader) := readCounted "etag" reader in
  let s := mkSavedBinary content (time_Unix (signed 8 lastUpdated)) (bytes_string etag) [] in
  if version <? 2 then Ok s
  else
    let? '(urlHash, _) := readCounted "url hash" reader in
    Ok (mkSavedBinary (sb_Content s) (sb_LastUpdated s) (sb_LastEtag s) urlHash).
End savedBinary.

(** ** The cache file *)

(** [saveCacheKey]: transport name, question name, query type. *)
Record saveCacheKey := mkCacheKey { TransportName : string; QuestionName : string; QType : Z }.
#[export] Instance saveCacheKey_eq_dec : EqDecision saveCacheKey.
Proof. solve_decision. Defined.
#[export] Instance saveCacheKey_countable : Countable saveCacheKey.
Proof.
  refine (inj_countable' (fun k => (TransportName k, QuestionName k, QType k))
            (fun '(t, q, n) => mkCacheKey t q n) _). by intros [].
Defined.

Record saveDNSCacheEntry := mkDNSCacheEntry {
  dc_rawMessage : list Z; dc_expireAt : Z; dc_sequence : Z; dc_saving : bool }.

Section cacheFile.
Context `{L : Libs} `{B : Bbolt}.
(** Whether the database can be opened again after it was removed. *)
Context (reopen : bool).

Record CacheFile := mkCacheFile {
  cf_cacheID : option (list Z);
  cf_db : option BoltDB;          (* None: the database could not be opened again *)
  cf_rdrcTimeout : Z;
  cf_disableExpire : bool;
  cf_optimisticTimeout : Z;
  cf_saveMetadata : option FakeIPMetadata;
  cf_saveDomain : gmap Addr string;
  cf_saveAddress4 : gmap string Addr;
  cf_saveAddress6 : gmap string Addr;
  cf_saveRDRC : gmap saveCacheKey bool;
  cf_saveDNSCache : gmap saveCacheKey saveDNSCacheEntry }.

Definition set_db (c : CacheFile) (db : option BoltDB) : CacheFile :=
  mkCacheFile (cf_cacheID c) db (cf_rdrcTimeout c) (cf_disableExpire c) (cf_optimisticTimeout c)
    (cf_saveMetadata c) (cf_saveDomain c) (cf_saveAddress4 c) (cf_saveAddress6 c) (cf_saveRDRC c)
    (cf_saveDNSCache c).
Definition set_saveMetadata (c : CacheFile) (m : option FakeIPMetadata) : CacheFile :=
  mkCacheFile (cf_cacheID c) (cf_db c) (cf_rdrcTimeout c) (cf_disableExpire c)
    (cf_optimisticTimeout c) m (cf_saveDomain c) (cf_saveAddress4 c) (cf_saveAddress6 c)
    (cf_saveRDRC c) (cf_saveDNSCache c).
Definition set_saveFakeIP (c : CacheFile) (d : gmap Addr string) (a4 a6 : gmap string Addr) :
    CacheFile :=
  mkCacheFile (cf_cacheID c) (cf_db c) (cf_rdrcTimeout c) (cf_disableExpire c)
    (cf_optimisticTimeout c) (cf_saveMetadata c) d a4 a6 (cf_saveRDRC c) (cf_saveDNSCache c).
Definition set_saveRDRC (c : CacheFile) (r : gmap saveCacheKey bool) : CacheFile :=
  mkCacheFile (cf_cacheID c) (cf_db c) (cf_rdrcTimeout c) (cf_disableExpire c)
    (cf_optimisticTimeout c) (cf_saveMetadata c) (cf_saveDomain c) (cf_saveAddress4 c)
    (cf_saveAddress6 c) r (cf_saveDNSCache c).
Definition set_saveDNSCache (c : CacheFile) (m : gmap saveCacheKey saveDNSCacheEntry) : CacheFile :=
  mkCacheFile (cf_cacheID c) (cf_db c) (cf_rdrcTimeout c) (cf_disableExpire c)
    (cf_optimisticTimeout c) (cf_saveMetadata c) (cf_saveDomain c) (cf_saveAddress4 c)
    (cf_saveAddress6 c) (cf_saveRDRC c) m.

(** [New], with the options that matter here; the timeout is kept only when
    rejected responses are stored. *)
Definition CacheFile_New (CacheID : string) (storeRDRC : bool) (RDRCTimeout : Z) : CacheFile :=
  mkCacheFile (if String.eqb CacheID "" then None else Some (0 :: string_bytes CacheID)) None
    (if storeRDRC then if 0 <? RDRCTimeout then RDRCTimeout else 7 * 24 * 3600 * nanoseconds else 0)
    false 0 None ∅ ∅ ∅ ∅ ∅.

(** ** Transactions *)

Definition Tx (A : Type) : Type := BoltDB -> result (A * BoltDB).

Definition ErrDatabaseNotOpen : GoError := E_New "database not open".

(** The database is closed, removed and opened anew. *)
Definition resetDB (c : CacheFile) : CacheFile :=
  set_db c (if reopen then Some bolt_empty else None).

Definition corrupted (reason : string) : GoError := E_New ("database corrupted: " ++ reason)%string.

Definition view {A} (fn : BoltDB -> result A) (c : CacheFile) : result A * CacheFile :=
  match cf_db c with
  | None => (Err ErrDatabaseNotOpen, c)
  | Some db =>
      match fn db with
      | Err (GoPanic r) => (Err (corrupted r), resetDB c)
      | res => (res, c)
      end
  end.

(** [batch] and [update] differ in how the database groups transactions. *)
Definition batch {A} (fn : Tx A) (c : CacheFile) : result A * CacheFile :=
  match cf_db c with
  | None => (Err ErrDatabaseNotOpen, c)
  | Some db =>
      match fn db with
      | Ok (a, db) => (Ok a, set_db c (Some db))
      | Err (GoPanic r) => (Err (corrupted r), resetDB c)
      | Err e => (Err e, c)
      end
  end.
Definition update {A} (fn : Tx A) (c : CacheFile) : result A * CacheFile := batch fn c.

Definition errorOf {A} (r : result A) : option GoError :=
  match r with Ok _ => None | Err e => Some e end.

(** The bucket for [key] of this cache ID. *)
Definition bucketPath (c : CacheFile) (key : list Z) : Path :=
  match cf_cacheID c with None => [key] | Some id => [id; key] end.

(** [bucket]: nil when the bucket or the one of the cache ID is missing. *)
Definition cf_bucket (c : CacheFile) (db : BoltDB) (key : list Z) : option Path :=
  match cf_cacheID c with
  | None => if bolt_bucket db [key] then Some [key] else None
  | Some id =>
      if bolt_bucket db [id] then if bolt_bucket db [id; key] then Some [id; key] else None
      else None
  end.

Definition createBucket (c : CacheFile) (key : list Z) (db : BoltDB) : result (Path * BoltDB) :=
  match cf_cacheID c with
  | None => let? db := bolt_create [key] db in Ok ([key], db)
  | Some id =>
      let? db := bolt_create [id] db in
      let? db := bolt_create [id; key] db in Ok ([id; key], db)
  end.

(** ** Mode, selected outbounds, expanded groups *)

Definition modeKey (c : CacheFile) : list Z :=
  match cf_cacheID c with Some id => id | None => cacheIDDefault end.

Definition LoadMode (c : CacheFile) : string * CacheFile :=
  let '(r, c) := view (fun db =>
    if negb (bolt_bucket db [bucketMode]) then Ok ""
    else Ok (bytes_string (default [] (bolt_get db [bucketMode] (modeKey c))))) c in
  (match r with Ok mode => mode | Err _ => "" end, c).

Definition StoreMode (mode : string) (c : CacheFile) : option GoError * CacheFile :=
  let '(r, c) := batch (fun db =>
    let? db := bolt_create [bucketMode] db in
    let? db := bolt_put [bucketMode] (modeKey c) (string_bytes mode) db in Ok (tt, db)) c in
  (errorOf r, c).

Definition LoadSelected (group : string) (c : CacheFile) : string * CacheFile :=
  let '(r, c) := view (fun db =>
    match cf_bucket c db bucketSelected with
    | None => Ok ""
    | Some b =>
        let selectedBytes := default [] (bolt_get db b (string_bytes group)) in
        if (0 <? length selectedBytes)%nat then Ok (bytes_string selectedBytes) else Ok ""
    end) c in
  (match r with Ok selected => selected | Err _ => "" end, c).

Definition StoreSelected (group selected : string) (c : CacheFile) : option GoError * CacheFile :=
  let '(r, c) := batch (fun db =>
    let? '(b, db) := createBucket c bucketSelected db in
    let? db := bolt_put b (string_bytes group) (string_bytes selected) db in Ok (tt, db)) c in
  (errorOf r, c).

(** [(isExpand, loaded)], as an option. *)
Definition LoadGroupExpand (group : string) (c : CacheFile) : option bool * CacheFile :=
  let '(r, c) := view (fun db =>
    match cf_bucket c db bucketExpand with
    | None => Ok None
    | Some b =>
        match default [] (bolt_get db b (string_bytes group)) with
        | [x] => Ok (Some (x =? 1))
        | _ => Ok None
        end
    end) c in
  (match r with Ok o => o | Err _ => None end, c).

Definition StoreGroupExpand (group : string) (isExpand : bool) (c : CacheFile) :
    option GoError * CacheFile :=
  let '(r, c) := batch (fun db =>
    let? '(b, db) := createBucket c bucketExpand db in
    if isExpand then let? db := bolt_put b (string_bytes group) [1] db in Ok (tt, db)
    else let? db := bolt_put b (string_bytes group) [0] db in Ok (tt, db)) c in
  (errorOf r, c).

(** ** Downloaded rule-sets *)

Definition LoadRuleSet (tag : string) (c : CacheFile) : option SavedBinary * CacheFile :=
  let '(r, c) := view (fun db =>
    match cf_bucket c db bucketRuleSet with
    | None => Err ErrNotExist
    | Some b =>
        let setBinary := default [] (bolt_get db b (string_bytes tag)) in
        if (length setBinary =? 0)%nat then Err ErrInvalid
        else SavedBinary_UnmarshalBinary setBinary
    end) c in
  (match r with Ok s => Some s | Err _ => None end, c).

Definition SaveRuleSet (tag : string) (set : SavedBinary) (c : CacheFile) :
    option GoError * CacheFile :=
  let '(r, c) := batch (fun db =>
    let? '(b, db) := createBucket c bucketRuleSet db in
    let? db := bolt_put b (string_bytes tag) (SavedBinary_MarshalBinary set) db in Ok (tt, db)) c in
  (errorOf r, c).

(** ** FakeIP *)

(** The saved cursors are removed when they are read. *)
Definition CacheFile_FakeIPMetadata (c : CacheFile) : option FakeIPMetadata * CacheFile :=
  let '(r, c) := batch (fun db =>
    if negb (bolt_bucket db [bucketFakeIP]) then Err ErrNotExist
    else
      let metadataBinary := default [] (bolt_get db [bucketFakeIP] keyMetadata) in
      if (length metadataBinary =? 0)%nat then Err ErrInvalid
      else
        let? db := bolt_delete [bucketFakeIP] keyMetadata db in
        let? metadata := FakeIPMetadata_UnmarshalBinary metadataBinary in
        Ok (metadata, db)) c in
  (match r with Ok m => Some m | Err _ => None end, c).

Definition CacheFile_FakeIPSaveMetadata (metadata : FakeIPMetadata) (c : CacheFile) :
    option GoError * CacheFile :=
  let '(r, c) := batch (fun db =>
    let? db := bolt_create [bucketFakeIP] db in
    let? db := bolt_put [bucketFakeIP] keyMetadata (FakeIPMetadata_MarshalBinary metadata) db in
    Ok (tt, db)) c in
  (errorOf r, c).

(** The cursors are remembered; a timer writes them later. *)
Definition CacheFile_FakeIPSaveMetadataAsync (metadata : FakeIPMetadata) (c : CacheFile) : CacheFile :=
  set_saveMetadata c (Some metadata).
Definition FakeIPSaveMetadataTimer (c : CacheFile) : CacheFile :=
  match cf_saveMetadata c with
  | Some savedMetadata => snd (CacheFile_FakeIPSaveMetadata savedMetadata c)
  | None => c
  end.

Definition domainBucket (address : Addr) : list Z :=
  if Addr.Is4 address then bucketFakeIPDomain4 else bucketFakeIPDomain6.

Definition FakeIPStoreTx (address : Addr) (domain : string) : Tx unit := fun db =>
  let? db := bolt_create [bucketFakeIP] db in
  let oldDomain := bolt_get db [bucketFakeIP] (Addr.AsSlice address) in
  let? db := bolt_put [bucketFakeIP] (Addr.AsSlice address) (string_bytes domain) db in
  let? db := bolt_create [domainBucket address] db in
  let? db := match oldDomain with
             | Some old => bolt_delete [domainBucket address] old db
             | None => Ok db
             end in
  let? db := bolt_put [domainBucket address] (string_bytes domain) (Addr.AsSlice address) db in
  Ok (tt, db).
Definition CacheFile_FakeIPStore (address : Addr) (domain : string) (c : CacheFile) :
    option GoError * CacheFile :=
  let '(r, c) := batch (FakeIPStoreTx address domain) c in (errorOf r, c).

(** [FakeIPStoreAsync]: the entry is visible at once, a goroutine writes it and
    removes it from the pending maps. *)
Definition CacheFile_FakeIPStoreAsync (address : Addr) (domain : string) (c : CacheFile) : CacheFile :=
  let a4 := match cf_saveDomain c !! address with
            | Some oldDomain => if Addr.Is4 address then delete oldDomain (cf_saveAddress4 c)
                                else cf_saveAddress4 c
            | None => cf_saveAddress4 c
            end in
  let a6 := match cf_saveDomain c !! address with
            | Some oldDomain => if Addr.Is4 address then cf_saveAddress6 c
                                else delete oldDomain (cf_saveAddress6 c)
            | None => cf_saveAddress6 c
            end in
  set_saveFakeIP c (<[address := domain]> (cf_saveDomain c))
    (if Addr.Is4 address then <[domain := address]> a4 else a4)
    (if Addr.Is4 address then a6 else <[domain := address]> a6).
Definition FakeIPStoreAsync_finish (address : Addr) (domain : string) (c : CacheFile) : CacheFile :=
  let c := snd (CacheFile_FakeIPStore address domain c) in
  set_saveFakeIP c (delete address (cf_saveDomain c))
    (if Addr.Is4 address then delete domain (cf_saveAddress4 c) else cf_saveAddress4 c)
    (if Addr.Is4 address then cf_saveAddress6 c else delete domain (cf_saveAddress6 c)).

Definition CacheFile_FakeIPLoad (c : CacheFile) (address : Addr) : option string :=
  match cf_saveDomain c !! address with
  | Some cachedDomain => Some cachedDomain
  | None =>
      let domain :=
        match fst (view (fun db =>
          if negb (bolt_bucket db [bucketFakeIP]) then Ok ""
          else Ok (bytes_string (default [] (bolt_get db [bucketFakeIP] (Addr.AsSlice address))))) c) with
        | Ok domain => domain
        | Err _ => ""
        end in
      if String.eqb domain "" then None else Some domain
  end.

Definition CacheFile_FakeIPLoadDomain (c : CacheFile) (domain : string) (isIPv6 : bool) : option Addr :=
  let cached := if negb isIPv6 then cf_saveAddress4 c !! domain else cf_saveAddress6 c !! domain in
  match cached with
  | Some cachedAddress => Some cachedAddress
  | None =>
      let bucket := if isIPv6 then bucketFakeIPDomain6 else bucketFakeIPDomain4 in
      let address :=
        match fst (view (fun db =>
          if negb (bolt_bucket db [bucket]) then Ok AddrNone
          else Ok (M_AddrFromIP (default [] (bolt_get db [bucket] (string_bytes domain))))) c) with
        | Ok address => address
        | Err _ => AddrNone
        end in
      if Addr.IsValid address then Some address else None
  end.

Fixpoint deleteBuckets (names : list (list Z)) (db : BoltDB) : result BoltDB :=
  match names with
  | [] => Ok db
  | bucketName :: names =>
      if negb (bolt_bucket db [bucketName]) then deleteBuckets names db
      else let? db := bolt_deleteBucket [bucketName] db in deleteBuckets names db
  end.
Definition CacheFile_FakeIPReset (c : CacheFile) : option GoError * CacheFile :=
  let '(r, c) := batch (fun db =>
    let? db := deleteBuckets [bucketFakeIP; bucketFakeIPDomain4; bucketFakeIPDomain6] db in
    Ok (tt, db)) c in
  (errorOf r, c).

Definition CacheFile_storage : FakeIPStorage CacheFile := {|
  fs_Metadata := CacheFile_FakeIPMetadata;
  fs_SaveMetadata := CacheFile_FakeIPSaveMetadata;
  fs_SaveMetadataAsync := CacheFile_FakeIPSaveMetadataAsync;
  fs_Store := CacheFile_FakeIPStore;
  fs_Load := CacheFile_FakeIPLoad;
  fs_LoadDomain := CacheFile_FakeIPLoadDomain;
  fs_Reset := CacheFile_FakeIPReset |}.

(** ** Rejected DNS responses *)

(** [binary.BigEndian.PutUint16(key, qType); copy(key[2:], qName)]. *)
Definition questionKey (qName : string) (qType : Z) : list Z :=
  (be_bytes 2 (qType mod 2 ^ 16) ++ string_bytes qName)%list.

(** The bucket of a transport below [key], nil when one is missing. *)
Definition transportBucket (c : CacheFile) (db : BoltDB) (key : list Z) (transportName : string) :
    option Path :=
  match cf_bucket c db key with
  | None => None
  | Some b =>
      let b := (b ++ [string_bytes transportName])%list in
      if bolt_bucket db b then Some b else None
  end.

Definition outOfRange (b : list Z) : GoError :=
  GoPanic ("runtime error: index out of range [7] with length "
             ++ strconv.Itoa (Z.of_nat (length b)))%string.

(** [now] is [time.Now()]. *)
Definition LoadRDRC (now : Z) (transportName qName : string) (qType : Z) (c : CacheFile) :
    bool * CacheFile :=
  match cf_saveRDRC c !! mkCacheKey transportName qName qType with
  | Some rejected => (rejected, c)
  | None =>
      let key := questionKey qName qType in
      let '(r, c) := view (fun db =>
        match transportBucket c db bucketRDRC transportName with
        | None => Ok (false, false)
        | Some b =>
            match bolt_get db b key with
            | None => Ok (false, false)
            | Some content =>
                if (length content <? 8)%nat then Err (outOfRange content)
                else if getTime content <? now then Ok (false, true) else Ok (true, false)
            end
        end) c in
      match r with
      | Err _ => (false, c)
      | Ok (rejected, deleteCache) =>
          if deleteCache then
            (rejected, snd (update (fun db =>
               match transportBucket c db bucketRDRC transportName with
               | None => Ok (tt, db)
               | Some b => let? db := bolt_delete b key db in Ok (tt, db)
               end) c))
          else (rejected, c)
      end
  end.

Definition SaveRDRC (now : Z) (transportName qName : string) (qType : Z) (c : CacheFile) :
    option GoError * CacheFile :=
  let expiresAt := putTime (now + cf_rdrcTimeout c) in
  let '(r, c) := batch (fun db =>
    let? '(b, db) := createBucket c bucketRDRC db in
    let b := (b ++ [string_bytes transportName])%list in
    let? db := bolt_create b db in
    let? db := bolt_put b (questionKey qName qType) expiresAt db in Ok (tt, db)) c in
  (errorOf r, c).

(** [SaveRDRCAsync]: visible at once; a goroutine writes and forgets it. *)
Definition SaveRDRCAsync (transportName qName : string) (qType : Z) (c : CacheFile) : CacheFile :=
  set_saveRDRC c (<[mkCacheKey transportName qName qType := true]> (cf_saveRDRC c)).
Definition SaveRDRCAsync_finish (now : Z) (transportName qName : string) (qType : Z) (c : CacheFile) :
    CacheFile :=
  let c := snd (SaveRDRC now transportName qName qType c) in
  set_saveRDRC c (delete (mkCacheKey transportName qName qType) (cf_saveRDRC c)).

(** ** The DNS cache *)

(** [(rawMessage, expireAt, loaded)], as an option. *)
Definition LoadDNSCache (transportName qName : string) (qType : Z) (c : CacheFile) :
    option (list Z * Z) * CacheFile :=
  match cf_saveDNSCache c !! mkCacheKey transportName qName qType with
  | Some entry => (Some (dc_rawMessage entry, dc_expireAt entry), c)
  | None =>
      let '(r, c) := view (fun db =>
        match transportBucket c db bucketDNSCache transportName with
        | None => Ok None
        | Some b =>
            let content := default [] (bolt_get db b (questionKey qName qType)) in
            if (length content <? 8)%nat then Ok None
            else Ok (Some (drop 8 content, getTime content))
        end) c in
      (match r with Ok o => o | Err _ => None end, c)
  end.

Definition SaveDNSCache (transportName qName : string) (qType : Z) (rawMessage : list Z) (expireAt : Z)
    (c : CacheFile) : option GoError * CacheFile :=
  let value := (putTime expireAt ++ rawMessage)%list in
  let '(r, c) := batch (fun db =>
    let? '(b, db) := createBucket c bucketDNSCache db in
    let b := (b ++ [string_bytes transportName])%list in
    let? db := bolt_create b db in
    let? db := bolt_put b (questionKey qName qType) value db in Ok (tt, db)) c in
  (errorOf r, c).

(** The pending entry is replaced; the result tells whether a goroutine has to
    be started to write it.  The sequence number is a [uint64]. *)
Definition queueDNSCacheSave (saveKey : saveCacheKey) (rawMessage : list Z) (expireAt : Z)
    (c : CacheFile) : bool * CacheFile :=
  let entry := default (mkDNSCacheEntry [] 0 0 false) (cf_saveDNSCache c !! saveKey) in
  let startFlush := negb (dc_saving entry) in
  (startFlush,
   set_saveDNSCache c (<[saveKey := mkDNSCacheEntry rawMessage expireAt
     ((dc_sequence entry + 1) mod 2 ^ 64) true]> (cf_saveDNSCache c))).

(** A goroutine in [flushPendingDNSCacheWith]: before the entry is read, before
    it is saved, before the sequence numbers are compared. *)
Inductive flusher :=
  | FlushRead (saveKey : saveCacheKey)
  | FlushSave (saveKey : saveCacheKey) (entry : saveDNSCacheEntry)
  | FlushCheck (saveKey : saveCacheKey) (entry : saveDNSCacheEntry).

(** What it does up to the next point where others can run; [None]: it ends. *)
Definition flushPendingDNSCacheWith (f : flusher) (c : CacheFile) : option flusher * CacheFile :=
  match f with
  | FlushRead k =>
      match cf_saveDNSCache c !! k with
      | None => (None, c)
      | Some entry => (Some (FlushSave k entry), c)
      end
  | FlushSave k entry =>
      let '(_, c) := SaveDNSCache (TransportName k) (QuestionName k) (QType k)
                       (dc_rawMessage entry) (dc_expireAt entry) c in
      (Some (FlushCheck k entry), c)
  | FlushCheck k entry =>
      match cf_saveDNSCache c !! k with
      | None => (None, c)
      | Some currentEntry =>
          if negb (dc_sequence currentEntry =? dc_sequence entry) then (Some (FlushRead k), c)
          else (None, set_saveDNSCache c (delete k (cf_saveDNSCache c)))
      end
  end.

(** The bucket [key] of this cache ID is deleted if it is there. *)
Definition deleteCacheBucket (c : CacheFile) (key : list Z) : Tx unit := fun db =>
  match cf_bucket c db key with
  | None => Ok (tt, db)
  | Some b => let? db := bolt_deleteBucket b db in Ok (tt, db)
  end.

(** [ClearDNSCache]: the pending entries, then the bucket. *)
Definition ClearDNSCache_pending (c : CacheFile) : CacheFile := set_saveDNSCache c ∅.
Definition ClearDNSCache_bucket (c : CacheFile) : option GoError * CacheFile :=
  let '(r, c) := batch (deleteCacheBucket c bucketDNSCache) c in (errorOf r, c).
Definition ClearDNSCache (c : CacheFile) : option GoError * CacheFile :=
  ClearDNSCache_bucket (ClearDNSCache_pending c).

Definition clearRDRC (c : CacheFile) : CacheFile :=
  let c := set_saveRDRC c ∅ in
  snd (batch (deleteCacheBucket c bucketRDRC) c).

(** ** Cleanup *)

Fixpoint deleteKeys (p : Path) (keys : list (list Z)) (db : BoltDB) : result BoltDB :=
  match keys with
  | [] => Ok db
  | key :: keys => let? db := bolt_delete p key db in deleteKeys p keys db
  end.

(** One transport: the expired keys go; the result tells whether it is empty. *)
Definition cleanupTransport (expired : list Z -> bool) (p : Path) (db : BoltDB) :
    result (bool * BoltDB) :=
  let expiredKeys := map fst (List.filter (fun kv => expired (snd kv)) (bolt_entries db p)) in
  let? db := deleteKeys p expiredKeys db in
  Ok ((length (bolt_entries db p) =? 0)%nat && (length (bolt_children db p) =? 0)%nat, db).

Fixpoint cleanupTransports (expired : list Z -> bool) (p : Path) (names : list (list Z)) (db : BoltDB) :
    result (list (list Z) * BoltDB) :=
  match names with
  | [] => Ok ([], db)
  | name :: names =>
      if negb (bolt_bucket db (p ++ [name])%list) then cleanupTransports expired p names db
      else
        let? '(empty, db) := cleanupTransport expired (p ++ [name])%list db in
        let? '(rest, db) := cleanupTransports expired p names db in
        Ok (if empty then name :: rest else rest, db)
  end.

Fixpoint deleteChildren (p : Path) (names : list (list Z)) (db : BoltDB) : result BoltDB :=
  match names with
  | [] => Ok db
  | name :: names =>
      let? db := bolt_deleteBucket (p ++ [name])%list db in deleteChildren p names db
  end.

Definition cleanupTx (expired : list Z -> bool) (c : CacheFile) (key : list Z) : Tx unit := fun db =>
  match cf_bucket c db key with
  | None => Ok (tt, db)
  | Some b =>
      let? '(emptyTransports, db) := cleanupTransports expired b (bolt_children db b) db in
      let? db := deleteChildren b emptyTransports db in
      Ok (tt, db)
  end.

Definition dnsCacheExpired (now : Z) (c : CacheFile) (value : list Z) : bool :=
  if (length value <? 8)%nat then true
  else if cf_disableExpire c then false
  else getTime value + cf_optimisticTimeout c <? now.
Definition cleanupDNSCache (now : Z) (c : CacheFile) : CacheFile :=
  snd (batch (cleanupTx (dnsCacheExpired now c) c bucketDNSCache) c).

Definition rdrcExpired (now : Z) (value : list Z) : bool :=
  if (length value <? 8)%nat then true else getTime value <? now.
Definition cleanupRDRC (now : Z) (c : CacheFile) : CacheFile :=
  snd (batch (cleanupTx (rdrcExpired now) c bucketRDRC) c).

(** ** Start *)

(** An ignored error leaves the database as it was. *)
Definition tryDelete (p : Path) (db : BoltDB) : BoltDB :=
  match bolt_deleteBucket p db with Ok db => db | Err _ => db end.

(** The transaction of [start] that removes unknown buckets: the children of a
    bucket of a cache ID (a name that starts with 0), other buckets. *)
Definition cleanChild (name k : list Z) (db : BoltDB) : BoltDB :=
  if negb (bool_decide (k ∈ bucketNameList)) then tryDelete [name; name] db else db.
Definition cleanBucket (name : list Z) (db : BoltDB) : BoltDB :=
  match name with
  | 0 :: _ => foldl (fun db k => cleanChild name k db) db (bolt_children db [name])
  | _ =>
      if negb (bool_decide (name ∈ bucketNameList)
               || strings.HasPrefix (bytes_string name) fakeipBucketPrefix)
      then tryDelete [name] db else db
  end.
Definition cleanBuckets (db : BoltDB) : BoltDB :=
  foldl (fun db name => cleanBucket name db) db (bolt_children db []).

(** [start] with the database that was opened, and what [Start] does at the
    start stage, before the periodic cleanup. *)
Definition CacheFile_start (db : BoltDB) (c : CacheFile) : CacheFile := set_db c (Some (cleanBuckets db)).
Definition startCacheCleanup (now : Z) (storeDNS storeRDRC : bool) (c : CacheFile) : CacheFile :=
  if storeDNS then cleanupDNSCache now (clearRDRC c)
  else if storeRDRC then cleanupRDRC now c else c.
(** A transaction that succeeds. *)
Lemma batch_done {A} (fn : Tx A) c x c' :
  batch fn c = (Ok x, c') ->
  exists db db', cf_db c = Some db /\ fn db = Ok (x, db') /\ c' = set_db c (Some db').
Proof.
  unfold batch. destruct (cf_db c) as [db|]; [|done].
  destruct (fn db) as [[y db']|[]] eqn:E; try done. intros [= <- <-]. by exists db, db'.
Qed.
End cacheFile.
