(* ===== verification/CacheFileFakeIP.v ===== *)
(** * The cache file as FakeIP storage

    The buckets of the cache file implement the storage interface of the FakeIP
    store, whatever the database does on errors, and the cursors saved when the
    store is closed are found again when it is started. *)

From S2P Require Import Prelude.
From S2P Require Import GoText.
From S2P Require Import Bytes.
From S2P Require Import NetIP.
From S2P Require Import Libs.
From S2P Require Import FakeIP.
From S2P Require Import FakeIPTheorems.
From S2P Require Import Bolt.
From S2P Require Import CacheFile.
Local Open Scope string_scope.
Local Open Scope Z_scope.

(** ** Keys *)

Lemma AsSlice_inj a b : storable a -> storable b -> Addr.AsSlice a = Addr.AsSlice b -> a = b.
Proof.
  intros (Ha & Hza & Hwa) (Hb & Hzb & Hwb) E. unfold Addr.wf in *.
  assert (Hl : length (Addr.AsSlice a) = length (Addr.AsSlice b)) by by rewrite E.
  pose proof (f_equal be_value E) as Ev.
  destruct a as [|n|n [|? ?]], b as [|m|m [|? ?]]; try done;
    cbn [Addr.AsSlice Addr.bits Addr.BitLen] in *; rewrite ?be_bytes_length in Hl; try done;
    f_equal; rewrite !be_value_bytes_small in Ev; done.
Qed.

Lemma AsSlice_key a : storable a -> Addr.AsSlice a <> [] /\ Addr.AsSlice a <> keyMetadata.
Proof.
  intros (Ha & _). assert (length (Addr.AsSlice a) = 4 \/ length (Addr.AsSlice a) = 16)%nat.
  { destruct a; [done|..]; cbn [Addr.AsSlice]; rewrite be_bytes_length; auto. }
  split; intros E; rewrite E in *; vm_compute in H; naive_solver.
Qed.

Definition domainBucketOf (v6 : bool) : list Z :=
  if v6 then bucketFakeIPDomain6 else bucketFakeIPDomain4.

Lemma domainBucket_of a : storable a -> domainBucket a = domainBucketOf (Addr.Is6 a).
Proof. intros (Ha & _). by destruct a. Qed.

Lemma domainBucketOf_ne v6 : [domainBucketOf v6] <> [bucketFakeIP].
Proof. by destruct v6. Qed.
Lemma domainBucketOf_inj v w : [domainBucketOf v] = [domainBucketOf w] -> v = w.
Proof. by destruct v, w. Qed.

Section cache.
Context `{L : Libs} `{B : Bbolt} (reopen : bool).

(** ** The buckets hold a mapping *)

Record fakeipOk (db : BoltDB) : Prop := {
  fo_inverse : forall v6 d a, storable a -> Addr.Is6 a = v6 ->
    bolt_get db [domainBucketOf v6] (string_bytes d) = Some (Addr.AsSlice a)
    <-> bolt_get db [bucketFakeIP] (Addr.AsSlice a) = Some (string_bytes d);
  fo_address : forall v6 k v, bolt_get db [domainBucketOf v6] k = Some v ->
    exists a, storable a /\ Addr.Is6 a = v6 /\ v = Addr.AsSlice a;
  fo_domain : forall a v, storable a -> bolt_get db [bucketFakeIP] (Addr.AsSlice a) = Some v ->
    v <> [] /\ bytes_ok v;
  fo_metadata : forall v, bolt_get db [bucketFakeIP] keyMetadata = Some v ->
    exists m, metadataOk m /\ v = FakeIPMetadata_MarshalBinary m }.

(** A cache file with nothing pending, over such a database or closed. *)
Record cacheOk (c : CacheFile) : Prop := {
  co_db : forall db, cf_db c = Some db -> fakeipOk db;
  co_domain : cf_saveDomain c = ∅;
  co_4 : cf_saveAddress4 c = ∅;
  co_6 : cf_saveAddress6 c = ∅ }.

(** The stored domain of an address. *)
Definition dbView (db : BoltDB) (a : Addr) : option string :=
  match bolt_get db [bucketFakeIP] (Addr.AsSlice a) with
  | Some v => Some (bytes_string v)
  | None => None
  end.
Definition cacheView (c : CacheFile) (a : Addr) : option string :=
  match cf_db c with Some db => dbView db a | None => None end.

Lemma bytes_string_empty v : bytes_ok v -> v <> [] -> String.eqb (bytes_string v) "" = false.
Proof.
  intros Hv Hne. apply String.eqb_neq. intros E. apply Hne.
  by rewrite <- (string_bytes_string v Hv), E.
Qed.

Lemma load_view c a : cacheOk c -> storable a -> CacheFile_FakeIPLoad reopen c a = cacheView c a.
Proof.
  intros [Hdb Hd _ _] Ha. unfold CacheFile_FakeIPLoad, cacheView, view, dbView.
  rewrite Hd, lookup_empty. destruct (cf_db c) as [db|]; [|done]. specialize (Hdb db eq_refl).
  destruct (bolt_bucket db [bucketFakeIP]) eqn:E; cbn [negb].
  - destruct (bolt_get db _ _) as [v|] eqn:Ev; cbn [fst from_option]; [|done].
    destruct (fo_domain _ Hdb a v Ha Ev). by rewrite bytes_string_empty.
  - by rewrite bolt_get_nobucket.
Qed.

Lemma load_domain_db c d v6 :
  cacheOk c ->
  CacheFile_FakeIPLoadDomain reopen c d v6 =
  match cf_db c with
  | Some db => match bolt_get db [domainBucketOf v6] (string_bytes d) with
               | Some v => Some (M_AddrFromIP v)
               | None => None
               end
  | None => None
  end.
Proof.
  intros [Hdb _ H4 H6]. unfold CacheFile_FakeIPLoadDomain, view. rewrite H4, H6, !lookup_empty.
  assert (E : (if v6 then bucketFakeIPDomain6 else bucketFakeIPDomain4) = domainBucketOf v6)
    by by destruct v6. rewrite E.
  replace (if negb v6 then @None Addr else None) with (@None Addr) by by destruct v6.
  destruct (cf_db c) as [db|]; [|done]. specialize (Hdb db eq_refl).
  destruct (bolt_bucket db [domainBucketOf v6]) eqn:Eb; cbn [negb].
  - destruct (bolt_get db _ _) as [v|] eqn:Ev; cbn [fst from_option]; [|by rewrite M_AddrFromIP_nil].
    destruct (fo_address _ Hdb v6 _ _ Ev) as (a & (Hv & Hz & Hw) & _ & ->).
    unfold id. by rewrite M_AddrFromIP_slice, Hv.
  - by rewrite bolt_get_nobucket.
Qed.

Lemma load_domain_view c d v6 a :
  cacheOk c ->
  CacheFile_FakeIPLoadDomain reopen c d v6 = Some a
  <-> storable a /\ cacheView c a = Some d /\ Addr.Is6 a = v6.
Proof.
  intros Hc. rewrite load_domain_db by done. unfold cacheView, dbView.
  destruct (cf_db c) as [db|] eqn:Edb; [|naive_solver]. pose proof (co_db _ Hc db Edb) as Hdb. split.
  - destruct (bolt_get db [domainBucketOf v6] _) as [v|] eqn:Ev; [|done]. intros [= <-].
    destruct (fo_address _ Hdb v6 _ _ Ev) as (a & Ha & H6 & ->). pose proof Ha as (Hv & Hz & Hw).
    rewrite M_AddrFromIP_slice by done. split_and!; [done| |done].
    apply (fo_inverse _ Hdb v6 d a Ha H6) in Ev. by rewrite Ev, bytes_string_bytes.
  - intros (Ha & Hv & H6). destruct (bolt_get db [bucketFakeIP] _) as [v|] eqn:Ev; [|done].
    injection Hv as <-. destruct (fo_domain _ Hdb a v Ha Ev) as [_ Hok].
    rewrite <- (string_bytes_string v Hok) in Ev. apply (fo_inverse _ Hdb v6 _ a Ha H6) in Ev.
    rewrite Ev. destruct Ha as (? & ? & ?). by rewrite M_AddrFromIP_slice.
Qed.

(** ** Storing *)

Section storeTx.
Context (a : Addr) (d : string) (db db' : BoltDB) (u : unit).
Context (Ha : storable a) (Htx : FakeIPStoreTx a d db = Ok (u, db')).
Notation dom := [domainBucketOf (Addr.Is6 a)].

Lemma storeTx_get q k :
  bolt_get db' q k =
  if decide (q = dom /\ k = string_bytes d) then Some (Addr.AsSlice a)
  else if decide (q = dom /\ bolt_get db [bucketFakeIP] (Addr.AsSlice a) = Some k) then None
  else if decide (q = [bucketFakeIP] /\ k = Addr.AsSlice a) then Some (string_bytes d)
  else bolt_get db q k.
Proof.
  unfold FakeIPStoreTx in Htx. rewrite domainBucket_of in Htx by done. inv_bind.
  subst db'. rename a0 into db1, a1 into db2, a2 into db3, a3 into db4, a4 into db5.
  rewrite (bolt_create_get _ _ _ _ _ Hr) in Hr2.
  rewrite (bolt_put_get _ _ _ _ _ q k Hr3). case_decide; [done|].
  assert (E : bolt_get db4 q k = if decide (q = dom /\
      bolt_get db [bucketFakeIP] (Addr.AsSlice a) = Some k) then None else bolt_get db3 q k).
  { destruct (bolt_get db [bucketFakeIP] _) as [old|] eqn:Eo.
    - rewrite (bolt_delete_get _ _ _ _ q k Hr2). repeat case_decide; naive_solver.
    - injection Hr2 as <-. by rewrite decide_False by naive_solver. }
  rewrite E. case_decide; [done|].
  rewrite (bolt_create_get _ _ _ _ _ Hr1), (bolt_put_get _ _ _ _ _ q k Hr0).
  case_decide; [done|]. apply (bolt_create_get _ _ _ _ _ Hr).
Qed.

Lemma storeTx_domain : string_bytes d <> [].
Proof.
  intros E. unfold FakeIPStoreTx in Htx. rewrite E in Htx.
  inv_bind. by rewrite bolt_put_key in Hr3.
Qed.

Lemma storeTx_address k :
  bolt_get db' [bucketFakeIP] k =
  if decide (k = Addr.AsSlice a) then Some (string_bytes d) else bolt_get db [bucketFakeIP] k.
Proof.
  rewrite storeTx_get.
  rewrite !(decide_False (P := [bucketFakeIP] = dom /\ _))
    by (intros [E _]; by apply (domainBucketOf_ne (Addr.Is6 a))).
  destruct (decide (k = _)) as [->|Hne]; [by rewrite decide_True|].
  by rewrite decide_False by naive_solver.
Qed.

Lemma storeTx_slice b :
  storable b -> bolt_get db' [bucketFakeIP] (Addr.AsSlice b) =
  if decide (b = a) then Some (string_bytes d) else bolt_get db [bucketFakeIP] (Addr.AsSlice b).
Proof.
  intros Hb. rewrite storeTx_address. destruct (decide (b = a)) as [->|Hne]; [by rewrite decide_True|].
  rewrite decide_False; [done|]. intros E. by apply Hne, AsSlice_inj.
Qed.

Lemma storeTx_dom v6 k :
  bolt_get db' [domainBucketOf v6] k =
  if decide (v6 = Addr.Is6 a) then
    if decide (k = string_bytes d) then Some (Addr.AsSlice a)
    else if decide (bolt_get db [bucketFakeIP] (Addr.AsSlice a) = Some k) then None
    else bolt_get db [domainBucketOf v6] k
  else bolt_get db [domainBucketOf v6] k.
Proof.
  rewrite storeTx_get.
  rewrite (decide_False (P := [domainBucketOf v6] = [bucketFakeIP] /\ _))
    by (intros [E _]; by apply (domainBucketOf_ne v6)).
  destruct (decide (v6 = Addr.Is6 a)) as [->|Hne].
  - repeat case_decide; naive_solver.
  - rewrite !decide_False; [done|..]; intros [E _]; by apply Hne, domainBucketOf_inj.
Qed.

Lemma storeTx_view b :
  storable b -> dbView db' b = if decide (b = a) then Some d else dbView db b.
Proof.
  intros Hb. unfold dbView. rewrite storeTx_slice by done.
  destruct (decide (b = a)); [by rewrite bytes_string_bytes|done].
Qed.

Lemma storeTx_inverse v6 d' b :
  fakeipOk db -> bolt_get db dom (string_bytes d) = None -> storable b -> Addr.Is6 b = v6 ->
  bolt_get db' [domainBucketOf v6] (string_bytes d') = Some (Addr.AsSlice b)
  <-> bolt_get db' [bucketFakeIP] (Addr.AsSlice b) = Some (string_bytes d').
Proof.
  intros Hdb Hnone Hb H6. rewrite storeTx_slice, storeTx_dom by done.
  pose proof (fo_inverse _ Hdb v6 d' b Hb H6) as Hinv.
  destruct (decide (v6 = Addr.Is6 a)) as [Ev|Hv].
  2: { rewrite (decide_False (P := b = a)); [done|]. intros ->. done. }
  pose proof (fo_inverse _ Hdb v6 d' a Ha (eq_sym Ev)) as Hinva. rewrite <- Ev in Hnone.
  destruct (decide (string_bytes d' = string_bytes d)) as [Ed|Ed].
  - apply string_bytes_inj in Ed as ->. destruct (decide (b = a)) as [->|Hne]; [done|].
    rewrite <- Hinv, Hnone. split; [|done]. intros [= E]. by destruct Hne; apply AsSlice_inj.
  - assert (Hd : d' <> d) by congruence.
    destruct (decide (b = a)) as [->|Hne]; destruct (decide (bolt_get db [bucketFakeIP] _ = _)) as [Eo|Eo].
    + split; [done|]. intros [= E]. by rewrite E in Ed.
    + rewrite Hinva. split; [done|]. intros [= E]. by rewrite E in Ed.
    + split; [done|]. intros E. apply Hinv in E. apply Hinva in Eo. rewrite E in Eo.
      injection Eo as E'. by destruct Hne; apply AsSlice_inj.
    + done.
Qed.

Lemma storeTx_ok :
  fakeipOk db -> bolt_get db dom (string_bytes d) = None -> fakeipOk db'.
Proof.
  intros Hdb Hnone. split.
  - intros v6 d' b Hb H6. by apply storeTx_inverse.
  - intros v6 k v. rewrite storeTx_dom. destruct (decide (v6 = Addr.Is6 a)) as [->|].
    + case_decide; [intros [= <-]; by exists a|]. case_decide; [done|]. apply (fo_address _ Hdb).
    + apply (fo_address _ Hdb).
  - intros b v Hb. rewrite storeTx_slice by done. case_decide; [|by apply (fo_domain _ Hdb)].
    intros [= <-]. split; [apply storeTx_domain|apply string_bytes_ok].
  - intros v. rewrite storeTx_address. rewrite decide_False; [apply (fo_metadata _ Hdb)|].
    intros E. by apply (AsSlice_key a Ha).
Qed.
End storeTx.

(** A transaction that fails keeps the database, a panic resets it. *)
Lemma fakeipOk_empty : fakeipOk bolt_empty.
Proof.
  assert (E : forall q k, bolt_get bolt_empty q k = None)
    by (intros q k; apply bolt_get_nobucket, bolt_empty_bucket).
  split; intros *; rewrite !E; naive_solver.
Qed.

Lemma resetDB_ok c : cacheOk c -> cacheOk (resetDB reopen c)
  /\ forall b, cacheView (resetDB reopen c) b = None.
Proof.
  intros [Hdb Hd H4 H6]. split.
  - split; try done. cbn. destruct reopen; intros db [= <-]. apply fakeipOk_empty.
  - intros b. unfold cacheView, dbView. cbn. destruct reopen; [|done].
    by rewrite bolt_get_nobucket by apply bolt_empty_bucket.
Qed.

Lemma batch_failed {A} (fn : Tx A) c e c' :
  cacheOk c -> batch reopen fn c = (Err e, c') ->
  cacheOk c' /\ keptOrLost (cacheView c) (cacheView c').
Proof.
  intros Hc. unfold batch. destruct (cf_db c) as [db|]; [|intros [= <- <-]; split; [done|by left]].
  destruct (fn db) as [[x db']|e']; [done|]. intros H.
  assert (Hcase : c' = c \/ c' = resetDB reopen c) by (destruct e'; naive_solver).
  destruct Hcase as [->| ->]; [split; [done|by left]|].
  destruct (resetDB_ok c Hc) as [Hok Hv]. split; [done|]. right. intros b _. apply Hv.
Qed.

Lemma cacheOk_set c db : cacheOk c -> fakeipOk db -> cacheOk (set_db c (Some db)).
Proof. intros [_ Hd H4 H6] Hdb. split; try done. by intros ? [= <-]. Qed.

(** ** Cursors *)

(** A write of the cursors only. *)
Lemma metadata_write db db' o :
  (forall q k, bolt_get db' q k =
     if decide (q = [bucketFakeIP] /\ k = keyMetadata) then o else bolt_get db q k) ->
  (forall v, o = Some v -> exists m, metadataOk m /\ v = FakeIPMetadata_MarshalBinary m) ->
  fakeipOk db ->
  fakeipOk db' /\ forall b, storable b -> dbView db' b = dbView db b.
Proof.
  intros Hw Ho Hdb.
  assert (Ha : forall b, storable b ->
    bolt_get db' [bucketFakeIP] (Addr.AsSlice b) = bolt_get db [bucketFakeIP] (Addr.AsSlice b)).
  { intros b Hb. rewrite Hw, decide_False; [done|]. intros [_ E]. by apply (AsSlice_key b Hb). }
  assert (Hd : forall v6 k, bolt_get db' [domainBucketOf v6] k = bolt_get db [domainBucketOf v6] k).
  { intros v6 k. rewrite Hw, decide_False; [done|]. intros [E _]. by apply (domainBucketOf_ne v6). }
  split; [split|].
  - intros v6 d a Hs H6. rewrite Ha, Hd by done. by apply (fo_inverse _ Hdb).
  - intros v6 k v. rewrite Hd. apply (fo_address _ Hdb).
  - intros a v Hs. rewrite Ha by done. by apply (fo_domain _ Hdb).
  - intros v. rewrite Hw, decide_True by done. apply Ho.
  - intros b Hb. unfold dbView. by rewrite Ha.
Qed.

Lemma cacheView_set c db db' :
  cf_db c = Some db -> (forall b, storable b -> dbView db' b = dbView db b) ->
  forall b, storable b -> cacheView (set_db c (Some db')) b = cacheView c b.
Proof. intros E H b Hb. unfold cacheView. rewrite E. cbn. by apply H. Qed.

Lemma metadata_law c m c' :
  cacheOk c -> CacheFile_FakeIPMetadata reopen c = (m, c') ->
  cacheOk c' /\ (m <> None -> forall b, storable b -> cacheView c' b = cacheView c b).
Proof.
  intros Hc. unfold CacheFile_FakeIPMetadata.
  destruct (batch reopen _ c) as [[x|e] c1] eqn:E; intros [= <- <-].
  - apply batch_done in E as (db & db' & Edb & Etx & ->). pose proof (co_db _ Hc db Edb) as Hdb.
    destruct (negb _); [done|]. destruct (_ =? 0)%nat; [done|]. inv_bind. subst.
    destruct (metadata_write db db' None) as [Hok Hv]; [|done|done|].
    { intros q k. apply (bolt_delete_get _ _ _ _ _ _ Hr). }
    split; [by apply cacheOk_set|]. intros _. by apply (cacheView_set c db).
  - destruct (batch_failed _ _ _ _ Hc E). by split.
Qed.

Lemma save_done m c c' :
  CacheFile_FakeIPSaveMetadata reopen m c = (None, c') ->
  exists db db', cf_db c = Some db /\ c' = set_db c (Some db') /\
    bolt_bucket db' [bucketFakeIP] = true /\
    forall q k, bolt_get db' q k =
      if decide (q = [bucketFakeIP] /\ k = keyMetadata)
      then Some (FakeIPMetadata_MarshalBinary m) else bolt_get db q k.
Proof.
  unfold CacheFile_FakeIPSaveMetadata. destruct (batch reopen _ c) as [[x|e] c1] eqn:E; [|done].
  intros [= <-]. apply batch_done in E as (db & db' & Edb & Etx & ->). inv_bind. subst.
  exists db, db'. split_and!; [done|done| |].
  - rewrite (bolt_put_bucket _ _ _ _ _ _ Hr0), (bolt_create_bucket _ _ _ _ Hr).
    by rewrite bool_decide_eq_true_2, orb_true_r.
  - intros q k. rewrite (bolt_put_get _ _ _ _ _ _ _ Hr0). case_decide; [done|].
    apply (bolt_create_get _ _ _ _ _ Hr).
Qed.

Lemma save_law c m c' :
  cacheOk c -> metadataOk m -> CacheFile_FakeIPSaveMetadata reopen m c = (None, c') ->
  cacheOk c' /\ forall b, storable b -> cacheView c' b = cacheView c b.
Proof.
  intros Hc Hm E. apply save_done in E as (db & db' & Edb & -> & _ & Hget).
  destruct (metadata_write db db' _ Hget) as [Hok Hv].
  - intros v [= <-]. by exists m.
  - by apply (co_db _ Hc).
  - split; [by apply cacheOk_set|]. by apply (cacheView_set c db).
Qed.

(** ** Reset *)

Lemma above_one p q : above [p] [q] = bool_decide (q = p).
Proof. unfold above. cbn. apply bool_decide_ext. naive_solver. Qed.

Lemma deleteBuckets_get names : forall db db' n k,
  deleteBuckets names db = Ok db' ->
  bolt_get db' [n] k = if bool_decide (n ∈ names) then None else bolt_get db [n] k.
Proof.
  induction names as [|m names IH]; intros db db' n k; cbn [deleteBuckets].
  { intros [= <-]. done. }
  destruct (negb (bolt_bucket db [m])) eqn:Eb.
  - intros E. rewrite (IH _ _ _ _ E). destruct (decide (n = m)) as [->|Hne].
    + rewrite (bool_decide_eq_true_2 (m ∈ m :: names)) by set_solver.
      apply negb_true_iff in Eb. rewrite (bolt_get_nobucket db [m]) by done. by case_bool_decide.
    + by rewrite (bool_decide_ext (n ∈ names) (n ∈ m :: names)) by set_solver.
  - intros E. apply result_bind_Ok in E as (db1 & E1 & E). rewrite (IH _ _ _ _ E).
    rewrite (bolt_deleteBucket_get _ _ _ _ _ E1), above_one.
    destruct (decide (n = m)) as [->|Hne].
    + rewrite (bool_decide_eq_true_2 (m ∈ m :: names)) by set_solver.
      rewrite (bool_decide_eq_true_2 (m = m)) by done. by case_bool_decide.
    + rewrite (bool_decide_eq_false_2 (n = m)) by done.
      by rewrite (bool_decide_ext (n ∈ names) (n ∈ m :: names)) by set_solver.
Qed.

Lemma reset_law c c' :
  cacheOk c -> CacheFile_FakeIPReset reopen c = (None, c') ->
  cacheOk c' /\ forall b, storable b -> cacheView c' b = None.
Proof.
  intros Hc. unfold CacheFile_FakeIPReset. destruct (batch reopen _ c) as [[x|e] c1] eqn:E; [|done].
  intros [= <-]. apply batch_done in E as (db & db' & Edb & Etx & ->). inv_bind. subst.
  assert (Ha : forall k, bolt_get db' [bucketFakeIP] k = None)
    by (intros k; by rewrite (deleteBuckets_get _ _ _ _ _ Hr)).
  assert (Hd : forall v6 k, bolt_get db' [domainBucketOf v6] k = None)
    by (intros [] k; by rewrite (deleteBuckets_get _ _ _ _ _ Hr)).
  split.
  - apply cacheOk_set; [done|]. split; intros *; rewrite ?Ha, ?Hd; naive_solver.
  - intros b _. unfold cacheView, dbView. cbn. by rewrite Ha.
Qed.

(** The cache file implements the storage interface. *)
#[local] Instance storage_here : FakeIPStorage CacheFile := CacheFile_storage reopen.
#[local] Instance CacheFile_laws : FakeIPStorageLaws CacheFile.
Proof.
  refine (Build_FakeIPStorageLaws _ _ cacheOk cacheView _ _ _ _ _ _ _).
  - intros c a. apply load_view.
  - intros c d v6 a. apply load_domain_view.
  - intros c a d e c' Hc Ha Hd Hst. cbn in *. unfold CacheFile_FakeIPStore in Hst.
    destruct (batch reopen _ c) as [[x|e'] c1] eqn:E; injection Hst as <- <-; cbn [errorOf].
    + apply batch_done in E as (db & db' & Edb & Etx & ->). pose proof (co_db _ Hc db Edb) as Hdb.
      rewrite load_domain_db, Edb in Hd by done.
      assert (Hnone : bolt_get db [domainBucketOf (Addr.Is6 a)] (string_bytes d) = None)
        by by destruct (bolt_get db _ _).
      split; [apply cacheOk_set; [done|by eapply (storeTx_ok a d db db')]|].
      intros b Hb. unfold cacheView. rewrite Edb. cbn. by eapply storeTx_view.
    + by apply batch_failed in E.
  - apply reset_law.
  - apply metadata_law.
  - apply save_law.
  - intros c m [Hdb Hd H4 H6] _. split; [by split|done].
Defined.

(** ** Restarting *)


Lemma Close_saves c st st1 :
  storeOk c st -> Store_Close st = (None, st1) ->
  exists c1, CacheFile_FakeIPSaveMetadata reopen (Store_metadata st) c = (None, c1)
    /\ st1 = set_storage st c1.
Proof.
  intros Hst. unfold Store_Close. rewrite (so_storage _ _ Hst). cbn [fs_SaveMetadata storage_here CacheFile_storage].
  destruct (CacheFile_FakeIPSaveMetadata reopen _ c) as [e c1] eqn:E. intros [= -> <-].
  by exists c1.
Qed.

Lemma Metadata_read c m m' c' :
  metadataOk m ->
  (forall db, cf_db c = Some db -> bolt_bucket db [bucketFakeIP] = true
     /\ bolt_get db [bucketFakeIP] keyMetadata = Some (FakeIPMetadata_MarshalBinary m)) ->
  CacheFile_FakeIPMetadata reopen c = (Some m', c') -> m' = m.
Proof.
  intros Hm Hdb. unfold CacheFile_FakeIPMetadata.
  destruct (batch reopen _ c) as [[x|e] c1] eqn:E; [|done]. intros [= <- _].
  apply batch_done in E as (db & db' & Edb & Etx & _). destruct (Hdb db Edb) as [Hb Hg].
  rewrite Hb, Hg in Etx. cbn [negb from_option id] in Etx.
  destruct (_ =? 0)%nat; [done|]. rewrite metadata_roundtrip_lemma in Etx by done. inv_bind. done.
Qed.

(** C39 A FakeIP store over a cache file that is closed without error and started
    again on the same database resumes: the cursors are those it had, and every
    address leads to the domain it led to. *)
Theorem restart_resumes (c c1 c2 c3 : CacheFile) (st st1 : Store CacheFile) (m : FakeIPMetadata)
    (Hst : storeOk c st) (Hclose : Store_Close st = (None, st1)) (H1 : st_storage st1 = Some c1)
    (Hdb : cf_db c2 = cf_db c1)
    (Hpending : cf_saveDomain c2 = ∅ /\ cf_saveAddress4 c2 = ∅ /\ cf_saveAddress6 c2 = ∅)
    (Hread : fs_Metadata c2 = (Some m, c3)) :
  let st' := Store_Start c2 (NewStore (st_inet4Range st) (st_inet6Range st)) in
  storeOk c3 st' /\ (forall v6, currentOf v6 st' = currentOf v6 st)
  /\ forall a, storable a -> Store_Lookup st' a = Store_Lookup st a.
Proof.
  destruct (Close_saves c st st1 Hst Hclose) as (c1' & Hsave & ->). injection H1 as ->.
  pose proof (storeOk_metadata c st Hst) as Hmd.
  destruct (save_law c _ c1 (so_laws _ _ Hst) Hmd Hsave) as [Hok1 Hv1].
  pose proof (save_done _ _ _ Hsave) as (db & db' & Edb & E1 & Hb & Hg).
  assert (Em : m = Store_metadata st).
  { apply (Metadata_read c2 _ _ c3 Hmd); [|exact Hread]. intros db2 E2. rewrite Hdb, E1 in E2.
    injection E2 as <-. split; [done|]. by rewrite Hg, decide_True. }
  assert (Hok2 : cacheOk c2).
  { destruct Hpending as (? & ? & ?). split; [|done..]. rewrite Hdb. apply (co_db _ Hok1). }
  assert (Hv2 : forall b, storable b -> cacheView c2 b = cacheView c b).
  { intros b Hsb. unfold cacheView at 1. rewrite Hdb. by apply Hv1. }
  set (st2 := set_storage st c2).
  assert (Hst2 : storeOk c2 st2).
  { destruct Hst as [Hs Hl Hm Hf]. split; [done|done| |exact Hf].
    intros a d Ha Hd. apply (Hm a d Ha). rewrite <- Hd. symmetry. by apply Hv2. }
  rewrite Em in Hread. destruct (restart_lemma c2 c3 st2 Hst2 Hread) as (Hok & Hcur & Hlook).
  split_and!; [done|done|]. intros a Ha. etransitivity; [exact (Hlook a Ha)|].
  rewrite (Lookup_view c2 st2 a), (Lookup_view c st a) by done. f_equal. by apply Hv2.
Qed.
End cache.

(** ** Examples *)

Module CacheFakeIPExamples.
#[local] Existing Instance ref_libs.
#[local] Existing Instance ref_bolt.
#[local] Instance storage0 : FakeIPStorage CacheFile := CacheFile_storage true.
#[local] Instance laws0 : FakeIPStorageLaws CacheFile := CacheFile_laws true.

Definition cacheRange4 : Prefix := mkPrefix (Addr4 (198 * 2 ^ 24 + 18 * 2 ^ 16)) 15.
Definition opened (db : option BoltDB) : CacheFile := set_db (CacheFile_New "" false 0) db.
Definition c0 : CacheFile := opened (Some bolt_empty).
Definition cacheSt0 : Store CacheFile := Store_Start c0 (NewStore cacheRange4 Prefix.zero).
Definition c0' : CacheFile := snd (CacheFile_FakeIPReset true c0).

Lemma cacheSt0_ok : storeOk c0' cacheSt0.
Proof.
  split; [done| |done|].
  - split; [|done..]. intros db [= <-]. apply fakeipOk_empty.
  - intros []; [by apply family_off|].
    apply (family_on _ _ _ _ (198 * 2 ^ 24 + 18 * 2 ^ 16) 17 (-1));
      [|by vm_compute|by vm_compute|done]. split; [done|done|done|by vm_compute].
Qed.

Definition c1 : CacheFile := snd (CacheFile_FakeIPSaveMetadata true (Store_metadata cacheSt0) c0').
Definition c2 : CacheFile := opened (cf_db c1).

Lemma close_ok : Store_Close cacheSt0 = (None, set_storage cacheSt0 c1).
Proof.
  unfold Store_Close. rewrite (so_storage _ _ cacheSt0_ok). cbn [fs_SaveMetadata storage0 CacheFile_storage].
  unfold c1. assert (E : fst (CacheFile_FakeIPSaveMetadata true (Store_metadata cacheSt0) c0') = None)
    by by vm_compute.
  destruct (CacheFile_FakeIPSaveMetadata true _ _) as [e c]. cbn in E. by rewrite E.
Qed.

Lemma restart_resumes_witness :
  let st' := Store_Start c2 (NewStore cacheRange4 Prefix.zero) in
  (forall v6, currentOf v6 st' = currentOf v6 cacheSt0)
  /\ forall a, storable a -> Store_Lookup st' a = Store_Lookup cacheSt0 a.
Proof.
  apply (restart_resumes true c0' c1 c2 (snd (fs_Metadata c2)) cacheSt0 (set_storage cacheSt0 c1)
           (Store_metadata cacheSt0)); [apply cacheSt0_ok|apply close_ok|reflexivity|reflexivity|done|].
  rewrite (surjective_pairing (fs_Metadata c2)). cbn [snd]. by f_equal.
Defined.
End CacheFakeIPExamples.
