(* ===== verification/CacheFileDNS.v ===== *)
(** * The asynchronous DNS cache

    [SaveDNSCacheAsync] queues an entry and starts a goroutine unless one is
    writing that key; the goroutine writes the entry and looks whether a newer
    one was queued meanwhile.  The step relation interleaves queueing with the
    goroutines; the sequence numbers are what keeps an update from being lost. *)

From S2P Require Import Prelude.
From S2P Require Import GoText.
From S2P Require Import Bytes.
From S2P Require Import NetIP.
From S2P Require Import Libs.
From S2P Require Import FakeIP.
From S2P Require Import Bolt.
From S2P Require Import CacheFile.
From S2P Require Import CacheFileTheorems.
Local Open Scope string_scope.
Local Open Scope Z_scope.

Section dns.
Context `{L : Libs} `{B : Bbolt} (reopen : bool).

(** ** What is on disk *)

Definition dnsPath (c : CacheFile) (k : saveCacheKey) : Path :=
  (bucketPath c bucketDNSCache ++ [string_bytes (TransportName k)])%list.
Definition dnsKey (k : saveCacheKey) : list Z := questionKey (QuestionName k) (QType k).
Definition onDisk (c : CacheFile) (k : saveCacheKey) : option (list Z) :=
  match cf_db c with Some db => bolt_get db (dnsPath c k) (dnsKey k) | None => None end.
Definition record (raw : list Z) (expireAt : Z) : list Z := (putTime expireAt ++ raw)%list.

(** The query type is a [uint16]. *)
Definition keyOk (k : saveCacheKey) : Prop := 0 <= QType k < 2 ^ 16.

Lemma dnsPath_inj c k k' :
  keyOk k -> keyOk k' -> dnsPath c k = dnsPath c k' -> dnsKey k = dnsKey k' -> k = k'.
Proof.
  intros Hk Hk' Hp Hd. apply app_inj_tail in Hp as [_ Hp]. apply string_bytes_inj in Hp.
  unfold dnsKey, questionKey in Hd.
  apply app_inj_1 in Hd as [Ht Hq]; [|by rewrite !be_bytes_length].
  apply string_bytes_inj in Hq. apply (f_equal be_value) in Ht.
  unfold keyOk in *. rewrite !be_value_bytes_small, !Z.mod_small in Ht
    by (try lia; apply Z.mod_pos_bound; lia).
  destruct k, k'; cbn in *; congruence.
Qed.

Lemma closed_create p db db' :
  closedDB db -> (forall q n, p = (q ++ [n])%list -> q <> [] -> bolt_bucket db q = true) ->
  bolt_create p db = Ok db' -> closedDB db'.
Proof.
  intros Hcl Hp E q n Hq. rewrite !(bolt_create_bucket _ _ _ _ E).
  intros [H%(Hcl q n Hq)|H%bool_decide_eq_true_1]%orb_prop; [by rewrite H|].
  by rewrite (Hp q n (eq_sym H) Hq).
Qed.

Lemma closed_createBucket c key db b db' :
  closedDB db -> createBucket c key db = Ok (b, db') -> closedDB db' /\ bolt_bucket db' b = true.
Proof.
  intros Hcl. unfold createBucket. destruct (cf_cacheID c) as [id|]; intros H; inv_bind; subst.
  - assert (Hc1 : closedDB a).
    { eapply closed_create; [exact Hcl| |exact Hr]. intros [|? [|]] n E Hq; naive_solver. }
    split; [eapply closed_create; [exact Hc1| |exact Hr0]|].
    + intros q n E Hq. assert (q = [id]) as -> by (destruct q as [|? [|? [|]]]; naive_solver).
      by rewrite (bolt_create_bucket _ _ _ _ Hr), bool_decide_eq_true_2, orb_true_r.
    + by rewrite (bolt_create_bucket _ _ _ _ Hr0), bool_decide_eq_true_2, orb_true_r.
  - split; [eapply closed_create; [exact Hcl| |exact Hr]|].
    + intros [|? [|]] n E Hq; naive_solver.
    + by rewrite (bolt_create_bucket _ _ _ _ Hr), bool_decide_eq_true_2, orb_true_r.
Qed.

(** A save that succeeds writes this key and no other. *)
Lemma save_spec k raw expireAt c db c' :
  cf_db c = Some db -> closedDB db -> keyOk k ->
  SaveDNSCache reopen (TransportName k) (QuestionName k) (QType k) raw expireAt c = (None, c') ->
  (exists db', c' = set_db c (Some db') /\ closedDB db')
  /\ onDisk c' k = Some (record raw expireAt)
  /\ forall k', keyOk k' -> k' <> k -> onDisk c' k' = onDisk c k'.
Proof.
  intros Edb Hcl Hk. unfold SaveDNSCache.
  destruct (batch reopen _ c) as [[u|e] c1] eqn:E; [|done]. intros [= <-].
  apply batch_done in E as (db0 & db' & E0 & Htx & ->). assert (db0 = db) as -> by congruence.
  apply result_bind_Ok in Htx as ([b db1] & H1 & Htx). inv_bind. subst.
  destruct (closed_createBucket _ _ _ _ _ Hcl H1) as [Hcl1 Hb1].
  destruct (createBucket_spec _ _ _ _ _ H1) as (-> & Hg1 & _).
  assert (Hcl2 : closedDB a).
  { eapply closed_create; [exact Hcl1| |exact Hr]. intros q n Eq Hq.
    apply app_inj_tail in Eq as [<- _]. done. }
  assert (Hg : forall q j, bolt_get db' q j =
    if decide (q = dnsPath c k /\ j = dnsKey k) then Some (record raw expireAt) else bolt_get db q j).
  { intros q j. unfold dnsPath, dnsKey. rewrite (bolt_put_get _ _ _ _ _ _ _ Hr0).
    case_decide; [done|].
    by rewrite (bolt_create_get _ _ _ _ _ Hr), Hg1. }
  split_and!.
  - exists db'. split; [done|]. intros q n Hq. rewrite !(bolt_put_bucket _ _ _ _ _ _ Hr0).
    by apply Hcl2.
  - unfold onDisk. cbn [cf_db set_db]. rewrite Hg. by rewrite decide_True.
  - intros k' Hk' Hne. unfold onDisk. cbn [cf_db set_db]. rewrite Edb, Hg, decide_False; [done|].
    intros [Ep Ek]. by apply Hne, (dnsPath_inj c).
Qed.

(** ** Interleaving *)

(** The cache file, the goroutines, and two ghost fields: the last entry queued
    for a key and how many were queued. *)
Record system := mkSystem {
  sys_file : CacheFile;
  sys_flushers : list flusher;
  sys_latest : gmap saveCacheKey (list Z * Z);
  sys_queued : Z }.

Definition flushKey (f : flusher) : saveCacheKey :=
  match f with FlushRead k | FlushSave k _ | FlushCheck k _ => k end.

(** [SaveDNSCacheAsync]. *)
Definition queueStep (k : saveCacheKey) (raw : list Z) (expireAt : Z) (s : system) : system :=
  let '(startFlush, c) := queueDNSCacheSave k raw expireAt (sys_file s) in
  mkSystem c (if startFlush then FlushRead k :: sys_flushers s else sys_flushers s)
    (<[k := (raw, expireAt)]> (sys_latest s)) (sys_queued s + 1).

(** The goroutine between [before] and [after] runs to its next point. *)
Definition flushStep (before : list flusher) (f : flusher) (after : list flusher) (s : system) : system :=
  let '(f', c) := flushPendingDNSCacheWith reopen f (sys_file s) in
  mkSystem c (before ++ optList f' ++ after)%list (sys_latest s) (sys_queued s).

(** The transaction of the goroutine goes through; the code logs one that does
    not and carries on, so that entry is lost. *)
Definition saveWorks (c : CacheFile) (f : flusher) : Prop :=
  match f with
  | FlushSave k e => fst (SaveDNSCache reopen (TransportName k) (QuestionName k) (QType k)
                            (dc_rawMessage e) (dc_expireAt e) c) = None
  | _ => True
  end.

Inductive sysStep : system -> system -> Prop :=
  | SQueue k raw expireAt s : keyOk k -> sysStep s (queueStep k raw expireAt s)
  | SFlush before f after s :
      sys_flushers s = (before ++ f :: after)%list -> saveWorks (sys_file s) f ->
      sysStep s (flushStep before f after s).

(** Entries the goroutine of a key may hold: older than the pending one, or it. *)
Definition heldOk (e cur : saveDNSCacheEntry) : Prop :=
  dc_sequence e <= dc_sequence cur /\ (dc_sequence e = dc_sequence cur -> e = cur).

Definition flusherOk (c : CacheFile) (f : flusher) : Prop :=
  keyOk (flushKey f) /\ exists cur, cf_saveDNSCache c !! flushKey f = Some cur /\
  match f with
  | FlushRead _ => True
  | FlushSave _ e => heldOk e cur
  | FlushCheck k e => heldOk e cur /\ onDisk c k = Some (record (dc_rawMessage e) (dc_expireAt e))
  end.

Record sysOk (s : system) : Prop := {
  sk_db : exists db, cf_db (sys_file s) = Some db /\ closedDB db;
  sk_count : 0 <= sys_queued s;
  sk_unique : NoDup (map flushKey (sys_flushers s));
  sk_flushers : Forall (flusherOk (sys_file s)) (sys_flushers s);
  sk_pending : forall k e, cf_saveDNSCache (sys_file s) !! k = Some e ->
    k ∈ map flushKey (sys_flushers s) /\ keyOk k /\ dc_saving e = true
    /\ 1 <= dc_sequence e <= sys_queued s
    /\ sys_latest s !! k = Some (dc_rawMessage e, dc_expireAt e);
  sk_written : forall k r t, cf_saveDNSCache (sys_file s) !! k = None ->
    sys_latest s !! k = Some (r, t) -> keyOk k /\ onDisk (sys_file s) k = Some (record r t) }.

(** ** Queueing keeps the invariant *)

Lemma onDisk_pending c m k : onDisk (set_saveDNSCache c m) k = onDisk c k.
Proof. done. Qed.

(** A held entry stays held when a newer one is queued. *)
Lemma heldOk_newer e cur new :
  heldOk e cur -> dc_sequence new = dc_sequence cur + 1 -> heldOk e new.
Proof. intros [Hle _] Hs. split; lia. Qed.

Lemma flusherOk_insert c k new f :
  (forall old, cf_saveDNSCache c !! k = Some old -> dc_sequence new = dc_sequence old + 1) ->
  flusherOk c f -> flusherOk (set_saveDNSCache c (<[k := new]> (cf_saveDNSCache c))) f.
Proof.
  intros Hnew (Hkf & cur & Ec & Hf). split; [done|].
  cbn [cf_saveDNSCache set_saveDNSCache]. destruct (decide (flushKey f = k)) as [Hfk|Hne].
  - exists new. rewrite Hfk in *. rewrite lookup_insert_eq. split; [done|].
    specialize (Hnew _ Ec).
    destruct f as [|k' e|k' e]; [done|by eapply heldOk_newer|].
    destruct Hf as [Hh Hd]. split; [by eapply heldOk_newer|by rewrite onDisk_pending].
  - exists cur. rewrite lookup_insert_ne by done. done.
Qed.

Lemma sysOk_queue k raw expireAt s :
  sysOk s -> keyOk k -> sys_queued s + 1 < 2 ^ 64 -> sysOk (queueStep k raw expireAt s).
Proof.
  intros [Hdb Hcnt Hun Hfl Hpen Hwr] Hk Hbound. unfold queueStep, queueDNSCacheSave.
  set (c := sys_file s) in *. set (fl := sys_flushers s) in *.
  set (old := default (mkDNSCacheEntry [] 0 0 false) (cf_saveDNSCache c !! k)).
  set (new := mkDNSCacheEntry raw expireAt ((dc_sequence old + 1) mod 2 ^ 64) true).
  set (fl' := if negb (dc_saving old) then FlushRead k :: fl else fl).
  assert (Hnew : dc_sequence new = dc_sequence old + 1 /\ 0 <= dc_sequence old <= sys_queued s).
  { subst new old. cbn [dc_sequence]. destruct (_ !! k) as [e|] eqn:E; cbn [default from_option id dc_sequence].
    - destruct (Hpen k e E) as (_ & _ & _ & ? & _). rewrite Z.mod_small; lia.
    - rewrite Z.mod_small; lia. }
  assert (Hfl' : (cf_saveDNSCache c !! k = Some old /\ fl' = fl /\ k ∈ map flushKey fl)
                 \/ (fl' = FlushRead k :: fl /\ k ∉ map flushKey fl)).
  { subst fl' old. destruct (_ !! k) as [e|] eqn:E; cbn [default from_option id].
    - destruct (Hpen k e E) as (? & _ & Hsav & _). left. by rewrite Hsav.
    - right. split; [done|]. intros Hin. apply list_elem_of_In, in_map_iff in Hin as (f & Hf & Hin).
      rewrite Forall_forall in Hfl. destruct (Hfl f Hin) as (_ & cur & Ec & _). congruence. }
  assert (Hkeep : Forall (flusherOk (set_saveDNSCache c (<[k := new]> (cf_saveDNSCache c)))) fl).
  { eapply Forall_impl; [|exact Hfl]. intros f. apply flusherOk_insert. intros o Ho.
    assert (old = o) as <- by (subst old; by rewrite Ho). lia. }
  cbn zeta. split; cbn [sys_file sys_flushers sys_latest sys_queued]; fold fl'.
  - exact Hdb.
  - lia.
  - destruct Hfl' as [(_ & -> & _)|(-> & ?)]; [done|by constructor].
  - destruct Hfl' as [(_ & -> & _)|(-> & ?)]; [done|]. constructor; [|done]. split; [done|].
    eexists. cbn [flushKey cf_saveDNSCache set_saveDNSCache]. by rewrite lookup_insert_eq.
  - intros k' e'. cbn [cf_saveDNSCache set_saveDNSCache].
    intros [[<- <-]|[Hne E]]%lookup_insert_Some.
    + rewrite lookup_insert_eq. split_and!; try done; try lia.
      destruct Hfl' as [(_ & -> & ?)|(-> & ?)]; [done|cbn [map flushKey]; set_solver].
    + rewrite lookup_insert_ne by done. destruct (Hpen k' e' E) as (? & ? & ? & ? & ?).
      split_and!; try done; try lia.
      destruct Hfl' as [(_ & -> & ?)|(-> & ?)]; [done|cbn [map flushKey]; set_solver].
  - intros k' r t. cbn [cf_saveDNSCache set_saveDNSCache].
    intros [E Hne]%lookup_insert_None. rewrite lookup_insert_ne by done. apply Hwr. done.
Qed.

(** ** A goroutine's step keeps the invariant *)

Lemma NoDup_middle {A} (l1 : list A) x l2 :
  NoDup (l1 ++ x :: l2) -> x ∉ (l1 ++ l2)%list /\ NoDup (l1 ++ l2).
Proof. rewrite <-Permutation_middle. apply list.NoDup_cons. Qed.

(** The flusher list after a step that stays with its key. *)
Lemma flushers_replace (P : flusher -> Prop) before f f' after :
  flushKey f' = flushKey f -> NoDup (map flushKey (before ++ f :: after)) ->
  (forall g, g ∈ (before ++ after)%list -> flushKey g <> flushKey f -> P g) -> P f' ->
  map flushKey (before ++ f' :: after) = map flushKey (before ++ f :: after)
  /\ Forall P (before ++ f' :: after).
Proof.
  intros Hk Hnd HP Hf'. split; [by rewrite !map_app, !map_cons, Hk|].
  rewrite map_app in Hnd. cbn in Hnd. apply NoDup_middle in Hnd as [Hni _].
  assert (Hg : forall g, g ∈ (before ++ after)%list -> P g).
  { intros g Hg. apply HP; [done|]. intros E. apply Hni. rewrite <-map_app, <-E.
    by apply list_elem_of_In, in_map, list_elem_of_In. }
  apply Forall_app; split; [|constructor; [done|]]; apply Forall_forall; intros g Hin;
    apply Hg, elem_of_app; [left|right]; by apply list_elem_of_In.
Qed.

Lemma flushers_remove before f after :
  NoDup (map flushKey (before ++ f :: after)) ->
  NoDup (map flushKey (before ++ after))
  /\ forall k, k ∈ map flushKey (before ++ after)
       <-> k ∈ map flushKey (before ++ f :: after) /\ k <> flushKey f.
Proof.
  rewrite !map_app. cbn. intros [Hni Hnd]%NoDup_middle. split; [done|].
  intros k. set_solver.
Qed.

Lemma heldOk_refl e : heldOk e e.
Proof. split; [lia|done]. Qed.

(** A step that only moves the goroutine on. *)
Lemma sysOk_move before f f' after s :
  sysOk s -> sys_flushers s = (before ++ f :: after)%list -> flushKey f' = flushKey f ->
  flusherOk (sys_file s) f' ->
  sysOk (mkSystem (sys_file s) (before ++ f' :: after) (sys_latest s) (sys_queued s)).
Proof.
  intros [Hdb Hcnt Hun Hfl Hpen Hwr] E Hk Hf'. rewrite E in *.
  destruct (flushers_replace (flusherOk (sys_file s)) before f f' after Hk Hun) as [Em HF]; [|done|].
  { rewrite Forall_forall in Hfl. intros g Hg _. apply Hfl, list_elem_of_In. set_solver. }
  split; cbn [sys_file sys_flushers sys_latest sys_queued]; rewrite ?Em; try done.
Qed.

Lemma sysOk_save before k e after s :
  sysOk s -> sys_flushers s = (before ++ FlushSave k e :: after)%list ->
  saveWorks (sys_file s) (FlushSave k e) -> sysOk (flushStep before (FlushSave k e) after s).
Proof.
  intros [(db & Edb & Hcl) Hcnt Hun Hfl Hpen Hwr] E Hw. unfold flushStep, flushPendingDNSCacheWith.
  rewrite E in *. assert (Hfe : flusherOk (sys_file s) (FlushSave k e)).
  { rewrite Forall_forall in Hfl. apply Hfl, list_elem_of_In. set_solver. }
  destruct Hfe as (Hk & cur & Ec & Hh). cbn [flushKey] in *. cbn [saveWorks] in Hw.
  destruct (SaveDNSCache _ _ _ _ _ _ _) as [o c'] eqn:Es. cbn in Hw. subst o.
  destruct (save_spec _ _ _ _ _ _ Edb Hcl Hk Es) as ((db' & Ec' & Hcl') & Hd & Hd').
  assert (Hp : cf_saveDNSCache c' = cf_saveDNSCache (sys_file s)) by by rewrite Ec'.
  destruct (flushers_replace (flusherOk c') before (FlushSave k e) (FlushCheck k e) after) as [Em HF];
    [done|done| | |].
  - rewrite Forall_forall in Hfl. intros g Hg Hne.
    destruct (Hfl g) as (Hkg & cg & Ecg & Hfg); [apply list_elem_of_In; set_solver|].
    split; [done|]. exists cg. rewrite Hp. split; [done|].
    destruct g as [| |kg eg]; [done|done|]. by rewrite Hd'.
  - split; [done|]. exists cur. by rewrite Hp.
  - split; cbn [sys_file sys_flushers sys_latest sys_queued optList app]; rewrite ?Em, ?Hp; try done.
    + exists db'. by rewrite Ec'.
    + intros k' r t Hn Hl. destruct (Hwr k' r t Hn Hl) as [Hk' Ho]. split; [done|].
      rewrite Hd'; [done|done|]. intros ->. congruence.
Qed.

(** The goroutine ends: its entry is the pending one, and on disk. *)
Lemma sysOk_end before k e after s :
  sysOk s -> sys_flushers s = (before ++ FlushCheck k e :: after)%list ->
  cf_saveDNSCache (sys_file s) !! k = Some e ->
  sysOk (mkSystem (set_saveDNSCache (sys_file s) (delete k (cf_saveDNSCache (sys_file s))))
           (before ++ after) (sys_latest s) (sys_queued s)).
Proof.
  intros [Hdb Hcnt Hun Hfl Hpen Hwr] E Ec. rewrite E in *.
  destruct (flushers_remove _ _ _ Hun) as [Hun' Hin']. cbn [flushKey] in Hin'.
  rewrite Forall_forall in Hfl.
  destruct (Hfl (FlushCheck k e)) as (Hk & cur & Ecur & Hh & Hd); [apply list_elem_of_In; set_solver|].
  cbn [flushKey] in *.
  split; cbn [sys_file sys_flushers sys_latest sys_queued cf_saveDNSCache set_saveDNSCache]; try done.
  - apply Forall_forall. intros g Hg. destruct (Hfl g) as (Hkg & cg & Ecg & Hfg).
    { apply list_elem_of_In, elem_of_app in Hg. apply list_elem_of_In. set_solver. }
    split; [done|]. exists cg. cbn [cf_saveDNSCache set_saveDNSCache].
    rewrite lookup_delete_ne; [done|]. intros Eg.
    destruct (Hin' (flushKey g)) as [Hi _]. apply Hi; [|done]. by apply list_elem_of_In, in_map.
  - intros k' e' [Hne Ek']%lookup_delete_Some. rewrite Hin'.
    destruct (Hpen k' e' Ek') as (? & ? & ? & ? & ?). split; [split; congruence|done].
  - intros k' r t Hn Hl. rewrite onDisk_pending. destruct (decide (k' = k)) as [->|Hne].
    + destruct (Hpen k e Ec) as (_ & _ & _ & _ & El). split; [done|]. rewrite Hd. congruence.
    + rewrite lookup_delete_ne in Hn by done. by apply Hwr.
Qed.

Lemma flusher_in s f : sysOk s -> f ∈ sys_flushers s -> flusherOk (sys_file s) f.
Proof. intros [_ _ _ Hfl _ _] Hin. rewrite Forall_forall in Hfl. by apply Hfl, list_elem_of_In. Qed.

Lemma sysOk_flush before f after s :
  sysOk s -> sys_flushers s = (before ++ f :: after)%list -> saveWorks (sys_file s) f ->
  sysOk (flushStep before f after s).
Proof.
  intros Hs E Hw. destruct f as [k|k e|k e]; [|by apply sysOk_save|].
  - destruct (flusher_in s (FlushRead k) Hs) as (Hk & cur & Ec & _).
    { rewrite E. set_solver. }
    unfold flushStep, flushPendingDNSCacheWith. cbn [flushKey] in *. rewrite Ec.
    eapply sysOk_move; [done|exact E|done|]. split; [done|]. exists cur. split; [done|apply heldOk_refl].
  - destruct (flusher_in s (FlushCheck k e) Hs) as (Hk & cur & Ec & Hh & Hd).
    { rewrite E. set_solver. }
    unfold flushStep, flushPendingDNSCacheWith. cbn [flushKey] in *. rewrite Ec.
    destruct (Z.eqb_spec (dc_sequence cur) (dc_sequence e)) as [Es|Hne]; cbn [negb].
    + apply sysOk_end with (e := e); [done|done|]. destruct Hh as [_ Hh]. by rewrite Hh.
    + eapply sysOk_move; [done|exact E|done|]. split; [done|]. by exists cur.
Qed.

(** ** Runs *)

Lemma queued_mono s s' : sysStep s s' -> sys_queued s <= sys_queued s'.
Proof.
  intros [k raw expireAt s1 _|before f after s1 _ _].
  - unfold queueStep. destruct (queueDNSCacheSave _ _ _ _). cbn. lia.
  - unfold flushStep. destruct (flushPendingDNSCacheWith _ _ _). cbn. lia.
Qed.

Lemma queued_run s s' : rtc sysStep s s' -> sys_queued s <= sys_queued s'.
Proof. induction 1 as [|s1 s2 s3 H%queued_mono]; lia. Qed.

Lemma sysOk_step s s' : sysOk s -> sysStep s s' -> sys_queued s' < 2 ^ 64 -> sysOk s'.
Proof.
  intros Hs Hst. destruct Hst as [k raw expireAt s1 Hk|before f after s1 E Hw]; intros Hq.
  - apply sysOk_queue; [done|done|]. revert Hq. unfold queueStep.
    destruct (queueDNSCacheSave _ _ _ _). done.
  - by apply sysOk_flush.
Qed.

Lemma sysOk_run s s' : rtc sysStep s s' -> sysOk s -> sys_queued s' < 2 ^ 64 -> sysOk s'.
Proof.
  induction 1 as [|s1 s2 s3 H12 H23 IH]; [done|]. intros Hs Hq.
  apply IH; [|done]. eapply sysOk_step; [done|done|]. pose proof (queued_run _ _ H23). lia.
Qed.

(** Nothing queued yet. *)
Definition idle (c : CacheFile) : system := mkSystem (set_saveDNSCache c ∅) [] ∅ 0.

Lemma sysOk_idle c db : cf_db c = Some db -> closedDB db -> sysOk (idle c).
Proof.
  intros E Hcl. split; cbn; [by exists db|lia|by constructor|by constructor| |].
  - intros k e. by rewrite lookup_empty.
  - intros k r t _. by rewrite lookup_empty.
Qed.

(** What loading a key that is not pending gives. *)
Lemma load_get c db k :
  cf_db c = Some db -> closedDB db -> cf_saveDNSCache c !! k = None ->
  fst (LoadDNSCache reopen (TransportName k) (QuestionName k) (QType k) c) =
  match bolt_get db (dnsPath c k) (dnsKey k) with
  | Some v => if (length v <? 8)%nat then None else Some (drop 8 v, getTime v)
  | None => None
  end.
Proof.
  intros Edb Hcl Hn. unfold LoadDNSCache. destruct k as [tn qn qt].
  cbn [TransportName QuestionName QType] in *. rewrite Hn. unfold view. rewrite Edb.
  unfold transportBucket, dnsPath, dnsKey. cbn [TransportName QuestionName QType].
  assert (Hno : bolt_bucket db (bucketPath c bucketDNSCache ++ [string_bytes tn])%list = true ->
                cf_bucket c db bucketDNSCache = Some (bucketPath c bucketDNSCache)).
  { unfold cf_bucket, bucketPath. destruct (cf_cacheID c) as [id|]; intros Hb.
    - pose proof (Hcl [id; bucketDNSCache] _ ltac:(done) Hb) as H2.
      by rewrite H2, (Hcl [id] bucketDNSCache ltac:(done) H2).
    - by rewrite (Hcl [bucketDNSCache] _ ltac:(done) Hb). }
  destruct (bolt_bucket db (bucketPath c bucketDNSCache ++ [string_bytes tn])%list) eqn:Eb.
  - rewrite (Hno eq_refl), Eb. destruct (bolt_get _ _ _) as [v|]; [|done].
    cbn [default from_option]. unfold id. by destruct (length v <? 8)%nat.
  - rewrite (bolt_get_nobucket _ _ _ Eb). destruct (cf_bucket c db bucketDNSCache) as [b|] eqn:E; [|done].
    by rewrite (cf_bucket_path _ _ _ _ E), Eb.
Qed.

Lemma load_onDisk c db k raw t :
  cf_db c = Some db -> closedDB db -> cf_saveDNSCache c !! k = None ->
  onDisk c k = Some (record raw t) -> timeOk t ->
  fst (LoadDNSCache reopen (TransportName k) (QuestionName k) (QType k) c) = Some (raw, time_Unix (Unix t)).
Proof.
  intros Edb Hcl Hn Hd Ht. rewrite (load_get c db) by done. unfold onDisk in Hd. rewrite Edb in Hd.
  rewrite Hd. unfold record. rewrite length_app, putTime_length, (proj2 (Nat.ltb_ge _ _)) by lia.
  rewrite drop_app_length' by (by rewrite putTime_length). by rewrite getTime_put.
Qed.

(** C6 No queued DNS response is lost or overtaken: however queueing and the
    writing goroutines interleave (fewer than 2^64 queued, transactions that go
    through), loading a key gives the response queued last for it, with its
    expiry, exact or, once it is on disk, in whole seconds. *)
Theorem dns_cache_latest (c : CacheFile) (db : BoltDB) (s : system) (k : saveCacheKey) (raw : list Z)
    (t : Z) (Hdb : cf_db c = Some db) (Hclosed : closedDB db) (Hrun : rtc sysStep (idle c) s)
    (Hq : sys_queued s < 2 ^ 64) (Ht : timeOk t) (Hlast : sys_latest s !! k = Some (raw, t)) :
  exists t', fst (LoadDNSCache reopen (TransportName k) (QuestionName k) (QType k) (sys_file s))
             = Some (raw, t') /\ (t' = t \/ t' = time_Unix (Unix t)).
Proof.
  pose proof (sysOk_run _ _ Hrun (sysOk_idle c db Hdb Hclosed) Hq) as Hs.
  destruct (cf_saveDNSCache (sys_file s) !! k) as [e|] eqn:E.
  - destruct (sk_pending _ Hs k e E) as (_ & _ & _ & _ & El). exists t. split; [|by left].
    unfold LoadDNSCache. destruct k as [tn qn qt]. cbn [TransportName QuestionName QType] in *. rewrite E. cbn. congruence.
  - destruct (sk_db _ Hs) as (db' & Edb & Hcl). destruct (sk_written _ Hs k raw t E Hlast) as [_ Hd].
    exists (time_Unix (Unix t)). split; [|by right]. by eapply load_onDisk.
Qed.

(** ** The goroutines end *)

Definition flushOnly (s s' : system) : Prop :=
  exists before f after, sys_flushers s = (before ++ f :: after)%list
    /\ saveWorks (sys_file s) f /\ s' = flushStep before f after s.

Definition current (c : CacheFile) (k : saveCacheKey) (e : saveDNSCacheEntry) : bool :=
  match cf_saveDNSCache c !! k with
  | Some cur => dc_sequence cur =? dc_sequence e
  | None => true
  end.

(** Steps the goroutine still makes when nothing is queued any more. *)
Definition flushWork (c : CacheFile) (f : flusher) : nat :=
  match f with
  | FlushRead _ => 3
  | FlushSave k e => if current c k e then 2 else 5
  | FlushCheck k e => if current c k e then 1 else 4
  end.
Definition totalWork (s : system) : nat := list_sum (map (flushWork (sys_file s)) (sys_flushers s)).

Lemma list_sum_cons x l : list_sum (x :: l) = (x + list_sum l)%nat.
Proof. done. Qed.

Lemma flushWork_ext c c' f :
  cf_saveDNSCache c' !! flushKey f = cf_saveDNSCache c !! flushKey f -> flushWork c' f = flushWork c f.
Proof. unfold flushWork, current. destruct f; cbn [flushKey]; intros H; by rewrite ?H. Qed.

(** The step of [f] uses up one; the other goroutines do not notice. *)
Lemma flushStep_work before f after s :
  sysOk s -> sys_flushers s = (before ++ f :: after)%list -> saveWorks (sys_file s) f ->
  let '(f', c') := flushPendingDNSCacheWith reopen f (sys_file s) in
  (list_sum (map (flushWork c') (optList f')) + 1 = flushWork (sys_file s) f)%nat
  /\ forall g, flushKey g <> flushKey f -> flushWork c' g = flushWork (sys_file s) g.
Proof.
  intros Hs E Hw. destruct (flusher_in s f Hs) as (Hk & cur & Ec & Hf); [rewrite E; set_solver|].
  destruct f as [k|k e|k e]; cbn [flushPendingDNSCacheWith flushKey] in *.
  - rewrite Ec. cbn. unfold current. by rewrite Ec, Z.eqb_refl.
  - destruct (sk_db _ Hs) as (db & Edb & Hcl). cbn [saveWorks] in Hw.
    destruct (SaveDNSCache _ _ _ _ _ _ _) as [o c'] eqn:Es. cbn in Hw. subst o.
    destruct (save_spec _ _ _ _ _ _ Edb Hcl Hk Es) as ((db' & -> & _) & _).
    split; [cbn; unfold current; cbn [cf_saveDNSCache set_db]; unfold current; cbn [cf_saveDNSCache set_db]; rewrite Ec; by destruct (_ =? _)|].
    intros g _. by apply flushWork_ext.
  - rewrite Ec. destruct (Z.eqb_spec (dc_sequence cur) (dc_sequence e)) as [Es|Hne]; cbn [negb].
    + split; [cbn; unfold current; by rewrite Ec, (proj2 (Z.eqb_eq _ _) Es)|].
      intros g Hg. apply flushWork_ext. cbn. by rewrite lookup_delete_ne.
    + split; [cbn; unfold current; by rewrite Ec, (proj2 (Z.eqb_neq _ _) Hne)|done].
Qed.

Lemma flushOnly_work s s' : sysOk s -> flushOnly s s' -> sysOk s' /\ (totalWork s' + 1 = totalWork s)%nat
  /\ sys_latest s' = sys_latest s.
Proof.
  intros Hs (before & f & after & E & Hw & ->). split; [by apply sysOk_flush|].
  pose proof (flushStep_work before f after s Hs E Hw) as H. pose proof (sk_unique _ Hs) as Hun.
  unfold flushStep, totalWork. destruct (flushPendingDNSCacheWith _ _ _) as [f' c'].
  destruct H as [H1 H2]. cbn [sys_file sys_flushers sys_latest]. split; [|done]. rewrite E in Hun |- *.
  assert (Hother : forall l, (forall g, In g l -> In g (before ++ after)) ->
            map (flushWork c') l = map (flushWork (sys_file s)) l).
  { intros l Hl. apply map_ext_in. intros g Hg. apply H2. intros Eg.
    rewrite map_app in Hun. cbn in Hun. apply NoDup_middle in Hun as [Hni _]. apply Hni.
    rewrite <-map_app, <-Eg. by apply list_elem_of_In, in_map, Hl. }
  rewrite !map_app, !list_sum_app, map_cons, list_sum_cons.
  rewrite (Hother before), (Hother after); [|intros; apply in_or_app; by right|intros; apply in_or_app; by left].
  lia.
Qed.

Lemma work_bound s : (totalWork s <= 5 * length (sys_flushers s))%nat.
Proof.
  unfold totalWork. induction (sys_flushers s) as [|f l IH]; cbn [map list_sum fold_right length]; [lia|].
  fold (list_sum (map (flushWork (sys_file s)) l)).
  assert (flushWork (sys_file s) f <= 5)%nat; [|lia]. unfold flushWork. destruct f; repeat split_match; lia.
Qed.

Lemma work_zero s : totalWork s = 0%nat -> sys_flushers s = [].
Proof.
  unfold totalWork. destruct (sys_flushers s) as [|f l]; [done|]. cbn [map list_sum fold_right].
  unfold flushWork at 1. destruct f; repeat split_match; lia.
Qed.

(** Once nothing more is queued the goroutines end: whatever their
    interleaving, they make at most five steps each, and when that many steps
    ([totalWork]) were made no goroutine is left and the last response queued
    for every key is on disk. *)
Theorem dns_cache_quiesces (c : CacheFile) (db : BoltDB) (s s' : system) (n : nat)
    (Hdb : cf_db c = Some db) (Hclosed : closedDB db) (Hrun : rtc sysStep (idle c) s)
    (Hq : sys_queued s < 2 ^ 64) (Hflush : nsteps flushOnly n s s') :
  (n <= totalWork s <= 5 * length (sys_flushers s))%nat
  /\ (n = totalWork s -> sys_flushers s' = []
      /\ forall k raw t, sys_latest s !! k = Some (raw, t) ->
         onDisk (sys_file s') k = Some (record raw t)).
Proof.
  pose proof (sysOk_run _ _ Hrun (sysOk_idle c db Hdb Hclosed) Hq) as Hs. clear Hrun Hq Hdb.
  assert (Hn : sysOk s' /\ (totalWork s' + n = totalWork s)%nat /\ sys_latest s' = sys_latest s).
  { induction Hflush as [|n s1 s2 s3 H12 H23 IH]; [split_and!; [done|lia|done]|].
    destruct (flushOnly_work _ _ Hs H12) as (Hs2 & Hw & El). destruct (IH Hs2) as (? & ? & ?).
    split_and!; [done|lia|congruence]. }
  destruct Hn as (Hs' & Hw & El). split; [split; [lia|apply work_bound]|]. intros ->.
  assert (E : sys_flushers s' = []) by (apply work_zero; lia). split; [done|].
  intros k raw t Hl. rewrite <-El in Hl. apply (sk_written _ Hs' k raw t); [|done].
  destruct (cf_saveDNSCache (sys_file s') !! k) as [e|] eqn:Ek; [|done]. destruct (sk_pending _ Hs' k e Ek) as [Hin _].
  rewrite E in Hin. set_solver.
Qed.
End dns.
