(* ===== verification/CacheFileCleanup.v ===== *)
(** * Expiry and start-up cleaning of the cache file

    [cleanupDNSCache] removes the expired responses and nothing else; [start]
    removes the buckets it does not know, except that below the bucket of a
    cache ID it deletes the wrong name. *)

From S2P Require Import Prelude.
From S2P Require Import GoText.
From S2P Require Import Bytes.
From S2P Require Import NetIP.
From S2P Require Import Libs.
From S2P Require Import FakeIP.
From S2P Require Import Bolt.
From S2P Require Import CacheFile.
From S2P Require Import CacheFileTheorems.
From S2P Require Import CacheFileDNS.
Local Open Scope string_scope.
Local Open Scope Z_scope.

Section cleanup.
Context `{L : Libs} `{B : Bbolt} (reopen : bool).

(** ** Paths *)

Lemma above_app p q : above p (p ++ q)%list = true.
Proof. apply bool_decide_eq_true. by rewrite take_app_length. Qed.

Lemma above_inv p q : above p q = true -> exists r, q = (p ++ r)%list.
Proof.
  intros H%bool_decide_eq_true_1. exists (drop (length p) q). rewrite <-H at 1. by rewrite take_drop.
Qed.

Lemma above_trans_down p q n : above p q = true -> above p (q ++ [n])%list = true.
Proof. intros (r & ->)%above_inv. rewrite <-app_assoc. apply above_app. Qed.

(** Below a bucket that is not there nothing is. *)
Lemma closed_below db p q :
  closedDB db -> p <> [] -> bolt_bucket db p = false -> above p q = true -> bolt_bucket db q = false.
Proof.
  intros Hcl Hp Hb (r & ->)%above_inv. induction r as [|n r IH] using rev_ind.
  - by rewrite app_nil_r.
  - rewrite app_assoc. apply not_true_is_false. intros E.
    apply Hcl in E; [|by destruct p]. by rewrite IH in E.
Qed.

(** Below a bucket without buckets only its own keys are. *)
Lemma childless_below db p q :
  closedDB db -> p <> [] -> bolt_children db p = [] -> above p q = true -> q <> p ->
  bolt_bucket db q = false.
Proof.
  intros Hcl Hp Hc (r & ->)%above_inv Hne. destruct r as [|n r]; [by rewrite app_nil_r in Hne|].
  apply (closed_below db (p ++ [n])); [done|by destruct p| |].
  - apply not_true_is_false. intros E. apply bolt_children_bucket in E. by rewrite Hc in E.
  - replace (p ++ n :: r)%list with ((p ++ [n]) ++ r)%list by by rewrite <-app_assoc. apply above_app.
Qed.

Lemma closed_deleteBucket p db db' :
  closedDB db -> bolt_deleteBucket p db = Ok db' -> closedDB db'.
Proof.
  intros Hcl E q n Hq. rewrite !(bolt_deleteBucket_bucket _ _ _ _ E).
  intros [H%(Hcl q n Hq) Ha]%andb_prop. rewrite H. destruct (above p q) eqn:Eq; [|done].
  by rewrite (above_trans_down p q n Eq) in Ha.
Qed.

Lemma closed_same db db' :
  (forall q, bolt_bucket db' q = bolt_bucket db q) -> closedDB db -> closedDB db'.
Proof. intros H Hcl q n Hq. rewrite !H. by apply Hcl. Qed.

(** ** Expiry *)

Lemma deleteKeys_spec p keys db db' :
  deleteKeys p keys db = Ok db' ->
  (forall q, bolt_bucket db' q = bolt_bucket db q)
  /\ forall q j, bolt_get db' q j = if decide (q = p /\ j ∈ keys) then None else bolt_get db q j.
Proof.
  revert db. induction keys as [|k keys IH]; intros db; cbn [deleteKeys].
  - intros [= <-]. split; [done|]. intros q j. by rewrite decide_False by set_solver.
  - intros H. inv_bind. destruct (IH _ H) as [Hb Hg]. split; intros q.
    + by rewrite Hb, (bolt_delete_bucket _ _ _ _ _ Hr).
    + intros j. rewrite Hg, (bolt_delete_get _ _ _ _ _ _ Hr). repeat case_decide; set_solver.
Qed.

Definition survive (expired : list Z -> bool) (o : option (list Z)) : option (list Z) :=
  match o with Some v => if expired v then None else Some v | None => None end.

Lemma survive_idem ex o : survive ex (survive ex o) = survive ex o.
Proof. unfold survive. destruct o as [v|]; [|done]. destruct (ex v) eqn:E; [done|by rewrite E]. Qed.

Lemma cleanupTransport_spec ex p db empty db' :
  cleanupTransport ex p db = Ok (empty, db') ->
  (forall q, bolt_bucket db' q = bolt_bucket db q)
  /\ (forall q j, bolt_get db' q j = if decide (q = p) then survive ex (bolt_get db q j) else bolt_get db q j)
  /\ (empty = true -> bolt_children db' p = [] /\ forall j, bolt_get db' p j = None).
Proof.
  unfold cleanupTransport. intros H. inv_bind. subst.
  destruct (deleteKeys_spec _ _ _ _ Hr) as [Hb Hg]. split_and!; [done| |].
  - intros q j. rewrite Hg. destruct (decide (q = p)) as [->|Hq]; [|by rewrite decide_False by set_solver].
    destruct (bolt_get db p j) as [v|] eqn:E; cbn [survive]; [|by case_decide].
    apply bolt_entries_get in E as Hin. case_decide as Hd.
    + destruct Hd as [_ Hd]. apply list_elem_of_In, in_map_iff in Hd as ([j' v'] & Hj & Hf). cbn in Hj. subst j'.
      apply filter_In in Hf as [Hf Hex]. apply bolt_entries_get in Hf.
      assert (v' = v) as -> by congruence. cbn in Hex. by rewrite Hex.
    + destruct (ex v) eqn:Ex; [|done]. destruct Hd. split; [done|].
      apply list_elem_of_In, in_map_iff. exists (j, v). split; [done|]. by apply filter_In.
  - intros [He Hc]%andb_prop. apply Nat.eqb_eq in He, Hc. split; [by apply nil_length_inv|].
    intros j. destruct (bolt_get _ p j) as [v|] eqn:E; [|done]. apply bolt_entries_get in E.
    apply nil_length_inv in He. by rewrite He in E.
Qed.

(** A bucket without keys and buckets. *)
Definition hollow (db : BoltDB) (p : Path) : Prop :=
  bolt_children db p = [] /\ forall j, bolt_get db p j = None.

Lemma children_none db p : (forall n, bolt_bucket db (p ++ [n])%list = false) -> bolt_children db p = [].
Proof.
  intros H. destruct (bolt_children db p) as [|n l] eqn:E; [done|].
  assert (Hn : In n (bolt_children db p)) by (rewrite E; by left).
  apply bolt_children_bucket in Hn. by rewrite H in Hn.
Qed.

Lemma children_same db db' p :
  (forall q, bolt_bucket db' q = bolt_bucket db q) -> bolt_children db p = [] -> bolt_children db' p = [].
Proof.
  intros H E. apply children_none. intros n. rewrite H. apply not_true_is_false. intros Eb.
  apply bolt_children_bucket in Eb. by rewrite E in Eb.
Qed.

Lemma cleanupTransports_spec ex p names db empties db' :
  cleanupTransports ex p names db = Ok (empties, db') ->
  (forall q, bolt_bucket db' q = bolt_bucket db q)
  /\ (forall q j, bolt_get db' q j =
        if decide (q ∈ map (fun n => p ++ [n])%list names) then survive ex (bolt_get db q j)
        else bolt_get db q j)
  /\ Forall (fun n => hollow db' (p ++ [n])%list) empties.
Proof.
  revert db empties. induction names as [|n names IH]; intros db empties; cbn [cleanupTransports].
  - intros [= <- <-]. split_and!; [done| |done]. intros q j. by rewrite decide_False by set_solver.
  - destruct (bolt_bucket db (p ++ [n])%list) eqn:Eb; cbn [negb].
    + intros H. apply result_bind_Ok in H as ([empty db1] & H1 & H).
      apply result_bind_Ok in H as ([rest db2] & H2 & H). injection H as <- <-.
      destruct (cleanupTransport_spec _ _ _ _ _ H1) as (Hb1 & Hg1 & He1).
      destruct (IH _ _ H2) as (Hb2 & Hg2 & He2). split_and!.
      * intros q. by rewrite Hb2, Hb1.
      * intros q j. rewrite Hg2, Hg1. cbn [map]. repeat case_decide; subst; rewrite ?survive_idem; set_solver.
      * destruct empty; [|done]. constructor; [|done]. destruct (He1 eq_refl) as [Hc Hk].
        split; [by eapply children_same|]. intros j. rewrite Hg2, Hk. by case_decide.
    + intros H. destruct (IH _ _ H) as (Hb & Hg & He). split_and!; [done| |done].
      intros q j. rewrite Hg. cbn [map]. destruct (decide (q = p ++ [n])%list) as [->|Hne].
      * rewrite (bolt_get_nobucket _ _ _ Eb). by repeat case_decide.
      * clear -Hne. case_decide as H1; case_decide as H2; rewrite ?elem_of_cons in H2; naive_solver.
Qed.

(** Deleting hollow buckets changes no key. *)
Lemma deleteChildren_spec p names db db' :
  closedDB db -> Forall (fun n => hollow db (p ++ [n])%list) names ->
  deleteChildren p names db = Ok db' ->
  closedDB db' /\ forall q j, bolt_get db' q j = bolt_get db q j.
Proof.
  revert db. induction names as [|n names IH]; intros db Hcl Hh; cbn [deleteChildren].
  - by intros [= <-].
  - intros H. inv_bind. pose proof (Forall_inv Hh) as [Hc Hk]. apply Forall_inv_tail in Hh.
    assert (Hg : forall q j, bolt_get a q j = bolt_get db q j).
    { intros q j. rewrite (bolt_deleteBucket_get _ _ _ _ _ Hr). destruct (above _ q) eqn:Ea; [|done].
      destruct (decide (q = p ++ [n])%list) as [->|Hne]; [by rewrite Hk|]. symmetry.
      apply bolt_get_nobucket, (childless_below db (p ++ [n])); [done|by destruct p|done..]. }
    destruct (IH a) as [Hcl' Hg']; [by eapply closed_deleteBucket| |done|].
    + eapply Forall_impl; [|exact Hh]. intros m [Hcm Hkm]. split; [|intros j; by rewrite Hg].
      apply children_none. intros j. rewrite (bolt_deleteBucket_bucket _ _ _ _ Hr).
      assert (bolt_bucket db ((p ++ [m]) ++ [j])%list = false) as ->; [|done].
      apply not_true_is_false. intros E. apply bolt_children_bucket in E. by rewrite Hcm in E.
    + split; [done|]. intros q j. by rewrite Hg', Hg.
Qed.

Definition childOf (p q : Path) : bool := above p q && (length q =? S (length p))%nat.
Lemma childOf_spec p q : reflect (exists n, q = p ++ [n])%list (childOf p q).
Proof.
  unfold childOf. apply iff_reflect. split.
  - intros [n ->]. rewrite above_app, length_app. cbn. apply Nat.eqb_eq. lia.
  - intros [(r & ->)%above_inv Hl%Nat.eqb_eq]%andb_prop. rewrite length_app in Hl.
    destruct r as [|n [|]]; cbn in Hl; try lia. by exists n.
Qed.

Lemma cleanupTx_spec ex c key db db' :
  closedDB db -> cleanupTx ex c key db = Ok (tt, db') ->
  closedDB db' /\ forall q j, bolt_get db' q j =
    if childOf (bucketPath c key) q then survive ex (bolt_get db q j)
    else bolt_get db q j.
Proof.
  intros Hcl. unfold cleanupTx. destruct (cf_bucket c db key) as [b|] eqn:Eb.
  - assert (b = bucketPath c key) as -> by by eapply cf_bucket_path.
    intros H. apply result_bind_Ok in H as ([empties db1] & H1 & H). inv_bind. subst.
    destruct (cleanupTransports_spec _ _ _ _ _ _ H1) as (Hb & Hg & He).
    destruct (deleteChildren_spec _ _ _ _ (closed_same _ _ Hb Hcl) He Hr) as [Hcl' Hg'].
    split; [done|]. intros q j. rewrite Hg', Hg. destruct (childOf_spec (bucketPath c key) q) as [[n ->]|Hne].
    + case_decide as Hin; [done|]. rewrite bolt_get_nobucket; [done|]. apply not_true_is_false. intros E.
      apply Hin, list_elem_of_In, (in_map (fun n => bucketPath c key ++ [n])%list).
      by apply bolt_children_bucket.
    + rewrite decide_False; [done|]. intros Hin. apply list_elem_of_In, in_map_iff in Hin. naive_solver.
  - intros [= <-]. split; [done|]. intros q j. destruct (childOf_spec (bucketPath c key) q) as [[n ->]|Hne]; [|done].
    rewrite bolt_get_nobucket; [done|]. apply not_true_is_false. intros E.
    unfold cf_bucket, bucketPath in *. destruct (cf_cacheID c) as [id|].
    + pose proof (Hcl [id; key] n ltac:(done) E) as E2.
      by rewrite E2, (Hcl [id] key ltac:(done) E2) in Eb.
    + by rewrite (Hcl [key] n ltac:(done) E) in Eb.
Qed.

(** [cleanupDNSCache] removes exactly the expired responses: after it, a key
    loads what it loaded before unless its stored expiry plus the optimistic
    timeout is past (and expiry is not disabled); pending responses stay, and no
    key outside the DNS cache of this cache ID changes. *)
Theorem cleanup_exact (now : Z) (c : CacheFile) (db db' : BoltDB) (k : saveCacheKey)
    (Hdb : cf_db c = Some db) (Hclosed : closedDB db)
    (Htx : cleanupTx (dnsCacheExpired now c) c bucketDNSCache db = Ok (tt, db')) :
  let load c := fst (LoadDNSCache reopen (TransportName k) (QuestionName k) (QType k) c) in
  let c' := cleanupDNSCache reopen now c in
  load c' = match load c with
            | Some (raw, expireAt) =>
                if negb (isSome (cf_saveDNSCache c !! k)) && negb (cf_disableExpire c)
                   && (expireAt + cf_optimisticTimeout c <? now)
                then None else Some (raw, expireAt)
            | None => None
            end
  /\ cf_db c' = Some db'
  /\ forall q j, (forall n, q <> bucketPath c bucketDNSCache ++ [n])%list ->
     bolt_get db' q j = bolt_get db q j.
Proof.
  cbn zeta. destruct (cleanupTx_spec _ _ _ _ _ Hclosed Htx) as [Hcl' Hg].
  assert (Ec : cleanupDNSCache reopen now c = set_db c (Some db')).
  { unfold cleanupDNSCache, batch. by rewrite Hdb, Htx. }
  rewrite Ec. split_and!; [|done|].
  - destruct (cf_saveDNSCache c !! k) as [e|] eqn:Ek; cbn [isSome negb andb].
    + unfold LoadDNSCache. destruct k as [tn qn qt]. cbn [TransportName QuestionName QType] in *.
      cbn [cf_saveDNSCache set_db]. by rewrite Ek.
    + rewrite (load_get reopen c db k), (load_get reopen (set_db c (Some db')) db' k) by done.
      change (dnsPath (set_db c (Some db')) k) with (dnsPath c k).
      rewrite Hg. destruct (childOf_spec (bucketPath c bucketDNSCache) (dnsPath c k)) as [_|Hne];
        [|destruct Hne; by eexists]. destruct (bolt_get db _ _) as [v|]; [|done].
      cbn [survive]. unfold dnsCacheExpired. destruct (length v <? 8)%nat eqn:El; [done|].
      destruct (cf_disableExpire c); cbn [negb andb]; rewrite ?El; [done|].
      destruct (_ <? now); rewrite ?El; done.
  - intros q j Hq. rewrite Hg. destruct (childOf_spec (bucketPath c bucketDNSCache) q) as [[n ->]|_]; [by destruct (Hq n)|done].
Qed.

(** ** Start *)

Section start.
(** A bucket that is there can be deleted. *)
Context (Hdelete : forall p db, bolt_bucket db p = true -> exists db', bolt_deleteBucket p db = Ok db').

Lemma tryDelete_spec p db :
  closedDB db -> p <> [] ->
  closedDB (tryDelete p db)
  /\ forall q j, bolt_get (tryDelete p db) q j = if above p q then None else bolt_get db q j.
Proof.
  intros Hcl Hp. unfold tryDelete. destruct (bolt_deleteBucket p db) as [db'|e] eqn:E.
  - split; [by eapply closed_deleteBucket|]. intros q j. by apply bolt_deleteBucket_get.
  - split; [done|]. intros q j. destruct (above p q) eqn:Ea; [|done].
    apply bolt_get_nobucket, (closed_below db p); [done|done| |done].
    apply not_true_is_false. intros Hb. destruct (Hdelete p db Hb). congruence.
Qed.

(** The paths that go when [start] comes across the bucket [name]. *)
Definition removes (name : list Z) (q : Path) : bool :=
  match name with
  | 0 :: _ => above [name; name] q
  | _ => negb (bool_decide (name ∈ bucketNameList)
               || strings.HasPrefix (bytes_string name) fakeipBucketPrefix) && above [name] q
  end.

Lemma cleanChildren_spec name ks db :
  closedDB db ->
  let unknown := existsb (fun k => negb (bool_decide (k ∈ bucketNameList))) ks in
  let db' := foldl (fun db k => cleanChild name k db) db ks in
  closedDB db' /\ forall q j, bolt_get db' q j = if unknown && above [name; name] q then None else bolt_get db q j.
Proof.
  revert db. induction ks as [|k ks IH]; intros db Hcl; cbn [foldl existsb]; [done|].
  change (cleanChild name k db) with
    (if negb (bool_decide (k ∈ bucketNameList)) then tryDelete [name; name] db else db).
  destruct (negb (bool_decide (k ∈ bucketNameList))); cbn [orb]; [|by apply IH].
  destruct (tryDelete_spec [name; name] db Hcl) as [Hcl1 Hg1]; [done|].
  destruct (IH _ Hcl1) as [Hcl2 Hg2]. split; [done|]. intros q j. rewrite Hg2, Hg1. cbn [andb].
  destruct (above [name; name] q); by rewrite ?andb_true_r, ?andb_false_r; try destruct (existsb _ _).
Qed.

(** No name of the list starts with 0, as the buckets of cache IDs do. *)
Lemma id_unknown l : (0 :: l) ∉ bucketNameList.
Proof. intros H. by apply (bool_decide_eq_true_2 _) in H; vm_compute in H. Qed.

Lemma cleanID_spec l db :
  closedDB db ->
  let name := 0 :: l in
  let db' := foldl (fun db k => cleanChild name k db) db (bolt_children db [name]) in
  closedDB db' /\ forall q j, bolt_get db' q j = if above [name; name] q then None else bolt_get db q j.
Proof.
  intros Hcl name. destruct (cleanChildren_spec name (bolt_children db [name]) db Hcl) as [Hcl' Hg].
  split; [done|]. intros q j. rewrite Hg. destruct (above [name; name] q) eqn:Ea; [|by rewrite andb_false_r].
  rewrite andb_true_r. destruct (existsb _ _) eqn:Ex; [done|].
  apply bolt_get_nobucket, (closed_below db [name; name]); [done|done| |done].
  apply not_true_is_false. intros Hb. apply (bolt_children_bucket db [name] name) in Hb.
  apply not_true_iff_false in Ex. apply Ex, existsb_exists. exists name. split; [done|].
  by rewrite bool_decide_eq_false_2 by apply id_unknown.
Qed.

Lemma cleanBucket_spec name db :
  closedDB db ->
  closedDB (cleanBucket name db)
  /\ forall q j, bolt_get (cleanBucket name db) q j = if removes name q then None else bolt_get db q j.
Proof.
  intros Hcl. destruct name as [|x l]; [|destruct (decide (x = 0)) as [->|Hx]].
  - exact (tryDelete_spec [[]] db Hcl ltac:(done)).
  - exact (cleanID_spec l db Hcl).
  - assert (E : cleanBucket (x :: l) db =
        if negb (bool_decide ((x :: l) ∈ bucketNameList)
                 || strings.HasPrefix (bytes_string (x :: l)) fakeipBucketPrefix)
        then tryDelete [x :: l] db else db) by by destruct x.
    assert (Er : forall q, removes (x :: l) q =
        negb (bool_decide ((x :: l) ∈ bucketNameList)
              || strings.HasPrefix (bytes_string (x :: l)) fakeipBucketPrefix)
        && above [x :: l] q) by by destruct x.
    rewrite E. setoid_rewrite Er. destruct (negb _); [|done]. by apply tryDelete_spec.
Qed.

Lemma cleanBuckets_fold names db :
  closedDB db ->
  let db' := foldl (fun db name => cleanBucket name db) db names in
  closedDB db' /\ forall q j, bolt_get db' q j =
    if existsb (fun name => removes name q) names then None else bolt_get db q j.
Proof.
  revert db. induction names as [|n names IH]; intros db Hcl; cbn [foldl existsb]; [done|].
  destruct (cleanBucket_spec n db Hcl) as [Hcl1 Hg1]. destruct (IH _ Hcl1) as [Hcl2 Hg2].
  split; [done|]. intros q j. rewrite Hg2, Hg1. destruct (removes n q), (existsb _ _); done.
Qed.

Lemma above_head n p m q : above (n :: p) (m :: q) = true -> n = m.
Proof. intros (r & E)%above_inv. cbn in E. congruence. Qed.

Lemma above_self n r : above [n] (n :: r) = true.
Proof. exact (above_app [n] r). Qed.

Lemma removes_head n m q : removes n (m :: q) = true -> n = m.
Proof.
  unfold removes. destruct n as [|x l]; [|destruct x];
    repeat (intros [_ H]%andb_prop || intros H); by apply above_head in H.
Qed.

Lemma cleanBuckets_get db name r j :
  closedDB db ->
  bolt_get (cleanBuckets db) (name :: r) j =
  if removes name (name :: r) then None else bolt_get db (name :: r) j.
Proof.
  intros Hcl. unfold cleanBuckets. destruct (cleanBuckets_fold (bolt_children db []) db Hcl) as [_ ->].
  destruct (existsb _ _) eqn:Ex.
  - apply existsb_exists in Ex as (n & _ & Hn). pose proof (removes_head _ _ _ Hn) as ->. by rewrite Hn.
  - destruct (removes name (name :: r)) eqn:Er; [|done].
    apply bolt_get_nobucket, (closed_below db [name]); [done|done| |apply above_self].
    apply not_true_is_false. intros Hb. apply (bolt_children_bucket db [] name) in Hb.
    apply not_true_iff_false in Ex. apply Ex, existsb_exists. by exists name.
Qed.

Definition knownBucket (name : list Z) : bool :=
  bool_decide (name ∈ bucketNameList) || strings.HasPrefix (bytes_string name) fakeipBucketPrefix.

(** Opening the cache file removes exactly the unknown top-level buckets:
    known ones keep every key, unknown ones lose theirs.  Below the bucket of a
    cache ID (a name that starts with 0) every bucket stays, also one of unknown
    name: the code deletes the name of the outer bucket instead. *)
Theorem start_cleanup (db : BoltDB) (c : CacheFile) (Hclosed : closedDB db) :
  exists db', cf_db (CacheFile_start db c) = Some db'
  /\ (forall name r j, hd 1 name <> 0 ->
       bolt_get db' (name :: r) j = if knownBucket name then bolt_get db (name :: r) j else None)
  /\ (forall l k r j, k <> 0 :: l ->
       bolt_get db' ((0 :: l) :: k :: r) j = bolt_get db ((0 :: l) :: k :: r) j).
Proof.
  exists (cleanBuckets db). split_and!; [done| |].
  - intros name r j Hn. rewrite cleanBuckets_get by done. unfold removes, knownBucket.
    destruct name as [|x l]; [|destruct x; [done|..]];
      rewrite above_self, andb_true_r; by destruct (_ || _).
  - intros l k r j Hk. rewrite cleanBuckets_get by done. cbn [removes].
    destruct (above _ _) eqn:Ea; [|done]. apply above_inv in Ea as (r' & E). cbn in E. congruence.
Qed.
End start.
End cleanup.
