(* ===== verification/CacheFileExamples.v ===== *)
(** * Concrete runs of the cache file

    The theorems of the cache file at concrete inputs, and two runs in which
    [ClearDNSCache] races with a goroutine that is writing. *)

From S2P Require Import Prelude.
From S2P Require Import GoText.
From S2P Require Import Bytes.
From S2P Require Import NetIP.
From S2P Require Import Libs.
From S2P Require Import FakeIP.
From S2P Require Import Bolt.
From S2P Require Import CacheFile.
From S2P Require Import CacheFileTheorems.
From S2P Require Import CacheFileDNS.
From S2P Require Import CacheFileCleanup.
Local Open Scope string_scope.
Local Open Scope Z_scope.

Module CacheFileRuns.
#[local] Existing Instance ref_libs.
#[local] Existing Instance ref_bolt.

Definition file0 : CacheFile := set_db (CacheFile_New "laptop" false 0) (Some bolt_empty).

Lemma closed_empty : closedDB bolt_empty.
Proof. intros p n _. by rewrite bolt_empty_bucket. Qed.

Lemma selected_roundtrip_witness :
  fst (LoadSelected true "proxy" (snd (StoreSelected true "proxy" "tokyo" file0))) = "tokyo".
Proof.
  refine (proj1 (selected_roundtrip true file0 _ bolt_empty "proxy" "tokyo"
            eq_refl closed_empty _ _)); [by exists (string_bytes "laptop")|].
  rewrite (surjective_pairing (StoreSelected _ _ _ _)). by f_equal.
Defined.

Definition saved0 : SavedBinary := mkSavedBinary [1; 2; 3] (1700000000 * nanoseconds + 5) "etag" [7].

Lemma ruleset_roundtrip_witness :
  fst (LoadRuleSet true "geo" (snd (SaveRuleSet true "geo" saved0 file0))) = Some (savedSeconds saved0).
Proof.
  refine (ruleset_roundtrip true file0 _ bolt_empty "geo" saved0 eq_refl closed_empty _ _ _).
  - by exists (string_bytes "laptop").
  - split; by vm_compute.
  - rewrite (surjective_pairing (SaveRuleSet _ _ _ _)). by f_equal.
Defined.

(** ** Runs of the DNS cache *)

Inductive event :=
  | Queue (k : saveCacheKey) (raw : list Z) (expireAt : Z)
  | Flush (i : nat)           (* the goroutine at this position *)
  | Clear.

Definition flushAt (i : nat) (s : system) : system :=
  match drop i (sys_flushers s) with
  | f :: after => flushStep true (take i (sys_flushers s)) f after s
  | [] => s
  end.
Definition happen (s : system) (e : event) : system :=
  match e with
  | Queue k raw t => queueStep k raw t s
  | Flush i => flushAt i s
  | Clear => mkSystem (snd (ClearDNSCache true (sys_file s))) (sys_flushers s) ∅ (sys_queued s)
  end.
Definition play (es : list event) : system := foldl happen (idle file0) es.

Definition key0 : saveCacheKey := mkCacheKey "dns-remote" "example.org." 1.
Definition time0 : Z := 1700000000 * nanoseconds + 5.
Definition old : list Z := [10; 11].
Definition new : list Z := [20; 21; 22].

Lemma flushAt_step i f s :
  sys_flushers s !! i = Some f -> saveWorks true (sys_file s) f ->
  flushAt i s = flushStep true (take i (sys_flushers s)) f (drop (S i) (sys_flushers s)) s
  /\ flushOnly true s (flushAt i s) /\ sysStep true s (flushAt i s).
Proof.
  intros E Hw. assert (Ef : flushAt i s = flushStep true (take i (sys_flushers s)) f (drop (S i) (sys_flushers s)) s).
  { unfold flushAt. by rewrite (drop_S _ _ _ E). }
  assert (El : sys_flushers s = (take i (sys_flushers s) ++ f :: drop (S i) (sys_flushers s))%list).
  { by rewrite take_drop_middle. }
  rewrite Ef. split_and!; [done| |by constructor]. by eexists _, _, _.
Qed.

(** The second response is queued while the first is being written. *)
Definition busy : system := play [Queue key0 old time0; Flush 0; Queue key0 new time0].

Lemma busy_run : rtc (sysStep true) (idle file0) busy.
Proof.
  apply (rtc_l _ _ (play [Queue key0 old time0])); [by constructor|].
  apply (rtc_l _ _ (play [Queue key0 old time0; Flush 0])).
  - by apply (flushAt_step 0 (FlushRead key0)).
  - apply rtc_once. by constructor.
Qed.

Lemma dns_cache_latest_witness :
  exists t', fst (LoadDNSCache true "dns-remote" "example.org." 1 (sys_file busy)) = Some (new, t')
             /\ (t' = time0 \/ t' = time_Unix (Unix time0)).
Proof.
  apply (dns_cache_latest true file0 bolt_empty busy key0 new time0); [done|apply closed_empty|
    apply busy_run|by vm_compute|by vm_compute|by vm_compute].
Defined.

(** The goroutine writes the first, notices, and writes the second. *)
Definition rest : list event := replicate 5 (Flush 0).

Lemma flushAt_only i f s :
  sys_flushers s !! i = Some f -> saveWorks true (sys_file s) f -> flushOnly true s (happen s (Flush i)).
Proof. intros E Hw. by destruct (flushAt_step i f s E Hw) as (_ & ? & _). Qed.

Lemma busy_flush : nsteps (flushOnly true) 5 busy (foldl happen busy rest).
Proof.
  pose (e1 := mkDNSCacheEntry old time0 1 true). pose (e2 := mkDNSCacheEntry new time0 2 true).
  unfold rest. cbn [replicate foldl].
  eapply nsteps_l; [apply (flushAt_only 0 (FlushSave key0 e1)); by vm_compute|].
  eapply nsteps_l; [apply (flushAt_only 0 (FlushCheck key0 e1)); by vm_compute|].
  eapply nsteps_l; [apply (flushAt_only 0 (FlushRead key0)); by vm_compute|].
  eapply nsteps_l; [apply (flushAt_only 0 (FlushSave key0 e2)); by vm_compute|].
  eapply nsteps_l; [apply (flushAt_only 0 (FlushCheck key0 e2)); by vm_compute|].
  apply nsteps_O.
Qed.

Lemma dns_cache_quiesces_witness :
  let s' := foldl happen busy rest in
  sys_flushers s' = [] /\ onDisk (sys_file s') key0 = Some (record new time0).
Proof.
  destruct (dns_cache_quiesces true file0 bolt_empty busy (foldl happen busy rest) 5
              eq_refl closed_empty busy_run ltac:(by vm_compute) busy_flush) as [_ H].
  destruct H as [Hf Hd]; [by vm_compute|]. split; [done|]. apply Hd. by vm_compute.
Defined.

(** [ClearDNSCache] does not wait for a goroutine that holds an entry.  Such
    a goroutine puts the cleared response back; and since sequence numbers start
    again after a clear, it can take a response queued after the clear for its
    own: the goroutines end with the cleared response on disk and the new one
    lost. *)
Theorem clear_race :
  (let s := play [Queue key0 old time0; Flush 0; Clear; Flush 0; Flush 0] in
   sys_flushers s = []
   /\ fst (LoadDNSCache true "dns-remote" "example.org." 1 (sys_file s)) = Some (old, time_Unix (Unix time0)))
  /\ (let s := play [Queue key0 old time0; Flush 0; Clear; Queue key0 new time0;
                     Flush 0; Flush 0; Flush 1; Flush 1; Flush 0] in
      sys_flushers s = [] /\ sys_latest s !! key0 = Some (new, time0)
      /\ fst (LoadDNSCache true "dns-remote" "example.org." 1 (sys_file s)) = Some (old, time_Unix (Unix time0))).
Proof. split; cbn zeta; [split|split; [|split]]; vm_compute; reflexivity. Qed.

(** ** Cleaning *)

Definition filled : CacheFile := snd (SaveDNSCache true "dns-remote" "example.org." 1 old time0 file0).
Definition filledDB : BoltDB := default bolt_empty (cf_db filled).

Lemma filled_done :
  SaveDNSCache true "dns-remote" "example.org." 1 old time0 file0 = (None, filled).
Proof. unfold filled. rewrite (surjective_pairing (SaveDNSCache _ _ _ _ _ _ _)). by f_equal. Qed.

Lemma filled_closed : cf_db filled = Some filledDB /\ closedDB filledDB.
Proof.
  destruct (save_spec true key0 old time0 file0 bolt_empty filled eq_refl closed_empty)
    as ((db & E & Hcl) & _); [done|exact filled_done|].
  unfold filledDB. by rewrite E.
Qed.

Definition later : Z := time0 + 3600 * nanoseconds.
Definition cleanedDB : BoltDB :=
  match cleanupTx (dnsCacheExpired later filled) filled bucketDNSCache filledDB with
  | Ok (_, db) => db | Err _ => bolt_empty end.

Lemma cleanup_done :
  cleanupTx (dnsCacheExpired later filled) filled bucketDNSCache filledDB = Ok (tt, cleanedDB).
Proof.
  unfold cleanedDB.
  assert (E : match cleanupTx (dnsCacheExpired later filled) filled bucketDNSCache filledDB with
              | Ok _ => true | Err _ => false end = true) by by vm_compute.
  by destruct (cleanupTx _ _ _ _) as [[[] db]|].
Qed.

Lemma cleanup_exact_witness :
  fst (LoadDNSCache true "dns-remote" "example.org." 1 filled) = Some (old, time_Unix (Unix time0))
  /\ fst (LoadDNSCache true "dns-remote" "example.org." 1 (cleanupDNSCache true later filled)) = None.
Proof.
  assert (E : fst (LoadDNSCache true "dns-remote" "example.org." 1 filled) = Some (old, time_Unix (Unix time0)))
    by by vm_compute.
  split; [exact E|]. destruct filled_closed as [Edb Hcl].
  pose proof (proj1 (cleanup_exact true later filled filledDB cleanedDB key0 Edb Hcl cleanup_done)) as H.
  cbn [key0 TransportName QuestionName QType] in H. rewrite H, E. by vm_compute.
Defined.

Lemma delete_works p db : bolt_bucket db p = true -> exists db', bolt_deleteBucket p db = Ok db'.
Proof. intros _. cbn. unfold ref_deleteBucket. by eexists. Qed.

Lemma start_cleanup_witness :
  exists db', cf_db (CacheFile_start filledDB file0) = Some db'
  /\ forall k r j, k <> 0 :: string_bytes "laptop" ->
     bolt_get db' ((0 :: string_bytes "laptop") :: k :: r) j
     = bolt_get filledDB ((0 :: string_bytes "laptop") :: k :: r) j.
Proof.
  destruct (start_cleanup delete_works filledDB file0 (proj2 filled_closed))
    as (db' & E & _ & H). exists db'. split; [exact E|]. intros k r j. apply H.
Defined.
End CacheFileRuns.
