(* ===== verification/Sniff.v ===== *)
(** * Peeking at traffic: [common/sniff/sniff.go]

    [PeekStream] and [PeekPacket] run a list of protocol sniffers over what was
    read so far.  A sniffer reads and writes the protocol, the domain, the client
    and the sniffer state of the metadata; the sniffers are the interface
    [Sniffing], which the files Quic and Sniffers implement.  A connection is the sequence of results its reads will
    give; once it is exhausted a read runs into the deadline.  A read fills the
    free space of the buffer, and what it does not take stays for the next. *)

From S2P Require Import Prelude.
From S2P Require Import GoText.
From S2P Require Import NetIP.
From S2P Require Import Libs.
From S2P Require Import Metadata.
From S2P Require Import RuleItems.
From S2P Require Import RuleAction.
Local Open Scope string_scope.
Local Open Scope Z_scope.

(** What a sniffer reads and writes. *)
Record Sniffed := mkSniffed {
  sf_Protocol : string; sf_Domain : string; sf_Client : string;
  sf_SniffContext : option (list qCryptoFragment) }.

Definition sniffedOf (m : InboundContext) : Sniffed :=
  mkSniffed (m_Protocol m) (m_Domain m) (m_Client m) (m_SniffContext m).
Definition setSniffed (m : InboundContext) (s : Sniffed) : InboundContext :=
  {| m with m_Protocol := sf_Protocol s; m_Domain := sf_Domain s; m_Client := sf_Client s;
            m_SniffContext := sf_SniffContext s |}.

Definition ErrNeedMoreData : GoError := E_New "need more data".
(** [E.Cause1(ErrNeedMoreData, err)]: the message of [err] is kept. *)
Definition needMore (err : GoError) : GoError :=
  E_Cause ErrNeedMoreData match err with E_New m | E_Cause _ m => m | ErrEOF => "EOF" | _ => "" end.

(** A stream sniffer reads from the buffers one after the other. *)
Class Sniffing := {
  stream_sniff : StreamSniffer -> list (list Z) -> Sniffed -> option GoError * Sniffed;
  packet_sniff : PacketSniffer -> list Z -> Sniffed -> option GoError * Sniffed;
  (* the capacity of [buf.NewPacket()] of sing/common/buf *)
  packetCapacity : nat;
  (* [E.Errors] of sing/common/exceptions on non-nil errors, and
     [errors.Is(err, sniff.ErrNeedMoreData)] *)
  E_Errors : list GoError -> option GoError;
  needMoreData : GoError -> bool;
  E_Errors_nil : E_Errors [] = None;
  E_Errors_some e l : E_Errors (e :: l) <> None;
  E_Errors_is l e : E_Errors l = Some e -> needMoreData e = existsb needMoreData l;
  needMoreData_self : needMoreData ErrNeedMoreData = true;
  needMoreData_cause message : needMoreData (E_Cause ErrNeedMoreData message) = true;
  needMoreData_invalid : needMoreData ErrInvalid = false }.

(** Server-first protocols: SMTP, IMAP, POP3. *)
Definition sniff_Skip (m : InboundContext) : bool :=
  existsb (Z.eqb (sa_Port (m_Destination m))) [25; 465; 587; 143; 993; 110; 995].

(** What one read of a stream gives. *)
Inductive readResult := ReadData (chunk : list Z) | ReadFails (e : GoError).
Definition timedOut : GoError := E_New "i/o timeout".

Section sniff.
Context `{Sn : Sniffing}.

Fixpoint runStreamSniffers (sniffers : list StreamSniffer) (data : list (list Z)) (sniffError : option GoError)
    (m : InboundContext) : option GoError * InboundContext :=
  match sniffers with
  | [] => (sniffError, m)
  | sniffer :: sniffers =>
      let '(err, s) := stream_sniff sniffer data (sniffedOf m) in
      let m := setSniffed m s in
      match err with
      | None => (None, m)
      | Some err => runStreamSniffers sniffers data (E_Errors (optList sniffError ++ [err])) m
      end
  end.

(** [buffer.ReadOnceFrom(conn)] of sing/common/buf: one read into the free space,
    an error if there is none. *)
Definition readOnce (capacity : nat) (buffer : list Z) (input : list readResult) : result (list Z) * list readResult :=
  let free := (capacity - length buffer)%nat in
  if (free =? 0)%nat then (Err (E_New "short buffer"), input)
  else
    match input with
    | [] => (Err timedOut, [])
    | ReadFails err :: input => (Err err, input)
    | ReadData chunk :: input =>
        (Ok (buffer ++ take free chunk)%list,
         match drop free chunk with [] => input | more => ReadData more :: input end)
    end.

(** The loop of [PeekStream]: one read, then the sniffers on everything that
    was read; again while they ask for more.  A turn either takes up a result of
    the connection or fills the buffer, after which the next read fails: there
    are at most as many turns as results, and one more. *)
Fixpoint peekStreamLoop (fuel capacity : nat) (sniffers : list StreamSniffer) (buffers : list (list Z)) (buffer : list Z)
    (first : bool) (sniffError : option GoError) (input : list readResult) (m : InboundContext) :
    option GoError * list Z * list readResult * InboundContext :=
  match fuel with
  | O => (sniffError, buffer, input, m)
  | S fuel =>
      match readOnce capacity buffer input with
      | (Err err, input) => (if first then Some (E_Cause err "read payload") else sniffError, buffer, input, m)
      | (Ok buffer, input) =>
          let '(err, m) := runStreamSniffers sniffers (buffers ++ [buffer])%list None m in
          match err with
          | Some e =>
              if needMoreData e then peekStreamLoop fuel capacity sniffers buffers buffer false err input m
              else (err, buffer, input, m)
          | None => (None, buffer, input, m)
          end
      end
  end.

(** [deadline] is the error of [SetReadDeadline], which stays the same; the
    buffer is empty. *)
Definition PeekStream (deadline : option GoError) (capacity : nat) (sniffers : list StreamSniffer)
    (buffers : list (list Z)) (input : list readResult) (m : InboundContext) :
    option GoError * list Z * list readResult * InboundContext :=
  match deadline with
  | Some err => (Some (E_Cause err "set read deadline"), [], input, m)
  | None => peekStreamLoop (S (S (length input))) capacity sniffers buffers [] true None input m
  end.

Fixpoint runPacketSniffers (sniffers : list PacketSniffer) (packet : list Z) (sniffError : list GoError)
    (m : InboundContext) : option GoError * InboundContext :=
  match sniffers with
  | [] => (E_Errors sniffError, m)
  | sniffer :: sniffers =>
      let '(err, s) := packet_sniff sniffer packet (sniffedOf m) in
      let m := setSniffed m s in
      match err with
      | None => (None, m)
      | Some err => runPacketSniffers sniffers packet (sniffError ++ [err])%list m
      end
  end.
Definition PeekPacket (m : InboundContext) (packet : list Z) (sniffers : list PacketSniffer) :
    option GoError * InboundContext := runPacketSniffers sniffers packet [] m.

(** ** The stream is read, not lost *)

(** The bytes a connection still gives. *)
Definition inputBytes (input : list readResult) : list Z :=
  concat (map (fun r => match r with ReadData chunk => chunk | ReadFails _ => [] end) input).

Lemma readOnce_bytes capacity buffer input r input' : readOnce capacity buffer input = (r, input') ->
  (match r with Ok b => b | Err _ => buffer end ++ inputBytes input' = buffer ++ inputBytes input)%list.
Proof.
  unfold readOnce. case_match; [by intros [= <- <-]|].
  destruct input as [|[chunk|err] input]; [by intros [= <- <-]|intros [= <- <-]|by intros [= <- <-]].
  rewrite <- app_assoc. f_equal. unfold inputBytes. cbn [map concat].
  rewrite <- (take_drop (capacity - length buffer) chunk) at 3. rewrite <- app_assoc. f_equal. by case_match.
Qed.

(** Enough turns: the loop is not cut short. *)
Definition readsLeft (capacity : nat) (buffer : list Z) (input : list readResult) : nat :=
  if (capacity <=? length buffer)%nat then 0 else S (length input).
Lemma readOnce_left capacity buffer input b input' : readOnce capacity buffer input = (Ok b, input') ->
  (readsLeft capacity b input' < readsLeft capacity buffer input)%nat.
Proof.
  unfold readOnce, readsLeft. destruct (Nat.eqb_spec (capacity - length buffer) 0) as [|H]; [done|].
  destruct input as [|[chunk|err] input]; [done| |done]. intros [= <- <-].
  rewrite (proj2 (Nat.leb_gt capacity (length buffer))) by lia. destruct (Nat.leb_spec capacity (length (buffer ++ take (capacity - length buffer) chunk))) as [|Hl]; [cbn; lia|].
  rewrite length_app, length_take in Hl. rewrite drop_ge by lia. cbn. lia.
Qed.
Lemma peekStreamLoop_more capacity sniffers buffers : forall fuel fuel' buffer first sniffError input m,
  (readsLeft capacity buffer input < fuel)%nat -> (readsLeft capacity buffer input < fuel')%nat ->
  peekStreamLoop fuel capacity sniffers buffers buffer first sniffError input m
  = peekStreamLoop fuel' capacity sniffers buffers buffer first sniffError input m.
Proof.
  induction fuel as [|fuel IH]; intros [|fuel'] buffer first sniffError input m H1 H2; try lia. cbn [peekStreamLoop].
  destruct (readOnce capacity buffer input) as [[b|e] input'] eqn:E; [|done]. apply readOnce_left in E.
  destruct (runStreamSniffers _ _ _ _) as [[err|] m1]; [|done]. destruct (needMoreData err); [|done]. apply IH; lia.
Qed.

Lemma peekStreamLoop_bytes capacity sniffers buffers : forall fuel buffer first sniffError input m e buffer' input' m',
  peekStreamLoop fuel capacity sniffers buffers buffer first sniffError input m = (e, buffer', input', m') ->
  (buffer' ++ inputBytes input' = buffer ++ inputBytes input)%list.
Proof.
  induction fuel as [|fuel IH]; intros buffer first sniffError input m e buffer' input' m'; cbn [peekStreamLoop];
    [by intros [= _ <- <- _]|].
  destruct (readOnce capacity buffer input) as [r input1] eqn:E. apply readOnce_bytes in E.
  destruct r as [b|err]; [|by intros [= _ <- <- _]]. rewrite <- E.
  destruct (runStreamSniffers _ _ _ _) as [[err|] m1]; [|by intros [= _ <- <- _]].
  destruct (needMoreData err); [apply IH|by intros [= _ <- <- _]].
Qed.

Lemma PeekStream_bytes deadline capacity sniffers buffers input m e buffer' input' m' :
  PeekStream deadline capacity sniffers buffers input m = (e, buffer', input', m') ->
  (buffer' ++ inputBytes input' = inputBytes input)%list.
Proof.
  unfold PeekStream. destruct deadline; [by intros [= _ <- <- _]|]. intros H%peekStreamLoop_bytes. exact H.
Qed.

(** ** Frames *)

Lemma setSniffed_id m : setSniffed m (sniffedOf m) = m.
Proof. done. Qed.

(** The sniffers write the sniffed fields only. *)
Lemma runStreamSniffers_frame sniffers data sniffError m :
  exists s, snd (runStreamSniffers sniffers data sniffError m) = setSniffed m s.
Proof.
  revert sniffError m. induction sniffers as [|sn sniffers IH]; intros sniffError m; cbn; [by exists (sniffedOf m)|].
  destruct (stream_sniff _ _ _) as [[err|] s]; [|by exists s].
  destruct (IH (E_Errors (optList sniffError ++ [err])) (setSniffed m s)) as [s' ->]. by exists s'.
Qed.

Lemma peekStreamLoop_frame capacity sniffers buffers : forall fuel buffer first sniffError input m,
  exists s, snd (peekStreamLoop fuel capacity sniffers buffers buffer first sniffError input m) = setSniffed m s.
Proof.
  induction fuel as [|fuel IH]; intros buffer first sniffError input m; cbn [peekStreamLoop]; [by exists (sniffedOf m)|].
  destruct (readOnce capacity buffer input) as [[b|err] input1]; [|by exists (sniffedOf m)].
  pose proof (runStreamSniffers_frame sniffers (buffers ++ [b])%list None m) as [s Hs].
  destruct (runStreamSniffers _ _ _ _) as [[err|] m1]; cbn in Hs; subst m1; [|by exists s].
  destruct (needMoreData err); [|by exists s].
  destruct (IH b false (Some err) input1 (setSniffed m s)) as [s' ->]. by exists s'.
Qed.

Lemma PeekStream_frame deadline capacity sniffers buffers input m :
  exists s, snd (PeekStream deadline capacity sniffers buffers input m) = setSniffed m s.
Proof. unfold PeekStream. destruct deadline; [by exists (sniffedOf m)|apply peekStreamLoop_frame]. Qed.

Lemma runPacketSniffers_frame sniffers packet sniffError m :
  exists s, snd (runPacketSniffers sniffers packet sniffError m) = setSniffed m s.
Proof.
  revert sniffError m. induction sniffers as [|sn sniffers IH]; intros sniffError m; cbn; [by exists (sniffedOf m)|].
  destruct (packet_sniff _ _ _) as [[err|] s]; [|by exists s].
  destruct (IH (sniffError ++ [err])%list (setSniffed m s)) as [s' ->]. by exists s'.
Qed.
End sniff.
