(* ===== verification/DNSQuery.v ===== *)
(** * DNS queries: the types of [adapter/dns.go]

    Transports and query options as the router and the DNS router hand them
    around. *)

From S2P Require Import Prelude.
From S2P Require Import NetIP.
Local Open Scope string_scope.
Local Open Scope Z_scope.

Definition DNSTypeFakeIP : string := "fakeip".

(** [adapter.DNSTransport]: its tag and type; what it answers is a matter of the
    client. *)
Record DNSTransport := mkTransport { tr_Tag : string; tr_Type : string }.
#[export] Instance DNSTransport_eq_dec : EqDecision DNSTransport.
Proof. solve_decision. Defined.

Record DNSQueryOptions := mkQueryOptions {
  qo_Transport : option DNSTransport;
  qo_Strategy : Z;
  qo_LookupStrategy : Z;
  qo_DisableCache : bool;
  qo_DisableOptimisticCache : bool;
  qo_RewriteTTL : option Z;
  qo_Timeout : Z;
  qo_ClientSubnet : Prefix;
  qo_RemoveClientSubnet : bool }.
