(* ===== verification/Router.v ===== *)
(** * The router: [route/route.go], [route/process_cache.go]

    [matchRule] runs the rules over the metadata of a connection: a rule that
    holds rewrites the metadata (route options), peeks at the traffic (sniff),
    resolves the destination, or decides.  [routeConnection] and
    [routePacketConnection] carry the decision out; [PreMatch] is the shortcut
    that judges a flow from its first packet.

    The other parts of the program the router asks are fields of [Router]:
    managers, resolvers, the FakeIP store and the process searcher as
    functions.  Logging, trackers and the wrapping of connections other than
    the replay of sniffed data are left out. *)

From S2P Require Import Prelude.
From S2P Require Import GoText.
From S2P Require Import NetIP.
From S2P Require Import Libs.
From S2P Require Import Metadata.
From S2P Require Import RuleItems.
From S2P Require Import RuleAction.
From S2P Require Import RuleEngine.
From S2P Require Import Sniff.
From S2P Require Import DNSQuery.
Local Open Scope string_scope.
Local Open Scope Z_scope.

Definition NetworkTCP : string := "tcp".
Definition NetworkUDP : string := "udp".
Definition NetworkICMP : string := "icmp".
Definition TypeTun : string := "tun".

Definition PortProtocols (port : Z) : string :=
  if port =? 53 then ProtocolDNS
  else if port =? 123 then ProtocolNTP
  else if port =? 3478 then ProtocolSTUN
  else if port =? 443 then ProtocolQUIC
  else "".
Definition ProtocolTimeouts (protocol : string) : Z :=
  if String.eqb protocol ProtocolDNS || String.eqb protocol ProtocolNTP
     || String.eqb protocol ProtocolSTUN then 10 * Second
  else if String.eqb protocol ProtocolQUIC || String.eqb protocol ProtocolDTLS then 30 * Second
  else 0.

(** [adapter.PreMatchAction]. *)
Inductive PreMatchAction :=
  | PreMatchContinue | PreMatchFlow | PreMatchReject | PreMatchDrop | PreMatchBypass | PreMatchHijackDNS.
#[export] Instance PreMatchAction_eq_dec : EqDecision PreMatchAction.
Proof. solve_decision. Defined.

(** [adapter.Outbound]: for a group what [Now] gives, for a flow outbound its
    [PreMatchFlow]. *)
Record Outbound := mkOutbound {
  ob_Tag : string;
  ob_Network : list string;
  ob_Now : option string;
  ob_PreMatchFlow : option (string -> Addr -> PreMatchAction) }.

(** [adapter.FakeIPStore] as the router uses it. *)
Record FakeIPLookup := mkFakeIPLookup {
  fl_Contains : Addr -> bool; fl_Lookup : Addr -> option string }.

(** Reserved destination names of sing-mux, sing-vmess and sing/common/uot. *)
Record MagicNames := mkMagicNames {
  mux_Destination : string; vmess_MuxDestination : string;
  uot_MagicAddress : string; uot_LegacyMagicAddress : string }.

Definition defaultPacketSniffers : list PacketSniffer :=
  [DomainNameQuery; QUICClientHello; STUNMessage; UTP; UDPTracker; DTLSRecord; NTP].
Definition defaultStreamSniffers : list StreamSniffer :=
  [TLSClientHello; HTTPHost; StreamDomainNameQuery; BitTorrent; SSH; RDP].

(** A packet read from the connection, a failed read ([E.IsTimeout] or not), or
    the context ending first. *)
Inductive packetRead :=
  | PacketRead (packet : list Z) (destination : Socksaddr)
  | PacketFails (e : GoError) (timeout : bool)
  | ContextDone (e : GoError).

(** What a rule is matched against: a stream with the buffers peeked so far or
    a packet connection with the packets peeked so far. *)
Inductive Input :=
  | InputConn (deadline : option GoError) (buffers : list (list Z)) (input : list readResult)
  | InputPacketConn (packetBuffers : list (list Z * Socksaddr)) (input : list packetRead).

Section router.
Context `{L : Libs} `{Sn : Sniffing} (env : RuleEnv).

Record Router := mkRouter {
  rt_rules : list HeadlessRule;
  rt_inbound : string -> option (bool * bool);  (* TCP, UDP injectable *)
  rt_outbound : string -> option Outbound;
  rt_Default : option Outbound;   (* nil when the manager has no outbound left *)
  rt_magic : MagicNames;
  rt_processSearcher : option (string -> Socksaddr -> option Socksaddr -> result ConnectionOwner);
  rt_MyInterfaceAddress : option (list Addr);
  rt_Interfaces : list (list Prefix);
  rt_neighborResolver : option ((Addr -> option (list Z)) * (Addr -> option string));
  rt_FakeIP : option FakeIPLookup;
  rt_LookupReverseMapping : Addr -> option string;
  rt_Transport : string -> option DNSTransport;
  rt_Lookup : InboundContext -> string -> DNSQueryOptions -> result (list Addr) }.

(** ** Process and neighbour *)

Definition isLocalSource (r : Router) (source : Addr) : bool :=
  if Addr.IsLoopback source then true
  else if match rt_MyInterfaceAddress r with
          | Some l => bool_decide (source ∈ l) | None => false end then true
  else existsb (existsb (fun prefix => bool_decide (p_Addr prefix = source))) (rt_Interfaces r).

Definition searchProcessInfo (r : Router) (m : InboundContext) : InboundContext :=
  match rt_processSearcher r with
  | None => m
  | Some findProcessInfo =>
      if isSome (m_ProcessInfo m) || negb (isLocalSource r (sa_Addr (m_Source m))) then m
      else
        let originDestination :=
          if sa_IsValid (m_OriginDestination m) then Some (m_OriginDestination m)
          else if sa_IsIP (m_Destination m) then Some (m_Destination m) else None in
        match findProcessInfo (m_Network m) (m_Source m) originDestination with
        | Err _ => m
        | Ok processInfo => {| m with m_ProcessInfo := Some processInfo |}
        end
  end.

Definition lookupNeighbor (r : Router) (m : InboundContext) : InboundContext :=
  match rt_neighborResolver r with
  | None => m
  | Some (lookupMAC, lookupHostname) =>
      if isSome (m_SourceMACAddress m) || negb (Addr.IsValid (sa_Addr (m_Source m))) then m
      else
        let source := sa_Addr (m_Source m) in
        let m := match lookupMAC source with
                 | Some mac => {| m with m_SourceMACAddress := Some mac |} | None => m end in
        match lookupHostname source with
        | Some hostname => {| m with m_SourceHostname := hostname |} | None => m
        end
  end.

(** The FakeIP store the destination belongs to. *)
Definition fakeIPOf (r : Router) (m : InboundContext) : option FakeIPLookup :=
  if Addr.IsValid (sa_Addr (m_Destination m)) then
    match rt_FakeIP r with
    | Some store => if fl_Contains store (sa_Addr (m_Destination m)) then Some store else None
    | None => None
    end
  else None.

Definition setIPVersion (m : InboundContext) : InboundContext :=
  if sa_IsIPv4 (m_Destination m) then {| m with m_IPVersion := 4 |}
  else if sa_IsIPv6 (m_Destination m) then {| m with m_IPVersion := 6 |}
  else m.

Definition domainDestination (domain : string) (m : InboundContext) : Socksaddr :=
  mkSocksaddr AddrNone (sa_Port (m_Destination m)) domain.

Definition prepareMatchMetadata (r : Router) (m : InboundContext) : result InboundContext :=
  let m := lookupNeighbor r (searchProcessInfo r m) in
  let? m :=
    match fakeIPOf r m with
    | Some store =>
        match fl_Lookup store (sa_Addr (m_Destination m)) with
        | None => Err (E_New "missing fakeip record, try enable `experimental.cache_file`")
        | Some domain =>
            if negb (String.eqb domain "") then
              Ok {| m with m_OriginDestination := m_Destination m;
                           m_Destination := domainDestination domain m; m_FakeIP := true |}
            else Ok m
        end
    | None =>
        if String.eqb (m_Domain m) "" then
          match rt_LookupReverseMapping r (sa_Addr (m_Destination m)) with
          | Some domain => Ok {| m with m_Domain := domain |}
          | None => Ok m
          end
        else Ok m
    end in
  Ok (setIPVersion m).

(** ** Route options *)

Definition applyRouteOptionsOverride (m : InboundContext) (o : RuleActionRouteOptions) : InboundContext :=
  let m := when (sa_IsValid (OverrideAddress o))
    (fun m => set_Destination m (mkSocksaddr (sa_Addr (OverrideAddress o)) (sa_Port (m_Destination m))
                                   (sa_Fqdn (OverrideAddress o)))) m in
  let m := when (0 <? OverridePort o)
    (fun m => set_Destination m (mkSocksaddr (sa_Addr (m_Destination m)) (OverridePort o)
                                   (sa_Fqdn (m_Destination m)))) m in
  when (0 <? ro_UDPTimeout o) (fun m => set_UDPTimeout m (ro_UDPTimeout o)) m.

Definition lenPositive {A} (o : option (list A)) : bool :=
  match o with Some (_ :: _) => true | _ => false end.

(** The block of [matchRule] for [routeOptions != nil], in four parts. *)
Definition noteOriginalDestination (o : RuleActionRouteOptions) (m : InboundContext) : InboundContext :=
  let m := when ((sa_IsValid (OverrideAddress o) || (0 <? OverridePort o))
                 && negb (sa_IsValid (m_RouteOriginalDestination m)))
    (fun m => set_RouteOriginalDestination m (m_Destination m)) m in
  when (sa_IsValid (OverrideAddress o)) (fun m => set_DestinationAddresses m []) m.

Definition applyNetworkOptions (o : RuleActionRouteOptions) (m : InboundContext) : InboundContext :=
  let m := when (isSome (ro_NetworkStrategy o)) (fun m => set_NetworkStrategy m (ro_NetworkStrategy o)) m in
  let m := when (lenPositive (ro_NetworkType o))
    (fun m => set_NetworkType m (default [] (ro_NetworkType o))) m in
  let m := when (lenPositive (ro_FallbackNetworkType o))
    (fun m => set_FallbackNetworkType m (default [] (ro_FallbackNetworkType o))) m in
  when (negb (ro_FallbackDelay o =? 0)) (fun m => set_FallbackDelay m (ro_FallbackDelay o)) m.

Definition applyUDPOptions (o : RuleActionRouteOptions) (m : InboundContext) : InboundContext :=
  let m := when (ro_UDPDisableDomainUnmapping o) (fun m => set_UDPDisableDomainUnmapping m true) m in
  let m := when (ro_UDPConnect o) (fun m => set_UDPConnect m true) m in
  when (0 <? ro_UDPTimeout o) (fun m => set_UDPTimeout m (ro_UDPTimeout o)) m.

Definition applyTLSOptions (o : RuleActionRouteOptions) (m : InboundContext) : InboundContext :=
  let m := when (ro_TLSFragment o)
    (fun m => set_TLSFragment m true (ro_TLSFragmentFallbackDelay o)) m in
  let m := when (ro_TLSRecordFragment o) (fun m => set_TLSRecordFragment m true) m in
  when (negb (String.eqb (ro_TLSSpoof o) ""))
    (fun m => set_TLSSpoof m (ro_TLSSpoof o) (ro_TLSSpoofMethod o)) m.

Definition applyRouteOptions (m : InboundContext) (o : RuleActionRouteOptions) : InboundContext :=
  applyTLSOptions o (applyUDPOptions o (applyNetworkOptions o
    (applyRouteOptionsOverride (noteOriginalDestination o m) o))).

(** The options the action of a rule brings along. *)
Definition routeOptionsOfAction (action : RuleAction) : option RuleActionRouteOptions :=
  match action with
  | RuleActionRoute _ o | ActRouteOptions o => Some o
  | RuleActionBypass outbound o => if negb (String.eqb outbound "") then Some o else None
  | _ => None
  end.

(** ** Sniff *)

Definition isNeedMoreData (err : option GoError) : bool :=
  match err with Some e => needMoreData e | None => false end.

(** [metadata.SnifferNames = action.SnifferNames; metadata.SniffError = err]. *)
Definition noteSniff (action : RuleActionSniff) (err : option GoError) (m : InboundContext) : InboundContext :=
  {| m with m_SnifferNames := sn_SnifferNames action; m_SniffError := err |}.

Definition sameSniffers (action : RuleActionSniff) (m : InboundContext) : bool :=
  bool_decide (m_SnifferNames m = sn_SnifferNames action).

(** Skipped after the same sniffers failed for good. *)
Definition sniffFailedBefore (action : RuleActionSniff) (m : InboundContext) : bool :=
  sameSniffers action m && isSome (m_SniffError m) && negb (isNeedMoreData (m_SniffError m)).

(** What a successful sniff does to the destination. *)
Definition overrideSniffed (action : RuleActionSniff) (err : option GoError) (m : InboundContext) :
    InboundContext :=
  match err with
  | Some _ => m
  | None =>
      if sn_OverrideDestination action && M_IsDomainName (m_Domain m)
      then set_Destination m (domainDestination (m_Domain m) m) else m
  end.

Definition sniffStream (deadline : option GoError) (buffers : list (list Z)) (input : list readResult)
    (action : RuleActionSniff) (m : InboundContext) :
    option (list Z) * list readResult * InboundContext :=
  if (length (sn_StreamSniffers action) =? 0)%nat && (0 <? length (sn_PacketSniffers action))%nat
  then (None, input, m)
  else if sniffFailedBefore action m then (None, input, m)
  else
    let streamSniffers := match sn_StreamSniffers action with
                          | [] => defaultStreamSniffers | l => l end in
    let '(err, sniffBuffer, input, m) := PeekStream deadline packetCapacity streamSniffers buffers input m in
    let m := overrideSniffed action err (noteSniff action err m) in
    (match sniffBuffer with [] => None | _ => Some sniffBuffer end, input, m).

Definition packetSniffersOf (action : RuleActionSniff) : list PacketSniffer :=
  match sn_PacketSniffers action with [] => defaultPacketSniffers | l => l end.

(** One packet: only the QUIC sniffer while it collects a client hello. *)
Definition sniffPacket (action : RuleActionSniff) (packet : list Z) (m : InboundContext) :
    option GoError * InboundContext :=
  let quicMoreData := sameSniffers action m && isNeedMoreData (m_SniffError m) in
  let '(err, m) := PeekPacket m packet (if quicMoreData then [QUICClientHello] else packetSniffersOf action) in
  (err, noteSniff action err m).

(** The packets peeked before: the result says whether the loop was left with
    [goto finally]. *)
Fixpoint sniffBuffered (action : RuleActionSniff) (packets : list (list Z * Socksaddr)) (m : InboundContext) :
    bool * option GoError * InboundContext :=
  match packets with
  | [] => (false, None, m)
  | packet :: packets =>
      let '(err, m) := sniffPacket action (fst packet) m in
      if isNeedMoreData err then sniffBuffered action packets m else (true, err, m)
  end.

(** New packets, until the sniffers are done or the reads fail. *)
Fixpoint sniffNew (action : RuleActionSniff) (packetBuffers : list (list Z * Socksaddr))
    (input : list packetRead) (m : InboundContext) :
    option GoError * list (list Z * Socksaddr) * option GoError * list packetRead * InboundContext :=
  match input with
  | [] => (Some timedOut, packetBuffers, None, [], m)
  | ContextDone e :: input => (None, packetBuffers, Some e, input, m)
  | PacketFails e timeout :: input =>
      if negb timeout then (Some e, packetBuffers, Some e, input, m)
      else (Some e, packetBuffers, None, input, m)
  | PacketRead packet destination :: input =>
      let '(err, m) := sniffPacket action packet m in
      let packetBuffers := (packetBuffers ++ [(packet, destination)])%list in
      if isNeedMoreData err then sniffNew action packetBuffers input m
      else (err, packetBuffers, None, input, m)
  end.

Definition sniffPackets (inputPacketBuffers : list (list Z * Socksaddr)) (input : list packetRead)
    (action : RuleActionSniff) (m : InboundContext) :
    list (list Z * Socksaddr) * option GoError * list packetRead * InboundContext :=
  if (length (sn_PacketSniffers action) =? 0)%nat && (0 <? length (sn_StreamSniffers action))%nat
  then ([], None, input, m)
  else if sniffFailedBefore action m then ([], None, input, m)
  else
    let '(finally, err, m) := sniffBuffered action inputPacketBuffers m in
    if finally then ([], None, input, overrideSniffed action err m)
    else
      let '(err, packetBuffers, fatalErr, input, m) := sniffNew action inputPacketBuffers input m in
      match fatalErr with
      | Some _ => (packetBuffers, fatalErr, input, m)
      | None => (packetBuffers, None, input, overrideSniffed action err m)
      end.

(** [actionSniff] together with what [matchRule] does with its results. *)
Definition actionSniff (action : RuleActionSniff) (m : InboundContext) (i : Input) :
    result (InboundContext * Input) :=
  if sniff_Skip m || negb (String.eqb (m_Protocol m) "") then Ok (m, i)
  else
    match i with
    | InputConn deadline buffers input =>
        let '(newBuffer, input, m) := sniffStream deadline buffers input action m in
        Ok (m, InputConn deadline (buffers ++ optList newBuffer) input)
    | InputPacketConn packetBuffers input =>
        let '(newPacketBuffers, newErr, input, m) := sniffPackets packetBuffers input action m in
        match newErr with
        | Some e => Err e
        | None => Ok (m, InputPacketConn (packetBuffers ++ newPacketBuffers) input)
        end
    end.

(** ** Resolve *)

Definition actionResolve (r : Router) (action : RuleActionResolve) (m : InboundContext) :
    result InboundContext :=
  if sa_IsDomain (m_Destination m) then
    let? transport :=
      if negb (String.eqb (rs_Server action) "") then
        match rt_Transport r (rs_Server action) with
        | Some transport => Ok (Some transport)
        | None => Err (E_New ("DNS server not found: " ++ rs_Server action))
        end
      else Ok None in
    let? addresses := rt_Lookup r m (sa_Fqdn (m_Destination m))
      (mkQueryOptions transport (rs_Strategy action) DomainStrategyAsIS (rs_DisableCache action)
         (rs_DisableOptimisticCache action) (rs_RewriteTTL action) (rs_Timeout action)
         (rs_ClientSubnet action) false) in
    Ok (set_DestinationAddresses m addresses)
  else Ok m.

(** ** matchRule *)

(** What a rule that holds does before it is decided whether it is final. *)
Definition runAction (r : Router) (action : RuleAction) (m : InboundContext) (i : Input) :
    result (InboundContext * Input) :=
  let m := match routeOptionsOfAction action with Some o => applyRouteOptions m o | None => m end in
  match action with
  | ActSniff action => actionSniff action m i
  | ActResolve action => let? m := actionResolve r action m in Ok (m, i)
  | _ => Ok (m, i)
  end.

Definition isFinal (action : RuleAction) : bool :=
  let actionType := RuleAction_Type action in
  if String.eqb actionType RuleActionTypeRoute || String.eqb actionType RuleActionTypeReject
     || String.eqb actionType RuleActionTypeHijackDNS then true
  else match action with
       | RuleActionBypass outbound _ => negb (String.eqb outbound "")
       | _ => false
       end.

(** The selected rule with its index, the metadata and the peeked data. *)
Notation Selection := (option (nat * HeadlessRule) * InboundContext * Input)%type.

Definition nilAction : GoError := GoPanic "invalid memory address or nil pointer dereference".
(** A method of the nil outbound. *)
Definition nilOutbound : GoError := GoPanic "nil pointer dereference: outbound".

Fixpoint matchRules (r : Router) (rules : list HeadlessRule) (currentRuleIndex : nat)
    (m : InboundContext) (i : Input) : result Selection :=
  match rules with
  | [] => Ok (None, m, i)
  | currentRule :: rules =>
      let '(matched, m) := HeadlessRule_Match env currentRule (ResetRuleCache m) in
      if negb matched then matchRules r rules (S currentRuleIndex) m i
      else
        match rule_Action currentRule with
        | None => Err nilAction
        | Some action =>
            let? '(m, i) := runAction r action m i in
            if isFinal action then Ok (Some (currentRuleIndex, currentRule), m, i)
            else matchRules r rules (S currentRuleIndex) m i
        end
  end.

Definition matchRule (r : Router) (m : InboundContext) (i : Input) : result Selection :=
  let? m := prepareMatchMetadata r m in matchRules r (rt_rules r) 0 m i.

(** ** Routing *)

(** What becomes of a connection.  [cached] is what [bufio.NewCachedConn] puts
    in front of it, outermost first: each layer is read before the connection
    it wraps. *)
Inductive Routed (C : Type) :=
  | ToInbound (tag : string) (m : InboundContext) (conn : C)
  | ToDNS (m : InboundContext) (conn : C)
  | ToOutbound (outbound : Outbound) (m : InboundContext) (conn : C)
  | ToNobody.
#[global] Arguments ToInbound {C}.
#[global] Arguments ToDNS {C}.
#[global] Arguments ToOutbound {C}.
#[global] Arguments ToNobody {C}.

Record CachedConn := mkCachedConn { cc_cached : list (list Z); cc_input : list readResult }.
Record CachedPacketConn := mkCachedPacketConn {
  cp_cached : list (list Z * Socksaddr); cp_input : list packetRead }.

Definition NewCachedConn (conn : CachedConn) (buffer : list Z) : CachedConn :=
  mkCachedConn (buffer :: cc_cached conn) (cc_input conn).
Definition NewCachedPacketConn (conn : CachedPacketConn) (buffer : list Z * Socksaddr) : CachedPacketConn :=
  mkCachedPacketConn (buffer :: cp_cached conn) (cp_input conn).

(** The connection with its peeked buffers in front. *)
Definition wrapConn (i : Input) : CachedConn :=
  match i with
  | InputConn _ buffers input => foldl NewCachedConn (mkCachedConn [] input) buffers
  | InputPacketConn _ _ => mkCachedConn [] []
  end.
Definition wrapPacketConn (i : Input) : CachedPacketConn :=
  match i with
  | InputPacketConn packetBuffers input =>
      foldl NewCachedPacketConn (mkCachedPacketConn [] input) packetBuffers
  | InputConn _ _ _ => mkCachedPacketConn [] []
  end.

(** [hijackDNSPacket] is given the peeked packets as they are. *)
Definition plainPacketConn (i : Input) : CachedPacketConn :=
  match i with
  | InputPacketConn packetBuffers input => mkCachedPacketConn packetBuffers input
  | InputConn _ _ _ => mkCachedPacketConn [] []
  end.

(** [metadata.InboundDetour]. *)
Definition detourTo (r : Router) (udp : bool) (m : InboundContext) : result (string * InboundContext) :=
  let detour := m_InboundDetour m in
  if String.eqb (m_LastInbound m) detour then Err (E_New ("routing loop on detour: " ++ detour))
  else
    match rt_inbound r detour with
    | None => Err (E_New ("inbound detour not found: " ++ detour))
    | Some (tcp, isUDP) =>
        if if udp then isUDP else tcp
        then Ok (detour, {| m with m_LastInbound := m_Inbound m; m_Inbound := detour; m_InboundDetour := "" |})
        else Err (E_New (if udp then "inbound detour is not UDP injectable: " ++ detour
                         else "inbound detour is not TCP injectable: " ++ detour))
    end.

Definition reservedName (magic : MagicNames) (fqdn : string) : option GoError :=
  if String.eqb fqdn (mux_Destination magic) then
    Some (E_New "global multiplex is deprecated since sing-box v1.7.0, enable multiplex in Inbound fields instead.")
  else if String.eqb fqdn (vmess_MuxDestination magic) then
    Some (E_New "global multiplex (v2ray legacy) not supported since sing-box v1.7.0.")
  else if String.eqb fqdn (uot_MagicAddress magic) then
    Some (E_New "global UoT not supported since sing-box v1.7.0.")
  else if String.eqb fqdn (uot_LegacyMagicAddress magic) then
    Some (E_New "global UoT (legacy) not supported since sing-box v1.7.0.")
  else None.

(** The outbound a rule names, with the network it has to carry. *)
Definition namedOutbound (r : Router) (network name tag : string) : result Outbound :=
  match rt_outbound r tag with
  | None => Err (E_New ("outbound not found: " ++ tag))
  | Some o =>
      if common_Contains (ob_Network o) network then Ok o
      else Err (E_New (name ++ " is not supported by outbound: " ++ ob_Tag o))
  end.

(** Drop counters of the reject actions, by rule index. *)
Notation Drops := (gmap nat (list Z)).

(** What the action of the selected rule asks for. *)
Inductive Verdict :=
  | DecideOutbound (o : Outbound)
  | DecideDNS
  | DecideError (e : GoError)
  | DecideDone                   (* a nil error is returned *)
  | DecideNothing.

Definition rejectedBy (e : RejectedError) : GoError :=
  Rejected (E_New (match e with ErrReset => "connection reset" | ErrDrop => "packet dropped" end)).

(** The [switch] on the action of the selected rule; [now] is the time. *)
Definition decideAction (r : Router) (udp : bool) (now : Z) (index : nat) (action : RuleAction)
    (drops : Drops) : Verdict * Drops :=
  let network := if udp then NetworkUDP else NetworkTCP in
  let name := if udp then "UDP" else "TCP" in
  let route tag := match namedOutbound r network name tag with
                   | Ok o => DecideOutbound o | Err e => DecideError e end in
  match action with
  | RuleActionRoute outbound _ => (route outbound, drops)
  | RuleActionBypass outbound _ =>
      (if String.eqb outbound "" then DecideNothing else route outbound, drops)
  | RuleActionReject method noDrop =>
      if String.eqb method RuleActionRejectMethodReply then
        (DecideError (E_New ("reject method `reply` is not supported for " ++ name ++ " connections")), drops)
      else
        let '(e, counter) := RuleActionReject_Error method noDrop now (default [] (drops !! index)) in
        (match e with
         | Ok (Some e) => DecideError (rejectedBy e)
         | Ok None => DecideDone
         | Err e => DecideError e
         end, <[index := counter]> drops)
  | RuleActionHijackDNS => (DecideDNS, drops)
  | _ => (DecideNothing, drops)
  end.

(** The common end of [routeConnection] and [routePacketConnection]. *)
Definition finishRoute {C} (r : Router) (udp : bool) (now : Z) (wrap wrapDNS : Input -> C)
    (selection : Selection) (drops : Drops) : result (Routed C) * Drops :=
  let '(selectedRule, m, i) := selection in
  let network := if udp then NetworkUDP else NetworkTCP in
  match selectedRule with
  | Some (index, rule) =>
      let '(decision, drops) := match rule_Action rule with
                                | Some action => decideAction r udp now index action drops
                                | None => (DecideNothing, drops) end in
      (match decision with
       | DecideError e => Err e
       | DecideDNS => Ok (ToDNS m (wrapDNS i))
       | DecideDone => Ok ToNobody
       | DecideNothing => Err nilAction   (* selectedOutbound.Tag() on nil *)
       | DecideOutbound o =>
           Ok (ToOutbound o {| m with m_RouteRule := rule_String rule; m_RouteOutbound := ob_Tag o |} (wrap i))
       end, drops)
  | None =>
      (match rt_Default r with
       | None => Err nilOutbound
       | Some o =>
           if common_Contains (ob_Network o) network then
             Ok (ToOutbound o {| m with m_RouteOutbound := ob_Tag o |} (wrap i))
           else Err (E_New (if udp then "UDP is not supported by outbound: " ++ ob_Tag o
                            else "TCP is not supported by default outbound: " ++ ob_Tag o))
       end, drops)
  end.

Definition routeConnection (r : Router) (now : Z) (deadline : option GoError) (input : list readResult)
    (m : InboundContext) (drops : Drops) : result (Routed CachedConn) * Drops :=
  let conn := mkCachedConn [] input in
  if negb (String.eqb (m_InboundDetour m) "") then
    (let? '(tag, m) := detourTo r false m in Ok (ToInbound tag m conn), drops)
  else
    let m := {| m with m_Network := NetworkTCP |} in
    match reservedName (rt_magic r) (sa_Fqdn (m_Destination m)) with
    | Some e => (Err e, drops)
    | None =>
        if String.eqb (m_InboundType m) TypeTun && String.eqb (m_Protocol m) ProtocolDNS
        then (Ok (ToDNS m conn), drops)
        else
          match matchRule r m (InputConn deadline [] input) with
          | Err e => (Err e, drops)
          | Ok selection => finishRoute r false now wrapConn wrapConn selection drops
          end
    end.

Definition routePacketConnection (r : Router) (now : Z) (input : list packetRead)
    (m : InboundContext) (drops : Drops) : result (Routed CachedPacketConn) * Drops :=
  let conn := mkCachedPacketConn [] input in
  if negb (String.eqb (m_InboundDetour m) "") then
    (let? '(tag, m) := detourTo r true m in Ok (ToInbound tag m conn), drops)
  else
    let m := {| m with m_Network := NetworkUDP |} in
    if String.eqb (m_InboundType m) TypeTun && String.eqb (m_Protocol m) ProtocolDNS
    then (Ok (ToDNS m conn), drops)
    else
      match matchRule r m (InputPacketConn [] input) with
      | Err e => (Err e, drops)
      | Ok selection => finishRoute r true now wrapPacketConn plainPacketConn selection drops
      end.

(** ** Pre-match *)

Record PreMatchResult := mkPreMatchResult {
  pm_Action : PreMatchAction;
  pm_Outbound : option Outbound;
  pm_Destination : option (Addr * Z);
  pm_UDPTimeout : Z }.
Definition preMatchOf (a : PreMatchAction) : PreMatchResult := mkPreMatchResult a None None 0.

(** At most eight groups are followed. *)
Fixpoint followGroups (r : Router) (n : nat) (o : Outbound) : option Outbound :=
  match n with
  | O => Some o
  | S n =>
      match ob_Now o with
      | None => Some o
      | Some now => match rt_outbound r now with None => None | Some o => followGroups r n o end
      end
  end.

Definition flowTimeout (m : InboundContext) : Z :=
  if negb (String.eqb (m_Network m) NetworkUDP) then 0
  else if 0 <? m_UDPTimeout m then m_UDPTimeout m
  else
    let protocol := if String.eqb (m_Protocol m) "" then PortProtocols (sa_Port (m_Destination m))
                    else m_Protocol m in
    if negb (String.eqb protocol "") then ProtocolTimeouts protocol else 0.

Definition preMatchFlow (r : Router) (m : InboundContext) (packetDestination : Socksaddr)
    (outboundTag : string) : result PreMatchResult :=
  let continueResult := preMatchOf PreMatchContinue in
  if String.eqb outboundTag "" && negb (isSome (rt_Default r)) then Err nilOutbound
  else Ok
  match (if String.eqb outboundTag "" then rt_Default r else rt_outbound r outboundTag) with
  | None => continueResult
  | Some outbound =>
  match followGroups r 8 outbound with
  | None => continueResult
  | Some outbound =>
  if negb (common_Contains (ob_Network outbound) (m_Network m)) then continueResult
  else
  match ob_PreMatchFlow outbound with
  | None => continueResult
  | Some PreMatchFlowOf =>
  let flowAction := PreMatchFlowOf (m_Network m) (sa_Addr (m_Destination m)) in
  if negb (bool_decide (flowAction = PreMatchFlow))
  then mkPreMatchResult flowAction (Some outbound) None 0
  else
  let result destination := mkPreMatchResult PreMatchFlow (Some outbound) destination (flowTimeout m) in
  if sa_IsDomain (m_Destination m) then
    if negb (m_FakeIP m) then continueResult
    else
    match List.find (fun address => Bool.eqb (Addr.Is4 address) (sa_IsIPv4 packetDestination))
            (m_DestinationAddresses m) with
    | Some newDestination =>
        if negb (Addr.IsValid newDestination) then preMatchOf PreMatchReject
        else
        let flowAction := PreMatchFlowOf (m_Network m) newDestination in
        if negb (bool_decide (flowAction = PreMatchFlow))
        then mkPreMatchResult flowAction (Some outbound) None 0
        else result (Some (newDestination, sa_Port (m_Destination m)))
    | None => preMatchOf PreMatchReject
    end
  else if negb (bool_decide (m_Destination m = packetDestination))
  then result (Some (sa_Addr (m_Destination m), sa_Port (m_Destination m)))
  else result None
  end end end.

(** What a rule that holds does in [PreMatch]: a verdict, or the metadata the
    next rules see. *)
Definition preMatchSniff (action : RuleActionSniff) (firstPacket : list Z) (m : InboundContext) :
    PreMatchResult + InboundContext :=
  if String.eqb (m_Network m) NetworkICMP then inr m
  else if negb (String.eqb (m_Network m) NetworkUDP) || (length firstPacket =? 0)%nat
  then inl (preMatchOf PreMatchContinue)
  else if sniff_Skip m || negb (String.eqb (m_Protocol m) "") then inr m
  else if (length (sn_PacketSniffers action) =? 0)%nat && (0 <? length (sn_StreamSniffers action))%nat
  then inr m
  else if sameSniffers action m && isSome (m_SniffError m) then inr m
  else
    let '(sniffErr, m) := PeekPacket m firstPacket (packetSniffersOf action) in
    let m := noteSniff action sniffErr m in
    match sniffErr with
    | Some _ => if isNeedMoreData sniffErr then inl (preMatchOf PreMatchContinue) else inr m
    | None => inr (overrideSniffed action None m)
    end.

Definition preMatchBypass (r : Router) (m : InboundContext) (packetDestination : Socksaddr)
    (outbound : string) : result PreMatchResult :=
  let moved := sa_IsDomain (m_Destination m) || negb (bool_decide (m_Destination m = packetDestination)) in
  if String.eqb outbound "" then
    Ok (if moved then preMatchOf PreMatchContinue else preMatchOf PreMatchBypass)
  else
    let? result := preMatchFlow r m packetDestination outbound in
    Ok (if moved then result
        else if negb (bool_decide (pm_Action result = PreMatchFlow)) then preMatchOf PreMatchBypass
        else mkPreMatchResult PreMatchBypass (pm_Outbound result) (pm_Destination result) (pm_UDPTimeout result)).

(** [rejectErr] of [action.Error]; a panic of an unknown method leaves the call. *)
Definition preMatchReject (m : InboundContext) (rejectErr : option RejectedError) : PreMatchResult :=
  match rejectErr with
  | None => if String.eqb (m_Network m) NetworkICMP then preMatchOf PreMatchContinue
            else preMatchOf PreMatchReject
  | Some ErrDrop => preMatchOf PreMatchDrop
  | Some ErrReset => preMatchOf PreMatchReject
  end.

Fixpoint preMatchRules (r : Router) (now : Z) (packetDestination : Socksaddr) (firstPacket : list Z)
    (rules : list HeadlessRule) (currentRuleIndex : nat) (m : InboundContext) (drops : Drops) :
    result PreMatchResult * Drops :=
  match rules with
  | [] => (preMatchFlow r m packetDestination "", drops)
  | currentRule :: rules =>
      let next m := preMatchRules r now packetDestination firstPacket rules (S currentRuleIndex) m drops in
      let '(matched, m) := HeadlessRule_Match env currentRule (ResetRuleCache m) in
      if negb matched then next m
      else
        match rule_Action currentRule with
        | Some (ActSniff action) =>
            match preMatchSniff action firstPacket m with
            | inl verdict => (Ok verdict, drops)
            | inr m => next m
            end
        | Some (ActRouteOptions o) => next (applyRouteOptionsOverride m o)
        | Some (RuleActionRoute outbound o) =>
            (preMatchFlow r (applyRouteOptionsOverride m o) packetDestination outbound, drops)
        | Some (RuleActionBypass outbound o) =>
            (preMatchBypass r (applyRouteOptionsOverride m o) packetDestination outbound, drops)
        | Some (RuleActionReject method noDrop) =>
            let '(e, counter) := RuleActionReject_Error method noDrop now (default [] (drops !! currentRuleIndex)) in
            (let? rejectErr := e in Ok (preMatchReject m rejectErr), <[currentRuleIndex := counter]> drops)
        | Some RuleActionHijackDNS =>
            (Ok (preMatchOf (if negb (String.eqb (m_Network m) NetworkUDP) then PreMatchContinue
                             else PreMatchHijackDNS)), drops)
        | Some (ActResolve action) =>
            match actionResolve r action m with
            | Err _ => (Ok (preMatchOf PreMatchReject), drops)
            | Ok m => next m
            end
        | _ => (Ok (preMatchOf PreMatchContinue), drops)
        end
  end.

Definition PreMatch (r : Router) (now : Z) (m : InboundContext) (firstPacket : list Z) (drops : Drops) :
    result PreMatchResult * Drops :=
  let m := {| m with m_PreMatch := true |} in
  match prepareMatchMetadata r m with
  | Err _ => (Ok (preMatchOf PreMatchContinue), drops)
  | Ok m' => preMatchRules r now (m_Destination m) firstPacket (rt_rules r) 0 m' drops
  end.
End router.
