(* ===== verification/RouterDispatch.v ===== *)
(** * Dispatch: from the configuration to an outbound

    The rules the constructors accept, the router and the FakeIP store
    together: no connection runs into a nil action or outbound, the outbound it
    is given to is one the configuration names and carries its network, the
    bytes peeked at are handed on, and an address of the FakeIP store is routed
    as the name it was made for. *)

From S2P Require Import Prelude.
From S2P Require Import GoText.
From S2P Require Import NetIP.
From S2P Require Import Libs.
From S2P Require Import Metadata.
From S2P Require Import RuleItems.
From S2P Require Import RuleAction.
From S2P Require Import RuleEngine.
From S2P Require Import RuleOptions.
From S2P Require Import RuleBuild.
From S2P Require Import RuleBuildTheorems.
From S2P Require Import FakeIP.
From S2P Require Import FakeIPTheorems.
From S2P Require Import Sniff.
From S2P Require Import Router.
Local Open Scope string_scope.
Local Open Scope Z_scope.

(** ** Actions of route rules *)

Section built.
Context `{L : Libs} (platformSupported : bool) (dialer_New : DirectActionOptions -> option GoError).

Lemma NewRule_action o check :
  result_all (fun h => exists act, NewRuleAction platformSupported dialer_New act = Ok (rule_Action h))
    (NewRule platformSupported dialer_New o check).
Proof.
  destruct o as [typ d [mode rules inv act]]. rewrite NewRule_eq. destruct (_ || _).
  { destruct (negb _); [done|]. destruct (_ && _); [done|].
    eapply result_all_mono; [apply NewDefaultRule_spec|]. intros h (_ & Ha & _). by eexists. }
  destruct (String.eqb typ _); [|done].
  apply (result_all_bind (fun _ => True)); [by apply result_all_pure|]. intros valid _.
  destruct (negb valid); [done|]. destruct (_ && _); [done|]. rewrite NewLogicalRule_eq.
  destruct (NewRuleAction _ _ act) as [a|] eqn:Ha; [|done]. cbn [result_cause result_bind].
  do 2 (apply (result_all_bind (fun _ => True)); [by apply result_all_pure|]; intros ? _).
  by exists act.
Qed.

(** The actions the router knows. *)
Definition routerAction (a : RuleAction) : bool :=
  match a with
  | RuleActionDNSRoute _ _ _ | RuleActionEvaluate _ _ _ _ | RuleActionRespond
  | ActDNSRouteOptions _ | ActPredefined _ => false
  | _ => true
  end.

Lemma NewRuleAction_router act a :
  NewRuleAction platformSupported dialer_New act = Ok (Some a) -> routerAction a = true.
Proof. destruct act; cbn [NewRuleAction]; intros H; inv_bind; subst; try done. by destruct (dialer_New _); simplify_eq. Qed.

(** A reject method the option decoder lets through. *)
Definition knownMethod (method : string) : Prop :=
  method ∈ [RuleActionRejectMethodDefault; RuleActionRejectMethodDrop; RuleActionRejectMethodReply].

(** A rule as the router has it: built for the top level. *)
Definition routeRule (h : HeadlessRule) : Prop :=
  (exists o, NewRule platformSupported dialer_New o true = Ok h)
  /\ forall method noDrop, rule_Action h = Some (RuleActionReject method noDrop) -> knownMethod method.

Lemma routeRule_action h :
  routeRule h -> exists a, rule_Action h = Some a /\ routerAction a = true
  /\ forall method noDrop, a = RuleActionReject method noDrop -> knownMethod method.
Proof.
  intros [[o Ho] Hm].
  pose proof (NewRule_tree platformSupported dialer_New o true) as Ht. rewrite Ho in Ht.
  destruct (bt_checked _ _ _ Ht eq_refl) as (a & Ha & _). exists a.
  pose proof (NewRule_action o true) as Hk. rewrite Ho in Hk. destruct Hk as [act Hk]. rewrite Ha in Hk.
  split_and!; [done|by eapply NewRuleAction_router|]. intros method noDrop ->. by eapply Hm.
Qed.
End built.

(** ** No panic *)

Definition noPanic (e : GoError) : Prop := match e with GoPanic _ => False | _ => True end.

Section dispatch.
Context `{L : Libs} `{Sn : Sniffing} (env : RuleEnv).
Context (platformSupported : bool) (dialer_New : DirectActionOptions -> option GoError).
Context (r : Router) (Hrules : Forall (routeRule platformSupported dialer_New) (rt_rules r)).
Context (Hlookup : forall m name o e, rt_Lookup r m name o = Err e -> noPanic e).

(** Reads that fail do so with an error. *)
Definition readOk (p : packetRead) : Prop :=
  match p with PacketFails e _ | ContextDone e => noPanic e | _ => True end.
Definition inputOk (i : Input) : Prop :=
  match i with InputConn _ _ _ => True | InputPacketConn _ input => Forall readOk input end.

Lemma sniffNew_ok action packets input m :
  Forall readOk input ->
  match sniffNew action packets input m with
  | (_, _, fatal, input', _) =>
      Forall readOk input' /\ match fatal with Some e => noPanic e | None => True end
  end.
Proof.
  intros H. revert packets m. induction H as [|p input Hp Hi IH]; intros packets m; cbn [sniffNew]; [done|].
  destruct p as [packet destination|e timeout|e]; [|by destruct (negb timeout)|done].
  destruct (sniffPacket _ _ _) as [err m1]. destruct (isNeedMoreData err); [apply IH|done].
Qed.

Lemma actionSniff_ok action m i :
  inputOk i ->
  match actionSniff action m i with Ok (_, i') => inputOk i' | Err e => noPanic e end.
Proof.
  intros H. unfold actionSniff. destruct (_ || _); [done|]. destruct i as [deadline buffers input|packets input].
  - by destruct (sniffStream _ _ _ _ _) as [[? ?] ?].
  - unfold sniffPackets. destruct (_ && _); [done|]. destruct (sniffFailedBefore _ _); [done|].
    destruct (sniffBuffered _ _ _) as [[finally err] m1]. destruct finally; [done|].
    pose proof (sniffNew_ok action packets input m1 H) as Hn.
    destruct (sniffNew _ _ _ _) as [[[[err' b] fatal] input'] m2]. destruct Hn as [Hn1 Hn2]. by destruct fatal.
Qed.

Lemma runAction_ok a m i :
  inputOk i -> match runAction r a m i with Ok (_, i') => inputOk i' | Err e => noPanic e end.
Proof.
  intros H. unfold runAction.
  generalize (match routeOptionsOfAction a with Some o => applyRouteOptions m o | None => m end). intros m1.
  destruct a; try done; [by apply actionSniff_ok|]. unfold actionResolve. destruct (sa_IsDomain _); [|done].
  destruct (negb _); [destruct (rt_Transport _ _); [|done]|]; cbn [result_bind];
    (destruct (rt_Lookup _ _ _ _) as [l|e] eqn:El; [done|by eapply Hlookup]).
Qed.

(** The rules the loop may select, and the errors it may end with. *)
Lemma matchRules_ok rules :
  Forall (routeRule platformSupported dialer_New) rules -> forall n m i, inputOk i ->
  match matchRules env r rules n m i with
  | Ok (Some (_, h), _, _) => h ∈ rules /\ exists a, rule_Action h = Some a /\ isFinal a = true
  | Ok (None, _, _) => True
  | Err e => noPanic e
  end.
Proof.
  induction 1 as [|h rules Hh Hrs IH]; intros n m i Hi; cbn [matchRules]; [done|].
  destruct (HeadlessRule_Match _ _ _) as [matched m1]. destruct matched; cbn [negb].
  - destruct (routeRule_action _ _ h Hh) as (a & Ha & _). rewrite Ha.
    pose proof (runAction_ok a m1 i Hi) as Hr. destruct (runAction r a m1 i) as [[m2 i2]|e]; [|done].
    cbn [result_bind]. destruct (isFinal a) eqn:Ef; [split; [set_solver|by exists a]|].
    specialize (IH (S n) m2 i2 Hr). destruct (matchRules _ _ _ _ _ _) as [[[[[k h']|] m'] i']|]; [|done..].
    destruct IH as [? ?]. split; [set_solver|done].
  - specialize (IH (S n) m1 i Hi). destruct (matchRules _ _ _ _ _ _) as [[[[[k h']|] m'] i']|]; [|done..].
    destruct IH as [? ?]. split; [set_solver|done].
Qed.

(** ** Where a connection goes *)

(** The outbound an action names. *)
Definition outboundOf (a : RuleAction) : option string :=
  match a with
  | RuleActionRoute tag _ => Some tag
  | RuleActionBypass tag _ => if String.eqb tag "" then None else Some tag
  | _ => None
  end.

Definition networkOf (udp : bool) : string := if udp then NetworkUDP else NetworkTCP.

(** What may become of a connection with the metadata [m]. *)
Definition goodRoute {C} (udp : bool) (m : InboundContext) (res : result (Routed C)) : Prop :=
  match res with
  | Ok (ToOutbound o m' _) =>
      networkOf udp ∈ ob_Network o /\ m_RouteOutbound m' = ob_Tag o
      /\ (rt_Default r = Some o
          \/ exists h a tag, h ∈ rt_rules r /\ rule_Action h = Some a /\ outboundOf a = Some tag
             /\ rt_outbound r tag = Some o /\ m_RouteRule m' = rule_String h)
  | Ok (ToDNS _ _) =>
      (m_InboundType m = TypeTun /\ m_Protocol m = ProtocolDNS)
      \/ exists h, h ∈ rt_rules r /\ rule_Action h = Some RuleActionHijackDNS
  | Ok (ToInbound tag m' _) => tag = m_InboundDetour m /\ tag <> "" /\ m_Inbound m' = tag
  | Ok ToNobody => False
  | Err e => noPanic e \/ (rt_Default r = None /\ e = nilOutbound)
  end.

Lemma namedOutbound_ok network name tag :
  match namedOutbound r network name tag with
  | Ok o => rt_outbound r tag = Some o /\ network ∈ ob_Network o
  | Err e => noPanic e
  end.
Proof.
  unfold namedOutbound. destruct (rt_outbound r tag) as [o|]; [|done].
  rewrite common_Contains_spec. by case_bool_decide.
Qed.

Lemma decideAction_ok udp now index a drops :
  routerAction a = true -> isFinal a = true ->
  (forall method noDrop, a = RuleActionReject method noDrop -> knownMethod method) ->
  match fst (decideAction r udp now index a drops) with
  | DecideOutbound o => exists tag, outboundOf a = Some tag /\ rt_outbound r tag = Some o
                          /\ networkOf udp ∈ ob_Network o
  | DecideDNS => a = RuleActionHijackDNS
  | DecideError e => noPanic e
  | DecideDone | DecideNothing => False
  end.
Proof.
  intros Hk Hf Hm. destruct a; try done; cbn [decideAction fst].
  - pose proof (namedOutbound_ok (networkOf udp) (if udp then "UDP" else "TCP") Outbound) as H.
    unfold networkOf in H. destruct (namedOutbound _ _ _ _); [|done]. exists Outbound. naive_solver.
  - cbn in Hf |- *. destruct (String.eqb Outbound ""); [done|].
    pose proof (namedOutbound_ok (networkOf udp) (if udp then "UDP" else "TCP") Outbound) as H.
    unfold networkOf in H. destruct (namedOutbound _ _ _ _); [|done]. exists Outbound. naive_solver.
  - destruct (String.eqb_spec Method RuleActionRejectMethodReply) as [->|Hn]; [done|].
    pose proof (Hm Method NoDrop eq_refl) as Hkm. unfold RuleActionReject_Error.
    assert (Hcase : Method = RuleActionRejectMethodDefault \/ Method = RuleActionRejectMethodDrop).
    { unfold knownMethod in Hkm. set_solver. }
    destruct Hcase as [->| ->]; cbn [String.eqb]; [|done].
    destruct NoDrop; [done|]. cbn -[Nat.ltb]. by destruct (50 <? _)%nat.
Qed.

Lemma finishRoute_ok {C} udp now (wrap wrapDNS : Input -> C) (m0 m : InboundContext) i selected drops :
  match selected with
  | Some (_, h) => h ∈ rt_rules r /\ exists a, rule_Action h = Some a /\ isFinal a = true
  | None => True
  end ->
  goodRoute udp m0 (fst (finishRoute r udp now wrap wrapDNS (selected, m, i) drops)).
Proof.
  destruct selected as [[index h]|]; cbn [finishRoute].
  - intros (Hin & a & Ha & Hf). rewrite Ha.
    pose proof Hrules as Hr. rewrite Forall_forall in Hr.
    destruct (routeRule_action _ _ h (Hr h (proj1 (list_elem_of_In _ _) Hin))) as (a' & Ha' & Hk & Hm).
    assert (a' = a) as -> by congruence.
    pose proof (decideAction_ok udp now index a drops Hk Hf Hm) as Hd.
    destruct (decideAction _ _ _ _ _ _) as [d drops']. cbn [fst] in *. destruct d; cbn; try done; [| |by left].
    + destruct Hd as (tag & Ht & Ho & Hn). split_and!; [done|done|]. right. by exists h, a, tag.
    + right. exists h. subst a. done.
  - intros _. destruct (rt_Default r) as [o|] eqn:Ed; [|by right]. rewrite common_Contains_spec. case_bool_decide as Hn; cbn.
    + split_and!; [done|done|by left].
    + left. by destruct udp.
Qed.

Lemma detour_ok {C} udp m (conn : C) drops :
  String.eqb (m_InboundDetour m) "" = false ->
  goodRoute udp m (fst (let? '(tag, m) := detourTo r udp m in Ok (ToInbound tag m conn), drops : gmap nat (list Z))).
Proof.
  intros Hd. apply String.eqb_neq in Hd. cbn [fst]. unfold detourTo. destruct (String.eqb _ _); [by left|].
  destruct (rt_inbound r _) as [[tcp isUDP]|]; [|by left]. destruct udp, tcp, isUDP; try done; by left.
Qed.

Lemma prepare_ok m : match prepareMatchMetadata r m with Ok _ => True | Err e => noPanic e end.
Proof.
  unfold prepareMatchMetadata. destruct (fakeIPOf _ _) as [store|].
  - destruct (fl_Lookup store _) as [d|]; [|done]. by destruct (negb _).
  - destruct (String.eqb _ _); [|done]. by destruct (rt_LookupReverseMapping _ _).
Qed.

Lemma matchRule_ok m i :
  inputOk i ->
  match matchRule env r m i with
  | Ok (Some (_, h), _, _) => h ∈ rt_rules r /\ exists a, rule_Action h = Some a /\ isFinal a = true
  | Ok (None, _, _) => True
  | Err e => noPanic e
  end.
Proof.
  intros Hi. unfold matchRule. pose proof (prepare_ok m) as Hp.
  destruct (prepareMatchMetadata r m) as [m1|]; [|done]. by apply matchRules_ok.
Qed.

(** C13 With rules as their constructors build them, routing a TCP or UDP
    connection never meets a nil action or a nil outbound: it ends at an
    outbound that carries the network and is the default one or the one the
    selected rule names, at the DNS hijack by a rule that says so (or DNS
    traffic of a tun), at the inbound detour, or with an error that is none of
    these panics; only when the outbound manager has no default outbound does a
    connection that no rule selects dereference it.  DNS lookups and packet
    reads are assumed to report errors, not to panic. *)
Theorem route_dispatch (now : Z) (deadline : option GoError) (input : list readResult)
    (packets : list packetRead) (m : InboundContext) (drops : gmap nat (list Z))
    (Hreads : Forall readOk packets) :
  goodRoute false m (fst (routeConnection env r now deadline input m drops))
  /\ goodRoute true m (fst (routePacketConnection env r now packets m drops)).
Proof.
  split.
  - unfold routeConnection. destruct (String.eqb (m_InboundDetour m) "") eqn:Hd; cbn [negb];
      [|by apply detour_ok]. destruct (reservedName _ _) as [e|] eqn:Er.
    { left. unfold reservedName in Er. repeat case_match; by simplify_eq. }
    destruct (_ && _) eqn:Ht.
    { left. apply andb_prop in Ht as [H1%String.eqb_eq H2%String.eqb_eq]. done. }
    match goal with |- context [matchRule env r ?m1 ?i] =>
      pose proof (matchRule_ok m1 i I) as H; destruct (matchRule env r m1 i) as [[[selected m2] i2]|e] end.
    + by apply finishRoute_ok.
    + by left.
  - unfold routePacketConnection. destruct (String.eqb (m_InboundDetour m) "") eqn:Hd; cbn [negb];
      [|by apply detour_ok]. destruct (_ && _) eqn:Ht.
    { left. apply andb_prop in Ht as [H1%String.eqb_eq H2%String.eqb_eq]. done. }
    match goal with |- context [matchRule env r ?m1 ?i] =>
      pose proof (matchRule_ok m1 i Hreads) as H; destruct (matchRule env r m1 i) as [[[selected m2] i2]|e] end.
    + by apply finishRoute_ok.
    + by left.
Qed.
End dispatch.

(** ** FakeIP *)

Section fakeip.
Context `{L : Libs} `{Sn : Sniffing} {S : Type} `{HS : FakeIPStorage S} `{HL : !FakeIPStorageLaws S}.

Definition lookupOf (st : Store S) : FakeIPLookup :=
  mkFakeIPLookup (Store_Contains st)
    (fun a => match Store_Lookup st a with Ok domain => domain | Err _ => None end).

(** Looking up the process and the neighbour changes neither. *)
Definition destinationFields (m : InboundContext) :=
  (m_Destination m, m_Domain m, m_OriginDestination m, m_FakeIP m).

Lemma searchProcess_fields (r : Router) m : destinationFields (searchProcessInfo r m) = destinationFields m.
Proof.
  unfold searchProcessInfo. destruct (rt_processSearcher r) as [f|]; [|done].
  destruct (_ || _); [done|]. by destruct (f _ _ _).
Qed.

Lemma lookupNeighbor_fields (r : Router) m : destinationFields (lookupNeighbor r m) = destinationFields m.
Proof.
  unfold lookupNeighbor. destruct (rt_neighborResolver r) as [[mac host]|]; [|done].
  destruct (_ || _); [done|]. cbn zeta. destruct (mac _), (host _); done.
Qed.

(** A connection to an address the FakeIP store handed out for a domain is
    matched as one to that domain: the name takes the place of the address, the
    port stays, the address is kept as the original destination. *)
Theorem fakeip_routed (s : S) (st st' : Store S) (d : string) (v6 : bool) (a : Addr) (r : Router)
    (m : InboundContext) (Hst : storeOk s st) (Hcreate : Store_Create d v6 st = Ok (a, None, st'))
    (Hd : d <> "") (Hr : rt_FakeIP r = Some (lookupOf st')) (Hm : sa_Addr (m_Destination m) = a) :
  exists m', prepareMatchMetadata r m = Ok m'
  /\ m_Destination m' = mkSocksaddr AddrNone (sa_Port (m_Destination m)) d
  /\ m_OriginDestination m' = m_Destination m /\ m_FakeIP m' = true /\ m_Domain m' = m_Domain m.
Proof.
  pose proof (create_lemma s st d v6 Hst) as Hc. rewrite Hcreate in Hc.
  destruct Hc as (s' & _ & Hs & Hin & _ & Hl & _). destruct (Hl eq_refl) as (Hlook & _).
  unfold prepareMatchMetadata. set (m1 := lookupNeighbor r (searchProcessInfo r m)).
  assert (Hf : destinationFields m1 = destinationFields m)
    by (subst m1; by rewrite lookupNeighbor_fields, searchProcess_fields).
  unfold destinationFields in Hf. injection Hf as Hdst Hdom _ _.
  assert (Hv : Addr.IsValid a = true) by apply Hs.
  assert (Hfake : fakeIPOf r m1 = Some (lookupOf st')).
  { unfold fakeIPOf. rewrite Hdst, Hm, Hv, Hr. cbn [lookupOf fl_Contains]. by rewrite Hin. }
  rewrite Hfake. cbn [lookupOf fl_Lookup]. rewrite Hdst, Hm, Hlook.
  rewrite (proj2 (String.eqb_neq _ _) Hd). cbn [negb result_bind]. eexists. split; [done|].
  unfold setIPVersion, domainDestination. rewrite Hdst. repeat case_match; cbn; by rewrite ?Hdst, ?Hdom.
Qed.
End fakeip.

(** ** Replay of what was peeked *)

Section replay.
Context `{L : Libs} `{Sn : Sniffing} (env : RuleEnv).

(** The bytes a stream had when it came in. *)
Definition streamBytes (i : Input) : list Z :=
  match i with InputConn _ buffers input => concat buffers ++ inputBytes input | InputPacketConn _ _ => [] end%list.
Definition isStream (i : Input) : bool := match i with InputConn _ _ _ => true | _ => false end.

(** What is read from a connection: the layers in front of it, outermost first. *)
Definition connBytes (c : CachedConn) : list Z := (concat (cc_cached c) ++ inputBytes (cc_input c))%list.

Lemma runAction_stream r a m i m' i' :
  isStream i = true -> runAction r a m i = Ok (m', i') ->
  isStream i' = true /\ streamBytes i' = streamBytes i.
Proof.
  intros Hs. unfold runAction.
  generalize (match routeOptionsOfAction a with Some o => applyRouteOptions m o | None => m end). intros m1.
  destruct a; try by intros [= <- <-].
  - unfold actionSniff. destruct (_ || _); [by intros [= <- <-]|].
    destruct i as [deadline buffers input|]; [|done].
    assert (H : forall b input' m2, sniffStream deadline buffers input r0 m1 = (b, input', m2) ->
              (concat (optList b) ++ inputBytes input' = inputBytes input)%list).
    { intros b input' m2. unfold sniffStream. destruct (_ && _); [by intros [= <- <- _]|].
      destruct (sniffFailedBefore _ _); [by intros [= <- <- _]|].
      destruct (PeekStream _ _ _ _ _ _) as [[[err buffer] input1] m3] eqn:E. apply PeekStream_bytes in E.
      intros [= <- <- _]. rewrite <-E. destruct buffer; cbn; by rewrite ?app_nil_r. }
    destruct (sniffStream _ _ _ _ _) as [[b input'] m2]. specialize (H _ _ _ eq_refl).
    intros [= <- <-]. split; [done|]. cbn [streamBytes]. by rewrite concat_app, <-app_assoc, H.
  - intros H. apply result_bind_Ok in H as (m2 & _ & [= <- <-]). done.
Qed.

Lemma matchRules_stream r rules n m i sel m' i' :
  isStream i = true -> matchRules env r rules n m i = Ok (sel, m', i') ->
  isStream i' = true /\ streamBytes i' = streamBytes i.
Proof.
  revert n m i. induction rules as [|h rules IH]; intros n m i Hs; cbn [matchRules]; [by intros [= <- <- <-]|].
  destruct (HeadlessRule_Match _ _ _) as [matched m1]. destruct matched; cbn [negb]; [|by apply IH].
  destruct (rule_Action h) as [a|]; [|done].
  destruct (runAction r a m1 i) as [[m2 i2]|] eqn:E; [|done]. cbn [result_bind].
  destruct (runAction_stream r a m1 i m2 i2 Hs E) as [Hs2 Hb2].
  destruct (isFinal a); [by intros [= <- <- <-]|]. intros H. destruct (IH _ _ _ Hs2 H). split; congruence.
Qed.

Lemma foldl_cached buffers conn :
  foldl NewCachedConn conn buffers = mkCachedConn (rev buffers ++ cc_cached conn) (cc_input conn).
Proof.
  revert conn. induction buffers as [|b buffers IH]; intros conn; cbn; [by destruct conn|].
  rewrite IH. cbn. by rewrite <-app_assoc.
Qed.

Lemma finishRoute_conn r now sel m i drops o m' conn drops' :
  finishRoute r false now wrapConn wrapConn (sel, m, i) drops = (Ok (ToOutbound o m' conn), drops') ->
  conn = wrapConn i.
Proof.
  cbn [finishRoute]. destruct sel as [[index h]|].
  - destruct (rule_Action h) as [a|]; [|done]. destruct (decideAction _ _ _ _ _ _) as [d drops1].
    destruct d; naive_solver.
  - destruct (rt_Default r) as [o'|]; [|done]. destruct (common_Contains _ _); naive_solver.
Qed.

(** C37 Peeking loses no byte of a stream: the buffers in front of the connection
    an outbound is given, innermost first, and what is left to read make up the
    incoming stream; with at most one buffer in front, which one sniff action
    makes, the outbound reads exactly the incoming stream. *)
Theorem sniffed_stream_kept (r : Router) (now : Z) (deadline : option GoError) (input : list readResult)
    (m m' : InboundContext) (drops drops' : gmap nat (list Z)) (o : Outbound) (conn : CachedConn)
    (Hroute : routeConnection env r now deadline input m drops = (Ok (ToOutbound o m' conn), drops')) :
  (concat (rev (cc_cached conn)) ++ inputBytes (cc_input conn) = inputBytes input)%list
  /\ ((length (cc_cached conn) <= 1)%nat -> connBytes conn = inputBytes input).
Proof.
  assert (H : (concat (rev (cc_cached conn)) ++ inputBytes (cc_input conn) = inputBytes input)%list).
  { revert Hroute. unfold routeConnection. destruct (negb _).
    { destruct (detourTo _ _ _) as [[]|]; done. }
    destruct (reservedName _ _); [done|]. destruct (_ && _); [done|]. unfold matchRule.
    destruct (prepareMatchMetadata _ _) as [m1|]; [|done]. cbn [result_bind].
    destruct (matchRules env r (rt_rules r) 0 m1 _) as [[[sel m2] i2]|] eqn:E; [|done].
    intros ->%finishRoute_conn. apply matchRules_stream in E as [Hs Hb]; [|done].
    destruct i2 as [d buffers input2|]; [|done]. cbn [wrapConn]. rewrite foldl_cached. cbn.
    rewrite app_nil_r, rev_involutive. exact Hb. }
  split; [done|]. intros Hl. unfold connBytes. rewrite <-H. f_equal.
  by destruct (cc_cached conn) as [|b [|]]; cbn in *; [..|lia].
Qed.
End replay.
