(* ===== verification/RouterPreMatch.v ===== *)
(** * Pre-match against routing

    [PreMatch] walks the rules on its own, with its own treatment of actions.
    Without sniff and bypass actions and without override addresses it judges
    a flow by exactly the rule [matchRule] selects for it. *)

From S2P Require Import Prelude.
From S2P Require Import GoText.
From S2P Require Import NetIP.
From S2P Require Import Libs.
From S2P Require Import Metadata.
From S2P Require Import RuleItems.
From S2P Require Import RuleAction.
From S2P Require Import RuleEngine.
From S2P Require Import RuleSpec.
From S2P Require Import RuleSound.
From S2P Require Import RuleBlind.
From S2P Require Import RuleTheorems.
From S2P Require Import Sniff.
From S2P Require Import Router.
From S2P Require Import RouterTheorems.
Local Open Scope string_scope.
Local Open Scope Z_scope.

(** ** What rules do not look at *)

(** The fields that only dialing reads. *)
Definition dialBlind (m : InboundContext) : InboundContext :=
  {| m with
     m_RouteOriginalDestination := Socksaddr_zero; m_UDPDisableDomainUnmapping := false;
     m_UDPConnect := false; m_TLSFragment := false; m_TLSFragmentFallbackDelay := 0;
     m_TLSRecordFragment := false; m_TLSSpoof := ""; m_TLSSpoofMethod := 0;
     m_NetworkStrategy := None; m_NetworkType := []; m_FallbackNetworkType := [];
     m_FallbackDelay := 0 |}.

Definition set_PreMatch (m : InboundContext) (b : bool) : InboundContext := {| m with m_PreMatch := b |}.

Section blind.
Context `{L : Libs} (env : RuleEnv).

Lemma item_dialBlind i m : RuleItem_Match env i (dialBlind m) = RuleItem_Match env i m.
Proof. by destruct i. Qed.

Lemma respects_dialBlind :
  respects env (fun m m' => dialBlind m = dialBlind m') (fun _ => true) (fun _ _ => true).
Proof.
  split.
  - intros m m' H. exact (f_equal m_IPCIDRMatchSource H).
  - intros i m m' H. exact (f_equal (withFlags i) H).
  - intros m m' H. exact (f_equal ResetRuleCache H).
  - intros i m m' _ H. by rewrite <-(item_dialBlind i m), <-(item_dialBlind i m'), H.
  - intros tag m m' _ H. split; [exact (f_equal (responseOf tag) H)|].
    intros msg. exact (f_equal (fun m => onResponse m msg) H).
Qed.

Lemma spec_dialBlind h m : spec_rule env h (dialBlind m) = spec_rule env h m.
Proof. apply (blind_rule _ _ _ _ respects_dialBlind); [by apply good_all|done]. Qed.
End blind.

(** ** The same rule *)

Section prematch.
Context `{L : Libs} `{Sn : Sniffing} (env : RuleEnv) (r : Router).

(** The metadata without what is only dialing, the rule cache and the flag. *)
Definition policyView (m : InboundContext) : InboundContext :=
  set_PreMatch (ResetRuleCache (dialBlind m)) false.

(** The actions [PreMatch] treats as [matchRule] does. *)
Definition sameTreatment (a : RuleAction) : Prop :=
  match a with
  | RuleActionRoute _ o | ActRouteOptions o => sa_IsValid (OverrideAddress o) = false
  | RuleActionReject _ _ | RuleActionHijackDNS | ActResolve _ => True
  | _ => False
  end.

(** No rule asks an outbound that looks at the flag ([preferred_by]). *)
Definition flagBlind (h : HeadlessRule) : Prop :=
  forall m, spec_rule env h (set_PreMatch m false) = spec_rule env h m.

Definition preMatchRule (h : HeadlessRule) : Prop :=
  flagBlind h /\ exists a, rule_Action h = Some a /\ sameTreatment a.

Definition lookupView : Prop :=
  forall m name o, rt_Lookup r (policyView m) name o = rt_Lookup r m name o.

Lemma rule_view h m : flagBlind h -> spec_rule env h (policyView m) = spec_rule env h (ResetRuleCache m).
Proof.
  intros H. unfold policyView. rewrite H.
  change (ResetRuleCache (dialBlind m)) with (dialBlind (ResetRuleCache m)). apply spec_dialBlind.
Qed.

(** Matching does not change the view, and its verdict depends on it only. *)
Lemma match_view h m :
  flagBlind h -> notIgnoring m ->
  fst (HeadlessRule_Match env h (ResetRuleCache m)) = spec_rule env h (policyView m)
  /\ policyView (snd (HeadlessRule_Match env h (ResetRuleCache m))) = policyView m
  /\ notIgnoring (snd (HeadlessRule_Match env h (ResetRuleCache m))).
Proof.
  intros Hb Hi. destruct (match_step env h m Hi) as [Hv Hf]. rewrite (rule_view h m Hb). split; [done|].
  generalize dependent (snd (HeadlessRule_Match env h (ResetRuleCache m))). intros m1 Hf. split.
  - change (policyView (ResetRuleCache m1) = policyView (ResetRuleCache m)). by rewrite Hf.
  - unfold notIgnoring in *. rewrite <-Hi.
    change (ignoreOf (ResetRuleCache m1) = ignoreOf (ResetRuleCache m)). by rewrite Hf.
Qed.

Lemma when_view b f m :
  (forall m, policyView (f m) = policyView m) -> policyView (when b f m) = policyView m.
Proof. unfold when. intros H. by destruct b. Qed.

Lemma when_commute b f m :
  (forall m, policyView (f m) = f (policyView m)) -> policyView (when b f m) = when b f (policyView m).
Proof. unfold when. intros H. by destruct b. Qed.

Lemma override_view m o :
  policyView (applyRouteOptionsOverride m o) = applyRouteOptionsOverride (policyView m) o.
Proof. unfold applyRouteOptionsOverride. by rewrite !when_commute. Qed.

Lemma routeOptions_view m o :
  sa_IsValid (OverrideAddress o) = false ->
  policyView (applyRouteOptions m o) = policyView (applyRouteOptionsOverride m o).
Proof.
  intros Ho. unfold applyRouteOptions, applyTLSOptions. rewrite !when_view by done.
  unfold applyUDPOptions. rewrite when_commute by done. rewrite !when_view by done.
  unfold applyNetworkOptions. rewrite !when_view by done. rewrite !override_view.
  unfold noteOriginalDestination. rewrite Ho. unfold when at 2. rewrite when_view by done.
  unfold applyRouteOptionsOverride. rewrite Ho. unfold when at 1 2. by destruct (0 <? ro_UDPTimeout o).
Qed.

Lemma preMatchFlow_view m packetDestination tag :
  preMatchFlow r (policyView m) packetDestination tag = preMatchFlow r m packetDestination tag.
Proof. done. Qed.

Lemma resolve_view a m m' :
  lookupView -> policyView m = policyView m' ->
  match actionResolve r a m, actionResolve r a m' with
  | Ok m1, Ok m1' => policyView m1 = policyView m1' /\ ignoreOf m1 = ignoreOf m /\ ignoreOf m1' = ignoreOf m'
  | Err e, Err e' => e = e'
  | _, _ => False
  end.
Proof.
  intros Hl Hv. unfold actionResolve.
  assert (Hd : m_Destination m = m_Destination m')
    by (change (m_Destination (policyView m) = m_Destination (policyView m')); by rewrite Hv).
  rewrite Hd. destruct (sa_IsDomain _); [|done]. destruct (if negb _ then _ else _) as [t|]; [|done].
  cbn [result_bind]. rewrite <-(Hl m), <-(Hl m'), Hv. destruct (rt_Lookup _ _ _ _) as [l|]; [|done].
  cbn [result_bind]. split; [|done].
  change (set_DestinationAddresses (policyView m) l = set_DestinationAddresses (policyView m') l). by rewrite Hv.
Qed.

(** What [PreMatch] says of the rule the router selects. *)
Definition preMatchVerdict (now : Z) (packetDestination : Socksaddr) (drops : gmap nat (list Z))
    (res : result (option (nat * HeadlessRule) * InboundContext * Input)) : result PreMatchResult :=
  match res with
  | Err _ => Ok (preMatchOf PreMatchReject)
  | Ok (None, m, _) => preMatchFlow r m packetDestination ""
  | Ok (Some (k, h), m, _) =>
      match rule_Action h with
      | Some (RuleActionRoute tag _) => preMatchFlow r m packetDestination tag
      | Some (RuleActionReject method noDrop) =>
          let? e := fst (RuleActionReject_Error method noDrop now (default [] (drops !! k))) in
          Ok (preMatchReject m e)
      | Some RuleActionHijackDNS =>
          Ok (preMatchOf (if String.eqb (m_Network m) NetworkUDP then PreMatchHijackDNS else PreMatchContinue))
      | _ => Ok (preMatchOf PreMatchContinue)
      end
  end.

Lemma network_view m m' : policyView m = policyView m' -> m_Network m = m_Network m'.
Proof. intros H. change (m_Network (policyView m) = m_Network (policyView m')). by rewrite H. Qed.

(** Evaluate whether an action of known kind is final. *)
Ltac eval_final :=
  match goal with |- context [isFinal ?a] =>
    let b := eval vm_compute in (isFinal a) in change (isFinal a) with b; cbn iota end.

Lemma preMatchRules_verdict now packetDestination firstPacket drops i rules :
  lookupView -> Forall preMatchRule rules -> forall n m m', policyView m = policyView m' ->
  notIgnoring m -> notIgnoring m' ->
  fst (preMatchRules env r now packetDestination firstPacket rules n m drops)
  = preMatchVerdict now packetDestination drops (matchRules env r rules n m' i).
Proof.
  intros Hl. induction 1 as [|h rules [Hb (a & Ha & Hs)] Hrs IH]; intros n m m' Hv Hi Hi';
    cbn [preMatchRules matchRules].
  { cbn [fst preMatchVerdict]. by rewrite <-(preMatchFlow_view m), <-(preMatchFlow_view m'), Hv. }
  destruct (match_view h m Hb Hi) as (H1 & H2 & H3). destruct (match_view h m' Hb Hi') as (H1' & H2' & H3').
  destruct (HeadlessRule_Match env h (ResetRuleCache m)) as [matched m1].
  destruct (HeadlessRule_Match env h (ResetRuleCache m')) as [matched' m1']. cbn [fst snd] in *.
  assert (matched' = matched) as -> by congruence. assert (Hv1 : policyView m1 = policyView m1') by congruence.
  clear H1 H1' H2 H2' Hv Hi Hi' m m'. destruct matched; cbn [negb]; [|by apply IH]. rewrite Ha.
  destruct a; try done; cbn [runAction routeOptionsOfAction result_bind]; cbn [sameTreatment] in Hs; eval_final.
  - cbn [fst preMatchVerdict]. rewrite Ha.
    by rewrite <-preMatchFlow_view, <-(preMatchFlow_view (applyRouteOptions _ _)), routeOptions_view,
      !override_view, Hv1.
  - apply IH; [by rewrite routeOptions_view, !override_view, Hv1| |].
    + unfold notIgnoring in *. rewrite <-H3. unfold applyRouteOptionsOverride.
      change (ignoreOf (when (0 <? ro_UDPTimeout o) (fun m => set_UDPTimeout m (ro_UDPTimeout o))
        (when (0 <? OverridePort o) (fun m => set_Destination m (mkSocksaddr (sa_Addr (m_Destination m)) (OverridePort o) (sa_Fqdn (m_Destination m))))
        (when (sa_IsValid (OverrideAddress o)) (fun m => set_Destination m (mkSocksaddr (sa_Addr (OverrideAddress o)) (sa_Port (m_Destination m)) (sa_Fqdn (OverrideAddress o)))) m1)))
        = ignoreOf m1). by rewrite !when_ignore.
    + unfold notIgnoring in *. rewrite <-H3'. apply applyRouteOptions_ignore.
  - cbn [preMatchVerdict]. rewrite Ha. destruct (RuleActionReject_Error _ _ _ _) as [e c]. cbn [fst].
    destruct e as [e|]; [|done]. cbn [result_bind]. unfold preMatchReject. by rewrite (network_view _ _ Hv1).
  - cbn [fst preMatchVerdict]. rewrite Ha, (network_view _ _ Hv1). by destruct (String.eqb _ _).
  - pose proof (resolve_view r0 m1 m1' Hl Hv1) as Hr.
    destruct (actionResolve r r0 m1) as [m2|], (actionResolve r r0 m1') as [m2'|]; try done.
    destruct Hr as (Hv2 & Hg & Hg'). cbn [result_bind]. apply IH; unfold notIgnoring, ignoreOf in *; congruence.
Qed.

(** Preparing the metadata does not depend on the flag. *)
Definition flagged (m : InboundContext) : InboundContext := set_PreMatch m true.

Lemma searchProcess_flagged m : searchProcessInfo r (flagged m) = flagged (searchProcessInfo r m).
Proof.
  unfold searchProcessInfo. destruct (rt_processSearcher r) as [f|]; [|done].
  change (m_ProcessInfo (flagged m)) with (m_ProcessInfo m). change (m_Source (flagged m)) with (m_Source m).
  destruct (_ || _); [done|]. change (m_Network (flagged m)) with (m_Network m).
  change (m_OriginDestination (flagged m)) with (m_OriginDestination m).
  change (m_Destination (flagged m)) with (m_Destination m). by destruct (f _ _ _).
Qed.

Lemma lookupNeighbor_flagged m : lookupNeighbor r (flagged m) = flagged (lookupNeighbor r m).
Proof.
  unfold lookupNeighbor. destruct (rt_neighborResolver r) as [[mac host]|]; [|done].
  change (m_SourceMACAddress (flagged m)) with (m_SourceMACAddress m).
  change (m_Source (flagged m)) with (m_Source m). destruct (_ || _); [done|]. cbn zeta.
  by destruct (mac _), (host _).
Qed.

Lemma prepare_flagged m :
  prepareMatchMetadata r (flagged m) = (let? m' := prepareMatchMetadata r m in Ok (flagged m')).
Proof.
  unfold prepareMatchMetadata. rewrite searchProcess_flagged, lookupNeighbor_flagged.
  generalize (lookupNeighbor r (searchProcessInfo r m)). intros m1.
  change (fakeIPOf r (flagged m1)) with (fakeIPOf r m1).
  assert (Hset : forall m, setIPVersion (flagged m) = flagged (setIPVersion m)).
  { intros m2. unfold setIPVersion. change (m_Destination (flagged m2)) with (m_Destination m2).
    by repeat case_match. }
  change (m_Destination (flagged m1)) with (m_Destination m1). change (m_Domain (flagged m1)) with (m_Domain m1).
  destruct (fakeIPOf r m1) as [store|].
  - destruct (fl_Lookup store _) as [d|]; [|done]. destruct (negb _); cbn [result_bind]; by rewrite <-Hset.
  - destruct (String.eqb _ _); [destruct (rt_LookupReverseMapping r _)|]; cbn [result_bind]; by rewrite <-Hset.
Qed.

Lemma prepare_ignore m m' : prepareMatchMetadata r m = Ok m' -> ignoreOf m' = ignoreOf m.
Proof.
  unfold prepareMatchMetadata.
  assert (H0 : ignoreOf (lookupNeighbor r (searchProcessInfo r m)) = ignoreOf m).
  { unfold lookupNeighbor, searchProcessInfo. by repeat case_match. }
  revert H0. generalize (lookupNeighbor r (searchProcessInfo r m)). intros m1 H0 H.
  assert (Hset : forall m, ignoreOf (setIPVersion m) = ignoreOf m).
  { intros m2. unfold setIPVersion. by repeat case_match. }
  apply result_bind_Ok in H as (m2 & H & [= <-]). rewrite Hset, <-H0. repeat case_match; by simplify_eq.
Qed.

(** C11 [PreMatch] judges a flow by the rule the router would select for it: with
    rules that route, set options, reject, hijack or resolve (no sniffing, no
    bypass, no direct action, no override address) and that do not look at the
    pre-match flag (as preferred_by does for a bridge outbound), and with a DNS
    router whose lookups do not depend on the flag, the rule cache and the dial
    options, for metadata that does not ignore destination addresses, its verdict is a function of the rule, its
    index and the metadata [matchRule] ends with.  When the metadata cannot be
    prepared it leaves the flow to the router, which reports the error. *)
Theorem prematch_agrees (now : Z) (m : InboundContext) (firstPacket : list Z)
    (drops : gmap nat (list Z)) (i : Input)
    (Hlookup : lookupView) (Hrules : Forall preMatchRule (rt_rules r)) (Hmode : notIgnoring m) :
  fst (PreMatch env r now m firstPacket drops) =
  match prepareMatchMetadata r m with
  | Ok _ => preMatchVerdict now (m_Destination m) drops (matchRule env r m i)
  | Err _ => Ok (preMatchOf PreMatchContinue)
  end.
Proof.
  unfold PreMatch, matchRule. change {| m with m_PreMatch := true |} with (flagged m).
  rewrite prepare_flagged. destruct (prepareMatchMetadata r m) as [m1|] eqn:E; [|done]. cbn [result_bind].
  apply prepare_ignore in E. unfold notIgnoring, ignoreOf in *.
  apply preMatchRules_verdict; try done; unfold notIgnoring; by rewrite <-Hmode, <-E.
Qed.
End prematch.
