(* ===== verification/RouterExamples.v ===== *)
(** * Runs of the router

    A router with rules as [NewRule] builds them from options: witnesses of the
    theorems on routing, and what two sniff actions that both read do to the
    traffic. *)

From S2P Require Import Prelude.
From S2P Require Import GoText.
From S2P Require Import NetIP.
From S2P Require Import Libs.
From S2P Require Import Metadata.
From S2P Require Import RuleItems.
From S2P Require Import RuleAction.
From S2P Require Import RuleEngine.
From S2P Require Import RuleSpec.
From S2P Require Import RuleTheorems.
From S2P Require Import RuleOptions.
From S2P Require Import RuleBuild.
From S2P Require Import RuleBuildTheorems.
From S2P Require Import FakeIP.
From S2P Require Import FakeIPTheorems.
From S2P Require Import Sniff.
From S2P Require Import Router.
From S2P Require Import RouterTheorems.
From S2P Require Import RouterDispatch.
From S2P Require Import RouterPreMatch.
Local Open Scope string_scope.
Local Open Scope Z_scope.

Module RouterRuns.
#[local] Existing Instance ref_libs.
Import RuleExamples.

(** Sniffers that recognise nothing; QUIC asks for more on a packet that starts
    with 192. *)
Definition refPacketSniff (s : PacketSniffer) (packet : list Z) (f : Sniffed) : option GoError * Sniffed :=
  match s, packet with
  | QUICClientHello, 192 :: _ => (Some ErrNeedMoreData, f)
  | _, _ => (Some ErrInvalid, f)
  end.
Definition isWantMore (e : GoError) : bool :=
  match e with E_New s | E_Cause (E_New s) _ => String.eqb s "need more data" | _ => false end.
Definition refErrors (l : list GoError) : option GoError :=
  if existsb isWantMore l then Some ErrNeedMoreData else head l.
Lemma refErrors_some e l : refErrors (e :: l) <> None.
Proof. unfold refErrors. by destruct (existsb _ _). Qed.
Lemma refErrors_is l e : refErrors l = Some e -> isWantMore e = existsb isWantMore l.
Proof.
  unfold refErrors. destruct (existsb isWantMore l) eqn:E; [by intros [= <-]|].
  destruct l as [|e' l]; [done|]. intros [= <-]. cbn in E. by apply orb_false_iff in E as [-> _].
Qed.
#[local] Instance ref_sniffing : Sniffing := {|
  stream_sniff _ _ f := (Some ErrInvalid, f);
  packet_sniff := refPacketSniff;
  packetCapacity := 16384;
  E_Errors := refErrors;
  needMoreData := isWantMore;
  E_Errors_nil := eq_refl;
  E_Errors_some := refErrors_some;
  E_Errors_is := refErrors_is;
  needMoreData_self := eq_refl;
  needMoreData_cause _ := eq_refl;
  needMoreData_invalid := eq_refl |}.

(** A rule on the network and the port. *)
Definition rawRule (network : list string) (port : list Z) : RawDefaultRule :=
  mkRawDefaultRule [] 0 network [] [] [] [] [] [] [] [] [] [] [] false [] false [] [] port [] [] [] [] [] []
    [] [] "" [] false false [] [] None None [] [] [] [] [] false false false false.
Definition ruleOptions (network : list string) (port : list Z) (a : RuleActionOptions) : RuleOptions :=
  mkRuleOptions RuleTypeDefault (mkDefaultRuleOptions (rawRule network port) a)
    (mkLogicalRuleOptions "" [] false OptNone).
Definition noRouteOptions : RawRouteOptionsActionOptions :=
  mkRawRouteOptions "" 0 None 0 false false 0 false 0 false "" "".

Definition dial (_ : DirectActionOptions) : option GoError := None.
Definition built (o : RuleOptions) : list HeadlessRule :=
  match NewRule true dial o true with Ok h => [h] | Err _ => [] end.

Definition direct : Outbound := mkOutbound "direct" [NetworkTCP; NetworkUDP] None None.
Definition proxy : Outbound := mkOutbound "proxy" [NetworkTCP] None None.
Definition outbounds (tag : string) : option Outbound :=
  if String.eqb tag "direct" then Some direct else if String.eqb tag "proxy" then Some proxy else None.

Definition routerWith (rules : list RuleOptions) (fakeip : option FakeIPLookup) : Router :=
  mkRouter (concat (map built rules)) (fun _ => None) outbounds (Some direct)
    (mkMagicNames "sp.mux.sing-box.arpa" "v1.mux.cool" "sp.v2.udp-over-tcp.arpa" "sp.udp-over-tcp.arpa")
    None None [] None fakeip (fun _ => None) (fun _ => None) (fun _ _ _ => Ok [Addr4 16843009]).

Definition to (addr : Addr) (port : Z) (fqdn : string) : InboundContext :=
  set_Destination InboundContext_zero (mkSocksaddr addr port fqdn).

(** Sniff TLS, send port 443 to the proxy, hijack DNS. *)
Definition basicRules : list RuleOptions :=
  [ruleOptions [NetworkTCP] [] (OptSniff ["tls"] 0);
   ruleOptions [] [53] OptHijackDNS;
   ruleOptions [] [443] (OptRoute "proxy" noRouteOptions)].
Definition basic : Router := routerWith basicRules None.
Definition web : InboundContext := to AddrNone 443 "www.example.org".
Definition overTCP (m : InboundContext) : InboundContext := {| m with m_Network := NetworkTCP |}.
Definition stream : list readResult := [ReadData [1; 2]; ReadData [3; 4]].

Lemma built_route o :
  (match NewRule true dial o true with Ok h =>
     match rule_Action h with Some (RuleActionReject _ _) => False | _ => True end | Err _ => True end) ->
  Forall (routeRule true dial) (built o).
Proof.
  unfold built. destruct (NewRule _ _ _ _) as [h|] eqn:E; [|constructor].
  intros H. constructor; [|constructor]. split; [by exists o|]. intros method noDrop Ha. by rewrite Ha in H.
Qed.

Lemma basic_route : Forall (routeRule true dial) (rt_rules basic).
Proof. cbn [basic routerWith rt_rules basicRules map concat]. rewrite !Forall_app. by repeat split; [apply built_route; vm_compute..|]. Qed.

(** What was selected, and the traffic with what was peeked. *)
Definition outcome (res : result (option (nat * HeadlessRule) * InboundContext * Input)) :
    option (option nat * Input) :=
  match res with Ok (sel, _, i) => Some (option_map fst sel, i) | Err _ => None end.

(** The third rule is selected, after the sniff read two bytes. *)
Lemma route_first_match_witness :
  outcome (matchRules env0 basic (rt_rules basic) 0 (overTCP web) (InputConn None [] stream))
    = Some (Some 2%nat, InputConn None [[1; 2]] [ReadData [3; 4]])
  /\ firstMatch env0 basic (rt_rules basic) 0 (ResetRuleCache (overTCP web)) (InputConn None [] stream)
       (matchRules env0 basic (rt_rules basic) 0 (overTCP web) (InputConn None [] stream)).
Proof.
  split; [vm_compute; reflexivity|].
  apply (route_first_match env0 basic (overTCP web) (InputConn None [] stream));
    [intros m name o; reflexivity|reflexivity].
Defined.

Lemma route_dispatch_witness :
  goodRoute basic false web (fst (routeConnection env0 basic 0 None stream web ∅))
  /\ goodRoute basic true web
       (fst (routePacketConnection env0 basic 0 [PacketRead [192] (m_Destination web)] web ∅)).
Proof.
  apply (route_dispatch env0 true dial basic basic_route); [discriminate|].
  constructor; [exact I|constructor].
Defined.

(** ** FakeIP *)

Lemma fakeip_routed_witness :
  exists a st' m', Store_Create "a.example" false FakeIPExamples.st0 = Ok (a, None, st')
  /\ prepareMatchMetadata (routerWith basicRules (Some (lookupOf st'))) (to a 443 "") = Ok m'
  /\ m_Destination m' = mkSocksaddr AddrNone 443 "a.example".
Proof.
  destruct (Store_Create "a.example" false FakeIPExamples.st0) as [[[a e] st']|] eqn:E; [|by vm_compute in E].
  assert (He : e = None) by (vm_compute in E; by injection E as _ <- _). subst e.
  destruct (fakeip_routed FakeIPExamples.s0 FakeIPExamples.st0 st' "a.example" false a
              (routerWith basicRules (Some (lookupOf st'))) (to a 443 "")
              FakeIPExamples.st0_ok E ltac:(done) eq_refl eq_refl) as (m' & Hm & Hd & _).
  exists a, st', m'. by split_and!.
Defined.

(** ** The stream *)

Definition connOf (res : result (Routed CachedConn)) : option (string * CachedConn) :=
  match res with Ok (ToOutbound o _ conn) => Some (ob_Tag o, conn) | _ => None end.
Definition packetConnOf (res : result (Routed CachedPacketConn)) : option (string * CachedPacketConn) :=
  match res with Ok (ToOutbound o _ conn) => Some (ob_Tag o, conn) | _ => None end.

Lemma sniffed_stream_kept_witness :
  exists conn, connOf (fst (routeConnection env0 basic 0 None stream web ∅)) = Some ("proxy", conn)
  /\ connBytes conn = [1; 2; 3; 4].
Proof.
  destruct (routeConnection env0 basic 0 None stream web ∅) as [res drops'] eqn:E.
  assert (Hc : connOf res = Some ("proxy", mkCachedConn [[1; 2]] [ReadData [3; 4]])).
  { change res with (fst (res, drops')). rewrite <-E. vm_compute. reflexivity. }
  destruct res as [[tag m' conn|m' conn|o m' conn|]|]; try discriminate Hc.
  exists conn. split; [cbn [fst connOf]; cbn [connOf] in Hc; injection Hc as -> ->; reflexivity|].
  destruct (sniffed_stream_kept env0 basic 0 None stream web m' ∅ drops' o conn E) as [_ H].
  rewrite H; [reflexivity|]. injection Hc as _ ->. cbn. lia.
Defined.

(** ** Pre-match *)

Definition plainRules : list RuleOptions :=
  [ruleOptions [] [53] OptHijackDNS; ruleOptions [] [443] (OptRoute "proxy" noRouteOptions)].
Definition plainRouter : Router := routerWith plainRules None.

Definition portRule (port : Z) (a : RuleAction) : HeadlessRule :=
  DefaultRule (appendItem F_destinationPort (ItemPort (NewPortItem false [port])) (emptyRule false (Some a))).

Lemma portRule_prematch port a : sameTreatment a -> preMatchRule env0 (portRule port a).
Proof.
  intros Ha. split; [|by exists a]. intros m. cbn. unfold groupHolds.
  change (m_IPCIDRMatchSource (set_PreMatch m false)) with (m_IPCIDRMatchSource m).
  by destruct (m_IPCIDRMatchSource m).
Qed.

Lemma plain_rules :
  exists o, rt_rules plainRouter = [portRule 53 RuleActionHijackDNS; portRule 443 (RuleActionRoute "proxy" o)]
  /\ sa_IsValid (OverrideAddress o) = false.
Proof. by eexists. Qed.

Lemma plain_prematch : Forall (preMatchRule env0) (rt_rules plainRouter).
Proof.
  destruct plain_rules as (o & -> & Ho). by repeat constructor; apply portRule_prematch.
Qed.

Lemma prematch_agrees_witness :
  fst (PreMatch env0 plainRouter 0 web [] ∅)
  = match prepareMatchMetadata plainRouter web with
    | Ok _ => preMatchVerdict plainRouter 0 (m_Destination web) ∅ (matchRule env0 plainRouter web (InputConn None [] stream))
    | Err _ => Ok (preMatchOf PreMatchContinue)
    end.
Proof.
  apply (prematch_agrees env0 plainRouter 0 web [] ∅ (InputConn None [] stream));
    [intros m name o; reflexivity|exact plain_prematch|reflexivity].
Defined.

(** ** Sniffing twice *)

(** Two sniff actions with other sniffers each. *)
Definition twiceRules : list RuleOptions :=
  [ruleOptions [] [] (OptSniff ["tls"; "quic"] 0); ruleOptions [] [] (OptSniff ["http"; "quic"] 0)].
Definition twice : Router := routerWith twiceRules None.
Definition datagram : list packetRead := [PacketRead [192; 1] (mkSocksaddr (Addr4 1) 443 "")].

(** Two sniff actions that both read do harm: of a stream the outbound reads
    what the second one peeked before what the first one peeked, and a packet
    whose sniffing needs more data, of which no more comes, is sent twice. *)
Theorem sniff_twice :
  option_map (fun x => connBytes (snd x)) (connOf (fst (routeConnection env0 twice 0 None stream web ∅)))
    = Some [3; 4; 1; 2]
  /\ inputBytes stream = [1; 2; 3; 4]
  /\ option_map (fun x => map fst (cp_cached (snd x)))
       (packetConnOf (fst (routePacketConnection env0 twice 0 datagram web ∅)))
    = Some [[192; 1]; [192; 1]].
Proof. vm_compute. done. Qed.
End RouterRuns.
