(* ===== verification/DNSValidate.v ===== *)
(** * The mode and the validation of DNS rules

    [dns/router.go] decides from the options whether the rules run in the legacy
    mode, refuses rules that make no sense without it, builds and starts the
    rules, and judges updates of rule-sets while it runs. *)

From S2P Require Import Prelude.
From S2P Require Import GoText.
From S2P Require Import NetIP.
From S2P Require Import Libs.
From S2P Require Import Metadata.
From S2P Require Import RuleItems.
From S2P Require Import RuleAction.
From S2P Require Import RuleEngine.
From S2P Require Import RuleOptions.
From S2P Require Import RuleBuild.
From S2P Require Import RuleStart.
From S2P Require Import DNSQuery.
Local Open Scope string_scope.
Local Open Scope Z_scope.

(** [deprecated.Note], the part its messages show; every note used here has a link. *)
Record Note := mkNote {
  note_Description : string; note_DeprecatedVersion : string; note_ScheduledVersion : string;
  note_MigrationLink : string }.
Definition MessageWithLink `{L : Libs} (n : Note) : string :=
  F_ToString [note_Description n; " is deprecated in sing-box "; note_DeprecatedVersion n;
    " and will be removed in sing-box "; note_ScheduledVersion n;
    ", checkout documentation for migration: "; note_MigrationLink n].
Definition OptionLegacyDNSAddressFilter : Note :=
  mkNote "Legacy Address Filter Fields in DNS rules" "1.14.0" "1.16.0"
    "https://sing-box.sagernet.org/migration/#migrate-address-filter-fields-to-response-matching".
Definition OptionLegacyDNSRuleStrategy : Note :=
  mkNote "Legacy `strategy` DNS rule action option" "1.14.0" "1.16.0"
    "https://sing-box.sagernet.org/migration/#migrate-dns-rule-action-strategy-to-rule-items".

(** ** Actions in options *)

Definition actionName (a : DNSRuleActionVariant) : string :=
  match a with
  | DOptNone => ""
  | DOptRoute _ _ _ => RuleActionTypeRoute
  | DOptEvaluate _ _ _ _ => RuleActionTypeEvaluate
  | DOptRespond => RuleActionTypeRespond
  | DOptRouteOptions _ => RuleActionTypeRouteOptions
  | DOptReject _ _ => RuleActionTypeReject
  | DOptPredefined _ _ _ _ => RuleActionTypePredefined
  | DOptUnknown name => name
  end.

Definition dnsRuleActionDisablesLegacyDNSMode (action : DNSRuleActionOptions) : bool :=
  if da_Race action then true
  else match da_Options action with
       | DOptRoute _ speculative o | DOptEvaluate _ _ speculative o => dro_DisableOptimisticCache o || speculative
       | DOptRouteOptions o => dro_DisableOptimisticCache o
       | _ => false
       end.

Definition dnsRuleActionHasStrategy (action : DNSRuleActionOptions) : bool :=
  match routeOptionsOf (da_Options action) with
  | Some o => negb (dro_Strategy o =? DomainStrategyAsIS)
  | None => false
  end.

(** The action of a rule by its type; [None] for a type that is neither. *)
Definition ruleActionOf (rule : DNSRuleOptions) : option DNSRuleActionOptions :=
  match rule with
  | mkDNSRuleOptions typ d (mkLogicalDNSRuleOptions _ _ _ a) =>
      if String.eqb typ "" || String.eqb typ RuleTypeDefault then Some (dd_Action d)
      else if String.eqb typ RuleTypeLogical then Some a
      else None
  end.
Definition dnsRuleActionType (rule : DNSRuleOptions) : string :=
  match ruleActionOf rule with
  | None => ""
  | Some a => let name := actionName (da_Options a) in if String.eqb name "" then RuleActionTypeRoute else name
  end.
Definition dnsRuleActionServer (rule : DNSRuleOptions) : string :=
  match ruleActionOf rule with
  | None => ""
  | Some a => match da_Options a with DOptEvaluate server _ _ _ | DOptRoute server _ _ => server | _ => "" end
  end.
Definition dnsRuleActionEvaluateTag (rule : DNSRuleOptions) : string :=
  match ruleActionOf rule with
  | None => ""
  | Some a => match da_Options a with DOptEvaluate _ tag _ _ => tag | _ => "" end
  end.
Definition dnsRuleActionSpeculative (rule : DNSRuleOptions) : bool :=
  match ruleActionOf rule with
  | None => false
  | Some a => match da_Options a with
              | DOptEvaluate _ _ speculative _ | DOptRoute _ speculative _ => speculative | _ => false end
  end.
Definition dnsRuleRace (rule : DNSRuleOptions) : bool :=
  match ruleActionOf rule with None => false | Some a => da_Race a end.

(** ** The mode *)

Definition defaultRuleNeedsLegacyDNSModeFromAddressFilter (rule : RawDefaultDNSRule) : bool :=
  if d_RuleSetIPCIDRAcceptEmpty rule then true
  else negb (MatchResponse_IsEnabled (d_MatchResponse rule))
       && (d_IPAcceptAny rule || nonEmpty (d_IPCIDR rule) || d_IPIsPrivate rule).

Definition hasResponseMatchFields (rule : RawDefaultDNSRule) : bool :=
  isSome (d_ResponseRcode rule) || nonEmpty (d_ResponseAnswer rule)
  || nonEmpty (d_ResponseNs rule) || nonEmpty (d_ResponseExtra rule).

Definition defaultRuleDisablesLegacyDNSMode (rule : DefaultDNSRuleOptions) : bool :=
  let raw := dd_Raw rule in
  let name := actionName (da_Options (dd_Action rule)) in
  MatchResponse_IsEnabled (d_MatchResponse raw) || hasResponseMatchFields raw
  || String.eqb name RuleActionTypeEvaluate || String.eqb name RuleActionTypeRespond
  || (0 <? d_IPVersion raw) || nonEmpty (d_QueryType raw).

Record dnsRuleModeFlags := mkModeFlags { disabled : bool; needed : bool; neededFromStrategy : bool }.
Definition noFlags : dnsRuleModeFlags := mkModeFlags false false false.
Definition merge (f other : dnsRuleModeFlags) : dnsRuleModeFlags :=
  mkModeFlags (disabled f || disabled other) (needed f || needed other)
    (neededFromStrategy f || neededFromStrategy other).

(** The metadata of the rule-sets of the route router, if there is one, and the
    metadata to be used in their place. *)
Definition lookupDNSRuleSetMetadata (router : option (string -> option RuleSetMetadata))
    (metadataOverrides : gmap string RuleSetMetadata) (tag : string) : result RuleSetMetadata :=
  match metadataOverrides !! tag with
  | Some metadata => Ok metadata
  | None =>
      match router with
      | None => Err (GoPanic "nil router")
      | Some ruleSet => result_of_option (ruleSet tag) (E_New ("rule-set not found: " ++ tag))
      end
  end.

Section validate.
Context `{L : Libs}.
(** Whether there is a route router, and [lookupDNSRuleSetMetadata]. *)
Context (hasRouter : bool) (lookup : string -> result RuleSetMetadata).

(** The loop over the rule-sets of a rule. *)
Fixpoint ruleSetFlags (matchSource : bool) (tags : list string) (flags : dnsRuleModeFlags) :
    result dnsRuleModeFlags :=
  match tags with
  | [] => Ok flags
  | tag :: tags =>
      let? metadata := lookup tag in
      ruleSetFlags matchSource tags
        (mkModeFlags (disabled flags || ContainsDNSQueryTypeRule metadata)
           (needed flags || negb matchSource && ContainsIPCIDRRule metadata) (neededFromStrategy flags))
  end.
Definition dnsRuleModeRequirementsInDefaultRule (rule : DefaultDNSRuleOptions) : result dnsRuleModeFlags :=
  let strategy := dnsRuleActionHasStrategy (dd_Action rule) in
  let flags := mkModeFlags
    (defaultRuleDisablesLegacyDNSMode rule || dnsRuleActionDisablesLegacyDNSMode (dd_Action rule))
    (defaultRuleNeedsLegacyDNSModeFromAddressFilter (dd_Raw rule) || strategy) strategy in
  if negb (nonEmpty (d_RuleSet (dd_Raw rule))) then Ok flags
  else if negb hasRouter then Err (E_New "router service not found")
  else ruleSetFlags (d_RuleSetIPCIDRMatchSource (dd_Raw rule)) (d_RuleSet (dd_Raw rule)) flags.

(** The flags of a list of rules merged into [flags]. *)
Definition mergeFlags (requirements : DNSRuleOptions -> result dnsRuleModeFlags) (message : nat -> string) :
    nat -> list DNSRuleOptions -> dnsRuleModeFlags -> result dnsRuleModeFlags :=
  fix go i rules flags :=
    match rules with
    | [] => Ok flags
    | rule :: rules =>
        let? ruleFlags := result_cause (requirements rule) (message i) in
        go (S i) rules (merge flags ruleFlags)
    end.

Fixpoint dnsRuleModeRequirementsInRule (rule : DNSRuleOptions) : result dnsRuleModeFlags :=
  match rule with
  | mkDNSRuleOptions typ d (mkLogicalDNSRuleOptions _ rules _ a) =>
      if String.eqb typ "" || String.eqb typ RuleTypeDefault then dnsRuleModeRequirementsInDefaultRule d
      else if String.eqb typ RuleTypeLogical then
        let name := actionName (da_Options a) in
        let strategy := dnsRuleActionHasStrategy a in
        mergeFlags dnsRuleModeRequirementsInRule subRuleMessage 0 rules
          (mkModeFlags (String.eqb name RuleActionTypeEvaluate || String.eqb name RuleActionTypeRespond
                        || dnsRuleActionDisablesLegacyDNSMode a) strategy strategy)
      else Ok noFlags
  end.
Definition dnsRuleMessage (i : nat) : string := indexMessage "dns rule[" i "]".
Definition dnsRuleModeRequirements (rules : list DNSRuleOptions) : result dnsRuleModeFlags :=
  mergeFlags dnsRuleModeRequirementsInRule dnsRuleMessage 0 rules noFlags.

Definition resolveLegacyDNSMode (rules : list DNSRuleOptions) : result (bool * dnsRuleModeFlags) :=
  let? flags := dnsRuleModeRequirements rules in
  if disabled flags && neededFromStrategy flags
  then Err (E_New (MessageWithLink OptionLegacyDNSRuleStrategy))
  else if disabled flags then Ok (false, flags)
  else Ok (needed flags, flags).

(** ** Validation without the legacy mode *)

Record dnsRuleResponseUse := mkResponseUse { needsAnonymous : bool; referencedTags : list string }.
Definition noUse : dnsRuleResponseUse := mkResponseUse false [].

Definition responseFieldsMessage : string :=
  "Response Match Fields (ip_cidr, ip_is_private, ip_accept_any, response_rcode, response_answer, response_ns, response_extra) require match_response to be enabled".

(** No rule-set of the rule is about addresses only. *)
Fixpoint noPureIPSet (tags : list string) : result unit :=
  match tags with
  | [] => Ok tt
  | tag :: tags =>
      let? metadata := lookup tag in
      if ContainsIPCIDRRule metadata && negb (ContainsNonIPCIDRRule metadata)
      then Err (E_New (MessageWithLink OptionLegacyDNSAddressFilter))
      else noPureIPSet tags
  end.
Definition validateLegacyDNSModeDisabledDefaultRule (rule : DefaultDNSRuleOptions) : result dnsRuleResponseUse :=
  let raw := dd_Raw rule in
  let enabled := MatchResponse_IsEnabled (d_MatchResponse raw) in
  let tag := MatchResponse_ResponseTag (d_MatchResponse raw) in
  if (hasResponseMatchFields raw || nonEmpty (d_IPCIDR raw) || d_IPIsPrivate raw || d_IPAcceptAny raw)
     && negb enabled
  then Err (E_New responseFieldsMessage)
  else
    let? _ := if negb enabled then noPureIPSet (d_RuleSet raw) else Ok tt in
    if d_RuleSetIPCIDRAcceptEmpty raw then Err (E_New acceptEmptyMessage)
    else
      let respond := String.eqb (actionName (da_Options (dd_Action rule))) RuleActionTypeRespond in
      Ok (mkResponseUse (enabled && String.eqb tag "" || respond && String.eqb tag "")
            (if enabled && negb (String.eqb tag "") then [tag] else [])).

Definition respondTagMessage : string :=
  "respond on a logical rule cannot bind a `match_response` tag from its sub rules; use a non-logical rule".

Fixpoint validateLegacyDNSModeDisabledRuleTree (rule : DNSRuleOptions) : result dnsRuleResponseUse :=
  match rule with
  | mkDNSRuleOptions typ d (mkLogicalDNSRuleOptions _ rules _ a) =>
      if String.eqb typ "" || String.eqb typ RuleTypeDefault then validateLegacyDNSModeDisabledDefaultRule d
      else if String.eqb typ RuleTypeLogical then
        let? uses := mapi_result (fun i subRule =>
          result_cause (validateLegacyDNSModeDisabledRuleTree subRule) (subRuleMessage i)) 0 rules in
        let use := mkResponseUse (existsb needsAnonymous uses) (flat_map referencedTags uses) in
        if String.eqb (actionName (da_Options a)) RuleActionTypeRespond then
          if nonEmpty (referencedTags use) then Err (E_New respondTagMessage)
          else Ok (mkResponseUse true (referencedTags use))
        else Ok use
      else Ok noUse
  end.

(** The variables of the loop over the rules. *)
Record validateState := mkValidateState {
  va_warnings : list string;
  va_seenAnonymousEvaluate : bool;
  va_seenRace : bool;
  va_definedTagOrder : list string;
  va_referencedTags : gset string;
  va_lastAnonymousEvaluate : option nat;
  va_anonymousReadSinceLast : bool }.

Definition speculativeWarning (i : nat) : string :=
  indexMessage "dns rule[" i "]: `speculative` has no effect without a preceding `race` rule".
Definition overwrittenWarning (last i : nat) : string :=
  (indexMessage "dns rule[" last "]: evaluated response is overwritten by dns rule["
   ++ strconv.Itoa (Z.of_nat i) ++ "] before any use")%string.
Definition definesTag (s : validateState) (tag : string) : bool := bool_decide (tag ∈ va_definedTagOrder s).

(** The tags a rule refers to. *)
Fixpoint checkTags (i : nat) (tags : list string) (s : validateState) : result validateState :=
  match tags with
  | [] => Ok s
  | tag :: tags =>
      if negb (definesTag s tag)
      then Err (E_New (indexMessage "dns rule[" i "]: undefined evaluate tag: " ++ tag)%string)
      else checkTags i tags {| s with va_referencedTags := {[tag]} ∪ va_referencedTags s |}
  end.

(** What an evaluate action defines. *)
Definition defineTag (i : nat) (rule : DNSRuleOptions) (s : validateState) : result validateState :=
  if negb (String.eqb (dnsRuleActionType rule) RuleActionTypeEvaluate) then Ok s
  else
    let tag := dnsRuleActionEvaluateTag rule in
    if String.eqb tag "" then
      let warnings :=
        match va_lastAnonymousEvaluate s with
        | Some last => if va_anonymousReadSinceLast s then va_warnings s
                       else (va_warnings s ++ [overwrittenWarning last i])%list
        | None => va_warnings s
        end in
      Ok {| s with va_warnings := warnings; va_seenAnonymousEvaluate := true;
                   va_lastAnonymousEvaluate := Some i; va_anonymousReadSinceLast := false |}
    else if definesTag s tag
    then Err (E_New (indexMessage "dns rule[" i "]: duplicate evaluate tag: " ++ tag)%string)
    else Ok {| s with va_definedTagOrder := (va_definedTagOrder s ++ [tag])%list |}.

Definition validateOne (i : nat) (rule : DNSRuleOptions) (s : validateState) : result validateState :=
  let? use := result_cause (validateLegacyDNSModeDisabledRuleTree rule) (indexMessage "validate dns rule[" i "]") in
  let s := if dnsRuleActionSpeculative rule && negb (va_seenRace s)
           then {| s with va_warnings := (va_warnings s ++ [speculativeWarning i])%list |} else s in
  let s := if dnsRuleRace rule then {| s with va_seenRace := true |} else s in
  let? s :=
    if needsAnonymous use then
      if negb (va_seenAnonymousEvaluate s) then
        if nonEmpty (va_definedTagOrder s)
        then Err (E_New (indexMessage "dns rule[" i "]: response-based matching requires a preceding evaluate action without `tag`; use `match_response` with an evaluate tag to reference a tagged result"))
        else Err (E_New (indexMessage "dns rule[" i "]: response-based matching requires a preceding evaluate action"))
      else Ok {| s with va_anonymousReadSinceLast := true |}
    else Ok s in
  let? s := checkTags i (referencedTags use) s in
  defineTag i rule s.

Fixpoint validateLoop (i : nat) (rules : list DNSRuleOptions) (s : validateState) : result validateState :=
  match rules with
  | [] => Ok s
  | rule :: rules => let? s := validateOne i rule s in validateLoop (S i) rules s
  end.

Definition validateLegacyDNSModeDisabledRules (rules : list DNSRuleOptions) : result (list string) :=
  let? s := validateLoop 0 rules (mkValidateState [] false false [] ∅ None false) in
  Ok (va_warnings s ++ map (fun tag => "evaluate tag is never referenced: " ++ tag)%string
        (List.filter (fun tag => negb (bool_decide (tag ∈ va_referencedTags s))) (va_definedTagOrder s)))%list.
End validate.

(** An evaluate action may not use a fakeip server. *)
Fixpoint evaluateFakeIPLoop (Transport : string -> option DNSTransport) (i : nat) (rules : list DNSRuleOptions) :
    result unit :=
  match rules with
  | [] => Ok tt
  | rule :: rules =>
      let server := dnsRuleActionServer rule in
      let refused := String.eqb (dnsRuleActionType rule) RuleActionTypeEvaluate && negb (String.eqb server "")
        && match Transport server with Some t => String.eqb (tr_Type t) DNSTypeFakeIP | None => false end in
      if refused
      then Err (E_New (indexMessage "dns rule[" i "]: evaluate action cannot use fakeip server: " ++ server)%string)
      else evaluateFakeIPLoop Transport (S i) rules
  end.
Definition validateEvaluateFakeIPRules (rules : list DNSRuleOptions)
    (transportManager : option (string -> option DNSTransport)) : result unit :=
  match transportManager with None => Ok tt | Some Transport => evaluateFakeIPLoop Transport 0 rules end.

(** ** The rules of the router *)

Section router.
Context `{L : Libs}.

(** What the DNS router looks up: the route router, if there is one, the DNS
    servers, and what rule items need to start. *)
Record DNSRouterEnv := mkDNSRouterEnv {
  de_Router : bool;
  de_Transports : option (string -> option DNSTransport);
  de_Start : StartEnv }.

Definition ruleSetMetadata (e : DNSRouterEnv) : option (string -> option RuleSetMetadata) :=
  if de_Router e then Some (fun tag => option_map RuleSet_Metadata (se_RuleSet (de_Start e) tag)) else None.

Definition parseMessage (i : nat) : string := indexMessage "parse dns rule[" i "]".

(** [buildRules] up to the rules that are not started; the rules built before an
    error hold nothing. *)
Definition parseRules (e : DNSRouterEnv) (rawRules : list DNSRuleOptions) :
    result (list HeadlessRule * bool * dnsRuleModeFlags * list string) :=
  let? _ := mapi_result (fun i rule => result_cause (ValidateNoNestedDNSRuleActions rule) (parseMessage i)) 0 rawRules in
  let lookup := lookupDNSRuleSetMetadata (ruleSetMetadata e) ∅ in
  let? '(legacyDNSMode, modeFlags) := resolveLegacyDNSMode (de_Router e) lookup rawRules in
  let? warnings := if negb legacyDNSMode then validateLegacyDNSModeDisabledRules lookup rawRules else Ok [] in
  let? _ := validateEvaluateFakeIPRules rawRules (de_Transports e) in
  let? newRules := mapi_result (fun i rule =>
    result_cause (NewDNSRule rule true legacyDNSMode) (parseMessage i)) 0 rawRules in
  Ok (newRules, legacyDNSMode, modeFlags, warnings).

(** The rules are started in order, to the first error. *)
Fixpoint startRulesLoop (se : StartEnv) (i : nat) (rules : list HeadlessRule) (refs : refCounts) :
    result (option GoError * list HeadlessRule * refCounts) :=
  match rules with
  | [] => Ok (None, [], refs)
  | rule :: rules =>
      let? '(err, rule, refs) := HeadlessRule_Start se rule refs in
      match err with
      | Some e => Ok (Some (E_Cause e (indexMessage "initialize DNS rule[" i "]")), rule :: rules, refs)
      | None => let? '(err, rules, refs) := startRulesLoop se (S i) rules refs in Ok (err, rule :: rules, refs)
      end
  end.

(** [Err] is a panic; an error comes with the counts it leaves. *)
Definition buildRules (e : DNSRouterEnv) (startRules : bool) (rawRules : list DNSRuleOptions) (refs : refCounts) :
    result (result (list HeadlessRule * bool * dnsRuleModeFlags) * refCounts) :=
  match parseRules e rawRules with
  | Err err => Ok (Err err, refs)
  | Ok (newRules, legacyDNSMode, modeFlags, _) =>
      if negb startRules then Ok (Ok (newRules, legacyDNSMode, modeFlags), refs)
      else
        let? '(err, newRules, refs) := startRulesLoop (de_Start e) 0 newRules refs in
        match err with
        | Some err => let? '(_, refs) := closeLoop HeadlessRule_Close newRules refs in Ok (Err err, refs)
        | None => Ok (Ok (newRules, legacyDNSMode, modeFlags), refs)
        end
  end.

(** The fields of the router the rules are in. *)
Record DNSRules := mkDNSRules {
  dr_rawRules : list DNSRuleOptions;
  dr_rules : list HeadlessRule;
  dr_legacyDNSMode : bool;
  dr_started : bool;
  dr_closing : bool }.
Definition NewDNSRules : DNSRules := mkDNSRules [] [] false false false.

Definition DNSRules_Initialize (e : DNSRouterEnv) (rules : list DNSRuleOptions) (r : DNSRules) (refs : refCounts) :
    result (option GoError * DNSRules * refCounts) :=
  let r := {| r with dr_rawRules := rules |} in
  let? '(res, refs) := buildRules e false (dr_rawRules r) refs in
  match res with
  | Err err => Ok (Some err, r, refs)
  | Ok (newRules, _, _) => let? '(_, refs) := closeLoop HeadlessRule_Close newRules refs in Ok (None, r, refs)
  end.

(** [Start] at the stage that builds the rules. *)
Definition DNSRules_Start (e : DNSRouterEnv) (r : DNSRules) (refs : refCounts) :
    result (option GoError * DNSRules * refCounts) :=
  let? '(res, refs) := buildRules e true (dr_rawRules r) refs in
  match res with
  | Err err => Ok (Some err, r, refs)
  | Ok (newRules, legacyDNSMode, _) =>
      if dr_closing r then let? '(_, refs) := closeLoop HeadlessRule_Close newRules refs in Ok (None, r, refs)
      else Ok (None, {| r with dr_rules := newRules; dr_legacyDNSMode := legacyDNSMode; dr_started := true |}, refs)
  end.

Definition DNSRules_Close (r : DNSRules) (refs : refCounts) : result (DNSRules * refCounts) :=
  if dr_closing r then Ok (r, refs)
  else
    let? '(_, refs) := closeLoop HeadlessRule_Close (dr_rules r) refs in
    Ok ({| r with dr_closing := true; dr_rules := [] |}, refs).

Definition ValidateRuleSetMetadataUpdate (e : DNSRouterEnv) (r : DNSRules) (tag : string) (metadata : RuleSetMetadata) :
    result unit :=
  if negb (nonEmpty (dr_rawRules r)) then Ok tt
  else if negb (de_Router e) then Err (E_New "router service not found")
  else
    let lookup := lookupDNSRuleSetMetadata (ruleSetMetadata e) {[tag := metadata]} in
    let validate := let? _ := validateLegacyDNSModeDisabledRules lookup (dr_rawRules r) in Ok tt in
    if dr_closing r then Ok tt
    else if negb (dr_started r) then
      let? '(candidateLegacyDNSMode, _) := resolveLegacyDNSMode (de_Router e) lookup (dr_rawRules r) in
      if negb candidateLegacyDNSMode then validate else Ok tt
    else
      let? '(candidateLegacyDNSMode, flags) := resolveLegacyDNSMode (de_Router e) lookup (dr_rawRules r) in
      if dr_legacyDNSMode r then
        if negb candidateLegacyDNSMode && disabled flags then
          let? _ := validate in Err (E_New (MessageWithLink OptionLegacyDNSAddressFilter))
        else Ok tt
      else if candidateLegacyDNSMode then Err (E_New (MessageWithLink OptionLegacyDNSAddressFilter))
      else validate.
End router.
