(* ===== verification/DNSRouter.v ===== *)
(** * The DNS router: matching the rules of a query ([dns/router.go])

    [walkDNSRules] runs the rules of a query.  An evaluate action sends a query
    and goes on; its response is a future that a later rule may match on, with
    or without a tag.  A rule on a response waits for it, unless it is a race
    rule: such a rule is armed, matching goes on, and it is judged by
    [sweepArmedDNSRules] once its responses are there.  The action of another
    rule is held while a race rule is armed; a speculative one sends its query
    in the meantime.  [resumeExchangeWithRules] drives this to a result.

    Futures are completed by other goroutines.  When each is completed is fixed
    by a [Schedule], in ticks of a clock that goes on at every look at a future,
    so that a future may be completed between any two looks.  The answer to a
    query is also given by the schedule: one per rule, since a rule sends at
    most one query.  Futures are shared: a reference to one is its index in the
    list of all. *)

From S2P Require Import Prelude.
From S2P Require Import GoText.
From S2P Require Import NetIP.
From S2P Require Import Libs.
From S2P Require Import Metadata.
From S2P Require Import RuleItems.
From S2P Require Import RuleAction.
From S2P Require Import RuleEngine.
From S2P Require Import DNSQuery.
Local Open Scope string_scope.
Local Open Scope Z_scope.

(** Rcodes and types of miekg/dns. *)
Definition RcodeFormatError : Z := 1.
Definition RcodeRefused : Z := 5.
Definition TypeA : Z := 1.
Definition TypeAAAA : Z := 28.
Definition TypeSVCB : Z := 64.
Definition TypeHTTPS : Z := 65.
Definition ClassINET : Z := 1.

(** What happens outside of the walk of one query. *)
Record Schedule := mkSchedule {
  (* the answer to the query of a rule (past the rules: to the default server) *)
  sc_answer : nat -> DNSTransport -> DNSQueryOptions -> option Msg * option GoError;
  (* when the future of a rule is completed, and when its callback has signalled [wake] *)
  sc_doneAt : nat -> nat;
  sc_wakeAt : nat -> nat;
  (* when the context ends, and with which error *)
  sc_ctxDone : option (nat * GoError);
  (* which of two ready cases a [select] takes: [true] for the context *)
  sc_select : nat -> bool }.

Record dnsEvaluatedFuture := mkFuture {
  f_tag : string;
  f_terminal : bool;
  f_transport : DNSTransport;
  f_answer : option Msg * option GoError;
  f_doneAt : nat;
  f_wakeAt : nat;
  f_settled : bool }.

Section walk.
Context `{L : Libs}.

Record dnsArmedRule := mkArmedRule {
  ar_ruleIndex : nat;
  ar_rule : HeadlessRule;
  ar_futures : list nat;
  ar_anonymousFuture : option nat;
  ar_bindsAnonymous : bool;
  ar_options : DNSQueryOptions }.

Record exchangeWithRulesResult := mkExchangeResult {
  er_response : option Msg;
  er_transport : option DNSTransport;
  er_rejectAction : option (string * bool);
  er_err : option GoError }.

Record dnsPendingExchange := mkPending {
  pe_ruleIndex : nat;    (* whose query it is *)
  pe_transport : DNSTransport;
  pe_query : DNSQueryOptions + nat   (* the options of a query to be sent, or the future of a sent one *) }.

Inductive dnsWalkSuspension :=
  | SuspendAwait (future : nat)
  | SuspendDrain
  | SuspendPending (p : dnsPendingExchange).

(** [dnsRuleWalkState] with the metadata of the context, the clock and the time
    of the last receive from [wake]. *)
Record dnsRuleWalkState := mkWalkState {
  ws_ruleIndex : nat;
  ws_effectiveOptions : DNSQueryOptions;
  ws_anonymousFuture : option nat;
  ws_namedFutures : gmap string nat;
  ws_namedResponses : gmap string Msg;
  ws_namedTransports : gmap string DNSTransport;
  ws_futures : list dnsEvaluatedFuture;
  ws_armedRules : list dnsArmedRule;
  ws_terminalFuture : option nat;
  ws_terminalIndex : nat;
  ws_metadata : InboundContext;
  ws_clock : nat;
  ws_lastWake : nat }.

Context (env : RuleEnv) (sched : Schedule).

(** [adapter.DNSTransportManager] as the DNS router uses it. *)
Context (Transport : string -> option DNSTransport) (Default : DNSTransport).
(** [router.defaultDomainStrategy]. *)
Context (defaultDomainStrategy : Z).

(** ** Options *)

Definition applyDNSRouteOptions (o : DNSQueryOptions) (r : RuleActionDNSRouteOptions) : DNSQueryOptions :=
  let o := if ao_DisableCache r then {| o with qo_DisableCache := true |} else o in
  let o := if ao_DisableOptimisticCache r then {| o with qo_DisableOptimisticCache := true |} else o in
  let o := if isSome (ao_RewriteTTL r) then {| o with qo_RewriteTTL := ao_RewriteTTL r |} else o in
  let o := if 0 <? ao_Timeout r then {| o with qo_Timeout := ao_Timeout r |} else o in
  let o := if Prefix.IsValid (ao_ClientSubnet r)
           then {| o with qo_ClientSubnet := ao_ClientSubnet r; qo_RemoveClientSubnet := false |} else o in
  if ao_RemoveClientSubnet r
  then {| o with qo_ClientSubnet := Prefix.zero; qo_RemoveClientSubnet := true |} else o.

Inductive dnsRouteStatus :=
  | dnsRouteStatusMissing
  | dnsRouteStatusSkipped (transport : DNSTransport)
  | dnsRouteStatusResolved (transport : DNSTransport) (options : DNSQueryOptions).

Definition resolveDNSRoute (server : string) (routeOptions : RuleActionDNSRouteOptions)
    (allowFakeIP : bool) (options : DNSQueryOptions) : dnsRouteStatus :=
  match Transport server with
  | None => dnsRouteStatusMissing
  | Some transport =>
      let isFakeIP := String.eqb (tr_Type transport) DNSTypeFakeIP in
      if isFakeIP && negb allowFakeIP then dnsRouteStatusSkipped transport
      else
        let options := applyDNSRouteOptions options routeOptions in
        dnsRouteStatusResolved transport
          (if isFakeIP then {| options with qo_DisableCache := true |} else options)
  end.

Definition finalizeExchangeOptions (o : DNSQueryOptions) : DNSQueryOptions :=
  if qo_Strategy o =? DomainStrategyAsIS then {| o with qo_Strategy := defaultDomainStrategy |} else o.

(** ** Futures *)

Implicit Types s : dnsRuleWalkState.

(** [future.resolved()], a look at a future. *)
Definition resolved (i : nat) s : bool * dnsRuleWalkState :=
  let now := S (ws_clock s) in
  (match ws_futures s !! i with Some f => (f_doneAt f <=? now)%nat | None => false end,
   {| s with ws_clock := now |}).

Definition answerOf (f : dnsEvaluatedFuture) : option Msg :=
  match f_answer f with (response, None) => response | (_, Some _) => None end.

Definition futureView (i : nat) s : option Msg * dnsRuleWalkState :=
  let '(done, s) := resolved i s in
  (if done then match ws_futures s !! i with Some f => answerOf f | None => None end else None, s).

Definition anonymousResponse s : option Msg * dnsRuleWalkState :=
  match ws_anonymousFuture s with None => (None, s) | Some i => futureView i s end.

(** [launchDNSEvaluate]: the query may be answered at once. *)
Definition launchDNSEvaluate (tag : string) (terminal : bool) (transport : DNSTransport)
    (options : DNSQueryOptions) s : nat * dnsRuleWalkState :=
  let now := S (ws_clock s) in
  let doneAt := Nat.max now (sc_doneAt sched (ws_ruleIndex s)) in
  let future := mkFuture tag terminal transport
    (sc_answer sched (ws_ruleIndex s) transport (finalizeExchangeOptions options))
    doneAt (Nat.max doneAt (sc_wakeAt sched (ws_ruleIndex s))) false in
  (length (ws_futures s), {| s with ws_futures := (ws_futures s ++ [future])%list; ws_clock := now |}).

(** One future of [settleDNSFutures]. *)
Definition settleFuture (i : nat) s : dnsRuleWalkState :=
  match ws_futures s !! i with
  | None => s
  | Some f =>
      if f_settled f then s
      else
        let '(done, s) := resolved i s in
        if negb done then s
        else
          let s := {| s with ws_futures := <[i := {| f with f_settled := true |}]> (ws_futures s) |} in
          if String.eqb (f_tag f) "" then s
          else
            let '(response, s) := futureView i s in
            {| s with ws_namedResponses :=
                        match response with
                        | Some msg => <[f_tag f := msg]> (ws_namedResponses s)
                        | None => delete (f_tag f) (ws_namedResponses s)
                        end;
                      ws_namedTransports := <[f_tag f := f_transport f]> (ws_namedTransports s) |}
  end.
Definition settleDNSFutures s : dnsRuleWalkState :=
  foldl (fun s i => settleFuture i s) s (seq 0 (length (ws_futures s))).

(** ** Results *)

Definition dnsRefusedResponse (message : Msg) : result Msg :=
  match msg_Question message with
  | [] => Err (GoPanic "index out of range")
  | q :: _ =>
      Ok {| msg_Id := msg_Id message; msg_Response := true; msg_Authoritative := false;
            msg_RecursionDesired := false; msg_RecursionAvailable := false; msg_Rcode := RcodeRefused;
            msg_Question := [q]; msg_Answer := []; msg_Ns := []; msg_Extra := [] |}
  end.

Definition responseResult (r : result Msg) (reject : option (string * bool)) : exchangeWithRulesResult :=
  match r with
  | Ok msg => mkExchangeResult (Some msg) None reject None
  | Err e => mkExchangeResult None None reject (Some e)
  end.
Definition errorResult (e : GoError) : exchangeWithRulesResult := mkExchangeResult None None None (Some e).
Definition missingResponse : exchangeWithRulesResult :=
  errorResult (E_New "respond action requires an evaluated response from a preceding evaluate action").
Definition respondWith (response : option Msg) (transport : option DNSTransport) : exchangeWithRulesResult :=
  match response with
  | None => missingResponse
  | Some msg => mkExchangeResult (Some msg) transport None None
  end.

(** A reject action; no result for the methods a DNS rule does not know. *)
Definition errDropped : GoError := E_New "packet dropped".
Definition rejectResult (message : Msg) (method : string) (noDrop : bool) : option exchangeWithRulesResult :=
  if String.eqb method RuleActionRejectMethodDefault
  then Some (responseResult (dnsRefusedResponse message) (Some (method, noDrop)))
  else if String.eqb method RuleActionRejectMethodDrop
  then Some (mkExchangeResult None None (Some (method, noDrop)) (Some errDropped))
  else None.

(** ** Race rules *)

(** [metadata] as [rule] is to see it, and the verdict of [rule.Match]. *)
Definition matchWith (rule : HeadlessRule) (response : option Msg) s : bool * dnsRuleWalkState :=
  let m := ResetRuleCache (ws_metadata s) in
  let m := {| m with m_DNSResponse := response;
                     m_NamedDNSResponses := ws_namedResponses s;
                     m_DestinationAddressMatchFromResponse := false |} in
  let '(matched, m) := HeadlessRule_Match env rule m in
  (matched, {| s with ws_metadata := m |}).

Fixpoint allResolved (l : list nat) s : bool * dnsRuleWalkState :=
  match l with
  | [] => (true, s)
  | i :: l => let '(done, s) := resolved i s in if done then allResolved l s else (false, s)
  end.

(** What a race rule that matched comes to: a result, a query to be sent, or
    nothing when its server is missing or skipped. *)
Inductive sweepOutcome :=
  | SweepResult (r : exchangeWithRulesResult)
  | SweepPending (p : dnsPendingExchange)
  | SweepNothing.

Definition armedRespond (armed : dnsArmedRule) s : exchangeWithRulesResult * dnsRuleWalkState :=
  let tag := MatchResponseTag (ar_rule armed) in
  if negb (String.eqb tag "") then (respondWith (ws_namedResponses s !! tag) (ws_namedTransports s !! tag), s)
  else
    match (match ar_anonymousFuture armed with Some i => Some i | None => ws_anonymousFuture s end) with
    | None => (missingResponse, s)
    | Some i =>
        let '(response, s) := futureView i s in
        (respondWith response (option_map f_transport (ws_futures s !! i)), s)
    end.

Definition armedAction (message : Msg) (allowFakeIP : bool) (armed : dnsArmedRule) s :
    sweepOutcome * dnsRuleWalkState :=
  match rule_Action (ar_rule armed) with
  | Some RuleActionRespond => let '(r, s) := armedRespond armed s in (SweepResult r, s)
  | Some (RuleActionDNSRoute server _ o) =>
      (match resolveDNSRoute server o allowFakeIP (ar_options armed) with
       | dnsRouteStatusResolved transport options =>
           SweepPending (mkPending (ar_ruleIndex armed) transport (inl options))
       | _ => SweepNothing
       end, s)
  | Some (RuleActionReject method noDrop) =>
      (match rejectResult message method noDrop with Some r => SweepResult r | None => SweepNothing end, s)
  | Some (ActPredefined action) =>
      (SweepResult (responseResult (RuleActionPredefined_Response action message) None), s)
  | _ => (SweepNothing, s)
  end.

(** The armed rules that are ready are judged, in their order, until one has an
    outcome; [kept] are those that were not ready. *)
Fixpoint sweepLoop (message : Msg) (allowFakeIP : bool) (armedRules kept : list dnsArmedRule) s :
    option sweepOutcome * dnsRuleWalkState :=
  match armedRules with
  | [] => (None, {| s with ws_armedRules := kept |})
  | armed :: rest =>
      let '(ready, s) := allResolved (ar_futures armed) s in
      if negb ready then sweepLoop message allowFakeIP rest (kept ++ [armed])%list s
      else
        let '(response, s) :=
          if ar_bindsAnonymous armed then
            match ar_anonymousFuture armed with Some i => futureView i s | None => (None, s) end
          else anonymousResponse s in
        let '(matched, s) := matchWith (ar_rule armed) response s in
        if negb matched then sweepLoop message allowFakeIP rest kept s
        else
          let '(outcome, s) := armedAction message allowFakeIP armed s in
          match outcome with
          | SweepNothing => sweepLoop message allowFakeIP rest kept s
          | _ => (Some outcome, {| s with ws_armedRules := (kept ++ rest)%list |})
          end
  end.
Definition sweepArmedDNSRules (message : Msg) (allowFakeIP : bool) s : option sweepOutcome * dnsRuleWalkState :=
  sweepLoop message allowFakeIP (ws_armedRules s) [] s.

(** ** Walking the rules *)

Inductive walkOutcome :=
  | WalkResult (r : exchangeWithRulesResult)
  | WalkSuspended (s : dnsWalkSuspension).

Definition suspendPending (s : dnsRuleWalkState) (transport : DNSTransport) (options : DNSQueryOptions) :
    walkOutcome := WalkSuspended (SuspendPending (mkPending (ws_ruleIndex s) transport (inl options))).
Definition drain : walkOutcome := WalkSuspended SuspendDrain.

(** The futures of [tags] that are not resolved. *)
Fixpoint pendingTags (tags : list string) s : list nat * dnsRuleWalkState :=
  match tags with
  | [] => ([], s)
  | tag :: tags =>
      match ws_namedFutures s !! tag with
      | None => pendingTags tags s
      | Some i =>
          let '(done, s) := resolved i s in
          let '(l, s) := pendingTags tags s in
          (if done then l else i :: l, s)
      end
  end.

(** A race rule is armed; it is judged at once when nothing is pending. *)
Definition armRule (message : Msg) (allowFakeIP : bool) (rule : HeadlessRule) s :
    option walkOutcome * dnsRuleWalkState :=
  let '(pending, s) := pendingTags (MatchResponseTags rule) s in
  let bindsAnonymous := MatchResponseAnonymous rule in
  let anonymousFuture := if bindsAnonymous then ws_anonymousFuture s else None in
  let '(pending, s) :=
    match anonymousFuture with
    | None => (pending, s)
    | Some i => let '(done, s) := resolved i s in (if done then pending else pending ++ [i], s)%list
    end in
  let s := {| s with ws_armedRules := (ws_armedRules s ++
    [mkArmedRule (ws_ruleIndex s) rule pending anonymousFuture bindsAnonymous (ws_effectiveOptions s)])%list |} in
  match pending with
  | [] =>
      let '(outcome, s) := sweepArmedDNSRules message allowFakeIP s in
      match outcome with
      | Some (SweepPending p) => (Some (WalkSuspended (SuspendPending p)), {| s with ws_armedRules := [] |})
      | Some (SweepResult r) => (Some (WalkResult r), s)
      | _ => (None, s)
      end
  | _ :: _ => (None, s)
  end.

(** The future a rule on responses has to wait for. *)
Fixpoint awaitTags (tags : list string) s : option nat * dnsRuleWalkState :=
  match tags with
  | [] => (None, s)
  | tag :: tags =>
      match ws_namedFutures s !! tag with
      | None => awaitTags tags s
      | Some i => let '(done, s) := resolved i s in if done then awaitTags tags s else (Some i, s)
      end
  end.
Definition awaitFuture (rule : HeadlessRule) s : option nat * dnsRuleWalkState :=
  let '(future, s) := awaitTags (MatchResponseTags rule) s in
  match future, ws_anonymousFuture s with
  | None, Some i =>
      if MatchResponseAnonymous rule then
        let '(done, s) := resolved i s in (if done then None else Some i, s)
      else (None, s)
  | _, _ => (future, s)
  end.

Definition noArmed s : bool := match ws_armedRules s with [] => true | _ => false end.

Definition walkEvaluate (server tag : string) (speculative : bool) (o : RuleActionDNSRouteOptions) s :
    option walkOutcome * dnsRuleWalkState :=
  match Transport server with
  | None => (None, if String.eqb tag "" then {| s with ws_anonymousFuture := None |} else s)
  | Some transport =>
      if negb speculative && negb (noArmed s) then (Some drain, s)
      else
        let '(i, s) := launchDNSEvaluate tag false transport
                         (applyDNSRouteOptions (ws_effectiveOptions s) o) s in
        (None, if String.eqb tag "" then {| s with ws_anonymousFuture := Some i |}
               else {| s with ws_namedFutures := <[tag := i]> (ws_namedFutures s) |})
  end.

Definition walkRespond (rule : HeadlessRule) (hasBindings : bool) s : option walkOutcome * dnsRuleWalkState :=
  if negb (noArmed s) then (Some drain, s)
  else
    let tag := MatchResponseTag rule in
    if negb (String.eqb tag "") then
      (Some (WalkResult (respondWith (ws_namedResponses s !! tag) (ws_namedTransports s !! tag))), s)
    else
      let '(await, s) :=
        if hasBindings then (None, s)
        else match ws_anonymousFuture s with
             | None => (None, s)
             | Some i => let '(done, s) := resolved i s in (if done then None else Some i, s)
             end in
      match await with
      | Some i => (Some (WalkSuspended (SuspendAwait i)), s)
      | None =>
          let '(response, s) := anonymousResponse s in
          let transport := match ws_anonymousFuture s with
                           | Some i => option_map f_transport (ws_futures s !! i) | None => None end in
          (Some (WalkResult (respondWith response transport)), s)
      end.

Definition walkRoute (server : string) (speculative : bool) (o : RuleActionDNSRouteOptions)
    (allowFakeIP : bool) s : option walkOutcome * dnsRuleWalkState :=
  match resolveDNSRoute server o allowFakeIP (ws_effectiveOptions s) with
  | dnsRouteStatusMissing | dnsRouteStatusSkipped _ => (None, s)
  | dnsRouteStatusResolved transport options =>
      if negb (noArmed s) then
        if speculative && negb (isSome (ws_terminalFuture s)) then
          let '(i, s) := launchDNSEvaluate "" true transport options s in
          (Some drain, {| s with ws_terminalFuture := Some i; ws_terminalIndex := ws_ruleIndex s |})
        else (Some drain, s)
      else
        match ws_terminalFuture s with
        | Some i =>
            if (ws_terminalIndex s =? ws_ruleIndex s)%nat then
              match ws_futures s !! i with
              | Some f => (Some (WalkSuspended (SuspendPending
                             (mkPending (ws_ruleIndex s) (f_transport f) (inr i)))), s)
              | None => (Some (suspendPending s transport options), s)
              end
            else (Some (suspendPending s transport options), s)
        | None => (Some (suspendPending s transport options), s)
        end
  end.

(** The [switch] on the action of a rule that matched. *)
Definition walkAction (message : Msg) (allowFakeIP : bool) (rule : HeadlessRule) (hasBindings : bool) s :
    option walkOutcome * dnsRuleWalkState :=
  match rule_Action rule with
  | Some (ActDNSRouteOptions o) =>
      (None, {| s with ws_effectiveOptions := applyDNSRouteOptions (ws_effectiveOptions s) o |})
  | Some (RuleActionEvaluate server tag speculative o) => walkEvaluate server tag speculative o s
  | Some RuleActionRespond => walkRespond rule hasBindings s
  | Some (RuleActionDNSRoute server speculative o) => walkRoute server speculative o allowFakeIP s
  | Some (RuleActionReject method noDrop) =>
      if negb (noArmed s) then (Some drain, s)
      else (option_map WalkResult (rejectResult message method noDrop), s)
  | Some (ActPredefined action) =>
      if negb (noArmed s) then (Some drain, s)
      else (Some (WalkResult (responseResult (RuleActionPredefined_Response action message) None)), s)
  | _ => (None, s)
  end.

(** One rule: [None] to go on with the next. *)
Definition walkRule (message : Msg) (allowFakeIP : bool) (rule : HeadlessRule) s :
    option walkOutcome * dnsRuleWalkState :=
  let hasBindings := nonEmpty (MatchResponseTags rule) || MatchResponseAnonymous rule in
  let s := if hasBindings then settleDNSFutures s else s in
  if hasBindings && DNSRule_Race rule then armRule message allowFakeIP rule s
  else
    let '(await, s) := if hasBindings then awaitFuture rule s else (None, s) in
    match await with
    | Some i => (Some (WalkSuspended (SuspendAwait i)), s)
    | None =>
        let '(response, s) := anonymousResponse s in
        let '(matched, s) := matchWith rule response s in
        if negb matched then (None, s) else walkAction message allowFakeIP rule hasBindings s
    end.

Fixpoint walkLoop (message : Msg) (allowFakeIP : bool) (rules : list HeadlessRule) s :
    walkOutcome * dnsRuleWalkState :=
  match rules with
  | [] => (if noArmed s then suspendPending s Default (ws_effectiveOptions s) else drain, s)
  | rule :: rules =>
      let '(outcome, s) := walkRule message allowFakeIP rule s in
      match outcome with
      | Some o => (o, s)
      | None => walkLoop message allowFakeIP rules {| s with ws_ruleIndex := S (ws_ruleIndex s) |}
      end
  end.
Definition walkDNSRules (rules : list HeadlessRule) (message : Msg) (allowFakeIP : bool) s :
    walkOutcome * dnsRuleWalkState :=
  walkLoop message allowFakeIP (drop (ws_ruleIndex s) rules) s.

(** ** Driving the walk *)

(** When the next signal on [wake] can be received: one is there as soon as some
    callback has signalled since the last receive. *)
Definition nextWake s : option nat :=
  foldr (fun f next => if (ws_lastWake s <? f_wakeAt f)%nat
                       then Some (match next with Some t => Nat.min t (f_wakeAt f) | None => f_wakeAt f end)
                       else next) None (ws_futures s).

(** A [select] between an event at [time] and the end of the context: the time of
    the event, the error of the context, or neither ever. *)
Inductive selected := SelectEvent (time : nat) | SelectDone (e : GoError) | SelectNever.
Definition selectContext (now : nat) (time : option nat) : selected :=
  match option_map (Nat.max now) time, sc_ctxDone sched with
  | None, None => SelectNever
  | Some t, None => SelectEvent t
  | None, Some (_, e) => SelectDone e
  | Some t, Some (d, e) =>
      let d := Nat.max now d in
      if (t <? d)%nat then SelectEvent t
      else if (d <? t)%nat then SelectDone e
      else if sc_select sched now then SelectDone e else SelectEvent t
  end.

Definition finishPendingExchange (p : dnsPendingExchange) s : option exchangeWithRulesResult :=
  match pe_query p with
  | inr i =>
      match ws_futures s !! i with
      | None => None
      | Some f =>
          match selectContext (ws_clock s) (Some (f_doneAt f)) with
          | SelectEvent _ =>
              Some (mkExchangeResult (answerOf f) (Some (f_transport f)) None (snd (f_answer f)))
          | SelectDone e => Some (errorResult e)
          | SelectNever => None
          end
      end
  | inl options =>
      let '(response, err) := sc_answer sched (pe_ruleIndex p) (pe_transport p)
                                (finalizeExchangeOptions options) in
      Some (mkExchangeResult response (Some (pe_transport p)) None err)
  end.

(** Whether the suspension holds the walk back. *)
Definition mustWait (suspension : dnsWalkSuspension) s : bool * dnsRuleWalkState :=
  match suspension with
  | SuspendAwait i => let '(done, s) := resolved i s in (negb done, s)
  | SuspendDrain => (negb (noArmed s), s)
  | SuspendPending _ => (false, s)
  end.

(** [None]: out of fuel, or blocked for ever. *)
Fixpoint resumeExchangeWithRules (fuel : nat) (rules : list HeadlessRule) (message : Msg) (allowFakeIP : bool)
    (suspension : dnsWalkSuspension) s : option exchangeWithRulesResult :=
  match fuel with
  | O => None
  | S fuel =>
      let s := settleDNSFutures s in
      let '(outcome, s) := sweepArmedDNSRules message allowFakeIP s in
      match outcome, suspension with
      | Some (SweepResult r), _ => Some r
      | Some (SweepPending p), _ => finishPendingExchange p s
      | _, SuspendPending p => finishPendingExchange p s
      | _, _ =>
          let '(waits, s) := mustWait suspension s in
          if waits then
            match selectContext (ws_clock s) (nextWake s) with
            | SelectEvent t =>
                resumeExchangeWithRules fuel rules message allowFakeIP suspension
                  {| s with ws_clock := t; ws_lastWake := t |}
            | SelectDone e => Some (errorResult e)
            | SelectNever => None
            end
          else
            match walkDNSRules rules message allowFakeIP s with
            | (WalkResult r, _) => Some r
            | (WalkSuspended suspension, s) =>
                resumeExchangeWithRules fuel rules message allowFakeIP suspension s
            end
      end
  end.

Definition newWalkState (options : DNSQueryOptions) (m : InboundContext) : dnsRuleWalkState :=
  mkWalkState 0 options None ∅ ∅ ∅ [] [] None 0 m 0 0.

Definition exchangeWithRules (fuel : nat) (rules : list HeadlessRule) (message : Msg)
    (options : DNSQueryOptions) (allowFakeIP : bool) (m : InboundContext) : option exchangeWithRulesResult :=
  match walkDNSRules rules message allowFakeIP (newWalkState options m) with
  | (WalkResult r, _) => Some r
  | (WalkSuspended suspension, s) => resumeExchangeWithRules fuel rules message allowFakeIP suspension s
  end.

(** What the callback of [exchangeWithRulesAsync] is given. *)
Definition exchangeWithRulesAsync (fuel : nat) (rules : list HeadlessRule) (message : Msg)
    (options : DNSQueryOptions) (allowFakeIP : bool) (m : InboundContext) : option exchangeWithRulesResult :=
  match walkDNSRules rules message allowFakeIP (newWalkState options m) with
  | (WalkResult r, _) => Some r
  | (WalkSuspended suspension, s) =>
      match suspension with
      | SuspendPending (mkPending i transport (inl options)) =>
          let '(response, err) := sc_answer sched i transport (finalizeExchangeOptions options) in
          Some (mkExchangeResult response (Some transport) None err)
      | _ => resumeExchangeWithRules fuel rules message allowFakeIP suspension s
      end
  end.
End walk.
