(* ===== verification/DNSRace.v ===== *)
(** * What a query comes to, whatever the servers' speed

    [specWalk] reads the documentation of DNS rule actions without any
    concurrency: rules are matched in their order with every response known.
    Race rules that match are candidates; the first other rule that decides
    gives the ordered result.  The theorem of this file: under every schedule
    [exchangeWithRules] returns, and it returns one of the candidates if there
    are any and the ordered result if there are none.  It is about rules that
    refer to responses without a tag; [DNSRaceExamples] shows why. *)

From S2P Require Import Prelude.
From S2P Require Import GoText.
From S2P Require Import NetIP.
From S2P Require Import Libs.
From S2P Require Import Metadata.
From S2P Require Import RuleItems.
From S2P Require Import RuleAction.
From S2P Require Import RuleEngine.
From S2P Require Import RuleSpec.
From S2P Require Import RuleSound.
From S2P Require Import RuleTheorems.
From S2P Require Import RouterTheorems.
From S2P Require Import DNSQuery.
From S2P Require Import DNSRouter.
Local Open Scope Z_scope.

(** The metadata with the responses a rule is matched on. *)
Definition withResponses (m : InboundContext) (response : option Msg) (named : gmap string Msg) :
    InboundContext :=
  {| m with m_DNSResponse := response; m_NamedDNSResponses := named;
            m_DestinationAddressMatchFromResponse := false |}.

(** What a caller sees of a result: the response only if there is no error. *)
Definition observe (r : exchangeWithRulesResult) :
    option (string * bool) * (GoError + option Msg * option DNSTransport) :=
  (er_rejectAction r, match er_err r with Some e => inl e | None => inr (er_response r, er_transport r) end).

(** Candidates and the ordered result: what may come out. *)
Definition allowed (spec : list exchangeWithRulesResult * exchangeWithRulesResult)
    (r : exchangeWithRulesResult) : Prop :=
  match fst spec with
  | [] => observe r = observe (snd spec)
  | winners => exists w, w ∈ winners /\ observe r = observe w
  end.

Section spec.
Context `{L : Libs} (env : RuleEnv).
Context (answer : nat -> DNSTransport -> DNSQueryOptions -> option Msg * option GoError).
Context (Transport : string -> option DNSTransport) (Default : DNSTransport) (defaultDomainStrategy : Z).
Context (message : Msg) (allowFakeIP : bool) (m0 : InboundContext).

(** A rule that refers to responses without a tag only, and that looks at the
    response only if it says so. *)
Record untagged (h : HeadlessRule) : Prop := {
  ut_tags : MatchResponseTags h = [];
  ut_named m a n n' : spec_rule env h (withResponses m a n) = spec_rule env h (withResponses m a n');
  ut_blind m a b n : MatchResponseAnonymous h = false ->
    spec_rule env h (withResponses m a n) = spec_rule env h (withResponses m b n) }.

(** The options so far, and the latest evaluated response with its server. *)
Record specState := mkSpecState {
  sp_options : DNSQueryOptions;
  sp_response : option (DNSTransport * option Msg) }.

Definition responseIn (st : specState) : option Msg := match sp_response st with Some (_, r) => r | None => None end.
Definition holds (rule : HeadlessRule) (response : option Msg) : bool :=
  spec_rule env rule (ResetRuleCache (withResponses m0 response ∅)).

Definition query (i : nat) (t : DNSTransport) (o : DNSQueryOptions) : option Msg * option GoError :=
  answer i t (finalizeExchangeOptions defaultDomainStrategy o).
Definition ask (i : nat) (t : DNSTransport) (o : DNSQueryOptions) : exchangeWithRulesResult :=
  mkExchangeResult (fst (query i t o)) (Some t) None (snd (query i t o)).
Definition responseOnly (a : option Msg * option GoError) : option Msg :=
  match a with (response, None) => response | (_, Some _) => None end.

(** The result of a rule that holds, for the actions that decide. *)
Definition specFinal (i : nat) (rule : HeadlessRule) (st : specState) : option exchangeWithRulesResult :=
  match rule_Action rule with
  | Some RuleActionRespond =>
      Some (match sp_response st with
            | Some (t, response) => respondWith response (Some t) | None => missingResponse end)
  | Some (RuleActionDNSRoute server _ o) =>
      match resolveDNSRoute Transport server o allowFakeIP (sp_options st) with
      | dnsRouteStatusResolved t options => Some (ask i t options)
      | _ => None
      end
  | Some (RuleActionReject method noDrop) => rejectResult message method noDrop
  | Some (ActPredefined action) => Some (responseResult (RuleActionPredefined_Response action message) None)
  | _ => None
  end.

(** What the other actions change. *)
Definition specNext (i : nat) (rule : HeadlessRule) (st : specState) : specState :=
  match rule_Action rule with
  | Some (ActDNSRouteOptions o) => mkSpecState (applyDNSRouteOptions (sp_options st) o) (sp_response st)
  | Some (RuleActionEvaluate server tag _ o) =>
      if String.eqb tag "" then
        mkSpecState (sp_options st)
          match Transport server with
          | None => None
          | Some t => Some (t, responseOnly (query i t (applyDNSRouteOptions (sp_options st) o)))
          end
      else st
  | _ => st
  end.

Definition isRace (rule : HeadlessRule) : bool :=
  (nonEmpty (MatchResponseTags rule) || MatchResponseAnonymous rule) && DNSRule_Race rule.

Fixpoint specWalk (i : nat) (rules : list HeadlessRule) (st : specState) :
    list exchangeWithRulesResult * exchangeWithRulesResult :=
  match rules with
  | [] => ([], ask i Default (sp_options st))
  | rule :: rules =>
      if negb (holds rule (responseIn st)) then specWalk (S i) rules st
      else if isRace rule then
        let '(winners, ordered) := specWalk (S i) rules st in
        (optList (specFinal i rule st) ++ winners, ordered)%list
      else
        match specFinal i rule st with
        | Some r => ([], r)
        | None => specWalk (S i) rules (specNext i rule st)
        end
  end.
End spec.

(** ** Looking changes little *)

Section look.
Context `{L : Libs} (env : RuleEnv).
Implicit Types s : dnsRuleWalkState.

(** A future without the mark of [settleDNSFutures]. *)
Definition coreOf (f : dnsEvaluatedFuture) : dnsEvaluatedFuture := {| f with f_settled := false |}.
Definition core s : list dnsEvaluatedFuture := map coreOf (ws_futures s).

(** The metadata without the responses and the rule cache. *)
Definition baseOf (m : InboundContext) : InboundContext := ResetRuleCache (withResponses m None ∅).

(** [s'] is [s] after some looks, settling and matching. *)
Record looked s s' : Prop := {
  lk_index : ws_ruleIndex s' = ws_ruleIndex s;
  lk_options : ws_effectiveOptions s' = ws_effectiveOptions s;
  lk_anonymous : ws_anonymousFuture s' = ws_anonymousFuture s;
  lk_armed : ws_armedRules s' = ws_armedRules s;
  lk_terminal : ws_terminalFuture s' = ws_terminalFuture s;
  lk_terminalIndex : ws_terminalIndex s' = ws_terminalIndex s;
  lk_wake : ws_lastWake s' = ws_lastWake s;
  lk_core : core s' = core s;
  lk_base : baseOf (ws_metadata s') = baseOf (ws_metadata s);
  lk_clock : (ws_clock s <= ws_clock s')%nat }.

#[export] Instance looked_refl : Reflexive looked.
Proof. intros s. by split. Qed.
#[export] Instance looked_trans : Transitive looked.
Proof.
  intros s1 s2 s3 [] []. split; first [by etrans | lia].
Qed.

Lemma core_lookup s i : core s !! i = coreOf <$> ws_futures s !! i.
Proof. apply list_lookup_fmap. Qed.

Lemma resolved_look i s b s' :
  resolved i s = (b, s') ->
  looked s s' /\ (ws_clock s < ws_clock s')%nat /\
  match core s !! i with
  | Some f => b = (f_doneAt f <=? ws_clock s')%nat
  | None => b = false
  end.
Proof.
  unfold resolved. intros [= <- <-]. split_and!; [by split; cbn; try lia|cbn; lia|].
  rewrite core_lookup. cbn [ws_clock]. by destruct (ws_futures s !! i).
Qed.

Lemma resolved_true i s s' :
  resolved i s = (true, s') -> exists f, core s !! i = Some f /\ (f_doneAt f <= ws_clock s')%nat.
Proof.
  intros H. apply resolved_look in H as (_ & _ & H). destruct (core s !! i) as [f|]; [|done].
  exists f. split; [done|]. symmetry in H. by apply Nat.leb_le.
Qed.
Lemma resolved_false i s s' f :
  resolved i s = (false, s') -> core s !! i = Some f -> (ws_clock s' < f_doneAt f)%nat.
Proof.
  intros H E. apply resolved_look in H as (_ & _ & H). rewrite E in H. symmetry in H. by apply Nat.leb_gt.
Qed.

Lemma view_look i s r s' :
  futureView i s = (r, s') ->
  looked s s' /\ forall f, core s !! i = Some f -> (f_doneAt f <= ws_clock s)%nat -> r = answerOf f.
Proof.
  unfold futureView. destruct (resolved i s) as [b s1] eqn:E. intros [= <- <-].
  apply resolved_look in E as (Hl & Hc & Hb). split; [done|]. intros f Hf Hd. rewrite Hf in Hb.
  destruct b; [|symmetry in Hb; apply Nat.leb_gt in Hb; lia].
  rewrite <-(lk_core _ _ Hl), core_lookup in Hf. destruct (ws_futures s1 !! i); [|done]. by injection Hf as <-.
Qed.

Lemma anonymousResponse_look s r s' : anonymousResponse s = (r, s') -> looked s s'.
Proof. unfold anonymousResponse. destruct (ws_anonymousFuture s); [by intros [? _]%view_look|by intros [= _ <-]]. Qed.

Lemma settleFuture_look i s : looked s (settleFuture i s).
Proof.
  unfold settleFuture. destruct (ws_futures s !! i) as [f|] eqn:Ef; [|done].
  destruct (f_settled f); [done|]. destruct (resolved i s) as [done s1] eqn:E.
  destruct (resolved_look _ _ _ _ E) as (Hl & _ & _). destruct (negb done); [done|].
  assert (Hf1 : ws_futures s1 !! i = Some f) by (unfold resolved in E; by injection E as _ <-).
  set (s2 := {| s1 with ws_futures := <[i := {| f with f_settled := true |}]> (ws_futures s1) |}).
  assert (H2 : looked s1 s2).
  { split; try done. unfold core, s2. cbn [ws_futures]. rewrite list_fmap_insert.
    apply list_insert_id. by rewrite list_lookup_fmap, Hf1. }
  cbn zeta. destruct (String.eqb _ _); [by etrans|]. destruct (futureView i s2) as [r s3] eqn:Ev.
  apply view_look in Ev as [H3 _]. etrans; [exact Hl|]. etrans; [exact H2|]. etrans; [exact H3|]. by split.
Qed.

Lemma settle_look s : looked s (settleDNSFutures s).
Proof.
  unfold settleDNSFutures. generalize (seq 0 (length (ws_futures s))). intros l.
  revert s. induction l as [|i l IH]; intros s; [done|]. cbn [foldl].
  etrans; [apply settleFuture_look|apply IH].
Qed.

Lemma matchWith_look rule response s matched s' :
  untagged env rule -> m_IgnoreDestinationIPCIDRMatch (baseOf (ws_metadata s)) = false ->
  matchWith env rule response s = (matched, s') ->
  looked s s' /\ matched = holds env (ws_metadata s) rule response.
Proof.
  intros Hu Hi. unfold matchWith.
  set (m := ResetRuleCache (withResponses (ws_metadata s) response (ws_namedResponses s))).
  destruct (match_step env rule (withResponses (ws_metadata s) response (ws_namedResponses s)) Hi) as [Hv Hf].
  change (HeadlessRule_Match env rule _) with (HeadlessRule_Match env rule m).
  fold m in Hv, Hf. destruct (HeadlessRule_Match env rule m) as [b m1]. cbn [fst snd] in *.
  intros [= <- <-]. split.
  - split; try done. cbn [ws_metadata].
    change (baseOf m1) with (withResponses (ResetRuleCache m1) None ∅). by rewrite Hf.
  - rewrite Hv. exact (ut_named _ _ Hu (ResetRuleCache (ws_metadata s)) response _ _).
Qed.

Lemma allResolved_look l s b s' :
  allResolved l s = (b, s') -> looked s s' /\
  (b = true -> forall i, i ∈ l -> exists f, core s !! i = Some f /\ (f_doneAt f <= ws_clock s')%nat) /\
  (b = false -> exists i, i ∈ l /\ forall f, core s !! i = Some f -> (ws_clock s < f_doneAt f)%nat).
Proof.
  revert s. induction l as [|i l IH]; intros s; cbn [allResolved].
  { intros [= <- <-]. split_and!; [done|set_solver|done]. }
  destruct (resolved i s) as [done s1] eqn:E. destruct (resolved_look _ _ _ _ E) as (Hl & Hc & _).
  destruct done.
  - intros (Hl' & Ht & Hf)%IH. split_and!; [by etrans|..].
    + intros Hb j [->|Hj]%elem_of_cons.
      * destruct (resolved_true _ _ _ E) as (f & Hf1 & Hf2). exists f. split; [done|].
        pose proof (lk_clock _ _ Hl'). lia.
      * rewrite <-(lk_core _ _ Hl). by apply Ht.
    + intros Hb. destruct (Hf Hb) as (j & Hj & H). exists j. split; [set_solver|].
      intros f Hf'. rewrite <-(lk_core _ _ Hl) in Hf'. specialize (H f Hf'). lia.
  - intros [= <- <-]. split_and!; [done..|]. intros _. exists i. split; [set_solver|].
    intros f Hf. pose proof (resolved_false _ _ _ _ E Hf). lia.
Qed.
End look.

(** ** The simulation *)

Section race.
Context `{L : Libs} (env : RuleEnv) (sched : Schedule).
Context (Transport : string -> option DNSTransport) (Default : DNSTransport) (defaultDomainStrategy : Z).
Context (message : Msg) (allowFakeIP : bool) (m0 : InboundContext).
Implicit Types s : dnsRuleWalkState.

Notation specFinal := (specFinal (sc_answer sched) Transport defaultDomainStrategy message allowFakeIP).
Notation specNext := (specNext (sc_answer sched) Transport defaultDomainStrategy).
Notation specWalk := (specWalk env (sc_answer sched) Transport Default defaultDomainStrategy message allowFakeIP m0).
Notation ask := (ask (sc_answer sched) defaultDomainStrategy).
Notation holds := (holds env m0).

(** What a reference to a future stands for. *)
Definition evaluated (fs : list dnsEvaluatedFuture) (i : option nat) : option (DNSTransport * option Msg) :=
  match i with
  | Some i => (fun f => (f_transport f, answerOf f)) <$> fs !! i
  | None => None
  end.

(** The candidate an armed rule will turn out to be. *)
Definition armedState (fs : list dnsEvaluatedFuture) (a : dnsArmedRule) : specState :=
  mkSpecState (ar_options a) (evaluated fs (ar_anonymousFuture a)).
Definition armedWinner (fs : list dnsEvaluatedFuture) (a : dnsArmedRule) : list exchangeWithRulesResult :=
  let st := armedState fs a in
  if holds (ar_rule a) (responseIn st) then optList (specFinal (ar_ruleIndex a) (ar_rule a) st) else [].
Definition winners (fs : list dnsEvaluatedFuture) (l : list dnsArmedRule) : list exchangeWithRulesResult :=
  concat (map (armedWinner fs) l).

(** An armed rule waits for the response it is about, or that is there. *)
Record armedOk (fs : list dnsEvaluatedFuture) (clock : nat) (a : dnsArmedRule) : Prop := {
  ao_rule : untagged env (ar_rule a);
  ao_binds : ar_bindsAnonymous a = true;
  ao_future i : ar_anonymousFuture a = Some i ->
    exists f, fs !! i = Some f /\ (ar_futures a = [i] \/ (ar_futures a = [] /\ (f_doneAt f <= clock)%nat));
  ao_none : ar_anonymousFuture a = None -> ar_futures a = [] }.

Lemma armedOk_later fs clock clock' a :
  (clock <= clock')%nat -> armedOk fs clock a -> armedOk fs clock' a.
Proof.
  intros Hc [H1 H2 H3 H4]. split; try done. intros i Hi. destruct (H3 i Hi) as (f & Hf & [Ha|[Ha Hd]]).
  - exists f. auto.
  - exists f. split; [done|]. right. split; [done|lia].
Qed.

(** The rest of what holds of a state on the way. *)
Record sane s : Prop := {
  sn_base : baseOf (ws_metadata s) = baseOf m0;
  sn_armed : Forall (armedOk (core s) (ws_clock s)) (ws_armedRules s);
  sn_wakes : Forall (fun f => (f_doneAt f <= f_wakeAt f)%nat) (core s);
  sn_wake : (ws_lastWake s <= ws_clock s)%nat }.

Lemma sane_look s s' : looked s s' -> sane s -> sane s'.
Proof.
  intros Hl [H1 H2 H3 H4]. destruct Hl. split; rewrite ?lk_armed0, ?lk_core0, ?lk_wake0; [congruence|..|done|lia].
  eapply Forall_impl; [|exact H2]. intros a. by apply armedOk_later.
Qed.

Hypothesis Hm0 : m_IgnoreDestinationIPCIDRMatch m0 = false.

Lemma match_base rule response s matched s' :
  untagged env rule -> baseOf (ws_metadata s) = baseOf m0 -> matchWith env rule response s = (matched, s') ->
  looked s s' /\ matched = holds rule response.
Proof.
  intros Hu Hb H. apply matchWith_look in H as [Hl ->]; [|done|by rewrite Hb]. split; [done|].
  change (spec_rule env rule (withResponses (baseOf (ws_metadata s)) response ∅)
          = spec_rule env rule (withResponses (baseOf m0) response ∅)). by rewrite Hb.
Qed.

(** *** The sweep *)

(** A rule armed without a response is judged before another one is evaluated. *)
Definition noneKnown s (a : dnsArmedRule) : Prop :=
  ar_anonymousFuture a = None -> ws_anonymousFuture s = None.

(** The response of an armed rule is there. *)
Definition responseThere s (a : dnsArmedRule) : Prop :=
  forall i, ar_anonymousFuture a = Some i -> exists f, core s !! i = Some f /\ (f_doneAt f <= ws_clock s)%nat.

Lemma untagged_tag h : untagged env h -> MatchResponseTag h = ""%string.
Proof.
  intros [H _ _]. destruct h; try done. cbn in *. by destruct (String.eqb_spec matchResponseTag "").
Qed.

Lemma armedRespond_winner a s r s' :
  untagged env (ar_rule a) -> responseThere s a -> noneKnown s a ->
  armedRespond a s = (r, s') ->
  looked s s' /\ r = match sp_response (armedState (core s) a) with
                     | Some (t, response) => respondWith response (Some t) | None => missingResponse end.
Proof.
  intros Hu Ht Hn. unfold armedRespond, armedState. rewrite (untagged_tag _ Hu). cbn [String.eqb negb].
  destruct (ar_anonymousFuture a) as [i|] eqn:Ea.
  - destruct (futureView i s) as [response s1] eqn:Ev. destruct (Ht i Ea) as (f & Hf & Hd).
    destruct (view_look _ _ _ _ Ev) as [Hl Hr]. rewrite (Hr f Hf Hd).
    intros [= <- <-]. split; [done|]. cbn. rewrite Hf. cbn.
    rewrite <-(lk_core _ _ Hl), core_lookup in Hf. destruct (ws_futures s1 !! i); [|done]. by injection Hf as <-.
  - rewrite (Hn Ea). intros [= <- <-]. by split.
Qed.

(** The outcome of a race rule is its candidate. *)
Lemma armedAction_winner a s outcome s' :
  untagged env (ar_rule a) -> responseThere s a -> noneKnown s a ->
  armedAction Transport message allowFakeIP a s = (outcome, s') ->
  looked s s' /\
  match outcome with
  | SweepResult r => specFinal (ar_ruleIndex a) (ar_rule a) (armedState (core s) a) = Some r
  | SweepPending p => exists o, pe_query p = inl o /\
      specFinal (ar_ruleIndex a) (ar_rule a) (armedState (core s) a) = Some (ask (pe_ruleIndex p) (pe_transport p) o)
  | SweepNothing => specFinal (ar_ruleIndex a) (ar_rule a) (armedState (core s) a) = None
  end.
Proof.
  intros Hu Ht Hn. unfold armedAction, DNSRace.specFinal.
  destruct (rule_Action (ar_rule a)) as [[]|]; try by intros [= <- <-].
  - cbn [sp_options armedState]. destruct (resolveDNSRoute _ _ _ _ _); intros [= <- <-]; try done.
    split; [done|]. by eexists.
  - destruct (armedRespond a s) as [r s1] eqn:E.
    destruct (armedRespond_winner _ _ _ _ Hu Ht Hn E) as [Hl ->]. intros [= <- <-]. done.
  - destruct (rejectResult _ _ _); by intros [= <- <-].
Qed.

Lemma armed_ready a s s' :
  armedOk (core s) (ws_clock s) a -> allResolved (ar_futures a) s = (true, s') -> responseThere s' a.
Proof.
  intros Ha H i Hi. destruct (allResolved_look _ _ _ _ H) as (Hl & Ht & _).
  rewrite (lk_core _ _ Hl). destruct (ao_future _ _ _ Ha i Hi) as (f & Hf & [E|[E Hd]]).
  - apply Ht; [done|]. rewrite E. set_solver.
  - exists f. split; [done|]. pose proof (lk_clock _ _ Hl). lia.
Qed.

(** An armed rule that is kept was seen to wait. *)
Definition waiting s (a : dnsArmedRule) : Prop :=
  exists i f, i ∈ ar_futures a /\ core s !! i = Some f /\ (ws_clock s < f_doneAt f)%nat.

(** What an outcome of the sweep says of the candidates [ws]. *)
Definition outcomeIn (outcome : sweepOutcome) (ws : list exchangeWithRulesResult) : Prop :=
  match outcome with
  | SweepResult r => r ∈ ws
  | SweepPending p => exists o, pe_query p = inl o /\ ask (pe_ruleIndex p) (pe_transport p) o ∈ ws
  | SweepNothing => False
  end.

Lemma winners_app fs l l' : winners fs (l ++ l') = (winners fs l ++ winners fs l')%list.
Proof. unfold winners. by rewrite map_app, concat_app. Qed.

Lemma outcomeIn_app outcome ws ws' : outcomeIn outcome ws -> outcomeIn outcome (ws' ++ ws).
Proof.
  destruct outcome; cbn; [set_solver| |done]. intros (o & Ho & H). exists o. split; [done|set_solver].
Qed.

(** The states of the walk but for the armed rules. *)
Definition setArmed (l : list dnsArmedRule) s : dnsRuleWalkState := {| s with ws_armedRules := l |}.

Lemma looked_setArmed l s s' : looked s s' -> looked (setArmed l s) (setArmed l s').
Proof. intros []. by split. Qed.

(** One armed rule that is judged: it is looked at, and its outcome is its
    candidate. *)
Lemma sweep_judged a s response s1 matched s2 :
  armedOk (core s) (ws_clock s) a -> baseOf (ws_metadata s) = baseOf m0 -> responseThere s a ->
  (if ar_bindsAnonymous a
   then match ar_anonymousFuture a with Some i => futureView i s | None => (None, s) end
   else anonymousResponse s) = (response, s1) ->
  matchWith env (ar_rule a) response s1 = (matched, s2) ->
  looked s s2 /\ matched = holds (ar_rule a) (responseIn (armedState (core s) a)).
Proof.
  intros Ha Hb Ht. rewrite (ao_binds _ _ _ Ha). intros Hr Hm.
  assert (H1 : looked s s1 /\ response = responseIn (armedState (core s) a)).
  { unfold responseIn, armedState. cbn. destruct (ar_anonymousFuture a) as [i|] eqn:Ea.
    - destruct (Ht i Ea) as (f & Hf & Hd). destruct (view_look _ _ _ _ Hr) as [Hl H].
      split; [done|]. cbn. rewrite Hf. by apply H.
    - by injection Hr as <- <-. }
  destruct H1 as [Hl ->]. destruct (match_base _ _ _ _ _ (ao_rule _ _ _ Ha) (eq_trans (lk_base _ _ Hl) Hb) Hm) as [Hl' ->].
  split; [by etrans|done].
Qed.

Definition sweepOk (l kept : list dnsArmedRule) s (outcome : option sweepOutcome) s' : Prop :=
  looked (setArmed (ws_armedRules s') s) s' /\
  match outcome with
  | None => exists l', ws_armedRules s' = (kept ++ l')%list /\ Forall (fun a => a ∈ l) l'
      /\ winners (core s) l' = winners (core s) l /\ Forall (waiting s) l'
  | Some outcome => outcomeIn outcome (winners (core s) l)
  end.

Lemma sweepOk_look l kept s s1 outcome s' :
  looked s s1 -> sweepOk l kept s1 outcome s' -> sweepOk l kept s outcome s'.
Proof.
  intros Hl [H1 H2]. split; [by etrans; [apply looked_setArmed|]|].
  rewrite (lk_core _ _ Hl) in H2. destruct outcome; [done|].
  destruct H2 as (l' & E & Hin & Hw & Hf). exists l'. split_and!; try done.
  eapply Forall_impl; [|exact Hf]. intros a (i & f & Hi & Hc & Hd). exists i, f.
  rewrite (lk_core _ _ Hl) in Hc. pose proof (lk_clock _ _ Hl). split_and!; [done..|lia].
Qed.

(** A rule that is no candidate makes no difference. *)
Lemma sweepOk_drop a l kept s outcome s' :
  armedWinner (core s) a = [] -> sweepOk l kept s outcome s' -> sweepOk (a :: l) kept s outcome s'.
Proof.
  intros Ha [H1 H2]. split; [done|].
  change (winners (core s) (a :: l)) with (armedWinner (core s) a ++ winners (core s) l)%list. rewrite Ha.
  destruct outcome; [done|]. destruct H2 as (l' & E & Hin & Hw & Hf). exists l'. split_and!; try done.
  eapply Forall_impl; [|exact Hin]. set_solver.
Qed.
Lemma sweepOk_keep a l kept s outcome s' :
  waiting s a -> sweepOk l (kept ++ [a]) s outcome s' -> sweepOk (a :: l) kept s outcome s'.
Proof.
  intros Ha [H1 H2]. split; [done|].
  change (winners (core s) (a :: l)) with (armedWinner (core s) a ++ winners (core s) l)%list.
  destruct outcome; [by apply outcomeIn_app|]. destruct H2 as (l' & E & Hin & Hw & Hf). exists (a :: l').
  split_and!; [by rewrite E, <-app_assoc| |cbn; by f_equal|by constructor].
  constructor; [set_solver|]. eapply Forall_impl; [|exact Hin]. set_solver.
Qed.

Lemma sweepLoop_spec l : forall kept s outcome s',
  baseOf (ws_metadata s) = baseOf m0 -> Forall (armedOk (core s) (ws_clock s)) l -> Forall (noneKnown s) l ->
  sweepLoop env Transport message allowFakeIP l kept s = (outcome, s') -> sweepOk l kept s outcome s'.
Proof.
  induction l as [|a l IH]; intros kept s outcome s' Hb Hl Hn; cbn [sweepLoop].
  { intros [= <- <-]. split; [done|]. exists []. by rewrite app_nil_r. }
  pose proof (Forall_inv Hl) as Ha. apply Forall_inv_tail in Hl.
  pose proof (Forall_inv Hn) as Hna. apply Forall_inv_tail in Hn.
  assert (IH' : forall s1 kept outcome s', looked s s1 ->
    sweepLoop env Transport message allowFakeIP l kept s1 = (outcome, s') -> sweepOk l kept s outcome s').
  { intros s1 kept1 o1 s2 H1 H. apply (sweepOk_look _ _ _ _ _ _ H1). apply (IH kept1 s1); try done.
    - by rewrite (lk_base _ _ H1).
    - rewrite (lk_core _ _ H1). eapply Forall_impl; [|exact Hl]. intros b.
      apply armedOk_later, (lk_clock _ _ H1).
    - eapply Forall_impl; [|exact Hn]. intros b Hbn E. rewrite (lk_anonymous _ _ H1). by apply Hbn. }
  destruct (allResolved (ar_futures a) s) as [ready s1] eqn:Er.
  destruct (allResolved_look _ _ _ _ Er) as (H1 & _ & Hnot). destruct ready; cbn [negb].
  - assert (Ha1 : armedOk (core s1) (ws_clock s1) a).
    { rewrite (lk_core _ _ H1). eapply armedOk_later; [apply (lk_clock _ _ H1)|done]. }
    pose proof (armed_ready _ _ _ Ha Er) as Ht.
    destruct (if ar_bindsAnonymous a then _ else _) as [response s2] eqn:Ev.
    destruct (matchWith env (ar_rule a) response s2) as [matched s3] eqn:Em.
    destruct (sweep_judged _ _ _ _ _ _ Ha1 (eq_trans (lk_base _ _ H1) Hb) Ht Ev Em) as [H3 Hmatched].
    assert (H03 : looked s s3) by (by etrans). rewrite (lk_core _ _ H1) in Hmatched.
    assert (Hw : armedWinner (core s) a
      = if matched then optList (specFinal (ar_ruleIndex a) (ar_rule a) (armedState (core s) a)) else [])
      by (by rewrite Hmatched).
    destruct matched; cbn [negb].
    + destruct (armedAction Transport message allowFakeIP a s3) as [o s4] eqn:Ea.
      destruct (armedAction_winner a s3 o s4 (ao_rule _ _ _ Ha)) as [H4 Ho]; [|intros E; rewrite (lk_anonymous _ _ H03); auto|done|].
      { intros i Hi. destruct (Ht i Hi) as (f & Hf & Hd). exists f. rewrite (lk_core _ _ H3).
        split; [done|]. pose proof (lk_clock _ _ H3). lia. }
      rewrite (lk_core _ _ H03) in Ho.
      assert (H04 : looked s s4) by (by etrans).
      destruct o as [r|p|]; cbn iota.
      * intros [= <- <-]. split; [by apply looked_setArmed|]. cbn [outcomeIn winners map concat].
        rewrite Hw, Ho. set_solver.
      * intros [= <- <-]. split; [by apply looked_setArmed|]. destruct Ho as (o & Hq & Ho). exists o.
        split; [done|]. cbn [winners map concat]. rewrite Hw, Ho. set_solver.
      * intros H. apply sweepOk_drop; [by rewrite Hw, Ho|]. by apply (IH' s4).
    + intros H. apply sweepOk_drop; [done|]. by apply (IH' s3).
  - intros H. apply sweepOk_keep; [|by apply (IH' s1)].
    destruct (Hnot eq_refl) as (i & Hi & Hd). exists i.
    destruct (ar_anonymousFuture a) as [j|] eqn:Ej; [|by rewrite (ao_none _ _ _ Ha Ej) in Hi; apply elem_of_nil in Hi].
    destruct (ao_future _ _ _ Ha j Ej) as (f & Hf & [E|[E _]]); rewrite E in Hi; [|by apply elem_of_nil in Hi].
    apply list_elem_of_singleton in Hi as ->. exists f. split_and!; [rewrite E; set_solver|done|by apply Hd].
Qed.

(** *** The walk *)

(** A query sent ahead for the rule the walk is held at is that rule's query. *)
Definition terminalOk s (rules : list HeadlessRule) (st : specState) : Prop :=
  forall k, ws_terminalFuture s = Some k ->
  (ws_terminalIndex s <= ws_ruleIndex s)%nat /\
  (ws_terminalIndex s = ws_ruleIndex s ->
   exists f rule rest server speculative o t options,
     rules = rule :: rest /\ rule_Action rule = Some (RuleActionDNSRoute server speculative o)
     /\ resolveDNSRoute Transport server o allowFakeIP (sp_options st) = dnsRouteStatusResolved t options
     /\ core s !! k = Some f /\ f_transport f = t
     /\ f_answer f = query (sc_answer sched) defaultDomainStrategy (ws_ruleIndex s) t options).

(** The state of the walk in front of the rules [rules], against the state of
    the specification in front of them. *)
Record onWay s (rules : list HeadlessRule) (st : specState) : Prop := {
  ow_sane : sane s;
  ow_waiting : Forall (fun a => ar_futures a <> []) (ws_armedRules s);
  ow_options : ws_effectiveOptions s = sp_options st;
  ow_valid i : ws_anonymousFuture s = Some i -> is_Some (core s !! i);
  ow_response : evaluated (core s) (ws_anonymousFuture s) = sp_response st;
  ow_rules : Forall (untagged env) rules;
  ow_terminal : terminalOk s rules st }.

(** What may still come out. *)
Definition total s (rules : list HeadlessRule) (st : specState) :
    list exchangeWithRulesResult * exchangeWithRulesResult :=
  let '(ws, ordered) := specWalk (ws_ruleIndex s) rules st in
  (winners (core s) (ws_armedRules s) ++ ws, ordered)%list.

Lemma onWay_look s s' rules st :
  looked s s' -> onWay s rules st -> onWay s' rules st /\ total s' rules st = total s rules st.
Proof.
  intros Hl [H1 H2 H3 H4 H5 H6 H7]. pose proof (sane_look _ _ Hl H1). destruct Hl.
  split; [|by unfold total; rewrite lk_index0, lk_core0, lk_armed0].
  split; rewrite ?lk_armed0, ?lk_core0, ?lk_anonymous0; try done; [congruence|].
  intros k Hk. rewrite lk_index0, lk_terminalIndex0, lk_core0. apply H7. by rewrite <-lk_terminal0.
Qed.

(** *** A new future *)

Lemma evaluated_grow fs f i : (forall j, i = Some j -> is_Some (fs !! j)) ->
  evaluated (fs ++ [f]) i = evaluated fs i.
Proof.
  intros H. destruct i as [j|]; [|done]. cbn. destruct (H j eq_refl) as [g Hg].
  by rewrite lookup_app_l by (by eapply lookup_lt_Some).
Qed.

Lemma armedOk_valid fs clock a i : armedOk fs clock a -> ar_anonymousFuture a = Some i -> is_Some (fs !! i).
Proof. intros Ha Hi. destruct (ao_future _ _ _ Ha i Hi) as (f & Hf & _). by exists f. Qed.

Lemma winners_grow fs f clock l :
  Forall (armedOk fs clock) l -> winners (fs ++ [f]) l = winners fs l.
Proof.
  induction 1 as [|a l Ha _ IH]; [done|]. unfold winners in *. cbn. rewrite IH. f_equal.
  unfold armedWinner, armedState. rewrite evaluated_grow; [done|]. intros j. by apply (armedOk_valid _ _ _ _ Ha).
Qed.

Lemma armedOk_grow fs f clock clock' a :
  (clock <= clock')%nat -> armedOk fs clock a -> armedOk (fs ++ [f]) clock' a.
Proof.
  intros Hc [H1 H2 H3 H4]. split; try done. intros i Hi. destruct (H3 i Hi) as (g & Hg & H).
  exists g. split; [by rewrite lookup_app_l by (by eapply lookup_lt_Some)|].
  destruct H as [H|[H Hd]]; [by left|right; split; [done|lia]].
Qed.

(** [launchDNSEvaluate], in terms of the futures. *)
Definition launched (tag : string) (terminal : bool) (t : DNSTransport) (o : DNSQueryOptions) s :
    dnsEvaluatedFuture :=
  let doneAt := Nat.max (S (ws_clock s)) (sc_doneAt sched (ws_ruleIndex s)) in
  mkFuture tag terminal t (query (sc_answer sched) defaultDomainStrategy (ws_ruleIndex s) t o)
    doneAt (Nat.max doneAt (sc_wakeAt sched (ws_ruleIndex s))) false.

Lemma launch_sane tag terminal t o s i s' :
  sane s -> launchDNSEvaluate sched defaultDomainStrategy tag terminal t o s = (i, s') ->
  sane s' /\ core s' = (core s ++ [launched tag terminal t o s])%list /\ i = length (core s)
  /\ s' = {| s with ws_futures := ws_futures s'; ws_clock := S (ws_clock s) |}.
Proof.
  intros [H1 H2 H3 H4]. unfold launchDNSEvaluate. intros [= <- Hs].
  assert (Hc : core s' = (core s ++ [launched tag terminal t o s])%list)
    by (rewrite <-Hs; unfold core; cbn [ws_futures]; by rewrite map_app).
  assert (Ha : ws_armedRules s' = ws_armedRules s) by (by rewrite <-Hs).
  assert (Ht : ws_clock s' = S (ws_clock s)) by (by rewrite <-Hs).
  assert (Hw : ws_lastWake s' = ws_lastWake s) by (by rewrite <-Hs).
  split_and!; [|exact Hc|by unfold core; rewrite length_map|by rewrite <-Hs].
  split; rewrite ?Ha, ?Hc, ?Ht, ?Hw; [by rewrite <-Hs|..|lia].
  - eapply Forall_impl; [|exact H2]. intros a. apply armedOk_grow. lia.
  - apply Forall_app. split; [done|]. constructor; [cbn; lia|constructor].
Qed.

(** A new future does not change what the walk has got so far. *)
Lemma onWay_launch tag terminal t o s i s' rules st :
  onWay s rules st -> launchDNSEvaluate sched defaultDomainStrategy tag terminal t o s = (i, s') ->
  onWay s' rules st /\ total s' rules st = total s rules st.
Proof.
  intros [H1 H2 H3 H4 H5 H6 H7] Hl. destruct (launch_sane _ _ _ _ _ _ _ H1 Hl) as (Hs & Hc & _ & E).
  assert (Hgrow : forall j f, core s !! j = Some f -> core s' !! j = Some f)
    by (intros j f Hj; rewrite Hc, lookup_app_l; [done|by eapply lookup_lt_Some]).
  split.
  - split; try done; try (rewrite E; done).
    + intros j Hj. rewrite E in Hj. destruct (H4 j Hj) as [f Hf]. exists f. by apply Hgrow.
    + rewrite Hc, <-H5. rewrite E. cbn [ws_anonymousFuture]. by apply evaluated_grow.
    + intros k Hk. rewrite E in Hk. destruct (H7 k Hk) as [Hle Heq]. rewrite E at 1 2. split; [done|].
      rewrite E at 1 2. intros Hi. destruct (Heq Hi) as (f & rule & rest & server & sp & o' & t' & opts & H).
      exists f, rule, rest, server, sp, o', t', opts. destruct H as (? & ? & ? & ? & ? & ?).
      split_and!; try done; [by apply Hgrow|by rewrite E].
  - unfold total. rewrite Hc, E. cbn [ws_armedRules ws_ruleIndex].
    rewrite (winners_grow _ _ (ws_clock s)); [done|apply H1].
Qed.

(** *** One rule *)

(** From [s] to [s'] without leaving the rule, with at most [k] new futures. *)
Record grows (k : nat) s s' : Prop := {
  gr_index : ws_ruleIndex s' = ws_ruleIndex s;
  gr_wake : ws_lastWake s' = ws_lastWake s;
  gr_clock : (ws_clock s <= ws_clock s')%nat;
  gr_core : exists new, core s' = (core s ++ new)%list /\ (length new <= k)%nat }.

Lemma grows_look k s s1 s' : looked s s1 -> grows k s1 s' -> grows k s s'.
Proof.
  intros [] [H1 H2 H3 (new & H4 & H5)]. split; [congruence..|lia|]. exists new. by rewrite H4, lk_core0.
Qed.
Lemma grows_same k s s' :
  ws_ruleIndex s' = ws_ruleIndex s -> ws_lastWake s' = ws_lastWake s -> (ws_clock s <= ws_clock s')%nat ->
  core s' = core s -> grows k s s'.
Proof. intros. split; try done. exists []. rewrite app_nil_r. split; [done|cbn; lia]. Qed.
Lemma looked_grows k s s' : looked s s' -> grows k s s'.
Proof. intros []. by apply grows_same. Qed.
Lemma launch_grows tag terminal t o s i s' :
  sane s -> launchDNSEvaluate sched defaultDomainStrategy tag terminal t o s = (i, s') -> grows 1 s s'.
Proof.
  intros Hs H. destruct (launch_sane _ _ _ _ _ _ _ Hs H) as (_ & Hc & _ & E).
  split; [by rewrite E..|rewrite E; cbn; lia|]. eexists. by split.
Qed.

Definition nextIndex s : dnsRuleWalkState := {| s with ws_ruleIndex := S (ws_ruleIndex s) |}.

(** The query a suspension waits for gives one of the results [t0]. *)
Definition pendingOk (t0 : list exchangeWithRulesResult * exchangeWithRulesResult) (p : dnsPendingExchange) s :
    Prop :=
  match pe_query p with
  | inl o => allowed t0 (ask (pe_ruleIndex p) (pe_transport p) o)
  | inr k => exists f, core s !! k = Some f
      /\ allowed t0 (mkExchangeResult (answerOf f) (Some (f_transport f)) None (snd (f_answer f)))
  end.

Definition heldOk s (rules : list HeadlessRule) (st : specState)
    (t0 : list exchangeWithRulesResult * exchangeWithRulesResult) (suspension : dnsWalkSuspension) s' : Prop :=
  match suspension with
  | SuspendPending p => sane s' /\ ws_armedRules s' = [] /\ pendingOk t0 p s'
  | SuspendDrain => onWay s' rules st /\ total s' rules st = t0 /\ grows 1 s s'
      /\ ws_armedRules s' = ws_armedRules s /\ ws_armedRules s <> []
  | SuspendAwait i => onWay s' rules st /\ total s' rules st = t0 /\ grows 0 s s'
      /\ ws_armedRules s' = ws_armedRules s /\ ws_anonymousFuture s' = Some i
      /\ ws_anonymousFuture s = Some i /\ forall f, core s !! i = Some f -> (ws_clock s < f_doneAt f)%nat
  end.

(** What one rule does: it is passed, or it ends the walk. *)
Definition stepOk s (rule : HeadlessRule) (rules : list HeadlessRule) (st : specState)
    (t0 : list exchangeWithRulesResult * exchangeWithRulesResult) (outcome : option walkOutcome) s' : Prop :=
  match outcome with
  | None => grows 1 s s' /\ exists st', onWay (nextIndex s') rules st' /\ total (nextIndex s') rules st' = t0
  | Some (WalkResult r) => allowed t0 r
  | Some (WalkSuspended suspension) => heldOk s (rule :: rules) st t0 suspension s'
  end.

Lemma stepOk_look s s1 rule rules st t0 outcome s' :
  looked s s1 -> stepOk s1 rule rules st t0 outcome s' -> stepOk s rule rules st t0 outcome s'.
Proof.
  intros Hl. destruct outcome as [[r|[i| |p]]|]; cbn; try done.
  - intros (H1 & H2 & H3 & H4 & H5 & H7 & H6).
    split_and!; try done; [by eapply grows_look|by rewrite H4, (lk_armed _ _ Hl)|by rewrite <-(lk_anonymous _ _ Hl)|].
    intros f Hf. rewrite <-(lk_core _ _ Hl) in Hf. specialize (H6 f Hf). pose proof (lk_clock _ _ Hl). lia.
  - rewrite (lk_armed _ _ Hl). intros (H1 & H2 & H3 & H4). split_and!; try done; [by eapply grows_look|apply H4..].
  - intros [H1 H2]. split; [by eapply grows_look|done].
Qed.

Lemma onWay_next s rule rules st : onWay s (rule :: rules) st -> onWay (nextIndex s) rules st.
Proof.
  intros [H1 H2 H3 H4 H5 H6 H7]. split; try done; [by destruct H1; split|by apply Forall_inv_tail in H6|].
  intros k Hk. destruct (H7 k Hk) as [Hle _]. cbn [ws_terminalIndex ws_ruleIndex nextIndex]. split; lia.
Qed.

(** A rule that does not hold is passed over by both. *)
Lemma total_skip s rule rules st :
  holds rule (responseIn st) = false -> total (nextIndex s) rules st = total s (rule :: rules) st.
Proof. intros H. unfold total. cbn [DNSRace.specWalk ws_ruleIndex nextIndex]. by rewrite H. Qed.

Lemma step_skip s s' rule rules st :
  onWay s (rule :: rules) st -> looked s s' -> holds rule (responseIn st) = false ->
  stepOk s rule rules st (total s (rule :: rules) st) None s'.
Proof.
  intros Hw Hl Hh. destruct (onWay_look _ _ _ _ Hl Hw) as [Hw' Ht]. split; [by apply looked_grows|].
  exists st. split; [by eapply onWay_next|]. rewrite <-Ht. by apply total_skip.
Qed.

(** *** The action of a rule that holds *)

Section action.
Context (rule : HeadlessRule) (rules : list HeadlessRule) (st : specState).
Context (Hholds : holds rule (responseIn st) = true) (Hrace : isRace rule = false).

Lemma total_final s r :
  specFinal (ws_ruleIndex s) rule st = Some r ->
  total s (rule :: rules) st = (winners (core s) (ws_armedRules s), r).
Proof. intros H. unfold total. cbn [DNSRace.specWalk]. rewrite Hholds, Hrace, H. cbn. by rewrite app_nil_r. Qed.

Lemma total_next s :
  specFinal (ws_ruleIndex s) rule st = None ->
  total s (rule :: rules) st = total (nextIndex s) rules (specNext (ws_ruleIndex s) rule st).
Proof. intros H. unfold total. cbn [DNSRace.specWalk]. by rewrite Hholds, Hrace, H. Qed.

Lemma noArmed_spec s : noArmed s = true <-> ws_armedRules s = [].
Proof. unfold noArmed. by destruct (ws_armedRules s). Qed.
Lemma noArmed_false s : noArmed s = false -> ws_armedRules s <> [].
Proof. unfold noArmed. by destruct (ws_armedRules s). Qed.

(** With no race rule armed the rule decides. *)
Lemma final_allowed s r :
  ws_armedRules s = [] -> specFinal (ws_ruleIndex s) rule st = Some r ->
  allowed (total s (rule :: rules) st) r.
Proof. intros Ha H. by rewrite (total_final s r H), Ha. Qed.

(** With one armed it is held. *)
Lemma step_drain s :
  onWay s (rule :: rules) st -> noArmed s = false ->
  stepOk s rule rules st (total s (rule :: rules) st) (Some drain) s.
Proof. intros Hw Ha%noArmed_false. cbn. split_and!; try done. by apply looked_grows. Qed.

(** An action that changes nothing the specification sees. *)
Lemma step_pass s :
  onWay s (rule :: rules) st -> specFinal (ws_ruleIndex s) rule st = None ->
  specNext (ws_ruleIndex s) rule st = st ->
  stepOk s rule rules st (total s (rule :: rules) st) None s.
Proof.
  intros Hw Hf Hn. split; [by apply looked_grows|]. exists st.
  split; [by eapply onWay_next|]. by rewrite (total_next s Hf), Hn.
Qed.

Lemma step_evaluate s server tag speculative o outcome s' :
  onWay s (rule :: rules) st -> rule_Action rule = Some (RuleActionEvaluate server tag speculative o) ->
  walkEvaluate sched Transport defaultDomainStrategy server tag speculative o s = (outcome, s') ->
  stepOk s rule rules st (total s (rule :: rules) st) outcome s'.
Proof.
  intros Hw Ha. unfold walkEvaluate.
  assert (Hf : specFinal (ws_ruleIndex s) rule st = None) by (unfold DNSRace.specFinal; by rewrite Ha).
  assert (Hnext : specNext (ws_ruleIndex s) rule st
    = if String.eqb tag "" then mkSpecState (sp_options st) match Transport server with
        | None => None
        | Some t => Some (t, responseOnly (query (sc_answer sched) defaultDomainStrategy (ws_ruleIndex s) t
                                             (applyDNSRouteOptions (sp_options st) o))) end
      else st) by (unfold DNSRace.specNext; by rewrite Ha).
  destruct (Transport server) as [t|].
  2:{ intros [= <- <-]. destruct (String.eqb tag "") eqn:Et; [|by apply step_pass].
      split; [by apply grows_same|]. eexists. rewrite (total_next s Hf), Hnext. split; [|done].
      apply onWay_next in Hw as [H1 H2 H3 H4 H5 H6 H7]. by split; try done; destruct H1; split. }
  destruct (negb speculative && negb (noArmed s)) eqn:Ed.
  { intros [= <- <-]. apply step_drain; [done|]. by apply andb_prop in Ed as [_ Ed%negb_true_iff]. }
  destruct (launchDNSEvaluate _ _ _ _ _ _ s) as [i s1] eqn:El. intros [= <- <-].
  pose proof (ow_sane _ _ _ Hw) as Hs. pose proof (launch_grows _ _ _ _ _ _ _ Hs El) as Hg.
  destruct (onWay_launch _ _ _ _ _ _ _ _ _ Hw El) as [Hw1 Ht1].
  destruct (launch_sane _ _ _ _ _ _ _ Hs El) as (_ & Hc & Hi & E).
  assert (Hidx : ws_ruleIndex s1 = ws_ruleIndex s) by apply Hg.
  rewrite <-Ht1, (total_next s1) by (by rewrite Hidx). rewrite <-Hidx in Hnext. rewrite Hnext. rewrite (ow_options _ _ _ Hw) in El, Hc.
  destruct (String.eqb tag "") eqn:Et.
  - split; [by destruct Hg; split|]. eexists. split; [|done].
    apply onWay_next in Hw1 as [H1 H2 H3 H4 H5 H6 H7]. split; try done; [by destruct H1; split|..].
    + intros j [= <-]. change (is_Some (core s1 !! i)). rewrite Hc, Hi, lookup_app_r, Nat.sub_diag by lia.
      by eexists.
    + change (evaluated (core s1) (Some i) = Some (t, responseOnly (query (sc_answer sched) defaultDomainStrategy
                (ws_ruleIndex s1) t (applyDNSRouteOptions (sp_options st) o)))).
      rewrite Hidx, Hc, Hi. cbn. by rewrite lookup_app_r, Nat.sub_diag by lia.
  - split; [by destruct Hg; split|]. exists st. split; [|done].
    apply onWay_next in Hw1 as [H1 H2 H3 H4 H5 H6 H7]. by split; try done; destruct H1; split.
Qed.

(** The anonymous response is there. *)
Definition anonymousThere s : Prop :=
  forall i f, ws_anonymousFuture s = Some i -> core s !! i = Some f -> (f_doneAt f <= ws_clock s)%nat.

Lemma anonymousThere_look s s' : looked s s' -> anonymousThere s -> anonymousThere s'.
Proof.
  intros Hl H i f. rewrite (lk_anonymous _ _ Hl), (lk_core _ _ Hl). intros Hi Hf. specialize (H i f Hi Hf).
  pose proof (lk_clock _ _ Hl). lia.
Qed.

Lemma anonymousResponse_there s rules' response s' :
  onWay s rules' st -> anonymousThere s -> anonymousResponse s = (response, s') ->
  response = responseIn st.
Proof.
  intros Hw Ht. unfold anonymousResponse, responseIn. rewrite <-(ow_response _ _ _ Hw).
  destruct (ws_anonymousFuture s) as [i|] eqn:Ei; [|by intros [= <- _]].
  intros [_ H]%view_look. destruct (ow_valid _ _ _ Hw i Ei) as [f Hf]. cbn. rewrite Hf.
  by apply H; [|eapply Ht].
Qed.

(** A look at the anonymous response: it is there, or it has to be waited for. *)
Lemma await_anonymous s i done s1 rules' :
  onWay s rules' st -> ws_anonymousFuture s = Some i -> resolved i s = (done, s1) ->
  looked s s1 /\ if done then anonymousThere s1
                 else forall f, core s !! i = Some f -> (ws_clock s < f_doneAt f)%nat.
Proof.
  intros Hw Hi H. destruct (resolved_look _ _ _ _ H) as (Hl & Hc & _). split; [done|].
  destruct done.
  - intros j f. rewrite (lk_anonymous _ _ Hl), Hi, (lk_core _ _ Hl). intros [= <-] Hf.
    destruct (resolved_true _ _ _ H) as (f' & Hf' & Hd). rewrite Hf in Hf'. by injection Hf' as <-.
  - intros f Hf. pose proof (resolved_false _ _ _ _ H Hf). lia.
Qed.

Lemma step_await s s1 i :
  onWay s (rule :: rules) st -> looked s s1 -> ws_anonymousFuture s = Some i ->
  (forall f, core s !! i = Some f -> (ws_clock s < f_doneAt f)%nat) ->
  stepOk s rule rules st (total s (rule :: rules) st) (Some (WalkSuspended (SuspendAwait i))) s1.
Proof.
  intros Hw Hl Hi Hd. destruct (onWay_look _ _ _ _ Hl Hw) as [Hw1 Ht1]. cbn.
  split_and!; [done..|by apply looked_grows|apply Hl|by rewrite (lk_anonymous _ _ Hl)|done|done].
Qed.

Lemma respond_final s :
  onWay s (rule :: rules) st -> rule_Action rule = Some RuleActionRespond -> ws_armedRules s = [] ->
  anonymousThere s -> forall response s1, anonymousResponse s = (response, s1) ->
  allowed (total s (rule :: rules) st)
    (respondWith response (match ws_anonymousFuture s1 with
                           | Some i => option_map f_transport (ws_futures s1 !! i) | None => None end)).
Proof.
  intros Hw Ha Harm Ht response s1 H. pose proof (anonymousResponse_there _ _ _ _ Hw Ht H) as ->.
  apply anonymousResponse_look in H as Hl. apply final_allowed; [done|]. unfold DNSRace.specFinal. rewrite Ha. f_equal.
  unfold responseIn. rewrite <-(ow_response _ _ _ Hw), (lk_anonymous _ _ Hl).
  destruct (ws_anonymousFuture s) as [i|] eqn:Ei; [|done]. cbn.
  destruct (ow_valid _ _ _ Hw i Ei) as [f Hf]. rewrite Hf. cbn.
  rewrite <-(lk_core _ _ Hl), core_lookup in Hf. destruct (ws_futures s1 !! i); [|done]. by injection Hf as <-.
Qed.

Lemma step_respond s hasBindings outcome s' :
  onWay s (rule :: rules) st -> rule_Action rule = Some RuleActionRespond -> untagged env rule ->
  (hasBindings = true -> anonymousThere s) ->
  walkRespond rule hasBindings s = (outcome, s') ->
  stepOk s rule rules st (total s (rule :: rules) st) outcome s'.
Proof.
  intros Hw Ha Hu Hb. unfold walkRespond. rewrite (untagged_tag _ Hu). cbn [String.eqb negb].
  destruct (noArmed s) eqn:En; cbn [negb]; [|intros [= <- <-]; by apply step_drain].
  apply noArmed_spec in En.
  assert (Hend : forall s1, looked s s1 -> anonymousThere s1 ->
    (let '(response, s) := anonymousResponse s1 in
     (Some (WalkResult (respondWith response (match ws_anonymousFuture s with
        | Some i => option_map f_transport (ws_futures s !! i) | None => None end))), s)) = (outcome, s') ->
    stepOk s rule rules st (total s (rule :: rules) st) outcome s').
  { intros s1 Hl Ht. destruct (onWay_look _ _ _ _ Hl Hw) as [Hw1 Ht1].
    destruct (anonymousResponse s1) as [response s2] eqn:E. intros [= <- <-]. cbn [stepOk]. rewrite <-Ht1.
    apply (respond_final s1); try done. by rewrite (lk_armed _ _ Hl). }
  destruct hasBindings; [by apply Hend; auto|].
  destruct (ws_anonymousFuture s) as [i|] eqn:Ei.
  - destruct (resolved i s) as [done s1] eqn:Er. destruct (await_anonymous _ _ _ _ _ Hw Ei Er) as [Hl Hd].
    destruct done; [by apply Hend|]. intros [= <- <-]. by apply step_await.
  - apply Hend; [done|]. intros j f Hj. congruence.
Qed.

(** The query of the rule, to be sent or sent ahead, is its result. *)
Lemma step_pending s server speculative o t options :
  onWay s (rule :: rules) st -> rule_Action rule = Some (RuleActionDNSRoute server speculative o) ->
  resolveDNSRoute Transport server o allowFakeIP (sp_options st) = dnsRouteStatusResolved t options ->
  ws_armedRules s = [] ->
  stepOk s rule rules st (total s (rule :: rules) st) (Some (suspendPending s t options)) s.
Proof.
  intros Hw Ha Hr Harm. cbn. split_and!; [apply Hw|done|]. cbn.
  apply final_allowed; [done|]. unfold DNSRace.specFinal. by rewrite Ha, Hr.
Qed.

Lemma observe_future f t a :
  f_transport f = t -> f_answer f = a ->
  observe (mkExchangeResult (answerOf f) (Some (f_transport f)) None (snd (f_answer f)))
  = observe (mkExchangeResult (fst a) (Some t) None (snd a)).
Proof. intros <- <-. unfold observe, answerOf. cbn. by destruct (f_answer f) as [response [e|]]. Qed.

Lemma step_terminal s server speculative o t options k f :
  onWay s (rule :: rules) st -> rule_Action rule = Some (RuleActionDNSRoute server speculative o) ->
  resolveDNSRoute Transport server o allowFakeIP (sp_options st) = dnsRouteStatusResolved t options ->
  ws_armedRules s = [] -> ws_terminalFuture s = Some k -> ws_terminalIndex s = ws_ruleIndex s ->
  core s !! k = Some f ->
  stepOk s rule rules st (total s (rule :: rules) st)
    (Some (WalkSuspended (SuspendPending (mkPending (ws_ruleIndex s) (f_transport f) (inr k))))) s.
Proof.
  intros Hw Ha Hr Harm Hk Hi Hf. cbn. split_and!; [apply Hw|done|]. exists f. split; [done|].
  destruct (ow_terminal _ _ _ Hw k Hk) as [_ H].
  destruct (H Hi) as (f' & rule' & rest & server' & sp & o' & t' & options' & [= <- <-] & Ha' & Hr' & Hf' & Ht & Hans).
  rewrite Ha in Ha'. injection Ha' as <- <- <-. rewrite Hr in Hr'. injection Hr' as <- <-.
  rewrite Hf in Hf'. injection Hf' as <-.
  rewrite (total_final s (ask (ws_ruleIndex s) t options)) by (unfold DNSRace.specFinal; by rewrite Ha, Hr).
  unfold allowed. rewrite Harm. cbn [fst snd winners map concat]. by apply observe_future.
Qed.

Lemma step_route s server speculative o outcome s' :
  onWay s (rule :: rules) st -> rule_Action rule = Some (RuleActionDNSRoute server speculative o) ->
  walkRoute sched Transport defaultDomainStrategy server speculative o allowFakeIP s = (outcome, s') ->
  stepOk s rule rules st (total s (rule :: rules) st) outcome s'.
Proof.
  intros Hw Ha. unfold walkRoute. rewrite (ow_options _ _ _ Hw).
  assert (Hnext : specNext (ws_ruleIndex s) rule st = st) by (unfold DNSRace.specNext; by rewrite Ha).
  destruct (resolveDNSRoute _ _ _ _ _) as [|t|t options] eqn:Er;
    [intros [= <- <-]; apply step_pass; [done| |done]; unfold DNSRace.specFinal; by rewrite Ha, Er..|].
  destruct (noArmed s) eqn:En; cbn [negb].
  - apply noArmed_spec in En. pose proof (step_pending s server speculative o t options Hw Ha Er En) as Hp.
    destruct (ws_terminalFuture s) as [k|] eqn:Ek; [|by intros [= <- <-]].
    destruct (ws_terminalIndex s =? ws_ruleIndex s)%nat eqn:Ei; [|by intros [= <- <-]]. apply Nat.eqb_eq in Ei.
    destruct (ws_futures s !! k) as [f|] eqn:Ef; intros [= <- <-]; [|done].
    apply (step_terminal s server speculative o t options k (coreOf f)); try done. by rewrite core_lookup, Ef.
  - destruct (speculative && negb (isSome (ws_terminalFuture s))) eqn:Es;
      [|intros [= <- <-]; by apply step_drain].
    destruct (launchDNSEvaluate _ _ _ _ _ _ s) as [i s1] eqn:El. intros [= <- <-].
    pose proof (ow_sane _ _ _ Hw) as Hs. pose proof (launch_grows _ _ _ _ _ _ _ Hs El) as Hg.
    destruct (onWay_launch _ _ _ _ _ _ _ _ _ Hw El) as [Hw1 Ht1].
    destruct (launch_sane _ _ _ _ _ _ _ Hs El) as (_ & Hc & Hi & E). cbn.
    assert (Harm : ws_armedRules s1 = ws_armedRules s) by (by rewrite E).
    split_and!; [|done|by destruct Hg; split|done|by apply noArmed_false].
    destruct Hw1 as [H1 H2 H3 H4 H5 H6 H7]. split; try done; [by destruct H1; split|].
    intros k [= <-]. cbn [ws_terminalIndex ws_ruleIndex]. split; [lia|]. intros _.
    assert (Hidx : ws_ruleIndex s1 = ws_ruleIndex s) by apply Hg.
    exists (launched "" true t options s), rule, rules, server, speculative, o, t, options.
    split_and!; try done; [|by rewrite Hidx].
    change (core s1 !! i = Some (launched "" true t options s)). by rewrite Hc, Hi, lookup_app_r, Nat.sub_diag by lia.
Qed.

Lemma step_action s hasBindings outcome s' :
  onWay s (rule :: rules) st -> untagged env rule -> (hasBindings = true -> anonymousThere s) ->
  walkAction sched Transport defaultDomainStrategy message allowFakeIP rule hasBindings s = (outcome, s') ->
  stepOk s rule rules st (total s (rule :: rules) st) outcome s'.
Proof.
  intros Hw Hu Hb. unfold walkAction. destruct (rule_Action rule) as [a|] eqn:Ea.
  2:{ intros [= <- <-]. apply step_pass; [done|..]; [unfold DNSRace.specFinal|unfold DNSRace.specNext]; by rewrite Ea. }
  destruct a;
    try (intros [= <- <-]; apply step_pass; [done|..];
         [unfold DNSRace.specFinal|unfold DNSRace.specNext]; by rewrite Ea).
  - by apply step_route.
  - by apply step_evaluate.
  - by apply step_respond.
  - intros [= <- <-]. split; [by apply grows_same|]. eexists.
    rewrite (total_next s) by (unfold DNSRace.specFinal; by rewrite Ea).
    unfold DNSRace.specNext. rewrite Ea. split; [|done].
    pose proof (ow_terminal _ _ _ Hw) as Hterm.
    apply onWay_next in Hw as [H1 H2 H3 H4 H5 H6 H7]. split; try done; [by destruct H1; split|cbn; by rewrite <-H3|].
    intros k Hk. destruct (Hterm k Hk) as [Hle _]. cbn [ws_terminalIndex ws_ruleIndex nextIndex]. split; lia.
  - destruct (noArmed s) eqn:En; cbn [negb]; [|intros [= <- <-]; by apply step_drain].
    apply noArmed_spec in En. intros [= <- <-]. destruct (rejectResult _ _ _) as [r|] eqn:Er; cbn [option_map].
    + apply final_allowed; [done|]. unfold DNSRace.specFinal. by rewrite Ea.
    + apply step_pass; [done|..]; [unfold DNSRace.specFinal|unfold DNSRace.specNext]; by rewrite Ea.
  - destruct (noArmed s) eqn:En; cbn [negb]; [|intros [= <- <-]; by apply step_drain].
    apply noArmed_spec in En. intros [= <- <-]. apply final_allowed; [done|].
    unfold DNSRace.specFinal. by rewrite Ea.
Qed.
End action.

(** *** A race rule *)

Lemma isRace_binds rule : untagged env rule -> isRace rule = true -> MatchResponseAnonymous rule = true.
Proof. unfold isRace. intros [-> _ _]. cbn. by intros [? _]%andb_prop. Qed.

(** The entry for the rule in [armedRules]. *)
Definition armedFor (rule : HeadlessRule) (pending : list nat) s : dnsArmedRule :=
  mkArmedRule (ws_ruleIndex s) rule pending (ws_anonymousFuture s) true (ws_effectiveOptions s).

Lemma total_armed s rule rules st pending :
  onWay s (rule :: rules) st -> isRace rule = true ->
  total (nextIndex (setArmed (ws_armedRules s ++ [armedFor rule pending s]) s)) rules st
  = total s (rule :: rules) st.
Proof.
  intros Hw Hr. unfold total. cbn [DNSRace.specWalk ws_ruleIndex ws_armedRules nextIndex setArmed].
  change (core (nextIndex _)) with (core s). rewrite winners_app. cbn [winners map concat].
  assert (Hst : armedState (core s) (armedFor rule pending s) = st).
  { unfold armedState. cbn. rewrite (ow_options _ _ _ Hw), (ow_response _ _ _ Hw). by destruct st. }
  unfold armedWinner. rewrite Hst, Hr. cbn [armedFor ar_rule ar_ruleIndex].
  destruct (specWalk (S (ws_ruleIndex s)) rules st) as [ws o].
  destruct (holds rule (responseIn st)); cbn [negb]; f_equal; rewrite ?app_nil_r, <-?app_assoc; done.
Qed.

Lemma onWay_rearm s s1 l rules st :
  onWay s rules st -> looked (setArmed l s) s1 ->
  Forall (armedOk (core s) (ws_clock s1)) l -> Forall (fun a => ar_futures a <> []) l -> onWay s1 rules st.
Proof.
  intros Hw Hl Ha Hf. destruct Hw as [[S1 S2 S3 S4] H2 H3 H4 H5 H6 H7].
  destruct Hl. cbn [setArmed ws_ruleIndex ws_effectiveOptions ws_anonymousFuture ws_armedRules ws_terminalFuture
    ws_terminalIndex ws_lastWake ws_metadata ws_clock] in *.
  change (core (setArmed l s)) with (core s) in *.
  split; rewrite ?lk_armed0, ?lk_core0, ?lk_anonymous0; try done; [|congruence|].
  - split; rewrite ?lk_armed0, ?lk_core0, ?lk_wake0; try done; [congruence|lia].
  - intros k Hk. rewrite lk_index0, lk_terminalIndex0, lk_core0. apply H7. by rewrite <-lk_terminal0.
Qed.

(** What a sweep that committed gives is one of the candidates. *)
Lemma allowed_winner ws ordered r : r ∈ ws -> allowed (ws, ordered) r.
Proof. intros H. unfold allowed. cbn. destruct ws; [by apply elem_of_nil in H|by exists r]. Qed.

Lemma total_winners s rules st : exists ws ordered,
  total s rules st = (winners (core s) (ws_armedRules s) ++ ws, ordered)%list.
Proof. unfold total. destruct (specWalk _ _ _) as [ws o]. by exists ws, o. Qed.

(** The rule is armed in [s]; [s2] is the state with its entry. *)
Lemma armed_entry rule pending s :
  untagged env rule -> sane s -> Forall (fun a => ar_futures a <> []) (ws_armedRules s) ->
  (forall i, ws_anonymousFuture s = Some i -> exists f, core s !! i = Some f /\
     (pending = [i] \/ (pending = [] /\ (f_doneAt f <= ws_clock s)%nat))) ->
  (ws_anonymousFuture s = None -> pending = []) ->
  let l := (ws_armedRules s ++ [armedFor rule pending s])%list in
  Forall (armedOk (core s) (ws_clock s)) l /\ Forall (noneKnown s) l.
Proof.
  intros Hu Hs Hf Hsome Hnone. split; apply Forall_app.
  - split; [apply Hs|]. constructor; [|constructor]. by split.
  - split; [|apply Forall_cons; [by intros ?|apply Forall_nil]].
    pose proof (sn_armed _ Hs) as Ha. rewrite Forall_forall in Ha, Hf |- *.
    intros a Hin E. exfalso. apply (Hf a Hin). by apply (ao_none _ _ _ (Ha a Hin)).
Qed.

Lemma step_sweep s rule rules st outcome s' :
  onWay s (rule :: rules) st -> isRace rule = true ->
  let l := (ws_armedRules s ++ [armedFor rule [] s])%list in
  Forall (armedOk (core s) (ws_clock s)) l -> Forall (noneKnown s) l ->
  (let '(outcome, s) := sweepArmedDNSRules env Transport message allowFakeIP (setArmed l s) in
   match outcome with
   | Some (SweepPending p) => (Some (WalkSuspended (SuspendPending p)), setArmed [] s)
   | Some (SweepResult r) => (Some (WalkResult r), s)
   | _ => (None, s)
   end) = (outcome, s') ->
  stepOk s rule rules st (total s (rule :: rules) st) outcome s'.
Proof.
  intros Hw Hr l Ha Hn. unfold sweepArmedDNSRules.
  destruct (sweepLoop _ _ _ _ _ _ (setArmed l s)) as [o s1] eqn:E.
  apply sweepLoop_spec in E as [Hl Ho]; [|exact (sn_base _ (ow_sane _ _ _ Hw))|done..].
  change (core (setArmed l s)) with (core s) in Ho. change (ws_armedRules (setArmed l s)) with l in Ho.
  change (setArmed (ws_armedRules s1) (setArmed l s)) with (setArmed (ws_armedRules s1) s) in Hl.
  rewrite <-(total_armed s rule rules st [] Hw Hr). fold l.
  destruct (total_winners (nextIndex (setArmed l s)) rules st) as (ws & ordered & Htot).
  change (core (nextIndex (setArmed l s))) with (core s) in Htot.
  change (ws_armedRules (nextIndex (setArmed l s))) with l in Htot.
  destruct o as [[r|p|]|]; [| |done|].
  - intros [= <- <-]. cbn. rewrite Htot. apply allowed_winner. cbn in Ho. set_solver.
  - intros [= <- <-]. destruct Ho as (options & Hq & Ho). cbn. split_and!; [|done|].
    + pose proof (ow_sane _ _ _ Hw) as [S1 S2 S3 S4]. destruct Hl.
      split; [exact (eq_trans lk_base0 S1)|constructor| |].
      * change (Forall (fun f => (f_doneAt f <= f_wakeAt f)%nat) (core s1)). by rewrite lk_core0.
      * cbn in *. lia.
    + unfold pendingOk. rewrite Hq, Htot. apply allowed_winner. set_solver.
  - intros [= <- <-]. destruct Ho as (l' & Hl' & Hsub & Hwin & Hwait). cbn [app] in Hl'.
    split.
    { destruct Hl. by apply grows_same. }
    exists st. split.
    + apply (onWay_next _ rule), (onWay_rearm s s1 l'); [done|by rewrite <-Hl'|..].
      * rewrite Forall_forall in Hsub, Ha |- *. intros a Hin. eapply armedOk_later; [apply (lk_clock _ _ Hl)|].
        apply Ha, list_elem_of_In, Hsub, Hin.
      * eapply Forall_impl; [|exact Hwait]. intros a (i & f & Hi & _) E. rewrite E in Hi. by apply elem_of_nil in Hi.
    + destruct Hl. unfold total. cbn [nextIndex setArmed ws_ruleIndex ws_armedRules] in *.
      change (core (nextIndex s1)) with (core s1). change (core (nextIndex (setArmed l s))) with (core s).
      change (core (setArmed _ s)) with (core s) in *.
      by rewrite lk_index0, lk_core0, Hl', Hwin.
Qed.

Lemma step_race s rule rules st outcome s' :
  onWay s (rule :: rules) st -> isRace rule = true ->
  armRule env Transport message allowFakeIP rule s = (outcome, s') ->
  stepOk s rule rules st (total s (rule :: rules) st) outcome s'.
Proof.
  intros Hw Hr. pose proof (Forall_inv (ow_rules _ _ _ Hw)) as Hu. unfold armRule.
  rewrite (ut_tags _ _ Hu), (isRace_binds _ Hu Hr). cbn [pendingTags].
  assert (Hend : forall s1 pending, looked s s1 ->
    (forall i, ws_anonymousFuture s1 = Some i -> exists f, core s1 !! i = Some f /\
       (pending = [i] \/ (pending = [] /\ (f_doneAt f <= ws_clock s1)%nat))) ->
    (ws_anonymousFuture s1 = None -> pending = []) ->
    match pending with
    | [] => let '(outcome, s) := sweepArmedDNSRules env Transport message allowFakeIP
                (setArmed (ws_armedRules s1 ++ [armedFor rule pending s1]) s1) in
            match outcome with
            | Some (SweepPending p) => (Some (WalkSuspended (SuspendPending p)), setArmed [] s)
            | Some (SweepResult r) => (Some (WalkResult r), s)
            | _ => (None, s)
            end
    | _ :: _ => (None, setArmed (ws_armedRules s1 ++ [armedFor rule pending s1]) s1)
    end = (outcome, s') -> stepOk s rule rules st (total s (rule :: rules) st) outcome s').
  { intros s1 pending Hl Hsome Hnone. destruct (onWay_look _ _ _ _ Hl Hw) as [Hw1 Ht1].
    destruct (armed_entry rule pending s1 Hu (ow_sane _ _ _ Hw1) (ow_waiting _ _ _ Hw1) Hsome Hnone) as [Ha Hn].
    rewrite <-Ht1. destruct pending as [|i rest] eqn:Ep.
    - intros H. apply (stepOk_look _ _ _ _ _ _ _ _ Hl). by apply step_sweep.
    - rewrite <-Ep in *. intros [= <- <-]. apply (stepOk_look _ _ _ _ _ _ _ _ Hl).
      split; [by apply grows_same|]. exists st. rewrite (total_armed s1 rule rules st pending Hw1 Hr).
      split; [|done]. eapply onWay_next, onWay_rearm; [exact Hw1|done|done|]. apply Forall_app.
      split; [apply Hw1|]. constructor; [by rewrite Ep|constructor]. }
  destruct (ws_anonymousFuture s) as [i|] eqn:Ei.
  - destruct (resolved i s) as [done s1] eqn:Er. destruct (await_anonymous st _ _ _ _ _ Hw Ei Er) as [Hl Hd].
    destruct (ow_valid _ _ _ Hw i Ei) as [f Hf]. rewrite <-(lk_core _ _ Hl) in Hf.
    rewrite <-Ei, <-(lk_anonymous _ _ Hl). apply Hend; [done|..].
    + intros j Hj. rewrite (lk_anonymous _ _ Hl), Ei in Hj. injection Hj as <-. exists f. split; [done|].
      destruct done; [right|by left]. split; [done|]. apply (Hd i f); [by rewrite (lk_anonymous _ _ Hl)|done].
    + rewrite (lk_anonymous _ _ Hl). congruence.
  - rewrite <-Ei. apply (Hend s []); [done|congruence|done].
Qed.

(** *** The rules in their order *)

Lemma step_rule s rule rules st outcome s' :
  onWay s (rule :: rules) st ->
  walkRule env sched Transport defaultDomainStrategy message allowFakeIP rule s = (outcome, s') ->
  stepOk s rule rules st (total s (rule :: rules) st) outcome s'.
Proof.
  intros Hw. pose proof (Forall_inv (ow_rules _ _ _ Hw)) as Hu. unfold walkRule.
  rewrite (ut_tags _ _ Hu). change (@nonEmpty string []) with false. cbn [orb].
  set (binds := MatchResponseAnonymous rule).
  assert (Hrace : isRace rule = binds && DNSRule_Race rule).
  { unfold isRace. rewrite (ut_tags _ _ Hu). reflexivity. }
  set (s0 := if binds then settleDNSFutures s else s).
  assert (Hl0 : looked s s0) by (subst s0; destruct binds; [apply settle_look|done]).
  destruct (onWay_look _ _ _ _ Hl0 Hw) as [Hw0 Ht0]. rewrite <-Ht0.
  destruct (binds && DNSRule_Race rule) eqn:Er.
  { intros H. apply (stepOk_look _ _ _ _ _ _ _ _ Hl0). by apply step_race. }
  intros H. apply (stepOk_look _ _ _ _ _ _ _ _ Hl0). revert H.
  assert (Hend : forall s1, looked s0 s1 -> (binds = true -> anonymousThere s1) ->
    (let '(response, s2) := anonymousResponse s1 in
     let '(matched, s3) := matchWith env rule response s2 in
     if negb matched then (None, s3)
     else walkAction sched Transport defaultDomainStrategy message allowFakeIP rule binds s3) = (outcome, s') ->
    stepOk s0 rule rules st (total s0 (rule :: rules) st) outcome s').
  { intros s1 Hl1 Hb. destruct (onWay_look _ _ _ _ Hl1 Hw0) as [Hw1 Ht1].
    destruct (anonymousResponse s1) as [response s2] eqn:E2. pose proof (anonymousResponse_look _ _ _ E2) as Hl2.
    destruct (matchWith env rule response s2) as [matched s3] eqn:E3.
    destruct (onWay_look _ _ _ _ Hl2 Hw1) as [Hw2 _].
    destruct (match_base _ _ _ _ _ Hu (sn_base _ (ow_sane _ _ _ Hw2)) E3) as [Hl3 Hm].
    assert (Hl : looked s0 s3) by (etrans; [done|]; by etrans).
    assert (Hv : matched = holds rule (responseIn st)).
    { rewrite Hm. destruct binds eqn:Eb.
      - by rewrite (anonymousResponse_there st _ _ _ _ Hw1 (Hb eq_refl) E2).
      - exact (ut_blind _ _ Hu (ResetRuleCache m0) _ _ _ Eb). }
    destruct matched; cbn [negb]; [|intros [= <- <-]; by apply step_skip].
    destruct (onWay_look _ _ _ _ Hl Hw0) as [Hw3 Ht3]. rewrite <-Ht3. intros H.
    apply (stepOk_look _ _ _ _ _ _ _ _ Hl). eapply step_action; try done.
    intros Eb. eapply anonymousThere_look; [|by apply Hb]. by etrans. }
  destruct binds eqn:Eb; [|by apply Hend].
  unfold awaitFuture. rewrite (ut_tags _ _ Hu). cbn [awaitTags]. fold binds. rewrite Eb.
  destruct (ws_anonymousFuture s0) as [i|] eqn:Ei.
  - destruct (resolved i s0) as [done s1] eqn:Ed. destruct (await_anonymous st _ _ _ _ _ Hw0 Ei Ed) as [Hl Hd].
    destruct done; [by apply Hend|]. intros [= <- <-]. by apply step_await.
  - apply Hend; [done|]. intros _ j f Hj. congruence.
Qed.

(** How far the walk got from [s] to [s']: at most one new future per rule. *)
Record advanced (k : nat) s s' : Prop := {
  av_index : (ws_ruleIndex s <= ws_ruleIndex s')%nat;
  av_wake : ws_lastWake s' = ws_lastWake s;
  av_clock : (ws_clock s <= ws_clock s')%nat;
  av_core : exists new, core s' = (core s ++ new)%list
    /\ (length new <= k + (ws_ruleIndex s' - ws_ruleIndex s))%nat }.

Lemma grows_advanced k s s' : grows k s s' -> advanced k s s'.
Proof. intros [H1 H2 H3 (new & H4 & H5)]. split; try done; [lia|]. exists new. split; [done|lia]. Qed.
Lemma advanced_next k s s1 s' :
  grows 1 s s1 -> advanced k (nextIndex s1) s' -> advanced k s s'.
Proof.
  intros [G1 G2 G3 (new1 & G4 & G5)] [A1 A2 A3 (new & A4 & A5)].
  cbn [nextIndex ws_ruleIndex ws_lastWake ws_clock] in *. change (core (nextIndex s1)) with (core s1) in A4.
  split; [lia|congruence|lia|]. exists (new1 ++ new)%list. rewrite A4, G4, app_assoc, length_app.
  split; [done|lia].
Qed.

(** Where the walk is suspended. *)
Definition suspended (all : list HeadlessRule) (t0 : list exchangeWithRulesResult * exchangeWithRulesResult)
    (suspension : dnsWalkSuspension) s' : Prop :=
  match suspension with
  | SuspendPending p => sane s' /\ ws_armedRules s' = [] /\ pendingOk t0 p s'
  | _ =>
      (exists st, onWay s' (drop (ws_ruleIndex s') all) st /\ total s' (drop (ws_ruleIndex s') all) st = t0)
      /\ (ws_ruleIndex s' <= length all)%nat
      /\ match suspension with
         | SuspendAwait i => ws_anonymousFuture s' = Some i
         | _ => ws_armedRules s' <> []
         end
  end.

(** What a stop at the same rule says. *)
Definition heldAgain s (suspension : dnsWalkSuspension) s' : Prop :=
  ws_ruleIndex s' = ws_ruleIndex s -> ws_armedRules s' = ws_armedRules s /\
  match suspension with
  | SuspendAwait i => ws_anonymousFuture s = Some i /\ forall f, core s !! i = Some f -> (ws_clock s < f_doneAt f)%nat
  | _ => True
  end.

Definition launches (suspension : dnsWalkSuspension) : nat :=
  match suspension with SuspendDrain => 1 | _ => 0 end.

Definition loopOk (all : list HeadlessRule) s (t0 : list exchangeWithRulesResult * exchangeWithRulesResult)
    (outcome : walkOutcome) s' : Prop :=
  match outcome with
  | WalkResult r => allowed t0 r
  | WalkSuspended suspension => suspended all t0 suspension s' /\
      match suspension with
      | SuspendPending _ => True
      | _ => advanced (launches suspension) s s' /\ heldAgain s suspension s'
      end
  end.

Lemma walkLoop_spec all rules : forall s st outcome s',
  rules = drop (ws_ruleIndex s) all -> (ws_ruleIndex s <= length all)%nat -> onWay s rules st ->
  walkLoop env sched Transport Default defaultDomainStrategy message allowFakeIP rules s = (outcome, s') ->
  loopOk all s (total s rules st) outcome s'.
Proof.
  induction rules as [|rule rules IH]; intros s st outcome s' Hrules Hlen Hw; cbn [walkLoop].
  { intros [= <- <-]. destruct (noArmed s) eqn:En.
    - apply noArmed_spec in En. split; [|done]. cbn. split_and!; [apply Hw|done|].
      unfold pendingOk. cbn. unfold allowed, total. cbn [DNSRace.specWalk]. rewrite En. cbn.
      by rewrite (ow_options _ _ _ Hw).
    - apply noArmed_false in En. cbn. rewrite <-Hrules.
      split_and!; [by exists st|done..|by apply grows_advanced, looked_grows|done]. }
  destruct (walkRule _ _ _ _ _ _ rule s) as [o s1] eqn:E. apply (step_rule s rule rules st) in E; [|done].
  destruct o as [o|].
  - intros [= <- <-]. destruct o as [r|[i| |p]]; cbn in E |- *; [done| | |done].
    + destruct E as (H1 & H2 & H3 & H4 & H5 & H6 & H7). rewrite (gr_index _ _ _ H3), <-Hrules.
      split_and!; [by exists st|done..|by apply grows_advanced|by intros _].
    + destruct E as (H1 & H2 & H3 & H4 & H5). rewrite (gr_index _ _ _ H3), <-Hrules.
      split_and!; [by exists st|done|by rewrite H4|by apply grows_advanced|by intros _].
  - destruct E as [Hg (st' & Hw' & <-)].
    assert (Hlt : (ws_ruleIndex s < length all)%nat).
    { assert (is_Some (all !! ws_ruleIndex s)) as H%lookup_lt_is_Some; [|done].
      exists rule. rewrite <-(Nat.add_0_r (ws_ruleIndex s)), <-lookup_drop, <-Hrules. done. }
    assert (Hr' : rules = drop (S (ws_ruleIndex s)) all).
    { rewrite <-Nat.add_1_r, <-drop_drop, <-Hrules. done. }
    intros H. specialize (IH (nextIndex s1) st' outcome s').
    change (ws_ruleIndex (nextIndex s1)) with (S (ws_ruleIndex s1)) in IH. rewrite (gr_index _ _ _ Hg) in IH.
    specialize (IH Hr' Hlt Hw' H). destruct outcome as [r|[i| |p]]; cbn in IH |- *; [done| | |done].
    + destruct IH as (H1 & H2 & H3). split_and!; try apply H1; [by eapply advanced_next|].
      intros Heq. pose proof (av_index _ _ _ H2) as Hi. cbn in Hi. rewrite (gr_index _ _ _ Hg) in Hi. lia.
    + destruct IH as (H1 & H2 & H3). split_and!; try apply H1; [by eapply advanced_next|].
      intros Heq. pose proof (av_index _ _ _ H2) as Hi. cbn in Hi. rewrite (gr_index _ _ _ Hg) in Hi. lia.
Qed.

(** *** Waiting *)

Lemma selectContext_some now t :
  match selectContext sched now (Some t) with
  | SelectEvent t' => t' = Nat.max now t
  | SelectDone e => exists d, sc_ctxDone sched = Some (d, e)
  | SelectNever => False
  end.
Proof.
  unfold selectContext. cbn. destruct (sc_ctxDone sched) as [[d e]|]; [|done].
  repeat case_match; simplify_eq; try done; by eexists.
Qed.

(** The result is one of [t0], or the context ended. *)
Definition ends (t0 : list exchangeWithRulesResult * exchangeWithRulesResult) (r : exchangeWithRulesResult) : Prop :=
  allowed t0 r \/ exists d e, sc_ctxDone sched = Some (d, e) /\ r = errorResult e.

Lemma finish_spec t0 p s :
  pendingOk t0 p s -> exists r, finishPendingExchange sched defaultDomainStrategy p s = Some r /\ ends t0 r.
Proof.
  unfold pendingOk, finishPendingExchange. destruct (pe_query p) as [o|k].
  - intros H. unfold DNSRace.ask, query in H. destruct (sc_answer _ _ _ _) as [response err]. eexists. split; [done|by left].
  - intros (f & Hf & H). rewrite core_lookup in Hf. destruct (ws_futures s !! k) as [f'|]; [|done].
    injection Hf as <-. pose proof (selectContext_some (ws_clock s) (f_doneAt f')) as Hs.
    destruct (selectContext _ _ _) as [t|e|]; [|destruct Hs as [d Hd]|done].
    + eexists. split; [done|by left].
    + eexists. split; [done|]. right. by exists d, e.
Qed.

(** The signals still to come. *)
Definition pendingWakes s : nat :=
  length (List.filter (fun f => ws_lastWake s <? f_wakeAt f)%nat (core s)).

Lemma pendingWakes_advanced k s s' :
  advanced k s s' -> (pendingWakes s' <= pendingWakes s + k + (ws_ruleIndex s' - ws_ruleIndex s))%nat.
Proof.
  intros [_ H2 _ (new & H4 & H5)]. unfold pendingWakes. rewrite H2, H4, List.filter_app, length_app.
  pose proof (List.filter_length_le (fun f => ws_lastWake s <? f_wakeAt f)%nat new). lia.
Qed.

Lemma nextWake_some s f :
  f ∈ core s -> (ws_lastWake s < f_wakeAt f)%nat ->
  exists t g, nextWake s = Some t /\ g ∈ core s /\ f_wakeAt g = t /\ (ws_lastWake s < t)%nat.
Proof.
  unfold core, nextWake. generalize (ws_lastWake s) (ws_futures s). intros w l. clear s.
  assert (Hgen : forall next, foldr (fun f next => if (w <? f_wakeAt f)%nat
      then Some (match next with Some t => Nat.min t (f_wakeAt f) | None => f_wakeAt f end) else next) None l = Some next ->
      exists g, g ∈ map coreOf l /\ f_wakeAt g = next /\ (w < next)%nat).
  { induction l as [|g l IH]; intros next; cbn [foldr map]; [done|].
    destruct (Nat.ltb_spec w (f_wakeAt g)) as [Hw|Hw].
    - intros [= <-]. destruct (foldr _ _ _) as [t|].
      + destruct (Nat.min_dec t (f_wakeAt g)) as [->| ->].
        * destruct (IH t eq_refl) as (g' & Hg & Ht & Hlt). exists g'. split_and!; [set_solver|done|done].
        * exists (coreOf g). split_and!; [set_solver|done|done].
      + exists (coreOf g). split_and!; [set_solver|done|done].
    - intros Hn. destruct (IH _ Hn) as (g' & Hg & Ht & Hlt). exists g'. split_and!; [set_solver|done|done]. }
  intros Hf Hlt. destruct (foldr _ _ _) as [t|] eqn:E.
  { destruct (Hgen t eq_refl) as (g & Hg & Ht & Hw). by exists t, g. }
  exfalso. clear Hgen. induction l as [|g l IH]; [by apply elem_of_nil in Hf|]. cbn [foldr map] in E, Hf.
  destruct (Nat.ltb_spec w (f_wakeAt g)) as [Hw|Hw]; [done|].
  apply elem_of_cons in Hf as [->|Hf]; [cbn in Hlt; lia|by apply IH].
Qed.

Lemma filter_shrinks {A} (p q : A -> bool) (l : list A) x :
  (forall y, q y = true -> p y = true) -> x ∈ l -> p x = true -> q x = false ->
  (length (List.filter q l) < length (List.filter p l))%nat.
Proof.
  intros Hpq. assert (Hle : forall l, (length (List.filter q l) <= length (List.filter p l))%nat).
  { intros k. induction k as [|y k IH]; cbn; [done|]. specialize (Hpq y).
    destruct (q y) eqn:Eq, (p y) eqn:Ep; cbn; try lia; by specialize (Hpq eq_refl). }
  induction l as [|y l IH]; intros Hx Hp Hq; [by apply elem_of_nil in Hx|]. cbn.
  apply elem_of_cons in Hx as [<-|Hx].
  - rewrite Hp, Hq. cbn. specialize (Hle l). lia.
  - specialize (IH Hx Hp Hq). specialize (Hpq y). destruct (q y) eqn:Eq, (p y) eqn:Ep; cbn; try lia;
      by specialize (Hpq eq_refl).
Qed.

(** After a wait. *)
Definition woken (t : nat) s : dnsRuleWalkState := {| s with ws_clock := t; ws_lastWake := t |}.

Lemma onWay_woken t s rules st :
  (ws_clock s <= t)%nat -> onWay s rules st ->
  onWay (woken t s) rules st /\ total (woken t s) rules st = total s rules st.
Proof.
  intros Ht [[S1 S2 S3 S4] H2 H3 H4 H5 H6 H7]. split; [|done].
  split; try done. split; try done. eapply Forall_impl; [|exact S2]. intros a. by apply armedOk_later.
Qed.

(** A rule that waits has a signal to come. *)
Lemma wake_comes s i f :
  sane s -> core s !! i = Some f -> (ws_lastWake s < f_doneAt f)%nat ->
  match selectContext sched (ws_clock s) (nextWake s) with
  | SelectEvent t => (ws_clock s <= t)%nat /\ (pendingWakes (woken t s) < pendingWakes s)%nat
  | SelectDone e => exists d, sc_ctxDone sched = Some (d, e)
  | SelectNever => False
  end.
Proof.
  intros Hs Hf Hd. pose proof (sn_wakes _ Hs) as Hw. rewrite Forall_forall in Hw.
  assert (Hin : f ∈ core s) by (by eapply list_elem_of_lookup_2).
  specialize (Hw f (proj1 (list_elem_of_In _ _) Hin)).
  destruct (nextWake_some s f Hin) as (t & g & -> & Hg & Ht & Hlt); [lia|].
  pose proof (selectContext_some (ws_clock s) t) as H.
  destruct (selectContext _ _ _) as [t'|e|]; [|done..]. subst t'. split; [lia|].
  unfold pendingWakes. change (core (woken _ s)) with (core s). cbn [woken ws_lastWake].
  apply (filter_shrinks _ _ _ g); [|done|by apply Nat.ltb_lt; lia|by apply Nat.ltb_ge; lia].
  intros y Hy. apply Nat.ltb_lt in Hy. apply Nat.ltb_lt. pose proof (sn_wake _ Hs). lia.
Qed.

(** *** The driver *)

(** The sweep at the start of a round. *)
Lemma sweep_round s rules st o s2 :
  onWay s rules st -> sweepArmedDNSRules env Transport message allowFakeIP s = (o, s2) ->
  match o with
  | None => onWay s2 rules st /\ total s2 rules st = total s rules st
      /\ looked (setArmed (ws_armedRules s2) s) s2 /\ Forall (waiting s) (ws_armedRules s2)
      /\ Forall (fun a => a ∈ ws_armedRules s) (ws_armedRules s2)
  | Some (SweepResult r) => allowed (total s rules st) r
  | Some (SweepPending p) => pendingOk (total s rules st) p s2
  | Some SweepNothing => False
  end.
Proof.
  intros Hw. unfold sweepArmedDNSRules. intros E. pose proof (ow_sane _ _ _ Hw) as Hs.
  destruct (total_winners s rules st) as (ws & ordered & Htot).
  apply sweepLoop_spec in E as [Hl Ho]; [|apply Hs..|].
  2:{ pose proof (sn_armed _ Hs) as Ha. pose proof (ow_waiting _ _ _ Hw) as Hf.
      rewrite Forall_forall in Ha, Hf |- *. intros a Hin En. exfalso. apply (Hf a Hin).
      by apply (ao_none _ _ _ (Ha a Hin)). }
  destruct o as [[r|p|]|]; [| |done|].
  - rewrite Htot. apply allowed_winner. cbn in Ho. set_solver.
  - destruct Ho as (options & Hq & Ho). unfold pendingOk. rewrite Hq, Htot. apply allowed_winner. set_solver.
  - destruct Ho as (l' & Hl' & Hsub & Hwin & Hwait). cbn [app] in Hl'. rewrite Hl' in *.
    split_and!; try done.
    + apply (onWay_rearm s s2 l'); try done.
      * pose proof (sn_armed _ Hs) as Ha. rewrite Forall_forall in Hsub, Ha |- *. intros a Hin.
        eapply armedOk_later; [apply (lk_clock _ _ Hl)|]. apply Ha, list_elem_of_In, Hsub, Hin.
      * eapply Forall_impl; [|exact Hwait]. intros a (i & f & Hi & _) E. rewrite E in Hi. by apply elem_of_nil in Hi.
    + destruct Hl. unfold total. cbn [setArmed ws_ruleIndex ws_armedRules] in *.
      change (core (setArmed _ s)) with (core s) in *. by rewrite lk_index0, lk_core0, Hl', Hwin.
Qed.

(** A bound on the rounds that are left. *)
Definition armedWeight s : nat := if noArmed s then 0 else 4.
Definition rounds (all : list HeadlessRule) (suspension : dnsWalkSuspension) s : nat :=
  match suspension with
  | SuspendPending _ => 0
  | SuspendAwait _ => 10 * (length all - ws_ruleIndex s) + pendingWakes s + armedWeight s + 3
  | SuspendDrain => 10 * (length all - ws_ruleIndex s) + pendingWakes s + armedWeight s + 1
  end.

Lemma armedWeight_le s : (armedWeight s <= 4)%nat.
Proof. unfold armedWeight. destruct (noArmed s); lia. Qed.
Lemma armedWeight_same s s' : ws_armedRules s' = ws_armedRules s -> armedWeight s' = armedWeight s.
Proof. unfold armedWeight, noArmed. by intros ->. Qed.

(** A walk brings a suspension nearer to the end, unless the walk was held
    already where it is. *)
Lemma rounds_walk all s suspension s' (bound : nat) :
  advanced (launches suspension) s s' -> heldAgain s suspension s' ->
  (ws_ruleIndex s' <= length all)%nat ->
  (10 * (length all - ws_ruleIndex s) + pendingWakes s <= bound)%nat ->
  (ws_ruleIndex s' = ws_ruleIndex s ->
   (10 * (length all - ws_ruleIndex s) + pendingWakes s + armedWeight s
    + match suspension with SuspendAwait _ => 3 | _ => 2 end < bound)%nat) ->
  match suspension with SuspendPending _ => True | _ => (rounds all suspension s' < bound)%nat end.
Proof.
  intros Hadv Hheld Hlen Hb Hsame. pose proof (pendingWakes_advanced _ _ _ Hadv) as Hp.
  pose proof (av_index _ _ _ Hadv) as Hi. pose proof (armedWeight_le s').
  destruct suspension as [i| |p]; cbn [rounds launches] in *; [| |done];
    (destruct (decide (ws_ruleIndex s' = ws_ruleIndex s)) as [E|E];
     [specialize (Hsame E); destruct (Hheld E) as [Ha _]; rewrite (armedWeight_same _ _ Ha); rewrite E in *; lia|lia]).
Qed.

Lemma pendingWakes_look s s' : looked s s' -> pendingWakes s' = pendingWakes s.
Proof. intros []. unfold pendingWakes. by rewrite lk_core0, lk_wake0. Qed.

Notation resume := (resumeExchangeWithRules env sched Transport Default defaultDomainStrategy).
Notation walk := (walkDNSRules env sched Transport Default defaultDomainStrategy).

(** The round after the sweep, when the walk goes on. *)
Lemma resume_walk all t0 fuel s st :
  onWay s (drop (ws_ruleIndex s) all) st -> total s (drop (ws_ruleIndex s) all) st = t0 ->
  (ws_ruleIndex s <= length all)%nat ->
  (0 < fuel)%nat -> (10 * (length all - ws_ruleIndex s) + pendingWakes s <= fuel)%nat ->
  (forall i, ws_anonymousFuture s = Some i -> (forall f, core s !! i = Some f -> (ws_clock s < f_doneAt f)%nat) ->
   (10 * (length all - ws_ruleIndex s) + pendingWakes s + armedWeight s + 3 < fuel)%nat) ->
  (10 * (length all - ws_ruleIndex s) + pendingWakes s + armedWeight s + 2 < fuel)%nat ->
  (forall suspension s', suspended all t0 suspension s' -> (rounds all suspension s' < fuel)%nat ->
   exists r, resume fuel all message allowFakeIP suspension s' = Some r /\ ends t0 r) ->
  exists r, match walk all message allowFakeIP s with
            | (WalkResult r, _) => Some r
            | (WalkSuspended suspension, s') => resume fuel all message allowFakeIP suspension s'
            end = Some r /\ ends t0 r.
Proof.
  intros Hw Ht Hlen Hpos Hx Hawait Hdrain IH. unfold walkDNSRules.
  destruct (walkLoop _ _ _ _ _ _ _ (drop (ws_ruleIndex s) all) s) as [o s'] eqn:E.
  apply (walkLoop_spec all _ s st) in E; [|done..]. rewrite Ht in E.
  destruct o as [r|suspension]; [by exists r; split; [|left]|]. destruct E as [Hs Hrest].
  apply IH; [done|]. destruct suspension as [i| |p]; [..|done].
  - destruct Hrest as [Hadv Hheld]. apply (rounds_walk all s (SuspendAwait i) s' fuel); try done; [apply Hs|].
    intros Heq. destruct (Hheld Heq) as [_ [Hi Hd]]. by apply (Hawait i).
  - destruct Hrest as [Hadv Hheld]. apply (rounds_walk all s SuspendDrain s' fuel); try done. apply Hs.
Qed.

Definition resumes all t0 (fuel : nat) : Prop :=
  forall suspension s, suspended all t0 suspension s -> (rounds all suspension s < fuel)%nat ->
  exists r, resume fuel all message allowFakeIP suspension s = Some r /\ ends t0 r.

(** The round after the sweep, when it waits for the future [i]. *)
Lemma resume_wait all t0 fuel suspension s i f :
  suspended all t0 suspension s ->
  match suspension with SuspendPending _ => False | _ => True end ->
  core s !! i = Some f -> (ws_lastWake s < f_doneAt f)%nat ->
  (rounds all suspension s <= fuel)%nat -> resumes all t0 fuel ->
  exists r, match selectContext sched (ws_clock s) (nextWake s) with
            | SelectEvent t => resume fuel all message allowFakeIP suspension (woken t s)
            | SelectDone e => Some (errorResult e)
            | SelectNever => None
            end = Some r /\ ends t0 r.
Proof.
  intros Hs Hk Hf Hd Hr IH. destruct suspension as [j| |p]; [| |done];
    destruct Hs as ((st & Hw & Ht) & Hlen & Hj); pose proof (wake_comes _ _ _ (ow_sane _ _ _ Hw) Hf Hd) as H;
    (destruct (selectContext _ _ _) as [t|e|];
       [|destruct H as [d H]; exists (errorResult e); split; [done|right; by exists d, e]|done]);
    destruct H as [Hle Hlt]; destruct (onWay_woken t s _ st Hle Hw) as [Hw' Ht'];
    (apply IH; [split_and!; [exists st; split; [exact Hw'|by rewrite <-Ht]|done..]
               |cbn [rounds] in *; rewrite (armedWeight_same s (woken t s)) by done;
                change (ws_ruleIndex (woken t s)) with (ws_ruleIndex s); lia]).
Qed.

(** What is left of the walk after the sweep that starts a round. *)
Record swept all t0 s s2 : Prop := {
  sp_way : exists st, onWay s2 (drop (ws_ruleIndex s2) all) st /\ total s2 (drop (ws_ruleIndex s2) all) st = t0;
  sp_index : ws_ruleIndex s2 = ws_ruleIndex s;
  sp_anonymous : ws_anonymousFuture s2 = ws_anonymousFuture s;
  sp_wakes : pendingWakes s2 = pendingWakes s;
  sp_armed : (armedWeight s2 <= armedWeight s)%nat;
  sp_waiting : ws_armedRules s2 <> [] ->
    exists i f, core s2 !! i = Some f /\ (ws_lastWake s2 < f_doneAt f)%nat }.

Lemma round_swept all t0 s st o s2 :
  onWay s (drop (ws_ruleIndex s) all) st -> total s (drop (ws_ruleIndex s) all) st = t0 ->
  sweepArmedDNSRules env Transport message allowFakeIP (settleDNSFutures s) = (o, s2) ->
  match o with
  | None => swept all t0 s s2
  | Some (SweepResult r) => allowed t0 r
  | Some (SweepPending p) => pendingOk t0 p s2
  | Some SweepNothing => False
  end.
Proof.
  intros Hw Ht E. pose proof (settle_look s) as Hl1. destruct (onWay_look _ _ _ _ Hl1 Hw) as [Hw1 Ht1].
  pose proof (sweep_round _ _ _ _ _ Hw1 E) as Ho. rewrite Ht1, Ht in Ho.
  destruct o as [o|]; [done|]. destruct Ho as (Hw2 & Ht2 & Hl2 & Hwait & Hsub).
  assert (Hidx : ws_ruleIndex s2 = ws_ruleIndex s) by (rewrite (lk_index _ _ Hl2); apply Hl1).
  split; [|done|..].
  - exists st. by rewrite Hidx.
  - rewrite (lk_anonymous _ _ Hl2). apply Hl1.
  - exact (eq_trans (pendingWakes_look _ _ Hl2) (pendingWakes_look _ _ Hl1)).
  - rewrite (lk_armed _ _ Hl1) in Hsub. unfold armedWeight, noArmed.
    destruct (ws_armedRules s2) as [|a l]; [lia|]. apply Forall_inv in Hsub.
    destruct (ws_armedRules s); [by apply elem_of_nil in Hsub|done].
  - intros Hne. destruct (ws_armedRules s2) as [|a l]; [done|].
    apply Forall_inv in Hwait as (i & f & _ & Hf & Hd). exists i, f. rewrite (lk_core _ _ Hl2), (lk_wake _ _ Hl2).
    split; [done|]. pose proof (sn_wake _ (ow_sane _ _ _ Hw1)). cbn. lia.
Qed.

Lemma resume_await all t0 fuel i s :
  suspended all t0 (SuspendAwait i) s -> (rounds all (SuspendAwait i) s <= fuel)%nat -> resumes all t0 fuel ->
  exists r, resume (S fuel) all message allowFakeIP (SuspendAwait i) s = Some r /\ ends t0 r.
Proof.
  intros ((st & Hw & Ht) & Hlen & Hi) Hr IH. cbn [resumeExchangeWithRules].
  destruct (sweepArmedDNSRules _ _ _ _ _) as [o s2] eqn:E. pose proof (round_swept _ _ _ _ _ _ Hw Ht E) as Ho.
  destruct o as [[r|p|]|]; [by exists r; split; [|left]|by apply finish_spec|done|].
  destruct Ho as [(st' & Hw2 & Ht2) Hidx Hanon Hpw Haw _]. cbn [mustWait].
  destruct (resolved i s2) as [done s3] eqn:Ed. destruct (resolved_look _ _ _ _ Ed) as (Hl & Hc & _).
  destruct (onWay_look _ _ _ _ Hl Hw2) as [Hw3 Ht3].
  pose proof (pendingWakes_look s2 s3 Hl) as Hpw3.
  pose proof (armedWeight_same s2 s3 (lk_armed _ _ Hl)) as Haw3. pose proof (lk_index _ _ Hl) as Hi3.
  assert (Ha3 : ws_anonymousFuture s3 = Some i) by (rewrite (lk_anonymous _ _ Hl); congruence).
  rewrite <-Hi3 in Hw3, Ht3. cbn [rounds] in Hr.
  destruct (ow_valid _ _ _ Hw3 i Ha3) as [f Hf]. destruct done; cbn [negb].
  - apply (resume_walk all t0 fuel s3 st'); try done; try congruence; try lia.
    + intros j Hj Hd. replace j with i in Hd by congruence. specialize (Hd f Hf).
      destruct (resolved_true _ _ _ Ed) as (f' & Hf' & Hd'). rewrite <-(lk_core _ _ Hl), Hf in Hf'.
      injection Hf' as <-. lia.
  - apply (resume_wait all t0 fuel (SuspendAwait i) s3 i f); try done; [..|cbn [rounds]; lia].
    + split_and!; [|lia|done]. exists st'. split; [done|]. rewrite Ht3. by rewrite Hi3.
    + rewrite (lk_core _ _ Hl) in Hf. pose proof (resolved_false _ _ _ _ Ed Hf).
      pose proof (sn_wake _ (ow_sane _ _ _ Hw3)). lia.
Qed.

Lemma resume_drain all t0 fuel s :
  suspended all t0 SuspendDrain s -> (rounds all SuspendDrain s <= fuel)%nat -> resumes all t0 fuel ->
  exists r, resume (S fuel) all message allowFakeIP SuspendDrain s = Some r /\ ends t0 r.
Proof.
  intros ((st & Hw & Ht) & Hlen & Hne) Hr IH. cbn [resumeExchangeWithRules].
  destruct (sweepArmedDNSRules _ _ _ _ _) as [o s2] eqn:E. pose proof (round_swept _ _ _ _ _ _ Hw Ht E) as Ho.
  destruct o as [[r|p|]|]; [by exists r; split; [|left]|by apply finish_spec|done|].
  destruct Ho as [Hway Hidx Hanon Hpw Haw Hwait]. cbn [mustWait rounds] in *.
  destruct (noArmed s2) eqn:En; cbn [negb].
  - destruct Hway as (st' & Hw2 & Ht2). assert (H0 : armedWeight s2 = 0%nat) by (unfold armedWeight; by rewrite En).
    assert (H4 : armedWeight s = 4%nat).
    { unfold armedWeight. destruct (noArmed s) eqn:E4; [by apply noArmed_spec in E4|done]. }
    apply (resume_walk all t0 fuel s2 st'); try done; intros; lia.
  - apply noArmed_false in En. destruct (Hwait En) as (i & f & Hf & Hd).
    apply (resume_wait all t0 fuel SuspendDrain s2 i f); try done; [|cbn [rounds]; lia].
    split_and!; [done|lia|done].
Qed.

Lemma resume_spec all t0 fuel : resumes all t0 fuel.
Proof.
  induction fuel as [|fuel IH]; intros suspension s Hs Hr; [lia|].
  destruct suspension as [i| |p]; [by apply resume_await; [|lia|]|by apply resume_drain; [|lia|]|].
  destruct Hs as (Hs & Ha & Hp). cbn [resumeExchangeWithRules].
  pose proof (settle_look s) as Hl. unfold sweepArmedDNSRules. rewrite (lk_armed _ _ Hl), Ha. cbn [sweepLoop].
  apply finish_spec. revert Hp. unfold pendingOk. destruct (pe_query p) as [|n]; [done|].
  intros (f & Hf & H). exists f. split; [|done]. rewrite <-Hf, <-(lk_core _ _ Hl). reflexivity.
Qed.
End race.
