(* ===== verification/DNSUntagged.v ===== *)
(** * Configured rules are the rules of the race theorem

    [DNSRace] speaks of rules that refer to responses without a tag and look at
    a response only if they say so.  Rules that the router built and started
    without the legacy mode are such rules, when no evaluate action in the
    options has a tag: the validation of [dns/router.go] is what makes it so. *)

From S2P Require Import Prelude.
From S2P Require Import GoText.
From S2P Require Import NetIP.
From S2P Require Import Libs.
From S2P Require Import Metadata.
From S2P Require Import RuleItems.
From S2P Require Import RuleAction.
From S2P Require Import RuleEngine.
From S2P Require Import RuleSpec.
From S2P Require Import RuleSound.
From S2P Require Import RuleBlind.
From S2P Require Import RuleOptions.
From S2P Require Import RuleBuild.
From S2P Require Import RuleBuildTheorems.
From S2P Require Import RuleStart.
From S2P Require Import DNSQuery.
From S2P Require Import DNSRouter.
From S2P Require Import DNSRace.
From S2P Require Import DNSValidate.
From S2P Require Import DNSValidateTheorems.
Local Open Scope string_scope.
Local Open Scope Z_scope.

(** ** What a rule reads of the responses *)

Section plain.
Context `{L : Libs}.

Definition silentItem (i : RuleItem) : bool := negb (isResponseItem i).
Definition anyItem (_ : RuleItem) : bool := true.
Definition tagless (matchResponse : bool) (tag : string) : bool := negb matchResponse || String.eqb tag "".
Definition unbound (matchResponse : bool) (_ : string) : bool := negb matchResponse.

(** The metadata without named responses, and without responses. *)
Definition unnamed (m : InboundContext) : InboundContext := {| m with m_NamedDNSResponses := ∅ |}.
Definition quiet (m : InboundContext) : InboundContext :=
  {| m with m_DNSResponse := None; m_NamedDNSResponses := ∅ |}.

Context (env : RuleEnv).

Lemma item_unnamed i m : RuleItem_Match env i (unnamed m) = RuleItem_Match env i m.
Proof. by destruct i. Qed.

Lemma item_quiet i m :
  silentItem i = true -> m_DestinationAddressMatchFromResponse m = false ->
  RuleItem_Match env i m = RuleItem_Match env i (quiet m).
Proof.
  intros Hi Hm. destruct i; try done; cbn [RuleItem_Match]; unfold IPCIDRItem_Match, IPIsPrivateItem_Match, IPAcceptAnyItem_Match;
    change (m_DestinationAddressMatchFromResponse (quiet m)) with (m_DestinationAddressMatchFromResponse m);
    rewrite Hm; done.
Qed.

Lemma respects_unnamed : respects env (fun m m' => unnamed m = unnamed m') anyItem tagless.
Proof.
  split.
  - intros m m' H. exact (f_equal m_IPCIDRMatchSource H).
  - intros i m m' H. exact (f_equal (withFlags i) H).
  - intros m m' H. exact (f_equal ResetRuleCache H).
  - intros i m m' _ H. by rewrite <-(item_unnamed i m), <-(item_unnamed i m'), H.
  - intros tag m m' Ht%String.eqb_eq H. subst tag. split; [exact (f_equal m_DNSResponse H)|].
    intros msg. exact (f_equal (fun m => onResponse m msg) H).
Qed.

Definition quietly (m m' : InboundContext) : Prop :=
  quiet m = quiet m' /\ m_DestinationAddressMatchFromResponse m = false
  /\ m_DestinationAddressMatchFromResponse m' = false.

Lemma respects_quiet : respects env quietly silentItem unbound.
Proof.
  split.
  - intros m m' [H _]. exact (f_equal m_IPCIDRMatchSource H).
  - intros i m m' (H & H1 & H2). split; [exact (f_equal (withFlags i) H)|done].
  - intros m m' (H & H1 & H2). split; [exact (f_equal ResetRuleCache H)|done].
  - intros i m m' Hi (H & H1 & H2). by rewrite (item_quiet i m Hi H1), (item_quiet i m' Hi H2), H.
  - done.
Qed.

(** No tag in the tree, and no look at a response without saying so. *)
Record plain (h : HeadlessRule) : Prop := {
  pl_tags : MatchResponseTags h = [];
  pl_tagless : goodRule anyItem tagless h = true;
  pl_silent : MatchResponseAnonymous h = false -> goodRule silentItem unbound h = true }.

Lemma plain_untagged h : plain h -> untagged env h.
Proof.
  intros [H1 H2 H3]. split; [done| |].
  - intros m a n n'. by apply (blind_rule _ _ _ _ respects_unnamed).
  - intros m a b n Ha. by apply (blind_rule _ _ _ _ respects_quiet); [apply H3|].
Qed.
End plain.

(** ** Built rules *)

Section built.
Context `{L : Libs}.

(** A rule whose items satisfy [good], before it is started. *)
Lemma goodDefault_fresh (goodItem : RuleItem -> bool) goodDNS r :
  hasItem (fun i => negb (goodItem i)) r = false ->
  (forall i, ruleSetItem r = Some i -> setList i = []) -> goodDefault goodItem goodDNS r = true.
Proof.
  destruct r as [its sa sp da dc dp all rs inv act]. unfold hasItem, groupedItems.
  cbn [items sourceAddressItems sourcePortItems destinationAddressItems destinationIPCIDRItems
    destinationPortItems ruleSetItem goodDefault]. rewrite !existsb_app, !orb_false_iff.
  assert (Hl : forall l, existsb (fun i => negb (goodItem i)) l = false -> forallb goodItem l = true).
  { intros l H. apply forallb_forall. intros i Hi. destruct (goodItem i) eqn:E; [done|].
    exfalso. enough (existsb (fun i => negb (goodItem i)) l = true) by congruence.
    apply existsb_exists. exists i. by rewrite E. }
  intros (H1 & H2 & H3 & H4 & H5 & H6) Hs. rewrite !Hl by done.
  destruct rs as [[tags sets a b]|]; [|done]. specialize (Hs _ eq_refl). cbn in Hs. by subst sets.
Qed.

(** The items of a rule that is built from options. *)
Definition responseFree (h : HeadlessRule) : Prop := goodRule silentItem unbound h = true.

Lemma headless_silent nm o : result_all responseFree (NewHeadlessRule nm o).
Proof.
  induction o as [typ d mode rules inv IH] using HeadlessRuleOptions_nested_ind.
  rewrite NewHeadlessRule_eq. destruct (_ || _).
  { destruct (negb _); [done|]. unfold NewDefaultHeadlessRule.
    eapply result_all_bind; [apply result_all_and;
      [apply headless_isResponse|apply (headlessItems_keeps (bare None)); [apply bare_append|apply bare_empty]]|].
    intros r [Hr [Hn _]]. apply goodDefault_fresh; [|intros i Hi; congruence].
    unfold silentItem. rewrite <-Hr. apply existsb_ext. intros i _. apply negb_involutive. }
  destruct (String.eqb typ _); [|done].
  apply (result_all_bind (fun _ => True)); [by apply result_all_pure|]. intros valid _.
  destruct (negb valid); [done|]. rewrite NewLogicalHeadlessRule_eq.
  apply (result_all_bind (fun _ => True)); [by apply result_all_pure|]. intros m _.
  apply (result_all_bind (Forall responseFree)).
  - apply result_all_mapi. eapply Forall_impl; [|exact IH]. intros o Ho i. by apply result_all_cause.
  - intros rs Hrs. apply forallb_forall. by apply List.Forall_forall.
Qed.

(** A rule-set that was loaded. *)
Definition loadedSet (s : RuleSet) : Prop :=
  exists nm validate headlessRules s0, reloadRules nm validate headlessRules s0 = Ok s.

Lemma loaded_silent s : loadedSet s -> goodSet silentItem unbound s = true.
Proof.
  intros (nm & validate & options & [tag rules0 md] & H). cbn [reloadRules] in H. inv_bind. subst s.
  apply mapi_result_Ok in Hr. cbn [goodSet]. apply forallb_forall. intros h Hin%list_elem_of_In.
  apply list_elem_of_lookup in Hin as [k Hk]. destruct (Forall2_lookup_r _ _ _ _ _ Hr Hk) as (o & _ & j & E).
  exact (result_all_Ok _ _ _ (result_all_cause _ _ _ (headless_silent nm o)) E).
Qed.

Lemma loaded_tagless s : loadedSet s -> goodSet anyItem tagless s = true.
Proof.
  intros H. eapply good_mono_set; [done| |by apply loaded_silent]. by intros [].
Qed.

(** What decoding guarantees of [match_response]: a tag enables it. *)
Fixpoint decodedResponse (o : DNSRuleOptions) : bool :=
  match o with
  | mkDNSRuleOptions _ d (mkLogicalDNSRuleOptions _ rules _ _) =>
      let mr := d_MatchResponse (dd_Raw d) in
      (MatchResponse_IsEnabled mr || String.eqb (MatchResponse_ResponseTag mr) "") && forallb decodedResponse rules
  end.

Lemma defaultDNS_plain d legacy :
  MatchResponse_ResponseTag (d_MatchResponse (dd_Raw d)) = "" ->
  (MatchResponse_IsEnabled (d_MatchResponse (dd_Raw d)) = false -> hasResponseMatchFields (dd_Raw d) = false) ->
  result_all plain (NewDefaultDNSRule d legacy).
Proof.
  intros Ht Hf. unfold NewDefaultDNSRule. destruct (NewDNSRuleAction _) as [act|]; [|done]. cbn [result_bind].
  eapply result_all_bind; [apply result_all_and; [apply dns_isResponse|apply dnsItems_spec]|].
  intros r (Hr & _ & Hn & _). rewrite Ht.
  assert (Hplain : forall r', groupedItems r' = groupedItems r -> (forall i, ruleSetItem r' = Some i -> setList i = []) ->
    plain (DefaultDNSRule r' (MatchResponse_IsEnabled (d_MatchResponse (dd_Raw d))) "" (da_Race (dd_Action d)))).
  { intros r' Hg Hs. split; [done| |].
    - cbn [goodRule]. unfold tagless at 1. rewrite orb_true_r. apply goodDefault_fresh; [|done].
      unfold hasItem. rewrite Hg. generalize (groupedItems r). intros l. by induction l.
    - cbn [MatchResponseAnonymous goodRule]. rewrite andb_true_r. intros He. rewrite He.
      apply goodDefault_fresh; [|done]. transitivity (hasItem isResponseItem r).
      + unfold hasItem. rewrite Hg. apply existsb_ext. intros i _. apply negb_involutive.
      + rewrite Hr. exact (Hf He). }
  split_match; [done|]. split_match; [split_match; [done|]|]; apply Hplain; try done.
  - by destruct r.
  - intros i. destruct r. by intros [= <-].
  - intros i. congruence.
Qed.

Lemma uniq_nil (l : list string) : l = [] -> common_Uniq l = [].
Proof.
  intros ->. destruct (common_Uniq []) as [|x l] eqn:E; [done|].
  assert (H : x ∈ common_Uniq (@nil string)) by (rewrite E; by left).
  apply common_Uniq_spec in H. by apply elem_of_nil in H.
Qed.

Lemma logicalDNS_plain r race :
  Forall plain (logical_rules r) -> result_all plain (finishLogicalDNSRule r race).
Proof.
  intros H. unfold finishLogicalDNSRule. split_match; [done|]. destruct r as [rules mode inv act].
  cbn [logical_rules] in *. rewrite List.Forall_forall in H. split.
  - apply uniq_nil. clear Heq. induction rules as [|h rules IH]; [done|]. cbn [flat_map].
    rewrite (pl_tags _ (H h (or_introl eq_refl))). apply IH. intros x Hx. apply H. by right.
  - apply forallb_forall. intros h Hh. apply H, Hh.
  - intros Ha. apply forallb_forall. intros h Hh. apply (H h Hh). cbn [MatchResponseAnonymous] in Ha.
    destruct (MatchResponseAnonymous h) eqn:E; [|done]. rewrite <-Ha. symmetry. apply existsb_exists. by exists h.
Qed.

Lemma validated_plain hasLookup o legacy : forall check use,
  validateLegacyDNSModeDisabledRuleTree hasLookup o = Ok use -> referencedTags use = [] -> decodedResponse o = true ->
  result_all plain (NewDNSRule o check legacy).
Proof.
  induction o as [typ d mode rules inv act IH] using DNSRuleOptions_nested_ind. intros check use Hv Hu Hd.
  rewrite NewDNSRule_eq. cbn [validateLegacyDNSModeDisabledRuleTree decodedResponse] in Hv, Hd.
  apply andb_true_iff in Hd as [Hd Hds]. destruct (String.eqb typ _ || _).
  { destruct (negb (DefaultDNSRuleOptions_IsValid d)); [done|]. destruct (_ && isEvaluate _); [done|].
    apply (result_all_bind (fun _ => True)); [by apply result_all_pure|]. intros _ _.
    destruct (da_Race _ && _); [done|]. destruct (_ && _); [done|].
    unfold validateLegacyDNSModeDisabledDefaultRule in Hv. destruct (_ && negb _) eqn:Ef in Hv; [done|].
    inv_bind. destruct (d_RuleSetIPCIDRAcceptEmpty _); [done|]. injection Hv as <-. cbn [referencedTags] in Hu.
    apply defaultDNS_plain.
    - destruct (MatchResponse_IsEnabled _); cbn [orb andb] in Hd, Hu; [|by apply String.eqb_eq].
      destruct (String.eqb_spec (MatchResponse_ResponseTag (d_MatchResponse (dd_Raw d))) ""); [done|]. discriminate.
    - intros He. rewrite He in Ef. cbn [negb] in Ef. rewrite andb_true_r in Ef.
      by destruct (hasResponseMatchFields (dd_Raw d)). }
  destruct (String.eqb typ _); [|done].
  apply (result_all_bind (fun _ => True)); [by apply result_all_pure|]. intros valid _.
  destruct (negb valid); [done|]. destruct (_ && isEvaluate _); [done|].
  apply (result_all_bind (fun _ => True)); [by apply result_all_pure|]. intros _ _.
  destruct (_ && _); [done|]. rewrite NewLogicalDNSRule_eq.
  apply (result_all_bind (fun _ => True)); [by apply result_all_pure|]. intros a _.
  apply (result_all_bind (fun _ => True)); [by apply result_all_pure|]. intros m _.
  apply result_bind_Ok in Hv as (uses & Em & Hv).
  assert (Huses : flat_map referencedTags uses = []).
  { clear -Hv Hu. repeat case_match; by simplify_eq. }
  apply (result_all_bind (Forall plain)); [|intros rs Hrs; by apply logicalDNS_plain].
  apply mapi_result_Ok in Em. apply result_all_mapi. clear Hv.
  induction Em as [|o u rules uses [j Ho] _ IHl]; [constructor|]. cbn [flat_map forallb] in Huses, Hds.
  apply app_nil in Huses as [Hu1 Hu2]. apply andb_true_iff in Hds as [Hd1 Hd2].
  apply Forall_cons; [|by apply IHl; [apply (Forall_inv_tail IH)|..]].
  intros i. apply (result_all_bind (fun _ => True)); [by apply result_all_pure|]. intros _ _. apply result_all_cause.
  destruct (validateLegacyDNSModeDisabledRuleTree hasLookup o) as [u'|] eqn:Eo; [|done]. injection Ho as ->.
  by apply (Forall_inv IH false u).
Qed.
End built.

(** ** Validated lists of rules *)

Section validated.
Context `{L : Libs} (lookup : string -> result RuleSetMetadata).

Definition usesNoTag (o : DNSRuleOptions) : Prop :=
  exists use, validateLegacyDNSModeDisabledRuleTree lookup o = Ok use /\ referencedTags use = [].

Lemma validateOne_untagged i o s s' :
  va_definedTagOrder s = [] -> dnsRuleActionEvaluateTag o = "" -> validateOne lookup i o s = Ok s' ->
  usesNoTag o /\ va_definedTagOrder s' = [].
Proof.
  intros Hs Ht H. unfold validateOne in H.
  destruct (validateLegacyDNSModeDisabledRuleTree lookup o) as [use|] eqn:E; [|done]. cbn [result_cause result_bind] in H.
  set (s1 := if dnsRuleActionSpeculative o && _ then _ else _) in H.
  set (s2 := if dnsRuleRace o then _ else _) in H.
  assert (Hs2 : va_definedTagOrder s2 = []) by (subst s2 s1; by repeat case_match).
  apply result_bind_Ok in H as (s3 & H3 & H). apply result_bind_Ok in H as (s4 & H4 & H).
  assert (Hs3 : va_definedTagOrder s3 = []) by (clear -Hs2 H3; repeat case_match; by simplify_eq).
  assert (Hu : referencedTags use = [] /\ s4 = s3).
  { destruct (referencedTags use) as [|tag tags]; [by injection H4|]. cbn [checkTags] in H4.
    unfold definesTag in H4. rewrite Hs3 in H4. rewrite bool_decide_false in H4 by (apply not_elem_of_nil). done. }
  destruct Hu as [Hu ->]. split; [by exists use|]. unfold defineTag in H. rewrite Ht in H.
  by repeat case_match; simplify_eq.
Qed.

Lemma validateLoop_untagged rules : forall i s s',
  va_definedTagOrder s = [] -> Forall (fun o => dnsRuleActionEvaluateTag o = "") rules ->
  validateLoop lookup i rules s = Ok s' -> Forall usesNoTag rules.
Proof.
  induction rules as [|o rules IH]; intros i s s' Hs Ht H; [constructor|]. cbn [validateLoop] in H.
  apply result_bind_Ok in H as (s1 & H1 & H).
  destruct (validateOne_untagged _ _ _ _ Hs (Forall_inv Ht) H1) as [Hu Hs1].
  apply Forall_cons; [done|]. by apply (IH (S i) s1 s'); [|exact (Forall_inv_tail Ht)|].
Qed.
End validated.

(** ** Started rules *)

Section started.
Context `{L : Libs} (se : StartEnv) (goodItem : RuleItem -> bool) (goodDNS : bool -> string -> bool).
Context (Hitem : forall i, goodItem (snd (RuleItem_Start se i)) = goodItem i).
Context (Hsets : forall tag s, se_RuleSet se tag = Some s -> goodSet goodItem goodDNS s = true).
Notation goodS := (goodSet goodItem goodDNS).

Definition goodHolder (rs : option RuleSetItem) : Prop :=
  match rs with Some i => forallb goodS (setList i) = true | None => True end.

Lemma acquire_good tags : forall held refs err held' refs',
  forallb goodS held = true -> acquireSets se tags held refs = (err, held', refs') -> forallb goodS held' = true.
Proof.
  induction tags as [|tag tags IH]; intros held refs err held' refs' Hh; cbn [acquireSets].
  - by intros [= <- <- <-].
  - destruct (se_RuleSet se tag) as [s|] eqn:E; [|by intros [= <- <- <-]]. apply IH.
    rewrite forallb_app, Hh. cbn. by rewrite (Hsets _ _ E).
Qed.

Lemma startItems_good all : forall reached rs refs err reached' rs' refs',
  goodHolder rs -> startItems se all reached rs refs = Ok (err, reached', rs', refs') -> goodHolder rs'.
Proof.
  induction all as [|[i|] all IH]; intros reached rs refs err reached' rs' refs' Hr; cbn [startItems].
  - by intros [= <- <- <- <-].
  - destruct (fst (RuleItem_Start se i)); [by intros [= <- <- <- <-]|by apply IH].
  - destruct rs as [i|]; [|by apply IH]. destruct (RuleSetItem_Start se i refs) as [[[e i'] refs1]|] eqn:E; [|done].
    assert (Hi : goodHolder (Some i')).
    { unfold RuleSetItem_Start in E. destruct (RuleSetItem_Close i refs) as [[[tags sets a b] refs2]|]; [|done].
      cbn [result_bind] in E. destruct (acquireSets se tags [] refs2) as [[err' held] refs3] eqn:Ea.
      apply acquire_good in Ea; [|done]. destruct err'; [|by injection E as <- <- <-].
      cbn [RuleSetItem_Close] in E. destruct (releaseSets held refs3); [|done]. by injection E as <- <- <-. }
    cbn [result_bind]. destruct e; [by intros [= <- <- <- <-]|by apply IH].
Qed.

Lemma map_started reached l : forallb goodItem (map (startedAmong se reached) l) = forallb goodItem l.
Proof.
  induction l as [|i l IH]; [done|]. cbn. rewrite IH. f_equal. unfold startedAmong. by destruct (existsb _ _); rewrite ?Hitem.
Qed.

Lemma default_started r refs r' refs' :
  goodDefault goodItem goodDNS r = true -> DefaultRule_Start se r refs = Ok (None, r', refs') ->
  goodDefault goodItem goodDNS r' = true.
Proof.
  destruct r as [its sa sp da dc dp all rs inv act]. cbn [DefaultRule_Start goodDefault]. rewrite !andb_true_iff.
  intros [Hg Hrs] H. destruct (startItems se all [] rs refs) as [[[[err reached] rs1] refs1]|] eqn:E; [|done]. cbn [result_bind] in H.
  injection H as -> <- <-. cbn [goodDefault]. rewrite !map_started, !andb_true_iff. split; [done|].
  apply startItems_good in E; [|by destruct rs as [[]|]]. by destruct rs1 as [[]|].
Qed.

(** The rule after a start: the same bindings, and as good as before. *)
Definition startKeeps (h : HeadlessRule) : Prop := forall refs h' refs',
  HeadlessRule_Start se h refs = Ok (None, h', refs') ->
  MatchResponseTags h' = MatchResponseTags h /\ MatchResponseAnonymous h' = MatchResponseAnonymous h
  /\ (goodRule goodItem goodDNS h = true -> goodRule goodItem goodDNS h' = true).

Lemma loop_started rules : Forall startKeeps rules -> forall refs rules' refs',
  startLoop (HeadlessRule_Start se) rules refs = Ok (None, rules', refs') ->
  forallb (goodRule goodItem goodDNS) rules = true -> forallb (goodRule goodItem goodDNS) rules' = true.
Proof.
  induction 1 as [|h rules Hh _ IH]; intros refs rules' refs'; cbn [startLoop]; [by intros [= <- <-]|].
  destruct (HeadlessRule_Start se h refs) as [[[[e|] h1] refs1]|] eqn:E; cbn [result_bind]; [done| |done].
  destruct (startLoop _ rules refs1) as [[[[e|] rules1] refs2]|] eqn:E2; cbn [result_bind]; [done| |done].
  intros [= <- <-]. cbn [forallb]. rewrite !andb_true_iff. intros [H1 H2].
  split; [by apply (Hh _ _ _ E)|by apply (IH _ _ _ E2)].
Qed.

Lemma rule_started h : startKeeps h.
Proof.
  apply (headless_rule_ind (fun _ => True) (fun _ => True) (fun _ => True)
    (fun r => Forall startKeeps (logical_rules r)) startKeeps); try done.
  1-3: intros r; intros; intros refs h' refs'; cbn [HeadlessRule_Start];
    destruct (DefaultRule_Start se r refs) as [[[[e|] r1] refs1]|] eqn:E; cbn [result_bind]; try done;
    intros [= <- <-]; (split_and!; [done..|]); cbn [goodRule]; rewrite ?andb_true_iff.
  1-2: intros Hg; by eapply default_started.
  { intros [H1 H2]. split; [done|]. by eapply default_started. }
  all: intros [rules mode inv act]; intros; intros refs h' refs'; cbn [HeadlessRule_Start];
    destruct (startLoop _ rules refs) as [[[[e|] rules1] refs1]|] eqn:E; cbn [result_bind]; try done;
    intros [= <- <-]; (split_and!; [done..|]); by eapply loop_started.
Qed.
End started.

(** ** From the options to the race theorem *)

Section configured.
Context `{L : Libs}.

Lemma startedItem_silent se i : silentItem (snd (RuleItem_Start se i)) = silentItem i.
Proof.
  destruct i; try done; cbn [RuleItem_Start].
  - by destruct (PreferredByItem_Start _ _).
  - by destruct (PreferredByDNSItem_Start _ _).
Qed.

Lemma start_plain se h refs h' refs' :
  (forall tag s, se_RuleSet se tag = Some s -> loadedSet s) ->
  HeadlessRule_Start se h refs = Ok (None, h', refs') -> plain h -> plain h'.
Proof.
  intros Hl H [H1 H2 H3].
  destruct (rule_started se anyItem tagless (fun _ => eq_refl) (fun tag s E => loaded_tagless s (Hl tag s E)) h _ _ _ H)
    as (Ht & Ha & Hg).
  destruct (rule_started se silentItem unbound (startedItem_silent se) (fun tag s E => loaded_silent s (Hl tag s E)) h _ _ _ H)
    as (_ & _ & Hs).
  split; [congruence|auto|]. rewrite Ha. auto.
Qed.

Lemma startRules_plain se rules : (forall tag s, se_RuleSet se tag = Some s -> loadedSet s) ->
  Forall plain rules -> forall i refs rules' refs',
  startRulesLoop se i rules refs = Ok (None, rules', refs') -> Forall plain rules'.
Proof.
  intros Hl. induction 1 as [|h rules Hh _ IH]; intros i refs rules' refs'; cbn [startRulesLoop]; [by intros [= <- <-]|].
  destruct (HeadlessRule_Start se h refs) as [[[[e|] h1] refs1]|] eqn:E; cbn [result_bind]; [done| |done].
  destruct (startRulesLoop se (S i) rules refs1) as [[[[e|] rules1] refs2]|] eqn:E2; cbn [result_bind]; [done| |done].
  intros [= <- <-]. apply Forall_cons; [by eapply start_plain|by eapply IH].
Qed.

Lemma parse_plain e raw rules flags ws :
  parseRules e raw = Ok (rules, false, flags, ws) ->
  Forall (fun o => dnsRuleActionEvaluateTag o = "") raw -> forallb decodedResponse raw = true -> Forall plain rules.
Proof.
  unfold parseRules. intros H Ht Hd. apply result_bind_Ok in H as (u & _ & H).
  destruct (resolveLegacyDNSMode _ _ raw) as [[legacy flags']|]; [|done]. cbn [result_bind] in H.
  apply result_bind_Ok in H as (ws' & Hv & H). apply result_bind_Ok in H as (u' & _ & H).
  apply result_bind_Ok in H as (rules' & Hn & H). injection H as -> -> -> ->. cbn [negb] in Hv.
  unfold validateLegacyDNSModeDisabledRules in Hv. apply result_bind_Ok in Hv as (s & Hv & _).
  apply validateLoop_untagged in Hv; [|done|done]. apply mapi_result_Ok in Hn.
  clear Ht u u'. induction Hn as [|o h raw rules [j Ho] _ IH]; [constructor|].
  cbn [forallb] in Hd. apply andb_true_iff in Hd as [Hd1 Hd2]. destruct (Forall_inv Hv) as (use & Hu1 & Hu2).
  apply Forall_cons; [|by apply IH; [exact (Forall_inv_tail Hv)|]].
  exact (result_all_Ok _ _ _ (result_all_cause _ _ _ (validated_plain _ o false true use Hu1 Hu2 Hd1)) Ho).
Qed.

(** C12 The rules a DNS router runs without the legacy mode refer to responses
    without a tag and look at a response only if they say so, when no evaluate
    action of its options has a tag and the rule-sets were loaded: the validation
    refuses every configuration for which that would fail. *)
Theorem dns_configured_untagged (env : RuleEnv) (e : DNSRouterEnv) (r r' : DNSRules) (refs refs' : gmap string Z) :
  dr_closing r = false -> DNSRules_Start e r refs = Ok (None, r', refs') -> dr_legacyDNSMode r' = false ->
  (forall tag s, se_RuleSet (de_Start e) tag = Some s -> loadedSet s) ->
  Forall (fun o => dnsRuleActionEvaluateTag o = "") (dr_rawRules r) ->
  forallb decodedResponse (dr_rawRules r) = true ->
  Forall (untagged env) (dr_rules r').
Proof.
  intros Hc H Hm Hl Ht Hd. unfold DNSRules_Start, buildRules in H.
  destruct (parseRules e (dr_rawRules r)) as [[[[rules legacy] flags] ws]|] eqn:Ep; [|done]. cbn [negb] in H.
  destruct (startRulesLoop _ _ _ _) as [[[[err|] rules'] refs2]|] eqn:Es; cbn [result_bind] in H;
    [by destruct (closeLoop _ _ _) as [[? ?]|]| |done].
  rewrite Hc in H. injection H as <- <-. cbn [dr_legacyDNSMode dr_rules] in *. subst legacy.
  eapply Forall_impl; [intros h; apply plain_untagged|].
  eapply startRules_plain; [done| |exact Es]. by eapply parse_plain.
Qed.
End configured.
