(* ===== verification/DNSRaceTheorems.v ===== *)
(** * The exchange with DNS rules, as a whole

    From [DNSRace]: every exchange ends, with a result the rules allow; without
    race rules it is the result of the rules in their order; the asynchronous
    entry gives what the synchronous one gives. *)

From S2P Require Import Prelude.
From S2P Require Import GoText.
From S2P Require Import Libs.
From S2P Require Import Metadata.
From S2P Require Import RuleItems.
From S2P Require Import RuleAction.
From S2P Require Import RuleEngine.
From S2P Require Import RuleSpec.
From S2P Require Import DNSQuery.
From S2P Require Import DNSRouter.
From S2P Require Import DNSRace.
Local Open Scope Z_scope.

Section exchange.
Context `{L : Libs} (env : RuleEnv) (sched : Schedule).
Context (Transport : string -> option DNSTransport) (Default : DNSTransport) (defaultDomainStrategy : Z).
Context (message : Msg) (allowFakeIP : bool).
Implicit Types s : dnsRuleWalkState.

Notation resume := (resumeExchangeWithRules env sched Transport Default defaultDomainStrategy).
Notation exchange := (exchangeWithRules env sched Transport Default defaultDomainStrategy).

(** ** Fuel *)

Lemma resume_more all fuel : forall suspension s r fuel',
  resume fuel all message allowFakeIP suspension s = Some r -> (fuel <= fuel')%nat ->
  resume fuel' all message allowFakeIP suspension s = Some r.
Proof.
  induction fuel as [|fuel IH]; intros suspension s r [|fuel'] H Hle; [done|done|lia|].
  cbn [resumeExchangeWithRules] in *.
  destruct (sweepArmedDNSRules _ _ _ _ _) as [o s1].
  assert (Hgo : forall s2, match walkDNSRules env sched Transport Default defaultDomainStrategy all message allowFakeIP s2 with
      | (WalkResult r, _) => Some r
      | (WalkSuspended suspension, s) => resume fuel all message allowFakeIP suspension s end = Some r ->
    match walkDNSRules env sched Transport Default defaultDomainStrategy all message allowFakeIP s2 with
      | (WalkResult r, _) => Some r
      | (WalkSuspended suspension, s) => resume fuel' all message allowFakeIP suspension s end = Some r).
  { intros s2. destruct (walkDNSRules _ _ _ _ _ _ _ _ s2) as [[r2|sus2] s3]; [done|]. intros H2. apply (IH _ _ _ _ H2). lia. }
  destruct o as [[r'|p|]|]; [done|done|..];
    (destruct suspension as [i| |p]; [| |done];
     (destruct (mustWait _ s1) as [[|] s2]; [|by apply Hgo];
      destruct (selectContext _ _ _) as [t|e|]; [|done..]; apply (IH _ _ _ _ H); lia)).
Qed.

(** ** A pending exchange leaves no armed rule behind *)

Definition pendingUnarmed (outcome : option walkOutcome) s : Prop :=
  forall p, outcome = Some (WalkSuspended (SuspendPending p)) -> ws_armedRules s = [].

Lemma armRule_pending rule s outcome s' :
  armRule env Transport message allowFakeIP rule s = (outcome, s') -> pendingUnarmed outcome s'.
Proof.
  unfold armRule, pendingUnarmed. intros H p ->. by repeat case_match; simplify_eq.
Qed.

Lemma noArmed_nil s : noArmed s = true -> ws_armedRules s = [].
Proof. unfold noArmed. by destruct (ws_armedRules s). Qed.

Lemma walkAction_pending rule bound s outcome s' :
  walkAction sched Transport defaultDomainStrategy message allowFakeIP rule bound s = (outcome, s') ->
  pendingUnarmed outcome s'.
Proof.
  unfold walkAction, walkEvaluate, walkRespond, walkRoute, pendingUnarmed, drain, suspendPending.
  intros H p ->. destruct (noArmed s) eqn:En; [apply noArmed_nil in En|]; cbn [negb] in H; rewrite ?andb_false_r, ?andb_true_r in H;
    repeat case_match; simplify_eq; try done.
Qed.

Lemma walkRule_pending rule s outcome s' :
  walkRule env sched Transport defaultDomainStrategy message allowFakeIP rule s = (outcome, s') ->
  pendingUnarmed outcome s'.
Proof.
  unfold walkRule. destruct (_ && DNSRule_Race rule); [apply armRule_pending|].
  destruct (if nonEmpty _ || _ then awaitFuture _ _ else _) as [[i|] s1]; [by intros [= <- <-] p|].
  destruct (anonymousResponse s1) as [response s2], (matchWith _ _ _ _) as [[|] s3]; cbn [negb];
    [apply walkAction_pending|by intros [= <- <-] p].
Qed.

Lemma walkLoop_pending rules : forall s p s',
  walkLoop env sched Transport Default defaultDomainStrategy message allowFakeIP rules s
    = (WalkSuspended (SuspendPending p), s') -> ws_armedRules s' = [].
Proof.
  induction rules as [|rule rules IH]; intros s p s'; cbn [walkLoop].
  - destruct (noArmed s) eqn:E; [|done]. intros [= _ <-]. by apply noArmed_nil.
  - destruct (walkRule _ _ _ _ _ _ rule s) as [[o|] s1] eqn:E; [|apply IH].
    intros [= -> <-]. by apply (walkRule_pending _ _ _ _ E p).
Qed.

(** ** Where the walk starts *)

Lemma onWay_start rules options m :
  Forall (untagged env) rules ->
  onWay env sched Transport defaultDomainStrategy allowFakeIP m (newWalkState options m) rules
    (mkSpecState options None).
Proof. by split. Qed.

Definition specOf (rules : list HeadlessRule) (options : DNSQueryOptions) (m : InboundContext) :
    list exchangeWithRulesResult * exchangeWithRulesResult :=
  specWalk env (sc_answer sched) Transport Default defaultDomainStrategy message allowFakeIP m 0 rules
    (mkSpecState options None).

Lemma exchange_spec rules options m :
  Forall (untagged env) rules -> m_IgnoreDestinationIPCIDRMatch m = false ->
  exists r, (forall fuel, (10 * length rules + 4 <= fuel)%nat ->
      exchange fuel rules message options allowFakeIP m = Some r)
    /\ ends sched (specOf rules options m) r.
Proof.
  intros Hu Hm. set (fuel := (10 * length rules + 4)%nat).
  destruct (resume_walk env sched Transport Default defaultDomainStrategy message allowFakeIP m Hm
    rules (specOf rules options m) fuel (newWalkState options m) (mkSpecState options None)) as (r & Hr & He).
  - by apply onWay_start.
  - unfold total, specOf. change (drop _ rules) with rules. cbn [newWalkState ws_ruleIndex ws_armedRules].
    by destruct (specWalk _ _ _ _ _ _ _ _ _ _ _).
  - cbn. lia.
  - lia.
  - cbn. lia.
  - intros i [=].
  - cbn. lia.
  - exact (resume_spec _ _ _ _ _ _ _ _ Hm _ _ _).
  - exists r. split; [|done]. intros fuel' Hle. unfold exchangeWithRules.
    destruct (walkDNSRules _ _ _ _ _ _ _ _ _) as [[r'|suspension] s]; [done|]. by eapply resume_more.
Qed.
End exchange.

(** C2 Every exchange with DNS rules that refer to responses without tags (C12)
    ends, whatever the servers' speed, the order of their answers and the
    choices of [select]: with fuel for ten
    rounds per rule it returns, and more fuel changes nothing.  What it returns
    is a result of a matching race rule if there is one, and otherwise the
    result of the first rule that decides when the rules are read in their order
    with all evaluated responses known; or the context's error. *)
Theorem dns_exchange_refines `{L : Libs} env sched Transport Default defaultDomainStrategy
    (rules : list HeadlessRule) message options allowFakeIP m :
  Forall (untagged env) rules -> m_IgnoreDestinationIPCIDRMatch m = false ->
  exists r,
    (forall fuel, (10 * length rules + 4 <= fuel)%nat ->
       exchangeWithRules env sched Transport Default defaultDomainStrategy fuel rules message options allowFakeIP m
         = Some r)
    /\ (allowed (specWalk env (sc_answer sched) Transport Default defaultDomainStrategy message allowFakeIP m
                  0 rules (mkSpecState options None)) r
        \/ exists d e, sc_ctxDone sched = Some (d, e) /\ r = errorResult e).
Proof. intros Hu Hm. by apply exchange_spec. Qed.

Lemma specWalk_ordered `{L : Libs} env answer Transport Default defaultDomainStrategy message allowFakeIP m rules :
  forall i st, Forall (fun rule => isRace rule = false) rules ->
  fst (specWalk env answer Transport Default defaultDomainStrategy message allowFakeIP m i rules st) = [].
Proof.
  induction rules as [|rule rules IH]; intros i st H; [done|]. cbn [specWalk].
  pose proof (Forall_inv_tail H). rewrite (Forall_inv H). repeat case_match; try done; by apply IH.
Qed.

(** Without race rules the servers' speed does not show: two schedules in
    which the servers give the same answers, at whatever times, lead to the same
    result. *)
Theorem dns_exchange_timeless `{L : Libs} env sched sched' Transport Default defaultDomainStrategy
    (rules : list HeadlessRule) message options allowFakeIP m fuel fuel' :
  Forall (untagged env) rules -> Forall (fun rule => isRace rule = false) rules ->
  m_IgnoreDestinationIPCIDRMatch m = false ->
  sc_answer sched = sc_answer sched' -> sc_ctxDone sched = None -> sc_ctxDone sched' = None ->
  (10 * length rules + 4 <= fuel)%nat -> (10 * length rules + 4 <= fuel')%nat ->
  exists r r',
    exchangeWithRules env sched Transport Default defaultDomainStrategy fuel rules message options allowFakeIP m = Some r
    /\ exchangeWithRules env sched' Transport Default defaultDomainStrategy fuel' rules message options allowFakeIP m = Some r'
    /\ observe r = observe r'.
Proof.
  intros Hu Hr Hm Ha Hd Hd' Hf Hf'.
  destruct (exchange_spec env sched Transport Default defaultDomainStrategy message allowFakeIP rules options m Hu Hm)
    as (r & H & [E|(d & e & E & _)]); [|congruence].
  destruct (exchange_spec env sched' Transport Default defaultDomainStrategy message allowFakeIP rules options m Hu Hm)
    as (r' & H' & [E'|(d & e & E' & _)]); [|congruence].
  exists r, r'. split_and!; [by apply H|by apply H'|].
  unfold allowed, specOf in E, E'. rewrite specWalk_ordered in E, E' by done. congruence.
Qed.

(** The asynchronous exchange hands its callback the result the synchronous
    one returns, for every list of rules and every schedule. *)
Theorem dns_async_same `{L : Libs} env sched Transport Default defaultDomainStrategy fuel
    (rules : list HeadlessRule) message options allowFakeIP m :
  exchangeWithRulesAsync env sched Transport Default defaultDomainStrategy (S fuel) rules message options allowFakeIP m
  = exchangeWithRules env sched Transport Default defaultDomainStrategy (S fuel) rules message options allowFakeIP m.
Proof.
  unfold exchangeWithRulesAsync, exchangeWithRules.
  destruct (walkDNSRules _ _ _ _ _ _ _ _ _) as [[r|[i| |[k t [o|n]]]] s] eqn:E; try done.
  apply walkLoop_pending in E. cbn [resumeExchangeWithRules]. unfold sweepArmedDNSRules.
  rewrite (lk_armed _ _ (settle_look s)), E. reflexivity.
Qed.
