(* ===== verification/DNSExamples.v ===== *)
(** * Runs of the DNS rules

    Concrete configurations for the theorems on DNS rules, and a behaviour that
    depends on the servers' speed where it should not: a rule on a tagged
    response. *)

From S2P Require Import Prelude.
From S2P Require Import GoText.
From S2P Require Import NetIP.
From S2P Require Import Libs.
From S2P Require Import Metadata.
From S2P Require Import RuleItems.
From S2P Require Import RuleAction.
From S2P Require Import RuleEngine.
From S2P Require Import RuleBlind.
From S2P Require Import RuleOptions.
From S2P Require Import RuleBuild.
From S2P Require Import RuleStart.
From S2P Require Import DNSQuery.
From S2P Require Import DNSValidate.
From S2P Require Import DNSRouter.
From S2P Require Import DNSRace.
From S2P Require Import DNSValidateTheorems.
From S2P Require Import DNSUntagged.
From S2P Require Import DNSRaceTheorems.
Local Open Scope string_scope.
Local Open Scope Z_scope.

Module DNSRuns.
#[local] Existing Instance ref_libs.

Definition quietEnv : RuleEnv := mkEnv None [] [] None (mkWIFIState "" "") "" false.
Definition rawDNS (suffix : list string) (ruleSet : list string) (mr : option DNSRuleMatchResponse) (rcode : option Z) :
    RawDefaultDNSRule :=
  mkRawDefaultDNSRule [] 0 [] [] false [] [] [] [] suffix [] [] [] false [] [] [] [] [] [] [] [] [] [] [] [] "" []
    false false [] [] None None [] [] [] [] ruleSet false mr [] false false rcode [] [] [] false [] [] [] false false false.
Definition dnsRule (raw : RawDefaultDNSRule) (race : bool) (a : DNSRuleActionVariant) : DNSRuleOptions :=
  mkDNSRuleOptions RuleTypeDefault (mkDefaultDNSRuleOptions raw (mkDNSRuleActionOptions race a))
    (mkLogicalDNSRuleOptions "" [] false (mkDNSRuleActionOptions false DOptNone)).
Definition noDNSOptions : AbstractDNSRouteActionOptions := mkDNSRouteOptions 0 0 false false None None false.
Definition always : RawDefaultDNSRule := rawDNS [] [] None None.
(** On the response of the latest evaluate action, respectively of a tagged one. *)
Definition onResponseOk : RawDefaultDNSRule := rawDNS [] [] (Some (mkMatchResponse true "")) (Some RcodeSuccess).
Definition onTagged (tag : string) : RawDefaultDNSRule :=
  rawDNS [] [] (Some (mkMatchResponse true tag)) (Some RcodeSuccess).

Definition local : DNSTransport := mkTransport "local" "udp".
Definition remote : DNSTransport := mkTransport "remote" "tls".
Definition fallback : DNSTransport := mkTransport "fallback" "udp".
Definition servers (tag : string) : option DNSTransport :=
  if String.eqb tag "local" then Some local else if String.eqb tag "remote" then Some remote else None.

Definition query0 : Msg := mkMsg 7 false false true false 0 [mkQuestion "example.org." 1 1] [] [] [].
Definition reply (rcode : Z) : Msg := mkMsg 7 true false true true rcode [mkQuestion "example.org." 1 1] [] [] [].
(** Every server answers; only the remote one fails. *)
Definition answers (_ : nat) (t : DNSTransport) (_ : DNSQueryOptions) : option Msg * option GoError :=
  (Some (reply (if String.eqb (tr_Tag t) "remote" then 2 else 0)), None).
Definition schedule (doneAt : nat -> nat) : Schedule :=
  mkSchedule answers doneAt (fun i => S (doneAt i)) None (fun _ => false).
Definition noQueryOptions : DNSQueryOptions := mkQueryOptions None 0 0 false false None 0 Prefix.zero false.

Definition builtDNS (o : DNSRuleOptions) : list HeadlessRule :=
  match NewDNSRule o true false with Ok h => [h] | Err _ => [] end.
Definition builtList (l : list DNSRuleOptions) : list HeadlessRule := concat (map builtDNS l).

(** Which server the response is from. *)
Definition servedBy (r : option exchangeWithRulesResult) : option string :=
  match r with Some r => option_map tr_Tag (er_transport r) | None => None end.

Definition taggedRules : list DNSRuleOptions :=
  [dnsRule always false (DOptEvaluate "local" "first" false noDNSOptions);
   dnsRule (onTagged "first") false DOptRespond].
Definition taggedRun (doneAt : nat) : option exchangeWithRulesResult :=
  exchangeWithRules quietEnv (schedule (fun _ => doneAt)) servers fallback 0 30 (builtList taggedRules) query0
    noQueryOptions true InboundContext_zero.

(** A rule on a tagged response is judged without it when the response
    arrives between the look that files responses under their tags and the look
    that asks whether they arrived: the answer of the local server is used when
    it comes earlier or later, and passed over when it comes just then. *)
Theorem tagged_response_missed :
  map (fun doneAt => servedBy (taggedRun doneAt)) [0; 1; 2; 3; 4; 5; 6]%nat
  = [Some "local"; Some "local"; Some "local"; Some "fallback"; Some "local"; Some "local"; Some "local"].
Proof. vm_compute. reflexivity. Qed.

(** ** Without tags *)

Definition orderedRules : list DNSRuleOptions :=
  [dnsRule always false (DOptEvaluate "local" "" false noDNSOptions);
   dnsRule onResponseOk false DOptRespond].
(** The remote server is asked while the local one has not answered yet. *)
Definition raceRules : list DNSRuleOptions :=
  [dnsRule always false (DOptEvaluate "remote" "" false noDNSOptions);
   dnsRule onResponseOk true DOptRespond;
   dnsRule always false (DOptEvaluate "local" "" true noDNSOptions);
   dnsRule onResponseOk true DOptRespond;
   dnsRule always false (DOptRoute "remote" false noDNSOptions)].

Definition plainB (h : HeadlessRule) : bool :=
  match MatchResponseTags h with [] => true | _ => false end && goodRule anyItem tagless h
  && (MatchResponseAnonymous h || goodRule silentItem unbound h).
Lemma plainB_untagged rules : forallb plainB rules = true -> Forall (untagged quietEnv) rules.
Proof.
  intros H. apply List.Forall_forall. intros h Hh. apply plain_untagged.
  pose proof (proj1 (forallb_forall _ _) H h Hh) as Hp. unfold plainB in Hp. rewrite !andb_true_iff in Hp.
  destruct Hp as [[H1 H2] H3]. split; [by destruct (MatchResponseTags h)|done|]. intros Ha. by rewrite Ha in H3.
Qed.

Lemma dns_exchange_refines_witness :
  exists r,
    (forall fuel, (10 * length (builtList raceRules) + 4 <= fuel)%nat ->
       exchangeWithRules quietEnv (schedule (fun i => 20 - 3 * i)%nat) servers fallback 0 fuel (builtList raceRules)
         query0 noQueryOptions true InboundContext_zero = Some r)
    /\ (allowed (specWalk quietEnv answers servers fallback 0 query0 true InboundContext_zero 0 (builtList raceRules)
                  (mkSpecState noQueryOptions None)) r
        \/ exists d e, sc_ctxDone (schedule (fun i => 20 - 3 * i)%nat) = Some (d, e) /\ r = errorResult e).
Proof.
  apply (dns_exchange_refines quietEnv (schedule (fun i => 20 - 3 * i)%nat) servers fallback 0 (builtList raceRules)
    query0 noQueryOptions true InboundContext_zero); [apply plainB_untagged; vm_compute|]; reflexivity.
Defined.

Lemma dns_exchange_timeless_witness :
  length (builtList orderedRules) = 2%nat /\
  exists r r',
    exchangeWithRules quietEnv (schedule (fun _ => 1%nat)) servers fallback 0 30 (builtList orderedRules)
      query0 noQueryOptions true InboundContext_zero = Some r
    /\ exchangeWithRules quietEnv (schedule (fun _ => 50%nat)) servers fallback 0 30 (builtList orderedRules)
      query0 noQueryOptions true InboundContext_zero = Some r'
    /\ observe r = observe r'.
Proof.
  assert (Hn : length (builtList orderedRules) = 2%nat) by (vm_compute; reflexivity). split; [exact Hn|].
  apply (dns_exchange_timeless quietEnv (schedule (fun _ => 1%nat)) (schedule (fun _ => 50%nat)) servers fallback 0
    (builtList orderedRules) query0 noQueryOptions true InboundContext_zero 30 30).
  - apply plainB_untagged. vm_compute. reflexivity.
  - apply List.Forall_forall. intros h Hh.
    assert (Hr : forallb (fun h => negb (isRace h)) (builtList orderedRules) = true) by (vm_compute; reflexivity).
    apply (proj1 (forallb_forall _ _) Hr) in Hh. by apply negb_true_iff in Hh.
  - reflexivity.
  - reflexivity.
  - reflexivity.
  - reflexivity.
  - rewrite Hn. lia.
  - rewrite Hn. lia.
Defined.

(** ** A router with a rule-set *)

Definition suffixSet (tag : string) (suffix : list string) : RuleSet :=
  match reloadRules true (fun _ _ => Ok tt)
    [mkHeadlessRuleOptions RuleTypeDefault
       (mkDefaultHeadlessRuleOptions [] [] [] suffix [] [] [] [] [] [] [] [] [] [] [] [] [] [] false false [] [] None []
          false None None None [] None false false)
       (mkLogicalHeadlessRuleOptions "" [] false)]
    (mkRuleSet tag [] (mkRuleSetMetadata false false false false false)) with
  | Ok s => s | Err _ => mkRuleSet tag [] (mkRuleSetMetadata false false false false false) end.
Definition sets (tag : string) : option RuleSet :=
  if String.eqb tag "ads" then Some (suffixSet "ads" [".ads.example"]) else None.
Definition routerEnv : DNSRouterEnv :=
  mkDNSRouterEnv true (Some servers) (mkStartEnv sets false (fun _ => None) (fun _ => None)).
Definition routerRules : DNSRules :=
  mkDNSRules (dnsRule (rawDNS [] ["ads"] None None) false (DOptReject "" false) :: orderedRules) [] false false false.

Definition startedOk (legacy : bool) : bool :=
  match DNSRules_Start routerEnv routerRules ∅ with
  | Ok (None, r, _) => eqb (dr_legacyDNSMode r) legacy && (length (dr_rules r) =? 3)%nat | _ => false end.

Lemma routerRules_started : exists r' refs',
  DNSRules_Start routerEnv routerRules ∅ = Ok (None, r', refs') /\ dr_legacyDNSMode r' = false.
Proof.
  assert (H : startedOk false = true) by (vm_compute; reflexivity). unfold startedOk in H.
  destruct (DNSRules_Start _ _ _) as [[[[e|] r'] refs']|]; try discriminate H.
  exists r', refs'. split; [reflexivity|]. by destruct (dr_legacyDNSMode r').
Qed.

(** An update that brings addresses only is refused, any other one is not. *)
Lemma dns_mode_stable_witness : exists r' refs',
  DNSRules_Start routerEnv routerRules ∅ = Ok (None, r', refs')
  /\ modeRight (foldl (offer r') routerEnv
       [suffixSet "ads" [".more.example"];
        mkRuleSet "ads" [] (mkRuleSetMetadata false false true false false)]) r'.
Proof.
  destruct routerRules_started as (r' & refs' & H & _). exists r', refs'. split; [exact H|].
  exact (dns_mode_stable routerEnv routerRules r' ∅ refs' _ eq_refl H).
Defined.

Lemma sets_loaded tag s : sets tag = Some s -> loadedSet s.
Proof.
  unfold sets. destruct (String.eqb tag "ads"); [|discriminate]. intros [= <-].
  unfold suffixSet. destruct (reloadRules _ _ _ _) as [s|] eqn:E; [by eexists _, _, _, _|].
  exfalso. enough (is_ok (reloadRules true (fun _ _ => Ok tt)
    [mkHeadlessRuleOptions RuleTypeDefault
       (mkDefaultHeadlessRuleOptions [] [] [] [".ads.example"] [] [] [] [] [] [] [] [] [] [] [] [] [] [] false false [] [] None []
          false None None None [] None false false)
       (mkLogicalHeadlessRuleOptions "" [] false)]
    (mkRuleSet "ads" [] (mkRuleSetMetadata false false false false false))) = true) as H by (rewrite E in H; discriminate).
  vm_compute. reflexivity.
Qed.

Lemma dns_configured_untagged_witness : exists r' refs',
  DNSRules_Start routerEnv routerRules ∅ = Ok (None, r', refs') /\ Forall (untagged quietEnv) (dr_rules r').
Proof.
  destruct routerRules_started as (r' & refs' & H & Hm). exists r', refs'. split; [exact H|].
  apply (dns_configured_untagged quietEnv routerEnv routerRules r' ∅ refs' eq_refl H Hm).
  - exact sets_loaded.
  - repeat (apply Forall_cons; [reflexivity|]). apply Forall_nil.
  - vm_compute. reflexivity.
Defined.
End DNSRuns.
