(* ===== verification/Lifecycle.v ===== *)
(** * Start stages and managed objects

    [adapter/lifecycle.go], and what the managers of [adapter/outbound],
    [adapter/endpoint], [adapter/inbound], [adapter/service],
    [adapter/certificate] and [dns] share: how an object is started and closed,
    and the loop of the outbound and DNS server managers that starts an object
    after the objects it depends on and goes round until all have started or
    none can. *)

From S2P Require Import Prelude.
From S2P Require Import GoText.
From S2P Require Import Libs.
Local Open Scope string_scope.
Local Open Scope Z_scope.

(** [adapter.StartStage]. *)
Inductive StartStage := StartStateInitialize | StartStateStart | StartStatePostStart | StartStateStarted.
Definition stageNumber (s : StartStage) : Z :=
  match s with
  | StartStateInitialize => 0 | StartStateStart => 1 | StartStatePostStart => 2 | StartStateStarted => 3
  end.
Definition StartStage_String (s : StartStage) : string :=
  match s with
  | StartStateInitialize => "initialize" | StartStateStart => "start"
  | StartStatePostStart => "post-start" | StartStateStarted => "finish-start"
  end.
Definition ListStartStages : list StartStage :=
  [StartStateInitialize; StartStateStart; StartStatePostStart; StartStateStarted].

(** An outbound, endpoint, inbound, service, provider or DNS server under a
    manager: [mo_id] is its identity (they are compared as pointers); what its
    [Start] and [Close] return is part of it. *)
Record Managed := mkManaged {
  mo_id : nat;
  mo_Type : string;
  mo_Tag : string;
  mo_Dependencies : list string;
  mo_Start : StartStage -> option GoError;
  mo_Close : option GoError }.

Definition sameManaged (o o' : Managed) : bool := (mo_id o =? mo_id o')%nat.
(** The name in messages: [prefix] is [outbound/], [inbound/], [dns/]... *)
Definition managedName (prefix : string) (o : Managed) : string := prefix ++ mo_Type o ++ "[" ++ mo_Tag o ++ "]".

(** What happened to them, in order. *)
Inductive event := Started (id : nat) (stage : StartStage) | Closed (id : nat).

(** ** Stages *)

(** Every object in the order of the list, to the first error. *)
Fixpoint startStage (prefix : string) (stage : StartStage) (l : list Managed) : option GoError * list event :=
  match l with
  | [] => (None, [])
  | o :: l =>
      match mo_Start o stage with
      | Some err =>
          (Some (E_Cause err (StartStage_String stage ++ " " ++ managedName prefix o)), [Started (mo_id o) stage])
      | None => let '(err, events) := startStage prefix stage l in (err, Started (mo_id o) stage :: events)
      end
  end.

(** The stages of an object that joins a running manager. *)
Fixpoint startStages (prefix : string) (stages : list StartStage) (o : Managed) : option GoError * list event :=
  match stages with
  | [] => (None, [])
  | stage :: stages =>
      match mo_Start o stage with
      | Some err =>
          (Some (E_Cause err (StartStage_String stage ++ " " ++ managedName prefix o)), [Started (mo_id o) stage])
      | None => let '(err, events) := startStages prefix stages o in (err, Started (mo_id o) stage :: events)
      end
  end.

(** [common.Index] with the removal of that element; a missing one panics. *)
Fixpoint removeManaged (panic : string) (o : Managed) (l : list Managed) : result (list Managed) :=
  match l with
  | [] => Err (GoPanic panic)
  | o' :: l => if sameManaged o' o then Ok l else let? l := removeManaged panic o l in Ok (o' :: l)
  end.

(** What a creation does before the object is added: a running manager starts
    it, and closes the object whose tag it takes; that object leaves the list.
    The error, the list and what happened. *)
Definition joinManaged (prefix panic : string) (started : bool) (tag : string) (o : Managed)
    (items : list Managed) (byTag : gmap string Managed) : result (option GoError * list Managed * list event) :=
  match (if started then startStages prefix ListStartStages o else (None, [])) with
  | (Some e, events) => Ok (Some e, items, events)
  | (None, events) =>
      match byTag !! tag with
      | None => Ok (None, items, events)
      | Some exists_ =>
          let events := if started then (events ++ [Closed (mo_id exists_)])%list else events in
          match (if started then mo_Close exists_ else None) with
          | Some e => Ok (Some (E_Cause e ("close " ++ managedName prefix exists_)), items, events)
          | None => let? items := removeManaged panic exists_ items in Ok (None, items, events)
          end
      end
  end.

Section start.
Context `{L : Libs}.

(** How the objects are called: [outbound/] and [outbound], or [dns/] and
    [server]. *)
Context (prefix noun : string).

(** ** Starting in order *)

(** Why no object can start. *)
Inductive lintResult :=
  | Circular (tree : list string) (tag : string)
  | NotFound (dependency tag : string).
Definition lintError (r : lintResult) : GoError :=
  match r with
  | Circular tree tag =>
      E_New (F_ToString ["circular "; noun; " dependency: "; strings.Join tree " -> "; " -> "; tag])
  | NotFound dependency tag =>
      E_New (F_ToString ["dependency["; dependency; "] not found for "; noun; "["; tag; "]"])
  end.

(** [common.Find]: the zero value if there is none. *)
Definition findDependency (started : gset string) (deps : list string) : string :=
  default "" (common_Find deps (fun it => negb (bool_decide (it ∈ started)))).

(** [None]: out of fuel. *)
Fixpoint lintObject (fuel : nat) (byTag : gmap string Managed) (started : gset string)
    (oTree : list string) (oCurrent : Managed) : option lintResult :=
  match fuel with
  | O => None
  | S fuel =>
      let problemTag := findDependency started (mo_Dependencies oCurrent) in
      if common_Contains oTree problemTag then Some (Circular oTree problemTag)
      else match byTag !! problemTag with
           | None => Some (NotFound problemTag (mo_Tag oCurrent))
           | Some problem =>
               lintObject fuel byTag started (oTree ++ [problemTag]) problem
           end
  end.

(** One round over the objects; [order] are those that were started. *)
Record startState := mkStartState { sst_started : gset string; sst_order : list Managed; sst_continue : bool }.

Definition ready (started : gset string) (o : Managed) : bool :=
  negb (bool_decide (mo_Tag o ∈ started)) && forallb (fun d => bool_decide (d ∈ started)) (mo_Dependencies o).

Fixpoint startRound (objects : list Managed) (s : startState) : option GoError * startState :=
  match objects with
  | [] => (None, s)
  | o :: objects =>
      if negb (ready (sst_started s) o) then startRound objects s
      else
        let s := mkStartState ({[mo_Tag o]} ∪ sst_started s) (sst_order s ++ [o])%list true in
        match mo_Start o StartStateStart with
        | Some err => (Some (E_Cause err ("start " ++ managedName prefix o)), s)
        | None => startRound objects s
        end
  end.

(** How the start ended. *)
Inductive startResult :=
  | AllStarted
  | StartFailed (e : GoError)
  | Stuck (lint : lintResult)
  | NilObject.   (* no object is left to blame: a nil pointer *)

Fixpoint startOrderedLoop (fuel : nat) (byTag : gmap string Managed)
    (objects : list Managed) (started : gset string) (order : list Managed) :
    option (startResult * list Managed) :=
  match fuel with
  | O => None
  | S fuel =>
      match startRound objects (mkStartState started order false) with
      | (Some e, s) => Some (StartFailed e, sst_order s)
      | (None, s) =>
          if (size (sst_started s) =? length objects)%nat then Some (AllStarted, sst_order s)
          else if sst_continue s then startOrderedLoop fuel byTag objects (sst_started s) (sst_order s)
          else
            match common_Find objects (fun it => negb (bool_decide (mo_Tag it ∈ sst_started s))) with
            | None => Some (NilObject, sst_order s)
            | Some current =>
                match lintObject (S (size byTag)) byTag (sst_started s)
                        [mo_Tag current] current with
                | Some r => Some (Stuck r, sst_order s)
                | None => None
                end
            end
      end
  end.
Definition startOrdered (fuel : nat) (byTag : gmap string Managed)
    (objects : list Managed) : option (startResult * list Managed) :=
  startOrderedLoop fuel byTag objects ∅ [].
End start.

(** ** Who depends on whom *)

Section depend.
Context `{L : Libs}.

Definition addDependencies (tag : string) (dependencies : list string) (dependByTag : gmap string (list string)) :
    gmap string (list string) :=
  foldl (fun d dependency => <[dependency := (default [] (d !! dependency) ++ [tag])%list]> d) dependByTag dependencies.

Definition releaseDependency (tag dependency : string) (dependByTag : gmap string (list string)) :
    gmap string (list string) :=
  let l := default [] (dependByTag !! dependency) in
  if (length l =? 1)%nat then delete dependency dependByTag
  else <[dependency := common_Filter l (fun it => negb (String.eqb it tag))]> dependByTag.

Definition releaseDependencies (tag : string) (dependencies : list string)
    (dependByTag : gmap string (list string)) : gmap string (list string) :=
  foldl (fun d dependency => releaseDependency tag dependency d) dependByTag dependencies.
End depend.
