(* ===== verification/LifecycleTheorems.v ===== *)
(** * Theorems on starting in the order of dependencies

    Starting ends, in an order that respects dependencies, and reaches every
    object exactly when the dependencies allow it; a failure names a true
    cause. *)

From S2P Require Import Prelude.
From S2P Require Import GoText.
From S2P Require Import Libs.
From S2P Require Import Lifecycle.
Local Open Scope string_scope.
Local Open Scope Z_scope.

Section order.
Context `{L : Libs} (prefix : string) (all : list Managed) (byTag : gmap string Managed).

(** An outbound that can start: everything it depends on can. *)
Inductive startable : string -> Prop :=
  | startable_tag o : o ∈ all -> (forall d, d ∈ mo_Dependencies o -> startable d) -> startable (mo_Tag o).

(** Everything an outbound of the list depends on comes before it. *)
Definition dependenciesFirst (order : list Managed) : Prop :=
  forall i o d, order !! i = Some o -> d ∈ mo_Dependencies o ->
  exists j o', (j < i)%nat /\ order !! j = Some o' /\ mo_Tag o' = d.

(** Each tag of the list is a dependency of the one before. *)
Fixpoint dependencyPath (o : string) (path : list string) : Prop :=
  match path with
  | [] => True
  | d :: path => (exists out, out ∈ all /\ mo_Tag out = o /\ d ∈ mo_Dependencies out) /\ dependencyPath d path
  end.
Definition truthful (r : lintResult) : Prop :=
  match r with
  | Circular tree tag =>
      tag ∈ tree /\ exists o path, tree = o :: path /\ dependencyPath o (path ++ [tag])
  | NotFound dependency tag =>
      byTag !! dependency = None
      /\ exists o, o ∈ all /\ mo_Tag o = tag /\ dependency ∈ mo_Dependencies o
  end.

Hypothesis Htags : NoDup (map mo_Tag all).
Hypothesis Hindex : forall t o, byTag !! t = Some o -> o ∈ all /\ mo_Tag o = t.

Record startInv (started : gset string) (order : list Managed) : Prop := {
  si_started : started = list_to_set (map mo_Tag order);
  si_nodup : NoDup (map mo_Tag order);
  si_all o : o ∈ order -> o ∈ all;
  si_first : dependenciesFirst order }.

Lemma ready_spec started o :
  ready started o = true <-> mo_Tag o ∉ started /\ forall d, d ∈ mo_Dependencies o -> d ∈ started.
Proof.
  unfold ready. rewrite andb_true_iff, negb_true_iff, bool_decide_eq_false, forallb_forall.
  split; intros [H1 H2]; (split; [done|]); intros d Hd; [apply list_elem_of_In in Hd|apply list_elem_of_In in Hd];
    specialize (H2 d Hd); [by apply bool_decide_eq_true in H2|by apply bool_decide_eq_true].
Qed.

Lemma startInv_add started order o :
  startInv started order -> o ∈ all -> ready started o = true ->
  startInv ({[mo_Tag o]} ∪ started) (order ++ [o]).
Proof.
  intros [H1 H2 H3 H4] Ho [Hn Hd]%ready_spec. subst started. split.
  - rewrite map_app, list_to_set_app_L. cbn. set_solver.
  - rewrite map_app. apply list.NoDup_app. split_and!; [done| |apply NoDup_singleton].
    intros t Ht Ht'. apply Hn. apply list_elem_of_singleton in Ht' as ->. by apply elem_of_list_to_set.
  - intros o' [Ho'|Ho']%elem_of_app; [by apply H3|]. apply list_elem_of_singleton in Ho' as ->. done.
  - intros i o' d Hi Hdep. apply lookup_app_Some in Hi as [Hi|[Hlen Hi]].
    + destruct (H4 i o' d Hi Hdep) as (j & o'' & Hj & Hl & Ht). exists j, o''.
      split_and!; [done|by apply lookup_app_l_Some|done].
    + apply list_lookup_singleton_Some in Hi as [Hi ->]. specialize (Hd d Hdep).
      apply elem_of_list_to_set, list_elem_of_fmap in Hd as (o'' & -> & Ho'').
      apply list_elem_of_lookup in Ho'' as [j Hj]. exists j, o''.
      split_and!; [apply lookup_lt_Some in Hj; lia|by apply lookup_app_l_Some|done].
Qed.

(** One round. *)
Lemma startRound_spec l : forall s err s',
  (forall o, o ∈ l -> o ∈ all) -> startInv (sst_started s) (sst_order s) -> startRound prefix l s = (err, s') ->
  startInv (sst_started s') (sst_order s') /\
  match err with
  | Some e => exists before o err, sst_order s' = (before ++ [o])%list /\ mo_Start o StartStateStart = Some err
      /\ e = E_Cause err ("start " ++ managedName prefix o)
  | None => (length (sst_order s) < length (sst_order s') /\ sst_continue s' = true)%nat
      \/ (s' = s /\ forall o, o ∈ l -> ready (sst_started s) o = false)
  end.
Proof.
  induction l as [|o l IH]; intros s err s' Hl Hs; cbn [startRound].
  { intros [= <- <-]. split; [done|right]. split; [done|]. intros o Ho. by apply elem_of_nil in Ho. }
  destruct (ready (sst_started s) o) eqn:Er; cbn [negb].
  - pose proof (startInv_add _ _ o Hs (Hl o ltac:(by left)) Er) as Hs1.
    destruct (mo_Start o StartStateStart) as [e|] eqn:Eo.
    + intros [= <- <-]. split; [done|]. by exists (sst_order s), o, e.
    + intros H. apply IH in H as [H1 H2]; [|set_solver|done]. split; [done|]. destruct err; [done|]. left.
      cbn [sst_order] in H2. rewrite length_app in H2. destruct H2 as [[H2 H3]|[-> _]]; cbn in *; [split; [lia|done]|].
      rewrite length_app. cbn. split; [lia|done].
  - intros H. apply IH in H as [H1 H2]; [|set_solver|done]. split; [done|]. destruct err; [done|].
    destruct H2 as [H2|[-> H2]]; [by left|right]. split; [done|]. intros o' [->|Ho']%elem_of_cons; [done|by apply H2].
Qed.

Lemma order_length started order : startInv started order -> (length order <= length all)%nat.
Proof.
  intros [H1 H2 H3 H4]. apply submseteq_length, NoDup_submseteq; [by apply NoDup_fmap_1 in H2|done].
Qed.
Lemma started_size started order : startInv started order -> size started = length order.
Proof.
  intros [-> H2 _ _]. rewrite size_list_to_set by done. by rewrite length_map.
Qed.
Lemma order_complete started order :
  startInv started order -> length order = length all -> order ≡ₚ all.
Proof.
  intros [H1 H2 H3 H4] Hlen. apply submseteq_length_Permutation; [|lia].
  apply NoDup_submseteq; [by apply NoDup_fmap_1 in H2|done].
Qed.

(** When no outbound is ready, everything that can start has. *)
Lemma startable_started started :
  (forall o, o ∈ all -> ready started o = false) -> forall t, startable t -> t ∈ started.
Proof.
  intros Hnone t Ht. induction Ht as [o Ho _ IH]. destruct (decide (mo_Tag o ∈ started)) as [|Hn]; [done|].
  specialize (Hnone o Ho). apply not_true_iff_false in Hnone. destruct Hnone. by apply ready_spec.
Qed.
Lemma order_startable order :
  (forall o, o ∈ order -> o ∈ all) -> dependenciesFirst order -> forall o, o ∈ order -> startable (mo_Tag o).
Proof.
  intros Hall Hfirst o Ho. apply list_elem_of_lookup in Ho as [i Hi]. revert o Hi.
  induction i as [i IH] using lt_wf_ind. intros o Hi. constructor; [by eapply Hall, list_elem_of_lookup_2|].
  intros d Hd. destruct (Hfirst i o d Hi Hd) as (j & o' & Hj & Hl & <-). by apply (IH j).
Qed.

(** ** Blame *)

Lemma findDependency_spec started o :
  mo_Tag o ∉ started -> ready started o = false ->
  findDependency started (mo_Dependencies o) ∈ mo_Dependencies o
  /\ findDependency started (mo_Dependencies o) ∉ started.
Proof.
  intros Hn Hr. unfold ready in Hr. rewrite bool_decide_eq_false_2 in Hr by done. cbn in Hr. unfold findDependency. rewrite common_Find_spec.
  induction (mo_Dependencies o) as [|d l IH]; [done|]. cbn in *.
  destruct (bool_decide_reflect (d ∈ started)) as [Hd|Hd]; cbn in *; [|by split; [left|]].
  destruct (IH Hr) as [H1 H2]. by split; [right|].
Qed.

Lemma dependencyPath_snoc d out : forall path o,
  dependencyPath o path -> out ∈ all -> List.last (o :: path) "" = mo_Tag out -> d ∈ mo_Dependencies out ->
  dependencyPath o (path ++ [d]).
Proof.
  induction path as [|o' path IH]; intros o Hp Hout Hlast Hd; cbn in *.
  - split; [|done]. by exists out.
  - destruct Hp as [H1 H2]. split; [done|]. by apply IH.
Qed.

Lemma lintObject_spec started :
  (forall o, o ∈ all -> ready started o = false) ->
  forall fuel o path oCurrent, oCurrent ∈ all -> mo_Tag oCurrent ∉ started ->
  List.last (o :: path) "" = mo_Tag oCurrent -> dependencyPath o path -> NoDup path ->
  (forall t, t ∈ path -> is_Some (byTag !! t)) -> (size byTag < fuel + length path)%nat ->
  exists r, lintObject fuel byTag started (o :: path) oCurrent = Some r /\ truthful r.
Proof.
  intros Hnone. induction fuel as [|fuel IH]; intros o path oCurrent Hcur Hn Hlast Hpath Hnd Hdom Hfuel.
  { exfalso. assert (length path <= size byTag)%nat; [|lia].
    rewrite <- size_dom, <- (size_list_to_set (C:=gset string) path) by done. apply subseteq_size.
    intros t Ht%elem_of_list_to_set. by apply elem_of_dom, Hdom. }
  cbn [lintObject]. destruct (findDependency_spec started oCurrent Hn (Hnone _ Hcur)) as [Hd Hs].
  set (d := findDependency _ _) in *. pose proof (dependencyPath_snoc d oCurrent path o Hpath Hcur Hlast Hd) as Hp'.
  rewrite common_Contains_spec. case_bool_decide as Hnin.
  { eexists. split; [done|]. split; [done|]. by exists o, path. }
  destruct (byTag !! d) as [out|] eqn:Ed.
  2: { eexists. split; [done|]. split; [done|]. by exists oCurrent. }
  destruct (Hindex d out Ed) as [Hout Htag]. apply (IH o (path ++ [d])%list out); try done.
  - by rewrite Htag.
  - rewrite app_comm_cons, last_last. done.
  - apply list.NoDup_app. split_and!; [done| |apply NoDup_singleton].
    intros t Ht Ht'%list_elem_of_singleton. subst. apply Hnin. by right.
  - intros t [Ht|Ht%list_elem_of_singleton]%elem_of_app; [by apply Hdom|]. subst. by eexists.
  - rewrite length_app. cbn. lia.
Qed.

(** ** The loop *)

Lemma unstarted_exists started order :
  startInv started order -> length order <> length all ->
  exists o, common_Find all (fun it => negb (bool_decide (mo_Tag it ∈ started))) = Some o
    /\ o ∈ all /\ mo_Tag o ∉ started.
Proof.
  intros Hs Hlen. rewrite common_Find_spec. destruct (List.find _ all) as [o|] eqn:Ef.
  - apply find_some in Ef as [Ho Hn]. exists o. rewrite negb_true_iff, bool_decide_eq_false in Hn.
    split_and!; [done|by apply list_elem_of_In|done].
  - destruct Hlen. apply Nat.le_antisymm; [by eapply order_length|].
    rewrite <- (started_size _ _ Hs), <- (length_map mo_Tag all), <- (size_list_to_set (C:=gset string)) by done.
    apply subseteq_size. intros t Ht%elem_of_list_to_set. apply list_elem_of_fmap in Ht as (o & -> & Ho).
    apply find_none with (x:=o) in Ef; [|by apply list_elem_of_In].
    by rewrite negb_false_iff, bool_decide_eq_true in Ef.
Qed.

(** How starting may end. *)
Definition startEnds (res : startResult) (order : list Managed) : Prop :=
  match res with
  | AllStarted => order ≡ₚ all /\ forall o, o ∈ all -> startable (mo_Tag o)
  | StartFailed e => exists before o err, order = (before ++ [o])%list
      /\ mo_Start o StartStateStart = Some err /\ e = E_Cause err ("start " ++ managedName prefix o)
  | Stuck lint => truthful lint /\ exists o, o ∈ all /\ ~ startable (mo_Tag o)
  | NilObject => False
  end.

(** One turn of the loop ends it or starts another outbound. *)
Lemma startOrderedLoop_turn started order :
  startInv started order ->
  (exists res order', startInv (list_to_set (map mo_Tag order')) order' /\ startEnds res order'
     /\ forall fuel, startOrderedLoop prefix (S fuel) byTag all started order = Some (res, order'))
  \/ (exists started' order', startInv started' order' /\ (length order < length order' < length all)%nat
     /\ forall fuel, startOrderedLoop prefix (S fuel) byTag all started order
                     = startOrderedLoop prefix fuel byTag all started' order').
Proof.
  intros Hs. destruct (startRound prefix all (mkStartState started order false)) as [err s] eqn:Er.
  assert (Hs1 := Er). apply startRound_spec in Hs1 as [Hs1 Hr]; [|done|done].
  pose proof (order_length _ _ Hs1) as Hle. pose proof Hs1 as Hs1'. rewrite (si_started _ _ Hs1) in Hs1'.
  destruct err as [e|].
  { left. exists (StartFailed e), (sst_order s). split_and!; [done|done|]. intros fuel. cbn. by rewrite Er. }
  destruct (Nat.eqb_spec (size (sst_started s)) (length all)) as [Heq|Hne].
  { left. exists AllStarted, (sst_order s). split_and!; [done| |by intros fuel; cbn; rewrite Er, Heq, Nat.eqb_refl].
    rewrite (started_size _ _ Hs1) in Heq. pose proof (order_complete _ _ Hs1 Heq) as Hp. split; [done|].
    intros o Ho. eapply order_startable; [apply Hs1|apply Hs1|by rewrite Hp]. }
  rewrite <- Nat.eqb_neq in Hne. destruct Hr as [[Hlt Hc]|[-> Hnone]].
  { right. exists (sst_started s), (sst_order s). split_and!; [done|done| |].
    - rewrite (started_size _ _ Hs1), Nat.eqb_neq in Hne. lia.
    - intros fuel. cbn. by rewrite Er, Hne, Hc. }
  cbn [sst_started sst_order] in *. left. assert (Hne' := Hne). rewrite (started_size _ _ Hs), Nat.eqb_neq in Hne'.
  destruct (unstarted_exists _ _ Hs Hne') as (o & Hf & Ho & Hn).
  destruct (lintObject_spec started Hnone (S (size byTag)) (mo_Tag o) [] o) as (r & Hr & Ht);
    [done|done|done|done|by apply list.NoDup_nil|by intros t []%elem_of_nil|cbn; lia|].
  exists (Stuck r), order. split_and!; [done| |intros fuel; cbn [startOrderedLoop]; rewrite Er; cbn [sst_started sst_order sst_continue]; by rewrite Hne, Hf, Hr].
  split; [done|]. exists o. split; [done|]. intros Hst. by apply Hn, startable_started.
Qed.

Lemma startOrderedLoop_spec : forall n started order,
  startInv started order -> (length all - length order <= n)%nat ->
  exists res order', startInv (list_to_set (map mo_Tag order')) order' /\ startEnds res order'
  /\ forall fuel, (n < fuel)%nat -> startOrderedLoop prefix fuel byTag all started order = Some (res, order').
Proof.
  induction n as [|n IH]; intros started order Hs Hn;
    destruct (startOrderedLoop_turn started order Hs) as [(res & order' & H1 & H2 & H3)|(st & order' & H1 & H2 & H3)].
  - exists res, order'. split_and!; [done..|]. intros [|fuel] Hf; [lia|apply H3].
  - lia.
  - exists res, order'. split_and!; [done..|]. intros [|fuel] Hf; [lia|apply H3].
  - destruct (IH st order' H1 ltac:(lia)) as (res & order'' & H4 & H5 & H6).
    exists res, order''. split_and!; [done..|]. intros [|fuel] Hf; [lia|]. rewrite H3. apply H6. lia.
Qed.

Lemma startOrdered_spec : exists res order,
  (forall fuel, (length all < fuel)%nat -> startOrdered prefix fuel byTag all = Some (res, order))
  /\ startInv (list_to_set (map mo_Tag order)) order /\ startEnds res order.
Proof.
  destruct (startOrderedLoop_spec (length all) ∅ []) as (res & order & H1 & H2 & H3);
    [split; [done|by apply list.NoDup_nil|by intros o Ho%elem_of_nil|by intros i o d Hi]|cbn; lia|].
  by exists res, order.
Qed.

End order.
