(* ===== verification/Managers.v ===== *)
(** * The endpoint, inbound, service and certificate provider managers

    [adapter/endpoint/manager.go], [adapter/inbound/manager.go],
    [adapter/service/manager.go] and [adapter/certificate/manager.go]: four
    copies of one registry, which differ in their messages, in the stage the
    endpoints leave to the outbound manager and in what [Close] returns.  A
    panic is [Err (GoPanic _)]. *)

From S2P Require Import Prelude.
From S2P Require Import GoText.
From S2P Require Import Libs.
From S2P Require Import Lifecycle.
Local Open Scope string_scope.
Local Open Scope Z_scope.

(** What distinguishes the four. *)
Record Kind := mkKind {
  kd_prefix : string;           (* in messages *)
  kd_panic : string;            (* an object of the index that is not in the list *)
  kd_skipsStart : bool }.       (* started by the outbound manager *)

Record ItemManager := mkItemManager {
  im_started : bool;
  im_stage : StartStage;
  im_items : list Managed;
  im_byTag : gmap string Managed }.
Definition NewItemManager : ItemManager := mkItemManager false StartStateInitialize [] ∅.

Section manager.
Context (k : Kind).

Definition Item_Start (stage : StartStage) (m : ItemManager) : result (option GoError * ItemManager * list event) :=
  if im_started m && (stageNumber stage <=? stageNumber (im_stage m)) then Err (GoPanic "already started")
  else
    let m := {| m with im_started := true; im_stage := stage |} in
    let skipped := match stage with StartStateStart => kd_skipsStart k | _ => false end in
    if skipped then Ok (None, m, [])
    else let '(err, events) := startStage (kd_prefix k) stage (im_items m) in Ok (err, m, events).

(** The errors of closing, which all but the certificate providers drop. *)
Definition Item_Close (m : ItemManager) : list GoError * ItemManager * list event :=
  if negb (im_started m) then ([], m, [])
  else (omap (fun o => match mo_Close o with
                       | Some err => Some (E_Cause err ("close " ++ managedName (kd_prefix k) o))
                       | None => None end) (im_items m),
        {| m with im_started := false; im_items := [] |},
        map (fun o => Closed (mo_id o)) (im_items m)).

Definition Item_Get (m : ItemManager) (tag : string) : option Managed := im_byTag m !! tag.

Definition Item_Remove (tag : string) (m : ItemManager) : result (option GoError * ItemManager * list event) :=
  match im_byTag m !! tag with
  | None => Ok (Some ErrInvalid, m, [])
  | Some item =>
      let m := {| m with im_byTag := delete tag (im_byTag m) |} in
      let? items := removeManaged (kd_panic k) item (im_items m) in
      let m := {| m with im_items := items |} in
      if im_started m then Ok (mo_Close item, m, [Closed (mo_id item)]) else Ok (None, m, [])
  end.

(** [created] is what the registry returns. *)
Definition Item_Create (tag : string) (created : result Managed) (m : ItemManager) :
    result (option GoError * ItemManager * list event) :=
  match created with
  | Err e => Ok (Some e, m, [])
  | Ok item =>
      let? '(err, items, events) :=
        joinManaged (kd_prefix k) (kd_panic k) (im_started m) tag item (im_items m) (im_byTag m) in
      match err with
      | Some e => Ok (Some e, m, events)
      | None =>
          Ok (None, {| m with im_items := (items ++ [item])%list; im_byTag := <[tag := item]> (im_byTag m) |}, events)
      end
  end.
End manager.

(** ** The four managers *)

Definition endpointKind : Kind := mkKind "endpoint/" "invalid endpoint index" true.
Definition Endpoint_Start := Item_Start endpointKind.
Definition Endpoint_Close (m : ItemManager) : ItemManager * list event :=
  let '(_, m, events) := Item_Close endpointKind m in (m, events).
Definition Endpoint_Remove := Item_Remove endpointKind.
Definition Endpoint_Create := Item_Create endpointKind.

Definition inboundKind : Kind := mkKind "inbound/" "invalid inbound index" false.
Definition Inbound_Start := Item_Start inboundKind.
Definition Inbound_Close (m : ItemManager) : ItemManager * list event :=
  let '(_, m, events) := Item_Close inboundKind m in (m, events).
Definition Inbound_Get (endpoints m : ItemManager) (tag : string) : option Managed :=
  match Item_Get m tag with Some o => Some o | None => Item_Get endpoints tag end.
Definition Inbound_Remove := Item_Remove inboundKind.
Definition Inbound_Create := Item_Create inboundKind.

Definition serviceKind : Kind := mkKind "service/" "invalid service index" false.
Definition Service_Start := Item_Start serviceKind.
Definition Service_Close (m : ItemManager) : ItemManager * list event :=
  let '(_, m, events) := Item_Close serviceKind m in (m, events).
Definition Service_Remove := Item_Remove serviceKind.
Definition Service_Create := Item_Create serviceKind.

Definition certificateKind : Kind := mkKind "certificate-provider/" "invalid certificate provider index" false.
Definition Certificate_Start := Item_Start certificateKind.
Definition Certificate_Close := Item_Close certificateKind.
Definition Certificate_Remove := Item_Remove certificateKind.
Definition Certificate_Create := Item_Create certificateKind.
