(* ===== verification/OutboundManager.v ===== *)
(** * The outbound manager

    [adapter/outbound/manager.go]: the registry of outbounds, the default one,
    and which outbounds depend on which. *)

From S2P Require Import Prelude.
From S2P Require Import GoText.
From S2P Require Import Libs.
From S2P Require Import Lifecycle.
From S2P Require Import Managers.
Local Open Scope string_scope.
Local Open Scope Z_scope.

Record Manager := mkManager {
  mg_defaultTag : string;
  mg_started : bool;
  mg_stage : StartStage;
  mg_outbounds : list Managed;
  mg_outboundByTag : gmap string Managed;
  mg_dependByTag : gmap string (list string);
  mg_defaultOutbound : option Managed }.
Definition NewManager (defaultTag : string) : Manager :=
  mkManager defaultTag false StartStateInitialize [] ∅ ∅ None.

Section manager.
Context `{L : Libs}.

(** The endpoint manager. *)
Context (endpoint : ItemManager).

(** The default outbound is settled at the first stage; [fallback] is what the
    function given to [Initialize] returns. *)
Definition initializeDefault (fallback : result Managed) (m : Manager) : option GoError * Manager :=
  let '(err, m) :=
    if negb (String.eqb (mg_defaultTag m) "") && negb (isSome (mg_defaultOutbound m)) then
      match Item_Get endpoint (mg_defaultTag m) with
      | None => (Some (E_New ("default outbound not found: " ++ mg_defaultTag m)), m)
      | Some defaultEndpoint => (None, {| m with mg_defaultOutbound := Some defaultEndpoint |})
      end
    else (None, m) in
  match err with
  | Some e => (Some e, m)
  | None =>
      if isSome (mg_defaultOutbound m) then (None, m)
      else match fallback with
           | Err e => (Some (E_Cause e "create direct outbound for fallback"), m)
           | Ok directOutbound =>
               (None, {| m with mg_outbounds := (mg_outbounds m ++ [directOutbound])%list;
                                mg_outboundByTag := <[mo_Tag directOutbound := directOutbound]> (mg_outboundByTag m);
                                mg_defaultOutbound := Some directOutbound |})
           end
  end.

(** [Err] is a panic; [None] inside stands for the fuel of [startOutbounds]. *)
Definition Manager_Start (fuel : nat) (stage : StartStage) (fallback : result Managed) (m : Manager) :
    result (option (option GoError * Manager * list event)) :=
  if mg_started m && (stageNumber stage <=? stageNumber (mg_stage m)) then Err (GoPanic "already started")
  else
    let m := {| m with mg_started := true; mg_stage := stage |} in
    let '(err, m) := match stage with
                     | StartStateInitialize => initializeDefault fallback m | _ => (None, m) end in
    match err with
    | Some e => Ok (Some (Some e, m, []))
    | None =>
        match stage with
        | StartStateStart =>
            match startOrdered "outbound/" fuel (mg_outboundByTag m) (mg_outbounds m ++ im_items endpoint) with
            | None => Ok None
            | Some (res, order) =>
                let events := map (fun o => Started (mo_id o) StartStateStart) order in
                match res with
                | AllStarted => Ok (Some (None, m, events))
                | StartFailed e => Ok (Some (Some e, m, events))
                | Stuck lint => Ok (Some (Some (lintError "outbound" lint), m, events))
                | NilObject => Err (GoPanic "invalid memory address or nil pointer dereference")
                end
            end
        | _ => let '(err, events) := startStage "outbound/" stage (mg_outbounds m) in Ok (Some (err, m, events))
        end
    end.

(** Errors of closing are dropped. *)
Definition Manager_Close (m : Manager) : Manager * list event :=
  if negb (mg_started m) then (m, [])
  else ({| m with mg_started := false; mg_outbounds := [] |}, map (fun o => Closed (mo_id o)) (mg_outbounds m)).

Definition Manager_Outbound (m : Manager) (tag : string) : option Managed :=
  match mg_outboundByTag m !! tag with Some o => Some o | None => Item_Get endpoint tag end.

(** The default outbound after [removed] left [outbounds]. *)
Definition nextDefault (removed : Managed) (outbounds : list Managed) (defaultOutbound : option Managed) :
    option Managed :=
  match defaultOutbound with
  | Some d => if sameManaged d removed then head outbounds else defaultOutbound
  | None => None
  end.

Definition Manager_Remove (tag : string) (m : Manager) : result (option GoError * Manager * list event) :=
  match mg_outboundByTag m !! tag with
  | None => Ok (Some ErrInvalid, m, [])
  | Some outbound =>
      let m := {| m with mg_outboundByTag := delete tag (mg_outboundByTag m) |} in
      let? outbounds := removeManaged "invalid inbound index" outbound (mg_outbounds m) in
      let m := {| m with mg_outbounds := outbounds;
                         mg_defaultOutbound := nextDefault outbound outbounds (mg_defaultOutbound m) |} in
      let dependBy := default [] (mg_dependByTag m !! tag) in
      match dependBy with
      | _ :: _ => Ok (Some (E_New ("outbound[" ++ tag ++ "] is depended by " ++ strings.Join dependBy ", ")), m, [])
      | [] =>
          let m := {| m with mg_dependByTag :=
            releaseDependencies tag (mo_Dependencies outbound) (mg_dependByTag m) |} in
          if mg_started m then Ok (mo_Close outbound, m, [Closed (mo_id outbound)]) else Ok (None, m, [])
      end
  end.

(** [created] is what the registry returns. *)
Definition Manager_Create (tag : string) (created : result Managed) (m : Manager) :
    result (option GoError * Manager * list event) :=
  if String.eqb tag "" then Ok (Some ErrInvalid, m, [])
  else
    match created with
    | Err e => Ok (Some e, m, [])
    | Ok outbound =>
        let? '(err, outbounds, events) := joinManaged "outbound/" "invalid inbound index" (mg_started m) tag outbound
          (mg_outbounds m) (mg_outboundByTag m) in
        match err with
        | Some e => Ok (Some e, m, events)
        | None =>
            let m := {| m with
              mg_outbounds := (outbounds ++ [outbound])%list;
              mg_outboundByTag := <[tag := outbound]> (mg_outboundByTag m);
              mg_dependByTag := addDependencies tag (mo_Dependencies outbound) (mg_dependByTag m) |} in
            let m := if String.eqb tag (mg_defaultTag m)
                        || String.eqb (mg_defaultTag m) "" && negb (isSome (mg_defaultOutbound m))
                     then {| m with mg_defaultOutbound := Some outbound |} else m in
            Ok (None, m, events)
        end
    end.
End manager.
