(* ===== verification/TransportManager.v ===== *)
(** * The DNS server manager

    [dns/transport_manager.go]: the registry of DNS servers, the default server
    and the server of fake addresses. *)

From S2P Require Import Prelude.
From S2P Require Import GoText.
From S2P Require Import Libs.
From S2P Require Import Lifecycle.
Local Open Scope string_scope.
Local Open Scope Z_scope.

(** [constant.DNSTypeFakeIP]. *)
Definition DNSTypeFakeIP : string := "fakeip".

Record TransportManager := mkTransportManager {
  tm_defaultTag : string;
  tm_started : bool;
  tm_stage : StartStage;
  tm_transports : list Managed;
  tm_transportByTag : gmap string Managed;
  tm_dependByTag : gmap string (list string);
  tm_defaultTransport : option Managed;
  tm_fakeIPTransport : option Managed }.
Definition NewTransportManager (defaultTag : string) : TransportManager :=
  mkTransportManager defaultTag false StartStateInitialize [] ∅ ∅ None None.

Section manager.
Context `{L : Libs}.

(** [fallback] is what the function given to [Initialize] returns. *)
Definition transportInitialize (fallback : result Managed) (m : TransportManager) : option GoError * TransportManager :=
  if isSome (tm_defaultTransport m) then (None, m)
  else if negb (String.eqb (tm_defaultTag m) "") then
    (Some (E_New ("default DNS server not found: " ++ tm_defaultTag m)), m)
  else match fallback with
       | Err e => (Some (E_Cause e "default DNS server fallback"), m)
       | Ok t => (None, {| m with tm_transports := (tm_transports m ++ [t])%list;
                                  tm_transportByTag := <[mo_Tag t := t]> (tm_transportByTag m);
                                  tm_defaultTransport := Some t |})
       end.

Definition startTransports (fuel : nat) (transportByTag : gmap string Managed) (transports : list Managed) :
    option (startResult * list Managed) :=
  startOrdered "dns/" fuel transportByTag transports.

(** [Err] is a panic; [None] inside stands for the fuel of [startTransports]. *)
Definition Transport_Start (fuel : nat) (stage : StartStage) (fallback : result Managed) (m : TransportManager) :
    result (option (option GoError * TransportManager * list event)) :=
  if tm_started m && (stageNumber stage <=? stageNumber (tm_stage m)) then Err (GoPanic "already started")
  else
    let m := {| m with tm_started := true; tm_stage := stage |} in
    match (match stage with StartStateInitialize => transportInitialize fallback m | _ => (None, m) end) with
    | (Some e, m) => Ok (Some (Some e, m, []))
    | (None, m) =>
        match stage with
        | StartStateStart =>
            match startTransports fuel (tm_transportByTag m) (tm_transports m) with
            | None => Ok None
            | Some (res, order) =>
                let events := map (fun o => Started (mo_id o) StartStateStart) order in
                match res with
                | AllStarted => Ok (Some (None, m, events))
                | StartFailed e => Ok (Some (Some e, m, events))
                | Stuck lint => Ok (Some (Some (lintError "server" lint), m, events))
                | NilObject => Err (GoPanic "invalid memory address or nil pointer dereference")
                end
            end
        | _ => let '(err, events) := startStage "dns/" stage (tm_transports m) in Ok (Some (err, m, events))
        end
    end.

(** Errors of closing are dropped. *)
Definition Transport_Close (m : TransportManager) : TransportManager * list event :=
  if negb (tm_started m) then (m, [])
  else ({| m with tm_started := false; tm_transports := [] |}, map (fun o => Closed (mo_id o)) (tm_transports m)).

Definition Transport_Get (m : TransportManager) (tag : string) : option Managed := tm_transportByTag m !! tag.

(** What follows the choice of a new default server. *)
Definition transportRelease (tag : string) (transport : Managed) (m : TransportManager) :
    option GoError * TransportManager * list event :=
  match default [] (tm_dependByTag m !! tag) with
  | (_ :: _) as dependBy =>
      (Some (E_New ("server[" ++ tag ++ "] is depended by " ++ strings.Join dependBy ", ")), m, [])
  | [] =>
      let m := {| m with tm_dependByTag :=
        releaseDependencies tag (mo_Dependencies transport) (tm_dependByTag m) |} in
      (None, m, if tm_started m then [Closed (mo_id transport)] else [])
  end.

Definition Transport_Remove (tag : string) (m : TransportManager) :
    result (option GoError * TransportManager * list event) :=
  match tm_transportByTag m !! tag with
  | None => Ok (Some ErrInvalid, m, [])
  | Some transport =>
      let m := {| m with tm_transportByTag := delete tag (tm_transportByTag m) |} in
      let? transports := removeManaged "invalid inbound index" transport (tm_transports m) in
      let m := {| m with tm_transports := transports |} in
      if match tm_defaultTransport m with Some d => sameManaged d transport | None => false end then
        match transports with
        | nextTransport :: _ =>
            if negb (String.eqb (mo_Type nextTransport) DNSTypeFakeIP) then
              Ok (Some (E_New "default server cannot be fakeip"), m, [])
            else Ok (transportRelease tag transport {| m with tm_defaultTransport := Some nextTransport |})
        | [] => Ok (transportRelease tag transport {| m with tm_defaultTransport := None |})
        end
      else Ok (transportRelease tag transport m)
  end.

(** The default server and the server of fake addresses after a server joined. *)
Definition transportAdopt (tag : string) (transport : Managed) (m : TransportManager) : option GoError * TransportManager :=
  let isFakeIP := String.eqb (mo_Type transport) DNSTypeFakeIP in
  let isDefault := String.eqb tag (tm_defaultTag m)
                   || String.eqb (tm_defaultTag m) "" && negb (isSome (tm_defaultTransport m)) in
  if isDefault && isFakeIP then (Some (E_New "default server cannot be fakeip"), m)
  else
    let m := if isDefault then {| m with tm_defaultTransport := Some transport |} else m in
    if isFakeIP then
      if isSome (tm_fakeIPTransport m) then (Some (E_New "multiple fakeip server are not supported"), m)
      else (None, {| m with tm_fakeIPTransport := Some transport |})
    else (None, m).

(** [created] is what the registry returns. *)
Definition Transport_Create (tag : string) (created : result Managed) (m : TransportManager) :
    result (option GoError * TransportManager * list event) :=
  if String.eqb tag "" then Ok (Some ErrInvalid, m, [])
  else
    match created with
    | Err e => Ok (Some e, m, [])
    | Ok transport =>
        let? '(err, transports, events) := joinManaged "dns/" "invalid inbound index" (tm_started m) tag transport
          (tm_transports m) (tm_transportByTag m) in
        match err with
        | Some e => Ok (Some e, m, events)
        | None =>
            let '(err, m) := transportAdopt tag transport {| m with
              tm_transports := (transports ++ [transport])%list;
              tm_transportByTag := <[tag := transport]> (tm_transportByTag m);
              tm_dependByTag := addDependencies tag (mo_Dependencies transport) (tm_dependByTag m) |} in
            Ok (err, m, events)
        end
    end.
End manager.
