(* ===== verification/Box.v ===== *)
(** * The program as a whole

    [box.go]: the order in which the parts of a running instance are started,
    stage by stage, and closed; [adapter/lifecycle.go], which does one stage of a
    list of parts; the checks of tags of [option/options.go] and the loops of
    [New] that create the configured objects. *)

From S2P Require Import Prelude.
From S2P Require Import GoText.
From S2P Require Import Libs.
From S2P Require Import Lifecycle.
From S2P Require Import Managers.
From S2P Require Import OutboundManager.
Local Open Scope string_scope.
Local Open Scope Z_scope.

(** ** Tags of the configuration *)

Section tags.
Context `{L : Libs}.

(** A missing tag is the position. *)
Definition tagAt (i : Z) (tag : string) : string := if String.eqb tag "" then F_ToString_int i else tag.

(** One loop over the tags from position [i]; [seen] are those before. *)
Fixpoint checkTagList (message : string) (i : Z) (tags : list string) (seen : gset string) : result (gset string) :=
  match tags with
  | [] => Ok seen
  | tag :: tags =>
      let tag := tagAt i tag in
      if bool_decide (tag ∈ seen) then Err (E_New (message ++ tag))
      else checkTagList message (i + 1) tags ({[tag]} ∪ seen)
  end.

Definition checkInbounds (inbounds : list string) : option GoError :=
  match checkTagList "duplicate inbound tag: " 0 inbounds ∅ with Ok _ => None | Err e => Some e end.
Definition checkOutbounds (outbounds endpoints : list string) : option GoError :=
  match (let? seen := checkTagList "duplicate outbound/endpoint tag: " 0 outbounds ∅ in
         checkTagList "duplicate outbound/endpoint tag: " 0 endpoints seen) with
  | Ok _ => None | Err e => Some e end.
Definition checkCertificateProviders (providers : list string) : option GoError :=
  match checkTagList "duplicate certificate provider tag: " 0 providers ∅ with Ok _ => None | Err e => Some e end.
Fixpoint checkHTTPClientTags (clients : list string) (seen : gset string) : option GoError :=
  match clients with
  | [] => None
  | tag :: clients =>
      if String.eqb tag "" then Some (E_New "missing http client tag")
      else if bool_decide (tag ∈ seen) then Some (E_New ("duplicate http client tag: " ++ tag))
      else checkHTTPClientTags clients ({[tag]} ∪ seen)
  end.
Definition checkHTTPClients (clients : list string) : option GoError := checkHTTPClientTags clients ∅.

(** The tags of the configured objects. *)
Record ConfigTags := mkConfigTags {
  ct_Inbounds : list string;
  ct_Outbounds : list string;
  ct_Endpoints : list string;
  ct_CertificateProviders : list string;
  ct_HTTPClients : list string }.
Definition checkOptions (o : ConfigTags) : option GoError :=
  match checkInbounds (ct_Inbounds o) with
  | Some e => Some e
  | None =>
      match checkOutbounds (ct_Outbounds o) (ct_Endpoints o) with
      | Some e => Some e
      | None =>
          match checkCertificateProviders (ct_CertificateProviders o) with
          | Some e => Some e
          | None => checkHTTPClients (ct_HTTPClients o)
          end
      end
  end.

(** ** Creating the configured objects

    [registry i tag] is what the registry makes of the options at position [i]. *)
Fixpoint createItems (k : Kind) (noun : string) (registry : Z -> string -> result Managed) (i : Z)
    (tags : list string) (m : ItemManager) : result ItemManager :=
  match tags with
  | [] => Ok m
  | tag :: tags =>
      let tag := tagAt i tag in
      let? '(err, m, _) := Item_Create k tag (registry i tag) m in
      match err with
      | Some e => Err (E_Cause e ("initialize " ++ noun ++ "[" ++ F_ToString_int i ++ "]"))
      | None => createItems k noun registry (i + 1) tags m
      end
  end.
Definition createEndpoints := createItems endpointKind "endpoint".
Definition createInbounds := createItems inboundKind "inbound".
Definition createServices := createItems serviceKind "service".
Definition createCertificateProviders := createItems certificateKind "certificate provider".

Fixpoint createOutbounds (registry : Z -> string -> result Managed) (i : Z) (tags : list string) (m : Manager) :
    result Manager :=
  match tags with
  | [] => Ok m
  | tag :: tags =>
      let tag := tagAt i tag in
      let? '(err, m, _) := Manager_Create tag (registry i tag) m in
      match err with
      | Some e => Err (E_Cause e ("initialize outbound[" ++ F_ToString_int i ++ "]"))
      | None => createOutbounds registry (i + 1) tags m
      end
  end.
End tags.

(** ** Starting and closing the parts *)

Inductive component :=
  | C_network | C_dnsTransport | C_dnsRouter | C_connection | C_router | C_outbound
  | C_inbound | C_endpoint | C_service | C_certificateProvider
  | C_httpClient | C_internal (i : nat).
#[export] Instance component_eq_dec : EqDecision component.
Proof. solve_decision. Defined.

Inductive boxEvent :=
  | LoggerStarted | DebugServerStarted
  | ComponentStarted (c : component) (stage : StartStage)
  | DebugServerClosed | ComponentClosed (c : component) | LoggerClosed.

(** What the parts answer. *)
Record World := mkWorld {
  w_ctxErr : list boxEvent -> option GoError;     (* the context, after what happened *)
  w_Start : component -> StartStage -> option GoError;
  w_Close : component -> option GoError;
  w_Name : component -> string;                   (* of a named service *)
  w_internal : nat;                               (* how many internal services *)
  w_loggerStart : option GoError;
  w_loggerClose : option GoError;
  w_debugServer : result bool;                    (* whether there is one *)
  w_debugClose : option GoError }.

Record Box := mkBox { bx_debugHTTPServer : bool; bx_done : bool }.

Section box.
Context (w : World).

(** [adapter.Start] and [adapter.StartNamed], after the events [tr]. *)
Fixpoint adapter_Start (stage : StartStage) (services : list component) (tr : list boxEvent) :
    option GoError * list boxEvent :=
  match services with
  | [] => (None, tr)
  | c :: services =>
      match w_ctxErr w tr with
      | Some err => (Some err, tr)
      | None =>
          let tr := (tr ++ [ComponentStarted c stage])%list in
          match w_Start w c stage with
          | Some err => (Some err, tr)
          | None => adapter_Start stage services tr
          end
      end
  end.
Fixpoint adapter_StartNamed (stage : StartStage) (services : list component) (tr : list boxEvent) :
    option GoError * list boxEvent :=
  match services with
  | [] => (None, tr)
  | c :: services =>
      match w_ctxErr w tr with
      | Some err => (Some err, tr)
      | None =>
          let tr := (tr ++ [ComponentStarted c stage])%list in
          match w_Start w c stage with
          | Some err => (Some (E_Cause err (StartStage_String stage ++ " " ++ w_Name w c)), tr)
          | None => adapter_StartNamed stage services tr
          end
      end
  end.

(** One step after another, to the first error. *)
Definition andThen (r : option GoError * list boxEvent)
    (k : list boxEvent -> option GoError * list boxEvent) : option GoError * list boxEvent :=
  let '(err, tr) := r in match err with Some e => (Some e, tr) | None => k tr end.

Definition internalService : list component := map C_internal (seq 0 (w_internal w)).

(** The stages of [preStart], after the logger and the debug server. *)
Definition preStartStages (tr : list boxEvent) : option GoError * list boxEvent :=
  andThen (adapter_StartNamed StartStateInitialize internalService tr) (fun tr =>
  andThen (adapter_Start StartStateInitialize
    [C_network; C_dnsTransport; C_dnsRouter; C_connection; C_router; C_outbound; C_inbound; C_endpoint; C_service;
     C_certificateProvider] tr) (fun tr =>
  andThen (adapter_Start StartStateStart [C_outbound; C_dnsTransport; C_network; C_connection] tr) (fun tr =>
  andThen (adapter_StartNamed StartStateStart [C_httpClient] tr) (fun tr =>
  adapter_Start StartStateStart [C_router; C_dnsRouter] tr)))).

Definition Box_preStart (b : Box) (tr : list boxEvent) : option GoError * Box * list boxEvent :=
  let tr := (tr ++ [LoggerStarted])%list in
  match w_loggerStart w with
  | Some err => (Some (E_Cause err "start logger"), b, tr)
  | None =>
      match w_debugServer w with
      | Err err => (Some err, {| b with bx_debugHTTPServer := false |}, tr)
      | Ok server =>
          let b := {| b with bx_debugHTTPServer := server |} in
          let tr := if server then (tr ++ [DebugServerStarted])%list else tr in
          let '(err, tr) := preStartStages tr in (err, b, tr)
      end
  end.

(** The stages of [start] after [preStart]. *)
Definition runStages (tr : list boxEvent) : option GoError * list boxEvent :=
  andThen (adapter_StartNamed StartStateStart internalService tr) (fun tr =>
  andThen (adapter_Start StartStateStart [C_endpoint] tr) (fun tr =>
  andThen (adapter_Start StartStateStart [C_certificateProvider] tr) (fun tr =>
  andThen (adapter_Start StartStateStart [C_inbound; C_service] tr) (fun tr =>
  andThen (adapter_Start StartStatePostStart
    [C_outbound; C_network; C_dnsTransport; C_dnsRouter; C_connection; C_router; C_endpoint; C_certificateProvider;
     C_inbound; C_service] tr) (fun tr =>
  andThen (adapter_StartNamed StartStatePostStart internalService tr) (fun tr =>
  andThen (adapter_Start StartStateStarted
    [C_network; C_dnsTransport; C_dnsRouter; C_connection; C_router; C_outbound; C_endpoint; C_certificateProvider;
     C_inbound; C_service] tr) (fun tr =>
  adapter_StartNamed StartStateStarted internalService tr))))))).

Definition Box_start (b : Box) (tr : list boxEvent) : option GoError * Box * list boxEvent :=
  let '(err, b, tr) := Box_preStart b tr in
  match err with
  | Some e => (Some e, b, tr)
  | None => let '(err, tr) := runStages tr in (err, b, tr)
  end.

(** What the error of one closing adds. *)
Definition closeCause (err : option GoError) (name : string) : list GoError :=
  match err with Some e => [E_Cause e ("close " ++ name)] | None => [] end.

Definition boxCloseItems : list (string * component) :=
  [("service", C_service); ("inbound", C_inbound); ("certificate-provider", C_certificateProvider);
   ("endpoint", C_endpoint); ("outbound", C_outbound); ("router", C_router); ("connection", C_connection);
   ("dns-router", C_dnsRouter); ("dns-transport", C_dnsTransport); ("network", C_network)].

(** The errors that the result combines; [None] is [os.ErrClosed]. *)
Definition Box_Close (b : Box) (tr : list boxEvent) : option (list GoError) * Box * list boxEvent :=
  if bx_done b then (None, b, tr)
  else
    let closing := (boxCloseItems
      ++ [(w_Name w C_httpClient, C_httpClient)]
      ++ map (fun c => (w_Name w c, c)) internalService)%list in
    (Some ((if bx_debugHTTPServer b then closeCause (w_debugClose w) "debug HTTP server" else [])
           ++ concat (map (fun '(name, c) => closeCause (w_Close w c) name) closing)
           ++ closeCause (w_loggerClose w) "logger")%list,
     mkBox false true,
     (tr ++ (if bx_debugHTTPServer b then [DebugServerClosed] else [])
         ++ map (fun '(_, c) => ComponentClosed c) closing ++ [LoggerClosed])%list).

(** A start that fails closes what there is. *)
Definition closeOnError (r : option GoError * Box * list boxEvent) : option GoError * Box * list boxEvent :=
  let '(err, b, tr) := r in
  match err with
  | Some e => let '(_, b, tr) := Box_Close b tr in (Some e, b, tr)
  | None => (None, b, tr)
  end.
Definition Box_PreStart (b : Box) (tr : list boxEvent) := closeOnError (Box_preStart b tr).
Definition Box_Start (b : Box) (tr : list boxEvent) := closeOnError (Box_start b tr).
End box.
