(* ===== verification/ManagerTheorems.v ===== *)
(** * Theorems on the managers

    The managers keep a list and an index by tag.  [indexed] says that the two
    agree; every operation keeps it, so that the search of an indexed object in
    the list never fails, and the managers behave as the plain list does. *)

From S2P Require Import Prelude.
From S2P Require Import GoText.
From S2P Require Import Libs.
From S2P Require Import Lifecycle.
From S2P Require Import LifecycleTheorems.
From S2P Require Import Managers.
From S2P Require Import OutboundManager.
From S2P Require Import TransportManager.
Local Open Scope string_scope.
Local Open Scope Z_scope.

(** ** Lists of objects by tag *)

Definition lookupTag (t : string) (l : list Managed) : option Managed := List.find (fun o => String.eqb (mo_Tag o) t) l.
Definition dropTag (t : string) (l : list Managed) : list Managed :=
  List.filter (fun o => negb (String.eqb (mo_Tag o) t)) l.
Arguments lookupTag : simpl never.
Arguments dropTag : simpl never.

Lemma dropTag_cons t o l :
  dropTag t (o :: l) = if String.eqb (mo_Tag o) t then dropTag t l else o :: dropTag t l.
Proof. unfold dropTag. cbn. by destruct (String.eqb (mo_Tag o) t). Qed.
Lemma lookupTag_cons t o l : lookupTag t (o :: l) = if String.eqb (mo_Tag o) t then Some o else lookupTag t l.
Proof. done. Qed.
Lemma lookupTag_Some t l o : lookupTag t l = Some o -> o ∈ l /\ mo_Tag o = t.
Proof. intros [Ho Ht]%find_some. split; [by apply list_elem_of_In|by apply String.eqb_eq]. Qed.
Lemma lookupTag_None t l : lookupTag t l = None <-> t ∉ map mo_Tag l.
Proof.
  induction l as [|o l IH]; cbn; [split; [set_solver|done]|]. rewrite lookupTag_cons, not_elem_of_cons, <- IH.
  destruct (String.eqb_spec (mo_Tag o) t); split; naive_solver.
Qed.
Lemma lookupTag_app t l l' :
  lookupTag t (l ++ l') = match lookupTag t l with Some o => Some o | None => lookupTag t l' end.
Proof. induction l as [|o l IH]; [done|]. cbn. rewrite !lookupTag_cons. by destruct (String.eqb (mo_Tag o) t). Qed.
Lemma elem_of_dropTag t o l : o ∈ dropTag t l <-> o ∈ l /\ mo_Tag o <> t.
Proof.
  unfold dropTag. rewrite !list_elem_of_In, List.filter_In, negb_true_iff, String.eqb_neq. done.
Qed.
Lemma dropTag_absent t l : t ∉ map mo_Tag l -> dropTag t l = l.
Proof.
  induction l as [|o l IH]; [done|]. intros [H1 H2]%not_elem_of_cons. rewrite dropTag_cons.
  destruct (String.eqb_spec (mo_Tag o) t); [congruence|]. by rewrite IH.
Qed.
Lemma lookupTag_dropTag t t' l : lookupTag t (dropTag t' l) = if decide (t = t') then None else lookupTag t l.
Proof.
  induction l as [|o l IH]; [by cbn; case_decide|]. rewrite dropTag_cons, (lookupTag_cons t o l).
  destruct (String.eqb_spec (mo_Tag o) t') as [<-|Hne]; rewrite ?lookupTag_cons, IH.
  - case_decide; [done|]. by destruct (String.eqb_spec (mo_Tag o) t).
  - destruct (String.eqb_spec (mo_Tag o) t) as [<-|]; [|done]. by rewrite decide_False.
Qed.
Lemma sublist_dropTag t l : sublist (dropTag t l) l.
Proof. induction l as [|o l IH]; [done|]. rewrite dropTag_cons. destruct (String.eqb (mo_Tag o) t); by constructor. Qed.

(** ** The index *)

Record indexed (items : list Managed) (byTag : gmap string Managed) : Prop := {
  ix_tags : NoDup (map mo_Tag items);
  ix_ids : NoDup (map mo_id items);
  ix_lookup t : byTag !! t = lookupTag t items }.

Lemma NoDup_snoc_fresh {A} (l : list A) x : NoDup l -> x ∉ l -> NoDup (l ++ [x]).
Proof.
  intros H1 H2. apply list.NoDup_app. split_and!; [done| |apply NoDup_singleton].
  by intros y Hy ->%list_elem_of_singleton.
Qed.
Lemma indexed_empty : indexed [] ∅.
Proof. split; [apply list.NoDup_nil; done..|done]. Qed.

Lemma removeManaged_dropTag p o l :
  NoDup (map mo_Tag l) -> NoDup (map mo_id l) -> o ∈ l -> removeManaged p o l = Ok (dropTag (mo_Tag o) l).
Proof.
  induction l as [|o' l IH]; cbn [removeManaged map]; intros Ht Hi Ho; [by apply elem_of_nil in Ho|].
  apply list.NoDup_cons in Ht as [Ht1 Ht2], Hi as [Hi1 Hi2]. unfold sameManaged.
  destruct (Nat.eqb_spec (mo_id o') (mo_id o)) as [He|Hne].
  - apply elem_of_cons in Ho as [->|Ho].
    + by rewrite dropTag_cons, String.eqb_refl, dropTag_absent.
    + destruct Hi1. rewrite He. by apply list_elem_of_fmap_2.
  - apply elem_of_cons in Ho as [->|Ho]; [done|]. rewrite IH, dropTag_cons by done. cbn.
    destruct (String.eqb_spec (mo_Tag o') (mo_Tag o)) as [He|]; [|done].
    destruct Ht1. rewrite He. by apply list_elem_of_fmap_2.
Qed.

Lemma indexed_remove p items byTag t o :
  indexed items byTag -> byTag !! t = Some o ->
  removeManaged p o items = Ok (dropTag t items) /\ indexed (dropTag t items) (delete t byTag).
Proof.
  intros [H1 H2 H3] Hl. rewrite H3 in Hl. destruct (lookupTag_Some _ _ _ Hl) as [Ho <-].
  split; [by apply removeManaged_dropTag|]. split.
  - eapply sublist_NoDup; [exact H1|]. apply fmap_sublist, sublist_dropTag.
  - eapply sublist_NoDup; [exact H2|]. apply fmap_sublist, sublist_dropTag.
  - intros t. rewrite lookupTag_dropTag. case_decide as Hd; [subst; apply lookup_delete_eq|].
    by rewrite lookup_delete_ne.
Qed.

Lemma indexed_add items byTag o :
  indexed items byTag -> mo_Tag o ∉ map mo_Tag items -> mo_id o ∉ map mo_id items ->
  indexed (items ++ [o]) (<[mo_Tag o := o]> byTag).
Proof.
  intros [H1 H2 H3] Ht Hi. split.
  - rewrite map_app. by apply NoDup_snoc_fresh.
  - rewrite map_app. by apply NoDup_snoc_fresh.
  - intros t. rewrite lookupTag_app, lookupTag_cons. destruct (decide (t = mo_Tag o)) as [->|Hne].
    + rewrite lookup_insert_eq. apply lookupTag_None in Ht. by rewrite Ht, String.eqb_refl.
    + rewrite lookup_insert_ne, H3 by done. destruct (lookupTag t items); [done|].
      by destruct (String.eqb_spec (mo_Tag o) t).
Qed.

(** Putting an object in the place of whatever has its tag. *)
Lemma indexed_put items byTag o :
  indexed items byTag -> mo_id o ∉ map mo_id items ->
  indexed (dropTag (mo_Tag o) items ++ [o]) (<[mo_Tag o := o]> byTag).
Proof.
  intros Hx Hi. destruct (byTag !! mo_Tag o) as [old|] eqn:El.
  - destruct (indexed_remove "" items byTag (mo_Tag o) old Hx El) as [_ Hr].
    rewrite <- insert_delete_eq. apply indexed_add; [done| |].
    + intros H. apply list_elem_of_fmap in H as (o' & He & [_ Ho']%elem_of_dropTag). congruence.
    + intros H. apply Hi. apply list_elem_of_fmap in H as (o' & -> & [Ho' _]%elem_of_dropTag).
      by apply list_elem_of_fmap_2.
  - rewrite (ix_lookup _ _ Hx) in El. apply lookupTag_None in El. rewrite dropTag_absent by done. by apply indexed_add.
Qed.

(** ** Histories *)

(** Operations on a manager before it is closed: what the registry returned is
    part of a creation, what the fallback returned part of a start. *)
Inductive managerOp :=
  | OpCreate (tag : string) (created : result Managed)
  | OpRemove (tag : string)
  | OpStart (stage : StartStage) (fallback : result Managed).

Definition opObject (op : managerOp) : list Managed :=
  match op with OpCreate _ (Ok o) | OpStart _ (Ok o) => [o] | _ => [] end.
(** A registry makes an object of the tag it was asked for. *)
Definition opTagged (op : managerOp) : Prop :=
  match op with OpCreate tag (Ok o) => mo_Tag o = tag | _ => True end.
(** No object is made twice. *)
Definition opIds (ops : list managerOp) : list nat := map mo_id (concat (map opObject ops)).

Lemma opIds_cons op ops : opIds (op :: ops) = (map mo_id (opObject op) ++ opIds ops)%list.
Proof. unfold opIds. cbn. by rewrite map_app. Qed.

(** An operation adds no object but the one it makes. *)
Lemma fresh_step items items' op ops :
  NoDup (map mo_id items ++ opIds (op :: ops)) -> NoDup (map mo_id items') ->
  (forall o, o ∈ items' -> o ∈ items \/ o ∈ opObject op) -> NoDup (map mo_id items' ++ opIds ops).
Proof.
  rewrite opIds_cons, !list.NoDup_app. intros (_ & H2 & (_ & H3 & H4)) Hi' Hsub. split_and!; [done| |done].
  intros i Hi. apply list_elem_of_fmap in Hi as (o & -> & Ho). destruct (Hsub o Ho) as [Ho'|Ho'].
  - intros Hin. apply (H2 (mo_id o)); [by apply list_elem_of_fmap_2|]. apply elem_of_app. by right.
  - apply H3. by apply list_elem_of_fmap_2.
Qed.
Lemma fresh_object items op ops o :
  NoDup (map mo_id items ++ opIds (op :: ops)) -> o ∈ opObject op -> mo_id o ∉ map mo_id items.
Proof.
  rewrite opIds_cons, list.NoDup_app. intros (_ & H & _) Ho Hin. apply (H (mo_id o) Hin).
  apply elem_of_app. left. by apply list_elem_of_fmap_2.
Qed.

(** ** The plain list *)

Record registry := mkRegistry { rg_started : bool; rg_items : list Managed }.

(** An object joins a running manager if its stages succeed and the object it
    replaces closes. *)
Definition startsAll (o : Managed) : bool := forallb (fun s => negb (isSome (mo_Start o s))) ListStartStages.
Definition joins (r : registry) (tag : string) (o : Managed) : bool :=
  negb (rg_started r)
  || startsAll o && match lookupTag tag (rg_items r) with Some old => negb (isSome (mo_Close old)) | None => true end.
Definition registryStep (r : registry) (op : managerOp) : registry :=
  match op with
  | OpCreate tag (Ok o) =>
      if joins r tag o then {| r with rg_items := (dropTag tag (rg_items r) ++ [o])%list |} else r
  | OpCreate _ (Err _) => r
  | OpRemove tag => {| r with rg_items := dropTag tag (rg_items r) |}
  | OpStart _ _ => {| r with rg_started := true |}
  end.

Lemma startStages_spec prefix o :
  isSome (fst (startStages prefix ListStartStages o)) = negb (startsAll o).
Proof.
  unfold startsAll, ListStartStages. cbn.
  by destruct (mo_Start o StartStateInitialize), (mo_Start o StartStateStart), (mo_Start o StartStatePostStart),
    (mo_Start o StartStateStarted).
Qed.

Lemma joinManaged_spec prefix panic started tag o items byTag :
  indexed items byTag -> exists err events,
    joinManaged prefix panic started tag o items byTag
    = Ok (err, if joins (mkRegistry started items) tag o then dropTag tag items else items, events)
    /\ isSome err = negb (joins (mkRegistry started items) tag o).
Proof.
  intros Hx. unfold joinManaged, joins. cbn [rg_started rg_items].
  destruct (if started then _ else _) as [err events] eqn:Es.
  assert (Herr : isSome err = started && negb (startsAll o)).
  { rewrite <- (startStages_spec prefix). destruct started; [by rewrite Es|by inversion Es]. }
  destruct err as [e|].
  { destruct started, (startsAll o); try done. by exists (Some e), events. }
  rewrite (ix_lookup _ _ Hx). destruct (lookupTag tag items) as [old|] eqn:El.
  - assert (Hl := El). rewrite <- (ix_lookup _ _ Hx) in Hl.
    destruct (indexed_remove panic _ _ _ _ Hx Hl) as [Hr _]. rewrite Hr.
    destruct started, (startsAll o), (mo_Close old); try done; cbn; eauto.
  - apply lookupTag_None in El. rewrite dropTag_absent by done.
    destruct started, (startsAll o); try done; cbn; eauto.
Qed.

(** ** Stages *)

(** The stage of the last start; a start that does not come after it panics. *)
Definition lastStage (started : bool) (stage : StartStage) : option StartStage := if started then Some stage else None.
Definition stageOk (prev : option StartStage) (op : managerOp) : bool :=
  match op, prev with OpStart stage _, Some p => stageNumber p <? stageNumber stage | _, _ => true end.
Definition nextStage (prev : option StartStage) (op : managerOp) : option StartStage :=
  match op with OpStart stage _ => Some stage | _ => prev end.
Fixpoint stagesInOrder (prev : option StartStage) (ops : list managerOp) : bool :=
  match ops with [] => true | op :: ops => stageOk prev op && stagesInOrder (nextStage prev op) ops end.

Lemma already_started started stage stage' fallback :
  started && (stageNumber stage' <=? stageNumber stage)
  = negb (stageOk (lastStage started stage) (OpStart stage' fallback)).
Proof. destruct started; [|done]. cbn. by rewrite Z.leb_antisym. Qed.

(** ** The four managers *)

Definition itemStep (k : Kind) (m : ItemManager) (op : managerOp) : result ItemManager :=
  match op with
  | OpCreate tag created => let? '(_, m, _) := Item_Create k tag created m in Ok m
  | OpRemove tag => let? '(_, m, _) := Item_Remove k tag m in Ok m
  | OpStart stage _ => let? '(_, m, _) := Item_Start k stage m in Ok m
  end.
Fixpoint itemSteps (k : Kind) (m : ItemManager) (ops : list managerOp) : result ItemManager :=
  match ops with [] => Ok m | op :: ops => let? m := itemStep k m op in itemSteps k m ops end.

Definition itemRegistry (m : ItemManager) : registry := mkRegistry (im_started m) (im_items m).

Definition itemStage (m : ItemManager) : option StartStage := lastStage (im_started m) (im_stage m).

Lemma itemStep_spec k m op :
  indexed (im_items m) (im_byTag m) -> opTagged op ->
  (forall o, o ∈ opObject op -> mo_id o ∉ map mo_id (im_items m)) ->
  if stageOk (itemStage m) op then exists m', itemStep k m op = Ok m' /\ indexed (im_items m') (im_byTag m')
    /\ itemRegistry m' = registryStep (itemRegistry m) op /\ itemStage m' = nextStage (itemStage m) op
  else itemStep k m op = Err (GoPanic "already started").
Proof.
  intros Hx Ht Hf. destruct op as [tag [o|e]|tag|stage fb]; cbn [itemStep stageOk].
  - unfold Item_Create, registryStep, itemRegistry.
    destruct (joinManaged_spec (kd_prefix k) (kd_panic k) (im_started m) tag o _ _ Hx) as (err & events & -> & He).
    destruct (joins _ tag o), err as [e|]; try done; cbn; eexists; split_and!; try done.
    cbn in *. subst tag. apply indexed_put; [done|]. apply Hf. by left.
  - by exists m.
  - unfold Item_Remove. rewrite (ix_lookup _ _ Hx). destruct (lookupTag tag (im_items m)) as [o|] eqn:El.
    + assert (Hl := El). rewrite <- (ix_lookup _ _ Hx) in Hl.
      destruct (indexed_remove (kd_panic k) _ _ _ _ Hx Hl) as [Hr Hx']. cbn. rewrite Hr. cbn.
      destruct (im_started m) eqn:Es; eexists; split_and!; try done;
        unfold itemRegistry, itemStage; cbn; by rewrite Es.
    + apply lookupTag_None in El. exists m. split_and!; [done..| |done]. unfold registryStep. cbn. by rewrite dropTag_absent.
  - unfold Item_Start. rewrite (already_started _ _ _ fb). fold (itemStage m).
    change (match itemStage m with Some p => _ | None => true end) with (stageOk (itemStage m) (OpStart stage fb)).
    destruct (stageOk _ _); [|done]. cbn. case_match; [by eexists|].
    destruct (startStage _ _ _) as [err events]. by eexists.
Qed.

Lemma registryStep_items r op o : o ∈ rg_items (registryStep r op) -> o ∈ rg_items r \/ o ∈ opObject op.
Proof.
  destruct op as [tag [o'|e]|tag|stage fb]; cbn; [|by left| |by left].
  - destruct (joins r tag o'); [|by left]. intros [[Ho _]%elem_of_dropTag|Ho]%elem_of_app; [by left|by right].
  - intros [Ho _]%elem_of_dropTag. by left.
Qed.

Lemma itemSteps_spec k : forall ops m,
  indexed (im_items m) (im_byTag m) -> Forall opTagged ops -> NoDup (map mo_id (im_items m) ++ opIds ops) ->
  if stagesInOrder (itemStage m) ops then exists m', itemSteps k m ops = Ok m'
    /\ indexed (im_items m') (im_byTag m') /\ itemRegistry m' = foldl registryStep (itemRegistry m) ops
  else itemSteps k m ops = Err (GoPanic "already started").
Proof.
  induction ops as [|op ops IH]; intros m Hx Ht Hf; [by exists m|]. cbn [stagesInOrder itemSteps foldl].
  pose proof (itemStep_spec k m op Hx (Forall_inv Ht) (fun o => fresh_object _ _ _ o Hf)) as Hs.
  destruct (stageOk (itemStage m) op); cbn [andb]; [|by rewrite Hs].
  destruct Hs as (m1 & -> & Hx1 & Hr & <-). cbn. rewrite <- Hr. apply IH; [done|exact (Forall_inv_tail Ht)|].
  eapply fresh_step; [exact Hf|apply Hx1|]. intros o Ho. apply (registryStep_items (itemRegistry m)).
  by rewrite <- Hr.
Qed.

(** The endpoint, inbound, service and certificate provider managers are the
    plain list of their objects: after any history of creations, removals and
    starts, of objects that have the tags asked for and are made once, the list
    is the one in which a creation takes out the object of its tag and appends
    the new one (a creation whose object does not start, or whose predecessor
    does not close, changes nothing), and [Get] finds the object of a tag in it.
    The search of an indexed object in the list never fails; the only panic is
    that of a start whose stage does not come after the last. *)
Theorem item_managers_refine (k : Kind) (ops : list managerOp) :
  Forall opTagged ops -> NoDup (opIds ops) ->
  if stagesInOrder None ops then exists m, itemSteps k NewItemManager ops = Ok m
    /\ itemRegistry m = foldl registryStep (mkRegistry false []) ops
    /\ forall t, Item_Get m t = lookupTag t (im_items m)
  else itemSteps k NewItemManager ops = Err (GoPanic "already started").
Proof.
  intros Ht Hf. pose proof (itemSteps_spec k ops NewItemManager indexed_empty Ht Hf) as H.
  cbn [itemStage NewItemManager im_started lastStage] in H. destruct (stagesInOrder None ops); [|done].
  destruct H as (m & H1 & H2 & H3). exists m. split_and!; [done..|]. apply H2.
Qed.

(** ** The outbound manager *)

Section outbounds.
Context `{L : Libs} (endpoint : ItemManager).

Definition outboundStep (m : Manager) (op : managerOp) : result Manager :=
  match op with
  | OpCreate tag created => let? '(_, m, _) := Manager_Create tag created m in Ok m
  | OpRemove tag => let? '(_, m, _) := Manager_Remove tag m in Ok m
  | OpStart stage fallback =>
      let? r := Manager_Start endpoint (S (length (mg_outbounds m ++ im_items endpoint))) stage fallback m in
      match r with Some (_, m, _) => Ok m | None => Err (GoPanic "the start does not end") end
  end.
Fixpoint outboundSteps (m : Manager) (ops : list managerOp) : result Manager :=
  match ops with [] => Ok m | op :: ops => let? m := outboundStep m op in outboundSteps m ops end.

(** The plain list with the default outbound. *)
Record outboundRegistry := mkOutboundRegistry { or_registry : registry; or_default : option Managed }.

Definition outboundRegistryStep (defaultTag : string) (r : outboundRegistry) (op : managerOp) : outboundRegistry :=
  let items := rg_items (or_registry r) in
  match op with
  | OpCreate tag (Ok o) =>
      if negb (String.eqb tag "") && joins (or_registry r) tag o then
        mkOutboundRegistry (registryStep (or_registry r) op)
          (if String.eqb tag defaultTag || String.eqb defaultTag "" && negb (isSome (or_default r))
           then Some o else or_default r)
      else r
  | OpCreate _ (Err _) => r
  | OpRemove tag =>
      mkOutboundRegistry (registryStep (or_registry r) op)
        match lookupTag tag items with
        | Some o => nextDefault o (dropTag tag items) (or_default r)
        | None => or_default r
        end
  | OpStart stage fallback =>
      match stage, or_default r, fallback with
      | StartStateInitialize, None, Ok o =>
          if String.eqb defaultTag "" then mkOutboundRegistry (mkRegistry true (items ++ [o])%list) (Some o)
          else mkOutboundRegistry (mkRegistry true items) (Item_Get endpoint defaultTag)
      | StartStateInitialize, None, Err _ =>
          mkOutboundRegistry (mkRegistry true items)
            (if String.eqb defaultTag "" then None else Item_Get endpoint defaultTag)
      | _, d, _ => mkOutboundRegistry (mkRegistry true items) d
      end
  end.

Definition managerRegistry (m : Manager) : outboundRegistry :=
  mkOutboundRegistry (mkRegistry (mg_started m) (mg_outbounds m)) (mg_defaultOutbound m).
Definition managerStage (m : Manager) : option StartStage := lastStage (mg_started m) (mg_stage m).

Hypothesis Hendpoint : NoDup (map mo_Tag (im_items endpoint)).

Record outboundInv (m : Manager) : Prop := {
  oi_indexed : indexed (mg_outbounds m) (mg_outboundByTag m);
  oi_endpoints o : o ∈ mg_outbounds m -> mo_Tag o ∉ map mo_Tag (im_items endpoint);
  oi_default : mg_defaultTag m = "" -> mg_defaultOutbound m = None -> mg_outbounds m = [] }.

(** The start of a consistent manager ends and has something to blame. *)
Lemma startOutbounds_total m : outboundInv m -> exists res order,
  startOrdered "outbound/" (S (length (mg_outbounds m ++ im_items endpoint))) (mg_outboundByTag m)
    (mg_outbounds m ++ im_items endpoint) = Some (res, order) /\ res <> NilObject.
Proof.
  intros [Hx He _]. destruct (startOrdered_spec "outbound/" (mg_outbounds m ++ im_items endpoint) (mg_outboundByTag m))
    as (res & order & H1 & _ & H2).
  - rewrite map_app, list.NoDup_app. split_and!; [apply Hx| |done].
    intros t Ht. apply list_elem_of_fmap in Ht as (o & -> & Ho). by apply He.
  - intros t o Hl. rewrite (ix_lookup _ _ Hx) in Hl. apply lookupTag_Some in Hl as [Ho Ht].
    split; [apply elem_of_app; by left|done].
  - exists res, order. split; [apply H1; lia|]. by intros ->.
Qed.

(** A manager in which [o] took the place of its tag. *)
Lemma outboundInv_put m m' o :
  outboundInv m -> mo_id o ∉ map mo_id (mg_outbounds m) -> mo_Tag o ∉ map mo_Tag (im_items endpoint) ->
  mg_outbounds m' = (dropTag (mo_Tag o) (mg_outbounds m) ++ [o])%list ->
  mg_outboundByTag m' = <[mo_Tag o := o]> (mg_outboundByTag m) ->
  (mg_defaultTag m' = "" -> mg_defaultOutbound m' <> None) -> outboundInv m'.
Proof.
  intros [Hx He Hd] Hid Hep H1 H2 H3. split.
  - rewrite H1, H2. by apply indexed_put.
  - rewrite H1. intros o' [[Ho' _]%elem_of_dropTag|Ho'%list_elem_of_singleton]%elem_of_app; [by apply He|by subst].
  - intros Ht Hn. by destruct (H3 Ht).
Qed.

Lemma outbound_create_spec m tag created :
  outboundInv m -> opTagged (OpCreate tag created) ->
  (forall o, o ∈ opObject (OpCreate tag created) ->
     mo_id o ∉ map mo_id (mg_outbounds m) /\ mo_Tag o ∉ map mo_Tag (im_items endpoint)) ->
  exists m', outboundStep m (OpCreate tag created) = Ok m' /\ outboundInv m'
    /\ managerRegistry m' = outboundRegistryStep (mg_defaultTag m) (managerRegistry m) (OpCreate tag created)
    /\ mg_defaultTag m' = mg_defaultTag m /\ managerStage m' = managerStage m.
Proof.
  intros Hi Ht Hf. destruct created as [o|e]; cbn [outboundStep outboundRegistryStep].
  2: { unfold Manager_Create. case_match; by exists m. }
  unfold Manager_Create. destruct (String.eqb tag ""); [by exists m|].
  destruct (joinManaged_spec "outbound/" "invalid inbound index" (mg_started m) tag o _ _ (oi_indexed _ Hi))
    as (err & events & -> & He).
  change (or_registry (managerRegistry m)) with (mkRegistry (mg_started m) (mg_outbounds m)).
  change (or_default (managerRegistry m)) with (mg_defaultOutbound m).
  cbn [registryStep rg_items rg_started].
  destruct (joins _ tag o) eqn:Ej, err as [e|]; try done; cbn [result_bind negb andb]; [|by exists m].
  destruct (Hf o) as [Hid Hep]; [by left|]. cbn in Ht. subst tag. cbn [mg_defaultTag mg_defaultOutbound].
  eexists. split; [reflexivity|]. split; [|by destruct (_ || _)].
  apply (outboundInv_put m _ o Hi Hid Hep); [by destruct (_ || _)..|].
  destruct (String.eqb_spec (mo_Tag o) (mg_defaultTag m)); [done|]. cbn [orb].
  destruct (String.eqb_spec (mg_defaultTag m) "") as [Hd|Hd]; [|done]. by destruct (mg_defaultOutbound m).
Qed.

Lemma outbound_remove_spec m tag :
  outboundInv m -> exists m', outboundStep m (OpRemove tag) = Ok m' /\ outboundInv m'
    /\ managerRegistry m' = outboundRegistryStep (mg_defaultTag m) (managerRegistry m) (OpRemove tag)
    /\ mg_defaultTag m' = mg_defaultTag m /\ managerStage m' = managerStage m.
Proof.
  intros [Hx He Hd]. cbn [outboundStep outboundRegistryStep]. unfold Manager_Remove. rewrite (ix_lookup _ _ Hx).
  change (rg_items (or_registry (managerRegistry m))) with (mg_outbounds m).
  destruct (lookupTag tag (mg_outbounds m)) as [o|] eqn:El.
  2: { assert (Hn := El). apply lookupTag_None in Hn. exists m. split_and!; try done.
       unfold managerRegistry. cbn. by rewrite dropTag_absent. }
  assert (Hl := El). rewrite <- (ix_lookup _ _ Hx) in Hl.
  destruct (indexed_remove "invalid inbound index" _ _ _ _ Hx Hl) as [Hr Hx']. cbn. rewrite Hr. cbn.
  assert (Hinv : forall d, outboundInv (mkManager (mg_defaultTag m) (mg_started m) (mg_stage m)
    (dropTag tag (mg_outbounds m)) (delete tag (mg_outboundByTag m)) d
    (nextDefault o (dropTag tag (mg_outbounds m)) (mg_defaultOutbound m)))).
  { intros d. split; cbn; [done|intros o' [Ho' _]%elem_of_dropTag; by apply He|]. intros Ht Hn.
    unfold nextDefault in Hn. destruct (mg_defaultOutbound m) as [d'|]; [|by rewrite (Hd Ht eq_refl)].
    destruct (sameManaged d' o); [|done]. by destruct (dropTag tag (mg_outbounds m)). }
  destruct (default [] _); [destruct (mg_started m) eqn:Es|]; cbn; eexists; (split; [reflexivity|]);
    (split; [apply Hinv|]); unfold managerRegistry, managerStage; cbn; by rewrite ?Es.
Qed.

Lemma initializeDefault_spec m fallback :
  outboundInv m ->
  (forall o, o ∈ opObject (OpStart StartStateInitialize fallback) ->
     mo_id o ∉ map mo_id (mg_outbounds m) /\ mo_Tag o ∉ map mo_Tag (im_items endpoint)) ->
  mg_started m = true ->
  let m' := snd (initializeDefault endpoint fallback m) in
  outboundInv m' /\ managerRegistry m'
    = outboundRegistryStep (mg_defaultTag m) (managerRegistry m) (OpStart StartStateInitialize fallback)
  /\ mg_defaultTag m' = mg_defaultTag m /\ managerStage m' = managerStage m.
Proof.
  intros Hi Hf Hs. unfold initializeDefault, outboundRegistryStep, managerRegistry, managerStage.
  cbn [or_default or_registry rg_items].
  destruct (mg_defaultOutbound m) as [d|] eqn:Ed; cbn [isSome negb].
  { rewrite andb_false_r, Ed. cbn. by rewrite Ed, Hs. }
  rewrite andb_true_r. destruct (String.eqb_spec (mg_defaultTag m) "") as [Ht|Ht]; cbn [negb].
  - rewrite Ed. cbn [isSome]. pose proof (oi_default _ Hi Ht Ed) as Hn.
    destruct fallback as [o|e]; cbn; [|by rewrite Ed, Hs]. rewrite Hs. split_and!; try done.
    destruct (Hf o) as [Hid Hep]; [by left|]. apply (outboundInv_put m _ o Hi Hid Hep); cbn; [by rewrite Hn|done..].
  - destruct (Item_Get endpoint (mg_defaultTag m)) as [e|] eqn:Eg; cbn; rewrite ?Ed, ?Hs.
    + split_and!; [|by destruct fallback|done..]. split; try apply Hi. done.
    + split_and!; [done|by destruct fallback|done..].
Qed.

Lemma outbound_start_spec m stage fallback :
  outboundInv m -> 
  (forall o, o ∈ opObject (OpStart stage fallback) ->
     mo_id o ∉ map mo_id (mg_outbounds m) /\ mo_Tag o ∉ map mo_Tag (im_items endpoint)) ->
  if stageOk (managerStage m) (OpStart stage fallback) then
  exists m', outboundStep m (OpStart stage fallback) = Ok m' /\ outboundInv m'
    /\ managerRegistry m' = outboundRegistryStep (mg_defaultTag m) (managerRegistry m) (OpStart stage fallback)
    /\ mg_defaultTag m' = mg_defaultTag m /\ managerStage m' = Some stage
  else outboundStep m (OpStart stage fallback) = Err (GoPanic "already started").
Proof.
  intros Hi Hf. cbn [outboundStep]. unfold Manager_Start. rewrite (already_started _ _ _ fallback).
  fold (managerStage m). destruct (stageOk _ _); cbn [negb]; [|done].
  set (m1 := mkManager _ _ _ _ _ _ _). assert (Hi1 : outboundInv m1) by (split; apply Hi).
  destruct stage.
  - assert (Hm := initializeDefault_spec m1 fallback Hi1 Hf eq_refl).
    destruct (initializeDefault endpoint fallback m1) as [err m2]. cbn [snd] in Hm. destruct Hm as (H1 & H2 & H3 & H4).
    exists m2. split_and!; [|done..]. destruct err; [done|]. by destruct (startStage _ _ _).
  - destruct (startOutbounds_total m1 Hi1) as (res & order & Hs & Hn). cbn [mg_outboundByTag mg_outbounds m1] in Hs.
    exists m1. split_and!; [|done..]. cbn [mg_outboundByTag mg_outbounds m1]. rewrite Hs. by destruct res.
  - exists m1. split_and!; [|done..]. by destruct (startStage _ _ _).
  - exists m1. split_and!; [|done..]. by destruct (startStage _ _ _).
Qed.
Definition outsideEndpoints (op : managerOp) : Prop :=
  forall o, o ∈ opObject op -> mo_Tag o ∉ map mo_Tag (im_items endpoint).

Lemma outboundStep_spec m op :
  outboundInv m -> opTagged op -> outsideEndpoints op ->
  (forall o, o ∈ opObject op -> mo_id o ∉ map mo_id (mg_outbounds m)) ->
  if stageOk (managerStage m) op then exists m', outboundStep m op = Ok m' /\ outboundInv m'
    /\ managerRegistry m' = outboundRegistryStep (mg_defaultTag m) (managerRegistry m) op
    /\ mg_defaultTag m' = mg_defaultTag m /\ managerStage m' = nextStage (managerStage m) op
  else outboundStep m op = Err (GoPanic "already started").
Proof.
  intros Hi Ht He Hf. destruct op as [tag created|tag|stage fallback].
  - apply outbound_create_spec; auto.
  - by apply outbound_remove_spec.
  - apply outbound_start_spec; auto.
Qed.

Lemma outboundRegistryStep_items dt r op o :
  o ∈ rg_items (or_registry (outboundRegistryStep dt r op)) ->
  o ∈ rg_items (or_registry r) \/ o ∈ opObject op.
Proof.
  destruct op as [tag [o'|e]|tag|stage fb]; cbn [outboundRegistryStep]; [|by left| |].
  - destruct (_ && _); [|by left]. apply registryStep_items.
  - apply (registryStep_items _ (OpRemove tag)).
  - destruct stage; [|by left..]. destruct (or_default r); [by left|]. destruct fb as [o'|e]; [|by left].
    destruct (String.eqb dt ""); [|by left]. cbn. intros [H|H]%elem_of_app; [by left|by right].
Qed.

Lemma outboundSteps_spec : forall ops m,
  outboundInv m -> Forall opTagged ops -> Forall outsideEndpoints ops ->
  NoDup (map mo_id (mg_outbounds m) ++ opIds ops) ->
  if stagesInOrder (managerStage m) ops then exists m', outboundSteps m ops = Ok m' /\ outboundInv m'
    /\ managerRegistry m' = foldl (outboundRegistryStep (mg_defaultTag m)) (managerRegistry m) ops
  else outboundSteps m ops = Err (GoPanic "already started").
Proof.
  induction ops as [|op ops IH]; intros m Hi Ht He Hf; [by exists m|]. cbn [stagesInOrder outboundSteps foldl].
  pose proof (outboundStep_spec m op Hi (Forall_inv Ht) (Forall_inv He) (fun o => fresh_object _ _ _ o Hf)) as Hs.
  destruct (stageOk (managerStage m) op); cbn [andb]; [|by rewrite Hs].
  destruct Hs as (m1 & -> & Hi1 & Hr & Hd & <-). cbn [result_bind]. rewrite <- Hr, <- Hd.
  apply IH; [done|exact (Forall_inv_tail Ht)|exact (Forall_inv_tail He)|].
  eapply fresh_step; [exact Hf|apply Hi1|]. intros o Ho.
  apply (outboundRegistryStep_items (mg_defaultTag m) (managerRegistry m)). by rewrite <- Hr.
Qed.

(** C18 The outbound manager is the plain list of its outbounds with a default:
    after any history of creations, removals and starts (the outbounds have the
    tags asked for, are made once and share no tag with an endpoint), list and
    default are those of the abstract registry: a creation replaces the
    outbound of its tag, and becomes the default if it has the default tag or
    there is none; the removal of the default makes the first outbound left the
    default; the first stage supplies a default.  [Outbound] finds the outbound
    of a tag in the list, or else the endpoint.  Every start ends, and the only
    panic is that of a stage that does not come after the last. *)
Theorem outbound_manager_refines (defaultTag : string) (ops : list managerOp) :
  Forall opTagged ops -> Forall outsideEndpoints ops -> NoDup (opIds ops) ->
  if stagesInOrder None ops then exists m, outboundSteps (NewManager defaultTag) ops = Ok m
    /\ managerRegistry m
       = foldl (outboundRegistryStep defaultTag) (mkOutboundRegistry (mkRegistry false []) None) ops
    /\ forall t, Manager_Outbound endpoint m t
       = match lookupTag t (mg_outbounds m) with Some o => Some o | None => Item_Get endpoint t end
  else outboundSteps (NewManager defaultTag) ops = Err (GoPanic "already started").
Proof.
  intros Ht He Hf. assert (Hi : outboundInv (NewManager defaultTag)).
  { split; [apply indexed_empty|by intros o Ho%elem_of_nil|done]. }
  pose proof (outboundSteps_spec ops _ Hi Ht He Hf) as H. cbn [managerStage NewManager mg_started lastStage] in H.
  destruct (stagesInOrder None ops); [|done]. destruct H as (m & H1 & H2 & H3). exists m. split_and!; [done..|].
  intros t. unfold Manager_Outbound. by rewrite (ix_lookup _ _ (oi_indexed _ H2)).
Qed.
End outbounds.

(** ** The DNS server manager *)

Section transports.
Context `{L : Libs}.

(** The removal of the default DNS server tests the next server the wrong way
    round.  If the first server left is not one of fake addresses, [Remove]
    reports that the default server cannot be one, and stops with the removed
    server unlisted, not closed and still the default; if it is one, it becomes
    the default, which [Create] refuses. *)
Theorem remove_default_server_inverted (m : TransportManager) (d next : Managed) (rest : list Managed) :
  indexed (tm_transports m) (tm_transportByTag m) -> tm_defaultTransport m = Some d -> d ∈ tm_transports m ->
  dropTag (mo_Tag d) (tm_transports m) = next :: rest ->
  exists err m' events, Transport_Remove (mo_Tag d) m = Ok (err, m', events)
  /\ Transport_Get m' (mo_Tag d) = None /\ tm_transports m' = next :: rest
  /\ if String.eqb (mo_Type next) DNSTypeFakeIP then tm_defaultTransport m' = Some next
     else tm_defaultTransport m' = Some d /\ events = [] /\ err = Some (E_New "default server cannot be fakeip").
Proof.
  intros Hx Hd Hin Hnext. assert (Hl : tm_transportByTag m !! mo_Tag d = Some d).
  { rewrite (ix_lookup _ _ Hx). destruct (lookupTag _ _) as [o|] eqn:El.
    - apply lookupTag_Some in El as [Ho He]. f_equal.
      apply list_elem_of_lookup in Ho as [i Hi], Hin as [j Hj].
      assert (i = j) as ->; [|congruence]. eapply (NoDup_lookup (map mo_Tag (tm_transports m)) i j (mo_Tag d));
        [apply Hx|rewrite list_lookup_fmap, Hi; cbn; by rewrite He|by rewrite list_lookup_fmap, Hj].
    - apply lookupTag_None in El. destruct El. by apply list_elem_of_fmap_2. }
  destruct (indexed_remove "invalid inbound index" _ _ _ _ Hx Hl) as [Hr _].
  unfold Transport_Remove. rewrite Hl. cbn [tm_transports]. rewrite Hr, Hnext. cbn [result_bind tm_defaultTransport].
  rewrite Hd. unfold sameManaged. rewrite Nat.eqb_refl. destruct (String.eqb (mo_Type next) DNSTypeFakeIP); cbn [negb].
  - unfold transportRelease. cbn. destruct (default [] _); cbn; repeat eexists; apply lookup_delete_eq.
  - repeat eexists. apply lookup_delete_eq.
Qed.
End transports.
