(* ===== verification/BoxTheorems.v ===== *)
(** * Theorems on the program as a whole

    Every part goes through its stages in order and no part enters a stage
    before all have left the one before; inbounds start last; a failed start
    closes every part once.  A configuration whose tags pass the checks makes an
    outbound manager that starts without a panic. *)

From Stdlib Require Import Sorting.Sorted.
From S2P Require Import Prelude.
From S2P Require Import GoText.
From S2P Require Import Libs.
From S2P Require Import Lifecycle.
From S2P Require Import LifecycleTheorems.
From S2P Require Import Managers.
From S2P Require Import OutboundManager.
From S2P Require Import Box.
From S2P Require Import ManagerTheorems.
Local Open Scope string_scope.
Local Open Scope Z_scope.

(** ** Plans

    A sequence of starts follows a plan if what happened is the plan to the
    first error. *)

Definition follows (f : list boxEvent -> option GoError * list boxEvent) (plan : list boxEvent) : Prop :=
  forall tr, exists before rest, plan = (before ++ rest)%list /\ snd (f tr) = (tr ++ before)%list
    /\ (fst (f tr) = None -> rest = []).

Definition stageEvents (stage : StartStage) (services : list component) : list boxEvent :=
  map (fun c => ComponentStarted c stage) services.

Lemma follows_andThen f g p q :
  follows f p -> follows g q -> follows (fun tr => andThen (f tr) g) (p ++ q).
Proof.
  intros Hf Hg tr. destruct (Hf tr) as (b1 & r1 & -> & H1 & H2). unfold andThen.
  destruct (f tr) as [[e|] tr']; cbn in *; subst tr'.
  - exists b1, (r1 ++ q)%list. split_and!; [by rewrite app_assoc|done|done].
  - rewrite (H2 eq_refl). destruct (Hg (tr ++ b1)%list) as (b2 & r2 & -> & H3 & H4).
    exists (b1 ++ b2)%list, r2. split_and!; [by rewrite app_nil_r, app_assoc|by rewrite H3, app_assoc|done].
Qed.
Lemma follows_adapter_Start w stage services : follows (adapter_Start w stage services) (stageEvents stage services).
Proof.
  induction services as [|c services IH]; intros tr; cbn.
  - exists [], []. by rewrite (app_nil_r tr).
  - destruct (w_ctxErr w tr); [by exists [], (stageEvents stage (c :: services)); rewrite (app_nil_r tr)|].
    destruct (w_Start w c stage); [by exists [ComponentStarted c stage], (stageEvents stage services)|].
    destruct (IH (tr ++ [ComponentStarted c stage])%list) as (b & r & He & H1 & H2).
    exists (ComponentStarted c stage :: b), r. cbn. rewrite H1, <- He, <- app_assoc. done.
Qed.
Lemma adapter_StartNamed_same w stage services : forall tr,
  snd (adapter_StartNamed w stage services tr) = snd (adapter_Start w stage services tr)
  /\ (fst (adapter_StartNamed w stage services tr) = None -> fst (adapter_Start w stage services tr) = None).
Proof.
  induction services as [|c services IH]; intros tr; cbn; [done|].
  destruct (w_ctxErr w tr); [done|]. destruct (w_Start w c stage); [done|apply IH].
Qed.
Lemma follows_adapter_StartNamed w stage services :
  follows (adapter_StartNamed w stage services) (stageEvents stage services).
Proof.
  intros tr. destruct (follows_adapter_Start w stage services tr) as (b & r & H1 & H2 & H3).
  destruct (adapter_StartNamed_same w stage services tr) as [H4 H5]. exists b, r. rewrite H4. auto.
Qed.

(** The starts of an instance, in order. *)
Definition startPlan (w : World) : list boxEvent :=
  stageEvents StartStateInitialize
    (internalService w ++ [C_network; C_dnsTransport; C_dnsRouter; C_connection; C_router; C_outbound; C_inbound;
       C_endpoint; C_service; C_certificateProvider])
  ++ stageEvents StartStateStart
    ([C_outbound; C_dnsTransport; C_network; C_connection; C_httpClient; C_router; C_dnsRouter]
      ++ internalService w ++ [C_endpoint; C_certificateProvider; C_inbound; C_service])
  ++ stageEvents StartStatePostStart
    ([C_outbound; C_network; C_dnsTransport; C_dnsRouter; C_connection; C_router; C_endpoint; C_certificateProvider;
       C_inbound; C_service] ++ internalService w)
  ++ stageEvents StartStateStarted
    ([C_network; C_dnsTransport; C_dnsRouter; C_connection; C_router; C_outbound; C_endpoint; C_certificateProvider;
       C_inbound; C_service] ++ internalService w).

Lemma follows_all w : follows (fun tr => andThen (preStartStages w tr) (runStages w)) (startPlan w).
Proof.
  assert (H1 : exists p, follows (preStartStages w) p /\ exists q, follows (runStages w) q /\ (p ++ q)%list = startPlan w).
  { eexists. split.
    { unfold preStartStages. repeat (apply follows_andThen || apply follows_adapter_Start || apply follows_adapter_StartNamed). }
    eexists. split.
    { unfold runStages. repeat (apply follows_andThen || apply follows_adapter_Start || apply follows_adapter_StartNamed). }
    unfold startPlan, stageEvents. rewrite !map_app, <- !app_assoc. done. }
  destruct H1 as (p & Hp & q & Hq & <-). by apply follows_andThen.
Qed.

(** ** Stages of one part *)

Definition stagesOf (c : component) (tr : list boxEvent) : list StartStage :=
  omap (fun e => match e with
                 | ComponentStarted c' stage => if decide (c' = c) then Some stage else None
                 | _ => None end) tr.
(** What a complete start does to a part. *)
Definition componentStages (w : World) (c : component) : list StartStage :=
  match c with
  | C_httpClient => [StartStateStart]
  | C_internal i => if (i <? w_internal w)%nat then ListStartStages else []
  | _ => ListStartStages
  end.

Lemma stagesOf_app c tr tr' : stagesOf c (tr ++ tr') = (stagesOf c tr ++ stagesOf c tr')%list.
Proof. apply omap_app. Qed.
Lemma elem_of_stagesOf c stage tr : stage ∈ stagesOf c tr <-> ComponentStarted c stage ∈ tr.
Proof.
  unfold stagesOf. rewrite list_elem_of_omap. split.
  - intros (e & He & Hs). destruct e; try done. case_decide; congruence.
  - intros He. exists (ComponentStarted c stage). split; [done|]. by rewrite decide_True.
Qed.
Lemma stageEvents_app stage l l' : stageEvents stage (l ++ l') = (stageEvents stage l ++ stageEvents stage l')%list.
Proof. apply map_app. Qed.
Lemma stagesOf_internal w c stage :
  stagesOf c (stageEvents stage (internalService w))
  = match c with C_internal i => if (i <? w_internal w)%nat then [stage] else [] | _ => [] end.
Proof.
  unfold internalService. assert (H : forall n k, stagesOf c (stageEvents stage (map C_internal (seq k n)))
    = match c with C_internal i => if (k <=? i)%nat && (i <? k + n)%nat then [stage] else [] | _ => [] end).
  { induction n as [|n IH]; intros k.
    - destruct c; try done. by destruct (Nat.leb_spec k i), (Nat.ltb_spec i (k + 0)); try lia.
    - cbn [seq map stageEvents]. fold (stageEvents stage (map C_internal (seq (S k) n))).
      change (?e :: ?l) with ([e] ++ l)%list at 1. rewrite stagesOf_app, IH. destruct c; try done. cbn [stagesOf omap list_omap].
      destruct (decide (C_internal k = C_internal i)) as [[= ->]|Hne].
      + rewrite Nat.leb_refl. destruct (Nat.leb_spec (S i) i), (Nat.ltb_spec i (i + S n)); try lia. done.
      + assert (k <> i) by congruence.
        destruct (Nat.leb_spec (S k) i), (Nat.leb_spec k i), (Nat.ltb_spec i (S k + n)), (Nat.ltb_spec i (k + S n));
          try lia; done. }
  rewrite H. by destruct c.
Qed.
Lemma stagesOf_plan w c : stagesOf c (startPlan w) = componentStages w c.
Proof.
  unfold startPlan. rewrite !stageEvents_app, !stagesOf_app.
  rewrite !stagesOf_internal. destruct c; try reflexivity. cbn [componentStages]. by destruct (i <? w_internal w)%nat.
Qed.

(** ** Stages of the whole *)

Definition eventStage (e : boxEvent) : Z := match e with ComponentStarted _ stage => stageNumber stage | _ => 0 end.
(** Whatever is cut off a plan is of no earlier stage than what is left. *)
Definition staged (plan : list boxEvent) : Prop :=
  forall before rest, plan = (before ++ rest)%list ->
  forall e e', e ∈ before -> e' ∈ rest -> eventStage e <= eventStage e'.

Lemma staged_block stage services plan :
  staged plan -> (forall e, e ∈ plan -> stageNumber stage <= eventStage e) ->
  staged (stageEvents stage services ++ plan).
Proof.
  intros Hp Hle. induction services as [|c services IH]; [done|].
  intros [|e0 before] rest Heq e e' He He'; [by apply elem_of_nil in He|]. injection Heq as <- Heq.
  apply elem_of_cons in He as [->|He]; [|by eapply IH]. cbn.
  assert (Hin : e' ∈ (stageEvents stage services ++ plan)%list) by (rewrite Heq; apply elem_of_app; by right).
  apply elem_of_app in Hin as [Hin|Hin]; [|by apply Hle].
  apply list_elem_of_fmap in Hin as (c' & -> & _). done.
Qed.
Lemma elem_of_stageEvents stage services e : e ∈ stageEvents stage services -> eventStage e = stageNumber stage.
Proof. by intros (c & -> & _)%list_elem_of_fmap. Qed.
Lemma staged_plan w : staged (startPlan w).
Proof.
  unfold startPlan. rewrite <- (app_nil_r (stageEvents StartStateStarted _)).
  repeat apply staged_block; [by intros [|] rest Hnil e e' He; [apply elem_of_nil in He|]|..].
  all: intros e He; repeat (apply elem_of_app in He as [He|He]);
    (apply elem_of_nil in He || (rewrite (elem_of_stageEvents _ _ _ He); cbn; lia)); done.
Qed.

Lemma cut_after {A} (p q before rest : list A) e :
  (p ++ e :: q)%list = (before ++ rest)%list -> e ∉ p -> e ∈ before -> forall x, x ∈ p -> x ∈ before.
Proof.
  intros Heq Hn He x Hx. destruct (app_eq_inv _ _ _ _ Heq) as [(k & Hp & Hk)|(k & Hb & Hk)].
  - destruct Hn. rewrite Hp. apply elem_of_app. by left.
  - rewrite Hb. apply elem_of_app. by left.
Qed.

(** What [start] does before the first part starts. *)
Lemma Box_start_trace w b : exists err b' pre before rest,
  Box_start w b [] = (err, b', (pre ++ before)%list) /\ startPlan w = (before ++ rest)%list
  /\ (err = None -> rest = []) /\ bx_done b' = bx_done b
  /\ forall e, e ∈ pre -> e = LoggerStarted \/ e = DebugServerStarted.
Proof.
  unfold Box_start, Box_preStart. destruct (w_loggerStart w) as [e|].
  { exists (Some (E_Cause e "start logger")), b, [LoggerStarted], [], (startPlan w).
    split_and!; [done..|]. intros e' He'%list_elem_of_singleton. by left. }
  destruct (w_debugServer w) as [server|e].
  2: { exists (Some e), (mkBox false (bx_done b)), [LoggerStarted], [], (startPlan w).
       split_and!; [done..|]. intros e' He'%list_elem_of_singleton. by left. }
  set (pre := if server then _ else _). destruct (follows_all w pre) as (before & rest & Hp & H1 & H2).
  unfold andThen in H1, H2. destruct (preStartStages w pre) as [[e|] tr].
  - cbn in H1. exists (Some e), (mkBox server (bx_done b)), pre, before, rest. rewrite H1. split_and!; try done.
    unfold pre. destruct server; set_solver.
  - destruct (runStages w tr) as [err tr']. cbn in H1, H2.
    exists err, (mkBox server (bx_done b)), pre, before, rest. rewrite H1. split_and!; try done.
    unfold pre. destruct server; set_solver.
Qed.

Lemma stagesOf_pre c (pre : list boxEvent) :
  (forall e, e ∈ pre -> e = LoggerStarted \/ e = DebugServerStarted) -> stagesOf c pre = [].
Proof.
  intros H. destruct (stagesOf c pre) as [|stage l] eqn:E; [done|].
  assert (Hin : stage ∈ stagesOf c pre) by (rewrite E; by left).
  apply elem_of_stagesOf, H in Hin. by destruct Hin.
Qed.

(** The starts that come before those of the inbounds. *)
Lemma inbound_start_late w : exists p q, startPlan w = (p ++ ComponentStarted C_inbound StartStateStart :: q)%list
  /\ ComponentStarted C_inbound StartStateStart ∉ p
  /\ forall c, c <> C_inbound -> c <> C_service -> StartStateStart ∈ componentStages w c ->
     ComponentStarted c StartStateStart ∈ p.
Proof.
  set (p := (stageEvents StartStateInitialize
      (internalService w ++ [C_network; C_dnsTransport; C_dnsRouter; C_connection; C_router; C_outbound; C_inbound;
       C_endpoint; C_service; C_certificateProvider])
    ++ stageEvents StartStateStart
      ([C_outbound; C_dnsTransport; C_network; C_connection; C_httpClient; C_router; C_dnsRouter]
       ++ internalService w ++ [C_endpoint; C_certificateProvider]))%list).
  assert (Hp : forall c, stagesOf c p = match c with
    | C_inbound | C_service => [StartStateInitialize] | C_httpClient => [StartStateStart]
    | C_internal i => if (i <? w_internal w)%nat then [StartStateInitialize; StartStateStart] else []
    | _ => [StartStateInitialize; StartStateStart] end).
  { intros c. unfold p. rewrite !stageEvents_app, !stagesOf_app, !stagesOf_internal.
    destruct c; try reflexivity. by destruct (i <? w_internal w)%nat. }
  exists p. eexists. split_and!.
  - unfold p, startPlan. rewrite !stageEvents_app, <- !app_assoc. reflexivity.
  - rewrite <- elem_of_stagesOf, Hp. by intros He%list_elem_of_singleton.
  - intros c H1 H2 Hs. rewrite <- elem_of_stagesOf, Hp.
    apply list_elem_of_In in Hs. apply list_elem_of_In.
    destruct c; cbn [componentStages] in Hs; try destruct (i <? w_internal w)%nat; cbn in *; intuition congruence.
Qed.

(** C17 Starting an instance, whatever the parts answer and whenever the context
    ends: every part goes through its stages in the order initialize, start,
    post-start, finish-start with none repeated or left out (so that no manager
    panics for being started twice), through all of them if the start succeeds;
    no part enters a stage before every part has entered all of the earlier
    ones; and the inbounds, which let traffic in, are started only after every
    part except the services has been. *)
Theorem box_start_staged (w : World) (b : Box) :
  exists err b' tr, Box_start w b [] = (err, b', tr)
  /\ (forall c, stagesOf c tr `prefix_of` componentStages w c)
  /\ (err = None -> forall c, stagesOf c tr = componentStages w c)
  /\ (forall c stage c' stage', ComponentStarted c stage ∈ tr -> stageNumber stage' < stageNumber stage ->
        stage' ∈ componentStages w c' -> ComponentStarted c' stage' ∈ tr)
  /\ (ComponentStarted C_inbound StartStateStart ∈ tr ->
        forall c, c <> C_inbound -> c <> C_service -> StartStateStart ∈ componentStages w c ->
        ComponentStarted c StartStateStart ∈ tr).
Proof.
  destruct (Box_start_trace w b) as (err & b' & pre & before & rest & Hs & Hp & Hr & _ & Hpre).
  exists err, b', (pre ++ before)%list. split; [done|].
  assert (Hin : forall c stage, ComponentStarted c stage ∈ (pre ++ before)%list <-> ComponentStarted c stage ∈ before).
  { intros c stage. rewrite <- !elem_of_stagesOf, stagesOf_app, (stagesOf_pre c pre Hpre). done. }
  assert (Hst : forall c, stagesOf c (pre ++ before) = stagesOf c before).
  { intros c. by rewrite stagesOf_app, (stagesOf_pre c pre Hpre). }
  assert (Hc : forall c, componentStages w c = (stagesOf c before ++ stagesOf c rest)%list).
  { intros c. by rewrite <- stagesOf_plan, Hp, stagesOf_app. }
  split_and!.
  - intros c. rewrite Hst, Hc. by exists (stagesOf c rest).
  - intros He c. by rewrite Hst, Hc, (Hr He), app_nil_r.
  - intros c stage c' stage' He Hlt Hin'. rewrite Hin in *. rewrite Hc, elem_of_app, !elem_of_stagesOf in Hin'.
    destruct Hin' as [|Hrest]; [done|]. pose proof (staged_plan w _ _ Hp _ _ He Hrest). cbn in *. lia.
  - intros He c Hc1 Hc2 Hc3. rewrite Hin in *. destruct (inbound_start_late w) as (p & q & Hpq & Hn & Hall).
    rewrite Hpq in Hp. eapply cut_after; [exact Hp|done|done|by apply Hall].
Qed.

(** ** Configurations *)

Section config.
Context `{L : Libs}.

(** The tags the objects get. *)
Fixpoint effectiveTags (i : Z) (tags : list string) : list string :=
  match tags with [] => [] | tag :: tags => tagAt i tag :: effectiveTags (i + 1) tags end.

Lemma checkTagList_spec message : forall tags i seen,
  match checkTagList message i tags seen with
  | Ok seen' => NoDup (effectiveTags i tags) /\ (forall t, t ∈ effectiveTags i tags -> t ∉ seen)
      /\ seen' = list_to_set (effectiveTags i tags) ∪ seen
  | Err _ => ~ (NoDup (effectiveTags i tags) /\ forall t, t ∈ effectiveTags i tags -> t ∉ seen)
  end.
Proof.
  induction tags as [|tag tags IH]; intros i seen; cbn.
  { split_and!; [by apply list.NoDup_nil|by intros t Ht%elem_of_nil|set_solver]. }
  case_bool_decide as Hs.
  { intros [_ H]. apply (H (tagAt i tag)); [by left|done]. }
  specialize (IH (i + 1) ({[tagAt i tag]} ∪ seen)).
  destruct (checkTagList _ _ _ _) as [seen'|e]; rewrite list.NoDup_cons.
  - destruct IH as (H1 & H2 & H3). split_and!; [intros Ht; specialize (H2 _ Ht); set_solver|done| |set_solver].
    intros t [->|Ht]%elem_of_cons; [done|]. specialize (H2 t Ht). set_solver.
  - intros [[H1 H2] H3]. apply IH. split; [done|]. intros t Ht. specialize (H3 t). set_solver.
Qed.

Lemma checkOutbounds_spec outbounds endpoints :
  checkOutbounds outbounds endpoints = None
  <-> NoDup (effectiveTags 0 outbounds ++ effectiveTags 0 endpoints).
Proof.
  unfold checkOutbounds. pose proof (checkTagList_spec "duplicate outbound/endpoint tag: " outbounds 0 ∅) as H1.
  rewrite list.NoDup_app. destruct (checkTagList _ 0 outbounds ∅) as [seen|e]; cbn.
  - pose proof (checkTagList_spec "duplicate outbound/endpoint tag: " endpoints 0 seen) as H2.
    destruct H1 as (H1 & _ & ->). destruct (checkTagList _ 0 endpoints _) as [seen'|e].
    + destruct H2 as (H2 & H3 & _). split; [intros _|done]. split_and!; [done| |done].
      intros t Ht Ht'. apply (H3 t Ht'). set_solver.
    + split; [done|]. intros (_ & H3 & H4). destruct H2. split; [done|]. intros t Ht Ht'. apply (H3 t); [set_solver|done].
  - split; [done|]. intros (H2 & _). destruct H1. split; [done|set_solver].
Qed.

(** A registry that makes objects of the tags asked for, each with an identity
    of its own. *)
Record faithfulRegistry (registry : Z -> string -> result Managed) : Prop := {
  fr_tag i tag o : registry i tag = Ok o -> mo_Tag o = tag;
  fr_id i tag o j tag' o' : registry i tag = Ok o -> registry j tag' = Ok o' -> mo_id o = mo_id o' -> i = j }.

(** The creations of a configuration, as a history. *)
Fixpoint creations (registry : Z -> string -> result Managed) (i : Z) (tags : list string) : list managerOp :=
  match tags with
  | [] => []
  | tag :: tags => OpCreate (tagAt i tag) (registry i (tagAt i tag)) :: creations registry (i + 1) tags
  end.

Lemma createOutbounds_steps endpoint registry : forall tags i m m',
  createOutbounds registry i tags m = Ok m' -> outboundSteps endpoint m (creations registry i tags) = Ok m'.
Proof.
  induction tags as [|tag tags IH]; intros i m m'; cbn; [done|].
  destruct (Manager_Create _ _ m) as [[[err m1] events]|e]; cbn; [|done]. destruct err; [done|]. apply IH.
Qed.
Lemma createItems_steps k noun registry : forall tags i m m',
  createItems k noun registry i tags m = Ok m' -> itemSteps k m (creations registry i tags) = Ok m'.
Proof.
  induction tags as [|tag tags IH]; intros i m m'; cbn; [done|].
  destruct (Item_Create k _ _ m) as [[[err m1] events]|e]; cbn; [|done]. destruct err; [done|]. apply IH.
Qed.

Lemma creations_tagged registry : faithfulRegistry registry ->
  forall tags i, Forall opTagged (creations registry i tags).
Proof.
  intros Hr. induction tags as [|tag tags IH]; intros i; cbn; [done|]. constructor; [|apply IH].
  cbn. destruct (registry i (tagAt i tag)) eqn:E; [|done]. by apply (fr_tag _ Hr) in E.
Qed.
Lemma creations_id registry : forall tags i n, n ∈ opIds (creations registry i tags) ->
  exists j tag o, i <= j /\ registry j tag = Ok o /\ mo_id o = n.
Proof.
  induction tags as [|tag tags IH]; intros i n; cbn [creations]; [by intros Hn%elem_of_nil|]. rewrite opIds_cons.
  intros [Hn|Hn]%elem_of_app.
  - cbn in Hn. destruct (registry i (tagAt i tag)) as [o|e] eqn:E; cbn in Hn; [|by apply elem_of_nil in Hn].
    apply list_elem_of_singleton in Hn as ->. exists i, (tagAt i tag), o. split_and!; [lia|done|done].
  - destruct (IH (i + 1) n Hn) as (j & t & o & Hj & H1 & H2). exists j, t, o. split_and!; [lia|done|done].
Qed.
Lemma creations_fresh registry : faithfulRegistry registry ->
  forall tags i, NoDup (opIds (creations registry i tags)).
Proof.
  intros Hr. induction tags as [|tag tags IH]; intros i; cbn [creations]; [by apply list.NoDup_nil|].
  rewrite opIds_cons. cbn. destruct (registry i (tagAt i tag)) as [o|e] eqn:E; cbn; [|apply IH].
  apply list.NoDup_cons. split; [|apply IH]. intros Hn.
  destruct (creations_id _ _ _ _ Hn) as (j & t & o' & Hj & H1 & H2). pose proof (fr_id _ Hr _ _ _ _ _ _ H1 E H2). lia.
Qed.
Lemma creations_tags registry : faithfulRegistry registry ->
  forall tags i op o, op ∈ creations registry i tags -> o ∈ opObject op -> mo_Tag o ∈ effectiveTags i tags.
Proof.
  intros Hr. induction tags as [|tag tags IH]; intros i op o Hop Ho; cbn in *; [by apply elem_of_nil in Hop|].
  apply elem_of_cons in Hop as [->|Hop]; [|right; by eapply IH]. cbn in Ho.
  destruct (registry i (tagAt i tag)) as [o'|e] eqn:E; [|by apply elem_of_nil in Ho].
  apply list_elem_of_singleton in Ho as ->. apply (fr_tag _ Hr) in E as ->. by left.
Qed.

Lemma registrySteps_items : forall ops r o, o ∈ rg_items (foldl registryStep r ops) ->
  o ∈ rg_items r \/ exists op, op ∈ ops /\ o ∈ opObject op.
Proof.
  induction ops as [|op ops IH]; intros r o Ho; cbn in *; [by left|].
  destruct (IH _ _ Ho) as [Ho'|(op' & H1 & H2)].
  - destruct (registryStep_items _ _ _ Ho') as [|Hop]; [by left|]. right. exists op. split; [by left|done].
  - right. exists op'. split; [by right|done].
Qed.

(** The endpoints of a configuration whose tags are different. *)
Lemma createEndpoints_spec registry endpoints em : faithfulRegistry registry ->
  createEndpoints registry 0 endpoints NewItemManager = Ok em ->
  NoDup (map mo_Tag (im_items em)) /\ forall o, o ∈ im_items em -> mo_Tag o ∈ effectiveTags 0 endpoints.
Proof.
  intros Hr He. apply createItems_steps in He.
  pose proof (itemSteps_spec endpointKind _ NewItemManager indexed_empty (creations_tagged _ Hr endpoints 0)
    (creations_fresh _ Hr endpoints 0)) as H. rewrite He in H.
  destruct (stagesInOrder _ _); [|done]. destruct H as (m & [= <-] & Hx & Hi). split; [apply Hx|].
  intros o Ho. change (im_items em) with (rg_items (itemRegistry em)) in Ho. rewrite Hi in Ho.
  apply registrySteps_items in Ho as [Ho|(op & Hop & Ho)]; [by apply elem_of_nil in Ho|]. by eapply creations_tags.
Qed.

Lemma outboundSteps_app endpoint : forall ops ops' m,
  outboundSteps endpoint m (ops ++ ops') = let? m := outboundSteps endpoint m ops in outboundSteps endpoint m ops'.
Proof.
  induction ops as [|op ops IH]; intros ops' m; cbn; [done|]. destruct (outboundStep endpoint m op); cbn; [apply IH|done].
Qed.
Lemma opIds_app ops ops' : opIds (ops ++ ops') = (opIds ops ++ opIds ops')%list.
Proof. unfold opIds. by rewrite map_app, concat_app, map_app. Qed.
Lemma creations_inOrder registry ops : forall tags i,
  stagesInOrder None (creations registry i tags ++ ops) = stagesInOrder None ops.
Proof. induction tags as [|tag tags IH]; intros i; cbn; [done|apply IH]. Qed.

(** The four starts of an instance; only the first asks for a fallback. *)
Definition instanceStarts (fallback : result Managed) : list managerOp :=
  [OpStart StartStateInitialize fallback; OpStart StartStateStart (Err ErrInvalid);
   OpStart StartStatePostStart (Err ErrInvalid); OpStart StartStateStarted (Err ErrInvalid)].

(** C19 The check of tags is exact and enough: it accepts a configuration exactly
    when no two outbounds or endpoints get the same tag (a missing tag is the
    position), and then, if the objects can be created and the fallback outbound
    shares its tag with no endpoint, the outbound manager goes through its four
    stages without a panic: each start returns, with an error or without. *)
Theorem checked_config_starts (registryE registryO : Z -> string -> result Managed) (defaultTag : string)
    (outbounds endpoints : list string) (em : ItemManager) (m : Manager) (fallback : Managed) :
  faithfulRegistry registryE -> faithfulRegistry registryO ->
  (checkOutbounds outbounds endpoints = None
   <-> NoDup (effectiveTags 0 outbounds ++ effectiveTags 0 endpoints))
  /\ (checkOutbounds outbounds endpoints = None ->
      createEndpoints registryE 0 endpoints NewItemManager = Ok em ->
      createOutbounds registryO 0 outbounds (NewManager defaultTag) = Ok m ->
      mo_Tag fallback ∉ effectiveTags 0 endpoints ->
      (forall i tag o, registryO i tag = Ok o -> mo_id o <> mo_id fallback) ->
      exists m', outboundSteps em m (instanceStarts (Ok fallback)) = Ok m').
Proof.
  intros HrE HrO. split; [apply checkOutbounds_spec|].
  intros Hc He Ho Hf Hid. apply checkOutbounds_spec, list.NoDup_app in Hc as (_ & Hdisj & _).
  destruct (createEndpoints_spec _ _ _ HrE He) as [Hnd Htags]. apply (createOutbounds_steps em) in Ho.
  set (ops := (creations registryO 0 outbounds ++ instanceStarts (Ok fallback))%list).
  assert (Hout : forall t, t ∈ effectiveTags 0 endpoints \/ t ∉ map mo_Tag (im_items em)).
  { intros t. destruct (decide (t ∈ map mo_Tag (im_items em))) as [Ht|Ht]; [left|by right].
    apply list_elem_of_fmap in Ht as (o & -> & Ht). by apply Htags. }
  pose proof (outboundSteps_spec em Hnd ops (NewManager defaultTag)) as H.
  change (managerStage (NewManager defaultTag)) with (@None StartStage) in H.
  unfold ops in H at 4. rewrite creations_inOrder in H. cbn [stagesInOrder instanceStarts] in H. cbn in H.
  destruct H as (m' & Hm & _).
  - split; [apply indexed_empty|by intros o Hn%elem_of_nil|done].
  - apply Forall_app. split; [by apply creations_tagged|]. by repeat (apply List.Forall_cons; [done|]); apply List.Forall_nil.
  - apply Forall_app. split.
    + apply List.Forall_forall. intros op Hop%list_elem_of_In o Hoo. destruct (Hout (mo_Tag o)) as [Ht|]; [|done].
      destruct (Hdisj (mo_Tag o)); [|done]. by eapply creations_tags.
    + repeat (apply List.Forall_cons || apply List.Forall_nil); intros o Hoo; try by apply elem_of_nil in Hoo.
      apply list_elem_of_singleton in Hoo as ->. by destruct (Hout (mo_Tag fallback)).
  - cbn. unfold ops. rewrite opIds_app. apply NoDup_snoc_fresh; [by apply creations_fresh|].
    intros Hn. destruct (creations_id _ _ _ _ Hn) as (j & t & o & _ & H1 & H2). by apply (Hid j t o).
  - exists m'. unfold ops in Hm. by rewrite outboundSteps_app, Ho in Hm.
Qed.
End config.
