(* ===== verification/ManagerExamples.v ===== *)
(** * Runs of the managers

    The theorems on managers at concrete configurations, and what the outbound
    manager does in a few corners. *)

From S2P Require Import Prelude.
From S2P Require Import GoText.
From S2P Require Import Libs.
From S2P Require Import Lifecycle.
From S2P Require Import LifecycleTheorems.
From S2P Require Import Managers.
From S2P Require Import OutboundManager.
From S2P Require Import TransportManager.
From S2P Require Import Box.
From S2P Require Import ManagerTheorems.
From S2P Require Import BoxTheorems.
Local Open Scope string_scope.
Local Open Scope Z_scope.

Module ManagerRuns.
#[local] Existing Instance ref_libs.

Definition object (id : nat) (type tag : string) (dependencies : list string) : Managed :=
  mkManaged id type tag dependencies (fun _ => None) None.

(** A selector over a proxy that goes through another. *)
Definition selector := object 1 "selector" "select" ["proxy"; "direct"].
Definition proxy := object 2 "vmess" "proxy" ["direct"].
Definition direct := object 3 "direct" "direct" [].
Definition index : gmap string Managed := <["select" := selector]> (<["proxy" := proxy]> {["direct" := direct]}).


(** Two inbounds, of which one is replaced while the manager runs. *)
Definition history : list managerOp :=
  [OpCreate "in" (Ok (object 1 "mixed" "in" [])); OpCreate "tun" (Ok (object 2 "tun" "tun" []));
   OpStart StartStateInitialize (Err ErrInvalid); OpStart StartStateStart (Err ErrInvalid);
   OpCreate "in" (Ok (object 3 "socks" "in" [])); OpRemove "tun"].
Lemma history_tagged : Forall opTagged history.
Proof. by repeat (apply List.Forall_cons; [done|]); apply List.Forall_nil. Defined.
Lemma history_fresh : NoDup (opIds history).
Proof. apply (bool_decide_unpack (NoDup (opIds history))). vm_compute. exact I. Defined.

Lemma item_managers_refine_witness :
  exists m, itemSteps inboundKind NewItemManager history = Ok m
  /\ map mo_id (im_items m) = [3]%nat /\ option_map mo_id (Item_Get m "in") = Some 3%nat.
Proof.
  destruct (item_managers_refine inboundKind history history_tagged history_fresh) as (m & H1 & H2 & H3).
  exists m. assert (Hi : map mo_id (im_items m) = [3]%nat) by exact (f_equal (fun r => map mo_id (rg_items r)) H2).
  split_and!; [done|done|]. rewrite H3.
  change (im_items m) with (rg_items (itemRegistry m)). rewrite H2. reflexivity.
Defined.

(** ** Outbounds *)

Definition endpointManager (tags : list string) : ItemManager :=
  mkItemManager false StartStateInitialize (map (fun t => object (100 + String.length t) "wireguard" t []) tags)
    (list_to_map (map (fun t => (t, object (100 + String.length t) "wireguard" t [])) tags)).
Definition outboundHistory : list managerOp :=
  [OpCreate "select" (Ok selector); OpCreate "proxy" (Ok proxy); OpCreate "direct" (Ok direct);
   OpStart StartStateInitialize (Err ErrInvalid); OpStart StartStateStart (Err ErrInvalid);
   OpCreate "proxy" (Ok (object 4 "trojan" "proxy" [])); OpRemove "select"].

Lemma outbound_manager_refines_witness :
  exists m, outboundSteps (endpointManager ["wg"]) (NewManager "") outboundHistory = Ok m
  /\ map mo_id (mg_outbounds m) = [3; 4]%nat /\ option_map mo_id (mg_defaultOutbound m) = Some 3%nat.
Proof.
  assert (H0 : NoDup (map mo_Tag (im_items (endpointManager ["wg"])))) by (cbn; apply NoDup_singleton).
  destruct (outbound_manager_refines (endpointManager ["wg"]) H0 "" outboundHistory) as (m & H1 & H2 & _).
  - by repeat (apply List.Forall_cons; [done|]); apply List.Forall_nil.
  - repeat (apply List.Forall_cons || apply List.Forall_nil); intros o Ho; try (by apply elem_of_nil in Ho);
      apply list_elem_of_singleton in Ho as ->; by intros He%list_elem_of_singleton.
  - apply (bool_decide_unpack (NoDup (opIds outboundHistory))). vm_compute. exact I.
  - exists m. split_and!; [done| |].
    + exact (f_equal (fun r => map mo_id (rg_items (or_registry r))) H2).
    + exact (f_equal (fun r => option_map mo_id (or_default r)) H2).
Defined.

(** What is left of a manager. *)
Definition outline (r : result Manager) : result (list nat * option nat) :=
  match r with
  | Ok m => Ok (map mo_id (mg_outbounds m), option_map mo_id (mg_defaultOutbound m))
  | Err e => Err e
  end.

(** Corners of the outbound manager.  An endpoint with the tag of the
    fallback outbound ([direct]) in a configuration without outbounds makes the
    start dereference a nil pointer.  When the default outbound is replaced and
    no default tag is set, the old one, closed, stays the default.  The removal
    of an outbound that others depend on reports an error, and removes it
    without closing it.  After [Close] the index is stale: the removal of an
    outbound panics. *)
Theorem outbound_manager_corners :
  outline (outboundSteps (endpointManager ["direct"]) (NewManager "") (instanceStarts (Ok direct)))
    = Err (GoPanic "invalid memory address or nil pointer dereference")
  /\ outline (outboundSteps (endpointManager []) (NewManager "")
       [OpCreate "proxy" (Ok proxy); OpStart StartStateInitialize (Err ErrInvalid);
        OpCreate "proxy" (Ok (object 4 "trojan" "proxy" []))]) = Ok ([4], Some 2)%nat
  /\ (match Manager_Create "direct" (Ok direct) (NewManager "") with
      | Ok (_, m, _) =>
          match Manager_Create "proxy" (Ok proxy) m with
          | Ok (_, m, _) =>
              match Manager_Remove "direct" m with
              | Ok (err, m, events) => Some (err, map mo_id (mg_outbounds m), events)
              | Err _ => None end
          | Err _ => None end
      | Err _ => None end)
     = Some (Some (E_New "outbound[direct] is depended by proxy"), [2]%nat, [])
  /\ (let? m := outboundSteps (endpointManager []) (NewManager "")
         [OpCreate "direct" (Ok direct); OpStart StartStateInitialize (Err ErrInvalid)] in
      outline (outboundStep (endpointManager []) (fst (Manager_Close m)) (OpRemove "direct")))
     = Err (GoPanic "invalid inbound index").
Proof. split_and!; vm_compute; reflexivity. Qed.

(** ** DNS servers *)

Definition remote := object 1 "https" "remote" [].
Definition local := object 2 "local" "local" [].
Definition servers : TransportManager :=
  mkTransportManager "" true StartStateStarted [remote; local] (<["local" := local]> (<["remote" := remote]> ∅)) ∅
    (Some remote) None.
Lemma servers_indexed : indexed (tm_transports servers) (tm_transportByTag servers).
Proof.
  apply (indexed_add [remote] (<["remote" := remote]> ∅) local); [apply (indexed_add [] ∅ remote)|..];
    [apply indexed_empty|by intros H%elem_of_nil|by intros H%elem_of_nil|by intros H%list_elem_of_singleton..].
Defined.
Lemma remove_default_server_inverted_witness :
  exists err m' events, Transport_Remove "remote" servers = Ok (err, m', events)
  /\ err = Some (E_New "default server cannot be fakeip") /\ events = [].
Proof.
  destruct (remove_default_server_inverted servers remote local [] servers_indexed eq_refl ltac:(by left) eq_refl)
    as (err & m' & events & H1 & _ & _ & _ & H2 & H3).
  by exists err, m', events.
Defined.

(** ** A configuration *)

Definition registry (base : nat) (i : Z) (tag : string) : result Managed := Ok (object (base + Z.to_nat i) "direct" tag []).
Lemma registry_faithful base : faithfulRegistry (fun i tag => if i <? 0 then Err ErrInvalid else registry base i tag).
Proof.
  split.
  - intros i tag o. destruct (i <? 0); [done|]. by intros [= <-].
  - intros i tag o j tag' o'. destruct (Z.ltb_spec i 0), (Z.ltb_spec j 0); try done.
    intros [= <-] [= <-]. cbn. lia.
Defined.
Definition endpoints1 : ItemManager := mkItemManager false StartStateInitialize [object 50 "direct" "wg" []]
  (<["wg" := object 50 "direct" "wg" []]> ∅).
Definition outbounds1 : Manager :=
  let o := object 10 "direct" "0" [] in
  mkManager "" false StartStateInitialize [o] (<["0" := o]> ∅) ∅ (Some o).

Lemma checked_config_starts_witness :
  exists m', outboundSteps endpoints1 outbounds1 (instanceStarts (Ok direct)) = Ok m'.
Proof.
  destruct (checked_config_starts _ _ "" [""] ["wg"] endpoints1 outbounds1 direct (registry_faithful 50) (registry_faithful 10))
    as [_ H]. apply H.
  - reflexivity.
  - reflexivity.
  - reflexivity.
  - by intros He%list_elem_of_singleton.
  - intros i tag o. destruct (i <? 0); [done|]. intros [= <-]. cbn. lia.
Defined.
End ManagerRuns.
