(* ===== verification/Ja3.v ===== *)
(** * Client hello fingerprints: [common/ja3]

    [Compute] parses a TLS record that holds a client hello; the QUIC sniffer
    takes the server name and the client's kind from it.  Indexing and slicing
    out of range is a panic, [Err (GoPanic _)]. *)

From S2P Require Import Prelude.
From S2P Require Import GoText.
From S2P Require Import Bytes.
Local Open Scope string_scope.
Local Open Scope Z_scope.

(** ** Slices of the language *)

Definition len {A} (l : list A) : Z := Z.of_nat (length l).
(** [l[i]] *)
Definition index (l : list Z) (i : Z) : result Z :=
  match l !! Z.to_nat i with
  | Some b => if 0 <=? i then Ok b else Err (GoPanic "index out of range")
  | None => Err (GoPanic "index out of range")
  end.
(** [l[i:]] *)
Definition sliceFrom (l : list Z) (i : Z) : result (list Z) :=
  if (0 <=? i) && (i <=? len l) then Ok (drop (Z.to_nat i) l) else Err (GoPanic "slice bounds out of range").
(** [l[i:j]] within the length *)
Definition slice (l : list Z) (i j : Z) : result (list Z) :=
  if (0 <=? i) && (i <=? j) && (j <=? len l) then Ok (take (Z.to_nat (j - i)) (drop (Z.to_nat i) l))
  else Err (GoPanic "slice bounds out of range").
(** [binary.BigEndian.Uint16] and [uint16(l[i])<<8 | uint16(l[i+1])] *)
Definition uint16At (l : list Z) (i : Z) : result Z :=
  let? a := index l i in let? b := index l (i + 1) in Ok (a * 256 + b).
(** [n] of them in a row. *)
Fixpoint uint16s (n : nat) (l : list Z) : result (list Z) :=
  match n with
  | O => Ok []
  | S n =>
      let? x := uint16At l 0 in let? l := sliceFrom l 2 in let? rest := uint16s n l in Ok (x :: rest)
  end.

(** ** The parser *)

Record ClientHello := mkClientHello {
  ch_Version : Z;
  ch_CipherSuites : list Z;
  ch_Extensions : list Z;
  ch_EllipticCurves : list Z;
  ch_EllipticCurvePF : list Z;
  ch_Versions : list Z;
  ch_SignatureAlgorithms : list Z;
  ch_ServerName : list Z }.

Definition LengthErr (check : Z) : GoError := E_New ("length check " ++ strconv.Itoa check ++ " failed").
Definition ContentTypeErr : GoError := E_New "content type not matching".
Definition VersionErr (check : Z) : GoError := E_New ("version check " ++ strconv.Itoa check ++ " failed").
Definition HandshakeTypeErr : GoError := E_New "handshake type not matching".
Definition SNITypeErr : GoError := E_New "SNI type not supported".

Definition recordLayerHeaderLen : Z := 5.
Definition handshakeHeaderLen : Z := 6.
Definition randomDataLen : Z := 32.
Definition sessionIDHeaderLen : Z := 1.
Definition cipherSuiteHeaderLen : Z := 2.
Definition compressMethodHeaderLen : Z := 1.
Definition extensionsHeaderLen : Z := 2.
Definition extensionHeaderLen : Z := 4.
Definition sniExtensionHeaderLen : Z := 5.
Definition sniExtensionType : Z := 0.
Definition ecExtensionType : Z := 10.
Definition ecpfExtensionType : Z := 11.
Definition signatureAlgorithmsExtensionType : Z := 13.
Definition versionExtensionType : Z := 43.
Definition tlsVersionBitmask : Z := 65532. (* 0xFFFC *)
Definition tls13 : Z := 772. (* 0x0304 *)
Definition tlsVersionOk (v : Z) : bool := (Z.land v tlsVersionBitmask =? 768) || (v =? tls13).

(** The variables of the loop over the extensions. *)
Record helloExtensions := mkHelloExtensions {
  he_sni : list Z; he_extensions : list Z; he_ellipticCurves : list Z; he_ellipticCurvePF : list Z;
  he_versions : list Z; he_signatureAlgorithms : list Z }.

(** The contents of the extensions that are looked into. *)
Definition parseServerName (sex : list Z) : result (list Z) :=
  if len sex <? sniExtensionHeaderLen then Err (LengthErr 13)
  else
    let? sniType := index sex 2 in
    let? sniLen := uint16At sex 3 in
    let? sex := sliceFrom sex sniExtensionHeaderLen in
    if negb (len sex =? sniLen) then Err (LengthErr 14) else if sniType =? 0 then Ok sex else Err SNITypeErr.
Definition parseCurves (sex : list Z) : result (list Z) :=
  if len sex <? 2 then Err (LengthErr 15)
  else
    let? ecsLen := uint16At sex 0 in
    let? sex := sliceFrom sex 2 in
    if negb (len sex =? ecsLen) then Err (LengthErr 16) else uint16s (Z.to_nat (ecsLen / 2)) sex.
Definition parsePointFormats (sex : list Z) : result (list Z) :=
  if len sex <? 1 then Err (LengthErr 17)
  else
    let? ecpfsLen := index sex 0 in
    let? sex := sliceFrom sex 1 in
    if negb (len sex =? ecpfsLen) then Err (LengthErr 18) else Ok sex.
Definition parseVersions (sex : list Z) : result (list Z) :=
  if len sex <? 1 then Err (LengthErr 19)
  else
    let? versionsLen := index sex 0 in
    let? sex := sliceFrom sex 1 in
    uint16s (Z.to_nat ((versionsLen + 1) / 2)) sex.
Definition parseAlgorithms (sex : list Z) : result (list Z) :=
  if len sex <? 2 then Err (LengthErr 20)
  else
    let? ssaLen := uint16At sex 0 in
    let? sex := sliceFrom sex 2 in
    uint16s (Z.to_nat ((ssaLen + 1) / 2)) sex.

(** One extension with its content. *)
Definition parseExtension (exType : Z) (sex : list Z) (a : helloExtensions) : result helloExtensions :=
  if exType =? sniExtensionType then let? l := parseServerName sex in Ok {| a with he_sni := l |}
  else if exType =? ecExtensionType then let? l := parseCurves sex in Ok {| a with he_ellipticCurves := l |}
  else if exType =? ecpfExtensionType then let? l := parsePointFormats sex in Ok {| a with he_ellipticCurvePF := l |}
  else if exType =? versionExtensionType then
    let? l := parseVersions sex in Ok {| a with he_versions := (he_versions a ++ l)%list |}
  else if exType =? signatureAlgorithmsExtensionType then
    let? l := parseAlgorithms sex in Ok {| a with he_signatureAlgorithms := (he_signatureAlgorithms a ++ l)%list |}
  else Ok a.

(** The fuel is the number of bytes, of which every turn takes some; [4+exLen] is an [uint16]. *)
Fixpoint extensionsLoop (fuel : nat) (exs : list Z) (a : helloExtensions) : result helloExtensions :=
  match exs with
  | [] => Ok a
  | _ :: _ =>
      match fuel with
      | O => Err (GoPanic "the loop does not end")
      | S fuel =>
          if len exs <? extensionHeaderLen then Err (LengthErr 11)
          else
            let? exType := uint16At exs 0 in
            let? exLen := uint16At exs 2 in
            let a := {| a with he_extensions := (he_extensions a ++ [exType])%list |} in
            if len exs <? extensionHeaderLen + exLen then Err (LengthErr 12)
            else
              let? sex := slice exs extensionHeaderLen (extensionHeaderLen + exLen) in
              let? a := parseExtension exType sex a in
              let? exs := sliceFrom exs ((4 + exLen) mod 2 ^ 16) in
              extensionsLoop fuel exs a
      end
  end.

Definition parseExtensions (version : Z) (cipherSuites : list Z) (exs : list Z) : result ClientHello :=
  if len exs =? 0 then Ok (mkClientHello version cipherSuites [] [] [] [] [] [])
  else if len exs <? extensionsHeaderLen then Err (LengthErr 9)
  else
    let? exsLen := uint16At exs 0 in
    let? exs := sliceFrom exs extensionsHeaderLen in
    if len exs <? exsLen then Err (LengthErr 10)
    else
      let? a := extensionsLoop (length exs) exs (mkHelloExtensions [] [] [] [] [] []) in
      Ok (mkClientHello version cipherSuites (he_extensions a) (he_ellipticCurves a) (he_ellipticCurvePF a)
            (he_versions a) (he_signatureAlgorithms a) (he_sni a)).

Definition parseHandshake (hs : list Z) : result ClientHello :=
  if len hs <? handshakeHeaderLen + randomDataLen + sessionIDHeaderLen then Err (LengthErr 3)
  else
    let? handshType := index hs 0 in
    if negb (handshType =? 1) then Err HandshakeTypeErr
    else
      let? l1 := index hs 1 in let? l23 := uint16At hs 2 in
      let handshakeLen := l1 * 2 ^ 16 + l23 in
      if negb (len hs - 4 =? handshakeLen) then Err (LengthErr 4)
      else
        let? tlsVersion := uint16At hs 4 in
        if negb (tlsVersionOk tlsVersion) then Err (VersionErr 2)
        else
          let? sessionIDLen := index hs 38 in
          if len hs <? handshakeHeaderLen + randomDataLen + sessionIDHeaderLen + sessionIDLen then Err (LengthErr 5)
          else
            let? cs := sliceFrom hs (handshakeHeaderLen + randomDataLen + sessionIDHeaderLen + sessionIDLen) in
            if len cs <? cipherSuiteHeaderLen then Err (LengthErr 6)
            else
              let? csLen := uint16At cs 0 in
              if len cs <? cipherSuiteHeaderLen + csLen + compressMethodHeaderLen then Err (LengthErr 7)
              else
                let? suites := sliceFrom cs 2 in
                let? cipherSuites := uint16s (Z.to_nat (csLen / 2)) suites in
                let? compressMethodLen := index cs (cipherSuiteHeaderLen + csLen) in
                if len cs <? cipherSuiteHeaderLen + csLen + compressMethodHeaderLen + compressMethodLen then
                  Err (LengthErr 8)
                else
                  let? exs :=
                    sliceFrom cs (cipherSuiteHeaderLen + csLen + compressMethodHeaderLen + compressMethodLen) in
                  parseExtensions tlsVersion cipherSuites exs.

Definition parseSegment (segment : list Z) : result ClientHello :=
  if len segment <? recordLayerHeaderLen then Err (LengthErr 1)
  else
    let? contType := index segment 0 in
    if negb (contType =? 22) then Err ContentTypeErr
    else
      let? tlsRecordVersion := uint16At segment 1 in
      if negb (tlsVersionOk tlsRecordVersion) then Err (VersionErr 1)
      else
        let? segmentLen := uint16At segment 3 in
        if len segment - recordLayerHeaderLen <? segmentLen then Err (LengthErr 2)
        else
          let? hs := slice segment recordLayerHeaderLen (recordLayerHeaderLen + segmentLen) in
          parseHandshake hs.
Definition ja3_Compute (payload : list Z) : result ClientHello := parseSegment payload.

(** ** The fingerprint text *)

Definition GreaseBitmask : Z := 3855. (* 0x0F0F *)
Definition greaseOnly (l : list Z) : list Z := List.filter (fun v => Z.land v GreaseBitmask =? 2570) l.

(** Numbers with a dash after each; the last byte is then overwritten, also when
    no number was written. *)
Definition dashed (l : list Z) : string := foldl (fun s v => s ++ strconv.Itoa v ++ "-") "" l.
Definition endWithComma (s : string) : string := String.substring 0 (String.length s - 1) s ++ ",".
Definition marshalSection (s : string) (l : list Z) : string :=
  match l with [] => s ++ "," | _ => endWithComma (s ++ dashed (greaseOnly l)) end.
Definition marshalJA3 (h : ClientHello) : string :=
  let s := strconv.Itoa (ch_Version h) ++ "," in
  let s := marshalSection s (ch_CipherSuites h) in
  let s := marshalSection s (ch_Extensions h) in
  let s := marshalSection s (ch_EllipticCurves h) in
  match ch_EllipticCurvePF h with
  | [] => s
  | l => let s := s ++ dashed l in String.substring 0 (String.length s - 1) s
  end.
