(* ===== verification/Ja3Theorems.v ===== *)
(** * Theorems on client hello fingerprints

    What a client encodes is what the parser finds; the parser panics for one
    reason only: a list of versions or of signature algorithms whose two byte
    entries, their number rounded up, do not fit the extension. *)

From S2P Require Import Prelude.
From S2P Require Import GoText.
From S2P Require Import Bytes.
From S2P Require Import Ja3.
Local Open Scope string_scope.
Local Open Scope list_scope.
Local Open Scope Z_scope.

(** ** Slices in range *)

Lemma len_app {A} (l l' : list A) : len (l ++ l') = len l + len l'.
Proof. unfold len. rewrite length_app. lia. Qed.
Lemma len_cons {A} (x : A) l : len (x :: l) = 1 + len l.
Proof. unfold len. cbn [length]. lia. Qed.
Lemma len_nil {A} : len (@nil A) = 0.
Proof. done. Qed.
Lemma len_be k n : len (be_bytes k n) = Z.of_nat k.
Proof. unfold len. by rewrite be_bytes_length. Qed.
Lemma len_nonneg {A} (l : list A) : 0 <= len l.
Proof. unfold len. lia. Qed.

Lemma index_app p b r i : i = len p -> index (p ++ b :: r) i = Ok b.
Proof.
  intros ->. unfold index, len. rewrite Nat2Z.id, list_lookup_middle by done.
  by destruct (Z.leb_spec 0 (Z.of_nat (length p))); [|lia].
Qed.
Lemma sliceFrom_app p r i : i = len p -> sliceFrom (p ++ r) i = Ok r.
Proof.
  intros ->. unfold sliceFrom. rewrite len_app. pose proof (len_nonneg p). pose proof (len_nonneg r).
  destruct (Z.leb_spec 0 (len p)), (Z.leb_spec (len p) (len p + len r)); try lia. cbn.
  unfold len. by rewrite Nat2Z.id, drop_app_length.
Qed.
Lemma slice_app p m r i j : i = len p -> j = len p + len m -> slice (p ++ m ++ r) i j = Ok m.
Proof.
  intros -> ->. unfold slice. rewrite !len_app. pose proof (len_nonneg p). pose proof (len_nonneg m).
  pose proof (len_nonneg r). destruct (Z.leb_spec 0 (len p)), (Z.leb_spec (len p) (len p + len m)),
    (Z.leb_spec (len p + len m) (len p + (len m + len r))); try lia. cbn.
  replace (len p + len m - len p) with (len m) by lia. unfold len.
  by rewrite !Nat2Z.id, drop_app_length, take_app_length.
Qed.
Lemma be_bytes_2 x : be_bytes 2 x = [x / 256 mod 256; x mod 256].
Proof. done. Qed.
Lemma uint16At_app p x r i : i = len p -> 0 <= x < 2 ^ 16 -> uint16At (p ++ be_bytes 2 x ++ r) i = Ok x.
Proof.
  intros Hi Hx. rewrite be_bytes_2. unfold uint16At. cbn [app].
  rewrite (index_app p _ _ i Hi). cbn [result_bind].
  rewrite (app_assoc p [x / 256 mod 256] (x mod 256 :: r) : p ++ (x / 256 mod 256) :: (x mod 256) :: r = _).
  rewrite index_app by (rewrite len_app, len_cons, len_nil; lia). cbn [result_bind]. f_equal.
  rewrite (Z.mod_small (x / 256) 256) by (split; [apply Z.div_pos; lia|apply Z.div_lt_upper_bound; lia]).
  pose proof (Z.div_mod x 256). lia.
Qed.
Lemma uint16At_head x r : 0 <= x < 2 ^ 16 -> uint16At (be_bytes 2 x ++ r) 0 = Ok x.
Proof. apply (uint16At_app [] x r 0 eq_refl). Qed.

(** Numbers of two bytes. *)
Definition u16Bytes (l : list Z) : list Z := concat (map (be_bytes 2) l).
Definition u16s (l : list Z) : Prop := Forall (fun x => 0 <= x < 2 ^ 16) l.
Lemma len_u16Bytes l : len (u16Bytes l) = 2 * len l.
Proof. induction l as [|x l IH]; [done|]. cbn [u16Bytes map concat]. fold (u16Bytes l). rewrite len_app, len_be, IH, len_cons. lia. Qed.
Lemma uint16s_app l r : u16s l -> uint16s (length l) (u16Bytes l ++ r) = Ok l.
Proof.
  induction l as [|x l IH]; intros Hl; [done|]. cbn [u16Bytes map concat length uint16s]. fold (u16Bytes l).
  rewrite <- app_assoc. pose proof (Forall_inv Hl) as Hx. cbn beta in Hx.
  rewrite uint16At_head by done. cbn [result_bind].
  rewrite sliceFrom_app by (by rewrite len_be). cbn [result_bind]. by rewrite (IH (Forall_inv_tail Hl)).
Qed.

(** ** What a client sends *)

Inductive helloExtension :=
  | ServerNameExt (name : list Z)
  | CurvesExt (curves : list Z)
  | PointFormatsExt (formats : list Z)
  | VersionsExt (versions : list Z)
  | AlgorithmsExt (algorithms : list Z)
  | OtherExt (type : Z) (body : list Z).
Definition extensionType (e : helloExtension) : Z :=
  match e with
  | ServerNameExt _ => 0 | CurvesExt _ => 10 | PointFormatsExt _ => 11 | AlgorithmsExt _ => 13 | VersionsExt _ => 43
  | OtherExt type _ => type
  end.
Definition extensionBody (e : helloExtension) : list Z :=
  match e with
  | ServerNameExt name => be_bytes 2 (len name + 3) ++ [0] ++ be_bytes 2 (len name) ++ name
  | CurvesExt l | AlgorithmsExt l => be_bytes 2 (2 * len l) ++ u16Bytes l
  | PointFormatsExt l => len l :: l
  | VersionsExt l => 2 * len l :: u16Bytes l
  | OtherExt _ body => body
  end.
Definition extensionBytes (e : helloExtension) : list Z :=
  be_bytes 2 (extensionType e) ++ be_bytes 2 (len (extensionBody e)) ++ extensionBody e.
Definition extensionOk (e : helloExtension) : Prop :=
  match e with
  | ServerNameExt _ => True
  | PointFormatsExt l => len l < 256
  | CurvesExt l | AlgorithmsExt l => u16s l
  | VersionsExt l => u16s l /\ 2 * len l < 256
  | OtherExt type body => 0 <= type < 2 ^ 16 /\ type ∉ [0; 10; 11; 13; 43]
  end.
(** What an extension adds to the fingerprint. *)
Definition addExtension (a : helloExtensions) (e : helloExtension) : helloExtensions :=
  let a := {| a with he_extensions := (he_extensions a ++ [extensionType e])%list |} in
  match e with
  | ServerNameExt name => {| a with he_sni := name |}
  | CurvesExt l => {| a with he_ellipticCurves := l |}
  | PointFormatsExt l => {| a with he_ellipticCurvePF := l |}
  | VersionsExt l => {| a with he_versions := (he_versions a ++ l)%list |}
  | AlgorithmsExt l => {| a with he_signatureAlgorithms := (he_signatureAlgorithms a ++ l)%list |}
  | OtherExt _ _ => a
  end.

Lemma ltb_len n m : n <= m -> (m <? n) = false.
Proof. intros. by apply Z.ltb_ge. Qed.

Lemma parseServerName_ok name :
  len name + 5 < 2 ^ 16 -> parseServerName (extensionBody (ServerNameExt name)) = Ok name.
Proof.
  intros Hlen. cbn [extensionBody]. unfold parseServerName, sniExtensionHeaderLen. pose proof (len_nonneg name).
  rewrite ltb_len by (rewrite !len_app, !len_be, len_cons, len_nil; lia).
  change ([0] ++ ?r) with (0 :: r). rewrite index_app by by rewrite len_be. cbn [result_bind].
  rewrite (app_assoc (be_bytes 2 (len name + 3)) [0] _ : _ ++ 0 :: _ = _).
  rewrite uint16At_app by (rewrite ?len_app, ?len_be, ?len_cons, ?len_nil; lia). cbn [result_bind].
  rewrite (app_assoc _ (be_bytes 2 (len name)) name).
  rewrite sliceFrom_app by (rewrite !len_app, !len_be, len_cons, len_nil; lia). cbn [result_bind].
  by rewrite Z.eqb_refl.
Qed.
Lemma half_len (l : list Z) : Z.to_nat (2 * len l / 2) = length l /\ Z.to_nat ((2 * len l + 1) / 2) = length l.
Proof. unfold len. split; [rewrite Z.mul_comm, Z.div_mul by lia|rewrite Z.mul_comm, Z.div_add_l, Z.add_0_r by lia]; lia. Qed.
Lemma parseCurves_ok l : u16s l -> 2 * len l + 2 < 2 ^ 16 -> parseCurves (extensionBody (CurvesExt l)) = Ok l.
Proof.
  intros Hu Hlen. cbn [extensionBody]. unfold parseCurves. pose proof (len_nonneg l).
  rewrite ltb_len by (rewrite len_app, len_be, len_u16Bytes; lia). rewrite uint16At_head by lia.
  cbn [result_bind]. rewrite sliceFrom_app by by rewrite len_be. cbn [result_bind].
  rewrite len_u16Bytes, Z.eqb_refl, (proj1 (half_len l)). cbn [negb].
  rewrite <- (app_nil_r (u16Bytes l)). by apply uint16s_app.
Qed.
Lemma parseAlgorithms_ok l :
  u16s l -> 2 * len l + 2 < 2 ^ 16 -> parseAlgorithms (extensionBody (AlgorithmsExt l)) = Ok l.
Proof.
  intros Hu Hlen. cbn [extensionBody]. unfold parseAlgorithms. pose proof (len_nonneg l).
  rewrite ltb_len by (rewrite len_app, len_be, len_u16Bytes; lia). rewrite uint16At_head by lia.
  cbn [result_bind]. rewrite sliceFrom_app by by rewrite len_be. cbn [result_bind].
  rewrite (proj2 (half_len l)), <- (app_nil_r (u16Bytes l)). by apply uint16s_app.
Qed.
Lemma parsePointFormats_ok l : parsePointFormats (extensionBody (PointFormatsExt l)) = Ok l.
Proof.
  cbn [extensionBody]. unfold parsePointFormats. pose proof (len_nonneg l). rewrite ltb_len by (rewrite len_cons; lia).
  rewrite (index_app [] (len l) l 0 eq_refl : index (len l :: l) 0 = _). cbn [result_bind].
  rewrite (sliceFrom_app [len l] l 1 eq_refl : sliceFrom (len l :: l) 1 = _). cbn [result_bind]. by rewrite Z.eqb_refl.
Qed.
Lemma parseVersions_ok l : u16s l -> parseVersions (extensionBody (VersionsExt l)) = Ok l.
Proof.
  intros Hu. cbn [extensionBody]. unfold parseVersions. pose proof (len_nonneg (u16Bytes l)).
  rewrite ltb_len by (rewrite len_cons; lia).
  rewrite (index_app [] (2 * len l) (u16Bytes l) 0 eq_refl : index (2 * len l :: _) 0 = _). cbn [result_bind].
  rewrite (sliceFrom_app [2 * len l] (u16Bytes l) 1 eq_refl : sliceFrom (2 * len l :: _) 1 = _). cbn [result_bind].
  rewrite (proj2 (half_len l)), <- (app_nil_r (u16Bytes l)). by apply uint16s_app.
Qed.

Lemma parseExtension_ok e a :
  extensionOk e -> len (extensionBody e) < 2 ^ 16 ->
  parseExtension (extensionType e) (extensionBody e)
    {| a with he_extensions := he_extensions a ++ [extensionType e] |} = Ok (addExtension a e).
Proof.
  intros Hok Hlen. unfold parseExtension. destruct e as [name|l|l|l|l|type body]; cbn [extensionType].
  - rewrite parseServerName_ok; [done|]. cbn [extensionBody] in Hlen.
    rewrite !len_app, !len_be, len_cons, len_nil in Hlen. lia.
  - rewrite parseCurves_ok; [done|done|]. cbn [extensionBody] in Hlen. rewrite len_app, len_be, len_u16Bytes in Hlen. lia.
  - by rewrite parsePointFormats_ok.
  - rewrite parseVersions_ok; [done|apply Hok].
  - rewrite parseAlgorithms_ok; [done|done|]. cbn [extensionBody] in Hlen. rewrite len_app, len_be, len_u16Bytes in Hlen. lia.
  - destruct Hok as [_ Hn]. rewrite !not_elem_of_cons in Hn. destruct Hn as (H1 & H2 & H3 & H4 & H5 & _).
    by rewrite !(proj2 (Z.eqb_neq _ _)).
Qed.

Definition extensionsBytes (exts : list helloExtension) : list Z := concat (map extensionBytes exts).

Lemma extensionsBytes_cons e exts :
  extensionsBytes (e :: exts)
  = be_bytes 2 (extensionType e) ++ be_bytes 2 (len (extensionBody e)) ++ extensionBody e ++ extensionsBytes exts.
Proof. unfold extensionsBytes. cbn [map concat]. unfold extensionBytes at 1. by rewrite <- !app_assoc. Qed.
Lemma extensionType_range e : extensionOk e -> 0 <= extensionType e < 2 ^ 16.
Proof. destruct e; cbn; lia. Qed.

(** An extension with what follows it, and the turn of the loop that takes it;
    no extension of a handshake is long enough for [4+exLen] to wrap around. *)
Definition extensionWith (exType : Z) (sex rest : list Z) : list Z :=
  be_bytes 2 exType ++ be_bytes 2 (len sex) ++ sex ++ rest.
Lemma extensionsLoop_step fuel exType sex rest a :
  0 <= exType < 2 ^ 16 -> len (extensionWith exType sex rest) < 2 ^ 16 ->
  extensionsLoop (S fuel) (extensionWith exType sex rest) a
  = let? a' := parseExtension exType sex {| a with he_extensions := (he_extensions a ++ [exType])%list |} in
    extensionsLoop fuel rest a'.
Proof.
  intros Ht Hlen. unfold extensionWith in *. rewrite !len_app, !len_be in Hlen.
  pose proof (len_nonneg sex). pose proof (len_nonneg rest).
  destruct (be_bytes 2 exType ++ _) as [|b l] eqn:E; [by rewrite be_bytes_2 in E|].
  cbn [extensionsLoop]. rewrite <- !E. clear b l E.
  unfold extensionHeaderLen. rewrite ltb_len by (rewrite !len_app, !len_be; lia).
  rewrite uint16At_head by done. cbn [result_bind].
  rewrite uint16At_app by (rewrite ?len_be; lia). cbn [result_bind].
  rewrite ltb_len by (rewrite !len_app, !len_be; lia).
  rewrite (app_assoc (be_bytes 2 exType)).
  rewrite slice_app by (rewrite len_app, !len_be; lia). cbn [result_bind].
  rewrite Z.mod_small by lia. rewrite (app_assoc _ sex).
  by rewrite sliceFrom_app by (rewrite !len_app, !len_be; lia).
Qed.

Lemma extensionsLoop_ok exts : forall fuel a,
  Forall extensionOk exts -> len (extensionsBytes exts) < 2 ^ 16 -> (length (extensionsBytes exts) <= fuel)%nat ->
  extensionsLoop fuel (extensionsBytes exts) a = Ok (foldl addExtension a exts).
Proof.
  induction exts as [|e exts IH]; intros fuel a Hok Hlen Hfuel; [by destruct fuel|].
  rewrite extensionsBytes_cons in *. fold (extensionWith (extensionType e) (extensionBody e) (extensionsBytes exts)) in *.
  pose proof (extensionType_range e (Forall_inv Hok)) as Ht.
  destruct fuel as [|fuel]; [unfold extensionWith in Hfuel; rewrite length_app, be_bytes_length in Hfuel; lia|].
  rewrite extensionsLoop_step by done. unfold extensionWith in *. rewrite !len_app, !len_be in Hlen.
  rewrite !length_app, !be_bytes_length in Hfuel. pose proof (len_nonneg (extensionBody e)).
  pose proof (len_nonneg (extensionsBytes exts)).
  rewrite (parseExtension_ok e a (Forall_inv Hok)) by lia. cbn [result_bind foldl].
  apply IH; [exact (Forall_inv_tail Hok)|lia|lia].
Qed.

(** A client hello. *)
Record hello := mkHello {
  h_recordVersion : Z; h_version : Z; h_random : list Z; h_sessionID : list Z; h_cipherSuites : list Z;
  h_compression : list Z; h_extensions : list helloExtension }.
Definition helloBody (h : hello) : list Z :=
  be_bytes 2 (h_version h) ++ h_random h ++ [len (h_sessionID h)] ++ h_sessionID h
  ++ be_bytes 2 (2 * len (h_cipherSuites h)) ++ u16Bytes (h_cipherSuites h)
  ++ [len (h_compression h)] ++ h_compression h
  ++ be_bytes 2 (len (extensionsBytes (h_extensions h))) ++ extensionsBytes (h_extensions h).
(** The handshake message and its record, with whatever follows. *)
Definition helloHandshake (h : hello) : list Z := [1] ++ be_bytes 3 (len (helloBody h)) ++ helloBody h.
Definition helloRecord (h : hello) (rest : list Z) : list Z :=
  [22] ++ be_bytes 2 (h_recordVersion h) ++ be_bytes 2 (len (helloHandshake h)) ++ helloHandshake h ++ rest.
Record helloOk (h : hello) : Prop := {
  ho_recordVersion : 0 <= h_recordVersion h < 2 ^ 16 /\ tlsVersionOk (h_recordVersion h) = true;
  ho_version : 0 <= h_version h < 2 ^ 16 /\ tlsVersionOk (h_version h) = true;
  ho_random : len (h_random h) = 32;
  ho_cipherSuites : u16s (h_cipherSuites h);
  ho_extensions : Forall extensionOk (h_extensions h);
  ho_length : len (helloHandshake h) < 2 ^ 16 }.

(** Its fingerprint. *)
Definition helloPrint (h : hello) : ClientHello :=
  let a := foldl addExtension (mkHelloExtensions [] [] [] [] [] []) (h_extensions h) in
  mkClientHello (h_version h) (h_cipherSuites h) (he_extensions a) (he_ellipticCurves a) (he_ellipticCurvePF a)
    (he_versions a) (he_signatureAlgorithms a) (he_sni a).

Lemma be_bytes_3_small n : 0 <= n < 2 ^ 16 -> be_bytes 3 n = 0 :: be_bytes 2 n.
Proof.
  intros Hn. cbn [be_bytes app]. rewrite Z.div_div by lia. change (256 * 256) with (2 ^ 16).
  by rewrite (Z.div_small n (2 ^ 16)).
Qed.

(** ** The frame around the extensions *)

(** A client hello whose extensions are any bytes. *)
Record helloFrame := mkHelloFrame {
  fr_recordVersion : Z; fr_version : Z; fr_random : list Z; fr_sessionID : list Z; fr_suites : list Z;
  fr_compression : list Z; fr_extensionsLen : Z }.
(** What follows the session identifier, the handshake message and its record,
    with whatever follows. *)
Definition frameSuites (f : helloFrame) (exs : list Z) : list Z :=
  be_bytes 2 (len (fr_suites f)) ++ fr_suites f ++ [len (fr_compression f)] ++ fr_compression f
  ++ be_bytes 2 (fr_extensionsLen f) ++ exs.
Definition frameBody (f : helloFrame) (exs : list Z) : list Z :=
  be_bytes 2 (fr_version f) ++ fr_random f ++ [len (fr_sessionID f)] ++ fr_sessionID f ++ frameSuites f exs.
Definition frameHandshake (f : helloFrame) (exs : list Z) : list Z :=
  [1] ++ be_bytes 3 (len (frameBody f exs)) ++ frameBody f exs.
Definition frameRecord (f : helloFrame) (exs rest : list Z) : list Z :=
  [22] ++ be_bytes 2 (fr_recordVersion f) ++ be_bytes 2 (len (frameHandshake f exs)) ++ frameHandshake f exs ++ rest.
Record frameOk (f : helloFrame) (exs : list Z) : Prop := {
  fo_recordVersion : 0 <= fr_recordVersion f < 2 ^ 16 /\ tlsVersionOk (fr_recordVersion f) = true;
  fo_version : 0 <= fr_version f < 2 ^ 16 /\ tlsVersionOk (fr_version f) = true;
  fo_random : len (fr_random f) = 32;
  fo_extensionsLen : 0 <= fr_extensionsLen f <= len exs;
  fo_length : len (frameHandshake f exs) < 2 ^ 16 }.

Lemma frame_lengths f exs : frameOk f exs ->
  len (frameHandshake f exs) = 39 + len (fr_sessionID f) + len (frameSuites f exs)
  /\ len (frameSuites f exs) = 5 + len (fr_suites f) + len (fr_compression f) + len exs.
Proof.
  intros H. pose proof (fo_random _ _ H). unfold frameHandshake, frameBody, frameSuites.
  rewrite !len_app, !len_be, !len_cons, !len_nil. lia.
Qed.
Lemma frameSuites_fields f exs : frameOk f exs ->
  let cs := frameSuites f exs in
  uint16At cs 0 = Ok (len (fr_suites f))
  /\ sliceFrom cs 2 = Ok (fr_suites f ++ [len (fr_compression f)] ++ fr_compression f ++ be_bytes 2 (fr_extensionsLen f) ++ exs)
  /\ index cs (2 + len (fr_suites f)) = Ok (len (fr_compression f))
  /\ sliceFrom cs (2 + len (fr_suites f) + 1 + len (fr_compression f)) = Ok (be_bytes 2 (fr_extensionsLen f) ++ exs).
Proof.
  intros H. destruct (frame_lengths f exs H) as [L1 L2]. pose proof (fo_length _ _ H). pose proof (len_nonneg exs).
  pose proof (len_nonneg (fr_suites f)). pose proof (len_nonneg (fr_compression f)). pose proof (len_nonneg (fr_sessionID f)).
  unfold frameSuites. cbn zeta. split_and!.
  - rewrite uint16At_head; [done|lia].
  - by rewrite sliceFrom_app by by rewrite len_be.
  - rewrite (app_assoc (be_bytes 2 _)). apply index_app. rewrite len_app, len_be. lia.
  - rewrite (app_assoc (be_bytes 2 _)), (app_assoc _ [len (fr_compression f)]), (app_assoc _ (fr_compression f)).
    apply sliceFrom_app. rewrite !len_app, len_be, len_cons, len_nil. lia.
Qed.
Lemma frameHandshake_fields f exs : frameOk f exs ->
  let hs := frameHandshake f exs in
  index hs 0 = Ok 1 /\ index hs 1 = Ok 0 /\ uint16At hs 2 = Ok (len hs - 4) /\ uint16At hs 4 = Ok (fr_version f)
  /\ index hs 38 = Ok (len (fr_sessionID f)) /\ sliceFrom hs (39 + len (fr_sessionID f)) = Ok (frameSuites f exs).
Proof.
  intros H. pose proof (fo_length _ _ H) as Hlen. destruct (frame_lengths f exs H) as [L1 L2].
  unfold frameHandshake in *. set (body := frameBody f exs) in *. pose proof (len_nonneg body).
  assert (L3 : len ([1] ++ be_bytes 3 (len body) ++ body) = 4 + len body) by (rewrite !len_app, !len_be, len_cons, len_nil; lia).
  assert (len body < 2 ^ 16) by lia. rewrite be_bytes_3_small in * by lia. set (cs := frameSuites f exs) in *.
  assert (Hb : body = be_bytes 2 (fr_version f) ++ fr_random f ++ [len (fr_sessionID f)] ++ fr_sessionID f ++ cs) by done.
  pose proof (fo_random _ _ H) as Hr. pose proof (len_nonneg (fr_sessionID f)).
  set (hs := [1] ++ (0 :: be_bytes 2 (len body)) ++ body) in *. cbn zeta.
  split_and!; [done|done|replace (len hs - 4) with (len body) by lia; apply (uint16At_app [1; 0]); [done|lia]|..].
  - unfold hs. rewrite Hb at 2. apply (uint16At_app ([1] ++ 0 :: be_bytes 2 (len body))); [done|apply H].
  - replace hs with (([1] ++ (0 :: be_bytes 2 (len body)) ++ be_bytes 2 (fr_version f) ++ fr_random f)
      ++ len (fr_sessionID f) :: fr_sessionID f ++ cs) by (unfold hs; rewrite Hb at 2; by rewrite <- !app_assoc).
    apply index_app. rewrite !len_app, !len_cons, !len_be, len_nil, Hr. lia.
  - replace hs with (([1] ++ (0 :: be_bytes 2 (len body)) ++ be_bytes 2 (fr_version f) ++ fr_random f
      ++ [len (fr_sessionID f)] ++ fr_sessionID f) ++ cs) by (unfold hs; rewrite Hb at 2; by rewrite <- !app_assoc).
    apply sliceFrom_app. rewrite !len_app, !len_cons, !len_be, !len_nil, Hr. lia.
Qed.

(** The loop over the extensions is all that is left to do. *)
Lemma parse_frame f exs rest : frameOk f exs ->
  ja3_Compute (frameRecord f exs rest)
  = let? cipherSuites := uint16s (Z.to_nat (len (fr_suites f) / 2))
      (fr_suites f ++ [len (fr_compression f)] ++ fr_compression f ++ be_bytes 2 (fr_extensionsLen f) ++ exs) in
    let? a := extensionsLoop (length exs) exs (mkHelloExtensions [] [] [] [] [] []) in
    Ok (mkClientHello (fr_version f) cipherSuites (he_extensions a) (he_ellipticCurves a) (he_ellipticCurvePF a)
          (he_versions a) (he_signatureAlgorithms a) (he_sni a)).
Proof.
  intros H. destruct (frame_lengths f exs H) as [L1 L2]. pose proof (fo_length _ _ H) as Hl.
  destruct (frameSuites_fields f exs H) as (F1 & F2 & F3 & F4). destruct (frameHandshake_fields f exs H) as (E0 & E1 & E2 & E4 & E38 & Ecs).
  cbn zeta in *. pose proof (len_nonneg (fr_sessionID f)). pose proof (len_nonneg (fr_suites f)). pose proof (len_nonneg (fr_compression f)).
  pose proof (len_nonneg exs). pose proof (len_nonneg rest). pose proof (fo_extensionsLen _ _ H) as Hx.
  unfold ja3_Compute, parseSegment, frameRecord, recordLayerHeaderLen. set (hs := frameHandshake f exs) in *.
  set (cs := frameSuites f exs) in *. clearbody hs cs.
  rewrite ltb_len by (rewrite !len_app, !len_be, len_cons, len_nil; lia).
  rewrite (index_app [] 22 _ 0 eq_refl : index ([22] ++ _) 0 = _). cbn [result_bind Z.eqb Pos.eqb negb].
  rewrite uint16At_app by (try done; apply H). cbn [result_bind]. rewrite (proj2 (fo_recordVersion _ _ H)). cbn [negb].
  rewrite (app_assoc [22]). rewrite uint16At_app by (rewrite ?len_app, ?len_be, ?len_cons, ?len_nil; lia).
  cbn [result_bind]. rewrite ltb_len by (rewrite !len_app, !len_be, len_cons, len_nil; lia).
  rewrite (app_assoc ([22] ++ _)). rewrite slice_app by (rewrite !len_app, !len_be, len_cons, len_nil; lia).
  cbn [result_bind]. unfold parseHandshake, handshakeHeaderLen, randomDataLen, sessionIDHeaderLen,
    cipherSuiteHeaderLen, compressMethodHeaderLen.
  rewrite ltb_len, E0 by lia. cbn [result_bind Z.eqb Pos.eqb negb]. rewrite E1, E2. cbn [result_bind].
  replace (len hs - 4 =? 0 * 2 ^ 16 + (len hs - 4)) with true by (symmetry; apply Z.eqb_eq; lia). cbn [negb].
  rewrite E4. cbn [result_bind]. rewrite (proj2 (fo_version _ _ H)). cbn [negb]. rewrite E38. cbn [result_bind].
  rewrite ltb_len by lia. change (6 + 32 + 1) with 39. rewrite Ecs. cbn [result_bind].
  rewrite ltb_len, F1 by lia. cbn [result_bind]. rewrite ltb_len by lia. rewrite F2. cbn [result_bind].
  destruct (uint16s _ _) as [suites|]; [|done]. cbn [result_bind]. rewrite F3. cbn [result_bind]. rewrite ltb_len, F4 by lia.
  cbn [result_bind]. unfold parseExtensions, extensionsHeaderLen. rewrite len_app, len_be.
  destruct (Z.eqb_spec (Z.of_nat 2 + len exs) 0); [lia|]. rewrite ltb_len by lia.
  rewrite uint16At_head by lia. cbn [result_bind]. rewrite sliceFrom_app by by rewrite len_be. cbn [result_bind].
  by rewrite ltb_len by lia.
Qed.

(** The frame of a client hello. *)
Definition frameOf (h : hello) : helloFrame :=
  mkHelloFrame (h_recordVersion h) (h_version h) (h_random h) (h_sessionID h) (u16Bytes (h_cipherSuites h))
    (h_compression h) (len (extensionsBytes (h_extensions h))).
Lemma frameOf_body h : frameBody (frameOf h) (extensionsBytes (h_extensions h)) = helloBody h.
Proof. unfold frameBody, frameSuites, frameOf, helloBody. cbn. by rewrite len_u16Bytes. Qed.
Lemma frameOf_handshake h : frameHandshake (frameOf h) (extensionsBytes (h_extensions h)) = helloHandshake h.
Proof. unfold frameHandshake. by rewrite frameOf_body. Qed.
Lemma frameOf_record h rest : frameRecord (frameOf h) (extensionsBytes (h_extensions h)) rest = helloRecord h rest.
Proof. unfold frameRecord. by rewrite frameOf_handshake. Qed.
Lemma frameOf_ok h : helloOk h -> frameOk (frameOf h) (extensionsBytes (h_extensions h)).
Proof.
  intros [H1 H2 H3 _ _ H6]. split; [done..| |by rewrite frameOf_handshake]. cbn.
  pose proof (len_nonneg (extensionsBytes (h_extensions h))). lia.
Qed.

Lemma ja3_record (h : hello) (rest : list Z) :
  helloOk h -> ja3_Compute (helloRecord h rest) = Ok (helloPrint h).
Proof.
  intros H. pose proof (frameOf_ok h H) as Hf.
  assert (Hx : len (extensionsBytes (h_extensions h)) < 2 ^ 16).
  { destruct (frame_lengths _ _ Hf) as [L1 L2]. pose proof (fo_length _ _ Hf). pose proof (len_nonneg (fr_suites (frameOf h))).
    pose proof (len_nonneg (fr_compression (frameOf h))). pose proof (len_nonneg (fr_sessionID (frameOf h))). lia. }
  rewrite <- frameOf_record, (parse_frame _ _ _ Hf). cbn [frameOf fr_suites].
  rewrite len_u16Bytes, (proj1 (half_len _)), uint16s_app by apply H.
  cbn [result_bind]. by rewrite extensionsLoop_ok; [|apply H|done|lia].
Qed.

(** C33 The parser finds what a client encodes: from the record of any well-formed
    client hello that fits a record, whatever follows it, [Compute] gives the
    version, the cipher suites, the types of the extensions in order, the server
    name and the groups, formats, versions and signature algorithms they carry.
    In particular no length or offset computation wraps around. *)
Theorem ja3_finds_encoded (h : hello) (rest : list Z) :
  helloOk h -> ja3_Compute (helloRecord h rest) = Ok (helloPrint h).
Proof. apply ja3_record. Qed.

(** ** Panics *)

Lemma index_ok l i : bytes_ok l -> 0 <= i < len l -> exists b, index l i = Ok b /\ 0 <= b < 256.
Proof.
  intros Hb Hi. unfold len in Hi. destruct (lookup_lt_is_Some_2 l (Z.to_nat i)) as [b Eb]; [lia|].
  exists b. unfold index. rewrite Eb. destruct (Z.leb_spec 0 i); [|lia]. split; [done|].
  unfold bytes_ok in Hb. rewrite List.Forall_forall in Hb. apply Hb. apply list_elem_of_In. by eapply list_elem_of_lookup_2.
Qed.
Lemma uint16At_ok l i : bytes_ok l -> 0 <= i -> i + 1 < len l -> exists x, uint16At l i = Ok x /\ 0 <= x < 2 ^ 16.
Proof.
  intros Hb Hi Hl. unfold uint16At. destruct (index_ok l i Hb) as (a & -> & Ha); [lia|]. cbn [result_bind].
  destruct (index_ok l (i + 1) Hb) as (b & -> & Hb'); [lia|]. exists (a * 256 + b). split; [done|lia].
Qed.
Lemma sliceFrom_ok l i : bytes_ok l -> 0 <= i <= len l ->
  exists r, sliceFrom l i = Ok r /\ len r = len l - i /\ bytes_ok r /\ suffix r l.
Proof.
  intros Hb Hi. exists (drop (Z.to_nat i) l). unfold sliceFrom, len in *.
  destruct (Z.leb_spec 0 i), (Z.leb_spec i (Z.of_nat (length l))); try lia. split_and!; [done| | |].
  - rewrite length_drop. lia.
  - by apply Forall_drop.
  - exists (take (Z.to_nat i) l). by rewrite take_drop.
Qed.
Lemma slice_ok l i j : bytes_ok l -> 0 <= i <= j -> j <= len l ->
  exists r, slice l i j = Ok r /\ len r = j - i /\ bytes_ok r /\ r = take (Z.to_nat (j - i)) (drop (Z.to_nat i) l).
Proof.
  intros Hb Hi Hj. exists (take (Z.to_nat (j - i)) (drop (Z.to_nat i) l)). unfold slice, len in *.
  destruct (Z.leb_spec 0 i), (Z.leb_spec i j), (Z.leb_spec j (Z.of_nat (length l))); try lia. split_and!; [done| | |].
  - rewrite length_take, length_drop. lia.
  - by apply Forall_take, Forall_drop.
  - done.
Qed.

Definition panics {A} (r : result A) : Prop := exists m, r = Err (GoPanic m).
Lemma uint16s_panics n : forall l, panics (uint16s n l) <-> len l < 2 * Z.of_nat n.
Proof.
  unfold panics. induction n as [|n IH]; intros l; cbn [uint16s].
  { pose proof (len_nonneg l). split; [by intros [m Hm]|lia]. }
  destruct l as [|a [|b l]].
  - cbn. split; [unfold len; cbn; lia|by eexists].
  - cbn. split; [unfold len; cbn; lia|by eexists].
  - change (uint16At (a :: b :: l) 0) with (Ok (a * 256 + b)). cbn [result_bind].
    rewrite (sliceFrom_app [a; b] l 2 eq_refl : sliceFrom (a :: b :: l) 2 = _). cbn [result_bind].
    rewrite !len_cons. specialize (IH l). destruct (uint16s n l) as [r|e]; cbn [result_bind].
    + split; [by intros [m Hm]|]. intros Hl. destruct IH as [_ IH]. destruct IH as [m Hm]; [lia|done].
    + rewrite IH. lia.
Qed.

(** The entries of a list, two bytes each, their number rounded up, do not fit in
    the extension: the list claims to be longer than it is, or has an odd length
    and nothing behind it. *)
Definition overlong (exType : Z) (sex : list Z) : Prop :=
  match sex with
  | n :: l => exType = 43 /\ len l < 2 * ((n + 1) / 2)
      \/ exType = 13 /\ exists b l', l = b :: l' /\ len l' < 2 * ((n * 256 + b + 1) / 2)
  | [] => False
  end.

Ltac no_panic := intros [? ?]; repeat case_match; simplify_eq.

Lemma panics_map {A B} (r : result A) (f : A -> B) : panics (let? x := r in Ok (f x)) <-> panics r.
Proof. unfold panics. destruct r; cbn; split; intros [m Hm]; simplify_eq; by eexists. Qed.

Lemma parseServerName_safe sex : bytes_ok sex -> ~ panics (parseServerName sex).
Proof.
  intros Hb. unfold parseServerName, sniExtensionHeaderLen. destruct (Z.ltb_spec (len sex) 5); [no_panic|].
  destruct (index_ok sex 2 Hb) as (? & -> & _); [lia|]. destruct (uint16At_ok sex 3 Hb) as (? & -> & _); [lia..|].
  destruct (sliceFrom_ok sex 5 Hb) as (? & -> & _); [lia|]. cbn [result_bind]. no_panic.
Qed.
Lemma parseCurves_safe sex : bytes_ok sex -> ~ panics (parseCurves sex).
Proof.
  intros Hb. unfold parseCurves. destruct (Z.ltb_spec (len sex) 2); [no_panic|].
  destruct (uint16At_ok sex 0 Hb) as (n & -> & Hn); [lia..|]. destruct (sliceFrom_ok sex 2 Hb) as (l & -> & _); [lia|].
  cbn [result_bind]. destruct (Z.eqb_spec (len l) n) as [He|]; cbn [negb]; [|no_panic].
  rewrite uint16s_panics, Z2Nat.id by (apply Z.div_pos; lia). pose proof (Z.mul_div_le n 2). lia.
Qed.
Lemma parsePointFormats_safe sex : bytes_ok sex -> ~ panics (parsePointFormats sex).
Proof.
  intros Hb. unfold parsePointFormats. destruct (Z.ltb_spec (len sex) 1); [no_panic|].
  destruct (index_ok sex 0 Hb) as (n & -> & _); [lia|]. destruct (sliceFrom_ok sex 1 Hb) as (l & -> & _); [lia|].
  cbn [result_bind]. no_panic.
Qed.
Lemma parseVersions_panics sex : bytes_ok sex -> panics (parseVersions sex) <-> overlong 43 sex.
Proof.
  intros Hb. unfold parseVersions. destruct sex as [|n l]; [split; [no_panic|done]|]. pose proof (len_nonneg l).
  rewrite ltb_len by (rewrite len_cons; lia). change (index (n :: l) 0) with (Ok n). cbn [result_bind].
  rewrite (sliceFrom_app [n] l 1 eq_refl : sliceFrom (n :: l) 1 = _). cbn [result_bind].
  pose proof (Forall_inv Hb) as Hn. unfold is_byte in Hn.
  rewrite uint16s_panics, Z2Nat.id by (apply Z.div_pos; lia). cbn. naive_solver.
Qed.
Lemma parseAlgorithms_panics sex : bytes_ok sex -> panics (parseAlgorithms sex) <-> overlong 13 sex.
Proof.
  intros Hb. unfold parseAlgorithms. destruct sex as [|n [|b l]];
    [split; [no_panic|done]|split; [no_panic|cbn; naive_solver]|]. pose proof (len_nonneg l).
  rewrite ltb_len by (rewrite !len_cons; lia). change (uint16At (n :: b :: l) 0) with (Ok (n * 256 + b)). cbn [result_bind].
  rewrite (sliceFrom_app [n; b] l 2 eq_refl : sliceFrom (n :: b :: l) 2 = _). cbn [result_bind].
  pose proof (Forall_inv Hb) as Hn. pose proof (Forall_inv (Forall_inv_tail Hb)) as Hb'. unfold is_byte in Hn, Hb'.
  rewrite uint16s_panics, Z2Nat.id by (apply Z.div_pos; lia). cbn [overlong]. naive_solver.
Qed.

Lemma parseExtension_panics exType sex a :
  bytes_ok sex -> panics (parseExtension exType sex a) -> overlong exType sex.
Proof.
  intros Hb. unfold parseExtension.
  destruct (exType =? sniExtensionType). { rewrite panics_map. by intros H%parseServerName_safe. }
  destruct (exType =? ecExtensionType). { rewrite panics_map. by intros H%parseCurves_safe. }
  destruct (exType =? ecpfExtensionType). { rewrite panics_map. by intros H%parsePointFormats_safe. }
  destruct (Z.eqb_spec exType versionExtensionType) as [->|_]. { rewrite panics_map. by rewrite parseVersions_panics. }
  destruct (Z.eqb_spec exType signatureAlgorithmsExtensionType) as [->|_].
  { rewrite panics_map. by rewrite parseAlgorithms_panics. }
  no_panic.
Qed.

Lemma overlong_panics exType sex a : bytes_ok sex -> overlong exType sex -> panics (parseExtension exType sex a).
Proof.
  intros Hb Ho. assert (Ht : exType = 43 \/ exType = 13) by (destruct sex; naive_solver).
  unfold parseExtension. destruct Ht as [-> | ->]; cbn [Z.eqb Pos.eqb sniExtensionType ecExtensionType
    ecpfExtensionType versionExtensionType signatureAlgorithmsExtensionType]; rewrite panics_map.
  - by apply parseVersions_panics.
  - by apply parseAlgorithms_panics.
Qed.
(** Whether an extension is accepted does not depend on those before it. *)
Lemma parseExtension_any exType sex a a' b :
  parseExtension exType sex a = Ok a' -> exists b', parseExtension exType sex b = Ok b'.
Proof.
  unfold parseExtension. repeat match goal with |- context [if ?c then _ else _] => destruct c end; eauto;
    match goal with |- context [result_bind ?r _] => destruct r end; cbn [result_bind]; by eauto.
Qed.

(** The extensions the parser comes to: the first one, and one after an
    extension that is accepted. *)
Inductive reaches : list Z -> Z -> list Z -> Prop :=
  | reaches_here exType sex rest : 0 <= exType < 2 ^ 16 -> reaches (extensionWith exType sex rest) exType sex
  | reaches_next exType sex rest a a' exType' sex' :
      0 <= exType < 2 ^ 16 -> parseExtension exType sex a = Ok a' -> reaches rest exType' sex' ->
      reaches (extensionWith exType sex rest) exType' sex'.
Definition reachesOverlong (exs : list Z) : Prop := exists exType sex, reaches exs exType sex /\ overlong exType sex.

Lemma uint16At_bytes l i n : bytes_ok l -> 0 <= i -> uint16At l i = Ok n -> take 2 (drop (Z.to_nat i) l) = be_bytes 2 n.
Proof.
  intros Hb Hi. unfold uint16At, index. replace (Z.to_nat (i + 1)) with (S (Z.to_nat i)) by lia.
  destruct (Z.leb_spec 0 i), (Z.leb_spec 0 (i + 1)); try lia.
  destruct (l !! Z.to_nat i) as [x|] eqn:Ex; [|done]. destruct (l !! S (Z.to_nat i)) as [y|] eqn:Ey; [|done].
  intros [= <-]. rewrite (drop_S _ _ _ Ex), (drop_S _ _ _ Ey). cbn [take].
  assert (Hxy : bytes_ok [x; y]).
  { unfold bytes_ok in *. rewrite List.Forall_forall in Hb. repeat constructor; apply Hb, list_elem_of_In;
      by eapply list_elem_of_lookup_2. }
  symmetry. exact (be_bytes_value [x; y] Hxy).
Qed.
(** Whatever the parser reads as an extension is one. *)
Lemma extension_split exs exType exLen : bytes_ok exs -> uint16At exs 0 = Ok exType -> uint16At exs 2 = Ok exLen ->
  0 <= exLen -> 4 + exLen <= len exs ->
  exs = extensionWith exType (take (Z.to_nat exLen) (drop 4 exs)) (drop (Z.to_nat (4 + exLen)) exs)
  /\ len (take (Z.to_nat exLen) (drop 4 exs)) = exLen.
Proof.
  intros Hb H0 H2 Hn Hl. assert (Hd : len (take (Z.to_nat exLen) (drop 4 exs)) = exLen)
    by (unfold len in *; rewrite length_take, length_drop; lia). split; [|done].
  unfold extensionWith. rewrite Hd, <- (uint16At_bytes _ _ _ Hb (Z.le_refl 0) H0), <- (uint16At_bytes _ 2 _ Hb ltac:(lia) H2).
  replace (Z.to_nat (4 + exLen)) with (4 + Z.to_nat exLen)%nat by lia. rewrite <- drop_drop, take_drop.
  change (Z.to_nat 0) with 0%nat. change (Z.to_nat 2) with 2%nat. change 4%nat with (2 + 2)%nat.
  rewrite <- drop_drop, take_drop, drop_0. by rewrite take_drop.
Qed.

Lemma extensionWith_bytes exType sex rest : bytes_ok (extensionWith exType sex rest) -> bytes_ok sex /\ bytes_ok rest.
Proof. unfold extensionWith, bytes_ok. rewrite !Forall_app. tauto. Qed.
Lemma extensionWith_length exType sex rest :
  length (extensionWith exType sex rest) = (4 + length sex + length rest)%nat.
Proof. unfold extensionWith. rewrite !length_app, !be_bytes_length. lia. Qed.

Lemma reached_panics exs exType sex : reaches exs exType sex -> overlong exType sex -> bytes_ok exs -> len exs < 2 ^ 16 ->
  forall fuel a, (length exs <= fuel)%nat -> panics (extensionsLoop fuel exs a).
Proof.
  induction 1 as [exType sex rest Ht|exType sex rest a0 a0' exType' sex' Ht Hok Hr IH]; intros Ho Hb Hl fuel a Hf;
    apply extensionWith_bytes in Hb as [Hbs Hbr]; rewrite extensionWith_length in Hf; (destruct fuel as [|fuel]; [lia|]);
    rewrite (extensionsLoop_step fuel exType sex rest a Ht Hl); set (a1 := {| a with he_extensions := _ |}).
  - destruct (overlong_panics exType sex a1 Hbs Ho) as [m ->]. by eexists.
  - destruct (parseExtension_any _ _ _ _ a1 Hok) as [a2 ->]. cbn [result_bind]. apply IH; try done; [|lia].
    unfold len in *. rewrite extensionWith_length in Hl. lia.
Qed.

Lemma extensionsLoop_panics : forall fuel exs a,
  bytes_ok exs -> len exs < 2 ^ 16 -> (length exs <= fuel)%nat -> panics (extensionsLoop fuel exs a) -> reachesOverlong exs.
Proof.
  induction fuel as [|fuel IH]; intros exs a Hb Hlen Hf; [destruct exs; [no_panic|cbn in Hf; lia]|].
  destruct (decide (exs = [])) as [->|Hne]; [no_panic|].
  destruct (Z.ltb_spec (len exs) 4) as [Hs|Hs].
  { destruct exs; [done|]. cbn [extensionsLoop]. unfold extensionHeaderLen. rewrite (proj2 (Z.ltb_lt _ _) Hs). no_panic. }
  destruct (uint16At_ok exs 0 Hb) as (t & Et & Ht); [lia..|]. destruct (uint16At_ok exs 2 Hb) as (n & En & Hn); [lia..|].
  destruct (Z.ltb_spec (len exs) (4 + n)) as [Hs'|Hs'].
  { destruct exs as [|b exs]; [done|]. cbn [extensionsLoop]. unfold extensionHeaderLen. rewrite (ltb_len _ _ Hs), Et.
    cbn [result_bind]. rewrite En. cbn [result_bind]. rewrite (proj2 (Z.ltb_lt _ _) Hs'). no_panic. }
  destruct (extension_split exs t n Hb Et En) as [E _]; [lia..|]. set (sex := take _ _) in E. set (rest := drop _ exs) in E.
  rewrite E in Hb, Hlen, Hf |- *. clear E. clearbody sex rest. clear -IH Hb Hlen Hf Ht.
  pose proof (extensionWith_bytes _ _ _ Hb) as [Hbs Hbr]. rewrite extensionWith_length in Hf.
  rewrite (extensionsLoop_step fuel t sex rest a Ht Hlen). set (a1 := {| a with he_extensions := _ |}).
  destruct (parseExtension t sex a1) as [a'|e] eqn:Ep; cbn [result_bind].
  - intros Hp. apply IH in Hp as (t' & sex' & Hr & Ho); [|done|unfold len in *; rewrite extensionWith_length in Hlen; lia|lia].
    exists t', sex'. split; [|done]. by eapply reaches_next.
  - intros Hp. exists t, sex. split; [by constructor|]. apply (parseExtension_panics t sex a1 Hbs). by rewrite Ep.
Qed.

(** Where a byte and a number of two bytes are read. *)
Lemma index_split l i b : 0 <= i -> index l i = Ok b -> drop (Z.to_nat i) l = b :: drop (Z.to_nat (i + 1)) l.
Proof.
  intros Hi. unfold index. destruct (Z.leb_spec 0 i); [|lia]. destruct (l !! Z.to_nat i) as [x|] eqn:E; [|done]. intros [= <-].
  replace (Z.to_nat (i + 1)) with (S (Z.to_nat i)) by lia. by apply drop_S.
Qed.
Lemma uint16At_split l i n : bytes_ok l -> 0 <= i -> uint16At l i = Ok n -> drop (Z.to_nat i) l = be_bytes 2 n ++ drop (Z.to_nat (i + 2)) l.
Proof.
  intros Hb Hi H. rewrite <- (uint16At_bytes l i n Hb Hi H). replace (Z.to_nat (i + 2)) with (Z.to_nat i + 2)%nat by lia.
  by rewrite <- drop_drop, take_drop.
Qed.
Lemma take_split (l : list Z) i n : 0 <= i -> 0 <= n -> drop (Z.to_nat i) l = take (Z.to_nat n) (drop (Z.to_nat i) l) ++ drop (Z.to_nat (i + n)) l.
Proof. intros Hi Hn. replace (Z.to_nat (i + n)) with (Z.to_nat i + Z.to_nat n)%nat by lia. by rewrite <- drop_drop, take_drop. Qed.
Lemma len_take_drop (l : list Z) i n : 0 <= i -> 0 <= n -> i + n <= len l -> len (take (Z.to_nat n) (drop (Z.to_nat i) l)) = n.
Proof. unfold len. intros. rewrite length_take, length_drop. lia. Qed.
Lemma sliceFrom_eq l i r : sliceFrom l i = Ok r -> r = drop (Z.to_nat i) l.
Proof. unfold sliceFrom. destruct (_ && _); [|done]. by intros [= <-]. Qed.

(** The beginning of a handshake message. *)
Lemma handshake_head hs l1 l23 : bytes_ok hs -> 39 <= len hs -> index hs 0 = Ok 1 -> index hs 1 = Ok l1 -> uint16At hs 2 = Ok l23 ->
  len hs - 4 = l1 * 2 ^ 16 + l23 -> hs = [1] ++ be_bytes 3 (len hs - 4) ++ drop 4 hs.
Proof.
  intros Hb Hl H0 H1 H2 He. rewrite He. destruct hs as [|b0 [|b1 [|b2 [|b3 t]]]]; try (unfold len in Hl; cbn in Hl; lia).
  injection H0 as ->. injection H1 as ->. injection H2 as <-. cbn [drop app]. f_equal.
  assert (Hb3 : bytes_ok [l1; b2; b3]) by (apply (Forall_take _ 4) in Hb; by inversion_clear Hb).
  pose proof (be_bytes_value _ Hb3) as E. cbn [length] in E.
  replace (be_value [l1; b2; b3]) with (l1 * 2 ^ 16 + (b2 * 256 + b3)) in E by (unfold be_value; cbn [foldl]; lia). by rewrite E.
Qed.

Lemma parseHandshake_panics hs rv : bytes_ok hs -> len hs < 2 ^ 16 -> 0 <= rv < 2 ^ 16 -> tlsVersionOk rv = true ->
  panics (parseHandshake hs) ->
  exists f exs, fr_recordVersion f = rv /\ frameOk f exs /\ hs = frameHandshake f exs /\ reachesOverlong exs.
Proof.
  intros Hb Hlen Hrv Hrvo. unfold parseHandshake, handshakeHeaderLen, randomDataLen, sessionIDHeaderLen, cipherSuiteHeaderLen,
    compressMethodHeaderLen.
  destruct (Z.ltb_spec (len hs) (6 + 32 + 1)); [no_panic|].
  destruct (index_ok hs 0 Hb) as (ty & E0 & _); [lia|]. rewrite E0. cbn [result_bind]. destruct (Z.eqb_spec ty 1) as [->|]; [|no_panic].
  destruct (index_ok hs 1 Hb) as (l1 & E1 & _); [lia|]. destruct (uint16At_ok hs 2 Hb) as (l23 & E2 & _); [lia..|].
  rewrite E1, E2. cbn [result_bind negb]. destruct (Z.eqb_spec (len hs - 4) (l1 * 2 ^ 16 + l23)) as [Eh|]; [|no_panic].
  pose proof (handshake_head hs l1 l23 Hb ltac:(lia) E0 E1 E2 Eh) as Ehead.
  destruct (uint16At_ok hs 4 Hb) as (v & E4 & Hv); [lia..|]. rewrite E4. cbn [result_bind negb].
  destruct (tlsVersionOk v) eqn:Hvo; [|no_panic]. cbn [negb].
  destruct (index_ok hs 38 Hb) as (sid & E38 & Hsid); [lia|]. rewrite E38. cbn [result_bind].
  destruct (Z.ltb_spec (len hs) (6 + 32 + 1 + sid)); [no_panic|].
  destruct (sliceFrom_ok hs (6 + 32 + 1 + sid) Hb) as (cs & Ecs & Hcs & Hbc & _); [lia|]. rewrite Ecs. cbn [result_bind]. apply sliceFrom_eq in Ecs.
  destruct (Z.ltb_spec (len cs) 2); [no_panic|].
  destruct (uint16At_ok cs 0 Hbc) as (csLen & F0 & Hn); [lia..|]. rewrite F0. cbn [result_bind].
  destruct (Z.ltb_spec (len cs) (2 + csLen + 1)); [no_panic|].
  destruct (sliceFrom_ok cs 2 Hbc) as (suites & -> & Hsl & _); [lia|]. cbn [result_bind].
  destruct (uint16s (Z.to_nat (csLen / 2)) suites) as [list|e] eqn:Eu; cbn [result_bind].
  2: { intros [m [= ->]]. exfalso. assert (Hp : panics (uint16s (Z.to_nat (csLen / 2)) suites)) by (rewrite Eu; by eexists).
       apply uint16s_panics in Hp. rewrite Z2Nat.id in Hp by (apply Z.div_pos; lia). pose proof (Z.mul_div_le csLen 2). lia. }
  destruct (index_ok cs (2 + csLen) Hbc) as (cm & F1 & Hcm); [lia|]. rewrite F1. cbn [result_bind].
  destruct (Z.ltb_spec (len cs) (2 + csLen + 1 + cm)); [no_panic|].
  destruct (sliceFrom_ok cs (2 + csLen + 1 + cm) Hbc) as (es & Ees & Hel & Hbe & _); [lia|]. rewrite Ees. cbn [result_bind]. apply sliceFrom_eq in Ees.
  unfold parseExtensions, extensionsHeaderLen. destruct (len es =? 0); [no_panic|].
  destruct (Z.ltb_spec (len es) 2); [no_panic|]. destruct (uint16At_ok es 0 Hbe) as (n & G0 & Hn'); [lia..|]. rewrite G0. cbn [result_bind].
  destruct (sliceFrom_ok es 2 Hbe) as (exs & Eexs & Hxl & Hbx & _); [lia|]. rewrite Eexs. cbn [result_bind]. apply sliceFrom_eq in Eexs.
  destruct (Z.ltb_spec (len exs) n); [no_panic|]. rewrite panics_map. intros Ho%extensionsLoop_panics; [|done|lia|done].
  set (f := mkHelloFrame rv v (take (Z.to_nat 32) (drop (Z.to_nat 6) hs)) (take (Z.to_nat sid) (drop (Z.to_nat 39) hs))
    (take (Z.to_nat csLen) (drop (Z.to_nat 2) cs)) (take (Z.to_nat cm) (drop (Z.to_nat (2 + csLen + 1)) cs)) n).
  assert (L1 : len (fr_random f) = 32) by (apply len_take_drop; lia). assert (L2 : len (fr_sessionID f) = sid) by (apply len_take_drop; lia).
  assert (L3 : len (fr_suites f) = csLen) by (apply len_take_drop; lia). assert (L4 : len (fr_compression f) = cm) by (apply len_take_drop; lia).
  assert (Ec : cs = frameSuites f exs).
  { unfold frameSuites. rewrite L3, L4. change (drop 0 cs = be_bytes 2 csLen ++ fr_suites f ++ [cm] ++ fr_compression f ++ be_bytes 2 n ++ exs).
    change 0%nat with (Z.to_nat 0). rewrite (uint16At_split cs 0 csLen Hbc ltac:(lia) F0). f_equal.
    rewrite (take_split cs (0 + 2) csLen) by lia. f_equal. rewrite (index_split cs (0 + 2 + csLen) cm) by (done || lia). cbn [app]. f_equal.
    rewrite (take_split cs (0 + 2 + csLen + 1) cm) by lia. f_equal. change (0 + 2 + csLen + 1 + cm) with (2 + csLen + 1 + cm). rewrite <- Ees.
    change (drop 0 es = be_bytes 2 n ++ exs). change 0%nat with (Z.to_nat 0). rewrite (uint16At_split es 0 n Hbe ltac:(lia) G0). by rewrite Eexs. }
  assert (Eb : drop 4 hs = frameBody f exs).
  { unfold frameBody. rewrite L2, <- Ec. change 4%nat with (Z.to_nat 4). rewrite (uint16At_split hs 4 v Hb ltac:(lia) E4). f_equal.
    rewrite (take_split hs (4 + 2) 32) by lia. f_equal. rewrite (index_split hs (4 + 2 + 32) sid) by (done || lia). cbn [app]. f_equal.
    rewrite (take_split hs (4 + 2 + 32 + 1) sid) by lia. f_equal. by rewrite Ecs. }
  assert (Ehs : hs = frameHandshake f exs).
  { unfold frameHandshake. rewrite <- Eb. rewrite Ehead at 1. repeat f_equal. unfold len in *. rewrite length_drop. lia. }
  exists f, exs. split_and!; [done| |done|done]. split; [by split|by split|done|cbn; lia|by rewrite <- Ehs].
Qed.

(** The records that make the parser panic: a well-formed client hello up to its
    extensions, and among these an overlong list. *)
Definition crashingRecord (payload : list Z) : Prop :=
  exists f exs rest, payload = frameRecord f exs rest /\ frameOk f exs /\ reachesOverlong exs.

Lemma panics_crashing payload : bytes_ok payload -> panics (ja3_Compute payload) -> crashingRecord payload.
Proof.
  intros Hb. unfold ja3_Compute, parseSegment, recordLayerHeaderLen.
  destruct (Z.ltb_spec (len payload) 5); [no_panic|].
  destruct (index_ok payload 0 Hb) as (ct & E0 & _); [lia|]. rewrite E0. cbn [result_bind]. destruct (Z.eqb_spec ct 22) as [->|]; [|no_panic].
  destruct (uint16At_ok payload 1 Hb) as (rv & E1 & Hrv); [lia..|]. rewrite E1. cbn [result_bind negb].
  destruct (tlsVersionOk rv) eqn:Hrvo; [|no_panic]. cbn [negb].
  destruct (uint16At_ok payload 3 Hb) as (n & En & Hn); [lia..|]. rewrite En. cbn [result_bind].
  destruct (Z.ltb_spec (len payload - 5) n); [no_panic|].
  destruct (slice_ok payload 5 (5 + n) Hb) as (hs & -> & Hl & Hbh & Ehs); [lia..|]. cbn [result_bind].
  intros (f & exs & Hf & Hok & E & Ho)%(fun H => parseHandshake_panics hs rv Hbh ltac:(lia) Hrv Hrvo H).
  exists f, exs, (drop (Z.to_nat (5 + n)) payload). split_and!; [|done|done].
  unfold frameRecord. rewrite <- E, Hf, Hl. replace (5 + n - 5) with n in * by lia.
  change (drop 0 payload = [22] ++ be_bytes 2 rv ++ be_bytes 2 n ++ hs ++ drop (Z.to_nat (5 + n)) payload). change 0%nat with (Z.to_nat 0).
  rewrite (index_split payload 0 22) by (done || lia). cbn [app]. f_equal. rewrite (uint16At_split payload (0 + 1) rv) by (done || lia). f_equal.
  rewrite (uint16At_split payload (0 + 1 + 2) n) by (done || lia). f_equal. rewrite (take_split payload (0 + 1 + 2 + 2) n) by lia. by rewrite Ehs.
Qed.

Lemma uint16s_err n l e : uint16s n l = Err e -> len l < 2 * Z.of_nat n.
Proof.
  revert l e. induction n as [|n IH]; intros l e; cbn [uint16s]; [done|].
  destruct l as [|a [|b l]]; [unfold len; cbn; lia..|].
  change (uint16At (a :: b :: l) 0) with (Ok (a * 256 + b)). cbn [result_bind].
  rewrite (sliceFrom_app [a; b] l 2 eq_refl : sliceFrom (a :: b :: l) 2 = _). cbn [result_bind].
  destruct (uint16s n l) as [r|e'] eqn:E; cbn [result_bind]; [done|]. intros _. apply IH in E. rewrite !len_cons. lia.
Qed.
Lemma frame_panics f exs rest : frameOk f exs -> bytes_ok exs -> panics (ja3_Compute (frameRecord f exs rest)) <-> reachesOverlong exs.
Proof.
  intros H Hb. rewrite (parse_frame _ _ _ H). destruct (frame_lengths _ _ H) as [L1 L2]. pose proof (fo_length _ _ H).
  pose proof (len_nonneg (fr_sessionID f)). pose proof (len_nonneg (fr_suites f)). pose proof (len_nonneg (fr_compression f)).
  destruct (uint16s _ _) as [suites|e] eqn:E; cbn [result_bind].
  - rewrite panics_map. split; [apply extensionsLoop_panics; [done|lia|done]|].
    intros (t & sex & Hr & Ho). apply (reached_panics exs t sex); (done || lia).
  - exfalso. apply uint16s_err in E. rewrite !len_app, len_cons, len_nil, len_be, Z2Nat.id in E by (apply Z.div_pos; lia).
    pose proof (Z.mul_div_le (len (fr_suites f)) 2). pose proof (len_nonneg exs). lia.
Qed.
Lemma compute_panics payload : bytes_ok payload -> panics (ja3_Compute payload) <-> crashingRecord payload.
Proof.
  intros Hb. split; [by apply panics_crashing|]. intros (f & exs & rest & -> & Hf & Ho). apply frame_panics; [done| |done].
  unfold frameRecord, frameHandshake, frameBody, frameSuites, bytes_ok in Hb. rewrite !Forall_app in Hb. apply Hb.
Qed.

(** C34 Where the client hello parser panics, exactly: on a record that holds a
    client hello well formed up to its extensions, whose extensions lead, after
    extensions that the parser accepts, to a supported_versions (43) or a
    signature_algorithms (13) extension whose list does not fit it, the length
    of the list being rounded up to whole two byte entries; so also on a list of
    an odd length that exactly fills its extension. *)
Theorem ja3_panic_cause payload : bytes_ok payload ->
  panics (ja3_Compute payload)
  <-> exists f exs rest, payload = frameRecord f exs rest /\ frameOk f exs
      /\ exists exType sex, reaches exs exType sex /\ overlong exType sex.
Proof. exact (compute_panics payload). Qed.
