(* ===== verification/Quic.v ===== *)
(** * The QUIC sniffer: [common/sniff/quic.go]

    The sniffer removes the protection of an Initial packet, whose keys follow
    from the packet itself, collects the CRYPTO frames, puts the client hello
    together and reads the server name and the client's kind from it.  Hash and
    cipher operations are an argument; a panic is an outcome, and so is a loop
    that does not end. *)

From S2P Require Import Prelude.
From S2P Require Import GoText.
From S2P Require Import Bytes.
From S2P Require Import Metadata.
From S2P Require Import RuleAction.
From S2P Require Import Ja3.
From S2P Require Import Sniff.
Local Open Scope string_scope.
Local Open Scope list_scope.
Local Open Scope Z_scope.

(** ** Variable-length integers: [qtls.ReadUvarint] *)

Definition readByte (reader : list Z) : result (Z * list Z) :=
  match reader with [] => Err ErrEOF | b :: reader => Ok (b, reader) end.
Fixpoint readBytes (n : nat) (acc : Z) (reader : list Z) : result (Z * list Z) :=
  match n with
  | O => Ok (acc, reader)
  | S n => let? '(b, reader) := readByte reader in readBytes n (acc * 256 + b) reader
  end.
Definition qtls_ReadUvarint (reader : list Z) : result (Z * list Z) :=
  let? '(firstByte, reader) := readByte reader in
  let length := Z.shiftl 1 (Z.shiftr (Z.land firstByte 192) 6) in
  readBytes (Z.to_nat (length - 1)) (Z.land firstByte 63) reader.

(** [io.CopyN(io.Discard, reader, n)] *)
Definition discard (n : Z) (reader : list Z) : result (list Z) :=
  if len reader <? n then Err ErrEOF else Ok (drop (Z.to_nat n) reader).

(** ** Keys *)

Definition VersionDraft29 : Z := 4278190109. (* 0xff00001d *)
Definition QUICVersion1 : Z := 1.
Definition QUICVersion2 : Z := 1798521807. (* 0x6b3343cf *)
Definition SaltOld : list Z :=
  [175; 191; 236; 40; 153; 147; 210; 76; 158; 151; 134; 241; 156; 97; 17; 224; 67; 144; 168; 153].
Definition SaltV1 : list Z :=
  [56; 118; 44; 247; 245; 89; 52; 179; 77; 23; 154; 230; 164; 200; 12; 173; 204; 187; 127; 10].
Definition SaltV2 : list Z :=
  [13; 237; 227; 222; 247; 0; 166; 219; 129; 147; 129; 190; 110; 38; 157; 203; 249; 189; 46; 217].

(** Operations of [golang.org/x/crypto/hkdf], [crypto/aes] and [crypto/cipher].
    [gcm_Open] works in place: it gives the plaintext and what is left in the
    rest of the ciphertext's space. *)
Class QUICCrypto := {
  hkdf_Extract : list Z -> list Z -> list Z;
  hkdf_Expand : list Z -> list Z -> Z -> list Z;
  aes_Encrypt : list Z -> list Z -> list Z;
  gcm_Open : list Z -> list Z -> list Z -> list Z -> option (list Z * list Z);
  aes_Encrypt_length key block : len (aes_Encrypt key block) = 16;
  gcm_Open_length key nonce ciphertext ad plaintext rest :
    gcm_Open key nonce ciphertext ad = Some (plaintext, rest) -> len plaintext + len rest = len ciphertext;
  gcm_Open_bytes key nonce ciphertext ad plaintext rest :
    gcm_Open key nonce ciphertext ad = Some (plaintext, rest) -> bytes_ok plaintext /\ bytes_ok rest }.

(** How a call of the sniffer ends. *)
Inductive quicOutcome :=
  | Returned (err : option GoError) (s : Sniffed)
  | Panicked (message : string)
  | Diverges.

Definition ErrOpen : GoError := E_New "cipher: message authentication failed".

Section quic.
Context `{Q : QUICCrypto}.

Definition HKDFExpandLabel (secret context : list Z) (label : string) (length : Z) : list Z :=
  hkdf_Expand secret
    (be_bytes 2 length ++ [(6 + len (string_bytes label)) mod 256] ++ string_bytes "tls13 " ++ string_bytes label
     ++ [len context mod 256] ++ context) length.

Definition byVersion {A} (version : Z) (v2 v1 : A) : A := if version =? QUICVersion2 then v2 else v1.
Definition clientSecret (version : Z) (destConnID : list Z) : list Z :=
  let salt := if version =? QUICVersion1 then SaltV1 else if version =? QUICVersion2 then SaltV2 else SaltOld in
  HKDFExpandLabel (hkdf_Extract destConnID salt) [] "client in" 32.

(** [AEADAESGCMTLS13]: the packet number is mixed into the nonce. *)
Definition xorBytes (a b : list Z) : list Z := zip_with Z.lxor a b.
Definition openPacket (version : Z) (secret : list Z) (packetNumber : Z) (data header : list Z) :
    option (list Z * list Z) :=
  let key := HKDFExpandLabel secret [] (byVersion version "quicv2 key" "quic key") 16 in
  let iv := HKDFExpandLabel secret [] (byVersion version "quicv2 iv" "quic iv") 12 in
  gcm_Open key (take 4 iv ++ xorBytes (drop 4 iv) (be_bytes 8 packetNumber)) data header.

(** ** The packet header *)

Record initialHeader := mkInitialHeader {
  ih_version : Z; ih_destConnID : list Z; ih_hdrLen : Z; ih_packetLen : Z; ih_pnBytes : list Z }.

Definition parseInitialHeader (packet : list Z) : result initialHeader :=
  let reader := packet in
  let? '(typeByte, reader) := readByte reader in
  if Z.land typeByte 64 =? 0 then Err (E_New "bad type byte")
  else
    let? '(versionNumber, reader) := readBE 4 reader in
    if negb ((versionNumber =? VersionDraft29) || (versionNumber =? QUICVersion1) || (versionNumber =? QUICVersion2))
    then Err (E_New "bad version")
    else
      let packetType := Z.shiftr (Z.land typeByte 48) 4 in
      if (packetType =? 0) && (versionNumber =? QUICVersion2)
         || (packetType =? 2) && negb (versionNumber =? QUICVersion2) || (2 <? packetType)
      then Err (E_New "bad packet type")
      else
        let? '(destConnIDLen, reader) := readByte reader in
        if (destConnIDLen =? 0) || (20 <? destConnIDLen) then Err (E_New "bad destination connection id length")
        else
          let? '(destConnID, reader) := ReadFull (Z.to_nat destConnIDLen) reader in
          let? '(srcConnIDLen, reader) := readByte reader in
          let? reader := discard srcConnIDLen reader in
          let? '(tokenLen, reader) := qtls_ReadUvarint reader in
          let? reader := discard tokenLen reader in
          let? '(packetLen, reader) := qtls_ReadUvarint reader in
          let hdrLen := len packet - len reader in
          if len packet <? hdrLen + packetLen then Err ErrInvalid
          else
            let? reader := discard 4 reader in
            let? '(pnBytes, _) := ReadFull 16 reader in
            Ok (mkInitialHeader versionNumber destConnID hdrLen packetLen pnBytes).

(** ** Protection *)

(** [l[i] ^= x] *)
Definition xorAt (l : list Z) (i x : Z) : result (list Z) :=
  let? b := index l i in Ok (<[Z.to_nat i := Z.lxor b x]> l).

(** The packet number of [length] bytes. *)
Definition packetNumberAt (l : list Z) (i length : Z) : result Z :=
  let? bytes := slice l i (i + length) in Ok (be_value bytes).

(** The memory behind the decrypted data, and how much of it was decrypted. *)
Definition removeProtection (packet : list Z) (h : initialHeader) : result (list Z * Z) :=
  let secret := clientSecret (ih_version h) (ih_destConnID h) in
  let hpKey := HKDFExpandLabel secret [] (byVersion (ih_version h) "quicv2 hp" "quic hp") 16 in
  let mask := aes_Encrypt hpKey (ih_pnBytes h) in
  let hdrLen := ih_hdrLen h in
  let? m0 := index mask 0 in
  let? newPacket := xorAt packet 0 (Z.land m0 15) in
  let? m1 := index mask 1 in let? newPacket := xorAt newPacket hdrLen m1 in
  let? m2 := index mask 2 in let? newPacket := xorAt newPacket (hdrLen + 1) m2 in
  let? m3 := index mask 3 in let? newPacket := xorAt newPacket (hdrLen + 2) m3 in
  let? m4 := index mask 4 in let? newPacket := xorAt newPacket (hdrLen + 3) m4 in
  let? first := index newPacket 0 in
  let packetNumberLength := Z.land first 3 + 1 in
  if ih_packetLen h + hdrLen <? hdrLen + packetNumberLength then Err ErrInvalid
  else
    let? packetNumber := packetNumberAt newPacket hdrLen packetNumberLength in
    let extHdrLen := hdrLen + packetNumberLength in
    let? header := slice newPacket 0 extHdrLen in
    let? tail := sliceFrom packet extHdrLen in
    let newPacket := header ++ tail in
    let? data := slice newPacket extHdrLen (ih_packetLen h + hdrLen) in
    match openPacket (ih_version h) secret packetNumber data header with
    | None => Err ErrOpen
    | Some (plaintext, rest) =>
        Ok (plaintext ++ rest ++ drop (Z.to_nat (ih_packetLen h + hdrLen)) newPacket, len plaintext)
    end.

(** ** Frames *)

(** The loop over the ranges of an ACK frame; every turn takes a byte. *)
Fixpoint skipRanges (fuel : nat) (n : Z) (reader : list Z) : result (list Z) :=
  if n <=? 0 then Ok reader
  else
    match fuel with
    | O => Err ErrEOF
    | S fuel =>
        let? '(_, reader) := qtls_ReadUvarint reader in
        let? '(_, reader) := qtls_ReadUvarint reader in
        skipRanges fuel (n - 1) reader
    end.
Definition skipAck (frameType : Z) (reader : list Z) : result (list Z) :=
  let? '(_, reader) := qtls_ReadUvarint reader in
  let? '(_, reader) := qtls_ReadUvarint reader in
  let? '(ackRangeCount, reader) := qtls_ReadUvarint reader in
  let? '(_, reader) := qtls_ReadUvarint reader in
  let? reader := skipRanges (length reader) ackRangeCount reader in
  if frameType =? 3 then
    let? '(_, reader) := qtls_ReadUvarint reader in
    let? '(_, reader) := qtls_ReadUvarint reader in
    let? '(_, reader) := qtls_ReadUvarint reader in Ok reader
  else Ok reader.

(** [reader.Seek]: past the end is allowed. *)
Definition seek (n : Z) (reader : list Z) : list Z := drop (Z.to_nat n) reader.

(** A CRYPTO frame; [memory] is the capacity of [decrypted], of which
    [decryptedLen] bytes count. *)
Definition readCrypto (memory : list Z) (decryptedLen : Z) (reader : list Z) : result (qCryptoFragment * list Z) :=
  let? '(offset, reader) := qtls_ReadUvarint reader in
  let? '(length, reader) := qtls_ReadUvarint reader in
  let i := decryptedLen - len reader in
  let? payload := slice memory i (i + length) in
  Ok (mkFragment offset length payload, seek length reader).
Definition skipClose (reader : list Z) : result (list Z) :=
  let? '(_, reader) := qtls_ReadUvarint reader in
  let? '(_, reader) := qtls_ReadUvarint reader in
  let? '(length, reader) := qtls_ReadUvarint reader in
  Ok (seek length reader).

Fixpoint readFrames (fuel : nat) (memory : list Z) (decryptedLen : Z) (reader : list Z)
    (fragments : list qCryptoFragment) (types : list Z) : result (list qCryptoFragment * list Z) :=
  match fuel, reader with
  | _, [] => Ok (fragments, types)
  | O, _ => Err (GoPanic "the loop does not end")
  | S fuel, frameType :: reader =>
      let types := types ++ [frameType] in
      if (frameType =? 0) || (frameType =? 1) then readFrames fuel memory decryptedLen reader fragments types
      else if (frameType =? 2) || (frameType =? 3) then
        let? reader := skipAck frameType reader in readFrames fuel memory decryptedLen reader fragments types
      else if frameType =? 6 then
        let? '(fragment, reader) := readCrypto memory decryptedLen reader in
        readFrames fuel memory decryptedLen reader (fragments ++ [fragment]) types
      else if frameType =? 28 then
        let? reader := skipClose reader in readFrames fuel memory decryptedLen reader fragments types
      else Err ErrInvalid
  end.

(** ** The client hello *)

(** The loop [find]: the first fragment that starts where the data ends. *)
Fixpoint assemble (fuel : nat) (fragments : list qCryptoFragment) (i : Z) (buffer : list Z) : option (list Z) :=
  match List.find (fun f => qf_offset f =? i) fragments with
  | None => Some buffer
  | Some f =>
      match fuel with
      | O => None
      | S fuel => assemble fuel fragments ((qf_offset f + qf_length f) mod 2 ^ 64) (buffer ++ qf_payload f)
      end
  end.
Definition frameLen (fragments : list qCryptoFragment) : Z :=
  foldl (fun n f => (n + qf_length f) mod 2 ^ 64) 0 fragments.
Definition helloBuffer (fragments : list qCryptoFragment) (data : list Z) : list Z :=
  [22; 3; 3] ++ be_bytes 2 (frameLen fragments) ++ data.

(** ** The client *)

Definition ClientChromium : string := "chromium".
Definition ClientSafari : string := "safari".
Definition ClientFirefox : string := "firefox".
Definition ClientQUICGo : string := "quic-go".
Definition ClientUnknown : string := "unknown".
Definition isZero (slices : list Z) : bool := forallb (fun b => b =? 0) slices.
Definition countByte (slices : list Z) (value : Z) : Z := len (List.filter (fun b => b =? value) slices).
Definition isQUICGo (h : ClientHello) : bool :=
  existsb (Z.eqb 4588) (ch_EllipticCurves h) || existsb (Z.eqb 65281) (ch_Extensions h).
Definition isGrease (l : list Z) (n : Z) : bool :=
  match l with v :: _ => (len l =? n) && (Z.land v GreaseBitmask =? 2570) | [] => false end.
Definition isSafari (h : ClientHello) : bool :=
  isGrease (ch_Versions h) 2 && isGrease (ch_EllipticCurves h) 5
  || bool_decide (ch_CipherSuites h = [4866]) && bool_decide (ch_EllipticCurves h = [29])
     && bool_decide (ch_SignatureAlgorithms h = [1027]).

Definition quicClient (types : list Z) (h : ClientHello) : result string :=
  if len types =? 1 then Ok ClientFirefox
  else
    let? first := index types 0 in
    if (first =? 6) && isZero (tail types) && isSafari h then Ok ClientSafari
    else
      let? final := index types (len types - 1) in
      if (final =? 6) && isZero (removelast types) then Ok ClientQUICGo
      else if (1 <? countByte types 6) || (0 <? countByte types 1) then
        Ok (if isQUICGo h then ClientQUICGo else ClientChromium)
      else Ok ClientUnknown.

Definition outcomeOf (r : result Sniffed) (s : Sniffed) : quicOutcome :=
  match r with Ok s => Returned None s | Err (GoPanic m) => Panicked m | Err e => Returned (Some e) s end.

(** What follows the frames. *)
Definition finishHello (fragments : list qCryptoFragment) (types : list Z) (s : Sniffed) : quicOutcome :=
  let fragments := fragments ++ default [] (sf_SniffContext s) in
  let s := {| s with sf_SniffContext := None |} in
  match assemble (S (length fragments)) fragments 0 [] with
  | None => Diverges
  | Some data =>
      let s := {| s with sf_Protocol := ProtocolQUIC |} in
      match ja3_Compute (helloBuffer fragments data) with
      | Err (GoPanic m) => Panicked m
      | Err err => Returned (Some (needMore err)) {| s with sf_SniffContext := Some fragments |}
      | Ok fingerprint =>
          let s := {| s with sf_Domain := bytes_string (ch_ServerName fingerprint) |} in
          if negb (String.eqb (sf_Client s) "") then Returned None s
          else outcomeOf (let? client := quicClient types fingerprint in Ok {| s with sf_Client := client |}) s
      end
  end.

Definition QUICClientHello_sniff (packet : list Z) (s : Sniffed) : quicOutcome :=
  match (let? h := parseInitialHeader packet in
         let? '(memory, decryptedLen) := removeProtection packet h in
         readFrames (Z.to_nat decryptedLen) memory decryptedLen (take (Z.to_nat decryptedLen) memory) [] []) with
  | Err (GoPanic m) => Panicked m
  | Err e => Returned (Some e) s
  | Ok (fragments, types) => finishHello fragments types s
  end.
End quic.
