(* ===== verification/QuicTheorems.v ===== *)
(** * Theorems on the QUIC sniffer

    A client hello is found in whatever order its pieces arrive; the loop that
    puts them together ends unless a piece is empty; the sniffer panics for two
    reasons only, both in what a client may choose freely. *)

From S2P Require Import Prelude.
From S2P Require Import GoText.
From S2P Require Import Bytes.
From S2P Require Import Metadata.
From S2P Require Import RuleAction.
From S2P Require Import Ja3.
From S2P Require Import Ja3Theorems.
From S2P Require Import Sniff.
From S2P Require Import Quic.
Local Open Scope string_scope.
Local Open Scope list_scope.
Local Open Scope Z_scope.

(** ** Reading integers *)

(** A reader gives a number that is not negative and leaves fewer bytes, or fails
    without a panic. *)
Definition readsWell (r : result (Z * list Z)) (reader : list Z) : Prop :=
  match r with
  | Ok (x, reader') => 0 <= x /\ (length reader' < length reader)%nat /\ bytes_ok reader'
  | Err e => forall m, e <> GoPanic m
  end.

Lemma readBytes_well n : forall acc reader, bytes_ok reader -> 0 <= acc ->
  match readBytes n acc reader with
  | Ok (x, reader') => 0 <= x /\ (length reader' <= length reader)%nat /\ bytes_ok reader'
  | Err e => forall m, e <> GoPanic m
  end.
Proof.
  induction n as [|n IH]; intros acc reader Hb Ha; cbn [readBytes]; [done|].
  destruct reader as [|b reader]; cbn; [done|]. pose proof (Forall_inv Hb) as Hb1. unfold is_byte in Hb1.
  specialize (IH (acc * 256 + b) reader (Forall_inv_tail Hb) ltac:(lia)).
  destruct (readBytes n _ reader) as [[x r]|e]; [|done]. destruct IH as (H1 & H2 & H3). split_and!; [done|lia|done].
Qed.
Lemma readUvarint_well reader : bytes_ok reader -> readsWell (qtls_ReadUvarint reader) reader.
Proof.
  intros Hb. unfold qtls_ReadUvarint, readsWell. destruct reader as [|b reader]; cbn [readByte result_bind]; [done|].
  assert (H0 : 0 <= Z.land b 63) by (apply Z.land_nonneg; right; lia).
  pose proof (readBytes_well (Z.to_nat (Z.shiftl 1 (Z.shiftr (Z.land b 192) 6) - 1)) (Z.land b 63) reader
    (Forall_inv_tail Hb) H0) as H.
  destruct (readBytes _ _ reader) as [[x r]|e]; [|done]. destruct H as (H1 & H2 & H3). cbn. split_and!; [done|lia|done].
Qed.

(** ** Putting the pieces together *)

(** The pieces of a message, in order. *)
Fixpoint pieces (offset : Z) (chunks : list (list Z)) : list qCryptoFragment :=
  match chunks with
  | [] => []
  | c :: chunks => mkFragment offset (len c) c :: pieces (offset + len c) chunks
  end.

Lemma pieces_offset chunks : forall o f, f ∈ pieces o chunks -> o <= qf_offset f.
Proof.
  induction chunks as [|c chunks IH]; intros o f; cbn; [by intros Hf%elem_of_nil|].
  intros [->|Hf]%elem_of_cons; [done|]. apply IH in Hf. pose proof (len_nonneg c). lia.
Qed.
Lemma pieces_sum chunks : forall o, foldr (fun f n => qf_length f + n) 0 (pieces o chunks) = len (concat chunks).
Proof.
  induction chunks as [|c chunks IH]; intros o; cbn; [done|]. by rewrite IH, len_app.
Qed.
Lemma pieces_app a b : forall o, pieces o (a ++ b) = pieces o a ++ pieces (o + len (concat a)) b.
Proof.
  induction a as [|c a IH]; intros o; cbn; [by rewrite Z.add_0_r|]. by rewrite IH, len_app, Z.add_assoc.
Qed.

Lemma nonempty_len (c : list Z) : c <> [] -> 0 < len c.
Proof. destruct c; [done|]. intros _. rewrite len_cons. pose proof (len_nonneg c). lia. Qed.
Lemma pieces_length chunks : forall o, length (pieces o chunks) = length chunks.
Proof. induction chunks as [|c chunks IH]; intros o; cbn; [done|by rewrite IH]. Qed.
Lemma pieces_below chunks : forall o f, Forall (fun c => c <> []) chunks ->
  f ∈ pieces o chunks -> qf_offset f < o + len (concat chunks).
Proof.
  induction chunks as [|c chunks IH]; intros o f Hne; cbn; [by intros Hf%elem_of_nil|]. rewrite len_app.
  pose proof (len_nonneg (concat chunks)). pose proof (nonempty_len _ (Forall_inv Hne)).
  intros [->|Hf]%elem_of_cons; [cbn; lia|]. specialize (IH _ _ (Forall_inv_tail Hne) Hf). lia.
Qed.

(** Among the pieces of nonempty chunks only one starts at an offset. *)
Lemma pieces_unique chunks : forall o f f', Forall (fun c => c <> []) chunks ->
  f ∈ pieces o chunks -> f' ∈ pieces o chunks -> qf_offset f = qf_offset f' -> f = f'.
Proof.
  induction chunks as [|c chunks IH]; intros o f f' Hne; cbn; [by intros Hf%elem_of_nil|].
  assert (Hc : 0 < len c) by (pose proof (Forall_inv Hne); destruct c; [done|rewrite len_cons; pose proof (len_nonneg c); lia]).
  intros [->|Hf]%elem_of_cons [->|Hf']%elem_of_cons He; [done| | |].
  - apply pieces_offset in Hf'. cbn in He. lia.
  - apply pieces_offset in Hf. cbn in He. lia.
  - by eapply IH; [exact (Forall_inv_tail Hne)|..].
Qed.

(** The data is put together up to the first piece that is missing. *)
Lemma assemble_prefix fragments chunks : 
  Forall (fun c => c <> []) chunks -> (forall f, f ∈ fragments -> f ∈ pieces 0 chunks) -> len (concat chunks) < 2 ^ 64 ->
  forall b a fuel, chunks = a ++ b -> (length b < fuel)%nat ->
  exists a' b', chunks = a' ++ b' /\ assemble fuel fragments (len (concat a)) (concat a) = Some (concat a')
    /\ match b' with [] => True | c :: _ => mkFragment (len (concat a')) (len c) c ∉ fragments end.
Proof.
  intros Hne Hsub Hlen. induction b as [|c b IH]; intros a fuel Hc Hfuel.
  - exists a, []. split_and!; [done| |done]. destruct fuel; cbn [assemble]; [cbn in Hfuel; lia|].
    destruct (List.find _ fragments) as [g|] eqn:E; [exfalso|done].
    apply find_some in E as [Hg%list_elem_of_In He%Z.eqb_eq]. apply Hsub in Hg.
    rewrite app_nil_r in Hc. subst a. apply pieces_below in Hg; [lia|done].
  - destruct fuel as [|fuel]; [cbn in Hfuel; lia|]. cbn [assemble].
    set (f := mkFragment (len (concat a)) (len c) c).
    assert (Hf : f ∈ pieces 0 chunks) by (rewrite Hc, pieces_app; apply elem_of_app; right; by left).
    destruct (List.find _ fragments) as [g|] eqn:E.
    + apply find_some in E as [Hg%list_elem_of_In He%Z.eqb_eq].
      assert (g = f) as -> by (by eapply pieces_unique; [exact Hne|apply Hsub|exact Hf|]).
      cbn [qf_offset qf_length qf_payload f]. assert (Hl := Hlen). rewrite Hc, concat_app, len_app in Hl. cbn [concat] in Hl.
      rewrite len_app in Hl. pose proof (len_nonneg (concat a)). pose proof (len_nonneg c). pose proof (len_nonneg (concat b)).
      rewrite Z.mod_small by lia.
      assert (Ha : concat (a ++ [c]) = concat a ++ c) by (rewrite concat_app; cbn [concat]; by rewrite app_nil_r).
      rewrite <- Ha, <- len_app, <- Ha. apply IH; [by rewrite Hc, <- app_assoc|cbn in Hfuel; lia].
    + exists a, (c :: b). split_and!; [done|done|]. intros Hin. apply find_none with (x := f) in E; [|by apply list_elem_of_In].
      by rewrite Z.eqb_refl in E.
Qed.

Lemma assemble_all fragments chunks :
  Forall (fun c => c <> []) chunks -> fragments ≡ₚ pieces 0 chunks -> len (concat chunks) < 2 ^ 64 ->
  assemble (S (length fragments)) fragments 0 [] = Some (concat chunks).
Proof.
  intros Hne Hp Hlen. rewrite Hp at 1. rewrite pieces_length.
  destruct (assemble_prefix fragments chunks Hne (fun f => proj1 (elem_of_Permutation_proper f _ _ Hp)) Hlen chunks []
    (S (length chunks))) as (a' & b' & Hc & He & Hb); [done|lia|]. cbn [concat] in He. rewrite len_nil in He. rewrite He.
  destruct b' as [|c b']; [by rewrite Hc, app_nil_r|]. destruct Hb. rewrite Hp, Hc, pieces_app.
  apply elem_of_app. right. by left.
Qed.

(** ** How long the loop runs *)

Definition startsAt (fragments : list qCryptoFragment) (i : Z) : option qCryptoFragment :=
  List.find (fun f => qf_offset f =? i) fragments.
Definition after (f : qCryptoFragment) : Z := (qf_offset f + qf_length f) mod 2 ^ 64.

(** The loop ends from [i] after this many turns. *)
Inductive ends (fragments : list qCryptoFragment) : nat -> Z -> Prop :=
  | ends_now i : startsAt fragments i = None -> ends fragments 0 i
  | ends_later i f k : startsAt fragments i = Some f -> ends fragments k (after f) -> ends fragments (S k) i.

Lemma ends_unique fragments k i : ends fragments k i -> forall k', ends fragments k' i -> k = k'.
Proof.
  induction 1 as [i H|i f k H _ IH]; intros k' Hk'; inversion Hk' as [? H'|? f' ? H' Hr]; subst; [done|congruence..|].
  rewrite H in H'. injection H' as <-. f_equal. by apply IH.
Qed.
Lemma startsAt_offset fragments i f : startsAt fragments i = Some f -> f ∈ fragments /\ qf_offset f = i.
Proof. intros [Hf He%Z.eqb_eq]%find_some. by rewrite list_elem_of_In. Qed.
(** The fragments it takes, each once. *)
Lemma ends_path fragments k i : ends fragments k i -> exists l, length l = k /\ NoDup l
  /\ (forall f, f ∈ l -> f ∈ fragments /\ exists j, (j <= k)%nat /\ ends fragments j (qf_offset f))
  /\ forall fuel buffer, (k <= fuel)%nat ->
     assemble fuel fragments i buffer = Some (buffer ++ concat (map qf_payload l)).
Proof.
  induction 1 as [i H|i f k H Hr IH].
  - exists []. split_and!; [done|by apply list.NoDup_nil|by intros x Hx%elem_of_nil|].
    intros fuel buffer _. unfold startsAt in H. destruct fuel; cbn [assemble]; by rewrite H, app_nil_r.
  - destruct IH as (l & Hlen & Hnd & Hl & Ha). exists (f :: l). destruct (startsAt_offset _ _ _ H) as [Hf Hi].
    pose proof (ends_later _ _ _ _ H Hr) as Hk. split_and!; [cbn; by rewrite Hlen| | |].
    + apply list.NoDup_cons. split; [|done]. intros Hin. destruct (Hl f Hin) as (_ & j & Hj & He).
      rewrite Hi in He. pose proof (ends_unique _ _ _ Hk _ He). lia.
    + intros x [->|Hx]%elem_of_cons.
      * split; [done|]. exists (S k). by rewrite Hi.
      * destruct (Hl x Hx) as (H1 & j & Hj & He). split; [done|]. exists j. split; [lia|done].
    + intros [|fuel] buffer Hfuel; [lia|]. unfold startsAt in H. cbn [assemble map concat]. rewrite H.
      fold (after f). rewrite Ha by lia. by rewrite app_assoc.
Qed.
Lemma ends_bound fragments k i : ends fragments k i -> (k <= length fragments)%nat.
Proof.
  intros (l & <- & Hnd & Hl & _)%ends_path. apply submseteq_length, NoDup_submseteq; [done|]. intros x Hx. by apply Hl.
Qed.
Lemma assemble_Some fragments fuel : forall i buffer r, assemble fuel fragments i buffer = Some r ->
  exists k, ends fragments k i.
Proof.
  induction fuel as [|fuel IH]; intros i buffer r; cbn [assemble]; destruct (List.find _ fragments) as [f|] eqn:E.
  - done.
  - intros _. exists 0%nat. by constructor.
  - intros [k Hk]%IH. exists (S k). by econstructor.
  - intros _. exists 0%nat. by constructor.
Qed.
(** As many turns as there are fragments are enough. *)
Lemma assemble_enough fragments fuel fuel' i buffer r :
  assemble fuel fragments i buffer = Some r -> (length fragments <= fuel')%nat ->
  assemble fuel' fragments i buffer = Some r.
Proof.
  intros H Hf. destruct (assemble_Some _ _ _ _ _ H) as [k Hk]. destruct (ends_path _ _ _ Hk) as (l & _ & _ & _ & Hd).
  pose proof (ends_bound _ _ _ Hk). rewrite Hd by lia.
  destruct (decide (k <= fuel)%nat); [by rewrite Hd in H|]. exfalso. clear Hd l.
  revert i buffer k Hk H H0 n. induction fuel as [|fuel IH]; intros i buffer k Hk H _ Hn; inversion Hk as [|? f k' E Hr]; subst; try lia.
  - unfold startsAt in E. cbn [assemble] in H. by rewrite E in H.
  - unfold startsAt in E. cbn [assemble] in H. rewrite E in H. eapply (IH _ _ k' Hr H); [|lia]. by eapply ends_bound.
Qed.

(** ** Lengths *)

Definition lengthSum (fragments : list qCryptoFragment) : Z := foldr (fun f n => qf_length f + n) 0 fragments.
Lemma lengthSum_app l l' : lengthSum (l ++ l') = lengthSum l + lengthSum l'.
Proof. unfold lengthSum in *. induction l as [|f l IH]; cbn [foldr app]; lia. Qed.
Lemma lengthSum_perm l l' : l ≡ₚ l' -> lengthSum l = lengthSum l'.
Proof. unfold lengthSum. induction 1; cbn [foldr]; lia. Qed.
Lemma lengthSum_nonneg l : Forall (fun f => 0 <= qf_length f) l -> 0 <= lengthSum l.
Proof.
  unfold lengthSum. induction l as [|f l IH]; intros Hl; cbn [foldr]; [lia|].
  pose proof (Forall_inv Hl) as Hf. cbn beta in Hf. specialize (IH (Forall_inv_tail Hl)). lia.
Qed.
Lemma frameLen_sum fragments : 
  Forall (fun f => 0 <= qf_length f) fragments -> lengthSum fragments < 2 ^ 64 -> frameLen fragments = lengthSum fragments.
Proof.
  intros Hp Hs. unfold frameLen. enough (H : forall l n, Forall (fun f => 0 <= qf_length f) l -> 0 <= n ->
    n + lengthSum l < 2 ^ 64 -> foldl (fun n f => (n + qf_length f) mod 2 ^ 64) n l = n + lengthSum l)
    by (rewrite H; [lia|done|lia|lia]).
  clear. induction l as [|f l IH]; intros n Hl Hn Hb; cbn [foldl lengthSum foldr] in *; [lia|]. fold (lengthSum l) in *.
  pose proof (Forall_inv Hl) as Hf. cbn beta in Hf.
  pose proof (lengthSum_nonneg l (Forall_inv_tail Hl)).
  rewrite Z.mod_small by lia. rewrite IH; [lia|exact (Forall_inv_tail Hl)|lia|lia].
Qed.
Lemma pieces_positive chunks : forall o, Forall (fun c => c <> []) chunks -> Forall (fun f => 0 < qf_length f) (pieces o chunks).
Proof.
  induction chunks as [|c chunks IH]; intros o Hne; cbn; [by apply List.Forall_nil|].
  apply List.Forall_cons; [cbn; apply nonempty_len; exact (Forall_inv Hne)|apply IH; exact (Forall_inv_tail Hne)].
Qed.

(** ** A client hello in pieces *)

Lemma index_prefix l r i : 0 <= i < len l -> index (l ++ r) i = index l i.
Proof. intros Hi. unfold index, len in *. rewrite lookup_app_l by lia. done. Qed.
Lemma uint16At_prefix l r i : 0 <= i -> i + 1 < len l -> uint16At (l ++ r) i = uint16At l i.
Proof. intros Hi Hl. unfold uint16At. by rewrite !index_prefix by lia. Qed.

Lemma parseHandshake_short h hs r :
  len (helloHandshake h) < 2 ^ 16 -> helloHandshake h = hs ++ r -> r <> [] ->
  exists e, parseHandshake hs = Err e /\ forall m, e <> GoPanic m.
Proof.
  intros Hlen Heq Hr. apply nonempty_len in Hr. unfold helloHandshake in *. set (body := helloBody h) in *.
  rewrite !len_app, len_be, len_cons, len_nil in Hlen. pose proof (len_nonneg body).
  rewrite be_bytes_3_small in Heq by lia.
  assert (Hl := f_equal len Heq). rewrite !len_app, !len_cons, len_be, len_nil in Hl.
  unfold parseHandshake, handshakeHeaderLen, randomDataLen, sessionIDHeaderLen.
  destruct (Z.ltb_spec (len hs) (6 + 32 + 1)); [by eexists|].
  assert (E0 : index hs 0 = Ok 1) by (rewrite <- (index_prefix hs r 0), <- Heq by lia; done).
  assert (E1 : index hs 1 = Ok 0) by (rewrite <- (index_prefix hs r 1), <- Heq by lia; done).
  assert (E2 : uint16At hs 2 = Ok (len body)).
  { rewrite <- (uint16At_prefix hs r 2), <- Heq by lia. apply (uint16At_app [1; 0]); [done|lia]. }
  rewrite E0. cbn [result_bind Z.eqb Pos.eqb negb]. rewrite E1, E2. cbn [result_bind].
  destruct (Z.eqb_spec (len hs - 4) (0 * 2 ^ 16 + len body)); [lia|]. by eexists.
Qed.

Lemma compute_short h data r n :
  len (helloHandshake h) < 2 ^ 16 -> helloHandshake h = data ++ r -> 0 <= n < len (helloHandshake h) ->
  exists e, ja3_Compute ([22; 3; 3] ++ be_bytes 2 n ++ data) = Err e /\ forall m, e <> GoPanic m.
Proof.
  intros Hlen Heq Hn. unfold ja3_Compute, parseSegment, recordLayerHeaderLen. pose proof (len_nonneg data).
  rewrite ltb_len by (rewrite !len_app, len_be, !len_cons, len_nil; lia).
  change (index ([22; 3; 3] ++ be_bytes 2 n ++ data) 0) with (Ok 22).
  change (uint16At ([22; 3; 3] ++ be_bytes 2 n ++ data) 1) with (Ok 771). cbn [result_bind Z.eqb Pos.eqb negb].
  change (tlsVersionOk 771) with true. cbn [negb].
  rewrite uint16At_app by (rewrite ?len_cons, ?len_nil; lia). cbn [result_bind].
  destruct (Z.ltb_spec (len ([22; 3; 3] ++ be_bytes 2 n ++ data) - 5) n) as [|Hd]; [by eexists|].
  rewrite !len_app, len_be, !len_cons, len_nil in Hd.
  assert (Ht : data = take (Z.to_nat n) data ++ drop (Z.to_nat n) data) by by rewrite take_drop.
  assert (Htl : len (take (Z.to_nat n) data) = n) by (unfold len in *; rewrite length_take; lia).
  replace ([22; 3; 3] ++ be_bytes 2 n ++ data)
    with (([22; 3; 3] ++ be_bytes 2 n) ++ take (Z.to_nat n) data ++ drop (Z.to_nat n) data)
    by (by rewrite take_drop, <- app_assoc).
  rewrite slice_app by (rewrite ?len_app, ?len_be, ?len_cons, ?len_nil; lia).
  cbn [result_bind]. apply (parseHandshake_short h _ (drop (Z.to_nat n) data ++ r)); [done| |].
  - by rewrite app_assoc, take_drop.
  - intros He. apply (f_equal len) in He. apply (f_equal len) in Heq. rewrite !len_app, len_nil in *.
    apply (f_equal len) in Ht. rewrite len_app in Ht. lia.
Qed.

(** Data received twice count twice in the announced length. *)
Lemma compute_excess data n : len data < n < 2 ^ 16 -> ja3_Compute ([22; 3; 3] ++ be_bytes 2 n ++ data) = Err (LengthErr 2).
Proof.
  intros Hn. unfold ja3_Compute, parseSegment, recordLayerHeaderLen. pose proof (len_nonneg data).
  rewrite ltb_len by (rewrite !len_app, len_be, !len_cons, len_nil; lia).
  change (index ([22; 3; 3] ++ be_bytes 2 n ++ data) 0) with (Ok 22).
  change (uint16At ([22; 3; 3] ++ be_bytes 2 n ++ data) 1) with (Ok 771). cbn [result_bind Z.eqb Pos.eqb negb].
  change (tlsVersionOk 771) with true. cbn [negb].
  rewrite uint16At_app by (rewrite ?len_cons, ?len_nil; lia). cbn [result_bind].
  destruct (Z.ltb_spec (len ([22; 3; 3] ++ be_bytes 2 n ++ data) - 5) n) as [|Hd]; [done|].
  rewrite !len_app, len_be, !len_cons, len_nil in Hd. lia.
Qed.

(** One call of the sniffer per packet, as long as it asks for more. *)
Fixpoint finishAll (batches : list (list qCryptoFragment * list Z)) (s : Sniffed) : quicOutcome :=
  match batches with
  | [] => Returned (Some ErrNeedMoreData) s
  | (fragments, types) :: batches =>
      match finishHello fragments types s with
      | Returned (Some (E_Cause (E_New m) _)) s' =>
          if String.eqb m "need more data" then finishAll batches s' else Returned (Some (E_New m)) s'
      | o => o
      end
  end.

Section hello.
Context (h : hello) (chunks : list (list Z)).
Hypothesis Hok : helloOk h.
Hypothesis Hversion : h_recordVersion h = 771.
Hypothesis Hchunks : concat chunks = helloHandshake h.
Hypothesis Hne : Forall (fun c => c <> []) chunks.

Lemma pieces_total : lengthSum (pieces 0 chunks) = len (helloHandshake h).
Proof. unfold lengthSum. by rewrite pieces_sum, Hchunks. Qed.

Lemma finish_complete fragments types s :
  fragments ++ default [] (sf_SniffContext s) ≡ₚ pieces 0 chunks -> types <> [] ->
  exists s', finishHello fragments types s = Returned None s' /\ sf_Protocol s' = ProtocolQUIC
    /\ sf_Domain s' = bytes_string (ch_ServerName (helloPrint h)) /\ sf_SniffContext s' = None.
Proof.
  intros Hp Ht. pose proof (ho_length _ Hok) as Hlen. unfold finishHello. set (all := fragments ++ _) in *.
  rewrite (assemble_all all chunks Hne Hp) by (rewrite Hchunks; lia).
  assert (Hf : frameLen all = len (helloHandshake h)).
  { rewrite frameLen_sum; rewrite ?(lengthSum_perm _ _ Hp), ?pieces_total; [done| |lia].
    apply List.Forall_forall. intros f Hf%list_elem_of_In. rewrite Hp in Hf.
    pose proof (pieces_positive chunks 0 Hne) as Hpos. rewrite List.Forall_forall in Hpos.
    specialize (Hpos f (proj1 (list_elem_of_In _ _) Hf)). cbn beta in Hpos. lia. }
  assert (Hb : helloBuffer all (concat chunks) = helloRecord h []).
  { unfold helloBuffer, helloRecord. by rewrite Hf, Hversion, Hchunks, app_nil_r. }
  rewrite Hb. pose proof (ja3_record h [] Hok) as Hj. rewrite Hj.
  destruct (negb (String.eqb _ "")); [by eexists|].
  assert (Hq : exists client, quicClient types (helloPrint h) = Ok client).
  { unfold quicClient. destruct (len types =? 1); [by eexists|]. destruct types as [|t types]; [done|].
    change (index (t :: types) 0) with (Ok t). cbn [result_bind]. destruct (_ && isSafari _); [by eexists|].
    assert (Hi : exists x, index (t :: types) (len (t :: types) - 1) = Ok x).
    { unfold index. destruct (lookup_lt_is_Some_2 (t :: types) (Z.to_nat (len (t :: types) - 1))) as [x Ex];
        [unfold len; cbn [length]; lia|]. rewrite Ex. rewrite len_cons. pose proof (len_nonneg types).
      destruct (Z.leb_spec 0 (1 + len types - 1)); [by exists x|lia]. }
    destruct Hi as [x ->]. cbn [result_bind]. repeat case_match; by eexists. }
  destruct Hq as [client ->]. cbn. by eexists.
Qed.

Lemma finish_incomplete fragments types s missing :
  (fragments ++ default [] (sf_SniffContext s)) ++ missing ≡ₚ pieces 0 chunks -> missing <> [] ->
  exists m, finishHello fragments types s
    = Returned (Some (E_Cause ErrNeedMoreData m)) {| s with sf_Protocol := ProtocolQUIC;
        sf_SniffContext := Some (fragments ++ default [] (sf_SniffContext s)) |}.
Proof.
  intros Hp Hm. pose proof (ho_length _ Hok) as Hlen. unfold finishHello. set (all := fragments ++ _) in *.
  assert (Hsub : forall f, f ∈ all -> f ∈ pieces 0 chunks) by (intros f Hf; rewrite <- Hp; apply elem_of_app; by left).
  pose proof (pieces_positive chunks 0 Hne) as Hpos. rewrite List.Forall_forall in Hpos.
  assert (Hposm : 0 < lengthSum missing).
  { assert (Hin : forall g, g ∈ missing -> 0 < qf_length g).
    { intros g Hg. apply Hpos, list_elem_of_In. rewrite <- Hp. apply elem_of_app. by right. }
    destruct missing as [|f missing]; [done|]. cbn [lengthSum foldr]. fold (lengthSum missing).
    pose proof (Hin f ltac:(by left)). assert (0 <= lengthSum missing); [|lia].
    apply lengthSum_nonneg, List.Forall_forall. intros g Hg%list_elem_of_In.
    specialize (Hin g ltac:(by right)). lia. }
  assert (Hlsum : lengthSum all + lengthSum missing = len (helloHandshake h)).
  { by rewrite <- lengthSum_app, (lengthSum_perm _ _ Hp), pieces_total. }
  assert (Hall : Forall (fun f => 0 <= qf_length f) all).
  { apply List.Forall_forall. intros f Hf%list_elem_of_In. apply Hsub, list_elem_of_In, Hpos in Hf. cbn beta in Hf. lia. }
  pose proof (lengthSum_nonneg all Hall) as Hn. rewrite <- Hchunks in Hlen.
  assert (Hl64 : len (concat chunks) < 2 ^ 64) by lia.
  destruct (assemble_prefix all chunks Hne Hsub Hl64 chunks [] (S (length chunks))) as (a' & b' & Hc & He & _);
    [done|lia|].
  cbn [concat] in He. rewrite len_nil in He. rewrite (assemble_enough _ _ (S (length all)) _ _ _ He) by lia.
  rewrite Hchunks in Hlen.
  destruct (compute_short h (concat a') (concat b') (lengthSum all)) as (e & Hj & Hnp);
    [done|by rewrite <- Hchunks, Hc, concat_app|lia|].
  unfold helloBuffer. rewrite frameLen_sum by (done || lia). rewrite Hj.
  destruct e; try (by eexists). by destruct (Hnp msg).
Qed.

(** C20 The sniffer finds the server name in whatever order the client hello
    arrives: cut the handshake message of a well-formed client hello into
    nonempty pieces, shuffle them and spread them over any number of packets
    (each with some CRYPTO frame); then every call but the last asks for more
    data and remembers the pieces, and the last one reports QUIC and the server
    name of the hello. *)
Theorem quic_hello_any_order (batches : list (list qCryptoFragment * list Z)) (s : Sniffed) :
  concat (map fst batches) ≡ₚ pieces 0 chunks -> Forall (fun b => fst b <> [] /\ snd b <> []) batches ->
  sf_SniffContext s = None ->
  exists s', finishAll batches s = Returned None s' /\ sf_Protocol s' = ProtocolQUIC
    /\ sf_Domain s' = bytes_string (ch_ServerName (helloPrint h)) /\ sf_SniffContext s' = None.
Proof.
  intros Hp Hb Hs.
  enough (H : forall l s, Forall (fun b : list qCryptoFragment * list Z => fst b <> [] /\ snd b <> []) l -> l <> [] ->
    default [] (sf_SniffContext s) ++ concat (map fst l) ≡ₚ pieces 0 chunks ->
    exists s', finishAll l s = Returned None s' /\ sf_Protocol s' = ProtocolQUIC
      /\ sf_Domain s' = bytes_string (ch_ServerName (helloPrint h)) /\ sf_SniffContext s' = None).
  { apply H; [done| |by rewrite Hs]. intros ->. apply (f_equal length) in Hchunks.
    apply Permutation_length in Hp. rewrite pieces_length in Hp. by destruct chunks. }
  clear Hp Hs s Hb batches. induction l as [|[fragments types] l IH]; intros s Hb Hl Hp; [done|]. cbn [finishAll].
  pose proof (Forall_inv Hb) as [Hf Ht]. cbn [map concat fst snd] in *.
  destruct (decide (l = [])) as [->|Hl'].
  - cbn in Hp. rewrite app_nil_r in Hp. rewrite (Permutation_app_comm _ fragments) in Hp.
    destruct (finish_complete fragments types s Hp Ht) as (s' & -> & H). by exists s'.
  - destruct (finish_incomplete fragments types s (concat (map fst l))) as [m ->].
    + rewrite <- Hp, (app_assoc _ fragments). apply Permutation_app_tail, Permutation_app_comm.
    + destruct l as [|[f2 t2] l]; [done|]. pose proof (Forall_inv (Forall_inv_tail Hb)) as [Hf2 _].
      cbn in *. by destruct f2.
    + change (String.eqb "need more data" "need more data") with true. cbn [ErrNeedMoreData].
      apply IH; [exact (Forall_inv_tail Hb)|done|]. cbn [sf_SniffContext default].
      rewrite <- Hp, (app_assoc _ fragments). apply Permutation_app_tail, Permutation_app_comm.
Qed.

(** All pieces received so far. *)
Definition received (fragments : list qCryptoFragment) (s : Sniffed) : list qCryptoFragment :=
  fragments ++ default [] (sf_SniffContext s).

Lemma finish_excess fragments types s :
  (forall f, f ∈ received fragments s -> f ∈ pieces 0 chunks) -> len (helloHandshake h) < lengthSum (received fragments s) < 2 ^ 16 ->
  exists m, finishHello fragments types s
    = Returned (Some (E_Cause ErrNeedMoreData m)) {| s with sf_Protocol := ProtocolQUIC; sf_SniffContext := Some (received fragments s) |}.
Proof.
  set (all := received fragments s). intros Hsub Hsum. pose proof (ho_length _ Hok) as Hlen. unfold finishHello. fold (received fragments s). fold all.
  pose proof (pieces_positive chunks 0 Hne) as Hpos. rewrite List.Forall_forall in Hpos.
  assert (Hall : Forall (fun f => 0 <= qf_length f) all).
  { apply List.Forall_forall. intros f Hf%list_elem_of_In. apply Hsub, list_elem_of_In, Hpos in Hf. cbn beta in Hf. lia. }
  assert (Hl64 : len (concat chunks) < 2 ^ 64) by (rewrite Hchunks; lia).
  destruct (assemble_prefix all chunks Hne Hsub Hl64 chunks [] (S (length chunks))) as (a' & b' & Hc & He & _); [done|lia|].
  cbn [concat] in He. rewrite len_nil in He. rewrite (assemble_enough _ _ (S (length all)) _ _ _ He) by lia.
  assert (Hle : len (concat a') <= len (helloHandshake h)).
  { rewrite <- Hchunks, Hc, concat_app, len_app. pose proof (len_nonneg (concat b')). lia. }
  unfold helloBuffer. rewrite frameLen_sum by (done || lia). rewrite compute_excess by lia. by eexists.
Qed.

(** A retransmission blinds the sniffer: once the pieces received, some of
    them more than once, are longer together than the client hello, the call asks
    for more data although nothing is missing, and so does every call after it,
    whatever pieces follow (as long as the sum fits 16 bits). *)
Theorem quic_retransmission_blinds fragments types s :
  (forall f, f ∈ received fragments s -> f ∈ pieces 0 chunks) -> len (helloHandshake h) < lengthSum (received fragments s) < 2 ^ 16 ->
  exists m s', finishHello fragments types s = Returned (Some (E_Cause ErrNeedMoreData m)) s'
    /\ forall more types', (forall f, f ∈ more -> f ∈ pieces 0 chunks) -> lengthSum (more ++ received fragments s) < 2 ^ 16 ->
       exists m' s'', finishHello more types' s' = Returned (Some (E_Cause ErrNeedMoreData m')) s''.
Proof.
  set (all := received fragments s). intros Hsub Hsum. destruct (finish_excess fragments types s Hsub Hsum) as [m Hm]. do 2 eexists. split; [exact Hm|].
  intros more types' Hmore Hs.
  set (s' := {| s with sf_Protocol := ProtocolQUIC; sf_SniffContext := Some all |}).
  assert (Hmp : 0 <= lengthSum more).
  { pose proof (pieces_positive chunks 0 Hne) as Hpos. rewrite List.Forall_forall in Hpos.
    apply lengthSum_nonneg, List.Forall_forall. intros f Hf%list_elem_of_In. apply Hmore, list_elem_of_In, Hpos in Hf.
    cbn beta in Hf. lia. }
  destruct (finish_excess more types' s') as [m' Hm'];
    [|change (received more s') with (more ++ all); rewrite lengthSum_app in *; lia|do 2 eexists; exact Hm'].
  change (received more s') with (more ++ all). intros f [Hf|Hf]%elem_of_app; [by apply Hmore|by apply Hsub].
Qed.
End hello.

(** ** Termination *)

Lemma nonempty_ends fragments :
  Forall (fun f => 0 <= qf_offset f /\ 0 < qf_length f /\ qf_offset f + qf_length f < 2 ^ 64) fragments ->
  forall n i, (length (List.filter (fun f => i <=? qf_offset f)%Z fragments) <= n)%nat -> exists k, ends fragments k i.
Proof.
  intros Hf. induction n as [|n IH]; intros i Hn; destruct (startsAt fragments i) as [f|] eqn:E.
  - exfalso. destruct (startsAt_offset _ _ _ E) as [Hin <-].
    assert (H : In f (List.filter (fun g => qf_offset f <=? qf_offset g) fragments))
      by (apply filter_In; split; [by apply list_elem_of_In|apply Z.leb_refl]).
    destruct (List.filter _ fragments); [done|cbn in Hn; lia].
  - exists 0%nat. by constructor.
  - destruct (startsAt_offset _ _ _ E) as [Hin <-]. rewrite List.Forall_forall in Hf.
    destruct (Hf f (proj1 (list_elem_of_In _ _) Hin)) as (H1 & H2 & H3).
    destruct (IH (after f)) as [k Hk]; [|exists (S k); by econstructor].
    unfold after. rewrite Z.mod_small by lia.
    enough (Hlt : (length (List.filter (fun g => qf_offset f + qf_length f <=? qf_offset g)%Z fragments)
      < length (List.filter (fun g => qf_offset f <=? qf_offset g)%Z fragments))%nat) by lia.
    clear -Hin H2. induction fragments as [|g l IH]; [by apply elem_of_nil in Hin|]. cbn [List.filter].
    apply elem_of_cons in Hin as [<-|Hin].
    + rewrite Z.leb_refl. destruct (Z.leb_spec (qf_offset f + qf_length f) (qf_offset f)); [lia|]. cbn [length].
      apply Nat.lt_succ_r. clear -H2. induction l as [|g l IH]; cbn [List.filter]; [done|].
      destruct (Z.leb_spec (qf_offset f + qf_length f) (qf_offset g)), (Z.leb_spec (qf_offset f) (qf_offset g)); cbn; lia.
    + specialize (IH Hin).
      destruct (Z.leb_spec (qf_offset f + qf_length f) (qf_offset g)), (Z.leb_spec (qf_offset f) (qf_offset g)); cbn; lia.
  - exists 0%nat. by constructor.
Qed.

Lemma lengthSum_sub l l' : Forall (fun f => 0 <= qf_length f) l' -> l ⊆+ l' -> lengthSum l <= lengthSum l'.
Proof.
  intros Hp [k Hk]%submseteq_Permutation. rewrite (lengthSum_perm _ _ Hk), lengthSum_app.
  assert (0 <= lengthSum k); [|lia]. apply lengthSum_nonneg. rewrite Hk in Hp. by apply Forall_app in Hp as [_ ?].
Qed.

(** How long the sniffer's loop over the fragments runs.  As many turns as
    there are fragments decide: if the loop has not ended by then it never ends.
    It ends if no fragment is empty, and what it writes fits the buffer, which
    has room for the sum of the lengths.  An empty CRYPTO frame at the place the
    data has reached, which a client can send in its first packet, makes it run
    for ever. *)
Theorem quic_assembly_ends (fragments : list qCryptoFragment) :
  (assemble (S (length fragments)) fragments 0 [] = None -> forall fuel, assemble fuel fragments 0 [] = None)
  /\ (Forall (fun f => 0 <= qf_offset f /\ 0 < qf_length f /\ qf_offset f + qf_length f < 2 ^ 64
                       /\ len (qf_payload f) = qf_length f) fragments ->
      exists data, assemble (S (length fragments)) fragments 0 [] = Some data /\ len data <= lengthSum fragments)
  /\ (forall f i buffer, startsAt fragments i = Some f -> 0 <= i < 2 ^ 64 -> qf_length f = 0 ->
      forall fuel, assemble fuel fragments i buffer = None).
Proof.
  split_and!.
  - intros Hn fuel. destruct (assemble fuel fragments 0 []) as [r|] eqn:E; [|done].
    by rewrite (assemble_enough _ _ (S (length fragments)) _ _ _ E) in Hn by lia.
  - intros Hf. destruct (nonempty_ends fragments) with (n := length fragments) (i := 0) as [k Hk].
    + revert Hf. apply List.Forall_impl. cbn. tauto.
    + apply List.filter_length_le.
    + pose proof (ends_bound _ _ _ Hk). destruct (ends_path _ _ _ Hk) as (l & _ & Hnd & Hl & Ha).
      exists (concat (map qf_payload l)). split; [by rewrite Ha by lia|].
      transitivity (lengthSum l).
      * assert (Hlf : forall f, f ∈ l -> len (qf_payload f) = qf_length f).
        { intros f [Hin _]%Hl. rewrite List.Forall_forall in Hf. by apply Hf, list_elem_of_In. }
        clear -Hlf. induction l as [|f l IH]; cbn [map concat lengthSum foldr]; [done|]. fold (lengthSum l).
        rewrite len_app, (Hlf f) by by left. assert (len (concat (map qf_payload l)) <= lengthSum l); [|lia].
        apply IH. intros g Hg. apply Hlf. by right.
      * apply lengthSum_sub; [revert Hf; apply List.Forall_impl; cbn; lia|].
        apply NoDup_submseteq; [done|]. intros f Hin. by apply Hl.
  - intros f i buffer Hs Hi Hz fuel. revert buffer. induction fuel as [|fuel IH]; intros buffer;
      unfold startsAt in Hs; cbn [assemble]; rewrite Hs; [done|].
    destruct (startsAt_offset fragments i f Hs) as [_ Ho]. rewrite Ho, Hz, Z.add_0_r, Z.mod_small by lia. apply IH.
Qed.
