(* ===== verification/QuicSafety.v ===== *)
(** * Where the QUIC sniffer panics

    Parsing the header and removing the protection never panic.  The two causes
    of a panic are a CRYPTO frame longer than the packet's memory and the client
    hello parser's own panic; what the sniffer keeps between packets adds none. *)

From S2P Require Import Prelude.
From S2P Require Import GoText.
From S2P Require Import Bytes.
From S2P Require Import Metadata.
From S2P Require Import RuleAction.
From S2P Require Import Ja3.
From S2P Require Import Ja3Theorems.
From S2P Require Import Sniff.
From S2P Require Import Quic.
From S2P Require Import QuicTheorems.
Local Open Scope string_scope.
Local Open Scope list_scope.
Local Open Scope Z_scope.

(** ** Reading *)

Lemma readFull_well n reader : bytes_ok reader ->
  match ReadFull n reader with
  | Ok (b, reader') => len reader = Z.of_nat n + len reader' /\ bytes_ok reader'
  | Err e => forall m, e <> GoPanic m
  end.
Proof.
  intros Hb. unfold ReadFull. destruct (Nat.ltb_spec (length reader) n); [by destruct (_ =? _)%nat|].
  split; [unfold len; rewrite length_drop; lia|by apply Forall_drop].
Qed.
Lemma readByte_well reader : bytes_ok reader ->
  match readByte reader with
  | Ok (b, reader') => 0 <= b < 256 /\ len reader = 1 + len reader' /\ bytes_ok reader'
  | Err e => forall m, e <> GoPanic m
  end.
Proof.
  destruct reader as [|b reader]; [done|]. intros Hb. cbn [readByte]. rewrite len_cons.
  split_and!; [apply (Forall_inv Hb)..|done|exact (Forall_inv_tail Hb)].
Qed.
Lemma discard_well n reader : bytes_ok reader -> 0 <= n ->
  match discard n reader with
  | Ok reader' => len reader = n + len reader' /\ bytes_ok reader'
  | Err e => forall m, e <> GoPanic m
  end.
Proof.
  intros Hb Hn. unfold discard. destruct (Z.ltb_spec (len reader) n); [done|].
  split; [unfold len in *; rewrite length_drop; lia|by apply Forall_drop].
Qed.
Lemma readUvarint_len reader : bytes_ok reader ->
  match qtls_ReadUvarint reader with
  | Ok (x, reader') => 0 <= x /\ len reader' < len reader /\ bytes_ok reader'
  | Err e => forall m, e <> GoPanic m
  end.
Proof.
  intros Hb. pose proof (readUvarint_well reader Hb) as H. unfold readsWell in H.
  destruct (qtls_ReadUvarint reader) as [[x r]|e]; [|done]. unfold len. naive_solver lia.
Qed.

(** The next read of a chain, with what is known of its result. *)
Ltac next lemma :=
  let H := fresh "H" in pose proof lemma as H;
  match type of H with match ?r with Ok _ => _ | Err _ => _ end => destruct r as [?|?] eqn:?; cbn [result_bind]; [|try exact H] end;
  repeat match goal with p : (_ * _)%type |- _ => destruct p end; destruct_and? H.

(** ** The header *)

Definition headerOk (packet : list Z) (h : initialHeader) : Prop :=
  0 < ih_hdrLen h /\ ih_hdrLen h + 20 <= len packet /\ 0 <= ih_packetLen h /\ ih_hdrLen h + ih_packetLen h <= len packet.

Lemma parseInitialHeader_well packet : bytes_ok packet ->
  match parseInitialHeader packet with Ok h => headerOk packet h | Err e => forall m, e <> GoPanic m end.
Proof.
  intros Hb. unfold parseInitialHeader. next (readByte_well packet Hb).
  destruct (Z.land z 64 =? 0); [done|].
  unfold readBE. next (readFull_well 4 l ltac:(done)). cbn [result_bind].
  destruct (negb _); [done|]. destruct (_ || (2 <? _)); [done|].
  next (readByte_well l1 ltac:(done)). destruct (_ || _); [done|].
  next (readFull_well (Z.to_nat z0) l2 ltac:(done)). next (readByte_well l4 ltac:(done)).
  next (discard_well z1 l5 ltac:(done) ltac:(lia)). rename a into r1. next (readUvarint_len r1 ltac:(done)).
  next (discard_well z2 l6 ltac:(done) ltac:(lia)). rename a into r2. next (readUvarint_len r2 ltac:(done)).
  destruct (Z.ltb_spec (len packet) (len packet - len l7 + z3)); [done|].
  next (discard_well 4 l7 ltac:(done) ltac:(lia)). next (readFull_well 16 a ltac:(done)).
  pose proof (len_nonneg l9). unfold headerOk. cbn [ih_hdrLen ih_packetLen]. lia.
Qed.

(** ** Removing the protection *)

Lemma index_in l i : 0 <= i < len l -> exists b, index l i = Ok b.
Proof.
  intros Hi. unfold len in Hi. destruct (lookup_lt_is_Some_2 l (Z.to_nat i)) as [b Eb]; [lia|].
  exists b. unfold index. rewrite Eb. by destruct (Z.leb_spec 0 i); [|lia].
Qed.
Lemma slice_in l i j : 0 <= i <= j -> j <= len l -> exists r, slice l i j = Ok r /\ len r = j - i.
Proof.
  intros Hi Hj. exists (take (Z.to_nat (j - i)) (drop (Z.to_nat i) l)). unfold slice, len in *.
  destruct (Z.leb_spec 0 i), (Z.leb_spec i j), (Z.leb_spec j (Z.of_nat (length l))); try lia.
  split; [done|]. rewrite length_take, length_drop. lia.
Qed.
Lemma xorAt_in l i x : 0 <= i < len l -> exists l', xorAt l i x = Ok l' /\ len l' = len l.
Proof.
  intros Hi. unfold xorAt. destruct (index_in l i Hi) as [b ->]. cbn [result_bind]. eexists. split; [done|].
  unfold len. by rewrite length_insert.
Qed.

Section safety.
Context `{Q : QUICCrypto}.

Lemma removeProtection_well packet h : bytes_ok packet -> headerOk packet h ->
  match removeProtection packet h with
  | Ok (memory, n) => bytes_ok memory /\ 0 <= n <= len memory
  | Err e => forall m, e <> GoPanic m
  end.
Proof.
  intros Hb (Hh & Hp & Hl & Hpl). unfold removeProtection.
  set (mask := aes_Encrypt _ _). assert (Hm : len mask = 16) by apply aes_Encrypt_length. clearbody mask.
  destruct (index_in mask 0) as [m0 ->]; [lia|]. destruct (index_in mask 1) as [m1 ->]; [lia|].
  destruct (index_in mask 2) as [m2 ->]; [lia|]. destruct (index_in mask 3) as [m3 ->]; [lia|].
  destruct (index_in mask 4) as [m4 ->]; [lia|]. cbn [result_bind].
  destruct (xorAt_in packet 0 (Z.land m0 15)) as (p0 & -> & H0); [lia|]. cbn [result_bind].
  destruct (xorAt_in p0 (ih_hdrLen h) m1) as (p1 & -> & H1); [lia|]. cbn [result_bind].
  destruct (xorAt_in p1 (ih_hdrLen h + 1) m2) as (p2 & -> & H2); [lia|]. cbn [result_bind].
  destruct (xorAt_in p2 (ih_hdrLen h + 2) m3) as (p3 & -> & H3); [lia|]. cbn [result_bind].
  destruct (xorAt_in p3 (ih_hdrLen h + 3) m4) as (p4 & -> & H4); [lia|]. cbn [result_bind].
  destruct (index_in p4 0) as [first ->]; [lia|]. cbn [result_bind].
  assert (Hf : 0 <= Z.land first 3 < 4) by (change 3 with (Z.ones 2); rewrite Z.land_ones by lia; apply Z.mod_pos_bound; lia).
  set (k := Z.land first 3 + 1) in *. assert (Hk : 1 <= k <= 4) by lia. clearbody k.
  destruct (Z.ltb_spec (ih_packetLen h + ih_hdrLen h) (ih_hdrLen h + k)); [done|]. unfold packetNumberAt.
  destruct (slice_in p4 (ih_hdrLen h) (ih_hdrLen h + k)) as (pn & -> & _); [lia..|]. cbn [result_bind].
  destruct (slice_in p4 0 (ih_hdrLen h + k)) as (header & -> & Hhl); [lia..|]. cbn [result_bind].
  destruct (sliceFrom_ok packet (ih_hdrLen h + k) Hb) as (tl & -> & Htl & Hbt & _); [lia|]. cbn [result_bind].
  destruct (slice_in (header ++ tl) (ih_hdrLen h + k) (ih_packetLen h + ih_hdrLen h)) as (data & -> & Hd);
    [lia|rewrite len_app; lia|]. cbn [result_bind].
  destruct (openPacket _ _ _ _ _) as [[plaintext rest]|] eqn:Eo; [|done]. unfold openPacket in Eo.
  destruct (gcm_Open_bytes _ _ _ _ _ _ Eo) as [Hb1 Hb2]. pose proof (len_nonneg plaintext). rewrite !len_app. split.
  - unfold bytes_ok in *. rewrite !Forall_app. split_and!; [done..|]. unfold len in Hhl.
    rewrite drop_app_ge by lia. by apply Forall_drop.
  - pose proof (len_nonneg rest). pose proof (len_nonneg (drop (Z.to_nat (ih_packetLen h + ih_hdrLen h)) (header ++ tl))). lia.
Qed.
End safety.

(** ** The frames *)

Definition consumes {A} (r : result A) (rest : A -> list Z) (reader : list Z) : Prop :=
  match r with Ok x => suffix (rest x) reader | Err e => forall m, e <> GoPanic m end.

Lemma consumes_bind {A B} (r : result A) rest (k : A -> result B) rest' reader :
  consumes r rest reader -> (forall x, consumes (k x) rest' (rest x)) -> consumes (let? x := r in k x) rest' reader.
Proof.
  destruct r as [x|e]; [|done]. cbn [result_bind]. intros H Hk. specialize (Hk x).
  destruct (k x) as [y|e]; [|done]. cbn in *. by etrans.
Qed.
Lemma consumes_ok {A} (x : A) rest : consumes (Ok x) rest (rest x).
Proof. unfold consumes. reflexivity. Qed.
Lemma readBytes_consumes n : forall acc reader, consumes (readBytes n acc reader) snd reader.
Proof.
  induction n as [|n IH]; intros acc reader; [apply (consumes_ok (acc, reader) snd)|].
  cbn [readBytes]. destruct reader as [|b reader]; [done|].
  cbn [readByte result_bind]. specialize (IH (acc * 256 + b) reader).
  destruct (readBytes n _ reader) as [[x r]|e]; [|done]. by apply suffix_cons_r.
Qed.
Lemma readUvarint_consumes reader : consumes (qtls_ReadUvarint reader) snd reader.
Proof.
  unfold qtls_ReadUvarint. destruct reader as [|b reader]; [done|]. cbn [readByte result_bind].
  pose proof (readBytes_consumes (Z.to_nat (Z.shiftl 1 (Z.shiftr (Z.land b 192) 6) - 1)) (Z.land b 63) reader) as H.
  destruct (readBytes _ _ reader) as [[x r]|e]; [|done]. by apply suffix_cons_r.
Qed.
Lemma seek_suffix n reader : suffix (seek n reader) reader.
Proof. unfold seek. exists (take (Z.to_nat n) reader). by rewrite take_drop. Qed.

(** A chain of integers. *)
Ltac integers := repeat (apply (consumes_bind _ snd); [apply readUvarint_consumes|intros [? ?]; cbn [snd]]).

Lemma skipRanges_consumes fuel : forall n reader, consumes (skipRanges fuel n reader) (fun r => r) reader.
Proof.
  induction fuel as [|fuel IH]; intros n reader; cbn [skipRanges]; destruct (n <=? 0);
    try apply (consumes_ok reader (fun r => r)); [done|]. integers. apply IH.
Qed.
Lemma skipAck_consumes frameType reader : consumes (skipAck frameType reader) (fun r => r) reader.
Proof.
  unfold skipAck. integers. apply (consumes_bind _ (fun r => r)); [apply skipRanges_consumes|].
  intros r. destruct (frameType =? 3); [integers|]; apply (consumes_ok _ (fun r => r)).
Qed.
Lemma skipClose_consumes reader : consumes (skipClose reader) (fun r => r) reader.
Proof. unfold skipClose. integers. apply seek_suffix. Qed.

(** The places where the sniffer looks for a frame: the start of the decrypted
    data, and the end of a frame that was read. *)
Inductive frameAt (memory : list Z) (decryptedLen : Z) : list Z -> Prop :=
  | frame_start : frameAt memory decryptedLen (take (Z.to_nat decryptedLen) memory)
  | frame_plain frameType reader : frameAt memory decryptedLen (frameType :: reader) ->
      (frameType =? 0) || (frameType =? 1) = true -> frameAt memory decryptedLen reader
  | frame_ack frameType reader reader' : frameAt memory decryptedLen (frameType :: reader) ->
      frameType = 2 \/ frameType = 3 -> skipAck frameType reader = Ok reader' -> frameAt memory decryptedLen reader'
  | frame_crypto reader fragment reader' : frameAt memory decryptedLen (6 :: reader) ->
      readCrypto memory decryptedLen reader = Ok (fragment, reader') -> frameAt memory decryptedLen reader'
  | frame_close reader reader' : frameAt memory decryptedLen (28 :: reader) ->
      skipClose reader = Ok reader' -> frameAt memory decryptedLen reader'.

(** A CRYPTO frame whose length runs past the memory behind the data. *)
Definition overrun (memory : list Z) (decryptedLen : Z) : Prop :=
  exists reader offset r1 length r2,
    frameAt memory decryptedLen (6 :: reader)
    /\ qtls_ReadUvarint reader = Ok (offset, r1) /\ qtls_ReadUvarint r1 = Ok (length, r2)
    /\ len memory < decryptedLen - len r2 + length.

Definition payloadsOk (fragments : list qCryptoFragment) : Prop := Forall (fun f => bytes_ok (qf_payload f)) fragments.

Lemma readCrypto_well memory n reader p :
  bytes_ok memory -> 0 <= n <= len memory -> take (Z.to_nat n) memory = p ++ 6 :: reader ->
  frameAt memory n (6 :: reader) ->
  match readCrypto memory n reader with
  | Ok (f, reader') => bytes_ok (qf_payload f) /\ suffix reader' reader
  | Err e => (exists m, e = GoPanic m) -> overrun memory n
  end.
Proof.
  intros Hb Hn Hp Hat. assert (Hr : len p + 1 + len reader = n).
  { apply (f_equal len) in Hp. rewrite len_app, len_cons in Hp. unfold len in *. rewrite length_take in Hp. lia. }
  assert (Hbr : bytes_ok reader).
  { assert (H : bytes_ok (p ++ 6 :: reader)) by (rewrite <- Hp; by apply Forall_take).
    unfold bytes_ok in H. rewrite Forall_app in H. exact (Forall_inv_tail (proj2 H)). }
  unfold readCrypto. pose proof (readUvarint_consumes reader) as C1. pose proof (readUvarint_len reader Hbr) as W1.
  destruct (qtls_ReadUvarint reader) as [[offset r1]|e] eqn:E1; cbn [result_bind]; [|naive_solver].
  destruct W1 as (_ & Hl1 & Hb1). pose proof (readUvarint_consumes r1) as C2. pose proof (readUvarint_len r1 Hb1) as W2.
  destruct (qtls_ReadUvarint r1) as [[length r2]|e] eqn:E2; cbn [result_bind]; [|naive_solver].
  destruct W2 as (H0 & Hl2 & Hb2). cbn [consumes snd] in C1, C2. pose proof (len_nonneg p).
  destruct (Z.leb_spec (n - len r2 + length) (len memory)) as [Hle|Hgt].
  - destruct (slice_ok memory (n - len r2) (n - len r2 + length) Hb) as (x & -> & _ & Hx & _); [lia..|].
    cbn [result_bind qf_payload]. split; [done|]. etrans; [apply seek_suffix|]. by etrans.
  - unfold slice. destruct (Z.leb_spec (n - len r2 + length) (len memory)); [lia|]. rewrite andb_false_r.
    cbn [result_bind]. intros _. by exists reader, offset, r1, length, r2.
Qed.

Lemma payloadsOk_app l1 l2 : payloadsOk (l1 ++ l2) <-> payloadsOk l1 /\ payloadsOk l2.
Proof. apply Forall_app. Qed.

(** What reading the frames gives. *)
Definition framesOk (memory : list Z) (n : Z) (fragments : list qCryptoFragment) (types : list Z)
    (r : result (list qCryptoFragment * list Z)) : Prop :=
  match r with
  | Ok (fragments', types') => payloadsOk fragments' /\ (types' = [] -> types = [] /\ fragments' = fragments)
  | Err e => (exists m, e = GoPanic m) -> overrun memory n
  end.

Lemma readFrames_well memory n : bytes_ok memory -> 0 <= n <= len memory ->
  forall fuel reader fragments types, (length reader <= fuel)%nat -> suffix reader (take (Z.to_nat n) memory) ->
  frameAt memory n reader -> payloadsOk fragments -> framesOk memory n fragments types (readFrames fuel memory n reader fragments types).
Proof.
  intros Hb Hn. induction fuel as [|fuel IH]; intros reader fragments types Hf Hs Hat Hok.
  { destruct reader; [done|cbn in Hf; lia]. }
  destruct reader as [|frameType reader]; [done|]. cbn in Hf.
  assert (Hgo : forall r fs, suffix r reader -> frameAt memory n r -> payloadsOk fs ->
    framesOk memory n fragments types (readFrames fuel memory n r fs (types ++ [frameType]))).
  { intros r fs Hr Hatr Hfs. pose proof (suffix_length _ _ Hr). specialize (IH r fs (types ++ [frameType]) ltac:(lia)).
    specialize (IH (transitivity Hr (transitivity (suffix_cons_r _ _ _ (reflexivity reader)) Hs)) Hatr Hfs).
    unfold framesOk in *. destruct (readFrames _ _ _ _ _ _) as [[fs' ts']|e]; [|done]. destruct IH as [H1 H2].
    split; [done|]. intros [H3 _]%H2. by destruct types. }
  cbn [readFrames]. destruct (_ || (frameType =? 1)) eqn:E1; [apply Hgo; [done|by eapply frame_plain|done]|].
  destruct (_ || (frameType =? 3)) eqn:E2.
  { pose proof (skipAck_consumes frameType reader) as C. destruct (skipAck _ _) as [r|] eqn:E; cbn; [|naive_solver].
    apply Hgo; [done| |done]. eapply frame_ack; [done| |done].
    apply orb_true_iff in E2 as [E2|E2]; apply Z.eqb_eq in E2; auto. }
  destruct (Z.eqb_spec frameType 6) as [->|_].
  { destruct Hs as [p Hp]. pose proof (readCrypto_well memory n reader p Hb Hn Hp Hat) as C.
    destruct (readCrypto _ _ _) as [[f r]|] eqn:E; cbn; [|done]. apply Hgo; [apply C|by eapply frame_crypto|]. apply payloadsOk_app. split; [done|].
    repeat constructor. apply C. }
  destruct (Z.eqb_spec frameType 28) as [->|_]; [|cbn; naive_solver].
  pose proof (skipClose_consumes reader) as C. destruct (skipClose _) as [r|] eqn:E; cbn; [|naive_solver].
  apply Hgo; [done|by eapply frame_close|done].
Qed.

(** Reading the frames comes to every such place. *)
Lemma readCrypto_consumes memory n reader f r : readCrypto memory n reader = Ok (f, r) -> suffix r reader.
Proof.
  unfold readCrypto. pose proof (readUvarint_consumes reader) as C1.
  destruct (qtls_ReadUvarint reader) as [[offset r1]|]; [|done]. cbn [result_bind]. pose proof (readUvarint_consumes r1) as C2.
  destruct (qtls_ReadUvarint r1) as [[length r2]|]; [|done]. cbn [result_bind].
  destruct (slice _ _ _); [|done]. intros [= _ <-]. cbn in C1, C2. etrans; [apply seek_suffix|]. by etrans.
Qed.
Lemma readFrames_reaches memory n reader : frameAt memory n reader ->
  exists fuel fragments types, (length reader <= fuel)%nat
    /\ readFrames (Z.to_nat n) memory n (take (Z.to_nat n) memory) [] [] = readFrames fuel memory n reader fragments types.
Proof.
  induction 1 as [|t reader _ IH Ht|t reader r _ IH Ht E|reader f r _ IH E|reader r _ IH E].
  { exists (Z.to_nat n), [], []. split; [rewrite length_take; lia|done]. }
  all: destruct IH as (fuel & fs & ts & Hl & ->); destruct fuel as [|fuel]; [cbn in Hl; lia|]; cbn [length] in Hl; cbn [readFrames].
  - rewrite Ht. do 3 eexists. split; [|done]. lia.
  - pose proof (skipAck_consumes t reader) as C. rewrite E in C |- *. apply suffix_length in C.
    exists fuel, fs, (ts ++ [t]). split; [lia|]. by destruct Ht as [-> | ->].
  - apply readCrypto_consumes in E as C. apply suffix_length in C. cbn [Z.eqb Pos.eqb orb]. rewrite E.
    exists fuel, (fs ++ [f]), (ts ++ [6]). split; [lia|done].
  - pose proof (skipClose_consumes reader) as C. rewrite E in C. apply suffix_length in C. cbn [Z.eqb Pos.eqb orb]. rewrite E.
    exists fuel, fs, (ts ++ [28]). split; [lia|done].
Qed.
Lemma overrun_panics memory n : overrun memory n ->
  exists m, readFrames (Z.to_nat n) memory n (take (Z.to_nat n) memory) [] [] = Err (GoPanic m).
Proof.
  intros (reader & offset & r1 & length & r2 & Hat & E1 & E2 & Hlt).
  destruct (readFrames_reaches _ _ _ Hat) as (fuel & fs & ts & Hl & ->). destruct fuel as [|fuel]; [cbn in Hl; lia|].
  cbn [readFrames Z.eqb Pos.eqb orb]. unfold readCrypto. rewrite E1. cbn [result_bind]. rewrite E2. cbn [result_bind].
  unfold slice. destruct (Z.leb_spec (n - len r2 + length) (len memory)); [lia|]. rewrite andb_false_r. by eexists.
Qed.

(** ** The sniffer *)

Lemma assemble_bytes fuel : forall fragments i buffer data, payloadsOk fragments -> bytes_ok buffer ->
  assemble fuel fragments i buffer = Some data -> bytes_ok data.
Proof.
  induction fuel as [|fuel IH]; intros fragments i buffer data Hf Hb; cbn [assemble];
    destruct (List.find _ fragments) as [f|] eqn:E; intros H; simplify_eq; try done.
  apply (IH _ _ _ _ Hf) in H; [done|]. unfold bytes_ok. rewrite Forall_app. split; [done|].
  apply find_some in E as [E _]. unfold payloadsOk in Hf. rewrite List.Forall_forall in Hf. by apply Hf.
Qed.

(** What the sniffer keeps between packets: bytes from which no client hello
    could be read. *)
Definition contextOk (s : Sniffed) : Prop :=
  match sf_SniffContext s with
  | None => True
  | Some fragments =>
      payloadsOk fragments
      /\ forall data, assemble (S (length fragments)) fragments 0 [] = Some data ->
         exists e, ja3_Compute (helloBuffer fragments data) = Err e /\ forall m, e <> GoPanic m
  end.

Lemma helloBuffer_bytes fragments data : bytes_ok data -> bytes_ok (helloBuffer fragments data).
Proof.
  intros Hd. unfold helloBuffer, bytes_ok. rewrite !Forall_app.
  split_and!; [repeat constructor; unfold is_byte; lia|apply be_bytes_ok|done].
Qed.
Lemma quicClient_total types h : types <> [] -> exists c, quicClient types h = Ok c.
Proof.
  intros Ht. unfold quicClient. assert (Hl : 0 < len types) by (destruct types; [done|unfold len; cbn; lia]).
  destruct (index_in types 0) as [first ->]; [lia|]. destruct (index_in types (len types - 1)) as [final ->]; [lia|].
  cbn [result_bind]. repeat case_match; eauto.
Qed.

(** The data put together after the frames [fragments] hold a client hello with
    an extension whose list is too long. *)
Definition helloPanics (fragments : list qCryptoFragment) (s : Sniffed) : Prop :=
  exists data, let all := fragments ++ default [] (sf_SniffContext s) in
    assemble (S (length all)) all 0 [] = Some data /\ crashingRecord (helloBuffer all data).

Lemma finishHello_well fragments types s :
  payloadsOk fragments -> contextOk s -> (types = [] -> fragments = []) ->
  match finishHello fragments types s with
  | Returned _ s' => contextOk s'
  | Panicked _ => helloPanics fragments s
  | Diverges => True
  end.
Proof.
  intros Hf Hc Ht. unfold finishHello. cbn [sf_Protocol sf_Domain sf_Client sf_SniffContext].
  set (all := fragments ++ default [] (sf_SniffContext s)). assert (Hall : payloadsOk all).
  { apply payloadsOk_app. split; [done|]. unfold contextOk in Hc. destruct (sf_SniffContext s); [apply Hc|constructor]. }
  destruct (assemble (S (length all)) all 0 []) as [data|] eqn:Ea; [|done].
  assert (Hb := helloBuffer_bytes all data (assemble_bytes _ _ _ _ _ Hall (List.Forall_nil _) Ea)).
  pose proof (compute_panics _ Hb) as Hp.
  destruct (ja3_Compute (helloBuffer all data)) as [fp|e] eqn:Ec.
  - destruct (negb _); [done|]. destruct (quicClient_total types fp) as [c ->]; [|done].
    intros Hn. specialize (Ht Hn) as ->. subst all. cbn [app] in *. unfold contextOk in Hc.
    destruct (sf_SniffContext s) as [ctx|]; cbn [default id] in *.
    + destruct Hc as [_ Hc]. destruct (Hc data Ea) as (e & He & _). congruence.
    + vm_compute in Ea. injection Ea as <-. vm_compute in Ec. done.
  - assert (Hkeep : (forall m, e <> GoPanic m) -> contextOk (mkSniffed ProtocolQUIC (sf_Domain s) (sf_Client s) (Some all))).
    { intros He. split; [done|]. intros d Hd. assert (d = data) as -> by congruence. by exists e. }
    destruct e; try (apply Hkeep; congruence).
    exists data. split; [done|]. apply Hp. by eexists.
Qed.
Lemma finishHello_panics fragments types s : payloadsOk fragments -> contextOk s -> helloPanics fragments s ->
  exists m, finishHello fragments types s = Panicked m.
Proof.
  intros Hf Hc (data & Ea & Hr). unfold finishHello. cbn [sf_Protocol sf_Domain sf_Client sf_SniffContext]. rewrite Ea.
  assert (Hall : payloadsOk (fragments ++ default [] (sf_SniffContext s))).
  { apply payloadsOk_app. split; [done|]. unfold contextOk in Hc. destruct (sf_SniffContext s); [apply Hc|constructor]. }
  apply compute_panics in Hr as [m ->]; [by exists m|].
  apply helloBuffer_bytes, (assemble_bytes _ _ _ _ _ Hall (List.Forall_nil _) Ea).
Qed.

Section sniffer.
Context `{Q : QUICCrypto}.

(** What makes the sniffer panic on a packet. *)
Definition crashingPacket (packet : list Z) (s : Sniffed) : Prop :=
  exists h memory n, parseInitialHeader packet = Ok h /\ removeProtection packet h = Ok (memory, n)
    /\ (overrun memory n
        \/ exists fragments types,
             readFrames (Z.to_nat n) memory n (take (Z.to_nat n) memory) [] [] = Ok (fragments, types)
             /\ helloPanics fragments s).

Lemma readFrames_start packet h memory n :
  bytes_ok packet -> parseInitialHeader packet = Ok h -> removeProtection packet h = Ok (memory, n) ->
  framesOk memory n [] [] (readFrames (Z.to_nat n) memory n (take (Z.to_nat n) memory) [] []).
Proof.
  intros Hb Eh Er. pose proof (parseInitialHeader_well packet Hb) as Hh. rewrite Eh in Hh.
  pose proof (removeProtection_well packet h Hb Hh) as Hr. rewrite Er in Hr. destruct Hr as [Hbm Hn].
  apply readFrames_well; try done; [rewrite length_take; lia|constructor|constructor].
Qed.

Lemma sniff_panics packet s : bytes_ok packet -> contextOk s ->
  match QUICClientHello_sniff packet s with
  | Returned _ s' => contextOk s'
  | Panicked _ => crashingPacket packet s
  | Diverges => True
  end.
Proof.
  intros Hb Hc. unfold QUICClientHello_sniff. pose proof (parseInitialHeader_well packet Hb) as Hh.
  destruct (parseInitialHeader packet) as [h|e] eqn:Eh; cbn [result_bind]; [|destruct e; naive_solver].
  pose proof (removeProtection_well packet h Hb Hh) as Hr.
  destruct (removeProtection packet h) as [[memory n]|e] eqn:Er; cbn [result_bind]; [|destruct e; naive_solver].
  pose proof (readFrames_start packet h memory n Hb Eh Er) as Hf. unfold framesOk in Hf.
  destruct (readFrames _ _ _ _ _ _) as [[fragments types]|e] eqn:Ef.
  - destruct Hf as [Hp Ht]. pose proof (finishHello_well fragments types s Hp Hc ltac:(naive_solver)) as Hw.
    destruct (finishHello _ _ _); [done| |done]. exists h, memory, n. split_and!; [done..|]. right. by exists fragments, types.
  - destruct e; try done. exists h, memory, n. split_and!; [done..|]. left. apply Hf. by eexists.
Qed.
Lemma crashing_panics packet s : bytes_ok packet -> contextOk s -> crashingPacket packet s ->
  exists m, QUICClientHello_sniff packet s = Panicked m.
Proof.
  intros Hb Hc (h & memory & n & Eh & Er & H). pose proof (readFrames_start packet h memory n Hb Eh Er) as Hf.
  unfold QUICClientHello_sniff. rewrite Eh. cbn [result_bind]. rewrite Er. cbn [result_bind].
  destruct H as [Ho|(fragments & types & Ef & Hp)].
  - destruct (overrun_panics _ _ Ho) as [m ->]. by exists m.
  - rewrite Ef in *. destruct Hf as [Hpay _]. by apply finishHello_panics.
Qed.

(** C21 When the QUIC sniffer panics, exactly, on any packet: when the header
    is accepted, the protection comes off, and either a CRYPTO frame's length
    runs past the memory of the decrypted packet, or the data assembled from
    the frames is a record that the client hello parser panics on (C34: a list
    of versions or signature algorithms that, rounded up to whole entries, does
    not fit its extension).  Otherwise what the sniffer keeps for the next
    packet satisfies what the theorem assumes of the context. *)
Theorem quic_panic_cause packet s : bytes_ok packet -> contextOk s ->
  ((exists m, QUICClientHello_sniff packet s = Panicked m)
   <-> exists h memory n, parseInitialHeader packet = Ok h /\ removeProtection packet h = Ok (memory, n)
       /\ (overrun memory n
           \/ exists fragments types,
                readFrames (Z.to_nat n) memory n (take (Z.to_nat n) memory) [] [] = Ok (fragments, types)
                /\ helloPanics fragments s))
  /\ forall e s', QUICClientHello_sniff packet s = Returned e s' -> contextOk s'.
Proof.
  intros Hb Hc. pose proof (sniff_panics packet s Hb Hc) as H. split; [split|].
  - intros [m Em]. rewrite Em in H. exact H.
  - by apply crashing_panics.
  - intros e s' E. by rewrite E in H.
Qed.
End sniffer.
