(* ===== verification/Sniffers.v ===== *)
(** * The protocol sniffers: [common/sniff]

    The sniffers for streams read from the buffers of a connection one after
    the other; those for packets look at one datagram.  HTTP, TLS and DNS
    messages are parsed by libraries, which are arguments; the QUIC sniffer is in
    the file Quic.  An error leaves the metadata as they were, but for QUIC. *)

From S2P Require Import Prelude.
From S2P Require Import GoText.
From S2P Require Import Bytes.
From S2P Require Import NetIP.
From S2P Require Import Libs.
From S2P Require Import Metadata.
From S2P Require Import RuleAction.
From S2P Require Import Ja3.
From S2P Require Import Sniff.
From S2P Require Import Quic.
Local Open Scope string_scope.
Local Open Scope list_scope.
Local Open Scope Z_scope.

(** ** Readers *)

(** [io.MultiReader]: a read gives what the first buffer that is not exhausted
    has; nothing is [io.EOF]. *)
Fixpoint multiRead (n : nat) (readers : list (list Z)) : option (list Z * list (list Z)) :=
  match readers with
  | [] => None
  | [] :: readers => multiRead n readers
  | buffer :: readers => Some (take n buffer, drop n buffer :: readers)
  end.
(** [io.ReadFull]: reads until it has [n] bytes or an error; every turn gives a
    byte. *)
Fixpoint readFullLoop (fuel n : nat) (got : list Z) (readers : list (list Z)) : list Z * list (list Z) :=
  match fuel, n with
  | S fuel, S _ =>
      match multiRead n readers with
      | None => (got, [])
      | Some (data, readers) => readFullLoop fuel (n - length data)%nat (got ++ data) readers
      end
  | _, _ => (got, readers)
  end.
Definition multiReadFull (n : nat) (readers : list (list Z)) : list Z * option GoError * list (list Z) :=
  let '(got, readers) := readFullLoop n n [] readers in
  (got, if (length got =? n)%nat then None else Some (if (length got =? 0)%nat then ErrEOF else ErrUnexpectedEOF), readers).
(** [binary.Read(reader, binary.BigEndian, &x)], an error being a lack of data. *)
Definition readUint (n : nat) (readers : list (list Z)) : result (Z * list (list Z)) :=
  match multiReadFull n readers with
  | (_, Some err, _) => Err (needMore err)
  | (got, None, readers) => Ok (be_value got, readers)
  end.
(** ** Libraries *)

(** What the libraries give: the host of an HTTP request, the server name of the
    client hello a TLS server accepts together with the handshake's error, and
    the header of a DNS message; [rw.SkipN], which fails if there are too few bytes. *)
Record dnsHeader := mkDnsHeader {
  dh_Response : bool; dh_Question : nat; dh_Answer : nat; dh_Ns : nat }.
Class SniffLibs := {
  http_ReadRequest : list Z -> result string;
  M_ParseSocksaddr : string -> Socksaddr;
  tls_Handshake : list Z -> option string * option GoError;
  dns_Unpack : list Z -> result dnsHeader;
  isUnexpectedEOF : GoError -> bool;
  rw_SkipN : nat -> list (list Z) -> result (list (list Z));
  rw_SkipN_ok n readers : (n <= length (concat readers))%nat ->
    exists readers', rw_SkipN n readers = Ok readers' /\ concat readers' = drop n (concat readers);
  rw_SkipN_short n readers : (length (concat readers) < n)%nat -> exists err, rw_SkipN n readers = Err err }.

(** ** Streams *)

Definition bittorrentHeader : list Z := string_bytes "BitTorrent protocol".
Definition BitTorrent_sniff (reader : list (list Z)) (s : Sniffed) : result Sniffed :=
  let? '(first, reader) := readUint 1 reader in
  if negb (first =? 19) then Err ErrInvalid
  else
    let '(protocol, err) := match multiRead 19 reader with Some (data, _) => (data, None) | None => ([], Some ErrEOF) end in
    if negb (bool_decide (protocol = take (length protocol) bittorrentHeader)) then Err ErrInvalid
    else
      match err with
      | Some err => Err (needMore err)
      | None => if (length protocol <? 19)%nat then Err ErrNeedMoreData else Ok {| s with sf_Protocol := ProtocolBitTorrent |}
      end.

(** [bufio.Reader] with its buffer of 4096 bytes: [Peek] at the start, then
    [ReadLine]. *)
Definition bufioPeek (n : nat) (data : list Z) : list Z * option GoError :=
  (take n data, if (length data <? n)%nat then Some ErrEOF else None).
Definition dropLast (b : Z) (line : list Z) : list Z :=
  match rev line with x :: l => if x =? b then rev l else line | [] => line end.
Fixpoint untilNewline (data : list Z) : option (list Z) :=
  match data with
  | [] => None
  | b :: data => if b =? 10 then Some [] else (cons b) <$> untilNewline data
  end.
Definition bufioReadLine (data : list Z) : result (list Z) :=
  let window := take 4096 data in
  match untilNewline window with
  | Some line => Ok (dropLast 13 line)
  | None => if (length window =? 0)%nat then Err ErrEOF else Ok (if (length window =? 4096)%nat then dropLast 13 window else window)
  end.

Definition sshPrefix : list Z := string_bytes "SSH-2.0-".
Definition SSH_sniff (reader : list (list Z)) (s : Sniffed) : result Sniffed :=
  let data := concat reader in
  let '(prefix, err) := bufioPeek (length sshPrefix) data in
  if negb (bool_decide (prefix = take (length prefix) sshPrefix)) then Err ErrInvalid
  else
    match err with
    | Some err => Err (needMore err)
    | None =>
        let? firstLine := bufioReadLine data in
        let? client := sliceFrom firstLine 8 in
        Ok {| s with sf_Protocol := ProtocolSSH; sf_Client := bytes_string client |}
    end.

Definition byteAt (packet : list Z) (i : nat) : Z := nth i packet 0.
Definition uintAt (packet : list Z) (i n : nat) : Z := be_value (take n (drop i packet)).

Section sniffers.
Context `{L : SniffLibs}.

(** An error while parsing; the end of the data within a message asks for more. *)
Definition parseError (err : GoError) : GoError := if isUnexpectedEOF err then needMore err else err.

(** [rw.SkipN], an error being a lack of data. *)
Definition skipOrMore (n : nat) (reader : list (list Z)) : result (list (list Z)) :=
  match rw_SkipN n reader with Ok reader => Ok reader | Err err => Err (needMore err) end.

Definition RDP_sniff (reader : list (list Z)) (s : Sniffed) : result Sniffed :=
  let? '(tpktVersion, reader) := readUint 1 reader in
  if negb (tpktVersion =? 3) then Err ErrInvalid
  else
    let? '(tpktReserved, reader) := readUint 1 reader in
    if negb (tpktReserved =? 0) then Err ErrInvalid
    else
      let? '(tpktLength, reader) := readUint 2 reader in
      if negb (tpktLength =? 19) then Err ErrInvalid
      else
        let? '(cotpLength, reader) := readUint 1 reader in
        if negb (cotpLength =? 14) then Err ErrInvalid
        else
          let? '(cotpTpduType, reader) := readUint 1 reader in
          if negb (cotpTpduType =? 224) then Err ErrInvalid
          else
            let? reader := skipOrMore 5 reader in
            let? '(rdpType, reader) := readUint 1 reader in
            if negb (rdpType =? 1) then Err ErrInvalid
            else
              let? '(rdpFlags, reader) := readUint 1 reader in
              let? '(rdpLength, reader) := readUint 1 reader in
              if negb (rdpLength =? 8) then Err ErrInvalid
              else Ok {| s with sf_Protocol := ProtocolRDP |}.

Definition HTTPHost_sniff (reader : list (list Z)) (s : Sniffed) : result Sniffed :=
  match http_ReadRequest (concat reader) with
  | Err err => Err (parseError err)
  | Ok host => Ok {| s with sf_Protocol := ProtocolHTTP; sf_Domain := sa_Fqdn (M_ParseSocksaddr host) |}
  end.

Definition TLSClientHello_sniff (reader : list (list Z)) (s : Sniffed) : result Sniffed :=
  match tls_Handshake (concat reader) with
  | (Some serverName, _) => Ok {| s with sf_Protocol := ProtocolTLS; sf_Domain := serverName |}
  | (None, Some err) => Err (parseError err)
  | (None, None) => Ok s
  end.

(** A message that is not a plain query is no error. *)
Definition DomainNameQuery_sniff (packet : list Z) (s : Sniffed) : result Sniffed :=
  let? msg := dns_Unpack packet in
  if dh_Response msg || (dh_Question msg =? 0)%nat || (0 <? dh_Answer msg)%nat || (0 <? dh_Ns msg)%nat then Ok s
  else Ok {| s with sf_Protocol := ProtocolDNS |}.

Definition StreamDomainNameQuery_sniff (reader : list (list Z)) (s : Sniffed) : result Sniffed :=
  let? '(length, reader) := readUint 2 reader in
  if length <? 12 then Err ErrInvalid
  else
    (* [buffer.ReadFullFrom] fills the buffer as [io.ReadFull] does *)
    let '(packet, err, _) := multiReadFull (Z.to_nat length) reader in
    let n := len packet in
    if (2 <? n) && negb (Z.land (byteAt packet 2) 128 =? 0) then Err ErrInvalid
    else if (5 <? n) && (byteAt packet 4 =? 0) && (byteAt packet 5 =? 0) then Err ErrInvalid
    else if existsb (fun i => (Z.of_nat i <? n) && negb (byteAt packet i =? 0)) [6; 7; 8; 9]%nat then Err ErrInvalid
    else match err with Some err => Err (needMore err) | None => DomainNameQuery_sniff packet s end.

(** ** Packets *)

(** The extensions of a uTP packet: every turn reads two bytes. *)
Fixpoint utpExtensions (fuel : nat) (extension : Z) (reader : list Z) : option GoError :=
  if extension =? 0 then None
  else
    match fuel with
    | O => Some ErrEOF
    | S fuel =>
        match reader with
        | [] => Some ErrEOF
        | extension :: reader =>
            if 4 <? extension then Some ErrInvalid
            else
              match reader with
              | [] => Some ErrEOF
              | length :: reader => utpExtensions fuel extension (seek length reader)
              end
        end
    end.
Definition UTP_sniff (packet : list Z) (s : Sniffed) : result Sniffed :=
  if len packet <? 20 then Err ErrInvalid
  else
    let version := Z.land (byteAt packet 0) 15 in
    let ty := Z.shiftr (byteAt packet 0) 4 in
    if negb (version =? 1) || (4 <? ty) then Err ErrInvalid
    else
      match utpExtensions (length packet) (byteAt packet 1) (drop 20 packet) with
      | Some err => Err err
      | None => Ok {| s with sf_Protocol := ProtocolBitTorrent |}
      end.

Definition trackerConnectFlag : Z := 0.
Definition trackerProtocolID : Z := 4497486125440. (* 0x41727101980 *)
Definition trackerConnectMinSize : Z := 16.
Definition UDPTracker_sniff (packet : list Z) (s : Sniffed) : result Sniffed :=
  if len packet <? trackerConnectMinSize then Err ErrInvalid
  else if negb (uintAt packet 0 8 =? trackerProtocolID) then Err ErrInvalid
  else if negb (uintAt packet 8 4 =? trackerConnectFlag) then Err ErrInvalid
  else Ok {| s with sf_Protocol := ProtocolBitTorrent |}.

Definition DTLSRecord_sniff (packet : list Z) (s : Sniffed) : result Sniffed :=
  if len packet <? 13 then Err ErrInvalid
  else if negb (existsb (Z.eqb (byteAt packet 0)) [20; 21; 22; 23; 25]) then Err ErrInvalid
  else if negb (byteAt packet 1 =? 254) then Err ErrInvalid
  else if negb (byteAt packet 2 =? 255) && negb (byteAt packet 2 =? 253) then Err ErrInvalid
  else Ok {| s with sf_Protocol := ProtocolDTLS |}.

Definition STUNMessage_sniff (packet : list Z) (s : Sniffed) : result Sniffed :=
  if len packet <? 20 then Err ErrInvalid
  else if negb (uintAt packet 4 4 =? 554869826 (* 0x2112A442 *)) then Err ErrInvalid
  else if len packet <? 20 + uintAt packet 2 2 then Err ErrInvalid
  else Ok {| s with sf_Protocol := ProtocolSTUN |}.

(** The root delay and dispersion are in units of 1/65536 seconds; dividing a
    32-bit integer by 65536 is exact. *)
Definition NTP_sniff (packet : list Z) (s : Sniffed) : result Sniffed :=
  if len packet <? 48 then Err ErrInvalid
  else
    let firstByte := byteAt packet 0 in
    let li := Z.land (Z.shiftr firstByte 6) 3 in
    let vn := Z.land (Z.shiftr firstByte 3) 7 in
    let mode := Z.land firstByte 7 in
    if 3 <? li then Err ErrInvalid
    else if negb (vn =? 3) && negb (vn =? 4) then Err ErrInvalid
    else if negb (mode =? 3) then Err ErrInvalid
    else if 16 * 65536 <? uintAt packet 4 4 then Err ErrInvalid
    else if 16 * 65536 <? uintAt packet 8 4 then Err ErrInvalid
    else Ok {| s with sf_Protocol := ProtocolNTP |}.

(** ** All of them *)

Definition streamSniffer (sniffer : StreamSniffer) : list (list Z) -> Sniffed -> result Sniffed :=
  match sniffer with
  | TLSClientHello => TLSClientHello_sniff
  | HTTPHost => HTTPHost_sniff
  | StreamDomainNameQuery => StreamDomainNameQuery_sniff
  | BitTorrent => BitTorrent_sniff
  | SSH => SSH_sniff
  | RDP => RDP_sniff
  end.
Definition packetSniffer `{QUICCrypto} (sniffer : PacketSniffer) (packet : list Z) (s : Sniffed) : quicOutcome :=
  match sniffer with
  | QUICClientHello => QUICClientHello_sniff packet s
  | DomainNameQuery => outcomeOf (DomainNameQuery_sniff packet s) s
  | STUNMessage => outcomeOf (STUNMessage_sniff packet s) s
  | UTP => outcomeOf (UTP_sniff packet s) s
  | UDPTracker => outcomeOf (UDPTracker_sniff packet s) s
  | DTLSRecord => outcomeOf (DTLSRecord_sniff packet s) s
  | NTP => outcomeOf (NTP_sniff packet s) s
  end.
End sniffers.
