(* ===== verification/SniffersTheorems.v ===== *)
(** * What the sniffers recognise

    The BitTorrent, SSH and RDP sniffers recognise a fixed pattern at the start
    of a stream; [PeekStream] finds it however the network cuts the stream.  The
    sniffers for packets exclude each other. *)

From S2P Require Import Prelude.
From S2P Require Import GoText.
From S2P Require Import Bytes.
From S2P Require Import NetIP.
From S2P Require Import Libs.
From S2P Require Import Metadata.
From S2P Require Import RuleAction.
From S2P Require Import Ja3.
From S2P Require Import Ja3Theorems.
From S2P Require Import Sniff.
From S2P Require Import Quic.
From S2P Require Import Sniffers.
Local Open Scope string_scope.
Local Open Scope list_scope.
Local Open Scope Z_scope.

(** ** Readers *)

Lemma multiRead_spec n readers : n <> O ->
  match multiRead n readers with
  | None => concat readers = []
  | Some (data, readers') => data <> [] /\ (length data <= n)%nat /\ concat readers = data ++ concat readers'
  end.
Proof.
  intros Hn. induction readers as [|[|b buffer] readers IH]; [done|exact IH|]. cbn [multiRead concat]. split_and!.
  - by destruct n.
  - rewrite length_take. lia.
  - by rewrite app_assoc, take_drop.
Qed.
Lemma readFullLoop_spec fuel : forall n got readers, (n <= fuel)%nat ->
  exists readers', readFullLoop fuel n got readers = (got ++ take n (concat readers), readers')
    /\ concat readers' = drop n (concat readers).
Proof.
  induction fuel as [|fuel IH]; intros n got readers Hn.
  { destruct n; [|lia]. exists readers. by rewrite take_0, app_nil_r, drop_0. }
  destruct n as [|n]. { exists readers. cbn. by rewrite app_nil_r, drop_0. }
  cbn [readFullLoop]. pose proof (multiRead_spec (S n) readers ltac:(done)) as H.
  destruct (multiRead (S n) readers) as [[data r]|].
  - destruct H as (Hd & Hl & ->). assert (length data <> O) by (by destruct data).
    destruct (IH (S n - length data)%nat (got ++ data) r) as (r' & -> & Hr); [lia|]. exists r'.
    by rewrite take_app_ge, drop_app_ge, <- app_assoc by done.
  - rewrite H. exists []. by rewrite take_nil, drop_nil, app_nil_r.
Qed.
Lemma multiReadFull_spec n readers :
  exists readers', multiReadFull n readers =
    (take n (concat readers),
     (if (length (concat readers) <? n)%nat then
        Some (if (length (concat readers) =? 0)%nat then ErrEOF else ErrUnexpectedEOF) else None), readers')
    /\ concat readers' = drop n (concat readers).
Proof.
  unfold multiReadFull. destruct (readFullLoop_spec n n [] readers) as (r & -> & Hr); [done|]. exists r. split; [|done].
  cbn [app]. rewrite length_take. repeat f_equal.
  destruct (Nat.eqb_spec (n `min` length (concat readers)) n), (Nat.ltb_spec (length (concat readers)) n); try lia; try done.
  f_equal. destruct (Nat.eqb_spec (n `min` length (concat readers)) 0), (Nat.eqb_spec (length (concat readers)) 0); done || lia.
Qed.

(** Asking for more data. *)
Definition asksMore {A} (r : result A) : Prop :=
  r = Err ErrNeedMoreData \/ exists message, r = Err (E_Cause ErrNeedMoreData message).
Lemma needMore_asks {A} err : asksMore (Err (needMore err) : result A).
Proof. right. by eexists. Qed.

Lemma readUint_more n readers : (length (concat readers) < n)%nat -> exists err, readUint n readers = Err (needMore err).
Proof.
  intros Hl. unfold readUint. destruct (multiReadFull_spec n readers) as (r & -> & _).
  destruct (Nat.ltb_spec (length (concat readers)) n); [by eexists|lia].
Qed.
Lemma readUint_app n readers a d : concat readers = a ++ d -> length a = n ->
  exists readers', readUint n readers = Ok (be_value a, readers') /\ concat readers' = d.
Proof.
  intros E <-. unfold readUint. destruct (multiReadFull_spec (length a) readers) as (r & -> & Hr). rewrite E in *.
  rewrite length_app. destruct (Nat.ltb_spec (length a + length d) (length a)); [lia|].
  exists r. by rewrite take_app_length, drop_app_length in *.
Qed.
Lemma readUint_1 readers b d : concat readers = b :: d ->
  exists readers', readUint 1 readers = Ok (b, readers') /\ concat readers' = d.
Proof.
  intros E. destruct (readUint_app 1 readers [b] d E eq_refl) as (r & -> & Hr). exists r. split; [|done].
  done.
Qed.

(** ** Patterns *)

(** A pattern gives the bytes at the start of a stream; [None] is any byte. *)
Definition pattern := list (option Z).
Definition fits (p : option Z) (b : Z) : bool := match p with Some x => x =? b | None => true end.
Fixpoint agrees (pat : pattern) (data : list Z) : bool :=
  match pat, data with p :: pat, b :: data => fits p b && agrees pat data | _, _ => true end.
Definition matches (pat : pattern) (data : list Z) : bool := (length pat <=? length data)%nat && agrees pat data.

Definition exactly (l : list Z) : pattern := map Some l.
Definition patternOf (sniffer : StreamSniffer) : option pattern :=
  match sniffer with
  | BitTorrent => Some (exactly (19 :: bittorrentHeader))
  | SSH => Some (exactly sshPrefix)
  | RDP => Some (exactly [3; 0; 0; 19; 14; 224] ++ repeat None 5 ++ [Some 1; None; Some 8])
  | _ => None
  end.
Definition protocolOf (sniffer : StreamSniffer) : string :=
  match sniffer with
  | TLSClientHello => ProtocolTLS | HTTPHost => ProtocolHTTP | StreamDomainNameQuery => ProtocolDNS
  | BitTorrent => ProtocolBitTorrent | SSH => ProtocolSSH | RDP => ProtocolRDP
  end.

(** What a sniffer of a pattern says of the data so far: yes once the pattern is
    there; more, please, as long as it may come; otherwise no, or at least not
    yes. *)
Definition verdict (pat : pattern) (protocol : string) (data : list Z) (r : result Sniffed) : Prop :=
  if agrees pat data then
    if (length data <? length pat)%nat then asksMore r else exists s', r = Ok s' /\ sf_Protocol s' = protocol
  else r = Err ErrInvalid \/ asksMore r /\ (length data < length pat)%nat.

Lemma agrees_exactly l data :
  agrees (exactly l) data = bool_decide (take (length l) data = take (length data) l).
Proof.
  revert data. induction l as [|x l IH]; intros [|b data]; try (cbn; by rewrite bool_decide_true).
  cbn [exactly map agrees length take fits]. fold (exactly l). rewrite IH. apply eq_true_iff_eq.
  rewrite andb_true_iff, Z.eqb_eq, !bool_decide_eq_true. split; [intros [-> ->]|intros [= -> ->]]; done.
Qed.

(** The first line of an SSH stream contains the prefix, so cutting it off is
    safe. *)
Lemma dropLast_prefix l : exists l', dropLast 13 (sshPrefix ++ l) = sshPrefix ++ l'.
Proof.
  destruct l as [|x l _] using rev_ind; [by exists []|]. unfold dropLast.
  rewrite app_assoc, rev_app_distr. cbn [rev app]. destruct (x =? 13).
  - exists l. by rewrite rev_involutive.
  - exists (l ++ [x]). by rewrite app_assoc.
Qed.
Lemma untilNewline_prefix l : untilNewline (sshPrefix ++ l) = (app sshPrefix) <$> untilNewline l.
Proof. cbn. by destruct (untilNewline l). Qed.
Lemma readLine_prefix d : exists l, bufioReadLine (sshPrefix ++ d) = Ok (sshPrefix ++ l).
Proof.
  unfold bufioReadLine. rewrite take_app_ge by (cbn; lia). set (w := take _ d). rewrite untilNewline_prefix.
  destruct (untilNewline w) as [l|]; cbn [fmap option_fmap option_map].
  - destruct (dropLast_prefix l) as [l' ->]. by eexists.
  - rewrite length_app. change (length sshPrefix) with 8%nat. destruct (dropLast_prefix w) as [l' ->].
    destruct (Nat.eqb_spec (8 + length w) 0); [lia|]. destruct (_ =? _)%nat; by eexists.
Qed.

Lemma ssh_verdict readers s : verdict (exactly sshPrefix) ProtocolSSH (concat readers) (SSH_sniff readers s).
Proof.
  unfold verdict, SSH_sniff. rewrite agrees_exactly. cbv zeta. unfold bufioPeek. set (data := concat readers). clearbody data.
  rewrite length_take. replace (take (_ `min` length data)%nat sshPrefix) with (take (length data) sshPrefix) by
    (destruct (Nat.le_ge_cases (length data) (length sshPrefix)); [by rewrite Nat.min_r|
      rewrite Nat.min_l by done; by rewrite !take_ge by done]).
  destruct (bool_decide _) eqn:E; cbn [negb]; [|by left]. apply bool_decide_eq_true in E.
  unfold exactly. rewrite length_map. destruct (Nat.ltb_spec (length data) (length sshPrefix)); [apply needMore_asks|].
  rewrite (take_ge sshPrefix) in E by lia.
  rewrite <- (take_drop (length sshPrefix) data), E. destruct (readLine_prefix (drop (length sshPrefix) data)) as [l ->].
  cbn [result_bind]. rewrite (sliceFrom_app sshPrefix l 8 eq_refl). by eexists.
Qed.

Lemma bittorrent_verdict data s :
  verdict (exactly (19 :: bittorrentHeader)) ProtocolBitTorrent data (BitTorrent_sniff [data] s).
Proof.
  unfold verdict, BitTorrent_sniff. destruct data as [|b data].
  { destruct (readUint_more 1 [[]]) as [e ->]; [cbn; lia|]. apply needMore_asks. }
  change (readUint 1 [b :: data]) with (Ok (b, [data]) : result (Z * list (list Z))). cbn [result_bind].
  change (agrees (exactly (19 :: bittorrentHeader)) (b :: data)) with ((19 =? b) && agrees (exactly bittorrentHeader) data).
  rewrite Z.eqb_sym, agrees_exactly. destruct (b =? 19); cbn [andb negb]; [|by left].
  set (r := match multiRead 19 [data] with Some _ => _ | None => _ end).
  assert (Hr : r = (take 19 data, if (length data =? 0)%nat then Some ErrEOF else None)) by by destruct data. rewrite Hr. clear r Hr.
  rewrite length_take. replace (take (_ `min` length data)%nat bittorrentHeader) with (take (length data) bittorrentHeader) by
    (destruct (Nat.le_ge_cases (length data) 19); [by rewrite Nat.min_r|
      rewrite Nat.min_l by done; by rewrite !take_ge by (cbn; lia)]).
  change (length bittorrentHeader) with 19%nat. change (length (exactly _)) with 20%nat. cbn [length].
  destruct (bool_decide _); cbn [negb]; [|by left].
  destruct (Nat.eqb_spec (length data) 0) as [->|Hn]; [apply needMore_asks|].
  destruct (Nat.ltb_spec (S (length data)) 20), (Nat.ltb_spec (19 `min` length data) 19); try lia; [by left|by eexists].
Qed.

(** Verdicts of the pieces of a sniffer. *)
Lemma verdict_short pat protocol data err :
  (length data < length pat)%nat -> verdict pat protocol data (Err (needMore err)).
Proof.
  intros Hl. unfold verdict. destruct (Nat.ltb_spec (length data) (length pat)); [|lia].
  destruct (agrees _ _); [apply needMore_asks|]. right. split; [apply needMore_asks|done].
Qed.
Lemma verdict_cons q b pat protocol data r :
  fits q b = true -> verdict pat protocol data r -> verdict (q :: pat) protocol (b :: data) r.
Proof.
  unfold verdict. intros Hf. cbn [agrees length]. rewrite Hf. cbn [andb].
  change (S (length data) <? S (length pat))%nat with (length data <? length pat)%nat.
  destruct (agrees _ _); [done|]. intros [H|[H Hl]]; [by left|]. right. split; [done|lia].
Qed.
Lemma verdict_refuse q b pat protocol data :
  fits q b = false -> verdict (q :: pat) protocol (b :: data) (Err ErrInvalid).
Proof. unfold verdict. intros Hf. cbn [agrees]. rewrite Hf. by left. Qed.

Section pieces.
Context (pat : pattern) (protocol : string) (k : list (list Z) -> result Sniffed).
Hypothesis Hk : forall readers, bytes_ok (concat readers) -> verdict pat protocol (concat readers) (k readers).

Lemma verdict_byte x readers : bytes_ok (concat readers) ->
  verdict (Some x :: pat) protocol (concat readers)
    (let? '(b, readers) := readUint 1 readers in if negb (b =? x) then Err ErrInvalid else k readers).
Proof.
  intros Hb. remember (concat readers) as data eqn:E. symmetry in E. destruct data as [|b data].
  { destruct (readUint_more 1 readers) as [e ->]; [rewrite E; cbn; lia|]. apply verdict_short. cbn. lia. }
  destruct (readUint_1 _ _ _ E) as (r & -> & <-). cbn [result_bind].
  destruct (Z.eqb_spec b x) as [->|Hn]; cbn [negb].
  - apply verdict_cons; [apply Z.eqb_refl|]. apply Hk. exact (Forall_inv_tail Hb).
  - apply verdict_refuse. cbn. apply Z.eqb_neq. congruence.
Qed.
Lemma verdict_any readers : bytes_ok (concat readers) ->
  verdict (None :: pat) protocol (concat readers) (let? '(_, readers) := readUint 1 readers in k readers).
Proof.
  intros Hb. remember (concat readers) as data eqn:E. symmetry in E. destruct data as [|b data].
  { destruct (readUint_more 1 readers) as [e ->]; [rewrite E; cbn; lia|]. apply verdict_short. cbn. lia. }
  destruct (readUint_1 _ _ _ E) as (r & -> & <-). cbn [result_bind]. apply verdict_cons; [done|]. apply Hk.
  exact (Forall_inv_tail Hb).
Qed.
Lemma verdict_word x readers : 0 <= x < 256 -> bytes_ok (concat readers) ->
  verdict (Some 0 :: Some x :: pat) protocol (concat readers)
    (let? '(b, readers) := readUint 2 readers in if negb (b =? x) then Err ErrInvalid else k readers).
Proof.
  intros Hx Hb. remember (concat readers) as data eqn:E. symmetry in E. destruct data as [|a [|b data]];
    [destruct (readUint_more 2 readers) as [e ->]; [rewrite E; cbn; lia|]; apply verdict_short; cbn; lia..|].
  destruct (readUint_app 2 readers [a; b] data E eq_refl) as (r & -> & <-). cbn [result_bind].
  pose proof (Forall_inv Hb) as Ha. pose proof (Forall_inv (Forall_inv_tail Hb)) as Hb'. unfold is_byte in *.
  change (be_value [a; b]) with (a * 256 + b). destruct (Z.eqb_spec (a * 256 + b) x) as [He|Hn]; cbn [negb].
  - assert (a = 0) as -> by lia. assert (b = x) as -> by lia. repeat (apply verdict_cons; [apply Z.eqb_refl|]).
    apply Hk. exact (Forall_inv_tail (Forall_inv_tail Hb)).
  - destruct (Z.eqb_spec 0 a) as [<-|Ha0].
    + apply verdict_cons; [done|]. apply verdict_refuse. apply Z.eqb_neq. lia.
    + apply verdict_refuse. by apply Z.eqb_neq.
Qed.
Lemma verdict_skip `{SniffLibs} n readers : bytes_ok (concat readers) ->
  verdict (repeat None n ++ pat) protocol (concat readers) (let? readers := skipOrMore n readers in k readers).
Proof.
  intros Hb. unfold skipOrMore. destruct (Nat.lt_ge_cases (length (concat readers)) n) as [Hl|Hl].
  - destruct (rw_SkipN_short n readers Hl) as [err ->]. apply verdict_short. rewrite length_app, repeat_length. lia.
  - destruct (rw_SkipN_ok n readers Hl) as (r & -> & Hr). cbn [result_bind].
    rewrite <- (take_drop n (concat readers)), <- Hr. assert (Hd : length (take n (concat readers)) = n)
      by (rewrite length_take; lia). set (d := take n (concat readers)) in *. clearbody d. rewrite <- Hd. clear Hd Hl.
    assert (Hv : verdict pat protocol (concat r) (k r)) by (apply Hk; rewrite Hr; by apply Forall_drop).
    induction d as [|b d IH]; [done|]. by apply verdict_cons.
Qed.
End pieces.

Lemma rdp_verdict `{SniffLibs} readers s : bytes_ok (concat readers) ->
  verdict (exactly [3; 0; 0; 19; 14; 224] ++ repeat None 5 ++ [Some 1; None; Some 8]) ProtocolRDP (concat readers)
    (RDP_sniff readers s).
Proof.
  intros Hb. unfold RDP_sniff. cbn [exactly map app].
  apply verdict_byte; [|done]. clear readers Hb. intros readers Hb.
  apply verdict_byte; [|done]. clear readers Hb. intros readers Hb.
  apply verdict_word; [|lia|done]. clear readers Hb. intros readers Hb.
  apply verdict_byte; [|done]. clear readers Hb. intros readers Hb.
  apply verdict_byte; [|done]. clear readers Hb. intros readers Hb.
  apply (verdict_skip [Some 1; None; Some 8]); [|done]. clear readers Hb. intros readers Hb.
  apply verdict_byte; [|done]. clear readers Hb. intros readers Hb.
  apply verdict_any; [|done]. clear readers Hb. intros readers Hb.
  apply (verdict_byte [] _ (fun _ => Ok _)); [|done]. intros r _. unfold verdict. by eexists.
Qed.

Section streams.
Context `{L : SniffLibs} `{Q : QUICCrypto}.

Lemma pattern_verdict sniffer pat readers s :
  patternOf sniffer = Some pat -> bytes_ok (concat readers) -> (sniffer = BitTorrent -> exists data, readers = [data]) ->
  verdict pat (protocolOf sniffer) (concat readers) (streamSniffer sniffer readers s).
Proof.
  intros Hp Hb Hone. destruct sniffer; simplify_eq/=.
  - destruct (Hone eq_refl) as [data ->]. cbn [concat]. rewrite app_nil_r. apply bittorrent_verdict.
  - apply ssh_verdict.
  - by apply rdp_verdict.
Qed.

(** What the BitTorrent, SSH and RDP sniffers say of the bytes read so far:
    they accept, with their protocol, exactly when the bytes start with their
    pattern; they ask for more as long as the bytes may still become such a
    start; otherwise they refuse, or ask for more while the pattern's length is
    not reached.  For SSH and RDP it does not matter how the bytes are spread
    over buffers; BitTorrent needs them in one. *)
Theorem stream_sniffer_verdicts sniffer pat readers s :
  patternOf sniffer = Some pat -> bytes_ok (concat readers) -> (sniffer = BitTorrent -> exists data, readers = [data]) ->
  verdict pat (protocolOf sniffer) (concat readers) (streamSniffer sniffer readers s).
Proof. apply pattern_verdict. Qed.

(** ** Peeking *)

(** The interface to the router is implemented by these sniffers, as far as
    they return. *)
Definition implements (Sn : Sniffing) : Prop :=
  (forall sniffer readers s, stream_sniff sniffer readers s =
     match streamSniffer sniffer readers s with Ok s' => (None, s') | Err err => (Some err, s) end)
  /\ forall sniffer packet s err s', packetSniffer sniffer packet s = Returned err s' ->
     packet_sniff sniffer packet s = (err, s').

(** A sniffer that does not take the stream, wherever it is cut. *)
Definition declines (sniffer : StreamSniffer) (stream : list Z) : Prop :=
  forall data s, data `prefix_of` stream -> exists err, streamSniffer sniffer [data] s = Err err.

Lemma agrees_prefix pat data stream : data `prefix_of` stream -> agrees pat stream = true -> agrees pat data = true.
Proof.
  revert data stream. induction pat as [|q pat IH]; intros data stream [r ->]; [done|].
  destruct data as [|b data]; [done|]. cbn. rewrite !andb_true_iff. intros [? H]. split; [done|]. eapply IH; [|done]. by eexists.
Qed.
Definition firstByte (sniffer : StreamSniffer) : Z :=
  match sniffer with BitTorrent => 19 | SSH => 83 | RDP => 3 | _ => 0 end.
Lemma pattern_first sniffer pat : patternOf sniffer = Some pat -> pat = Some (firstByte sniffer) :: tail pat.
Proof. by destruct sniffer; intros H; first [discriminate H|injection H as <-]. Qed.
Lemma pattern_unique sn1 sn2 pat1 pat2 data :
  patternOf sn1 = Some pat1 -> patternOf sn2 = Some pat2 -> data <> [] ->
  agrees pat1 data = true -> agrees pat2 data = true -> sn1 = sn2.
Proof.
  intros H1 H2 Hd. rewrite (pattern_first _ _ H1), (pattern_first _ _ H2). destruct data as [|b data]; [done|].
  cbn [agrees fits]. rewrite !andb_true_iff, !Z.eqb_eq. intros [<- _] [H _]. by destruct sn1, sn2.
Qed.

Context `{Sn : Sniffing} (Himpl : implements Sn).

Lemma run_accept sniffers data protocol e m :
  (forall sn, sn ∈ sniffers -> match streamSniffer sn data (sniffedOf m) with Ok s' => sf_Protocol s' = protocol | Err _ => True end) ->
  (exists sn s', sn ∈ sniffers /\ streamSniffer sn data (sniffedOf m) = Ok s') ->
  exists m', runStreamSniffers sniffers data e m = (None, m') /\ m_Protocol m' = protocol.
Proof.
  revert e. induction sniffers as [|sn sniffers IH]; intros e Hall (sn1 & s1 & Hin & Hok); [by apply elem_of_nil in Hin|].
  cbn [runStreamSniffers]. rewrite (proj1 Himpl). pose proof (Hall sn ltac:(by left)) as H.
  destruct (streamSniffer sn data (sniffedOf m)) as [s'|err] eqn:E; [by eexists|]. rewrite setSniffed_id.
  apply elem_of_cons in Hin as [->|Hin]; [congruence|]. apply IH; [|by exists sn1, s1]. intros sn' Hin'. apply Hall. by right.
Qed.
Lemma run_more sniffers data m :
  (forall sn, sn ∈ sniffers -> exists err, streamSniffer sn data (sniffedOf m) = Err err) -> forall e,
  (exists sn, sn ∈ sniffers /\ asksMore (streamSniffer sn data (sniffedOf m))) \/ from_option needMoreData false e = true ->
  exists err, runStreamSniffers sniffers data e m = (Some err, m) /\ needMoreData err = true.
Proof.
  induction sniffers as [|sn sniffers IH]; intros Hall e He; cbn [runStreamSniffers].
  { destruct He as [(sn & Hin & _)|He]; [by apply elem_of_nil in Hin|]. destruct e as [err|]; [|done]. by exists err. }
  rewrite (proj1 Himpl). destruct (Hall sn ltac:(by left)) as [err E]. rewrite E, setSniffed_id.
  apply IH; [intros sn' Hin; apply Hall; by right|].
  destruct (E_Errors (optList e ++ [err])) as [e'|] eqn:Ee; [|by destruct e; apply E_Errors_some in Ee].
  cbn [from_option]. rewrite (E_Errors_is _ _ Ee), existsb_app. destruct He as [(sn1 & Hin & Hask)|He].
  - apply elem_of_cons in Hin as [->|Hin]; [|left; by exists sn1]. right. rewrite E in Hask.
    apply orb_true_iff. right. cbn. apply orb_true_iff. left.
    destruct Hask as [[= ->]|[msg [= ->]]]; [apply needMoreData_self|apply needMoreData_cause].
  - right. destruct e as [e0|]; [|done]. cbn in He |- *. by rewrite He.
Qed.

(** A stream that starts with the pattern of one of the sniffers, of which the
    others than those of a pattern do not take a part. *)
Section stream.
Context (sniffer : StreamSniffer) (pat : pattern) (sniffers : list StreamSniffer) (stream : list Z).
Hypothesis Hpat : patternOf sniffer = Some pat.
Hypothesis Hin : sniffer ∈ sniffers.
Hypothesis Hmatch : matches pat stream = true.
Hypothesis Hbytes : bytes_ok stream.
Hypothesis Hothers : forall sn, sn ∈ sniffers -> patternOf sn = None -> declines sn stream.

Lemma prefix_results data s sn : data `prefix_of` stream -> sn ∈ sniffers ->
  match streamSniffer sn [data] s with
  | Ok s' => (length pat <= length data)%nat /\ sf_Protocol s' = protocolOf sniffer
  | Err _ => True
  end.
Proof.
  intros Hd Hsn. apply andb_true_iff in Hmatch as [_ Ha]. pose proof (agrees_prefix _ _ _ Hd Ha) as Hag.
  destruct (patternOf sn) as [pat'|] eqn:Ep; [|by destruct (Hothers sn Hsn Ep data s Hd) as [e ->]].
  assert (Hb : bytes_ok (concat [data])).
  { cbn [concat]. rewrite app_nil_r. destruct Hd as [r ->]. by apply Forall_app in Hbytes as [? _]. }
  pose proof (pattern_verdict sn pat' [data] s Ep Hb ltac:(by eexists)) as Hv. unfold verdict in Hv.
  cbn [concat] in Hv. rewrite app_nil_r in Hv. destruct (agrees pat' data) eqn:Ea'.
  - destruct (Nat.ltb_spec (length data) (length pat')) as [Hl|Hl].
    + by destruct Hv as [->|[msg ->]].
    + destruct Hv as (s' & -> & Hs'). assert (sn = sniffer) as ->; [|by simplify_eq].
      apply (pattern_unique sn sniffer pat' pat data); try done. rewrite (pattern_first _ _ Ep) in Hl. intros ->. cbn in Hl. lia.
  - by destruct Hv as [->|[[->|[msg ->]] _]].
Qed.
Lemma prefix_own data s : data `prefix_of` stream ->
  if (length data <? length pat)%nat then asksMore (streamSniffer sniffer [data] s)
  else exists s', streamSniffer sniffer [data] s = Ok s'.
Proof.
  intros Hd. apply andb_true_iff in Hmatch as [_ Ha]. assert (Hb : bytes_ok (concat [data])).
  { cbn [concat]. rewrite app_nil_r. destruct Hd as [r ->]. by apply Forall_app in Hbytes as [? _]. }
  pose proof (pattern_verdict sniffer pat [data] s Hpat Hb ltac:(by eexists)) as Hv. unfold verdict in Hv.
  cbn [concat] in Hv. rewrite app_nil_r, (agrees_prefix _ _ _ Hd Ha) in Hv.
  destruct (_ <? _)%nat; [done|]. destruct Hv as (s' & H & _). by exists s'.
Qed.

Lemma readOnce_fits capacity buffer chunk input : (length buffer < capacity)%nat -> (length (buffer ++ chunk) <= capacity)%nat ->
  readOnce capacity buffer (ReadData chunk :: input) = (Ok (buffer ++ chunk), input).
Proof.
  rewrite length_app. intros H1 H2. unfold readOnce. rewrite (proj2 (Nat.eqb_neq _ _)) by lia.
  by rewrite take_ge, drop_ge by lia.
Qed.

Lemma peek_loop rest capacity : (length stream <= capacity)%nat -> forall chunks fuel buffer first e m,
  (length chunks < fuel)%nat -> (length buffer < length pat)%nat -> buffer ++ concat chunks = stream ->
  exists buffer' input' m', peekStreamLoop fuel capacity sniffers [] buffer first e (map ReadData chunks ++ rest) m = (None, buffer', input', m')
    /\ m_Protocol m' = protocolOf sniffer.
Proof.
  intros Hcap. induction chunks as [|chunk chunks IH]; intros [|fuel] buffer first e m Hfuel Hl Hs; [cbn in Hfuel; lia| |cbn in Hfuel; lia|].
  { cbn in Hs. rewrite app_nil_r in Hs. subst. apply andb_true_iff in Hmatch as [Hm _]. apply Nat.leb_le in Hm. lia. }
  cbn [map app peekStreamLoop concat length] in *. rewrite app_assoc in Hs. rewrite readOnce_fits;
    [|apply andb_true_iff in Hmatch as [Hm _]; apply Nat.leb_le in Hm; lia|rewrite <- Hs, !length_app in Hcap; rewrite length_app; lia].
  assert (Hd : (buffer ++ chunk) `prefix_of` stream) by by eexists.
  pose proof (prefix_own (buffer ++ chunk) (sniffedOf m) Hd) as Hown.
  pose proof (fun sn => prefix_results (buffer ++ chunk) (sniffedOf m) sn Hd) as Hall.
  destruct (Nat.ltb_spec (length (buffer ++ chunk)) (length pat)) as [Hlt|Hge].
  - destruct (run_more sniffers [buffer ++ chunk] m) with (e := @None GoError) as (err & -> & Hn).
    + intros sn Hsn. specialize (Hall sn Hsn). destruct (streamSniffer sn _ _); [lia|by eexists].
    + left. by exists sniffer.
    + rewrite Hn. apply IH; [lia|done|done].
  - destruct (run_accept sniffers [buffer ++ chunk] (protocolOf sniffer) None m) as (m' & -> & Hm').
    + intros sn Hsn. specialize (Hall sn Hsn). destruct (streamSniffer sn _ _); [apply Hall|done].
    + destruct Hown as [s' Hs']. by exists sniffer, s'.
    + by exists (buffer ++ chunk), (map ReadData chunks ++ rest), m'.
Qed.
End stream.

(** C22 Sniffing is independent of how the network cuts a stream.  Let a stream
    start with the pattern of BitTorrent, SSH or RDP, with at most as many bytes as
    the sniff buffer holds; let the sniffer be among those that are run, no buffer
    have been peeked before, no deadline pass, and the sniffers of TLS, HTTP and DNS, which libraries
    decide, take no beginning of the stream.  Then [PeekStream] ends without an
    error whatever the pieces in which the data arrive, the connection gets the
    protocol, and no byte is lost. *)
Theorem peek_stream_detects sniffer pat sniffers chunks rest capacity m :
  patternOf sniffer = Some pat -> sniffer ∈ sniffers -> matches pat (concat chunks) = true -> bytes_ok (concat chunks) ->
  (length (concat chunks) <= capacity)%nat ->
  (forall sn, sn ∈ sniffers -> patternOf sn = None -> declines sn (concat chunks)) ->
  exists buffer input' m', PeekStream None capacity sniffers [] (map ReadData chunks ++ rest) m = (None, buffer, input', m')
    /\ m_Protocol m' = protocolOf sniffer /\ buffer ++ inputBytes input' = concat chunks ++ inputBytes rest.
Proof.
  intros Hp Hin Hm Hb Hcap Ho.
  destruct (peek_loop sniffer pat sniffers (concat chunks) Hp Hin Hm Hb Ho rest capacity Hcap chunks
    (S (S (length (map ReadData chunks ++ rest)))) [] true None m) as (b & i & m' & H & Hm');
    [rewrite length_app, length_map; lia|rewrite (pattern_first _ _ Hp); cbn; lia|done|].
  exists b, i, m'. split_and!; [exact H|exact Hm'|].
  rewrite (PeekStream_bytes None capacity sniffers [] _ _ _ _ _ _ H). unfold inputBytes. rewrite map_app, concat_app, map_map.
  cbn. by rewrite map_id.
Qed.
End streams.

(** ** Packets *)

Section packets.
Context `{L : SniffLibs} `{Q : QUICCrypto}.

Definition accepts (sniffer : PacketSniffer) (packet : list Z) (s : Sniffed) : Prop :=
  exists s', packetSniffer sniffer packet s = Returned None s'.

(** What the first byte of an accepted packet is. *)
Definition firstByteOk (sniffer : PacketSniffer) (b : Z) : bool :=
  match sniffer with
  | UTP => (Z.land b 15 =? 1) && (Z.shiftr b 4 <=? 4)
  | UDPTracker => b =? 0
  | DTLSRecord => existsb (Z.eqb b) [20; 21; 22; 23; 25]
  | NTP => ((Z.land (Z.shiftr b 3) 7 =? 3) || (Z.land (Z.shiftr b 3) 7 =? 4)) && (Z.land b 7 =? 3)
  | _ => true
  end.
Lemma tracker_first packet : bytes_ok packet -> 8 <= len packet -> uintAt packet 0 8 = trackerProtocolID -> byteAt packet 0 = 0.
Proof.
  intros Hb Hl H. unfold uintAt in H. cbn [drop] in H.
  assert (Ht : take 8 packet = be_bytes 8 trackerProtocolID).
  { rewrite <- H. rewrite <- (be_bytes_value (take 8 packet)) at 1 by by apply Forall_take.
    rewrite length_take. unfold len in Hl. by rewrite Nat.min_l by lia. }
  destruct packet as [|b packet]; [by unfold len in Hl; cbn in Hl|]. vm_compute in Ht. by injection Ht as -> _.
Qed.
Lemma outcomeOf_none r s s' : outcomeOf r s = Returned None s' -> r = Ok s'.
Proof. destruct r as [|[]]; cbn; by intros; simplify_eq. Qed.
Lemma accepts_first sniffer packet s : bytes_ok packet -> accepts sniffer packet s ->
  firstByteOk sniffer (byteAt packet 0) = true.
Proof.
  intros Hb [s' H]. destruct sniffer; try done; cbn [packetSniffer] in H; apply outcomeOf_none in H; unfold firstByteOk.
  - unfold UTP_sniff in H. destruct (len packet <? 20); [done|]. destruct (negb _ || _) eqn:E; [done|].
    apply orb_false_iff in E as [->%negb_false_iff E]. by rewrite Z.leb_antisym, E.
  - unfold UDPTracker_sniff, trackerConnectMinSize in H. destruct (Z.ltb_spec (len packet) 16); [done|].
    destruct (Z.eqb_spec (uintAt packet 0 8) trackerProtocolID); [|done]. rewrite tracker_first by (done || lia). done.
  - unfold DTLSRecord_sniff in H. destruct (len packet <? 13); [done|]. by destruct (existsb _ _).
  - unfold NTP_sniff in H. cbv zeta in H. destruct (len packet <? 48); [done|]. destruct (3 <? _); [done|].
    set (vn := Z.land (Z.shiftr (byteAt packet 0) 3) 7) in *. destruct (Z.land (byteAt packet 0) 7 =? 3);
      destruct (vn =? 3), (vn =? 4); done.
Qed.

(** No byte may start the packets of two of these protocols. *)
Lemma first_bytes_disjoint : forallb (fun n => let b := Z.of_nat n in
    forallb (fun p => forallb (fun q => negb (firstByteOk p b && firstByteOk q b) || bool_decide (p = q))
      [UTP; UDPTracker; DTLSRecord; NTP]) [UTP; UDPTracker; DTLSRecord; NTP]) (seq 0 256) = true.
Proof. vm_compute. reflexivity. Qed.

(** No packet is taken for two of uTP, the UDP tracker protocol, DTLS and
    NTP: at most one of these sniffers accepts it, so their order does not
    matter. *)
Theorem packet_sniffers_exclusive p q packet s s' :
  p ∈ [UTP; UDPTracker; DTLSRecord; NTP] -> q ∈ [UTP; UDPTracker; DTLSRecord; NTP] -> bytes_ok packet ->
  accepts p packet s -> accepts q packet s' -> p = q.
Proof.
  intros Hp%list_elem_of_In Hq%list_elem_of_In Hb Hap%accepts_first Haq%accepts_first; [|done..].
  pose proof first_bytes_disjoint as H. rewrite forallb_forall in H.
  assert (Hr : 0 <= byteAt packet 0 < 256).
  { destruct packet as [|b packet]; [unfold byteAt; cbn; lia|]. exact (Forall_inv Hb). }
  specialize (H (Z.to_nat (byteAt packet 0))). rewrite in_seq, Z2Nat.id in H by lia. specialize (H ltac:(lia)).
  cbv zeta in H. rewrite forallb_forall in H. specialize (H p Hp). rewrite forallb_forall in H. specialize (H q Hq).
  rewrite Hap, Haq in H. by apply bool_decide_eq_true in H.
Qed.

(** ** The extensions of uTP *)

(** As many turns as there are bytes are enough: more change nothing. *)
Lemma utpExtensions_enough fuel : forall fuel' extension reader,
  (length reader <= fuel)%nat -> (fuel <= fuel')%nat -> utpExtensions fuel' extension reader = utpExtensions fuel extension reader.
Proof.
  induction fuel as [|fuel IH]; intros fuel' extension reader Hl Hf.
  { destruct reader; [|cbn in Hl; lia]. destruct fuel'; cbn; by destruct (extension =? 0). }
  destruct fuel' as [|fuel']; [lia|]. cbn [utpExtensions]. destruct (extension =? 0); [done|].
  destruct reader as [|e [|n reader]]; try done. destruct (4 <? e); [done|]. cbn in Hl. apply IH; [|lia].
  unfold seek. rewrite length_drop. lia.
Qed.

(** The encoding of a chain of extensions: the type of the next one, the length
    and the content of each. *)
Definition chainType (extensions : list (Z * list Z)) : Z := match extensions with (t, _) :: _ => t | [] => 0 end.
Fixpoint utpChain (extensions : list (Z * list Z)) : list Z :=
  match extensions with
  | [] => []
  | (_, content) :: rest => chainType rest :: len content :: content ++ utpChain rest
  end.

Lemma utpChain_ok payload extensions : Forall (fun e => 1 <= fst e <= 4 /\ len (snd e) < 256) extensions ->
  forall fuel, (length (utpChain extensions) <= fuel)%nat ->
  utpExtensions fuel (chainType extensions) (utpChain extensions ++ payload) = None.
Proof.
  intros He. induction extensions as [|[t content] rest IH]; intros fuel Hf; [by destruct fuel|].
  cbn [chainType utpChain] in *. pose proof (Forall_inv He) as [Ht Hc]. apply Forall_inv_tail in He.
  destruct fuel as [|fuel]; [cbn in Hf; lia|]. cbn [utpExtensions app fst] in *. destruct (Z.eqb_spec t 0); [lia|].
  assert (Hn : 0 <= chainType rest <= 4).
  { destruct rest as [|[t' c'] rest]; [cbn; lia|]. pose proof (Forall_inv He) as [? _]. cbn in *. lia. }
  destruct (Z.ltb_spec 4 (chainType rest)); [lia|]. unfold seek, len. rewrite Nat2Z.id, <- app_assoc, drop_app_length.
  apply IH; [done|]. cbn in Hf. rewrite length_app in Hf. lia.
Qed.

(** The uTP sniffer accepts what the protocol sends: a header of type 0 to
    4 and version 1, any chain of extensions whose types are 1 to 4, and any
    payload. *)
Theorem utp_accepts_encoded ty extensions header payload s :
  0 <= ty <= 4 -> len header = 18 -> Forall (fun e => 1 <= fst e <= 4 /\ len (snd e) < 256) extensions ->
  UTP_sniff ([16 * ty + 1; chainType extensions] ++ header ++ utpChain extensions ++ payload) s
  = Ok {| s with sf_Protocol := ProtocolBitTorrent |}.
Proof.
  intros Hty Hh He. unfold UTP_sniff. rewrite !len_app, Hh, !len_cons, len_nil. pose proof (len_nonneg (utpChain extensions)).
  pose proof (len_nonneg payload). rewrite ltb_len by lia. unfold byteAt. cbn [app nth].
  assert (Hf : forallb (fun n => (Z.land (16 * Z.of_nat n + 1) 15 =? 1) && (Z.shiftr (16 * Z.of_nat n + 1) 4 <=? 4)) (seq 0 5) = true)
    by reflexivity. rewrite forallb_forall in Hf. specialize (Hf (Z.to_nat ty)). rewrite in_seq, Z2Nat.id in Hf by lia.
  apply andb_true_iff in Hf as [-> Hs]; [|lia]. rewrite Z.leb_antisym in Hs. apply negb_true_iff in Hs. rewrite Hs. cbn [negb orb].
  replace (drop 20 _) with (utpChain extensions ++ payload).
  - rewrite utpChain_ok; [done..|]. cbn [length]. rewrite !length_app. lia.
  - unfold len in Hh. cbn [drop]. by rewrite drop_app_length' by lia.
Qed.

(** ** Corners *)

Lemma bittorrent_split k rest s : (2 <= k < 20)%nat ->
  BitTorrent_sniff [take k (19 :: bittorrentHeader); drop k (19 :: bittorrentHeader) ++ rest] s = Err ErrNeedMoreData.
Proof. intros Hk. do 20 (destruct k as [|k]; [first [lia|reflexivity]|]). lia. Qed.
Lemma ssh_cut a s : untilNewline a = None -> (length a < 4088)%nat ->
  SSH_sniff [sshPrefix ++ a] s = Ok {| s with sf_Protocol := ProtocolSSH; sf_Client := bytes_string a |}.
Proof.
  intros Ha Hl. unfold SSH_sniff. cbn [concat]. rewrite app_nil_r. cbv zeta. unfold bufioPeek. rewrite take_app_length.
  rewrite length_app. destruct (Nat.ltb_spec (length sshPrefix + length a) (length sshPrefix)); [lia|].
  rewrite bool_decide_true by done. cbn [negb]. unfold bufioReadLine. rewrite take_ge by (rewrite length_app; cbn; lia).
  rewrite untilNewline_prefix, Ha. cbn [fmap option_fmap option_map]. rewrite length_app. change (length sshPrefix) with 8%nat.
  destruct (Nat.eqb_spec (8 + length a) 0), (Nat.eqb_spec (8 + length a) 4096); try lia. cbn [result_bind].
  by rewrite (sliceFrom_app sshPrefix a 8 eq_refl).
Qed.

(** Three corners of the sniffers.  A DNS message that is a response, has no
    question or has answers is no error for the DNS sniffer: sniffing the packet
    ends there with success, without a protocol, and the sniffers after it are
    not run.  A BitTorrent handshake whose header lies across two buffers is not
    recognised, however much follows it, though the same bytes in one buffer are.
    The client of an SSH stream is what the first read brought of its first line,
    cut short if the line is not complete. *)
Theorem sniffer_corners :
  (forall (Sn : Sniffing) m packet msg rest, implements Sn -> dns_Unpack packet = Ok msg ->
     dh_Response msg || (dh_Question msg =? 0)%nat || (0 <? dh_Answer msg)%nat || (0 <? dh_Ns msg)%nat = true ->
     PeekPacket m packet (DomainNameQuery :: rest) = (None, m))
  /\ (forall k rest s, (2 <= k < 20)%nat -> let header := 19 :: bittorrentHeader in
      BitTorrent_sniff [take k header; drop k header ++ rest] s = Err ErrNeedMoreData
      /\ BitTorrent_sniff [header ++ rest] s = Ok {| s with sf_Protocol := ProtocolBitTorrent |})
  /\ (forall (Sn : Sniffing) m a input capacity, implements Sn -> untilNewline a = None -> (length a < 4088)%nat ->
      (length (sshPrefix ++ a) < capacity)%nat ->
      exists m', PeekStream None capacity [SSH] [] (ReadData (sshPrefix ++ a) :: input) m = (None, sshPrefix ++ a, input, m')
        /\ m_Client m' = bytes_string a).
Proof.
  split_and!.
  - intros Sn m packet msg rest [_ Hi] Hu Hc. unfold PeekPacket. cbn [runPacketSniffers].
    rewrite (Hi DomainNameQuery packet (sniffedOf m) None (sniffedOf m)); [by rewrite setSniffed_id|].
    cbn [packetSniffer]. unfold DomainNameQuery_sniff. rewrite Hu. cbn [result_bind]. by rewrite Hc.
  - intros k rest s Hk. split; [by apply bittorrent_split|reflexivity].
  - intros Sn m a input capacity [Hi _] Ha Hl Hcap. unfold PeekStream. cbn [peekStreamLoop]. rewrite readOnce_fits by (cbn in *; lia).
    cbn [runStreamSniffers app].
    rewrite Hi. cbn [streamSniffer]. rewrite ssh_cut by done. by eexists.
Qed.
End packets.
