(* ===== verification/SniffExamples.v ===== *)
(** * Runs of the sniffers

    A client hello, a cipher that only strips the tag, packets protected with
    it, the vectors of the sniffers' own tests, and the witnesses of the
    theorems. *)

From S2P Require Import Prelude.
From S2P Require Import GoText.
From S2P Require Import Bytes.
From S2P Require Import Metadata.
From S2P Require Import RuleAction.
From S2P Require Import Ja3.
From S2P Require Import Ja3Theorems.
From S2P Require Import Sniff.
From S2P Require Import Quic.
From S2P Require Import QuicTheorems.
From S2P Require Import QuicSafety.
From S2P Require Import NetIP.
From S2P Require Import Libs.
From S2P Require Import Sniffers.
From S2P Require Import SniffersTheorems.
From S2P Require Import RouterExamples.
Local Open Scope string_scope.
Local Open Scope list_scope.
Local Open Scope Z_scope.

Module SniffRuns.

Lemma bytes_checked l : forallb (fun b => (0 <=? b) && (b <? 256)) l = true -> bytes_ok l.
Proof.
  rewrite forallb_forall. intros H. apply List.Forall_forall. intros b Hb%H. apply andb_true_iff in Hb. unfold is_byte. lia.
Qed.

(** ** A client hello *)

Definition example : hello := mkHello 771 771 (repeat 5 32) [] [4865; 4866] [0]
  [ServerNameExt (string_bytes "a.org"); CurvesExt [29; 23]; VersionsExt [772]; AlgorithmsExt [1027]; OtherExt 16 [1; 2]].
Lemma example_ok : helloOk example.
Proof.
  constructor; [split; [cbn; lia|reflexivity]..|reflexivity| | |reflexivity].
  - unfold u16s. repeat constructor; lia.
  - repeat constructor; cbn; unfold u16s; repeat constructor; try lia; try (vm_compute; reflexivity).
    rewrite list_elem_of_In. cbn. intuition discriminate.
Qed.

Lemma ja3_finds_encoded_witness :
  helloOk example /\ ja3_Compute (helloRecord example [7]) = Ok (helloPrint example)
  /\ ch_ServerName (helloPrint example) = string_bytes "a.org".
Proof. split_and!; [exact example_ok|exact (ja3_finds_encoded example [7] example_ok)|reflexivity]. Defined.

(** The same hello with a list of versions longer than its extension. *)
Definition crashingHello : hello := mkHello 771 771 (repeat 5 32) [] [4865] [0]
  [ServerNameExt (string_bytes "a.org"); OtherExt 43 [4; 3; 4]].
Lemma ja3_crash : ja3_Compute (helloRecord crashingHello []) = Err (GoPanic "index out of range").
Proof. vm_compute. reflexivity. Qed.

(** A list of versions of three bytes that exactly fills its extension. *)
Definition oddFrame : helloFrame := mkHelloFrame 771 771 (repeat 5 32) [] [19; 1] [0] 8.
Definition oddVersions : list Z := extensionWith 43 [3; 3; 4; 3] [].
Lemma ja3_panic_cause_witness : panics (ja3_Compute (frameRecord oddFrame oddVersions [])).
Proof.
  apply (ja3_panic_cause (frameRecord oddFrame oddVersions [])); [apply bytes_checked; vm_compute; reflexivity|].
  exists oddFrame, oddVersions, []. split; [reflexivity|]. split.
  - constructor; vm_compute; intuition congruence.
  - exists 43, [3; 3; 4; 3]. split; [constructor; lia|]. left. split; [reflexivity|]. vm_compute. reflexivity.
Defined.

(** Two pieces, the second one first, each in a packet of its own. *)
Definition parts : list (list Z) := [take 40 (helloHandshake example); drop 40 (helloHandshake example)].
Definition arrivals : list (list qCryptoFragment * list Z) :=
  match pieces 0 parts with [a; b] => [([b], [6]); ([a], [6; 0])] | _ => [] end.
Definition fresh : Sniffed := mkSniffed "" "" "" None.

Lemma quic_hello_any_order_witness :
  exists s', finishAll arrivals fresh = Returned None s' /\ sf_Protocol s' = ProtocolQUIC
    /\ sf_Domain s' = bytes_string (ch_ServerName (helloPrint example)) /\ sf_SniffContext s' = None.
Proof.
  apply (quic_hello_any_order example parts example_ok eq_refl).
  - reflexivity.
  - repeat constructor; vm_compute; discriminate.
  - apply (Permutation_swap _ _ []).
  - repeat constructor; vm_compute; discriminate.
  - reflexivity.
Defined.

(** The first piece twice. *)
Definition twice : list qCryptoFragment := match pieces 0 parts with [a; b] => [a; a; b] | _ => [] end.
Lemma quic_retransmission_blinds_witness :
  exists m s', finishHello twice [6; 6; 6] fresh = Returned (Some (E_Cause ErrNeedMoreData m)) s'
    /\ forall more types', (forall f, f ∈ more -> f ∈ pieces 0 parts) -> lengthSum (more ++ received twice fresh) < 2 ^ 16 ->
       exists m' s'', finishHello more types' s' = Returned (Some (E_Cause ErrNeedMoreData m')) s''.
Proof.
  apply (quic_retransmission_blinds example parts example_ok eq_refl).
  - repeat constructor; vm_compute; discriminate.
  - intros f Hf%list_elem_of_In. apply list_elem_of_In. cbn in Hf |- *. tauto.
  - vm_compute. done.
Defined.

(** ** Packets *)

Definition plainOpen (_ _ ciphertext _ : list Z) : option (list Z * list Z) :=
  let bytes := map (fun b => b mod 256) ciphertext in
  let n := (length bytes - 16)%nat in
  if (length bytes <? 16)%nat then None else Some (take n bytes, drop n bytes).
Lemma plainOpen_length key nonce ciphertext ad plaintext rest :
  plainOpen key nonce ciphertext ad = Some (plaintext, rest) -> len plaintext + len rest = len ciphertext.
Proof.
  unfold plainOpen. destruct (_ <? 16)%nat; [done|]. intros H. injection H as <- <-.
  rewrite <- len_app, take_drop. unfold len. by rewrite length_map.
Qed.
Lemma plainOpen_bytes key nonce ciphertext ad plaintext rest :
  plainOpen key nonce ciphertext ad = Some (plaintext, rest) -> bytes_ok plaintext /\ bytes_ok rest.
Proof.
  unfold plainOpen. destruct (_ <? 16)%nat; [done|]. intros H. injection H as <- <-.
  assert (Hb : bytes_ok (map (fun b => b mod 256) ciphertext)).
  { apply List.Forall_map, List.Forall_forall. intros b _. apply Z.mod_pos_bound. lia. }
  split; [by apply Forall_take|by apply Forall_drop].
Qed.
Definition plainCrypto : QUICCrypto :=
  Build_QUICCrypto (fun _ _ => []) (fun _ _ _ => []) (fun _ _ => repeat 0 16) plainOpen
    (fun _ _ => eq_refl) plainOpen_length plainOpen_bytes.
#[local] Existing Instance plainCrypto.

(** An Initial packet of QUIC version 1 with the given frames. *)
Definition packetOf (frames : list Z) : list Z :=
  let n := len frames + 17 in
  [192; 0; 0; 0; 1; 1; 7; 0; 0; 64 + n / 256; n mod 256; 0] ++ frames ++ repeat 0 16.
Definition cryptoFrame (f : qCryptoFragment) : list Z :=
  [6; 64 + qf_offset f / 256; qf_offset f mod 256; 64 + qf_length f / 256; qf_length f mod 256] ++ qf_payload f.

(** A CRYPTO frame of 16383 bytes that is not there. *)
Definition crashing : list Z := packetOf [6; 0; 127; 255].
(** An empty CRYPTO frame. *)
Definition hanging : list Z := packetOf [6; 0; 0].

Lemma quic_panic_cause_witness :
  QUICClientHello_sniff crashing fresh = Panicked "slice bounds out of range"
  /\ exists h memory n, parseInitialHeader crashing = Ok h /\ removeProtection crashing h = Ok (memory, n)
      /\ (overrun memory n
          \/ exists fragments types,
               readFrames (Z.to_nat n) memory n (take (Z.to_nat n) memory) [] [] = Ok (fragments, types)
               /\ helloPanics fragments fresh).
Proof.
  split; [vm_compute; reflexivity|].
  apply (quic_panic_cause crashing fresh (bytes_checked crashing ltac:(vm_compute; reflexivity)) I).
  exists "slice bounds out of range". vm_compute. reflexivity.
Defined.

(** The packets of [arrivals], protected. *)
Definition hellos : list (list Z) :=
  match pieces 0 parts with [a; b] => [packetOf (cryptoFrame b); packetOf (cryptoFrame a ++ [0])] | _ => [] end.
Definition sniffSecond (packets : list (list Z)) : quicOutcome :=
  match packets with
  | [a; b] => match QUICClientHello_sniff a fresh with Returned (Some _) s => QUICClientHello_sniff b s | o => o end
  | _ => Diverges
  end.

Lemma quic_runs :
  sniffSecond hellos = Returned None (mkSniffed ProtocolQUIC "a.org" ClientUnknown None)
  /\ QUICClientHello_sniff hanging fresh = Diverges.
Proof. split; vm_compute; reflexivity. Qed.

(** ** The other sniffers *)

(** Libraries that take neither HTTP nor TLS, and read the header of a DNS
    message. *)
Definition plainSkip (n : nat) (readers : list (list Z)) : result (list (list Z)) :=
  if (length (concat readers) <? n)%nat then Err ErrEOF else Ok [drop n (concat readers)].
Lemma plainSkip_ok n readers : (n <= length (concat readers))%nat ->
  exists readers', plainSkip n readers = Ok readers' /\ concat readers' = drop n (concat readers).
Proof.
  intros H. unfold plainSkip. destruct (Nat.ltb_spec (length (concat readers)) n); [lia|]. eexists. split; [done|]. apply app_nil_r.
Qed.
Lemma plainSkip_short n readers : (length (concat readers) < n)%nat -> exists err, plainSkip n readers = Err err.
Proof. intros H. unfold plainSkip. destruct (Nat.ltb_spec (length (concat readers)) n); [by eexists|lia]. Qed.
#[local] Instance plainLibs : SniffLibs := {|
  http_ReadRequest _ := Err ErrInvalid;
  M_ParseSocksaddr _ := Socksaddr_zero;
  tls_Handshake _ := (None, Some ErrInvalid);
  dns_Unpack packet :=
    if len packet <? 12 then Err ErrUnexpectedEOF
    else Ok (mkDnsHeader (128 <=? byteAt packet 2) (Z.to_nat (uintAt packet 4 2)) (Z.to_nat (uintAt packet 6 2))
               (Z.to_nat (uintAt packet 8 2)));
  isUnexpectedEOF err := match err with E_New m => String.eqb m "unexpected EOF" | _ => false end;
  rw_SkipN := plainSkip;
  rw_SkipN_ok := plainSkip_ok;
  rw_SkipN_short := plainSkip_short |}.
#[local] Instance plainSniffing : Sniffing := {|
  stream_sniff sniffer readers s := match streamSniffer sniffer readers s with Ok s' => (None, s') | Err err => (Some err, s) end;
  packet_sniff sniffer packet s := match packetSniffer sniffer packet s with Returned err s' => (err, s') | _ => (None, s) end;
  packetCapacity := 16384;
  E_Errors := RouterRuns.refErrors;
  needMoreData := RouterRuns.isWantMore;
  E_Errors_nil := eq_refl;
  E_Errors_some := RouterRuns.refErrors_some;
  E_Errors_is := RouterRuns.refErrors_is;
  needMoreData_self := eq_refl;
  needMoreData_cause _ := eq_refl;
  needMoreData_invalid := eq_refl |}.
Lemma plain_implements : implements plainSniffing.
Proof. split; [done|]. intros sniffer packet s err s' H. cbn [packet_sniff plainSniffing]. by rewrite H. Qed.

Definition unhex (s : string) : list Z := default [] (hex.DecodeString s).

Definition protocolFound (r : result Sniffed) : option string := match r with Ok s => Some (sf_Protocol s) | Err _ => None end.
Definition sniffPacketHex (sniffer : PacketSniffer) (s : string) : option (option GoError * string) :=
  match packetSniffer sniffer (unhex s) fresh with Returned err s' => Some (err, sf_Protocol s') | _ => None end.

(** The vectors of [common/sniff/*_test.go]. *)
Lemma sniff_test_vectors :
  sniffPacketHex UTP "21001ecb6817f2805d044fd700100000dbd03029" = Some (None, ProtocolBitTorrent)
  /\ sniffPacketHex UTP "410277ef0b1fb1f60000000000040000c233000000080000000000000000" = Some (None, ProtocolBitTorrent)
  /\ sniffPacketHex UDPTracker "00000417271019800000000078e90560" = Some (None, ProtocolBitTorrent)
  /\ sniffPacketHex STUNMessage "000100002112a44224b1a025d0c180c484341306" = Some (None, ProtocolSTUN)
  /\ sniffPacketHex DTLSRecord "17fefd0001000000000001004400010000" = Some (None, ProtocolDTLS)
  /\ sniffPacketHex NTP "1b0006000000000000000000000000000000000000000000000000000000000000000000000000000000000000000000"
     = Some (None, ProtocolNTP)
  /\ sniffPacketHex NTP "400000000000000000000000000000000000000000000000000000000000000000000000000000000000000000000000"
     = Some (Some ErrInvalid, "")
  /\ protocolFound (RDP_sniff [unhex "030000130ee00000000000010008000b000000010008000b000000"] fresh) = Some ProtocolRDP
  /\ SSH_sniff [unhex "5353482d322e302d64726f70626561720d0a000001a40a1492892570d1"] fresh
     = Ok (mkSniffed ProtocolSSH "" "dropbear" None)
  /\ SSH_sniff [unhex "5353482d322e30"] fresh = Err (needMore ErrEOF)
  /\ SSH_sniff [unhex "5353482d322e31"] fresh = Err ErrInvalid
  /\ BitTorrent_sniff [unhex "13426974546f7272656e74"] fresh = Err ErrNeedMoreData
  /\ BitTorrent_sniff [unhex "13426974546f7272656e75"] fresh = Err ErrInvalid
  /\ protocolFound (StreamDomainNameQuery_sniff [unhex "001e740701000001000000000000012a06676f6f676c6503636f6d0000010001"] fresh)
     = Some ProtocolDNS
  /\ StreamDomainNameQuery_sniff [unhex "001e740701000001000000000000"] fresh = Err (needMore ErrUnexpectedEOF)
  /\ StreamDomainNameQuery_sniff [unhex "001e740701000000000000000000"] fresh = Err ErrInvalid.
Proof. split_and!; vm_compute; reflexivity. Qed.

(** ** Witnesses *)

Definition sshPieces : list (list Z) := [string_bytes "SSH"; string_bytes "-2.0"; string_bytes "-x" ++ [13; 10]].
Lemma sshPieces_bytes : bytes_ok (concat sshPieces).
Proof. apply bytes_checked. vm_compute. reflexivity. Qed.

Lemma stream_sniffer_verdicts_witness :
  verdict (exactly sshPrefix) ProtocolSSH (concat sshPieces) (SSH_sniff sshPieces fresh)
  /\ SSH_sniff sshPieces fresh = Ok (mkSniffed ProtocolSSH "" "x" None).
Proof.
  split; [|vm_compute; reflexivity].
  exact (stream_sniffer_verdicts SSH (exactly sshPrefix) sshPieces fresh eq_refl sshPieces_bytes ltac:(discriminate)).
Defined.

(** The sniffers without a pattern do not take an SSH stream. *)
Lemma ssh_declined sn : patternOf sn = None -> declines sn (concat sshPieces).
Proof.
  intros Hp data s [r Hr]. assert (Hd : data = take (length data) (concat sshPieces)) by (by rewrite Hr, take_app_length).
  assert (Hl : (length data <= 11)%nat) by
    (apply (f_equal length) in Hr; rewrite length_app in Hr; change (length (concat sshPieces)) with 11%nat in Hr; lia).
  rewrite Hd. generalize dependent (length data). intros n _ Hl. clear Hr.
  destruct sn; try discriminate Hp; [by eexists|by eexists|].
  do 12 (destruct n as [|n]; [eexists; vm_compute; reflexivity|]). lia.
Qed.

Lemma peek_stream_detects_witness :
  exists buffer input' m',
    PeekStream None 16384 [TLSClientHello; HTTPHost; StreamDomainNameQuery; BitTorrent; SSH; RDP] []
      (map ReadData sshPieces ++ [ReadData [1]]) InboundContext_zero = (None, buffer, input', m')
    /\ m_Protocol m' = ProtocolSSH
    /\ buffer ++ inputBytes input' = concat sshPieces ++ inputBytes [ReadData [1]].
Proof.
  apply (peek_stream_detects plain_implements SSH (exactly sshPrefix)).
  - reflexivity.
  - do 4 right. left.
  - vm_compute. reflexivity.
  - exact sshPieces_bytes.
  - apply Nat.leb_le. reflexivity.
  - intros sn _. apply ssh_declined.
Defined.

Definition dtlsPacket : list Z := unhex "17fefd0001000000000001004400010000".
Lemma packet_sniffers_exclusive_witness : DTLSRecord = DTLSRecord /\ accepts DTLSRecord dtlsPacket fresh.
Proof.
  assert (Ha : accepts DTLSRecord dtlsPacket fresh) by (eexists; vm_compute; reflexivity). split; [|exact Ha].
  apply (packet_sniffers_exclusive DTLSRecord DTLSRecord dtlsPacket fresh fresh); [do 2 right; left..| |exact Ha|exact Ha].
  apply bytes_checked. vm_compute. reflexivity.
Defined.

Lemma utp_accepts_encoded_witness :
  UTP_sniff ([16 * 2 + 1; 1] ++ repeat 7 18 ++ utpChain [(1, [9; 9; 9; 9]); (2, [])] ++ [5]) fresh
  = Ok (mkSniffed ProtocolBitTorrent "" "" None).
Proof.
  apply (utp_accepts_encoded 2 [(1, [9; 9; 9; 9]); (2, [])] (repeat 7 18) [5] fresh); [lia|reflexivity|].
  repeat constructor; cbn; lia.
Defined.
End SniffRuns.
