(* ===== verification/DNSMessage.v ===== *)
(** * DNS messages as the client changes them: [dns/client.go],
    [dns/extension_edns0_subnet.go], [dns/client_log.go]

    Lifetimes, client subnets, padding, fixed responses and the text helpers.
    [IsEdns0] and [SetEdns0], the fields of an OPT record and the functions on
    names are miekg/dns: they are the class [DNSLibs]. *)

From S2P Require Import Prelude.
From S2P Require Import GoText.
From S2P Require Import Bytes.
From S2P Require Import NetIP.
From S2P Require Import Libs.
From S2P Require Import Metadata.
From S2P Require Import RuleAction.
From S2P Require Import DNSQuery.
From S2P Require Import DNSRouter.
Local Open Scope string_scope.
Local Open Scope list_scope.
Local Open Scope Z_scope.

(** ** Constants of miekg/dns *)

Definition RcodeNameError : Z := 3.
Definition TypeCNAME : Z := 5.
Definition TypeOPT : Z := 41.
Definition EDNS0SUBNET : Z := 8.
Definition EDNS0PADDING : Z := 12.

Class DNSLibs := {
  (* the OPT record of a message *)
  dns_IsEdns0 : Msg -> option RR;
  OPT_Version : RR -> Z;
  OPT_UDPSize : RR -> Z;
  OPT_Do : RR -> bool;
  dns_SetEdns0 : Z -> bool -> Msg -> Msg;
  dns_IsFqdn : string -> bool;
  dns_Fqdn : string -> string;
  (* documented behaviour *)
  dns_IsEdns0_some : forall m r, dns_IsEdns0 m = Some r -> r ∈ msg_Extra m /\ hdr_Rrtype (rr_Header r) = TypeOPT;
  dns_IsEdns0_none : forall m, dns_IsEdns0 m = None -> Forall (fun r => hdr_Rrtype (rr_Header r) <> TypeOPT) (msg_Extra m);
  dns_SetEdns0_spec : forall size do' m, exists r, hdr_Rrtype (rr_Header r) = TypeOPT
    /\ dns_SetEdns0 size do' m = {| m with msg_Extra := msg_Extra m ++ [r] |}
}.

Section message.
Context `{L : Libs}.

(** ** Lifetimes *)

(** The sections [[][]dns.RR{response.Answer, response.Ns, response.Extra}]. *)
Definition sections (m : Msg) : list RR := msg_Answer m ++ msg_Ns m ++ msg_Extra m.
Definition isOPT (r : RR) : bool := hdr_Rrtype (rr_Header r) =? TypeOPT.

Definition extractNegativeTTL (response : Msg) : option Z :=
  match List.find (fun r => match rr_Data r with RR_SOA _ _ => true | _ => false end) (msg_Ns response) with
  | Some r =>
      match rr_Data r with
      | RR_SOA _ soaMinimum =>
          let soaTTL := hdr_Ttl (rr_Header r) in
          Some (if soaTTL <? soaMinimum then soaTTL else soaMinimum)
      | _ => None
      end
  | None => None
  end.

Fixpoint timeToLiveLoop (records : list RR) (timeToLive : Z) : Z :=
  match records with
  | [] => timeToLive
  | r :: records =>
      let ttl := hdr_Ttl (rr_Header r) in
      if isOPT r then timeToLiveLoop records timeToLive
      else if (timeToLive =? 0) || ((0 <? ttl) && (ttl <? timeToLive)) then timeToLiveLoop records ttl
      else timeToLiveLoop records timeToLive
  end.
Definition computeTimeToLive (response : Msg) : Z :=
  match msg_Answer response, extractNegativeTTL response with
  | [], Some soaTTL => soaTTL
  | _, _ => timeToLiveLoop (sections response) 0
  end.

Definition withTtl (timeToLive : Z) (r : RR) : RR :=
  if isOPT r then r
  else
    let h := rr_Header r in
    mkRR {| h with hdr_Ttl := timeToLive |} (rr_Data r).
Definition normalizeTTL (timeToLive : Z) (response : Msg) : Msg :=
  {| response with msg_Answer := map (withTtl timeToLive) (msg_Answer response);
                   msg_Ns := map (withTtl timeToLive) (msg_Ns response);
                   msg_Extra := map (withTtl timeToLive) (msg_Extra response) |}.

(** The hints of the other address family are taken out of HTTPS records. *)
Definition withoutHints (strategy : Z) (r : RR) : RR :=
  match rr_Data r with
  | RR_HTTPS value =>
      mkRR (rr_Header r) (RR_HTTPS (common_Filter value (fun it =>
        if strategy =? DomainStrategyIPv4Only then match it with SVCBIPv6Hint _ => false | _ => true end
        else match it with SVCBIPv4Hint _ => false | _ => true end)))
  | _ => r
  end.
(** The response and its lifetime. *)
Definition applyResponseOptions (question : Question) (response : Msg) (options : DNSQueryOptions) : Msg * Z :=
  let strategy := qo_Strategy options in
  let response :=
    if (q_Qtype question =? TypeHTTPS) && ((strategy =? DomainStrategyIPv4Only) || (strategy =? DomainStrategyIPv6Only))
    then {| response with msg_Answer := map (withoutHints strategy) (msg_Answer response) |} else response in
  let timeToLive := default (computeTimeToLive response) (qo_RewriteTTL options) in
  (normalizeTTL timeToLive response, timeToLive).

(** ** Client subnets *)

Definition EDNS0_Option (o : EDNS0) : Z :=
  match o with EDNS0_SUBNET _ _ _ _ => EDNS0SUBNET | EDNS0_Other code _ => code end.
(** The assertion of a record to be an OPT record. *)
Definition optOf (r : RR) : option (list EDNS0) := match rr_Data r with RR_OPT o => Some o | _ => None end.
Definition isSubnet (o : EDNS0) : bool := match o with EDNS0_SUBNET _ _ _ _ => true | _ => false end.
Definition netip_AddrFromSlice (b : list Z) : option Addr :=
  if (length b =? 4)%nat then Some (Addr.AddrFrom4 b)
  else if (length b =? 16)%nat then Some (Addr.AddrFrom16 b) else None.

Definition subnetOptions (r : RR) : list EDNS0 := List.filter isSubnet (default [] (optOf r)).
(** The first subnet option of the first OPT record that has one. *)
Definition clientSubnetFromMessage (message : Msg) : Prefix :=
  match flat_map subnetOptions (msg_Extra message) with
  | EDNS0_SUBNET _ mask _ address :: _ =>
      match netip_AddrFromSlice address with
      | None => Prefix.zero
      | Some a => Prefix.PrefixFrom (Addr.Unmap a) mask
      end
  | _ => Prefix.zero
  end.

Definition removeClientSubnet (message : Msg) : Msg :=
  if existsb (fun r => match optOf r with
                       | Some o => existsb (fun x => EDNS0_Option x =? EDNS0SUBNET) o
                       | None => false
                       end) (msg_Extra message)
  then
    {| message with msg_Extra := map (fun r =>
         match optOf r with
         | Some o => mkRR (rr_Header r) (RR_OPT (common_Filter o (fun x => negb (EDNS0_Option x =? EDNS0SUBNET))))
         | None => r
         end) (msg_Extra message) |}
  else message.

Definition subnetOption (clientSubnet : Prefix) (scope : Z) : EDNS0 :=
  EDNS0_SUBNET (if Addr.Is4 (p_Addr clientSubnet) then 1 else 2) (p_Bits clientSubnet mod 256) scope
    (Addr.AsSlice (p_Addr clientSubnet)).
(** The first subnet option of a list is changed, if there is one. *)
Fixpoint replaceSubnet (clientSubnet : Prefix) (o : list EDNS0) : option (list EDNS0) :=
  match o with
  | [] => None
  | EDNS0_SUBNET _ _ scope _ :: o => Some (subnetOption clientSubnet scope :: o)
  | x :: o => option_map (cons x) (replaceSubnet clientSubnet o)
  end.
(** [findExists]: the first option found is changed where it stands. *)
Fixpoint replaceInRecords (clientSubnet : Prefix) (l : list RR) : option (list RR) :=
  match l with
  | [] => None
  | r :: l =>
      match optOf r with
      | Some o =>
          match replaceSubnet clientSubnet o with
          | Some o => Some (mkRR (rr_Header r) (RR_OPT o) :: l)
          | None => option_map (cons r) (replaceInRecords clientSubnet l)
          end
      | None => option_map (cons r) (replaceInRecords clientSubnet l)
      end
  end.
(** Otherwise [optRecord] is what the assertion on the last record gave: the
    last record gets the option if it is an OPT record, and a new OPT record is
    appended if it is not, also when there is one before it. *)
Definition SetClientSubnet (message : Msg) (clientSubnet : Prefix) : Msg :=
  match replaceInRecords clientSubnet (msg_Extra message) with
  | Some extra => {| message with msg_Extra := extra |}
  | None =>
      let fresh := subnetOption clientSubnet 0 in
      match rev (msg_Extra message) with
      | r :: before =>
          match optOf r with
          | Some o => {| message with msg_Extra := rev before ++ [mkRR (rr_Header r) (RR_OPT (o ++ [fresh]))] |}
          | None => {| message with msg_Extra := msg_Extra message ++ [mkRR (mkHeader "." TypeOPT 0 0) (RR_OPT [fresh])] |}
          end
      | [] => {| message with msg_Extra := [mkRR (mkHeader "." TypeOPT 0 0) (RR_OPT [fresh])] |}
      end
  end.

(** ** Padding *)

Definition stripDNSPadding (response : Msg) : Msg :=
  {| response with msg_Extra := map (fun r =>
       match optOf r with
       | Some o => mkRR (rr_Header r) (RR_OPT (common_Filter o (fun x => negb (EDNS0_Option x =? EDNS0PADDING))))
       | None => r
       end) (msg_Extra response) |}.

(** ** Fixed responses *)

Definition FixedResponseStatus (message : Msg) (rcode : Z) : Msg :=
  mkMsg (msg_Id message) true true true true rcode (msg_Question message) [] [] [].
Definition fixedResponse (id : Z) (question : Question) (answer : list RR) : Msg :=
  mkMsg id true true true true RcodeSuccess [question] answer [] [].
Definition FixedResponse (id : Z) (question : Question) (addresses : list Addr) (timeToLive : Z) : Msg :=
  let record typ data := mkRR (mkHeader (q_Name question) typ ClassINET timeToLive) data in
  fixedResponse id question (flat_map (fun address =>
    if Addr.Is4 address && (q_Qtype question =? TypeA) then [record TypeA (RR_A (Addr.AsSlice address))]
    else if Addr.Is6 address && (q_Qtype question =? TypeAAAA) then [record TypeAAAA (RR_AAAA (Addr.AsSlice address))]
    else []) addresses).
Definition MessageToAddresses (response : Msg) : list Addr := DNSResponseAddresses (Some response).

(** ** Names *)

Definition FqdnToDomain `{D : DNSLibs} (fqdn : string) : string :=
  if dns_IsFqdn fqdn then strings.take (String.length fqdn - 1) fqdn else fqdn.
End message.
