(* ===== verification/DNSClient.v ===== *)
(** * The DNS client: [dns/client.go]

    The client answers from its memory cache or from the cache store, lets one
    exchange per key go to the server while others wait for it, refreshes stale
    answers in the background and remembers rejected responses.  Its state is
    [Client]; [World] is what it reads from outside at the moment of a call.  An
    exchange gives up control while it waits for another one and while the
    server is asked: it is then a [process] of a [clientSystem], and [step] runs
    one of them, or a new call, to the next such point.

    The memory cache is freelru: the class [ClientLibs], with the wire format of
    miekg/dns and the task group.  The store is an interface, [CacheStore]. *)

From S2P Require Import Prelude.
From S2P Require Import GoText.
From S2P Require Import Bytes.
From S2P Require Import NetIP.
From S2P Require Import Libs.
From S2P Require Import Metadata.
From S2P Require Import RuleAction.
From S2P Require Import CacheFile.
From S2P Require Import DNSQuery.
From S2P Require Import DNSRouter.
From S2P Require Import DNSMessage.
Local Open Scope string_scope.
Local Open Scope list_scope.
Local Open Scope Z_scope.

Definition ErrNotCached : GoError := E_New "not cached".
Definition ErrResponseRejected : GoError := E_New "response rejected".
Definition ErrResponseRejectedCached : GoError := E_Cause ErrResponseRejected "cached".
(** [errors.As(err, &rcodeError)] *)
Fixpoint errorsAsRcode (err : GoError) : option Z :=
  match err with
  | RcodeError rcode => Some rcode
  | E_Cause err _ | Rejected err => errorsAsRcode err
  | _ => None
  end.

Definition Millisecond : Z := 1000000.
Definition DNSTimeout : Z := 10 * nanoseconds.

(** ** Keys *)

Record dnsCacheKey := mkDNSCacheKey {
  k_Question : Question; k_transportTag : string; k_clientSubnet : Prefix; k_environment : Z }.
Record dnsExchangeKey := mkDNSExchangeKey { xk_dnsCacheKey : dnsCacheKey; xk_timeout : Z }.

#[export] Instance Question_eq_dec : EqDecision Question.
Proof. solve_decision. Defined.
#[export] Instance Question_countable : Countable Question.
Proof.
  refine (inj_countable' (fun q => (q_Name q, q_Qtype q, q_Qclass q)) (fun '(n, t, c) => mkQuestion n t c) _). by intros [].
Defined.
#[export] Instance dnsCacheKey_eq_dec : EqDecision dnsCacheKey.
Proof. solve_decision. Defined.
#[export] Instance dnsCacheKey_countable : Countable dnsCacheKey.
Proof.
  refine (inj_countable' (fun k => (k_Question k, k_transportTag k, k_clientSubnet k, k_environment k))
    (fun '(q, t, s, e) => mkDNSCacheKey q t s e) _). by intros [].
Defined.
#[export] Instance dnsExchangeKey_eq_dec : EqDecision dnsExchangeKey.
Proof. solve_decision. Defined.
#[export] Instance dnsExchangeKey_countable : Countable dnsExchangeKey.
Proof.
  refine (inj_countable' (fun k => (xk_dnsCacheKey k, xk_timeout k)) (fun '(k, t) => mkDNSExchangeKey k t) _). by intros [].
Defined.

Definition dnsCacheKey_zero : dnsCacheKey := mkDNSCacheKey (mkQuestion "" 0 0) "" Prefix.zero 0.

(** [strconv.FormatUint(n, 36)]; 13 digits are enough for an [uint64]. *)
Definition digit36 (d : Z) : Ascii.ascii :=
  Ascii.ascii_of_N (Z.to_N (if d <? 10 then 48 + d else 87 + d)).
Fixpoint base36 (fuel : nat) (n : Z) (acc : string) : string :=
  match fuel with
  | O => acc
  | S fuel =>
      let acc := String (digit36 (n mod 36)) acc in
      if n / 36 =? 0 then acc else base36 fuel (n / 36) acc
  end.
Definition FormatUint36 (n : Z) : string := base36 13 n "".

(** ** Other packages *)

Class ClientLibs := {
  (* freelru: a cache of responses with the time each expires *)
  LRU : Type;
  lru_New : Z -> LRU;
  lru_Add : dnsCacheKey -> Msg -> LRU -> LRU;
  lru_AddWithLifetime : Z -> dnsCacheKey -> Msg -> Z -> LRU -> LRU;
  lru_Get : Z -> dnsCacheKey -> LRU -> option Msg * LRU;
  lru_GetWithLifetimeNoExpire : dnsCacheKey -> LRU -> option (Msg * Z) * LRU;
  lru_Remove : dnsCacheKey -> LRU -> LRU;
  lru_Purge : LRU -> LRU;
  (* miekg/dns: the wire format *)
  dns_Pack : Msg -> option (list Z);
  dns_Unpack : list Z -> option Msg;
  (* sing/common/task: the errors of the tasks, joined *)
  task_Run : list (option GoError) -> option GoError;

  (* what a cache holds: a response with its expiry, [None] if it has none.  It
     holds nothing that was not added; entries may disappear, except the one
     just added.  Expiry is kept in milliseconds. *)
  lru_has : LRU -> dnsCacheKey -> Msg -> option Z -> Prop;
  lru_New_has : forall n k m e, ~ lru_has (lru_New n) k m e;
  lru_Add_has : forall k m c k' m' e', lru_has (lru_Add k m c) k' m' e' ->
    (k' = k /\ m' = m /\ e' = None) \/ lru_has c k' m' e';
  lru_AddWithLifetime_has : forall now k m life c k' m' e', lru_has (lru_AddWithLifetime now k m life c) k' m' e' ->
    (k' = k /\ m' = m /\ exists e, e' = Some e /\ now + life - Millisecond < e <= now + life) \/ lru_has c k' m' e';
  lru_Get_has : forall now k c m, fst (lru_Get now k c) = Some m -> exists e, lru_has c k m e;
  lru_Get_keeps : forall now k c k' m e, lru_has (snd (lru_Get now k c)) k' m e -> lru_has c k' m e;
  lru_GetNoExpire_has : forall k c m e, fst (lru_GetWithLifetimeNoExpire k c) = Some (m, e) ->
    lru_has c k m (Some e) \/ lru_has c k m None;
  lru_GetNoExpire_keeps : forall k c k' m e,
    lru_has (snd (lru_GetWithLifetimeNoExpire k c)) k' m e -> lru_has c k' m e;
  lru_Remove_keeps : forall k c k' m e, lru_has (lru_Remove k c) k' m e -> lru_has c k' m e;
  lru_Purge_has : forall c k m e, ~ lru_has (lru_Purge c) k m e;
  lru_added : forall now k m life c, exists e,
    fst (lru_GetWithLifetimeNoExpire k (lru_AddWithLifetime now k m life c)) = Some (m, e)
    /\ now + life - Millisecond < e;
  (* the joined error is nil exactly if no task failed *)
  task_Run_None : forall l, task_Run l = None <-> Forall (fun e => e = None) l
}.

(** [adapter.DNSCacheStore] and [adapter.RDRCStore], which the cache file
    implements.  [store_step] is what the store does by itself. *)
Class CacheStore (Store : Type) := {
  store_LoadDNSCache : string -> string -> Z -> Store -> option (list Z * Z) * Store;
  store_SaveDNSCacheAsync : string -> string -> Z -> list Z -> Z -> Store -> Store;
  store_ClearDNSCache : Store -> option GoError * Store;
  store_LoadRDRC : Z -> string -> string -> Z -> Store -> bool * Store;
  store_SaveRDRCAsync : string -> string -> Z -> Store -> Store;
  store_step : Store -> Store -> Prop;

  (* what can be loaded now or later: only what was saved, with its expiry or,
     once it was written, the second it falls in *)
  store_has : Store -> saveCacheKey -> list Z -> Z -> Prop;
  store_Load_has : forall n q t s raw e, 0 <= t < 2 ^ 16 ->
    fst (store_LoadDNSCache n q t s) = Some (raw, e) -> store_has s (mkCacheKey n q t) raw e;
  store_Load_keeps : forall n q t s k raw e,
    store_has (snd (store_LoadDNSCache n q t s)) k raw e -> store_has s k raw e;
  store_Save_has : forall n q t raw e s k raw' e', 0 <= t < 2 ^ 16 ->
    store_has (store_SaveDNSCacheAsync n q t raw e s) k raw' e' ->
    (k = mkCacheKey n q t /\ raw' = raw /\ e' = e) \/ store_has s k raw' e';
  store_Clear_keeps : forall s k raw e, store_has (snd (store_ClearDNSCache s)) k raw e -> store_has s k raw e;
  store_LoadRDRC_keeps : forall now n q t s k raw e,
    store_has (snd (store_LoadRDRC now n q t s)) k raw e -> store_has s k raw e;
  store_SaveRDRC_keeps : forall n q t s k raw e, store_has (store_SaveRDRCAsync n q t s) k raw e -> store_has s k raw e;
  store_step_has : forall s s' k raw e, store_step s s' -> store_has s' k raw e ->
    exists e0, store_has s k raw e0 /\ (e = e0 \/ e = getTime (putTime e0));
  store_saved : forall n q t raw e s,
    fst (store_LoadDNSCache n q t (store_SaveDNSCacheAsync n q t raw e s)) = Some (raw, e);
  store_rejected : forall now n q t s, fst (store_LoadRDRC now n q t (store_SaveRDRCAsync n q t s)) = true;
  store_rejected_loaded : forall now n q t n' q' t' s,
    fst (store_LoadRDRC now n q t (snd (store_LoadDNSCache n' q' t' (store_SaveRDRCAsync n q t s)))) = true
}.

(** What is read from outside at the moment of a call: the time, the network
    manager's number of the network, and for a transport with an environment of
    its own the entries of it. *)
Record World := mkWorld {
  w_now : Z;
  w_NetworkEnvironment : Z;
  w_Environment : DNSTransport -> option (list string) }.

Section client.
Context `{L : Libs} `{D : DNSLibs} `{CL : ClientLibs} {Store : Type} `{CS : CacheStore Store}.

(** [c_cacheStore] is the cache file in the context of the instance;
    [c_rdrc] and [c_dnsCache] tell whether the client uses it for rejected
    responses and as its cache.  A channel is a number; [c_closed] are those
    that have been closed. *)
Record Client := mkClient {
  c_timeout : Z;
  c_disableCache : bool;
  c_disableExpire : bool;
  c_optimisticTimeout : Z;
  c_cacheCapacity : Z;
  c_clientSubnet : Prefix;
  c_rdrc : bool;
  c_dnsCache : bool;
  c_cacheStore : Store;
  c_networkManager : bool;
  c_cache : option LRU;
  c_cacheLock : gmap dnsExchangeKey nat;
  c_channels : nat;
  c_closed : gset nat;
  c_backgroundRefresh : gset dnsCacheKey }.

Record ClientOptions := mkClientOptions {
  co_Timeout : Z; co_DisableCache : bool; co_DisableExpire : bool; co_OptimisticTimeout : Z; co_CacheCapacity : Z;
  co_ClientSubnet : Prefix; co_hasDNSCacheFunc : bool }.

(** Assignments. *)
Definition set_store (store : Store) (c : Client) : Client := {| c with c_cacheStore := store |}.
Definition set_cache (cache : option LRU) (c : Client) : Client := {| c with c_cache := cache |}.

Definition initializeMemoryCache (c : Client) : Client :=
  if c_disableCache c || (match c_cache c with Some _ => true | None => false end) then c
  else set_cache (Some (lru_New (c_cacheCapacity c))) c.
Definition NewClient (options : ClientOptions) (store : Store) : Client :=
  let c := mkClient (if co_Timeout options =? 0 then DNSTimeout else co_Timeout options) (co_DisableCache options)
    (co_DisableExpire options) (co_OptimisticTimeout options) (Z.max (co_CacheCapacity options) 1024)
    (co_ClientSubnet options) false false store false None ∅ 0 ∅ ∅ in
  if negb (co_DisableCache options) && negb (co_hasDNSCacheFunc options) then initializeMemoryCache c else c.
(** [initRDRC], [initDNSCache]: whether the functions of the options give a store. *)
Definition Client_Start (hasNetworkManager initRDRC initDNSCache : bool) (c : Client) : Client :=
  let c := {| c with c_networkManager := hasNetworkManager; c_rdrc := initRDRC; c_dnsCache := initDNSCache |} in
  if initDNSCache then c else initializeMemoryCache c.

(** ** Keys *)

Definition persistentName (k : dnsCacheKey) : string :=
  let name := k_transportTag k in
  let name :=
    if Prefix.IsValid (k_clientSubnet k) then (name ++ String (Ascii.ascii_of_nat 0) (Prefix_String (k_clientSubnet k)))%string
    else name in
  if negb (k_environment k =? 0) then (name ++ String (Ascii.ascii_of_nat 1) (FormatUint36 (k_environment k)))%string else name.

(** [hash/fnv] *)
Definition fnv_New64a : Z := 14695981039346656037.
Definition fnv_Write (digest : Z) (b : list Z) : Z :=
  foldl (fun h x => Z.lxor h x * 1099511628211 mod 2 ^ 64) digest b.

Definition environmentHash (w : World) (c : Client) (transport : DNSTransport) : Z :=
  match w_Environment w transport with
  | None => 0
  | Some environment =>
      let networkEnvironment := if c_networkManager c then w_NetworkEnvironment w else 0 in
      match environment with
      | [] => networkEnvironment
      | _ =>
          let digest := foldl (fun h entry => fnv_Write (fnv_Write h (string_bytes entry)) [0]) fnv_New64a environment in
          fnv_Write digest (be_bytes 8 networkEnvironment)
      end
  end.

(** The subnet of the options, or of the client. *)
Definition configuredSubnet (c : Client) (options : DNSQueryOptions) : Prefix :=
  if Prefix.IsValid (qo_ClientSubnet options) then qo_ClientSubnet options else c_clientSubnet c.
Definition newCacheKey (w : World) (c : Client) (transport : DNSTransport) (question : Question) (message : Msg)
    (options : DNSQueryOptions) : dnsCacheKey :=
  let clientSubnet :=
    if qo_RemoveClientSubnet options then Prefix.zero
    else
      let clientSubnet := configuredSubnet c options in
      if Prefix.IsValid clientSubnet then clientSubnet else clientSubnetFromMessage message in
  mkDNSCacheKey question (tr_Tag transport) clientSubnet (environmentHash w c transport).
Definition finishCacheKey (w : World) (c : Client) (transport : DNSTransport) (key : dnsCacheKey) : dnsCacheKey * bool :=
  let environment := environmentHash w c transport in
  if (environment =? k_environment key) || (k_environment key =? 0)
  then ({| key with k_environment := environment |}, true) else (key, false).

Definition prepareExchangeMessage (c : Client) (message : Msg) (options : DNSQueryOptions) : Msg :=
  if qo_RemoveClientSubnet options then removeClientSubnet message
  else
    let clientSubnet := configuredSubnet c options in
    if Prefix.IsValid clientSubnet then SetClientSubnet message clientSubnet else message.

(** ** The cache *)

(** [max(int(expireAt.Sub(timeNow).Seconds()), 0)], in whole seconds. *)
Definition remainingTTL (w : World) (expireAt : Z) : Z := Z.max ((expireAt - w_now w) / nanoseconds) 0.

(** A loaded response with its expiry: fresh, stale or none. *)
Definition loadedResponse (w : World) (c : Client) (response : Msg) (expireAt : Z) : option (Msg * Z * bool) :=
  if expireAt <? w_now w then
    if (0 <? c_optimisticTimeout c) && (w_now w <? expireAt + c_optimisticTimeout c)
    then Some (normalizeTTL 1 response, 0, true) else None
  else
    let nowTTL := remainingTTL w expireAt in
    Some (normalizeTTL (nowTTL mod 2 ^ 32) response, nowTTL, false).

Definition loadPersistentResponse (w : World) (key : dnsCacheKey) (c : Client) : option (Msg * Z * bool) * Client :=
  let q := k_Question key in
  let '(loaded, store) := store_LoadDNSCache (persistentName key) (q_Name q) (q_Qtype q) (c_cacheStore c) in
  let c := set_store store c in
  match loaded with
  | None => (None, c)
  | Some (rawMessage, expireAt) =>
      match dns_Unpack rawMessage with
      | None => (None, c)
      | Some response =>
          if c_disableExpire c then (Some (response, 0, false), c) else (loadedResponse w c response expireAt, c)
      end
  end.
Definition loadResponse (w : World) (key : dnsCacheKey) (c : Client) : option (Msg * Z * bool) * Client :=
  if c_dnsCache c then loadPersistentResponse w key c
  else
    match c_cache c with
    | None => (None, c)
    | Some cache =>
        if c_disableExpire c then
          let '(response, cache) := lru_Get (w_now w) key cache in
          (option_map (fun response => (response, 0, false)) response, set_cache (Some cache) c)
        else
          let '(loaded, cache) := lru_GetWithLifetimeNoExpire key cache in
          match loaded with
          | None => (None, set_cache (Some cache) c)
          | Some (response, expireAt) =>
              match loadedResponse w c response expireAt with
              | Some r => (Some r, set_cache (Some cache) c)
              | None => (None, set_cache (Some (lru_Remove key cache)) c)
              end
          end
    end.

Definition storeCache (w : World) (key : dnsCacheKey) (message : Msg) (timeToLive : Z) (c : Client) : Client :=
  let q := k_Question key in
  if timeToLive =? 0 then c
  else if c_dnsCache c then
    match dns_Pack message with
    | Some packed =>
        set_store (store_SaveDNSCacheAsync (persistentName key) (q_Name q) (q_Qtype q) packed
                     (w_now w + nanoseconds * timeToLive) (c_cacheStore c)) c
    | None => c
    end
  else
    match c_cache c with
    | None => c
    | Some cache =>
        set_cache (Some (if c_disableExpire c then lru_Add key message cache
                         else lru_AddWithLifetime (w_now w) key message (nanoseconds * timeToLive) cache)) c
    end.

Definition ClearCache (c : Client) : Client :=
  let c := set_cache (option_map lru_Purge (c_cache c)) c in
  if c_dnsCache c then set_store (snd (store_ClearDNSCache (c_cacheStore c))) c else c.

Definition loadRDRC (w : World) (transport : DNSTransport) (question : Question) (c : Client) : bool * Client :=
  let '(rejected, store) := store_LoadRDRC (w_now w) (tr_Tag transport) (q_Name question) (q_Qtype question) (c_cacheStore c) in
  (rejected, set_store store c).
Definition saveRDRC (transport : DNSTransport) (question : Question) (c : Client) : Client :=
  set_store (store_SaveRDRCAsync (tr_Tag transport) (q_Name question) (q_Qtype question) (c_cacheStore c)) c.

(** ** Exchanges *)

Definition Checker : Type := option (Msg -> bool).

Record exchangeOperation := mkOperation {
  o_ctxTag : option string;
  o_message : Msg;
  o_question : Question;
  o_messageId : Z;
  o_options : DNSQueryOptions;
  o_responseChecker : Checker;
  o_disableCache : bool;
  o_cacheKey : dnsCacheKey;
  o_releaseCond : option (dnsExchangeKey * nat) }.

(** Where an exchange gives up control, and the goroutines it starts. *)
Inductive process :=
  (* waits for the exchange that holds the channel *)
  | PWait (cond : nat) (transport : DNSTransport) (ctxTag : option string) (operation : exchangeOperation)
  (* the server is asked *)
  | PExchange (transport : DNSTransport) (operation : exchangeOperation)
  (* a goroutine of [ExchangeAsync] that is about to call [Exchange] *)
  | PCall (transport : DNSTransport) (ctxTag : option string) (message : Msg) (options : DNSQueryOptions) (checker : Checker)
  (* the server is asked to refresh an answer *)
  | PRefresh (transport : DNSTransport) (key : dnsCacheKey) (message : Msg) (options : DNSQueryOptions) (checker : Checker).

(** [operation.release()]: the channel is taken out of the table and closed. *)
Definition release (operation : exchangeOperation) (c : Client) : result Client :=
  match o_releaseCond operation with
  | None => Ok c
  | Some (exchangeKey, cond) =>
      if bool_decide (cond ∈ c_closed c) then Err (GoPanic "close of closed channel")
      else Ok {| c with c_cacheLock := delete exchangeKey (c_cacheLock c); c_closed := {[cond]} ∪ c_closed c |}
  end.

Definition backgroundRefreshDNS (transport : DNSTransport) (key : dnsCacheKey) (message : Msg) (options : DNSQueryOptions)
    (checker : Checker) (c : Client) : list process * Client :=
  if bool_decide (key ∈ c_backgroundRefresh c) then ([], c)
  else ([PRefresh transport key message options checker], {| c with c_backgroundRefresh := {[key]} ∪ c_backgroundRefresh c |}).

Definition isSimpleRequest (message : Msg) : result bool :=
  match msg_Question message, msg_Ns message, msg_Extra message with
  | [_], [], [] => Ok true
  | [_], [], [r] =>
      let h := rr_Header r in
      if (hdr_Rrtype h =? TypeOPT) && (0 <? hdr_Class h) && (hdr_Ttl h =? 0) then
        match optOf r with
        | Some option => Ok (common_All option (fun it => EDNS0_Option it =? EDNS0SUBNET))
        | None => Err (GoPanic "interface conversion")
        end
      else Ok false
  | _, _, _ => Ok false
  end.

Inductive beginOutcome :=
  | BeginDone (response : option Msg) (err : option GoError)
  | BeginWait (cond : nat) (operation : exchangeOperation)
  | BeginReady (operation : exchangeOperation).

Definition withId (id : Z) (m : Msg) : Msg := {| m with msg_Id := id |}.

(** What the loop of [beginExchange] returns from the cache, if anything. *)
Definition answerFromCache (w : World) (transport : DNSTransport) (o : exchangeOperation) (c : Client) :
    option Msg * list process * Client :=
  let '(loaded, c) := loadResponse w (o_cacheKey o) c in
  match loaded with
  | None => (None, [], c)
  | Some (response, _, isStale) =>
      let response := withId (msg_Id (o_message o)) response in
      if isStale then
        if negb (qo_DisableOptimisticCache (o_options o)) then
          let '(started, c) := backgroundRefreshDNS transport (o_cacheKey o) (o_message o) (o_options o) (o_responseChecker o) c in
          (Some response, started, c)
        else (None, [], c)
      else (Some response, [], c)
  end.

(** The end of [beginExchange]. *)
Definition beginReady (w : World) (ctxTag : option string) (transport : DNSTransport) (o : exchangeOperation) (c : Client) :
    result (beginOutcome * Client) :=
  if bool_decide (ctxTag = Some (tr_Tag transport)) then
    let? c := release o c in
    Ok (BeginDone None (Some (E_New ("DNS query loopback in transport[" ++ tr_Tag transport ++ "]"))), c)
  else
    let o := {| o with o_ctxTag := Some (tr_Tag transport) |} in
    if negb (o_disableCache o) && (match o_responseChecker o with Some _ => true | None => false end) && c_rdrc c then
      let '(rejected, c) := loadRDRC w transport (o_question o) c in
      if rejected then
        let? c := release o c in Ok (BeginDone None (Some ErrResponseRejectedCached), c)
      else Ok (BeginReady o, c)
    else Ok (BeginReady o, c).

(** One turn of the loop; [cond] is the channel of another exchange. *)
Definition beginTurn (w : World) (ctxTag : option string) (transport : DNSTransport) (o : exchangeOperation) (cond : option nat)
    (c : Client) : result (beginOutcome * list process * Client) :=
  let '(response, started, c) := answerFromCache w transport o c in
  match response with
  | Some response =>
      let? c := release o c in Ok (BeginDone (Some response) None, started, c)
  | None =>
      match cond with
      | Some cond => Ok (BeginWait cond o, started, c)
      | None => let? '(outcome, c) := beginReady w ctxTag transport o c in Ok (outcome, started, c)
      end
  end.

Definition beginExchange (w : World) (ctxErr : option GoError) (ctxTag : option string) (transport : DNSTransport)
    (message : Msg) (options : DNSQueryOptions) (checker : Checker) (c : Client) :
    result (beginOutcome * list process * Client) :=
  match ctxErr, msg_Question message with
  | Some err, _ => Ok (BeginDone None (Some err), [], c)
  | None, [] => Ok (BeginDone (Some (FixedResponseStatus message RcodeFormatError)) None, [], c)
  | None, question :: _ =>
      let strategy := qo_Strategy options in
      if (q_Qtype question =? TypeA) && (strategy =? DomainStrategyIPv6Only)
         || (q_Qtype question =? TypeAAAA) && (strategy =? DomainStrategyIPv4Only)
      then Ok (BeginDone (Some (FixedResponseStatus message RcodeSuccess)) None, [], c)
      else
        let? simple := isSimpleRequest message in
        let message := prepareExchangeMessage c message options in
        let disableCache := negb simple || c_disableCache c || qo_DisableCache options in
        let o := mkOperation None message question (msg_Id message) options checker disableCache dnsCacheKey_zero None in
        if disableCache then
          let? '(outcome, c) := beginReady w ctxTag transport o c in Ok (outcome, [], c)
        else
          let cacheKey := newCacheKey w c transport question message options in
          let o := {| o with o_cacheKey := cacheKey |} in
          let exchangeKey := mkDNSExchangeKey cacheKey (qo_Timeout options) in
          match c_cacheLock c !! exchangeKey with
          | Some cond => beginTurn w ctxTag transport o (Some cond) c
          | None =>
              let cond := c_channels c in
              let c := {| c with c_cacheLock := <[exchangeKey := cond]> (c_cacheLock c); c_channels := S cond |} in
              beginTurn w ctxTag transport {| o with o_releaseCond := Some (exchangeKey, cond) |} None c
          end
  end.
(** After [select]: the channel was closed or the context has ended. *)
Definition beginResume (w : World) (ctxErr : option GoError) (ctxTag : option string) (transport : DNSTransport)
    (o : exchangeOperation) (c : Client) : result (beginOutcome * list process * Client) :=
  match ctxErr with
  | Some err => Ok (BeginDone None (Some err), [], c)
  | None =>
      let o := {| o with o_cacheKey := newCacheKey w c transport (o_question o) (o_message o) (o_options o) |} in
      beginTurn w ctxTag transport o None c
  end.

Definition cacheableRcode (m : Msg) : bool := (msg_Rcode m =? RcodeSuccess) || (msg_Rcode m =? RcodeNameError).
Definition isRejected (checker : Checker) (response : Msg) : bool :=
  match checker with
  | None => false
  | Some check => if negb (cacheableRcode response) then true else negb (check response)
  end.

(** The OPT record of a response to a query without one, or of an older version. *)
Definition adjustEDNS (request response : Msg) : Msg :=
  match dns_IsEdns0 response with
  | None => response
  | Some responseOpt =>
      let newer := match dns_IsEdns0 request with
                   | None => true
                   | Some requestOpt => OPT_Version requestOpt <? OPT_Version responseOpt
                   end in
      if newer then
        let response := {| response with msg_Extra := common_Filter (msg_Extra response) (fun r => negb (isOPT r)) |} in
        match dns_IsEdns0 request with
        | Some _ => dns_SetEdns0 (OPT_UDPSize responseOpt) (OPT_Do responseOpt) response
        | None => response
        end
      else response
  end.

Definition finishExchange (w : World) (transport : DNSTransport) (o : exchangeOperation) (response : Msg) (c : Client) :
    (Msg * option GoError) * Client :=
  let disableCache := o_disableCache o || negb (cacheableRcode response) in
  if isRejected (o_responseChecker o) response then
    let c := if negb disableCache && c_rdrc c then saveRDRC transport (o_question o) c else c in
    ((response, Some ErrResponseRejected), c)
  else
    let '(response, timeToLive) := applyResponseOptions (o_question o) response (o_options o) in
    let c :=
      if disableCache then c
      else
        let '(cacheKey, storable) := finishCacheKey w c transport (o_cacheKey o) in
        if storable then storeCache w cacheKey response timeToLive c else c in
    ((adjustEDNS (o_message o) (withId (o_messageId o) response), None), c).

(** What the server gave, as [exchangeToTransport] passes it on. *)
Definition exchangeToTransport (message : Msg) (answer : result Msg) : result Msg :=
  match answer with
  | Ok response => Ok (stripDNSPadding response)
  | Err err =>
      match errorsAsRcode err with
      | Some rcode => Ok (FixedResponseStatus message rcode)
      | None => Err err
      end
  end.

(** The goroutine of [backgroundRefreshDNS] after the server has answered. *)
Definition finishRefresh (w : World) (transport : DNSTransport) (key : dnsCacheKey) (message : Msg) (options : DNSQueryOptions)
    (checker : Checker) (answer : result Msg) (c : Client) : Client :=
  let c :=
    match exchangeToTransport message answer with
    | Err _ => c
    | Ok response =>
        if isRejected checker response then if c_rdrc c then saveRDRC transport (k_Question key) c else c
        else if negb (cacheableRcode response) then c
        else
          let '(storeKey, storable) := finishCacheKey w c transport key in
          if negb storable then c
          else
            let '(response, timeToLive) := applyResponseOptions (k_Question key) response options in
            storeCache w storeKey response timeToLive c
    end in
  {| c with c_backgroundRefresh := c_backgroundRefresh c ∖ {[key]} |}.

(** ** Processes *)

Record clientSystem := mkClientSystem { y_client : Client; y_processes : list process }.

(** What a caller of the client gets. *)
Definition reply : Type := option Msg * option GoError.

Definition withTimeout (c : Client) (options : DNSQueryOptions) : DNSQueryOptions :=
  if qo_Timeout options =? 0 then {| options with qo_Timeout := c_timeout c |} else options.

(** [Exchange] up to the first point where it gives up control. *)
Definition Exchange_begin (w : World) (ctxErr : option GoError) (ctxTag : option string) (transport : DNSTransport)
    (message : Msg) (options : DNSQueryOptions) (checker : Checker) (c : Client) :
    result (list reply * list process * Client) :=
  let options := withTimeout c options in
  let? '(outcome, started, c) := beginExchange w ctxErr ctxTag transport message options checker c in
  Ok (match outcome with
      | BeginDone response err => ([(response, err)], started, c)
      | BeginWait cond o => ([], PWait cond transport ctxTag o :: started, c)
      | BeginReady o => ([], PExchange transport o :: started, c)
      end).
(** The same of [ExchangeAsync], which does not wait but starts a goroutine. *)
Definition ExchangeAsync_begin (w : World) (ctxErr : option GoError) (ctxTag : option string) (transport : DNSTransport)
    (message : Msg) (options : DNSQueryOptions) (checker : Checker) (c : Client) :
    result (list reply * list process * Client) :=
  let options := withTimeout c options in
  let? '(outcome, started, c) := beginExchange w ctxErr ctxTag transport message options checker c in
  Ok (match outcome with
      | BeginDone response err => ([(response, err)], started, c)
      | BeginWait _ _ => ([], PCall transport ctxTag message options checker :: started, c)
      | BeginReady o => ([], PExchange transport o :: started, c)
      end).
(** After the wait. *)
Definition Exchange_resume (w : World) (ctxErr : option GoError) (ctxTag : option string) (transport : DNSTransport)
    (o : exchangeOperation) (c : Client) : result (list reply * list process * Client) :=
  let? '(outcome, started, c) := beginResume w ctxErr ctxTag transport o c in
  Ok (match outcome with
      | BeginDone response err => ([(response, err)], started, c)
      | BeginWait cond o => ([], PWait cond transport ctxTag o :: started, c)
      | BeginReady o => ([], PExchange transport o :: started, c)
      end).
(** After the answer of the server; the channel is released at the end. *)
Definition Exchange_finish (w : World) (transport : DNSTransport) (o : exchangeOperation) (answer : result Msg) (c : Client) :
    result (list reply * Client) :=
  match exchangeToTransport (o_message o) answer with
  | Err err => let? c := release o c in Ok ([(None, Some err)], c)
  | Ok response =>
      let '((response, err), c) := finishExchange w transport o response c in
      let? c := release o c in Ok ([(Some response, err)], c)
  end.

(** [questionCache]: the addresses of a cached response. *)
Definition questionCache (w : World) (transport : DNSTransport) (message : Msg) (options : DNSQueryOptions) (checker : Checker)
    (c : Client) : result ((list Addr * option GoError) * list process * Client) :=
  match msg_Question message with
  | [] => Err (GoPanic "index out of range")
  | question :: _ =>
      let cacheKey := newCacheKey w c transport question message options in
      let '(loaded, c) := loadResponse w cacheKey c in
      match loaded with
      | None => Ok (([], Some ErrNotCached), [], c)
      | Some (response, _, isStale) =>
          if isStale && qo_DisableOptimisticCache options then Ok (([], Some ErrNotCached), [], c)
          else
            let '(started, c) :=
              if isStale then backgroundRefreshDNS transport cacheKey (prepareExchangeMessage c message options) options checker c
              else ([], c) in
            let found :=
              if negb (msg_Rcode response =? RcodeSuccess) then ([], Some (RcodeError (msg_Rcode response)))
              else (MessageToAddresses response, None) in
            Ok (found, started, c)
      end
  end.

Inductive event :=
  | EExchange (w : World) (ctxErr : option GoError) (ctxTag : option string) (transport : DNSTransport) (message : Msg)
      (options : DNSQueryOptions) (checker : Checker)
  | EExchangeAsync (w : World) (ctxErr : option GoError) (ctxTag : option string) (transport : DNSTransport) (message : Msg)
      (options : DNSQueryOptions) (checker : Checker)
  | EQuestionCache (w : World) (transport : DNSTransport) (message : Msg) (options : DNSQueryOptions) (checker : Checker)
  (* the process at a position goes on: it is called, its wait ends, its server answers *)
  | ECall (i : nat) (w : World) (ctxErr : option GoError)
  | EWake (i : nat) (w : World) (ctxErr : option GoError)
  | EAnswer (i : nat) (w : World) (answer : result Msg)
  | EClearCache
  | EStore (store : Store).

Definition removeAt {A} (i : nat) (l : list A) : list A := take i l ++ drop (S i) l.

(** The processes go on with those that were started. *)
Definition goOn (l : list process) (r : result (list reply * list process * Client)) : result (list reply * clientSystem) :=
  let? '(replies, started, c) := r in Ok (replies, mkClientSystem c (l ++ started)).

Definition step (e : event) (y : clientSystem) : result (list reply * clientSystem) :=
  let c := y_client y in
  let l := y_processes y in
  match e with
  | EExchange w ctxErr ctxTag transport message options checker =>
      goOn l (Exchange_begin w ctxErr ctxTag transport message options checker c)
  | EExchangeAsync w ctxErr ctxTag transport message options checker =>
      goOn l (ExchangeAsync_begin w ctxErr ctxTag transport message options checker c)
  | EQuestionCache w transport message options checker =>
      let? '(_, started, c) := questionCache w transport message options checker c in Ok ([], mkClientSystem c (l ++ started))
  | ECall i w ctxErr =>
      match l !! i with
      | Some (PCall transport ctxTag message options checker) =>
          goOn (removeAt i l) (Exchange_begin w ctxErr ctxTag transport message options checker c)
      | _ => Ok ([], y)
      end
  | EWake i w ctxErr =>
      match l !! i with
      | Some (PWait cond transport ctxTag o) =>
          if bool_decide (cond ∈ c_closed c) || (match ctxErr with Some _ => true | None => false end)
          then goOn (removeAt i l) (Exchange_resume w ctxErr ctxTag transport o c) else Ok ([], y)
      | _ => Ok ([], y)
      end
  | EAnswer i w answer =>
      match l !! i with
      | Some (PExchange transport o) =>
          let? '(replies, c) := Exchange_finish w transport o answer c in Ok (replies, mkClientSystem c (removeAt i l))
      | Some (PRefresh transport key message options checker) =>
          Ok ([], mkClientSystem (finishRefresh w transport key message options checker answer c) (removeAt i l))
      | _ => Ok ([], y)
      end
  | EClearCache => Ok ([], mkClientSystem (ClearCache c) l)
  | EStore store => Ok ([], mkClientSystem (set_store store c) l)
  end.

(** ** Lookups *)

(** [lookupToExchange], with what [Exchange] gives for the message. *)
Definition lookupMessage (name : string) (qType : Z) : Msg :=
  mkMsg 0 false false true false 0 [mkQuestion name qType ClassINET] [] [] [].
Definition exchangedAddresses (r : reply) : list Addr * option GoError :=
  match r with
  | (_, Some err) => ([], Some err)
  | (Some response, None) =>
      if negb (msg_Rcode response =? RcodeSuccess) then ([], Some (RcodeError (msg_Rcode response)))
      else (MessageToAddresses response, None)
  | (None, None) => ([], Some (GoPanic "nil pointer dereference"))
  end.
Definition lookupToExchange (w : World) (transport : DNSTransport) (name : string) (qType : Z) (options : DNSQueryOptions)
    (checker : Checker) (exchange : Msg -> DNSQueryOptions -> reply) (c : Client) :
    result ((list Addr * option GoError) * list process * Client) :=
  let message := lookupMessage name qType in
  if c_disableCache c || qo_DisableCache options then Ok (exchangedAddresses (exchange message options), [], c)
  else
    let? '(cached, started, c) := questionCache w transport message options checker c in
    if bool_decide (snd cached = Some ErrNotCached) then Ok (exchangedAddresses (exchange message options), started, c)
    else Ok (cached, started, c).

Definition sortAddresses (response4 response6 : list Addr) (strategy : Z) : list Addr :=
  if strategy =? DomainStrategyPreferIPv6 then response6 ++ response4 else response4 ++ response6.

(** [Lookup], with what [lookupToExchange] gives for a name, a type and options. *)
Definition Lookup (lookup : string -> Z -> DNSQueryOptions -> list Addr * option GoError) (domain : string)
    (options : DNSQueryOptions) : list Addr * option GoError :=
  let dnsName := dns_Fqdn (FqdnToDomain domain) in
  let strategy :=
    if negb (qo_LookupStrategy options =? DomainStrategyAsIS) then qo_LookupStrategy options else qo_Strategy options in
  let lookupOptions :=
    if negb (qo_LookupStrategy options =? DomainStrategyAsIS) then {| options with qo_Strategy := strategy |} else options in
  if strategy =? DomainStrategyIPv4Only then lookup dnsName TypeA lookupOptions
  else if strategy =? DomainStrategyIPv6Only then lookup dnsName TypeAAAA lookupOptions
  else
    let '(r4, e4) := lookup dnsName TypeA lookupOptions in
    let '(r6, e6) := lookup dnsName TypeAAAA lookupOptions in
    let response4 := match e4 with Some _ => [] | None => r4 end in
    let response6 := match e6 with Some _ => [] | None => r6 end in
    match response4, response6 with
    | [], [] => ([], task_Run [e4; e6])
    | _, _ => (sortAddresses response4 response6 strategy, None)
    end.
End client.
