(* ===== verification/DNSClientLocks.v ===== *)
(** * Concurrent exchanges of the DNS client

    Exchanges of the same key wait for the one that holds its channel.  The
    channel table, the channels and the refreshing goroutines agree in every
    state the client can reach, so that no channel is closed twice, no exchange
    waits for one that is gone, and every call is answered once. *)

From S2P Require Import Prelude.
From S2P Require Import GoText.
From S2P Require Import Bytes.
From S2P Require Import NetIP.
From S2P Require Import Libs.
From S2P Require Import Metadata.
From S2P Require Import CacheFile.
From S2P Require Import DNSQuery.
From S2P Require Import DNSRouter.
From S2P Require Import DNSMessage.
From S2P Require Import DNSClient.
Local Open Scope string_scope.
Local Open Scope list_scope.
Local Open Scope Z_scope.

Section locks.
Context `{L : Libs} `{D : DNSLibs} `{CL : ClientLibs} {Store : Type} `{CS : CacheStore Store}.
Notation Client := (Client (CL := CL) (Store := Store)).
Notation clientSystem := (clientSystem (CL := CL) (Store := Store)).
Notation event := (event (Store := Store)).

(** ** Runs *)

(** The replies in the order they are given. *)
Fixpoint run (events : list event) (y : clientSystem) : result (list reply * clientSystem) :=
  match events with
  | [] => Ok ([], y)
  | e :: events =>
      let? '(replies, y) := step e y in
      let? '(more, y) := run events y in Ok (replies ++ more, y)
  end.

(** A client without exchanges under way. *)
Definition idle (c : Client) : Prop :=
  c_cacheLock c = ∅ /\ (forall cond, cond ∈ c_closed c -> (cond < c_channels c)%nat) /\ c_backgroundRefresh c = ∅.

(** Records are of the type their header says. *)
Definition wellTyped (m : Msg) : Prop := Forall (fun r => isOPT r = true -> is_Some (optOf r)) (msg_Extra m).
Definition eventTyped (e : event) : Prop :=
  match e with
  | EExchange _ _ _ _ message _ _ | EExchangeAsync _ _ _ _ message _ _ => wellTyped message
  | EQuestionCache _ _ message _ _ => msg_Question message <> []
  | _ => True
  end.
Definition isCall (e : event) : bool :=
  match e with EExchange _ _ _ _ _ _ _ | EExchangeAsync _ _ _ _ _ _ _ => true | _ => false end.
Definition calls (events : list event) : nat := length (List.filter isCall events).

(** ** The invariant *)

Definition ownerOf (p : process) : option (dnsExchangeKey * nat) :=
  match p with PExchange _ o => o_releaseCond o | _ => None end.
Definition waitOf (p : process) : option nat := match p with PWait cond _ _ _ => Some cond | _ => None end.
Definition refreshOf (p : process) : option dnsCacheKey := match p with PRefresh _ key _ _ _ => Some key | _ => None end.
Definition processOk (p : process) : Prop :=
  match p with
  | PWait _ _ _ o => o_releaseCond o = None
  | PCall _ _ message _ _ => wellTyped message
  | _ => True
  end.
Notation owners := (omap ownerOf).
Notation waits := (omap waitOf).
Notation refreshes := (omap refreshOf).

Record locksOk (c : Client) (l : list process) : Prop := {
  lk_table : forall k cond, c_cacheLock c !! k = Some cond <-> (k, cond) ∈ owners l;
  lk_unique : NoDup (map snd (owners l));
  lk_open : forall k cond, (k, cond) ∈ owners l -> (cond < c_channels c)%nat /\ cond ∉ c_closed c;
  lk_closed : forall cond, cond ∈ c_closed c -> (cond < c_channels c)%nat;
  lk_waits : forall cond, cond ∈ waits l -> cond ∈ c_closed c \/ cond ∈ map snd (owners l);
  lk_processes : Forall processOk l;
  lk_refresh_unique : NoDup (refreshes l);
  lk_refresh : forall k, k ∈ c_backgroundRefresh c <-> k ∈ refreshes l }.

#[local] Instance locksOk_perm c : Proper ((≡ₚ) ==> impl) (locksOk c).
Proof.
  intros l l' E [H1 H2 H3 H4 H5 H6 H7 H8].
  assert (Eo : owners l ≡ₚ owners l') by by rewrite E. assert (Ew : waits l ≡ₚ waits l') by by rewrite E.
  assert (Er : refreshes l ≡ₚ refreshes l') by by rewrite E.
  split; [setoid_rewrite <- Eo|rewrite <- Eo|setoid_rewrite <- Eo| |setoid_rewrite <- Ew; setoid_rewrite <- Eo
    |rewrite <- E|rewrite <- Er|setoid_rewrite <- Er]; done.
Qed.

(** What the invariant looks at is left alone. *)
Definition sameLocks (c c' : Client) : Prop :=
  c_cacheLock c' = c_cacheLock c /\ c_channels c' = c_channels c /\ c_closed c' = c_closed c
  /\ c_backgroundRefresh c' = c_backgroundRefresh c.
Lemma locksOk_same c c' l : sameLocks c c' -> locksOk c l -> locksOk c' l.
Proof. intros (E1 & E2 & E3 & E4) []. split; rewrite ?E1, ?E2, ?E3, ?E4; done. Qed.

Lemma loadResponse_same w key c : sameLocks c (snd (loadResponse w key c)).
Proof.
  unfold loadResponse, loadPersistentResponse. destruct (c_dnsCache c).
  - destruct (store_LoadDNSCache _ _ _ _) as [[[raw e]|] s]; [|done]. destruct (dns_Unpack raw); [|done].
    cbn. by destruct (c_disableExpire c).
  - destruct (c_cache c) as [cache|]; [|done]. destruct (c_disableExpire c); [by destruct (lru_Get _ _ _)|].
    destruct (lru_GetWithLifetimeNoExpire _ _) as [[[m e]|] cache']; [|done]. by destruct (loadedResponse _ _ _ _).
Qed.
Lemma storeCache_same w key m ttl c : sameLocks c (storeCache w key m ttl c).
Proof.
  unfold storeCache. destruct (ttl =? 0); [done|]. destruct (c_dnsCache c); [by destruct (dns_Pack m)|].
  by destruct (c_cache c).
Qed.
Lemma loadRDRC_same w t q c : sameLocks c (snd (loadRDRC w t q c)).
Proof. unfold loadRDRC. by destruct (store_LoadRDRC _ _ _ _ _). Qed.
Lemma ClearCache_same c : sameLocks c (ClearCache c).
Proof. unfold ClearCache. cbn. by destruct (c_dnsCache c). Qed.
Lemma finishExchange_same w t o m c : sameLocks c (snd (finishExchange w t o m c)).
Proof.
  unfold finishExchange. destruct (isRejected _ _); [by destruct (_ && _)|].
  destruct (applyResponseOptions _ _ _) as [m' ttl]. destruct (_ || _); [done|].
  destruct (finishCacheKey _ _ _ _) as [k []]; [apply storeCache_same|done].
Qed.

(** ** Pieces *)

(** The operation of a call that has not given up control counts as a process
    that asks the server. *)
Lemma release_ok t o c l :
  locksOk c (PExchange t o :: l) -> exists c', release o c = Ok c' /\ locksOk c' l.
Proof.
  intros [H1 H2 H3 H4 H5 H6 H7 H8]. unfold release. cbn [omap list_omap ownerOf waitOf refreshOf] in *.
  apply Forall_inv_tail in H6. destruct (o_releaseCond o) as [[k cond]|].
  - destruct (H3 k cond ltac:(left)) as [Hlt Hn]. rewrite bool_decide_false by done. eexists. split; [done|].
    cbn [map snd] in H2. apply list.NoDup_cons in H2 as [Hnotin H2].
    assert (Hk : forall cond', (k, cond') ∉ owners l).
    { intros cond' Hin. assert (E : c_cacheLock c !! k = Some cond') by (apply H1; by right).
      assert (E' : c_cacheLock c !! k = Some cond) by (apply H1; by left). rewrite E in E'. injection E' as ->.
      apply Hnotin. apply (list_elem_of_fmap_2 snd) in Hin. exact Hin. }
    split; cbn [c_cacheLock c_closed c_channels c_backgroundRefresh]; try done.
    + intros k' cond'. destruct (decide (k' = k)) as [->|Hne]; [rewrite lookup_delete_eq; split; [done|by intros ?%Hk]|].
      rewrite lookup_delete_ne by done. rewrite H1, list.elem_of_cons. naive_solver.
    + intros k' cond' Hin. destruct (H3 k' cond' ltac:(by right)) as [? Hc]. split; [done|].
      intros [->%elem_of_singleton|?]%elem_of_union; [|done]. apply Hnotin. apply (list_elem_of_fmap_2 snd) in Hin. exact Hin.
    + intros cond' [->%elem_of_singleton|?]%elem_of_union; auto.
    + intros cond' Hw. destruct (H5 _ Hw) as [?|Hin]; [left; set_solver|]. cbn [map snd] in Hin.
      apply list.elem_of_cons in Hin as [->|?]; [left; set_solver|by right].
  - eexists. split; [done|]. split; done.
Qed.

Lemma backgroundRefreshDNS_ok t k m options checker c l started c' :
  locksOk c l -> backgroundRefreshDNS t k m options checker c = (started, c') -> locksOk c' (started ++ l).
Proof.
  intros [H1 H2 H3 H4 H5 H6 H7 H8]. unfold backgroundRefreshDNS. case_bool_decide as Hk; intros [= <- <-]; [by split|].
  split; cbn; try done; [by constructor|by constructor; [rewrite <- H8|]|]. intros k'. rewrite elem_of_union, elem_of_singleton, H8, list.elem_of_cons. done.
Qed.

Lemma answerFromCache_ok w t o c l response started c' :
  locksOk c l -> answerFromCache w t o c = (response, started, c') ->
  locksOk c' (started ++ l) /\ (response = None -> started = []).
Proof.
  intros H. unfold answerFromCache. pose proof (loadResponse_same w (o_cacheKey o) c) as E.
  destruct (loadResponse w (o_cacheKey o) c) as [[[[m ttl] stale]|] c1]; cbn [snd] in E; apply (locksOk_same _ _ _ E) in H.
  - destruct stale; [|by intros [= <- <- <-]]. destruct (negb _); [|by intros [= <- <- <-]].
    destruct (backgroundRefreshDNS _ _ _ _ _ _) as [st c2] eqn:Eb. intros [= <- <- <-].
    split; [by eapply backgroundRefreshDNS_ok|done].
  - by intros [= <- <- <-].
Qed.

(** ** Beginning an exchange *)

(** How much a process has still to do, and how many replies it owes. *)
Definition weight (p : process) : nat := match p with PCall _ _ _ _ _ => 4 | PWait _ _ _ _ => 3 | PExchange _ _ => 2 | PRefresh _ _ _ _ _ => 1 end.
Definition owes (p : process) : nat := match p with PRefresh _ _ _ _ _ => 0 | _ => 1 end.
Definition total (f : process -> nat) (l : list process) : nat := list_sum (map f l).

Lemma total_app f l k : total f (l ++ k) = (total f l + total f k)%nat.
Proof. unfold total. by rewrite map_app, list_sum_app. Qed.
Lemma total_cons f p l : total f (p :: l) = (f p + total f l)%nat.
Proof. done. Qed.

Definition processOf (t : DNSTransport) (ctxTag : option string) (outcome : beginOutcome) : list process :=
  match outcome with
  | BeginDone _ _ => []
  | BeginWait cond o => [PWait cond t ctxTag o]
  | BeginReady o => [PExchange t o]
  end.
Definition repliesOf (outcome : beginOutcome) : list reply :=
  match outcome with BeginDone response err => [(response, err)] | _ => [] end.

(** [limit] bounds what is left to do. *)
Definition begins (t : DNSTransport) (ctxTag : option string) (limit : nat) (l : list process)
    (r : result (beginOutcome * list process * Client)) : Prop :=
  exists outcome started c', r = Ok (outcome, started, c') /\ locksOk c' (processOf t ctxTag outcome ++ started ++ l)
  /\ (length (repliesOf outcome) + total owes (processOf t ctxTag outcome ++ started) = 1)%nat
  /\ (total weight (processOf t ctxTag outcome ++ started) <= limit)%nat.

Lemma begins_mono t tag limit limit' l r : (limit <= limit')%nat -> begins t tag limit l r -> begins t tag limit' l r.
Proof. intros Hle (outcome & started & c & E & H1 & H2 & H3). exists outcome, started, c. split_and!; [done..|lia]. Qed.

Lemma beginReady_ok w ctxTag t o c l :
  locksOk c (PExchange t o :: l) -> exists outcome c', beginReady w ctxTag t o c = Ok (outcome, c')
  /\ locksOk c' (processOf t ctxTag outcome ++ l) /\ (length (repliesOf outcome) + total owes (processOf t ctxTag outcome) = 1)%nat
  /\ (total weight (processOf t ctxTag outcome) <= 2)%nat.
Proof.
  intros H. unfold beginReady. case_bool_decide as Htag.
  { destruct (release_ok _ _ _ _ H) as (c' & -> & H'). eexists _, _. split; [done|]. split_and!; [done..|cbn; lia]. }
  set (o' := {| o with o_ctxTag := Some (tr_Tag t) |}). assert (H' : forall c', sameLocks c c' -> locksOk c' (PExchange t o' :: l)).
  { intros c' E. apply (locksOk_same _ _ _ E). destruct H as [H1 H2 H3 H4 H5 H6 H7 H8]. split; try done. constructor; [done|]. by apply Forall_inv_tail in H6. }
  destruct (_ && _ && _).
  - pose proof (loadRDRC_same w t (o_question o') c) as E. destruct (loadRDRC _ _ _ _) as [[] c1]; cbn [snd] in E; apply H' in E.
    + destruct (release_ok _ _ _ _ E) as (c' & -> & Hc'). eexists _, _. split; [done|]. split_and!; [done..|cbn; lia].
    + eexists _, _. split; [done|]. split_and!; [done..|cbn; lia].
  - eexists _, _. split; [done|]. split_and!; [by apply H'|done|cbn; lia].
Qed.

Lemma refreshes_owe t key m options checker (c c' : Client) started :
  backgroundRefreshDNS t key m options checker c = (started, c') -> total owes started = 0%nat /\ (total weight started <= 1)%nat.
Proof. unfold backgroundRefreshDNS. case_bool_decide; intros [= <- <-]; cbn; lia. Qed.
Lemma answerFromCache_owes w t o (c c' : Client) response started :
  answerFromCache w t o c = (response, started, c') -> total owes started = 0%nat /\ (total weight started <= 1)%nat.
Proof.
  unfold answerFromCache. destruct (loadResponse _ _ _) as [[[[m ttl] stale]|] c1]; [|intros [= <- <- <-]; cbn; lia].
  destruct stale; [|intros [= <- <- <-]; cbn; lia]. destruct (negb _); [|intros [= <- <- <-]; cbn; lia].
  destruct (backgroundRefreshDNS _ _ _ _ _ _) as [st c2] eqn:Eb. intros [= <- <- <-]. by apply refreshes_owe in Eb.
Qed.

Lemma beginTurn_ok w ctxTag t o cond c l :
  locksOk c (PExchange t o :: l) ->
  match cond with
  | Some cond => o_releaseCond o = None /\ (cond ∈ c_closed c \/ cond ∈ map snd (owners l))
  | None => True
  end -> begins t ctxTag (match cond with Some _ => 3 | None => 2 end) l (beginTurn w ctxTag t o cond c).
Proof.
  intros H Hcond. unfold beginTurn. destruct (answerFromCache w t o c) as [[response started] c1] eqn:Ea.
  destruct (answerFromCache_owes _ _ _ _ _ _ _ Ea) as [Ho Hw].
  assert (Hclosed : c_closed c1 = c_closed c).
  { revert Ea. unfold answerFromCache. pose proof (loadResponse_same w (o_cacheKey o) c) as (_ & _ & E & _).
    destruct (loadResponse _ _ _) as [[[[m ttl] []]|] c2]; cbn [snd] in E; [destruct (negb _)| |]; try (intros [= <- <- <-]; done).
    unfold backgroundRefreshDNS. case_bool_decide; intros [= <- <- <-]; done. }
  destruct (answerFromCache_ok _ _ _ _ _ _ _ _ H Ea) as [H1 Hnone].
  assert (H2 : locksOk c1 (PExchange t o :: started ++ l)) by (by rewrite Permutation_middle).
  destruct response as [response|].
  - destruct (release_ok _ _ _ _ H2) as (c' & -> & H'). eexists _, _, _. split; [done|]. cbn [processOf repliesOf app length].
    split_and!; [done|lia|destruct cond; lia].
  - specialize (Hnone eq_refl). subst started. destruct cond as [cond|].
    + destruct Hcond as [Hr Hc]. eexists _, _, _. split; [done|]. cbn [processOf repliesOf app length]. split_and!; [|done|cbn; lia].
      destruct H2 as [G1 G2 G3 G4 G5 G6 G7 G8]. cbn [omap list_omap ownerOf waitOf refreshOf app] in *. rewrite Hr in *.
      split; cbn [omap list_omap ownerOf waitOf refreshOf]; try done.
      * intros cond' [->|?]%list.elem_of_cons; [|auto]. by rewrite Hclosed.
      * constructor; [done|]. by apply Forall_inv_tail in G6.
    + destruct (beginReady_ok w ctxTag t o c1 _ H2) as (outcome & c' & -> & Hok & Hn & Hwt). eexists outcome, [], c'.
      rewrite app_nil_r. done.
Qed.

Lemma isSimpleRequest_ok m : wellTyped m -> exists b, isSimpleRequest m = Ok b.
Proof.
  intros H. unfold isSimpleRequest. destruct (msg_Question m) as [|q [|]], (msg_Ns m); eauto. unfold wellTyped in H.
  destruct (msg_Extra m) as [|r [|]]; eauto. apply Forall_inv in H. cbn beta in H. unfold isOPT in H.
  destruct (hdr_Rrtype (rr_Header r) =? TypeOPT); [|by eauto]. destruct (H eq_refl) as [option ->]. destruct (_ && _); eauto.
Qed.

Lemma begins_done t tag limit l c response err : locksOk c l -> begins t tag limit l (Ok (BeginDone response err, [], c)).
Proof. intros H. eexists _, _, _. split; [done|]. split_and!; [done..|cbn; lia]. Qed.

Lemma locksOk_free c l t o : o_releaseCond o = None -> locksOk c l -> locksOk c (PExchange t o :: l).
Proof.
  intros Ho [H1 H2 H3 H4 H5 H6 H7 H8]. split; cbn [omap list_omap ownerOf waitOf refreshOf]; rewrite ?Ho; try done. by constructor.
Qed.

Lemma beginExchange_ok w ctxErr ctxTag t m options checker c l :
  wellTyped m -> locksOk c l -> begins t ctxTag 3 l (beginExchange w ctxErr ctxTag t m options checker c).
Proof.
  intros Hm H. unfold beginExchange. destruct ctxErr; [by apply begins_done|].
  destruct (msg_Question m) as [|question rest]; [by apply begins_done|]. destruct (_ || _); [by apply begins_done|].
  destruct (isSimpleRequest_ok m Hm) as [simple ->]. cbn [result_bind]. destruct (_ || _).
  { match goal with |- context [beginReady _ _ _ ?o c] => destruct (beginReady_ok w ctxTag t o c l) as (outcome & c' & -> & Hok & Hn & Hw) end;
      [by apply locksOk_free|]. eexists outcome, [], c'. rewrite app_nil_r. split_and!; [done..|lia]. }
  set (key := mkDNSExchangeKey _ _). destruct (c_cacheLock c !! key) as [cond|] eqn:Elock.
  - apply (beginTurn_ok w ctxTag t _ (Some cond)); [by apply locksOk_free|]. split; [done|]. right.
    apply (lk_table _ _ H) in Elock. apply (list_elem_of_fmap_2 snd) in Elock. exact Elock.
  - eapply begins_mono; [|apply (beginTurn_ok w ctxTag t _ None); [|done]]; [lia|].
    assert (Hkey : forall cond, (key, cond) ∉ owners l) by (intros cond Hin; apply (lk_table _ _ H) in Hin; congruence).
    assert (Hnew : forall k cond, (k, cond) ∈ owners l -> cond <> c_channels c).
    { intros k cond Hin. destruct (lk_open _ _ H _ _ Hin). lia. }
    destruct H as [H1 H2 H3 H4 H5 H6 H7 H8].
    split; cbn [omap list_omap ownerOf waitOf refreshOf o_releaseCond c_cacheLock c_closed c_channels c_backgroundRefresh map snd]; try done.
    + intros k cond. rewrite list.elem_of_cons. destruct (decide (k = key)) as [->|Hne].
      * rewrite lookup_insert_eq. split; [by intros [= <-]; left|]. intros [[= <-]|?%Hkey]; done.
      * rewrite lookup_insert_ne by done. rewrite H1. naive_solver.
    + constructor; [|done]. intros Hin. apply (list_elem_of_fmap snd) in Hin as ([k cond] & E & Hin). by apply (Hnew k cond).
    + intros k cond [[= -> ->]|Hin]%list.elem_of_cons.
      * split; [lia|]. intros ?%H4. lia.
      * destruct (H3 _ _ Hin). split; [lia|done].
    + intros cond Hin%H4. lia.
    + intros cond Hin%H5. rewrite list.elem_of_cons. tauto.
    + by constructor.
Qed.

Lemma beginResume_ok w ctxErr ctxTag t o c l :
  o_releaseCond o = None -> locksOk c l -> begins t ctxTag 2 l (beginResume w ctxErr ctxTag t o c).
Proof.
  intros Ho H. unfold beginResume. destruct ctxErr; [by apply begins_done|].
  apply (beginTurn_ok w ctxTag t _ None); [|done]. by apply locksOk_free.
Qed.

(** ** Steps *)

(** A call goes on: the locks agree and one more reply is given or owed. *)
Definition goesOn (limit : nat) (l : list process) (r : result (list reply * list process * Client)) : Prop :=
  exists replies started c', r = Ok (replies, started, c') /\ locksOk c' (l ++ started)
  /\ (length replies + total owes started = 1)%nat /\ (total weight started <= limit)%nat.

Lemma goesOn_begins t tag limit l r :
  begins t tag limit l r ->
  goesOn limit l (let? '(outcome, started, c) := r in
    Ok (match outcome with
        | BeginDone response err => ([(response, err)], started, c)
        | BeginWait cond o => ([], PWait cond t tag o :: started, c)
        | BeginReady o => ([], PExchange t o :: started, c)
        end)).
Proof.
  intros (outcome & started & c' & -> & H & Hn & Hw). cbn [result_bind].
  exists (repliesOf outcome), (processOf t tag outcome ++ started), c'. split_and!; [by destruct outcome| |done..].
  by rewrite Permutation_app_comm, <- app_assoc.
Qed.

Lemma Exchange_begin_ok w ctxErr ctxTag t m options checker c l :
  wellTyped m -> locksOk c l -> goesOn 3 l (Exchange_begin w ctxErr ctxTag t m options checker c).
Proof. intros Hm H. by eapply goesOn_begins, beginExchange_ok. Qed.

Lemma Exchange_resume_ok w ctxErr ctxTag t o c l :
  o_releaseCond o = None -> locksOk c l -> goesOn 2 l (Exchange_resume w ctxErr ctxTag t o c).
Proof. intros Ho H. by eapply goesOn_begins, beginResume_ok. Qed.

(** A goroutine takes the place of the wait. *)
Lemma ExchangeAsync_begin_ok w ctxErr ctxTag t m options checker c l :
  wellTyped m -> locksOk c l -> goesOn 4 l (ExchangeAsync_begin w ctxErr ctxTag t m options checker c).
Proof.
  intros Hm H. unfold ExchangeAsync_begin.
  destruct (beginExchange_ok w ctxErr ctxTag t m (withTimeout c options) checker c l Hm H) as (outcome & started & c' & -> & H' & Hn & Hw).
  cbn [result_bind]. destruct outcome as [response err|cond o|o]; cbn [processOf repliesOf app] in *.
  - exists [(response, err)], started, c'. split_and!; [done|by rewrite Permutation_app_comm|done|lia].
  - eexists [], _, c'. split; [done|]. rewrite !total_cons in *. cbn [weight owes length] in *. split_and!; [|lia|lia].
    rewrite <- Permutation_middle, (Permutation_app_comm l). destruct H' as [G1 G2 G3 G4 G5 G6 G7 G8].
    cbn [omap list_omap ownerOf waitOf refreshOf] in *. split; cbn [omap list_omap ownerOf waitOf refreshOf]; try done.
    + intros cond' ?. apply G5. by right.
    + constructor; [done|]. by apply Forall_inv_tail in G6.
  - eexists [], _, c'. split; [done|]. split_and!; [|done|lia]. by rewrite <- Permutation_middle, (Permutation_app_comm l).
Qed.

Lemma Exchange_finish_ok w t o answer c l :
  locksOk c (PExchange t o :: l) -> exists reply c', Exchange_finish w t o answer c = Ok ([reply], c') /\ locksOk c' l.
Proof.
  intros H. unfold Exchange_finish. destruct (exchangeToTransport _ _) as [m|err].
  - pose proof (finishExchange_same w t o m c) as E. destruct (finishExchange w t o m c) as [[m' err'] c1]. cbn [snd] in E.
    apply (locksOk_same _ _ _ E) in H. destruct (release_ok _ _ _ _ H) as (c' & -> & H'). by eexists _, _.
  - destruct (release_ok _ _ _ _ H) as (c' & -> & H'). by eexists _, _.
Qed.

Lemma finishRefresh_ok w t key m options checker answer c l :
  locksOk c (PRefresh t key m options checker :: l) -> locksOk (finishRefresh w t key m options checker answer c) l.
Proof.
  intros H. unfold finishRefresh. match goal with |- locksOk {| c_timeout := c_timeout ?c1 |} _ => set (c1' := c1) end.
  assert (E : sameLocks c c1').
  { subst c1'. destruct (exchangeToTransport _ _) as [m'|]; [|done]. destruct (isRejected _ _); [by destruct (c_rdrc c)|].
    destruct (negb _); [done|]. destruct (finishCacheKey _ _ _ _) as [k []]; [|done]. cbn [negb].
    destruct (applyResponseOptions _ _ _). apply storeCache_same. }
  apply (locksOk_same _ _ _ E) in H. destruct H as [H1 H2 H3 H4 H5 H6 H7 H8].
  cbn [omap list_omap ownerOf waitOf refreshOf] in *. apply list.NoDup_cons in H7 as [Hk H7].
  split; cbn [c_cacheLock c_closed c_channels c_backgroundRefresh]; try done; [by apply Forall_inv_tail in H6|].
  intros k. specialize (H8 k). rewrite list.elem_of_cons in H8. rewrite elem_of_difference, elem_of_singleton, H8.
  split; [tauto|]. intros Hin. split; [by right|]. by intros ->.
Qed.

Lemma removeAt_perm {A} i (l : list A) p : l !! i = Some p -> l ≡ₚ p :: removeAt i l.
Proof. intros H. unfold removeAt. rewrite Permutation_middle. by rewrite (take_drop_middle l i p H). Qed.
Lemma total_perm f l l' : l ≡ₚ l' -> total f l = total f l'.
Proof. intros E. induction E; rewrite ?total_cons in *; lia. Qed.

(** A step: the locks agree, the replies are accounted for; [limit] bounds what
    is left to do. *)
Definition moves (calls limit : nat) (y : clientSystem) (r : result (list reply * clientSystem)) : Prop :=
  exists replies y', r = Ok (replies, y') /\ locksOk (y_client y') (y_processes y')
  /\ (length replies + total owes (y_processes y') = total owes (y_processes y) + calls)%nat
  /\ (total weight (y_processes y') <= total weight (y_processes y) + limit)%nat.

Lemma goOn_moves limit c l r : goesOn limit l r -> moves 1 limit (mkClientSystem c l) (goOn l r).
Proof.
  intros (replies & started & c' & -> & H & Hn & Hw). eexists _, _. split; [done|]. cbn [y_client y_processes].
  rewrite !total_app. split_and!; [done|lia|lia].
Qed.
Lemma moves_stays calls' limit c l c' : locksOk c' l -> calls' = 0%nat -> moves calls' limit (mkClientSystem c l) (Ok ([], mkClientSystem c' l)).
Proof. intros H ->. eexists _, _. split; [done|]. cbn. split_and!; [done|lia..]. Qed.

(** The steps of a process: something less is left to do. *)
Definition advances (y : clientSystem) (r : result (list reply * clientSystem)) : Prop :=
  exists replies y', r = Ok (replies, y') /\ locksOk (y_client y') (y_processes y')
  /\ (length replies + total owes (y_processes y') = total owes (y_processes y))%nat
  /\ (total weight (y_processes y') < total weight (y_processes y))%nat.

Lemma advances_moves y r : advances y r -> moves 0 0 y r.
Proof. intros (replies & y' & E & H & Ho & Hw). exists replies, y'. split_and!; [done..|lia|lia]. Qed.

Lemma goOn_advances limit c l i p r :
  l !! i = Some p -> owes p = 1%nat -> (limit < weight p)%nat -> goesOn limit (removeAt i l) r -> advances (mkClientSystem c l) (goOn (removeAt i l) r).
Proof.
  intros Hi Hp Hl (replies & started & c' & -> & H & Hn & Hw). eexists _, _. split; [done|]. cbn [y_client y_processes].
  rewrite !total_app, !(total_perm _ _ _ (removeAt_perm _ _ _ Hi)), !total_cons, Hp. split_and!; [done|lia|lia].
Qed.

Lemma locksOk_removeAt c l i p :
  locksOk c l -> l !! i = Some p -> locksOk c (p :: removeAt i l).
Proof. intros H Hi. by rewrite <- (removeAt_perm _ _ _ Hi). Qed.
(** Processes that hold no channel and no key can be left out. *)
Lemma locksOk_drop c l p : ownerOf p = None -> refreshOf p = None -> locksOk c (p :: l) -> locksOk c l.
Proof.
  intros Ho Hr [H1 H2 H3 H4 H5 H6 H7 H8]. cbn [omap list_omap] in *. rewrite Ho, Hr in *. split; try done.
  - intros cond Hin. apply H5. destruct (waitOf p); [by right|done].
  - by apply Forall_inv_tail in H6.
Qed.

Lemma step_call i w ctxErr c l t tag m options checker :
  locksOk c l -> l !! i = Some (PCall t tag m options checker) -> advances (mkClientSystem c l) (step (ECall i w ctxErr) (mkClientSystem c l)).
Proof.
  intros H Hi. cbn [step y_client y_processes]. rewrite Hi. pose proof (locksOk_removeAt _ _ _ _ H Hi) as H'.
  eapply (goOn_advances 3); [done..|cbn; lia|]. apply Exchange_begin_ok; [exact (Forall_inv (lk_processes _ _ H'))|].
  by apply locksOk_drop in H'.
Qed.
Lemma step_wake i w ctxErr c l cond t tag o :
  locksOk c l -> l !! i = Some (PWait cond t tag o) -> cond ∈ c_closed c \/ ctxErr <> None ->
  advances (mkClientSystem c l) (step (EWake i w ctxErr) (mkClientSystem c l)).
Proof.
  intros H Hi Hc. cbn [step y_client y_processes]. rewrite Hi. pose proof (locksOk_removeAt _ _ _ _ H Hi) as H'.
  replace (bool_decide _ || _) with true.
  2: { destruct Hc as [Hc|Hc]; [by rewrite bool_decide_true|]. destruct ctxErr; [by rewrite orb_true_r|done]. }
  eapply (goOn_advances 2); [done..|cbn; lia|]. pose proof (Forall_inv (lk_processes _ _ H')) as Ho.
  apply Exchange_resume_ok; [done|]. by apply locksOk_drop in H'.
Qed.
Lemma step_answer i w answer c l t o :
  locksOk c l -> l !! i = Some (PExchange t o) -> advances (mkClientSystem c l) (step (EAnswer i w answer) (mkClientSystem c l)).
Proof.
  intros H Hi. cbn [step y_client y_processes]. rewrite Hi. pose proof (locksOk_removeAt _ _ _ _ H Hi) as H'.
  destruct (Exchange_finish_ok w t o answer c _ H') as (rep & c' & -> & Hc'). eexists _, _. split; [done|]. cbn [y_client y_processes].
  rewrite !(total_perm _ _ _ (removeAt_perm _ _ _ Hi)), !total_cons. cbn [owes weight length]. split_and!; [done|lia|lia].
Qed.
Lemma step_refreshed i w answer c l t key m options checker :
  locksOk c l -> l !! i = Some (PRefresh t key m options checker) ->
  advances (mkClientSystem c l) (step (EAnswer i w answer) (mkClientSystem c l)).
Proof.
  intros H Hi. cbn [step y_client y_processes]. rewrite Hi. pose proof (locksOk_removeAt _ _ _ _ H Hi) as H'.
  eexists _, _. split; [done|]. cbn [y_client y_processes length].
  rewrite !(total_perm _ _ _ (removeAt_perm _ _ _ Hi)), !total_cons. cbn [owes weight]. split_and!; [by apply finishRefresh_ok|lia|lia].
Qed.

Lemma questionCache_ok w t m options checker c l :
  msg_Question m <> [] -> locksOk c l -> exists found started c', questionCache w t m options checker c = Ok (found, started, c')
  /\ locksOk c' (l ++ started) /\ total owes started = 0%nat /\ (total weight started <= 1)%nat.
Proof.
  intros Hq H. unfold questionCache. destruct (msg_Question m) as [|q rest]; [done|].
  pose proof (loadResponse_same w (newCacheKey w c t q m options) c) as E.
  destruct (loadResponse _ _ _) as [[[[response ttl] stale]|] c1]; cbn [snd] in E; apply (locksOk_same _ _ _ E) in H.
  2: { eexists _, _, _. split; [done|]. rewrite app_nil_r. split_and!; [done..|cbn; lia]. }
  destruct (stale && _). { eexists _, _, _. split; [done|]. rewrite app_nil_r. split_and!; [done..|cbn; lia]. }
  destruct stale.
  - destruct (backgroundRefreshDNS _ _ _ _ _ _) as [started c2] eqn:Eb. eexists _, _, _. split; [done|].
    destruct (refreshes_owe _ _ _ _ _ _ _ _ Eb). split_and!; [|done..]. rewrite Permutation_app_comm. by eapply backgroundRefreshDNS_ok.
  - eexists _, _, _. split; [done|]. rewrite app_nil_r. split_and!; [done..|cbn; lia].
Qed.

Lemma step_ok e c l :
  eventTyped e -> locksOk c l -> moves (if isCall e then 1 else 0) 4 (mkClientSystem c l) (step e (mkClientSystem c l)).
Proof.
  intros He H. assert (Hmono : forall n r, moves n 0 (mkClientSystem c l) r -> moves n 4 (mkClientSystem c l) r).
  { intros n r (replies & y' & E & H' & Ho & Hw). exists replies, y'. split_and!; [done..|lia]. }
  assert (Hstay : moves 0 4 (mkClientSystem c l) (Ok ([], mkClientSystem c l))) by by apply moves_stays.
  destruct e; cbn [isCall eventTyped] in *.
  - destruct (goOn_moves 3 c l _ (Exchange_begin_ok w ctxErr ctxTag transport message options checker c l He H)) as (replies & y' & E & H' & Ho & Hw).
    exists replies, y'. split_and!; [done..|lia].
  - by apply goOn_moves, ExchangeAsync_begin_ok.
  - cbn [step y_client y_processes]. destruct (questionCache_ok w transport message options checker c l He H) as (found & started & c' & -> & H' & Ho & Hw).
    eexists _, _. split; [done|]. cbn [y_client y_processes length]. rewrite !total_app. split_and!; [done|lia|lia].
  - destruct (l !! i) as [[]|] eqn:Hi; try (cbn [step y_client y_processes]; rewrite Hi; done).
    by eapply Hmono, advances_moves, step_call.
  - destruct (l !! i) as [[cond t tag o| | |]|] eqn:Hi; try (cbn [step y_client y_processes]; rewrite Hi; done).
    destruct (decide (cond ∈ c_closed c \/ ctxErr <> None)) as [Hc|Hc]; [by eapply Hmono, advances_moves, step_wake|].
    cbn [step y_client y_processes]. rewrite Hi, bool_decide_false by tauto. destruct ctxErr; [|done]. destruct Hc. by right.
  - destruct (l !! i) as [[]|] eqn:Hi; try (cbn [step y_client y_processes]; rewrite Hi; done).
    + by eapply Hmono, advances_moves, step_answer.
    + by eapply Hmono, advances_moves, step_refreshed.
  - apply moves_stays; [|done]. eapply locksOk_same; [apply ClearCache_same|done].
  - apply moves_stays; [|done]. by eapply locksOk_same; [|exact H].
Qed.

(** A process goes on in the world [w], a server giving [answer]. *)
Definition continues (w : World) (answer : result Msg) (e : event) : Prop :=
  match e with
  | ECall _ w' None | EWake _ w' None => w' = w
  | EAnswer _ w' answer' => w' = w /\ answer' = answer
  | _ => False
  end.

(** Whatever is under way, something can go on. *)
Lemma can_advance w answer c l : locksOk c l -> l <> [] ->
  exists e, continues w answer e /\ advances (mkClientSystem c l) (step e (mkClientSystem c l)).
Proof.
  intros H Hl. destruct l as [|p l']; [done|]. destruct p as [cond t tag o|t o|t tag m options checker|t key m options checker].
  - destruct (lk_waits _ _ H cond) as [Hc|Hc]; [by left| |].
    + exists (EWake 0 w None). split; [done|]. eapply step_wake; [done..|by left].
    + apply (list_elem_of_fmap snd) in Hc as ([k cond'] & Ec & Hin). cbn in Ec. subst cond'.
      apply list_elem_of_omap in Hin as (p & Hp & Eo). apply list_elem_of_lookup in Hp as [j Hj].
      destruct p as [|t' o'| |]; try done. exists (EAnswer j w answer). split; [done|]. by eapply step_answer.
  - exists (EAnswer 0 w answer). split; [done|]. by eapply step_answer.
  - exists (ECall 0 w None). split; [done|]. by eapply step_call.
  - exists (EAnswer 0 w answer). split; [done|]. by eapply step_refreshed.
Qed.

Lemma run_ends w answer n c l : locksOk c l -> (total weight l <= n)%nat ->
  exists more replies c', Forall (continues w answer) more /\ (length more <= n)%nat
  /\ run more (mkClientSystem c l) = Ok (replies, mkClientSystem c' []) /\ length replies = total owes l /\ locksOk c' [].
Proof.
  revert c l. induction n as [|n IH]; intros c l H Hn; (destruct l as [|p l]; [by exists [], [], c; split_and!; cbn; try lia|]).
  { exfalso. rewrite total_cons in Hn. assert (1 <= weight p)%nat by (destruct p; cbn; lia). lia. }
  destruct (can_advance w answer c (p :: l) H ltac:(done)) as (e & He & replies & [c1 l1] & E & H1 & Ho & Hw).
  cbn [y_client y_processes] in *. destruct (IH c1 l1 H1) as (more & replies' & c' & G1 & G3 & G4 & G5 & G6); [lia|].
  exists (e :: more), (replies ++ replies'), c'. split_and!; [by constructor|cbn [length]; lia| |rewrite length_app; lia|done].
  cbn [run]. rewrite E. cbn [result_bind]. by rewrite G4.
Qed.

Lemma run_ok events c l : locksOk c l -> Forall eventTyped events ->
  exists replies c' l', run events (mkClientSystem c l) = Ok (replies, mkClientSystem c' l') /\ locksOk c' l'
  /\ (length replies + total owes l' = total owes l + calls events)%nat.
Proof.
  intros H He. revert c l H. induction He as [|e events He _ IH]; intros c l H.
  { exists [], c, l. split_and!; [done..|]. cbn. lia. }
  destruct (step_ok e c l He H) as (replies & [c1 l1] & E & H1 & Ho & _). cbn [y_client y_processes] in *.
  destruct (IH c1 l1 H1) as (replies' & c' & l' & E' & H' & Ho'). exists (replies ++ replies'), c', l'.
  cbn [run]. rewrite E. cbn [result_bind]. rewrite E'. split_and!; [done..|]. rewrite length_app. unfold calls in *. cbn [List.filter].
  destruct (isCall e); cbn [length]; lia.
Qed.

Lemma locksOk_idle c : idle c -> locksOk c [].
Proof.
  intros (E1 & E2 & E3). split; cbn; rewrite ?E1, ?E3; try done; try constructor; try set_solver.
Qed.

(** C5 Every call of the client is answered once, whatever the order of calls,
    answers and wake-ups: no step panics (a channel is closed once), the replies
    and the exchanges under way add up to the calls, and from every state at most
    four steps for each process, whatever the servers answer, leave no process,
    channel or refresh behind.  An exchange that waits does so for a channel that
    is closed already or for one that asks the server.  At most one exchange holds
    the channel of a key, and at most one refresh of it is under way; exchanges
    that were woken may ask the server besides, without a channel. *)
Theorem exchanges_answered c events w answer :
  idle c -> Forall eventTyped events ->
  exists replies c' l, run events (mkClientSystem c []) = Ok (replies, mkClientSystem c' l)
  /\ (length replies + total owes l = calls events)%nat
  /\ (forall cond t tag o, PWait cond t tag o ∈ l -> cond ∈ c_closed c' \/ exists t' o' k, PExchange t' o' ∈ l /\ o_releaseCond o' = Some (k, cond))
  /\ (forall k cond, c_cacheLock c' !! k = Some cond <-> exists t o, PExchange t o ∈ l /\ o_releaseCond o = Some (k, cond))
  /\ NoDup (map fst (owners l)) /\ NoDup (refreshes l)
  /\ exists more replies' c'', (length more <= 4 * length l)%nat /\ Forall (continues w answer) more
     /\ run more (mkClientSystem c' l) = Ok (replies', mkClientSystem c'' []) /\ length replies' = total owes l
     /\ c_cacheLock c'' = ∅ /\ c_backgroundRefresh c'' = ∅.
Proof.
  intros Hidle He. destruct (run_ok events c [] (locksOk_idle c Hidle) He) as (replies & c' & l & E & H & Ho).
  exists replies, c', l. split_and!; [done|done| | | |apply H|].
  - intros cond t tag o Hin. destruct (lk_waits _ _ H cond) as [?|Hc]; [apply list_elem_of_omap; by eexists (PWait _ _ _ _)|by left|].
    right. apply (list_elem_of_fmap snd) in Hc as ([k cond'] & -> & Hk). apply list_elem_of_omap in Hk as ([|t' o'| |] & Hp & Eo); try done.
    by exists t', o', k.
  - intros k cond. rewrite (lk_table _ _ H), list_elem_of_omap. split.
    + intros ([|t o| |] & Hp & Eo); try done. by exists t, o.
    + intros (t & o & Hp & Eo). by exists (PExchange t o).
  - apply NoDup_fmap_2_strong; [|eapply NoDup_fmap_1; exact (lk_unique _ _ H)]. intros [k1 c1] [k2 c2] H1 H2 Ek. cbn in Ek. subst k2.
    apply (lk_table _ _ H) in H1, H2. congruence.
  - assert (Hw : (total weight l <= 4 * length l)%nat).
    { clear. induction l as [|p l IH]; [done|]. rewrite total_cons. cbn [length]. assert (weight p <= 4)%nat by (destruct p; cbn; lia). lia. }
    destruct (run_ends w answer _ c' l H Hw) as (more & replies' & c'' & G1 & G3 & G4 & G5 & G6).
    exists more, replies', c''. split_and!; [done..| |].
    + apply map_empty. intros k. destruct (c_cacheLock c'' !! k) as [cond|] eqn:Ek; [|done]. apply (lk_table _ _ G6) in Ek. by apply not_elem_of_nil in Ek.
    + apply set_eq. intros k. rewrite (lk_refresh _ _ G6). cbn. set_solver.
Qed.
End locks.
