(* ===== verification/DNSClientCache.v ===== *)
(** * Where cached DNS responses come from

    Whatever the client answers from its cache was answered by a server before:
    to the same question, through the same transport and for the same client
    subnet, accepted by the check of that exchange, and not longer ago than its
    lifetime, or the time stale answers are allowed for.  The argument is over
    all histories of calls, answers, refreshes and steps of the store. *)

From S2P Require Import Prelude.
From S2P Require Import GoText.
From S2P Require Import Bytes.
From S2P Require Import NetIP.
From S2P Require Import Libs.
From S2P Require Import Metadata.
From S2P Require Import CacheFile.
From S2P Require Import DNSQuery.
From S2P Require Import DNSRouter.
From S2P Require Import DNSMessage.
From S2P Require Import DNSClient.
From S2P Require Import DNSClientLocks.
Local Open Scope string_scope.
Local Open Scope list_scope.
Local Open Scope Z_scope.

Section provenance.
Context `{L : Libs} `{D : DNSLibs} `{CL : ClientLibs} {Store : Type} `{CS : CacheStore Store}.
Notation Client := (Client (CL := CL) (Store := Store)).
Notation clientSystem := (clientSystem (CL := CL) (Store := Store)).
Notation event := (event (Store := Store)).

(** ** Answers of servers *)

(** What a server gave for a message that was sent for a key. *)
Record answered := mkAnswered {
  a_transport : DNSTransport; a_key : dnsCacheKey; a_message : Msg; a_options : DNSQueryOptions; a_checker : Checker;
  a_response : Msg; a_world : World }.

Definition serverAnswer (w : World) (t : DNSTransport) (key : dnsCacheKey) (m : Msg) (options : DNSQueryOptions) (checker : Checker)
    (answer : result Msg) : list answered :=
  match exchangeToTransport m answer with
  | Ok response => [mkAnswered t key m options checker response w]
  | Err _ => []
  end.
(** The answers of a step that may be cached, and of a run. *)
Definition stepAnswers (e : event) (y : clientSystem) : list answered :=
  match e with
  | EAnswer i w answer =>
      match y_processes y !! i with
      | Some (PExchange t o) =>
          if o_disableCache o then [] else serverAnswer w t (o_cacheKey o) (o_message o) (o_options o) (o_responseChecker o) answer
      | Some (PRefresh t key m options checker) => serverAnswer w t key m options checker answer
      | _ => []
      end
  | _ => []
  end.
Fixpoint answers (events : list event) (y : clientSystem) : list answered :=
  match events with
  | [] => []
  | e :: events => stepAnswers e y ++ match step e y with Ok (_, y) => answers events y | Err _ => [] end
  end.

(** The response [m] with the lifetime [life] was made of the answer [a] for [key]. *)
Record fromAnswer (a : answered) (key : dnsCacheKey) (m : Msg) (life : Z) : Prop := {
  fa_asked : msg_Question (a_message a) = [k_Question key];
  fa_transport : k_transportTag key = tr_Tag (a_transport a);
  fa_subnet : k_clientSubnet key = k_clientSubnet (a_key a);
  fa_environment : k_environment key = k_environment (a_key a) \/ k_environment (a_key a) = 0;
  fa_rcode : cacheableRcode (a_response a) = true;
  fa_accepted : isRejected (a_checker a) (a_response a) = false;
  fa_made : applyResponseOptions (k_Question key) (a_response a) (a_options a) = (m, life);
  fa_life : life <> 0 }.

(** ** Histories *)

Definition questionOk (q : Question) : Prop := 0 <= q_Qtype q < 2 ^ 16.
Definition messageOk (m : Msg) : Prop := Forall questionOk (msg_Question m).
(** Messages have types of 16 bits, cached lookups one question, and the store
    changes by its own steps. *)
Definition eventOk (e : event) (y : clientSystem) : Prop :=
  match e with
  | EExchange _ _ _ _ message _ _ | EExchangeAsync _ _ _ _ message _ _ => messageOk message
  | EQuestionCache _ _ message _ _ => messageOk message /\ length (msg_Question message) = 1%nat
  | EStore store => store_step (c_cacheStore (y_client y)) store
  | _ => True
  end.
Fixpoint history (events : list event) (y : clientSystem) : Prop :=
  match events with
  | [] => True
  | e :: events => eventOk e y /\ forall replies y', step e y = Ok (replies, y') -> history events y'
  end.

(** What an exchange holds is about its question and transport. *)
Definition operationOk (t : DNSTransport) (o : exchangeOperation) : Prop :=
  o_disableCache o = false ->
  k_Question (o_cacheKey o) = o_question o /\ k_transportTag (o_cacheKey o) = tr_Tag t
  /\ msg_Question (o_message o) = [o_question o] /\ questionOk (o_question o).
Definition asksOk (p : process) : Prop :=
  match p with
  | PWait _ t _ o => operationOk t o /\ o_disableCache o = false
  | PExchange t o => operationOk t o
  | PCall _ _ m _ _ => messageOk m
  | PRefresh t key m _ _ => k_transportTag key = tr_Tag t /\ msg_Question m = [k_Question key] /\ questionOk (k_Question key)
  end.

(** ** What is in the caches *)

(** The expiry of an answer, and how the store keeps it. *)
Definition expiry (a : answered) (life : Z) : Z := w_now (a_world a) + nanoseconds * life.
Definition keptAs (e0 e : Z) : Prop := e = e0 \/ e = getTime (putTime e0).
Definition storeKey (key : dnsCacheKey) : saveCacheKey :=
  mkCacheKey (persistentName key) (q_Name (k_Question key)) (q_Qtype (k_Question key)).

(** A response in the memory cache, and a packed one in the store: of an answer,
    or in the store from the start. *)
Definition rememberedOf (disableExpire : bool) (h : list answered) (key : dnsCacheKey) (m : Msg) (e : option Z) : Prop :=
  exists a life, a ∈ h /\ fromAnswer a key m life
  /\ match e with Some e => expiry a life - Millisecond < e <= expiry a life | None => disableExpire = true end.
Definition storedOf (store0 : Store) (h : list answered) (k : saveCacheKey) (raw : list Z) (e : Z) : Prop :=
  (exists a key m life, a ∈ h /\ fromAnswer a key m life /\ k = storeKey key /\ dns_Pack m = Some raw /\ keptAs (expiry a life) e)
  \/ exists e0, store_has store0 k raw e0 /\ keptAs e0 e.

Record cachesOk (store0 : Store) (h : list answered) (c : Client) : Prop := {
  ca_memory : forall cache key m e, c_cache c = Some cache -> lru_has cache key m e -> rememberedOf (c_disableExpire c) h key m e;
  ca_store : forall k raw e, store_has (c_cacheStore c) k raw e -> storedOf store0 h k raw e }.

Lemma storedOf_mono store0 h h' k raw e : h ⊆ h' -> storedOf store0 h k raw e -> storedOf store0 h' k raw e.
Proof. intros Hh [(a & key & m & life & Ha & H)|H]; [left; exists a, key, m, life; split; [by apply Hh|done]|by right]. Qed.
Lemma rememberedOf_mono b h h' key m e : h ⊆ h' -> rememberedOf b h key m e -> rememberedOf b h' key m e.
Proof. intros Hh (a & life & Ha & H). exists a, life. split; [by apply Hh|done]. Qed.
Lemma cachesOk_mono store0 h h' c : h ⊆ h' -> cachesOk store0 h c -> cachesOk store0 h' c.
Proof. intros Hh [H1 H2]. split; [|eauto using storedOf_mono]. intros. eapply rememberedOf_mono; eauto. Qed.

(** The configuration, which nothing changes. *)
Definition sameConfig (c c' : Client) : Prop :=
  c_disableExpire c' = c_disableExpire c /\ c_dnsCache c' = c_dnsCache c /\ c_optimisticTimeout c' = c_optimisticTimeout c
  /\ c_rdrc c' = c_rdrc c /\ c_disableCache c' = c_disableCache c.
(** A change that adds nothing to the caches. *)
Definition keeps (c c' : Client) : Prop :=
  sameConfig c c'
  /\ (forall cache', c_cache c' = Some cache' -> exists cache, c_cache c = Some cache
       /\ forall key m e, lru_has cache' key m e -> lru_has cache key m e)
  /\ forall k raw e, store_has (c_cacheStore c') k raw e -> store_has (c_cacheStore c) k raw e.

#[local] Instance keeps_preorder : PreOrder keeps.
Proof.
  split.
  - intros c. split; [done|]. split; [|done]. intros cache E. by exists cache.
  - intros c1 c2 c3 ((E1 & E2 & E3 & E4 & E5) & H1 & G1) ((F1 & F2 & F3 & F4 & F5) & H2 & G2).
    split; [split_and!; congruence|]. split; [|eauto]. intros cache E. destruct (H2 _ E) as (cache2 & E' & H).
    destruct (H1 _ E') as (cache1 & E'' & H'). exists cache1. eauto.
Qed.
Lemma cachesOk_keeps store0 h c c' : keeps c c' -> cachesOk store0 h c -> cachesOk store0 h c'.
Proof.
  intros ((E1 & _) & H1 & H2) [G1 G2]. split; [|eauto]. intros cache key m e E H. rewrite E1.
  destruct (H1 _ E) as (cache0 & E0 & H0). eapply G1; eauto.
Qed.
(** Locks and refreshes do not matter. *)
Lemma keeps_same c c' : sameConfig c c' -> c_cache c' = c_cache c -> c_cacheStore c' = c_cacheStore c -> keeps c c'.
Proof. intros H E1 E2. split; [done|]. rewrite E1, E2. split; [|done]. intros cache E. by exists cache. Qed.
Lemma keeps_store c s : (forall k raw e, store_has s k raw e -> store_has (c_cacheStore c) k raw e) -> keeps c (set_store s c).
Proof. intros H. split; [done|]. split; [|exact H]. intros cache E. by exists cache. Qed.

(** ** Operations that add nothing *)

Lemma keeps_cache c cache cache' :
  c_cache c = Some cache -> (forall key m e, lru_has cache' key m e -> lru_has cache key m e) -> keeps c (set_cache (Some cache') c).
Proof. intros E Hc. split; [done|]. split; [|done]. intros cache2 [= <-]. by exists cache. Qed.

Lemma loadPersistentResponse_keeps w key c : keeps c (snd (loadPersistentResponse w key c)).
Proof.
  unfold loadPersistentResponse.
  pose proof (store_Load_keeps (persistentName key) (q_Name (k_Question key)) (q_Qtype (k_Question key)) (c_cacheStore c)) as H.
  destruct (store_LoadDNSCache _ _ _ _) as [[[raw e]|] s]; cbn [snd] in *; [|by apply keeps_store].
  destruct (dns_Unpack raw); [|by apply keeps_store]. match goal with |- context [if ?b then _ else _] => destruct b end; by apply keeps_store.
Qed.
Lemma loadResponse_keeps w key c : keeps c (snd (loadResponse w key c)).
Proof.
  unfold loadResponse. destruct (c_dnsCache c); [apply loadPersistentResponse_keeps|].
  destruct (c_cache c) as [cache|] eqn:Ec; [|done]. destruct (c_disableExpire c).
  - pose proof (lru_Get_keeps (w_now w) key cache) as H. destruct (lru_Get _ _ _) as [m cache']. by eapply keeps_cache.
  - pose proof (lru_GetNoExpire_keeps key cache) as H. destruct (lru_GetWithLifetimeNoExpire _ _) as [[[m e]|] cache']; [|by eapply keeps_cache].
    cbn [snd] in H. destruct (loadedResponse _ _ _ _); (eapply keeps_cache; [done|]); [exact H|]. intros. eapply H, lru_Remove_keeps. done.
Qed.
Lemma loadRDRC_keeps w t q c : keeps c (snd (loadRDRC w t q c)).
Proof.
  unfold loadRDRC. pose proof (store_LoadRDRC_keeps (w_now w) (tr_Tag t) (q_Name q) (q_Qtype q) (c_cacheStore c)) as H.
  destruct (store_LoadRDRC _ _ _ _ _) as [b s]. by apply keeps_store.
Qed.
Lemma saveRDRC_keeps t q c : keeps c (saveRDRC t q c).
Proof. apply keeps_store. intros k raw e. apply store_SaveRDRC_keeps. Qed.
Lemma ClearCache_keeps c : keeps c (ClearCache c).
Proof.
  unfold ClearCache. set (c1 := set_cache (option_map lru_Purge (c_cache c)) c).
  assert (K : keeps c c1).
  { split; [done|]. split; [|done]. cbn. destruct (c_cache c) as [cache|]; [|done]. intros cache' [= <-]. exists cache. split; [done|].
    intros key m e H. by apply lru_Purge_has in H. }
  destruct (c_dnsCache c1); [|done]. etransitivity; [exact K|]. apply keeps_store. intros k raw e. apply store_Clear_keeps.
Qed.
Lemma release_keeps o c c' : release o c = Ok c' -> keeps c c'.
Proof.
  unfold release. destruct (o_releaseCond o) as [[k cond]|]; [|by intros [= <-]]. case_bool_decide; [done|]. intros [= <-].
  by apply keeps_same.
Qed.
Lemma backgroundRefreshDNS_keeps t key m options checker c started c' :
  backgroundRefreshDNS t key m options checker c = (started, c') -> keeps c c' /\ (started = [] \/ started = [PRefresh t key m options checker]).
Proof. unfold backgroundRefreshDNS. case_bool_decide; intros [= <- <-]; split; [done|by left|by apply keeps_same|by right]. Qed.

Definition begun (t : DNSTransport) (tag : option string) (c : Client) (r : result (beginOutcome * list process * Client)) : Prop :=
  forall outcome started c', r = Ok (outcome, started, c') -> keeps c c' /\ Forall asksOk (processOf t tag outcome ++ started).

Lemma beginReady_keeps w tag t o c outcome c' : operationOk t o ->
  beginReady w tag t o c = Ok (outcome, c') -> keeps c c' /\ Forall asksOk (processOf t tag outcome).
Proof.
  intros Ho. unfold beginReady. case_bool_decide.
  { intros (c1 & Er & [= <- <-])%result_bind_Ok. apply release_keeps in Er. split; [done|constructor]. }
  destruct (_ && _ && _); [|intros [= <- <-]; split; [done|by constructor]].
  match goal with |- context [loadRDRC w t ?q c] => pose proof (loadRDRC_keeps w t q c) as K; destruct (loadRDRC w t q c) as [[] c1] end; cbn [snd] in K.
  - intros (c2 & Er & [= <- <-])%result_bind_Ok. apply release_keeps in Er. split; [by etransitivity|constructor].
  - intros [= <- <-]. split; [done|by constructor].
Qed.

Lemma beginTurn_keeps w tag t o cond c : operationOk t o -> o_disableCache o = false -> begun t tag c (beginTurn w tag t o cond c).
Proof.
  intros Ho Hd outcome started c'. unfold beginTurn, answerFromCache.
  pose proof (loadResponse_keeps w (o_cacheKey o) c) as K. destruct (loadResponse _ _ _) as [loaded c1]; cbn [snd] in K.
  assert (Hnone : forall c'', match cond with
      | Some cond => Ok (BeginWait cond o, [], c1)
      | None => let? '(outcome, c) := beginReady w tag t o c1 in Ok (outcome, [], c)
      end = Ok (outcome, started, c'') -> keeps c c'' /\ Forall asksOk (processOf t tag outcome ++ started)).
  { intros c''. destruct cond as [cond|].
    - intros [= <- <- <-]. split; [done|]. by constructor; [split|].
    - intros ([oc c2] & Er & [= <- <- <-])%result_bind_Ok. apply beginReady_keeps in Er as [K' Hp]; [|done].
      rewrite app_nil_r. split; [by etransitivity|done]. }
  destruct loaded as [[[m ttl] stale]|]; [|exact (Hnone c')]. destruct stale.
  - destruct (negb _); [|exact (Hnone c')]. destruct (backgroundRefreshDNS _ _ _ _ _ _) as [st c2] eqn:Eb.
    apply backgroundRefreshDNS_keeps in Eb as [K2 Hst]. intros (c3 & Er & [= <- <- <-])%result_bind_Ok. apply release_keeps in Er.
    split; [by do 2 (etransitivity; [eassumption|])|]. destruct (Ho Hd) as (E1 & E2 & E3 & E4).
    cbn [processOf app]. destruct Hst as [-> | ->]; constructor; [|constructor]. cbn [asksOk]. by rewrite E1.
  - intros (c3 & Er & [= <- <- <-])%result_bind_Ok. apply release_keeps in Er. split; [by etransitivity|constructor].
Qed.

Lemma removeClientSubnet_Question m : msg_Question (removeClientSubnet m) = msg_Question m.
Proof. unfold removeClientSubnet. by destruct (existsb _ _). Qed.
Lemma SetClientSubnet_Question m p : msg_Question (SetClientSubnet m p) = msg_Question m.
Proof. unfold SetClientSubnet. destruct (replaceInRecords _ _); [done|]. destruct (rev _) as [|r l]; [done|]. by destruct (optOf r). Qed.
Lemma prepareExchangeMessage_Question (c : Client) m options : msg_Question (prepareExchangeMessage c m options) = msg_Question m.
Proof.
  unfold prepareExchangeMessage. destruct (qo_RemoveClientSubnet options); [apply removeClientSubnet_Question|].
  destruct (Prefix.IsValid _); [apply SetClientSubnet_Question|done].
Qed.
Lemma isSimpleRequest_Question m : isSimpleRequest m = Ok true -> exists q, msg_Question m = [q].
Proof. unfold isSimpleRequest. destruct (msg_Question m) as [|q [|]]; try done. by exists q. Qed.

Lemma beginExchange_keeps w ctxErr tag t m options checker c :
  messageOk m -> begun t tag c (beginExchange w ctxErr tag t m options checker c).
Proof.
  intros Hm outcome started c'. unfold beginExchange. destruct ctxErr; [intros [= <- <- <-]; by split; [|constructor]|].
  unfold messageOk in Hm. destruct (msg_Question m) as [|q rest] eqn:Eq; [intros [= <- <- <-]; by split; [|constructor]|].
  apply Forall_inv in Hm. destruct (_ || _); [intros [= <- <- <-]; by split; [|constructor]|].
  intros (simple & Es & E)%result_bind_Ok. revert E. destruct (negb simple || _ || _) eqn:Ed.
  { intros ([oc c1] & Er & [= <- <- <-])%result_bind_Ok. rewrite app_nil_r. eapply beginReady_keeps; [|done]. done. }
  apply orb_false_iff in Ed as [[Esimple _]%orb_false_iff _]. apply negb_false_iff in Esimple as ->.
  apply isSimpleRequest_Question in Es as [q' Eq']. rewrite Eq in Eq'. injection Eq' as -> ->.
  assert (Hop : forall r, operationOk t {| (mkOperation None (prepareExchangeMessage c m options) q' (msg_Id (prepareExchangeMessage c m options)) options checker
      false (newCacheKey w c t q' (prepareExchangeMessage c m options) options) None) with o_releaseCond := r |}).
  { intros r _. cbn [o_cacheKey o_question o_message]. rewrite prepareExchangeMessage_Question. by split_and!; try apply Hm. }
  destruct (c_cacheLock c !! _) as [cond|]; intros E.
  - eapply beginTurn_keeps in E; [done|exact (Hop None)|done].
  - eapply beginTurn_keeps in E; [|exact (Hop _)|done]. destruct E as [K Hp]. split; [|done]. etransitivity; [|exact K]. by apply keeps_same.
Qed.
Lemma beginResume_keeps w ctxErr tag t o c :
  operationOk t o -> o_disableCache o = false -> begun t tag c (beginResume w ctxErr tag t o c).
Proof.
  intros Ho Hd. unfold beginResume. destruct ctxErr; [intros outcome started c' [= <- <- <-]; by split; [|constructor]|].
  apply beginTurn_keeps; [|done]. intros _. destruct (Ho Hd) as (E1 & E2 & E3 & E4). by split_and!.
Qed.

(** ** Operations that store *)

Lemma storeCache_config w key m life c : sameConfig c (storeCache w key m life c).
Proof.
  unfold storeCache. destruct (life =? 0); [done|]. destruct (c_dnsCache c); [by destruct (dns_Pack m)|]. by destruct (c_cache c).
Qed.
Lemma storeCache_ok store0 h key m life c a :
  cachesOk store0 h c -> a ∈ h -> (life <> 0 -> fromAnswer a key m life) -> questionOk (k_Question key) ->
  cachesOk store0 h (storeCache (a_world a) key m life c).
Proof.
  intros [H1 H2] Ha Hfrom Hq. unfold storeCache. destruct (Z.eqb_spec life 0) as [|Hlife]; [done|]. specialize (Hfrom Hlife).
  destruct (c_dnsCache c).
  - destruct (dns_Pack m) as [packed|] eqn:Ep; [|done]. split; [done|]. intros k raw e. cbn [c_cacheStore set_store].
    intros H. apply store_Save_has in H as [(-> & -> & ->)|H]; [|by apply H2|exact Hq]. left. exists a, key, m, life. split_and!; try done. by left.
  - destruct (c_cache c) as [cache|] eqn:Ec; [|by split; [rewrite Ec|]].
    split; [|done]. intros cache' k' m' e' [= <-]. cbn [c_disableExpire set_cache].
    destruct (c_disableExpire c) eqn:Ex.
    + intros [(-> & -> & ->)|H]%lru_Add_has; [|by eapply H1]. exists a, life. by split_and!.
    + intros [(-> & -> & e & -> & He)|H]%lru_AddWithLifetime_has; [|by eapply H1]. exists a, life. by split_and!; try apply He.
Qed.

Lemma finishCacheKey_spec w (c : Client) t key key' :
  finishCacheKey w c t key = (key', true) ->
  k_Question key' = k_Question key /\ k_transportTag key' = k_transportTag key /\ k_clientSubnet key' = k_clientSubnet key
  /\ (k_environment key' = k_environment key \/ k_environment key = 0).
Proof.
  unfold finishCacheKey. destruct (Z.eqb_spec (environmentHash w c t) (k_environment key)) as [E|]; cbn [orb].
  - intros [= <-]. cbn. auto.
  - destruct (Z.eqb_spec (k_environment key) 0); [|done]. intros [= <-]. cbn. auto.
Qed.

(** An accepted response is stored under the key it was asked for. *)
Lemma store_answer store0 h c a key' m life :
  cachesOk store0 h c -> a ∈ h -> finishCacheKey (a_world a) c (a_transport a) (a_key a) = (key', true) ->
  msg_Question (a_message a) = [k_Question (a_key a)] -> k_transportTag (a_key a) = tr_Tag (a_transport a) ->
  questionOk (k_Question (a_key a)) -> cacheableRcode (a_response a) = true -> isRejected (a_checker a) (a_response a) = false ->
  applyResponseOptions (k_Question (a_key a)) (a_response a) (a_options a) = (m, life) ->
  cachesOk store0 h (storeCache (a_world a) key' m life c).
Proof.
  intros H Ha Hk Hm Ht Hq Hr Hc Hmade. destruct (finishCacheKey_spec _ _ _ _ _ Hk) as (E1 & E2 & E3 & E4).
  apply storeCache_ok; [done..| |by rewrite E1]. intros Hlife. split; rewrite ?E1, ?E2, ?E3; done.
Qed.

Lemma finishExchange_ok store0 h w t o m c :
  operationOk t o -> cachesOk store0 h c ->
  (o_disableCache o = false -> mkAnswered t (o_cacheKey o) (o_message o) (o_options o) (o_responseChecker o) m w ∈ h) ->
  cachesOk store0 h (snd (finishExchange w t o m c)) /\ sameConfig c (snd (finishExchange w t o m c)).
Proof.
  intros Ho H Ha. unfold finishExchange. destruct (isRejected _ _) eqn:Er.
  - destruct (_ && _); [|done]. split; [|done]. eapply cachesOk_keeps; [apply saveRDRC_keeps|done].
  - destruct (applyResponseOptions _ _ _) as [m' life] eqn:Em. destruct (o_disableCache o) eqn:Ed; [done|].
    destruct (cacheableRcode m) eqn:Ec; [|done]. cbn [orb negb]. destruct (finishCacheKey _ _ _ _) as [key' []] eqn:Ek; [|done].
    cbn [snd]. split; [|apply storeCache_config]. destruct (Ho Ed) as (E1 & E2 & E3 & E4). rewrite <- E1 in E3, E4, Em.
    exact (store_answer _ _ _ _ _ _ _ H (Ha eq_refl) Ek E3 E2 E4 Ec Er Em).
Qed.

Lemma finishRefresh_keeps store0 h w t key m options checker answer c :
  asksOk (PRefresh t key m options checker) -> cachesOk store0 h c -> serverAnswer w t key m options checker answer ⊆ h ->
  cachesOk store0 h (finishRefresh w t key m options checker answer c) /\ sameConfig c (finishRefresh w t key m options checker answer c).
Proof.
  intros (E2 & E3 & E4) H Ha. unfold finishRefresh, serverAnswer in *.
  match goal with |- cachesOk _ _ {| c_timeout := c_timeout ?c1 |} /\ _ => set (c1' := c1); assert (G : cachesOk store0 h c1' /\ sameConfig c c1') end.
  2: { destruct G as [[G1 G2] G3]. split; [by split|exact G3]. }
  subst c1'. destruct (exchangeToTransport m answer) as [m'|]; [|done]. destruct (isRejected _ _) eqn:Er.
  { destruct (c_rdrc c); [|done]. split; [|done]. eapply cachesOk_keeps; [apply saveRDRC_keeps|done]. }
  destruct (cacheableRcode m') eqn:Ec; [|done]. cbn [negb]. destruct (finishCacheKey _ _ _ _) as [key' []] eqn:Ek; [|done]. cbn [negb].
  destruct (applyResponseOptions _ _ _) as [m2 life] eqn:Em. split; [|apply storeCache_config].
  refine (store_answer _ _ _ (mkAnswered t key m options checker m' w) _ _ _ H _ Ek E3 E2 E4 Ec Er Em). apply Ha. by left.
Qed.

(** ** Steps *)

Lemma rounded_value t : getTime (putTime t) = time_Unix (signed 8 (Unix t mod 2 ^ 64)).
Proof.
  unfold getTime, putTime. rewrite take_ge by (rewrite be_bytes_length; lia).
  rewrite be_value_bytes_small; [done|]. apply Z.mod_pos_bound. lia.
Qed.
Lemma signed_unsigned x : 0 <= x < 2 ^ 64 -> signed 8 x mod 2 ^ 64 = x.
Proof.
  intros H. unfold signed. change (2 ^ (8 * Z.of_nat 8)) with (2 ^ 64). destruct (_ <? _); [by apply Z.mod_small|].
  replace (x - 2 ^ 64) with (x + (-1) * 2 ^ 64) by lia. rewrite Z.mod_add by lia. by apply Z.mod_small.
Qed.
Lemma keptAs_trans e0 e1 e2 : keptAs e0 e1 -> keptAs e1 e2 -> keptAs e0 e2.
Proof.
  intros [->|E1] [->|E2]; [by left|by right|by right|]. right. subst. rewrite !rounded_value. f_equal. f_equal.
  unfold Unix, time_Unix. rewrite Z.div_mul by (unfold nanoseconds; lia). apply signed_unsigned, Z.mod_pos_bound. lia.
Qed.

Record good (store0 : Store) (h : list answered) (c0 : Client) (y : clientSystem) : Prop := {
  gd_caches : cachesOk store0 h (y_client y);
  gd_asks : Forall asksOk (y_processes y);
  gd_config : sameConfig c0 (y_client y) }.

Lemma sameConfig_trans c1 c2 c3 : sameConfig c1 c2 -> sameConfig c2 c3 -> sameConfig c1 c3.
Proof. intros (E1 & E2 & E3 & E4 & E5) (F1 & F2 & F3 & F4 & F5). split_and!; congruence. Qed.
Lemma good_keeps store0 h h' c0 c l c' l' : h ⊆ h' ->
  good store0 h c0 (mkClientSystem c l) -> keeps c c' -> Forall asksOk l' -> good store0 h' c0 (mkClientSystem c' l').
Proof.
  intros Hh [G1 G2 G3] K Hl. split; [|done|]; cbn in *.
  - by eapply cachesOk_mono, cachesOk_keeps.
  - eapply sameConfig_trans; [exact G3|apply K].
Qed.
Lemma removeAt_Forall {A} (P : A -> Prop) i l : Forall P l -> Forall P (removeAt i l).
Proof. intros H. unfold removeAt. apply Forall_app. split; [by apply Forall_take|by apply Forall_drop]. Qed.

(** The processes a call starts, and what it leaves of the client. *)
Definition called (c : Client) (r : result (list reply * list process * Client)) : Prop :=
  forall replies started c', r = Ok (replies, started, c') -> keeps c c' /\ Forall asksOk started.
Lemma goOn_good store0 h h' c0 c l l' r replies y' : h ⊆ h' ->
  good store0 h c0 (mkClientSystem c l) -> Forall asksOk l' -> called c r -> goOn l' r = Ok (replies, y') -> good store0 h' c0 y'.
Proof.
  intros Hh G Hl Hc ([[rs started] c'] & -> & [= <- <-])%result_bind_Ok. destruct (Hc _ _ _ eq_refl) as [K Hs].
  eapply good_keeps; [done..|]. by apply Forall_app.
Qed.

Lemma called_begun t tag c r : begun t tag c r ->
  called c (let? '(outcome, started, c) := r in
    Ok (match outcome with
        | BeginDone response err => ([(response, err)], started, c)
        | BeginWait cond o => ([], PWait cond t tag o :: started, c)
        | BeginReady o => ([], PExchange t o :: started, c)
        end)).
Proof.
  intros H replies started c' ([[outcome st] c1] & E & E')%result_bind_Ok. destruct (H _ _ _ E) as [K Hp].
  destruct outcome; injection E' as <- <- <-; done.
Qed.
Lemma Exchange_begin_called w ctxErr tag t m options checker c : messageOk m -> called c (Exchange_begin w ctxErr tag t m options checker c).
Proof. intros Hm. by apply called_begun, beginExchange_keeps. Qed.
Lemma ExchangeAsync_begin_called w ctxErr tag t m options checker c : messageOk m -> called c (ExchangeAsync_begin w ctxErr tag t m options checker c).
Proof.
  intros Hm replies started c' ([[outcome st] c1] & E & E')%result_bind_Ok.
  destruct (beginExchange_keeps _ _ _ _ _ _ _ _ Hm _ _ _ E) as [K Hp].
  destruct outcome; injection E' as <- <- <-; split; try done. constructor; [done|]. by apply Forall_inv_tail in Hp.
Qed.
Lemma Exchange_resume_called w ctxErr tag t o c : asksOk (PWait 0 t tag o) -> called c (Exchange_resume w ctxErr tag t o c).
Proof. intros [Ho Hd]. by apply called_begun, beginResume_keeps. Qed.
Lemma questionCache_keeps w t m options checker c found started c' :
  messageOk m -> length (msg_Question m) = 1%nat -> questionCache w t m options checker c = Ok (found, started, c') ->
  keeps c c' /\ Forall asksOk started.
Proof.
  intros Hm Hl. unfold questionCache, messageOk in *. destruct (msg_Question m) as [|q [|]] eqn:Eq; try done.
  pose proof (loadResponse_keeps w (newCacheKey w c t q m options) c) as K. destruct (loadResponse _ _ _) as [[[[r ttl] stale]|] c1]; cbn [snd] in K.
  2: { intros [= <- <- <-]. by split; [|constructor]. }
  destruct (stale && _); [intros [= <- <- <-]; by split; [|constructor]|]. destruct stale; [|intros [= <- <- <-]; by split; [|constructor]].
  destruct (backgroundRefreshDNS _ _ _ _ _ _) as [st c2] eqn:Eb. apply backgroundRefreshDNS_keeps in Eb as [K2 Hst].
  intros [= <- <- <-]. split; [by etransitivity|]. apply Forall_inv in Hm.
  destruct Hst as [-> | ->]; constructor; [|constructor]. cbn [asksOk]. rewrite prepareExchangeMessage_Question, Eq. by split_and!; try apply Hm.
Qed.

Lemma step_answer_good store0 h c0 c l i w answer replies y' :
  good store0 h c0 (mkClientSystem c l) -> step (EAnswer i w answer) (mkClientSystem c l) = Ok (replies, y') ->
  good store0 (h ++ stepAnswers (EAnswer i w answer) (mkClientSystem c l)) c0 y'.
Proof.
  intros G. cbn [step stepAnswers y_client y_processes].
  destruct (l !! i) as [[cond t tag o|t o|t tag m options checker|t key m options checker]|] eqn:Hi;
    try (intros [= <- <-]; by rewrite app_nil_r).
  - intros ([rs c'] & E & [= <- <-])%result_bind_Ok. destruct G as [G1 G2 G3]. cbn in G1, G2, G3.
    assert (Ho : operationOk t o) by exact (Forall_lookup_1 _ _ _ _ G2 Hi).
    set (h' := h ++ _). assert (Hh : h ⊆ h') by (unfold h'; set_solver). apply (cachesOk_mono _ _ _ _ Hh) in G1.
    assert (H : cachesOk store0 h' c' /\ sameConfig c c').
    { revert E. unfold Exchange_finish, h', serverAnswer in *. destruct (exchangeToTransport _ _) as [m|err].
      - match goal with |- context [finishExchange w t o m c] => pose proof (finishExchange_ok store0 (h ++ if o_disableCache o then [] else [mkAnswered t (o_cacheKey o) (o_message o) (o_options o) (o_responseChecker o) m w]) w t o m c Ho G1) as H end.
        destruct (finishExchange w t o m c) as [[m' err] c1]. cbn [snd] in H. intros (c2 & Er & [= <- <-])%result_bind_Ok.
        apply release_keeps in Er. destruct H as [H1 H2]; [intros ->; set_solver|]. split; [by eapply cachesOk_keeps|]. eapply sameConfig_trans; [exact H2|apply Er].
      - intros (c2 & Er & [= <- <-])%result_bind_Ok. apply release_keeps in Er. split; [by eapply cachesOk_keeps|apply Er]. }
    split; cbn; [apply H|by apply removeAt_Forall|eapply sameConfig_trans; [exact G3|apply H]].
  - intros [= <- <-]. destruct G as [G1 G2 G3]. cbn in G1, G2, G3. pose proof (Forall_lookup_1 _ _ _ _ G2 Hi) as Ho.
    set (h' := h ++ _). assert (Hh : h ⊆ h') by (unfold h'; set_solver). apply (cachesOk_mono _ _ _ _ Hh) in G1.
    destruct (finishRefresh_keeps store0 h' w t key m options checker answer c Ho G1) as [H1 H2]; [unfold h'; set_solver|].
    split; cbn; [done|by apply removeAt_Forall|by eapply sameConfig_trans].
Qed.

Lemma step_good store0 h c0 e c l replies y' :
  good store0 h c0 (mkClientSystem c l) -> eventOk e (mkClientSystem c l) -> step e (mkClientSystem c l) = Ok (replies, y') ->
  good store0 (h ++ stepAnswers e (mkClientSystem c l)) c0 y'.
Proof.
  intros G He E. assert (Hsub : h ⊆ h) by done.
  destruct e; try (by eapply step_answer_good); cbn [step stepAnswers y_client y_processes eventOk] in *; rewrite app_nil_r.
  - eapply goOn_good; [done|exact G|apply G| |exact E]. by apply Exchange_begin_called.
  - eapply goOn_good; [done|exact G|apply G| |exact E]. by apply ExchangeAsync_begin_called.
  - apply result_bind_Ok in E as ([[found started] c'] & E & [= <- <-]). destruct He as [Hm Hl].
    destruct (questionCache_keeps _ _ _ _ _ _ _ _ _ Hm Hl E) as [K Hs]. eapply good_keeps; [done..|]. apply Forall_app. split; [apply G|done].
  - destruct (l !! i) as [[]|] eqn:Hi; try (injection E as <- <-; done). eapply goOn_good; [done|exact G|apply removeAt_Forall, G| |exact E].
    apply Exchange_begin_called. exact (Forall_lookup_1 _ _ _ _ (gd_asks _ _ _ _ G) Hi).
  - destruct (l !! i) as [[]|] eqn:Hi; try (injection E as <- <-; done). destruct (_ || _); [|by injection E as <- <-].
    eapply goOn_good; [done|exact G|apply removeAt_Forall, G| |exact E]. apply Exchange_resume_called.
    exact (Forall_lookup_1 _ _ _ _ (gd_asks _ _ _ _ G) Hi).
  - injection E as <- <-. eapply good_keeps; [done|exact G|apply ClearCache_keeps|apply G].
  - injection E as <- <-. destruct G as [[G1 G2] G3 G4]. split; cbn in *; [|done..]. split; [done|]. intros k raw e H.
    destruct (store_step_has _ _ _ _ _ He H) as (e0 & H0 & Hk). assert (Hk' : keptAs e0 e) by exact Hk.
    destruct (G2 _ _ _ H0) as [(a & key & m & life & Ha & Hf & Ek & Ep & Hx)|(e1 & H1 & Hx)].
    + left. exists a, key, m, life. split_and!; try done. by eapply keptAs_trans.
    + right. exists e1. split; [done|]. by eapply keptAs_trans.
Qed.

Lemma run_good store0 c0 events h y replies y' :
  good store0 h c0 y -> history events y -> run events y = Ok (replies, y') -> good store0 (h ++ answers events y) c0 y'.
Proof.
  revert h y replies. induction events as [|e events IH]; intros h [c l] replies G Hh; cbn [run answers history] in *.
  - intros [= <- <-]. by rewrite app_nil_r.
  - destruct Hh as [He Hh]. intros ([rs y1] & E & ([rs2 y2] & E2 & [= <- <-])%result_bind_Ok)%result_bind_Ok.
    rewrite E, app_assoc. eapply IH; [by eapply step_good|by eapply Hh|exact E2].
Qed.

(** ** The theorem *)

(** A response [m] that expires at [e] is given as [response]: as it is without
    expiry, otherwise with what is left of its lifetime, or with one second when
    it is stale and may still be used. *)
Definition timely (w : World) (c : Client) (e : Z) (m response : Msg) (ttl : Z) (stale : bool) : Prop :=
  if c_disableExpire c then response = m
  else if stale then response = normalizeTTL 1 m /\ e < w_now w < e + c_optimisticTimeout c
  else response = normalizeTTL (ttl mod 2 ^ 32) m /\ 0 <= ttl /\ ttl * nanoseconds <= e - w_now w.

Lemma loadedResponse_timely w c m e response ttl stale : c_disableExpire c = false ->
  loadedResponse w c m e = Some (response, ttl, stale) -> timely w c e m response ttl stale.
Proof.
  intros Ex. unfold loadedResponse, timely. rewrite Ex. destruct (Z.ltb_spec e (w_now w)).
  - destruct (Z.ltb_spec 0 (c_optimisticTimeout c)); [|done]. destruct (Z.ltb_spec (w_now w) (e + c_optimisticTimeout c)); [|done].
    intros [= <- <- <-]. done.
  - intros [= <- <- <-]. split; [done|]. unfold remainingTTL, nanoseconds in *.
    pose proof (Z.mul_div_le (e - w_now w) 1000000000 ltac:(lia)). pose proof (Z.div_pos (e - w_now w) 1000000000 ltac:(lia) ltac:(lia)). lia.
Qed.

Lemma fresh_good c : (forall cache, c_cache c = Some cache -> forall key m e, ~ lru_has cache key m e) ->
  good (c_cacheStore c) [] c (mkClientSystem c []).
Proof.
  intros H. split; [|constructor|done]. split; cbn.
  - intros cache key m e E Hc. by destruct (H cache E key m e).
  - intros k raw e Hs. right. exists e. split; [done|by left].
Qed.

End provenance.
