(* ===== verification/DNSClientStore.v ===== *)
(** * The cache file as the store of the DNS client

    The cache file with its writing goroutines implements [CacheStore]: what can
    be loaded is pending, held by a goroutine or on disk, and each of these was
    saved before.  No assumption is made on transactions that fail, on goroutines
    that hold what was cleared, or on the database being reset. *)

From S2P Require Import Prelude.
From S2P Require Import GoText.
From S2P Require Import Bytes.
From S2P Require Import NetIP.
From S2P Require Import Libs.
From S2P Require Import FakeIP.
From S2P Require Import Bolt.
From S2P Require Import CacheFile.
From S2P Require Import CacheFileTheorems.
From S2P Require Import CacheFileDNS.
From S2P Require Import DNSClient.
Local Open Scope string_scope.
Local Open Scope list_scope.
Local Open Scope Z_scope.

Section store.
Context `{L : Libs} `{B : Bbolt} (reopen : bool).

(** The file and the goroutines that write to it. *)
Record fileStore := mkFileStore { fs_file : CacheFile; fs_flushers : list flusher }.
Definition set_file (s : fileStore) (c : CacheFile) : fileStore := mkFileStore c (fs_flushers s).

Definition file_LoadDNSCache (n q : string) (t : Z) (s : fileStore) : option (list Z * Z) * fileStore :=
  let '(loaded, c) := LoadDNSCache reopen n q t (fs_file s) in (loaded, set_file s c).
Definition SaveDNSCacheAsync (n q : string) (t : Z) (raw : list Z) (expireAt : Z) (s : fileStore) : fileStore :=
  let k := mkCacheKey n q t in
  let '(startFlush, c) := queueDNSCacheSave k raw expireAt (fs_file s) in
  mkFileStore c (if startFlush then FlushRead k :: fs_flushers s else fs_flushers s).
Definition file_ClearDNSCache (s : fileStore) : option GoError * fileStore :=
  let '(err, c) := ClearDNSCache reopen (fs_file s) in (err, set_file s c).
Definition file_LoadRDRC (now : Z) (n q : string) (t : Z) (s : fileStore) : bool * fileStore :=
  let '(rejected, c) := LoadRDRC reopen now n q t (fs_file s) in (rejected, set_file s c).
Definition file_SaveRDRCAsync (n q : string) (t : Z) (s : fileStore) : fileStore :=
  set_file s (SaveRDRCAsync n q t (fs_file s)).

(** A goroutine of the DNS cache runs to its next point, or one of the rejected
    responses ends. *)
Inductive fileStep : fileStore -> fileStore -> Prop :=
  | FFlush before f after c :
      fileStep (mkFileStore c (before ++ f :: after))
        (let '(f', c') := flushPendingDNSCacheWith reopen f c in mkFileStore c' (before ++ optList f' ++ after))
  | FRDRC now n q t s : fileStep s (set_file s (SaveRDRCAsync_finish reopen now n q t (fs_file s))).

(** ** What the store holds *)

(** The key as it is on disk: the type is a [uint16]. *)
Definition diskKey (k : saveCacheKey) : saveCacheKey := mkCacheKey (TransportName k) (QuestionName k) (QType k mod 2 ^ 16).
Definition heldBy (k : saveCacheKey) (raw : list Z) (e : Z) (f : flusher) : Prop :=
  match f with FlushSave k' entry => k' = k /\ dc_rawMessage entry = raw /\ dc_expireAt entry = e | _ => False end.
Definition holds (s : fileStore) (k : saveCacheKey) (raw : list Z) (e : Z) : Prop :=
  (exists entry, cf_saveDNSCache (fs_file s) !! k = Some entry /\ dc_rawMessage entry = raw /\ dc_expireAt entry = e)
  \/ Exists (heldBy k raw e) (fs_flushers s)
  \/ exists content, onDisk (fs_file s) k = Some content /\ (8 <= length content)%nat /\ raw = drop 8 content /\ e = getTime content.
Definition file_has (s : fileStore) (k : saveCacheKey) (raw : list Z) (e : Z) : Prop :=
  keyOk k /\ exists k0, diskKey k0 = k /\ holds s k0 raw e.

Lemma diskKey_ok k : keyOk k -> diskKey k = k.
Proof. intros H. destruct k as [n q t]. unfold diskKey, keyOk in *. cbn in *. by rewrite Z.mod_small. Qed.
Lemma diskKey_eq c k k' : dnsPath c k = dnsPath c k' -> dnsKey k = dnsKey k' -> diskKey k = diskKey k'.
Proof.
  intros Hp Hd. apply app_inj_tail in Hp as [_ Hp]. apply string_bytes_inj in Hp. unfold dnsKey, questionKey in Hd.
  apply app_inj_1 in Hd as [Ht Hq]; [|by rewrite !be_bytes_length]. apply string_bytes_inj in Hq. apply (f_equal be_value) in Ht.
  rewrite !be_value_bytes_small in Ht by (apply Z.mod_pos_bound; lia). unfold diskKey. congruence.
Qed.

(** ** Transactions *)

Lemma onDisk_reset c k : onDisk (resetDB reopen c) k = None.
Proof.
  unfold onDisk, resetDB. cbn. destruct reopen; [|done]. apply bolt_get_nobucket, bolt_empty_bucket.
Qed.
Lemma batch_cases {A} (fn : Tx A) c r c' : batch reopen fn c = (r, c') ->
  c' = c \/ c' = resetDB reopen c \/ exists db a db', cf_db c = Some db /\ fn db = Ok (a, db') /\ c' = set_db c (Some db').
Proof.
  unfold batch. destruct (cf_db c) as [db|]; [|intros [= <- <-]; by left].
  destruct (fn db) as [[a db']|[]] eqn:E; intros [= <- <-]; auto. right. right. by exists db, a, db'.
Qed.
Lemma view_cases {A} (fn : BoltDB -> result A) c r c' : view reopen fn c = (r, c') -> c' = c \/ c' = resetDB reopen c.
Proof.
  unfold view. destruct (cf_db c) as [db|]; [|intros [= <- <-]; by left]. destruct (fn db) as [a|[]]; intros [= <- <-]; auto.
Qed.

(** A transaction that leaves pending entries alone and adds nothing on disk. *)
Definition lessFile (c c' : CacheFile) : Prop :=
  (forall k entry, cf_saveDNSCache c' !! k = Some entry -> cf_saveDNSCache c !! k = Some entry)
  /\ forall k content, onDisk c' k = Some content -> onDisk c k = Some content.
#[local] Instance lessFile_preorder : PreOrder lessFile.
Proof. split; [done|]. intros c1 c2 c3 [H1 H2] [H3 H4]. split; auto. Qed.
Lemma lessFile_reset c : lessFile c (resetDB reopen c).
Proof. split; [done|]. intros k content. by rewrite onDisk_reset. Qed.
Lemma lessFile_db c db db' : cf_db c = Some db ->
  (forall k content, bolt_get db' (dnsPath c k) (dnsKey k) = Some content -> bolt_get db (dnsPath c k) (dnsKey k) = Some content) ->
  lessFile c (set_db c (Some db')).
Proof. intros E H. split; [done|]. intros k content. unfold onDisk. rewrite E. exact (H k content). Qed.
Lemma batch_less {A} (fn : Tx A) c r c' :
  (forall db a db', cf_db c = Some db -> fn db = Ok (a, db') ->
    forall k content, bolt_get db' (dnsPath c k) (dnsKey k) = Some content -> bolt_get db (dnsPath c k) (dnsKey k) = Some content) ->
  batch reopen fn c = (r, c') -> lessFile c c'.
Proof.
  intros H [-> | [-> | (db & a & db' & E & Ef & ->)]]%batch_cases; [done|apply lessFile_reset|]. eapply lessFile_db; eauto.
Qed.
Lemma view_less {A} (fn : BoltDB -> result A) c r c' : view reopen fn c = (r, c') -> lessFile c c'.
Proof. intros [-> | ->]%view_cases; [done|apply lessFile_reset]. Qed.

Lemma has_less s c' k raw e : lessFile (fs_file s) c' -> file_has (set_file s c') k raw e -> file_has s k raw e.
Proof.
  intros [H1 H2] (Hk & k0 & E & H). split; [done|]. exists k0. split; [done|].
  destruct H as [(entry & He & H)|[H|(content & Hd & H)]]; [left; exists entry; auto|by right; left|right; right; exists content; auto].
Qed.

(** ** The operations *)

Lemma load_less n q t c : lessFile c (snd (LoadDNSCache reopen n q t c)).
Proof.
  unfold LoadDNSCache. destruct (cf_saveDNSCache c !! _); [done|]. destruct (view reopen _ c) as [r c'] eqn:E. by apply view_less in E.
Qed.
Lemma load_has n q t s raw e : 0 <= t < 2 ^ 16 -> fst (file_LoadDNSCache n q t s) = Some (raw, e) -> file_has s (mkCacheKey n q t) raw e.
Proof.
  intros Ht. unfold file_LoadDNSCache, LoadDNSCache. set (k := mkCacheKey n q t). intros H.
  assert (Hk : keyOk k) by exact Ht. split; [done|]. exists k. split; [by apply diskKey_ok|].
  destruct (cf_saveDNSCache (fs_file s) !! k) as [entry|] eqn:Ep.
  { injection H as <- <-. left. by exists entry. }
  right. right. unfold view in H. destruct (cf_db (fs_file s)) as [db|] eqn:Edb; [|done].
  unfold transportBucket in H. destruct (cf_bucket _ db bucketDNSCache) as [b|] eqn:Eb; [|done].
  destruct (bolt_bucket db _); [|done]. apply cf_bucket_path in Eb as ->.
  destruct (length _ <? 8)%nat eqn:El; [done|]. apply Nat.ltb_ge in El.
  destruct (bolt_get db _ _) as [content|] eqn:Eg; [|cbn in El; lia]. cbn [default] in El. unfold id in El.
  exists content. split; [unfold onDisk; by rewrite Edb|]. injection H as <- <-. done.
Qed.

Lemma clear_less c : lessFile c (snd (ClearDNSCache reopen c)).
Proof.
  unfold ClearDNSCache, ClearDNSCache_bucket. destruct (batch reopen _ _) as [r c'] eqn:E. cbn [snd].
  transitivity (ClearDNSCache_pending c); [split; [done|]; intros k content; unfold ClearDNSCache_pending; by rewrite onDisk_pending|].
  eapply batch_less; [|exact E]. intros db a db' Edb. unfold deleteCacheBucket. destruct (cf_bucket _ _ _); [|by intros [= <- <-]].
  intros H. inv_bind. subst. intros k content. rewrite (bolt_deleteBucket_get _ _ _ _ _ Hr). by destruct (above _ _).
Qed.
Lemma loadRDRC_less now n q t c : lessFile c (snd (LoadRDRC reopen now n q t c)).
Proof.
  unfold LoadRDRC. destruct (cf_saveRDRC c !! _); [done|]. destruct (view reopen _ c) as [r c'] eqn:E. apply view_less in E.
  destruct r as [[rejected deleteCache]|]; [|done]. destruct deleteCache; [|done]. etransitivity; [exact E|]. cbn [snd]. unfold update.
  destruct (batch reopen _ c') as [r c''] eqn:E'. cbn [snd]. eapply batch_less; [|exact E']. intros db a db' Edb.
  cbn beta. destruct (transportBucket c' db bucketRDRC n); [|by intros [= <- <-]]. intros H. inv_bind. subst. intros k content.
  rewrite (bolt_delete_get _ _ _ _ _ _ Hr). by destruct (decide _).
Qed.
Lemma rdrcPath_ne c k n : dnsPath c k <> bucketPath c bucketRDRC ++ [string_bytes n].
Proof.
  unfold dnsPath. intros [H _]%app_inj_tail. unfold bucketPath in H. destruct (cf_cacheID c); by injection H.
Qed.
Lemma finishRDRC_less now n q t c : lessFile c (SaveRDRCAsync_finish reopen now n q t c).
Proof.
  unfold SaveRDRCAsync_finish, SaveRDRC. destruct (batch reopen _ c) as [r c'] eqn:E. cbn [snd].
  transitivity c'; [|done]. eapply batch_less; [|exact E]. intros db a db' Edb H. apply result_bind_Ok in H as ([b db1] & H1 & H).
  inv_bind. subst. destruct (createBucket_spec _ _ _ _ _ H1) as (-> & Hg & _). intros k content.
  rewrite (bolt_put_get _ _ _ _ _ _ _ Hr0), decide_False by (intros [Hp _]; by apply rdrcPath_ne in Hp).
  by rewrite (bolt_create_get _ _ _ _ _ Hr), Hg.
Qed.

Lemma save_has n q t raw e s k raw' e' : 0 <= t < 2 ^ 16 ->
  file_has (SaveDNSCacheAsync n q t raw e s) k raw' e' -> (k = mkCacheKey n q t /\ raw' = raw /\ e' = e) \/ file_has s k raw' e'.
Proof.
  intros Ht (Hk & k0 & E & H). unfold SaveDNSCacheAsync, queueDNSCacheSave in H. set (k1 := mkCacheKey n q t) in *.
  destruct H as [(entry & He & Hr & Hx)|[H|(content & Hd & H)]]; cbn [fs_file fs_flushers] in *.
  - cbn [cf_saveDNSCache set_saveDNSCache] in He. destruct (decide (k0 = k1)) as [->|Hne].
    + rewrite lookup_insert_eq in He. injection He as <-. left. cbn in Hr, Hx. split_and!; [|done..]. rewrite <- E. by apply diskKey_ok.
    + rewrite lookup_insert_ne in He by done. right. split; [done|]. exists k0. split; [done|]. left. by exists entry.
  - right. split; [done|]. exists k0. split; [done|]. right. left. destruct (negb _); [|done]. apply Exists_cons in H as [[]|H]. done.
  - right. split; [done|]. exists k0. split; [done|]. right. right. exists content. by rewrite onDisk_pending in Hd.
Qed.

(** A goroutine moves what it holds to disk, where the expiry is kept in seconds. *)
Lemma save_disk k0 raw0 e0 c c' err k content :
  SaveDNSCache reopen (TransportName k0) (QuestionName k0) (QType k0) raw0 e0 c = (err, c') -> onDisk c' k = Some content ->
  onDisk c k = Some content \/ (diskKey k = diskKey k0 /\ content = record raw0 e0).
Proof.
  unfold SaveDNSCache. destruct (batch reopen _ c) as [r c1] eqn:E. intros [= <- <-].
  apply batch_cases in E as [-> | [-> | (db & a & db' & Edb & Hf & ->)]]; [by left|by rewrite onDisk_reset|].
  apply result_bind_Ok in Hf as ([b db1] & H1 & Hf). inv_bind. subst. destruct (createBucket_spec _ _ _ _ _ H1) as (-> & Hg & _).
  unfold onDisk. cbn [cf_db set_db]. change (dnsPath (set_db c (Some db')) k) with (dnsPath c k).
  rewrite (bolt_put_get _ _ _ _ _ _ _ Hr0). case_decide as Hd; [|rewrite (bolt_create_get _ _ _ _ _ Hr), Hg, Edb; by left].
  intros [= <-]. right. split; [|done]. destruct Hd. by apply (diskKey_eq c).
Qed.
Lemma record_parts raw e : (8 <= length (record raw e))%nat /\ drop 8 (record raw e) = raw /\ getTime (record raw e) = getTime (putTime e).
Proof.
  unfold record. rewrite length_app, putTime_length. split; [lia|]. split; [by rewrite drop_app_length' by by rewrite putTime_length|].
  unfold getTime. rewrite take_app_length' by by rewrite putTime_length. by rewrite take_ge by by rewrite putTime_length.
Qed.

Lemma flush_has before f after c k raw e :
  file_has (let '(f', c') := flushPendingDNSCacheWith reopen f c in mkFileStore c' (before ++ optList f' ++ after)) k raw e ->
  exists e0, file_has (mkFileStore c (before ++ f :: after)) k raw e0 /\ (e = e0 \/ e = getTime (putTime e0)).
Proof.
  assert (Hkeep : forall c' fs', lessFile c c' -> (forall k0, Exists (heldBy k0 raw e) fs' ->
      Exists (heldBy k0 raw e) (before ++ f :: after) \/ exists entry, cf_saveDNSCache c !! k0 = Some entry /\ dc_rawMessage entry = raw /\ dc_expireAt entry = e) ->
    file_has (mkFileStore c' fs') k raw e -> exists e0, file_has (mkFileStore c (before ++ f :: after)) k raw e0 /\ (e = e0 \/ e = getTime (putTime e0))).
  { intros c' fs' [H1 H2] Hfs (Hk & k0 & E & H). exists e. split; [|by left]. split; [done|]. exists k0. split; [done|]. unfold holds in *. cbn [fs_file fs_flushers] in *.
    destruct H as [(entry & He & H)|[H|(content & Hd & H)]]; [left; exists entry; auto| |right; right; exists content; auto].
    destruct (Hfs _ H) as [?|?]; [by right; left|by left]. }
  assert (Hdrop : forall k0 fs', Exists (heldBy k0 raw e) (before ++ fs' ++ after) -> (Exists (heldBy k0 raw e) fs' -> Exists (heldBy k0 raw e) [f] \/ exists entry, cf_saveDNSCache c !! k0 = Some entry /\ dc_rawMessage entry = raw /\ dc_expireAt entry = e) ->
    Exists (heldBy k0 raw e) (before ++ f :: after) \/ exists entry, cf_saveDNSCache c !! k0 = Some entry /\ dc_rawMessage entry = raw /\ dc_expireAt entry = e).
  { intros k0 fs' Hx Hf. rewrite !Exists_app in Hx. rewrite Exists_app, Exists_cons.
    destruct Hx as [H|[H|H]]; [by left; left| |by left; right; right]. destruct (Hf H) as [Hx|?]; [|by right].
    apply Exists_cons in Hx as [?|Hx]; [by left; right; left|]. by apply Exists_nil in Hx. }
  destruct f as [k1|k1 entry1|k1 entry1]; cbn [flushPendingDNSCacheWith].
  - destruct (cf_saveDNSCache c !! k1) as [entry|] eqn:Ep; cbn [optList]; (apply Hkeep; [done|]); intros k0 H; (eapply Hdrop; [exact H|]); [|by intros ?%Exists_nil].
    intros [(-> & Hr & Hx)|?%Exists_nil]%Exists_cons; [|done]. right. by exists entry.
  - destruct (SaveDNSCache _ _ _ _ _ _ c) as [err c'] eqn:Es. cbn [optList]. intros (Hk & k0 & E & H).
    assert (Epend : cf_saveDNSCache c' = cf_saveDNSCache c).
    { revert Es. unfold SaveDNSCache. destruct (batch reopen _ c) as [r c2] eqn:Eb. intros [= <- <-].
      by apply batch_cases in Eb as [-> | [-> | (db & a & db' & Edb & Hf & ->)]]. }
    unfold holds in H. cbn [fs_file fs_flushers] in H. rewrite Epend in H.
    destruct H as [H|[H|(content & Hd & Hl & Hr & Hx)]].
    + exists e. split; [|by left]. split; [done|]. exists k0. split; [done|]. by left.
    + exists e. split; [|by left]. split; [done|]. exists k0. split; [done|]. right. left. cbn [fs_flushers].
      rewrite !Exists_app in H. rewrite Exists_app, Exists_cons. destruct H as [H|[H|H]]; [by left| |by right; right].
      by apply Exists_cons in H as [[]|?%Exists_nil].
    + destruct (save_disk _ _ _ _ _ _ _ _ Es Hd) as [Hd'|[Ek ->]].
      * exists e. split; [|by left]. split; [done|]. exists k0. split; [done|]. right. right. by exists content.
      * destruct (record_parts (dc_rawMessage entry1) (dc_expireAt entry1)) as (_ & E2 & E3). exists (dc_expireAt entry1).
        split; [|right; by rewrite Hx]. split; [done|]. exists k1. split; [congruence|]. right. left. cbn [fs_flushers].
        rewrite Exists_app, Exists_cons. right. left. split_and!; congruence.
  - destruct (cf_saveDNSCache c !! k1) as [cur|] eqn:Ep; [destruct (negb _)|]; cbn [optList]; (apply Hkeep; [|intros k0 H; (eapply Hdrop; [exact H|]); cbn; by intros ?%Exists_nil || by intros [[]|?%Exists_nil]%Exists_cons]); try done.
    split; [|intros k2 content; by rewrite onDisk_pending]. intros k2 entry. cbn. intros H. destruct (decide (k2 = k1)) as [->|]; [by rewrite lookup_delete_eq in H|].
    by rewrite lookup_delete_ne in H.
Qed.

#[export] Instance file_CacheStore : CacheStore fileStore.
Proof.
  refine {| store_LoadDNSCache := file_LoadDNSCache; store_SaveDNSCacheAsync := SaveDNSCacheAsync;
    store_ClearDNSCache := file_ClearDNSCache; store_LoadRDRC := file_LoadRDRC; store_SaveRDRCAsync := file_SaveRDRCAsync;
    store_step := fileStep; store_has := file_has |}.
  - exact load_has.
  - intros n q t s k raw e. unfold file_LoadDNSCache. pose proof (load_less n q t (fs_file s)) as H.
    destruct (LoadDNSCache _ _ _ _ _) as [r c]. by apply has_less.
  - exact save_has.
  - intros s k raw e. unfold file_ClearDNSCache. pose proof (clear_less (fs_file s)) as H.
    destruct (ClearDNSCache _ _) as [r c]. by apply has_less.
  - intros now n q t s k raw e. unfold file_LoadRDRC. pose proof (loadRDRC_less now n q t (fs_file s)) as H.
    destruct (LoadRDRC _ _ _ _ _ _) as [r c]. by apply has_less.
  - intros n q t s k raw e. by apply has_less.
  - intros s s' k raw e [before f after c|now n q t s0] H; [by apply flush_has|]. exists e. split; [|by left].
    revert H. apply has_less, finishRDRC_less.
  - intros n q t raw e s. unfold file_LoadDNSCache, SaveDNSCacheAsync, queueDNSCacheSave, LoadDNSCache. cbn. by rewrite lookup_insert_eq.
  - intros now n q t s. unfold file_LoadRDRC, file_SaveRDRCAsync, LoadRDRC, SaveRDRCAsync. cbn. by rewrite lookup_insert_eq.
  - intros now n q t n' q' t' s. unfold file_LoadRDRC, file_LoadDNSCache.
    assert (H : cf_saveRDRC (snd (LoadDNSCache reopen n' q' t' (fs_file (file_SaveRDRCAsync n q t s))))
                = cf_saveRDRC (fs_file (file_SaveRDRCAsync n q t s))).
    { unfold LoadDNSCache. destruct (_ !! _); [done|]. destruct (view _ _ _) as [r c] eqn:Ev. cbn [snd].
      by apply view_cases in Ev as [-> | ->]. }
    destruct (LoadDNSCache _ _ _ _ _) as [r c]. cbn [snd set_file fs_file] in *. unfold LoadRDRC. rewrite H.
    unfold file_SaveRDRCAsync, SaveRDRCAsync. cbn. by rewrite lookup_insert_eq.
Defined.
End store.
