(* ===== verification/DNSClientTheorems.v ===== *)
(** * Lifetimes, client subnets and checks of the DNS client *)

From S2P Require Import Prelude.
From S2P Require Import GoText.
From S2P Require Import Bytes.
From S2P Require Import NetIP.
From S2P Require Import Libs.
From S2P Require Import Metadata.
From S2P Require Import RuleAction.
From S2P Require Import CacheFile.
From S2P Require Import DNSQuery.
From S2P Require Import DNSRouter.
From S2P Require Import DNSMessage.
From S2P Require Import DNSClient.
From S2P Require Import DNSClientLocks.
From S2P Require Import DNSClientCache.
Local Open Scope string_scope.
Local Open Scope list_scope.
Local Open Scope Z_scope.

Section lifetimes.
Context `{L : Libs}.

(** ** Lifetimes *)

(** The lifetimes that count: of the records that are not OPT records, without 0. *)
Definition lifetimes (l : list RR) : list Z :=
  List.filter (fun ttl => negb (ttl =? 0)) (map (fun r => hdr_Ttl (rr_Header r)) (List.filter (fun r => negb (isOPT r)) l)).
(** [n] is the least element of [l], or 0 if there is none. *)
Definition least (l : list Z) (n : Z) : Prop :=
  match l with [] => n = 0 | _ => n ∈ l /\ forall x, x ∈ l -> n <= x end.
Definition ttlOk (r : RR) : Prop := 0 <= hdr_Ttl (rr_Header r).

Lemma lifetimes_cons r l : lifetimes (r :: l) =
  if isOPT r || (hdr_Ttl (rr_Header r) =? 0) then lifetimes l else hdr_Ttl (rr_Header r) :: lifetimes l.
Proof. unfold lifetimes. cbn [List.filter]. destruct (isOPT r); [done|]. cbn. by destruct (_ =? 0). Qed.
Lemma lifetimes_pos l x : Forall ttlOk l -> x ∈ lifetimes l -> 0 < x.
Proof.
  intros H. induction H as [|r l Hr _ IH]; [by intros ?%not_elem_of_nil|]. rewrite lifetimes_cons. unfold ttlOk in Hr.
  destruct (isOPT r); [done|]. cbn [orb]. destruct (Z.eqb_spec (hdr_Ttl (rr_Header r)) 0); [done|]. intros [->|?]%list.elem_of_cons; [lia|auto].
Qed.

Lemma timeToLiveLoop_least l ttl : Forall ttlOk l -> 0 <= ttl ->
  least ((if ttl =? 0 then [] else [ttl]) ++ lifetimes l) (timeToLiveLoop l ttl).
Proof.
  intros H. revert ttl. induction H as [|r l Hr Hl IH]; intros ttl Ht; cbn [timeToLiveLoop].
  { unfold lifetimes. cbn. destruct (Z.eqb_spec ttl 0); [done|]. cbn. split; [left|]. intros x [->|?%not_elem_of_nil]%list.elem_of_cons; [lia|done]. }
  rewrite lifetimes_cons. unfold ttlOk in Hr. set (t := hdr_Ttl (rr_Header r)) in *. destruct (isOPT r); [by apply IH|]. cbn [orb].
  destruct (Z.eqb_spec ttl 0) as [->|Hn]; cbn [orb app].
  { specialize (IH t ltac:(lia)). by destruct (t =? 0). }
  destruct (Z.ltb_spec 0 t); cbn [andb].
  2: { assert (E : t = 0) by lia. rewrite E. cbn [Z.eqb]. specialize (IH ttl Ht). by rewrite (proj2 (Z.eqb_neq ttl 0) Hn) in IH. }
  rewrite (proj2 (Z.eqb_neq t 0)) by lia.
  assert (Hleast : forall u v n, u <= v -> 0 < u -> least ([u] ++ lifetimes l) n -> least (u :: v :: lifetimes l) n).
  { intros u v n Huv _ [H1 H2]. split; [set_solver|]. intros x [->|[->|?]%list.elem_of_cons]%list.elem_of_cons; [apply H2; set_solver| |apply H2; set_solver].
    specialize (H2 u ltac:(set_solver)). lia. }
  destruct (Z.ltb_spec t ttl).
  - specialize (IH t ltac:(lia)). rewrite (proj2 (Z.eqb_neq t 0)) in IH by lia. specialize (Hleast t ttl _ ltac:(lia) ltac:(lia) IH) as [G1 G2].
    split; [set_solver|]. intros x Hx. apply G2. set_solver.
  - specialize (IH ttl Ht). rewrite (proj2 (Z.eqb_neq ttl 0)) in IH by done. by apply Hleast; [lia..|].
Qed.

Definition lifeOf (m : Msg) (life : Z) : Prop :=
  match msg_Answer m, extractNegativeTTL m with
  | [], Some soa => life = soa
  | _, _ => least (lifetimes (sections m)) life
  end.
Lemma computeTimeToLive_spec m : Forall ttlOk (sections m) -> lifeOf m (computeTimeToLive m).
Proof.
  intros H. unfold lifeOf, computeTimeToLive. pose proof (timeToLiveLoop_least (sections m) 0 H ltac:(lia)) as G. cbn [Z.eqb app] in G.
  destruct (msg_Answer m); [|done]. by destruct (extractNegativeTTL m).
Qed.

(** What is kept of a record: everything but its lifetime. *)
Definition sameRecord (r r' : RR) : Prop :=
  rr_Data r' = rr_Data r /\ hdr_Name (rr_Header r') = hdr_Name (rr_Header r) /\ hdr_Rrtype (rr_Header r') = hdr_Rrtype (rr_Header r)
  /\ hdr_Class (rr_Header r') = hdr_Class (rr_Header r).
Lemma withTtl_spec ttl r : sameRecord r (withTtl ttl r) /\ (isOPT r = true -> withTtl ttl r = r) /\ (isOPT r = false -> hdr_Ttl (rr_Header (withTtl ttl r)) = ttl).
Proof. unfold withTtl. destruct (isOPT r); [by split|]. by repeat split. Qed.
Lemma sections_normalize ttl m : sections (normalizeTTL ttl m) = map (withTtl ttl) (sections m).
Proof. unfold sections, normalizeTTL. cbn. by rewrite !map_app. Qed.

(** The answers as the options leave them: an HTTPS answer loses the hints of the
    address family that the strategy excludes. *)
Definition hinted (q : Question) (options : DNSQueryOptions) (m : Msg) : Msg :=
  if (q_Qtype q =? TypeHTTPS) && ((qo_Strategy options =? DomainStrategyIPv4Only) || (qo_Strategy options =? DomainStrategyIPv6Only))
  then {| m with msg_Answer := map (withoutHints (qo_Strategy options)) (msg_Answer m) |} else m.
Lemma withoutHints_header strategy r : rr_Header (withoutHints strategy r) = rr_Header r.
Proof. unfold withoutHints. by destruct (rr_Data r). Qed.
Lemma lifetimes_hints strategy l : lifetimes (map (withoutHints strategy) l) = lifetimes l.
Proof.
  induction l as [|r l IH]; [done|]. cbn [map]. rewrite !lifetimes_cons, IH. unfold isOPT. by rewrite withoutHints_header.
Qed.
Lemma lifetimes_app l l' : lifetimes (l ++ l') = lifetimes l ++ lifetimes l'.
Proof. unfold lifetimes. by rewrite List.filter_app, map_app, List.filter_app. Qed.
Lemma hinted_life q options m life : lifeOf (hinted q options m) life <-> lifeOf m life.
Proof.
  unfold hinted. destruct (_ && _); [|done]. unfold lifeOf, sections. cbn [msg_Answer msg_Ns msg_Extra].
  change (extractNegativeTTL {| m with msg_Answer := map (withoutHints (qo_Strategy options)) (msg_Answer m) |}) with (extractNegativeTTL m).
  rewrite !lifetimes_app, lifetimes_hints. by destruct (msg_Answer m).
Qed.
Lemma hinted_ttls q options m : Forall ttlOk (sections m) -> Forall ttlOk (sections (hinted q options m)).
Proof.
  unfold hinted. destruct (_ && _); [|done]. unfold sections. cbn [msg_Answer msg_Ns msg_Extra]. rewrite !List.Forall_app, List.Forall_map.
  intros (H1 & H2 & H3). split_and!; try done. eapply List.Forall_impl; [|exact H1]. intros r. unfold ttlOk. by rewrite withoutHints_header.
Qed.

(** C31 Responses get one lifetime: the one the options set, or else the
    smaller of the lifetime and the minimum of the SOA record for a response
    without answers that has one, and otherwise the least lifetime of a record,
    where OPT records and lifetimes of 0 do not count (0 if nothing counts).
    Every record gets this lifetime and keeps everything else, but for the hints
    of the excluded address family in the answers to an HTTPS question; OPT
    records keep theirs. *)
Theorem response_lifetime q m options m' life :
  Forall ttlOk (sections m) -> applyResponseOptions q m options = (m', life) ->
  match qo_RewriteTTL options with Some ttl => life = ttl | None => lifeOf m life end
  /\ Forall2 (fun r r' => sameRecord r r' /\ if isOPT r then r' = r else hdr_Ttl (rr_Header r') = life)
       (sections (hinted q options m)) (sections m')
  /\ msg_Id m' = msg_Id m /\ msg_Rcode m' = msg_Rcode m /\ msg_Question m' = msg_Question m.
Proof.
  intros Ht. unfold applyResponseOptions. fold (hinted q options m). intros [= <- <-]. split_and!.
  - destruct (qo_RewriteTTL options); [done|]. cbn [default]. apply (hinted_life q options). by apply computeTimeToLive_spec, hinted_ttls.
  - rewrite sections_normalize. apply Forall2_fmap_r, Forall_Forall2_diag, List.Forall_forall. intros r _.
    destruct (withTtl_spec (default (computeTimeToLive (hinted q options m)) (qo_RewriteTTL options)) r) as (H1 & H2 & H3).
    split; [done|]. destruct (isOPT r); auto.
  - unfold hinted. by destruct (_ && _).
  - unfold hinted. by destruct (_ && _).
  - unfold hinted. by destruct (_ && _).
Qed.
End lifetimes.

Section subnets.
Context `{L : Libs} `{D : DNSLibs} `{CL : ClientLibs} {Store : Type} `{CS : CacheStore Store}.
Notation Client := (Client (CL := CL) (Store := Store)).

(** ** Client subnets *)

(** A subnet an option can carry: no zone, not an IPv4 address in IPv6 form. *)
Record plainSubnet (p : Prefix) : Prop := {
  ps_addr : Addr.wf (p_Addr p);
  ps_bits : 0 <= p_Bits p <= Addr.BitLen (p_Addr p);
  ps_valid : Addr.IsValid (p_Addr p) = true;
  ps_zone : Addr.hasZone (p_Addr p) = false;
  ps_unmapped : Addr.Unmap (p_Addr p) = p_Addr p }.

Lemma subnetOption_read p scope rest m : plainSubnet p ->
  flat_map subnetOptions (msg_Extra m) = subnetOption p scope :: rest -> clientSubnetFromMessage m = p.
Proof.
  intros [H1 H2 H3 H4 H5] E. unfold clientSubnetFromMessage. rewrite E. unfold subnetOption. destruct p as [a bits]. cbn [p_Addr p_Bits] in *.
  assert (Ea : netip_AddrFromSlice (Addr.AsSlice a) = Some a).
  { unfold netip_AddrFromSlice. destruct a as [|n|n [|]]; try done; cbn [Addr.AsSlice]; rewrite be_bytes_length; cbn [Nat.eqb];
      unfold Addr.AddrFrom4, Addr.AddrFrom16; by rewrite be_value_bytes_small by exact H1. }
  rewrite Ea, H5. assert (bits mod 256 = bits) as -> by (apply Z.mod_small; destruct a; cbn in H2; lia).
  unfold Prefix.PrefixFrom. rewrite H3, bool_decide_true by done. cbn [andb]. by rewrite hasZone_withoutZone.
Qed.

Lemma replaceSubnet_spec p o :
  match replaceSubnet p o with
  | Some o' => exists scope rest, List.filter isSubnet o' = subnetOption p scope :: rest
  | None => List.filter isSubnet o = []
  end.
Proof.
  induction o as [|x o IH]; [done|]. destruct x as [family mask scope address|code data]; cbn [replaceSubnet].
  - exists scope, (List.filter isSubnet o). done.
  - destruct (replaceSubnet p o); cbn; done.
Qed.
Lemma subnetOptions_opt r o : optOf r = Some o -> subnetOptions r = List.filter isSubnet o.
Proof. unfold subnetOptions. by intros ->. Qed.
Lemma subnetOptions_none r : optOf r = None -> subnetOptions r = [].
Proof. unfold subnetOptions. by intros ->. Qed.
Lemma replaceInRecords_spec p l :
  match replaceInRecords p l with
  | Some l' => exists scope rest, flat_map subnetOptions l' = subnetOption p scope :: rest
  | None => flat_map subnetOptions l = []
  end.
Proof.
  induction l as [|r l IH]; [done|]. cbn [replaceInRecords]. destruct (optOf r) as [o|] eqn:Eo.
  - pose proof (replaceSubnet_spec p o) as Hr. destruct (replaceSubnet p o) as [o'|].
    + destruct Hr as (scope & rest & Hr). exists scope, (rest ++ flat_map subnetOptions l). cbn [flat_map].
      by rewrite (subnetOptions_opt _ o'), Hr.
    + destruct (replaceInRecords p l) as [l'|]; cbn [option_map flat_map]; rewrite (subnetOptions_opt r o), Hr by done; done.
  - destruct (replaceInRecords p l) as [l'|]; cbn [option_map flat_map]; by rewrite (subnetOptions_none r).
Qed.

Lemma SetClientSubnet_read m p : plainSubnet p -> clientSubnetFromMessage (SetClientSubnet m p) = p.
Proof.
  intros Hp. unfold SetClientSubnet. pose proof (replaceInRecords_spec p (msg_Extra m)) as H.
  destruct (replaceInRecords p (msg_Extra m)) as [l'|].
  { destruct H as (scope & rest & H). by eapply subnetOption_read. }
  destruct (rev (msg_Extra m)) as [|r before] eqn:Er.
  - by eapply (subnetOption_read p 0 []).
  - assert (El : msg_Extra m = rev before ++ [r]) by (rewrite <- (rev_involutive (msg_Extra m)), Er; done).
    assert (Hfresh : flat_map subnetOptions [mkRR (mkHeader "." TypeOPT 0 0) (RR_OPT [subnetOption p 0])] = [subnetOption p 0]) by done.
    destruct (optOf r) as [o|] eqn:Eo; eapply (subnetOption_read p 0 []); try done; cbn [msg_Extra]; rewrite flat_map_app.
    + rewrite El, flat_map_app in H. apply app_eq_nil in H as [H1 H2]. rewrite H1. cbn [flat_map] in *. rewrite app_nil_r, (subnetOptions_opt r o) in H2 by done.
      rewrite (subnetOptions_opt _ (o ++ [subnetOption p 0])) by done. by rewrite List.filter_app, H2.
    + by rewrite H.
Qed.

Lemma removeClientSubnet_read m : clientSubnetFromMessage (removeClientSubnet m) = Prefix.zero.
Proof.
  assert (H : flat_map subnetOptions (msg_Extra (removeClientSubnet m)) = []).
  { unfold removeClientSubnet. destruct (existsb _ (msg_Extra m)) eqn:E.
    - clear E. cbn [msg_Extra]. induction (msg_Extra m) as [|r l IH]; [done|]. cbn [map flat_map]. rewrite IH, app_nil_r.
      destruct (optOf r) as [o|] eqn:Eo; [|by apply subnetOptions_none]. erewrite subnetOptions_opt by done. rewrite common_Filter_spec.
      clear. induction o as [|x o IH]; [done|]. cbn [List.filter]. destruct x as [family mask scope address|code data]; cbn [EDNS0_Option]; [done|].
      by destruct (negb (code =? EDNS0SUBNET)).
    - induction (msg_Extra m) as [|r l IH]; [done|]. cbn [existsb flat_map] in *. apply orb_false_iff in E as [E1 E2]. rewrite IH, app_nil_r by done.
      destruct (optOf r) as [o|] eqn:Eo; [|by apply subnetOptions_none]. rewrite (subnetOptions_opt r o) by done. clear -E1.
      induction o as [|x o IH]; [done|]. cbn [existsb List.filter] in *. apply orb_false_iff in E1 as [E1 E2]. destruct x; [done|]. by apply IH. }
  unfold clientSubnetFromMessage. by rewrite H.
Qed.

(** C30 The subnet of a cache key is the subnet the server is told.  Whatever
    options and OPT records a query has, the message that is sent carries the
    subnet of the key it is cached under: the subnet of the query's options, else
    of the client, else the one the message has; and none when it is to be
    removed. *)
Theorem cache_key_subnet w (c : Client) t q m options :
  (Prefix.IsValid (configuredSubnet c options) = true -> plainSubnet (configuredSubnet c options)) ->
  let sent := prepareExchangeMessage c m options in
  let key := newCacheKey w c t q sent options in
  clientSubnetFromMessage sent = k_clientSubnet key
  /\ (qo_RemoveClientSubnet options = true -> k_clientSubnet key = Prefix.zero)
  /\ (qo_RemoveClientSubnet options = false -> k_clientSubnet key =
        if Prefix.IsValid (configuredSubnet c options) then configuredSubnet c options else clientSubnetFromMessage m).
Proof.
  intros Hp. unfold prepareExchangeMessage, newCacheKey. cbn [k_clientSubnet]. destruct (qo_RemoveClientSubnet options).
  - split; [apply removeClientSubnet_read|done].
  - destruct (Prefix.IsValid (configuredSubnet c options)) eqn:Ev; [|done]. split; [by apply SetClientSubnet_read, Hp|done].
Qed.
End subnets.

Section checks.
Context `{L : Libs} `{D : DNSLibs} `{CL : ClientLibs} {Store : Type} `{CS : CacheStore Store}.
Notation Client := (Client (CL := CL) (Store := Store)).

(** ** Checks of responses *)

(** A response stored a moment ago is found until it expires. *)
Lemma stored_loaded w w2 key m life (c : Client) cache :
  c_dnsCache c = false -> c_disableExpire c = false -> w_now w2 <= w_now w + nanoseconds * life - Millisecond ->
  c_cache c = Some (lru_AddWithLifetime (w_now w) key m (nanoseconds * life) cache) ->
  exists ttl c', loadResponse w2 key c = (Some (normalizeTTL (ttl mod 2 ^ 32) m, ttl, false), c') /\ c_closed c' = c_closed c.
Proof.
  intros H1 H2 H5 H3. pose proof (loadResponse_same w2 key c) as (_ & _ & K & _).
  destruct (lru_added (w_now w) key m (nanoseconds * life) cache) as (e & E & He).
  destruct (loadResponse w2 key c) as [r c'] eqn:El. cbn [snd] in K.
  revert El. unfold loadResponse. rewrite H1, H3, H2.
  destruct (lru_GetWithLifetimeNoExpire _ _) as [l cache']. cbn [fst] in E. subst l. unfold loadedResponse.
  rewrite (proj2 (Z.ltb_ge e (w_now w2))) by lia. intros [= <- <-]. by eexists _, _.
Qed.

Lemma prepareExchangeMessage_Id (c : Client) m options : msg_Id (prepareExchangeMessage c m options) = msg_Id m.
Proof.
  unfold prepareExchangeMessage. destruct (qo_RemoveClientSubnet options); [unfold removeClientSubnet; by destruct (existsb _ _)|].
  destruct (Prefix.IsValid _); [|done]. unfold SetClientSubnet. destruct (replaceInRecords _ _); [done|]. destruct (rev _) as [|r l]; [done|]. by destruct (optOf r).
Qed.

(** The exchange is the only one under way. *)
Definition alone (o : exchangeOperation) (c : Client) : Prop :=
  c_cacheLock c = match o_releaseCond o with Some (k, cond) => {[k := cond]} | None => ∅ end
  /\ (forall cond, cond ∈ c_closed c -> (cond < c_channels c)%nat)
  /\ forall k cond, o_releaseCond o = Some (k, cond) -> cond ∉ c_closed c /\ (cond < c_channels c)%nat.
Lemma release_alone o (c c' : Client) : alone o c -> sameLocks c c' ->
  exists c1, release o c' = Ok c1 /\ c_cacheLock c1 = ∅ /\ (forall cond, cond ∈ c_closed c1 -> (cond < c_channels c1)%nat)
  /\ c1 = {| c' with c_cacheLock := c_cacheLock c1; c_closed := c_closed c1 |}.
Proof.
  intros (H1 & H2 & H3) (E1 & E2 & E3 & _). unfold release. destruct (o_releaseCond o) as [[k cond]|].
  - destruct (H3 k cond eq_refl) as [Hn Hc]. rewrite E3, bool_decide_false by done. eexists. split; [done|]. cbn [c_cacheLock c_closed c_channels].
    rewrite E1, H1, delete_singleton_eq. split_and!; [done| |by destruct c'].
    intros x [->%elem_of_singleton|Hx]%elem_of_union; rewrite E2; auto.
  - exists c'. split_and!; [done|by rewrite E1, H1|by rewrite E3, E2|by destruct c'].
Qed.
Lemma loadResponse_unlocked w key (c : Client) lock channels :
  fst (loadResponse w key {| c with c_cacheLock := lock; c_channels := channels |}) = fst (loadResponse w key c).
Proof.
  unfold loadResponse, loadPersistentResponse. cbn. destruct (c_dnsCache c).
  - destruct (store_LoadDNSCache _ _ _ _) as [[[raw e]|] s]; [|done]. destruct (dns_Unpack raw); [|done]. by destruct (c_disableExpire c).
  - destruct (c_cache c); [|done]. destruct (c_disableExpire c); [by destruct (lru_Get _ _ _)|].
    destruct (lru_GetWithLifetimeNoExpire _ _) as [[[m e]|] cache']; [|done].
    unfold loadedResponse. cbn. by repeat case_match.
Qed.
Lemma loadResponse_rdrc w key (c : Client) : c_rdrc (snd (loadResponse w key c)) = c_rdrc c.
Proof.
  unfold loadResponse, loadPersistentResponse. destruct (c_dnsCache c).
  - destruct (store_LoadDNSCache _ _ _ _) as [[[raw e]|] s]; [|done]. destruct (dns_Unpack raw); [|done]. cbn. by destruct (c_disableExpire c).
  - destruct (c_cache c) as [cache|]; [|done]. destruct (c_disableExpire c); [by destruct (lru_Get _ _ _)|].
    destruct (lru_GetWithLifetimeNoExpire _ _) as [[[m e]|] cache']; [|done]. by destruct (loadedResponse _ _ _ _).
Qed.
(** A rejection that was just saved is still there after the cache was asked. *)
Lemma loadRDRC_saved w w2 key (c : Client) t q s0 : c_cacheStore c = store_SaveRDRCAsync (tr_Tag t) (q_Name q) (q_Qtype q) s0 ->
  fst (loadRDRC w t q (snd (loadResponse w2 key c))) = true.
Proof.
  intros Hs. assert (H : fst (store_LoadRDRC (w_now w) (tr_Tag t) (q_Name q) (q_Qtype q) (c_cacheStore (snd (loadResponse w2 key c)))) = true).
  { unfold loadResponse, loadPersistentResponse. rewrite Hs. destruct (c_dnsCache c).
    - pose proof (store_rejected_loaded (w_now w) (tr_Tag t) (q_Name q) (q_Qtype q) (persistentName key) (q_Name (k_Question key))
        (q_Qtype (k_Question key)) s0) as H. destruct (store_LoadDNSCache _ _ _ _) as [[[raw e]|] s]; [|done]. cbn [snd] in H.
      destruct (dns_Unpack raw); [|done]. by destruct (c_disableExpire _).
    - assert (Hc : forall cache, c_cacheStore (set_cache cache c) = c_cacheStore c) by done.
      destruct (c_cache c); [|cbn [snd]; rewrite Hs; apply store_rejected].
      destruct (c_disableExpire c); [destruct (lru_Get _ _ _)|destruct (lru_GetWithLifetimeNoExpire _ _) as [[[m e]|] cache'];
        [destruct (loadedResponse w2 c m e)|]]; cbn [snd]; rewrite Hc, Hs; apply store_rejected. }
  unfold loadRDRC. by destruct (store_LoadRDRC _ _ _ _ _).
Qed.

(** A plain request for a question. *)
Record plainRequest (request : Msg) (options : DNSQueryOptions) (q : Question) : Prop := {
  pq_question : msg_Question request = [q];
  pq_simple : isSimpleRequest request = Ok true;
  pq_cached : qo_DisableCache options = false;
  pq_strategy : qo_Strategy options = DomainStrategyAsIS }.

Lemma beginExchange_refused w2 tag t request options check (c : Client) q s0 :
  plainRequest request options q -> c_disableCache c = false -> c_rdrc c = true -> c_cacheLock c = ∅ ->
  (forall cond, cond ∈ c_closed c -> (cond < c_channels c)%nat) -> tag <> Some (tr_Tag t) ->
  c_cacheStore c = store_SaveRDRCAsync (tr_Tag t) (q_Name q) (q_Qtype q) s0 ->
  fst (loadResponse w2 (newCacheKey w2 c t q (prepareExchangeMessage c request options) options) c) = None ->
  exists c2, beginExchange w2 None tag t request options (Some check) c = Ok (BeginDone None (Some ErrResponseRejectedCached), [], c2).
Proof.
  intros [P1 P2 P3 P4] Hd Hr Hlock Hclosed Htag Hs Hload. unfold beginExchange. rewrite P1, P4.
  change (DomainStrategyAsIS =? DomainStrategyIPv6Only) with false. change (DomainStrategyAsIS =? DomainStrategyIPv4Only) with false.
  rewrite !andb_false_r. cbn [orb]. rewrite P2. cbn [result_bind negb orb].
  assert (Hdis : c_disableCache c || qo_DisableCache options = false) by (by rewrite Hd, P3). rewrite Hdis, Hlock, lookup_empty.
  set (key := newCacheKey w2 c t q _ options) in *. 
  set (c1 := {| c with c_cacheLock := <[mkDNSExchangeKey key (qo_Timeout options) := c_channels c]> ∅; c_channels := S (c_channels c) |}).
  unfold beginTurn, answerFromCache. cbn [o_cacheKey o_message o_options o_responseChecker].
  pose proof (loadResponse_unlocked w2 key c (<[mkDNSExchangeKey key (qo_Timeout options) := c_channels c]> ∅) (S (c_channels c))) as Hl.
  fold c1 in Hl. rewrite Hload in Hl. pose proof (loadRDRC_saved w2 w2 key c1 t q s0 Hs) as Hrej.
  pose proof (loadResponse_same w2 key c1) as (L1 & L2 & L3 & _). assert (Hr1 : c_rdrc (snd (loadResponse w2 key c1)) = true).
  { rewrite loadResponse_rdrc. done. }
  match goal with |- context [loadResponse w2 ?k ?c'] => change (loadResponse w2 k c') with (loadResponse w2 key c1) end.
  destruct (loadResponse w2 key c1) as [r c2]. cbn [fst snd] in *. subst r. unfold beginReady. rewrite bool_decide_false by done.
  cbn [o_disableCache o_responseChecker o_question]. rewrite Hr1. cbn [negb andb]. pose proof (loadRDRC_same w2 t q c2) as (M1 & M2 & M3 & _).
  destruct (loadRDRC w2 t q c2) as [rej c3]. cbn [fst snd] in *. subst rej. unfold release. cbn [o_releaseCond].
  rewrite M3, L3, bool_decide_false by (intros ?%Hclosed; lia). by eexists.
Qed.

Lemma withTimeout_key w (c c0 : Client) t q request options :
  newCacheKey w c t q (prepareExchangeMessage c request (withTimeout c0 options)) (withTimeout c0 options)
  = newCacheKey w c t q (prepareExchangeMessage c request options) options.
Proof. unfold withTimeout. by destruct (qo_Timeout options =? 0). Qed.

Lemma rejected_then_refused w w2 t (c : Client) o m : c_disableCache c = false -> c_rdrc c = true -> alone o c ->
  o_disableCache o = false -> cacheableRcode (stripDNSPadding m) = true -> isRejected (o_responseChecker o) (stripDNSPadding m) = true ->
  exists c1, Exchange_finish w t o (Ok m) c = Ok ([(Some (stripDNSPadding m), Some ErrResponseRejected)], c1)
  /\ c_cache c1 = c_cache c
  /\ (forall k raw e, store_has (c_cacheStore c1) k raw e -> store_has (c_cacheStore c) k raw e)
  /\ forall request options tag check, plainRequest request options (o_question o) -> tag <> Some (tr_Tag t) ->
     fst (loadResponse w2 (newCacheKey w2 c1 t (o_question o) (prepareExchangeMessage c1 request options) options) c1) = None ->
     exists c2, Exchange_begin w2 None tag t request options (Some check) c1 = Ok ([(None, Some ErrResponseRejectedCached)], [], c2).
Proof.
  intros Hd Hr Ha H1 H2 H3. unfold Exchange_finish, exchangeToTransport, finishExchange. rewrite H3, H1, H2, Hr. cbn [orb negb andb].
  destruct (release_alone o c (saveRDRC t (o_question o) c) Ha ltac:(done)) as (c1 & -> & Hlock & Hclosed & Ec1). cbn [result_bind].
  pose proof (f_equal c_cache Ec1) as F1. pose proof (f_equal c_cacheStore Ec1) as F2. pose proof (f_equal c_disableCache Ec1) as F3.
  pose proof (f_equal c_rdrc Ec1) as F4. clear Ec1. cbn in F1, F2, F3, F4.
  exists c1. split_and!; [done|done|rewrite F2; intros k raw e; apply store_SaveRDRC_keeps|].
  intros request options tag check [P1 P2 P3 P4] Htag Hload. unfold Exchange_begin.
  destruct (beginExchange_refused w2 tag t request (withTimeout c1 options) check c1 (o_question o) (c_cacheStore c)) as [c2 ->];
    [split; [done|done|unfold withTimeout; by destruct (_ =? 0)..]|congruence|congruence|done|done|done|done|by rewrite withTimeout_key|].
  by exists c2.
Qed.

End checks.

(** ** Keys of the store *)

Section keys.
Context `{L : Libs}.

Fixpoint noChar (c : Ascii.ascii) (s : string) : bool :=
  match s with EmptyString => true | String d s => negb (Ascii.eqb c d) && noChar c s end.

(** Strings without a byte are told apart from what follows the byte. *)
Lemma split_at_byte c s1 s2 t1 t2 : noChar c s1 = true -> noChar c s2 = true ->
  (s1 ++ String c t1)%string = (s2 ++ String c t2)%string -> s1 = s2 /\ t1 = t2.
Proof.
  revert s2. induction s1 as [|d s1 IH]; intros [|d2 s2]; cbn [noChar String.append]; intros H1 H2.
  - by intros [= ->].
  - intros [= <- _]. by rewrite Ascii.eqb_refl in H2.
  - intros [= -> _]. by rewrite Ascii.eqb_refl in H1.
  - intros [= -> E]. apply andb_true_iff in H1 as [_ H1], H2 as [_ H2]. by destruct (IH s2 H1 H2 E) as [-> ->].
Qed.
Lemma no_byte c s t u : noChar c s = true -> s <> (t ++ String c u)%string.
Proof.
  revert s. induction t as [|d t IH]; intros [|d2 s]; cbn [noChar String.append]; try done; intros [H1 H2]%andb_true_iff [= -> E].
  - by rewrite Ascii.eqb_refl in H1.
  - by apply (IH s).
Qed.
Lemma noChar_app c s t : noChar c (s ++ t) = noChar c s && noChar c t.
Proof.
  induction s as [|d s IH]; [done|]. change (noChar c (String d s ++ t)) with (negb (Ascii.eqb c d) && noChar c (s ++ t)).
  rewrite IH. apply andb_assoc.
Qed.

(** The digits of [FormatUint36] read back. *)
Definition value36 (c : Ascii.ascii) : Z := let n := Z.of_N (Ascii.N_of_ascii c) in if n <? 58 then n - 48 else n - 87.
Fixpoint parse36 (n : Z) (s : string) : Z := match s with EmptyString => n | String c s => parse36 (n * 36 + value36 c) s end.
Lemma value_digit36 d : 0 <= d < 36 -> value36 (digit36 d) = d.
Proof.
  intros H. assert (F : forallb (fun d => value36 (digit36 d) =? d) (seqZ 0 36) = true) by by vm_compute.
  rewrite forallb_forall in F. apply Z.eqb_eq, F, list_elem_of_In, elem_of_seqZ. lia.
Qed.
Lemma parse_base36 fuel n acc : 0 <= n < 36 ^ Z.of_nat fuel -> fuel <> O -> parse36 0 (base36 fuel n acc) = parse36 n acc.
Proof.
  revert n acc. induction fuel as [|fuel IH]; intros n acc Hn Hf; [done|]. cbn [base36].
  pose proof (Z.mod_pos_bound n 36 ltac:(lia)). pose proof (Z.div_mod n 36 ltac:(lia)) as Hd. destruct (Z.eqb_spec (n / 36) 0) as [E|E].
  - cbn [parse36]. rewrite value_digit36 by lia. f_equal. lia.
  - destruct fuel as [|fuel]; [exfalso; apply E, Z.div_small; change (36 ^ Z.of_nat 1) with 36 in Hn; lia|].
    rewrite IH; [|split; [apply Z.div_pos; lia|]|done]; [cbn [parse36]; rewrite value_digit36 by lia; f_equal; lia|].
    apply Z.div_lt_upper_bound; [lia|]. rewrite <- Z.pow_succ_r, <- Nat2Z.inj_succ by lia. apply Hn.
Qed.
Lemma FormatUint36_inj n m : 0 <= n < 2 ^ 64 -> 0 <= m < 2 ^ 64 -> FormatUint36 n = FormatUint36 m -> n = m.
Proof.
  intros Hn Hm E. apply (f_equal (parse36 0)) in E. unfold FormatUint36 in E. rewrite !parse_base36 in E; cbn; try lia; done.
Qed.

(** What is relied on of [netip.Prefix.String]: different subnets are printed
    differently, in printable characters. *)
Hypothesis Prefix_String_inj : forall p q, Prefix.IsValid p = true -> Prefix.IsValid q = true -> Prefix_String p = Prefix_String q -> p = q.
Hypothesis Prefix_String_plain : forall p c, (c = Ascii.ascii_of_nat 0 \/ c = Ascii.ascii_of_nat 1) -> Prefix.IsValid p = true -> noChar c (Prefix_String p) = true.

Definition subnetPart (k : dnsCacheKey) : string :=
  if Prefix.IsValid (k_clientSubnet k) then String (Ascii.ascii_of_nat 0) (Prefix_String (k_clientSubnet k)) else "".

(** The store keeps answers of different transports, subnets and networks apart:
    keys with the same place in the store differ at most in the class of the
    question, for tags without the bytes 0 and 1. *)
Theorem store_keys_apart k k' :
  (forall c, c = Ascii.ascii_of_nat 0 \/ c = Ascii.ascii_of_nat 1 -> noChar c (k_transportTag k) = true /\ noChar c (k_transportTag k') = true) ->
  0 <= k_environment k < 2 ^ 64 -> 0 <= k_environment k' < 2 ^ 64 -> storeKey k = storeKey k' ->
  k_transportTag k = k_transportTag k' /\ k_environment k = k_environment k'
  /\ q_Name (k_Question k) = q_Name (k_Question k') /\ q_Qtype (k_Question k) = q_Qtype (k_Question k')
  /\ (k_clientSubnet k = k_clientSubnet k' \/ (Prefix.IsValid (k_clientSubnet k) = false /\ Prefix.IsValid (k_clientSubnet k') = false)).
Proof.
  intros Htag He He' [= Ep En Et]. destruct (Htag (Ascii.ascii_of_nat 0) ltac:(by left)) as [T0 T0'], (Htag (Ascii.ascii_of_nat 1) ltac:(by right)) as [T1 T1'].
  assert (Hname : forall k, persistentName k = (k_transportTag k ++ subnetPart k ++ (if Z.eqb (k_environment k) 0 then "" else String (Ascii.ascii_of_nat 1) (FormatUint36 (k_environment k))))%string).
  { intros k0. unfold persistentName, subnetPart. destruct (Prefix.IsValid _), (Z.eqb (k_environment k0) 0); cbn [negb];
      rewrite ?string_append_nil, ?string_append_assoc; rewrite ?string_append_nil; done. }
  assert (Hs : forall k, noChar (Ascii.ascii_of_nat 1) (subnetPart k) = true).
  { intros k0. unfold subnetPart. destruct (Prefix.IsValid _) eqn:Ev; [|done]. cbn [noChar]. rewrite Prefix_String_plain by auto. done. }
  rewrite !Hname in Ep. assert (Hb : (k_transportTag k ++ subnetPart k)%string = (k_transportTag k' ++ subnetPart k')%string /\ k_environment k = k_environment k').
  { rewrite !string_append_assoc in Ep. assert (N : forall k, noChar (Ascii.ascii_of_nat 1) (k_transportTag k) = true -> noChar (Ascii.ascii_of_nat 1) (k_transportTag k ++ subnetPart k) = true) by (intros k0 H0; by rewrite noChar_app, H0, Hs).
    destruct (Z.eqb_spec (k_environment k) 0) as [E|E], (Z.eqb_spec (k_environment k') 0) as [E'|E']; rewrite ?string_append_nil in Ep.
    - split; [done|congruence].
    - by apply no_byte in Ep; [|apply N].
    - symmetry in Ep. by apply no_byte in Ep; [|apply N].
    - apply split_at_byte in Ep as [-> Ef]; [|by apply N..]. split; [done|]. by apply FormatUint36_inj. }
  destruct Hb as [Hb ->]. unfold subnetPart in Hb. destruct (Prefix.IsValid (k_clientSubnet k)) eqn:Ev, (Prefix.IsValid (k_clientSubnet k')) eqn:Ev'; rewrite ?string_append_nil in Hb.
  - apply split_at_byte in Hb as [-> Ef]; [|done..]. split_and!; try done. left. by apply Prefix_String_inj.
  - symmetry in Hb. by apply no_byte in Hb.
  - by apply no_byte in Hb.
  - split_and!; try done. by right.
Qed.
End keys.
