(* ===== verification/DNSClientExamples.v ===== *)
(** * The DNS client: runs on concrete inputs

    Instances of what the client takes from other packages, a client on a cache
    file, and the theorems applied to runs of it. *)

From S2P Require Import Prelude.
From S2P Require Import GoText.
From S2P Require Import Bytes.
From S2P Require Import NetIP.
From S2P Require Import Libs.
From S2P Require Import Metadata.
From S2P Require Import Bolt.
From S2P Require Import CacheFile.
From S2P Require Import DNSQuery.
From S2P Require Import DNSRouter.
From S2P Require Import DNSMessage.
From S2P Require Import DNSClient.
From S2P Require Import DNSClientLocks.
From S2P Require Import DNSClientCache.
From S2P Require Import DNSClientStore.
From S2P Require Import DNSClientTheorems.
Local Open Scope string_scope.
Local Open Scope list_scope.
Local Open Scope Z_scope.

(** ** Instances *)

Definition ref_SetEdns0 (size : Z) (do' : bool) (m : Msg) : Msg :=
  {| m with msg_Extra := msg_Extra m ++ [mkRR (mkHeader "." TypeOPT size (if do' then 2 ^ 15 else 0)) (RR_OPT [])] |}.
Definition ref_dns : DNSLibs.
Proof.
  refine {| dns_IsEdns0 m := List.find isOPT (msg_Extra m); OPT_Version r := hdr_Ttl (rr_Header r) / 2 ^ 16 mod 256;
    OPT_UDPSize r := hdr_Class (rr_Header r); OPT_Do r := Z.testbit (hdr_Ttl (rr_Header r)) 15; dns_SetEdns0 := ref_SetEdns0;
    dns_IsFqdn s := strings.HasSuffix s "."; dns_Fqdn s := if strings.HasSuffix s "." then s else (s ++ ".")%string |}.
  - intros m r [H1 H2]%List.find_some. split; [by apply list_elem_of_In|]. by apply Z.eqb_eq.
  - intros m H. apply List.Forall_forall. intros r Hr. by apply Z.eqb_neq, (List.find_none _ _ H).
  - intros size do' m. by exists (mkRR (mkHeader "." TypeOPT size (if do' then 2 ^ 15 else 0)) (RR_OPT [])).
Defined.

Notation RefLRU := (gmap dnsCacheKey (Msg * option Z)).
Definition ref_live (now : Z) (e : option Z) : bool := match e with Some e => now <=? e | None => true end.
Definition ref_client : ClientLibs.
Proof.
  refine {| LRU := RefLRU; lru_New _ := ∅; lru_Add k m c := <[k := (m, None)]> c;
    lru_AddWithLifetime now k m life c := <[k := (m, Some (now + life))]> c;
    lru_Get now k c := (match c !! k with Some (m, e) => if ref_live now e then Some m else None | None => None end, c);
    lru_GetWithLifetimeNoExpire k c := (option_map (fun x => (fst x, default 0 (snd x))) (c !! k), c);
    lru_Remove k c := delete k c; lru_Purge _ := ∅;
    dns_Pack m := Some (be_bytes 2 (msg_Id m)); dns_Unpack raw := Some (mkMsg (be_value raw) true false true true 0 [] [] [] []);
    task_Run l := foldr (fun e r => match e with Some _ => e | None => r end) None l;
    lru_has c k m e := c !! k = Some (m, e) |}.
  - intros n k m e. by rewrite lookup_empty.
  - intros k m c k' m' e'. destruct (decide (k' = k)) as [->|]; [rewrite lookup_insert_eq|rewrite lookup_insert_ne by done; auto]. intros [= <- <-]. by left.
  - intros now k m life c k' m' e'. destruct (decide (k' = k)) as [->|]; [rewrite lookup_insert_eq|rewrite lookup_insert_ne by done; auto].
    intros [= <- <-]. left. split_and!; [done..|]. eexists. split; [done|]. unfold Millisecond. lia.
  - intros now k c m. cbn. destruct (c !! k) as [[m' e]|]; [|done]. destruct (ref_live now e); [|done]. intros [= ->]. by exists e.
  - done.
  - intros k c m e. cbn. destruct (c !! k) as [[m' [e'|]]|]; [| |done]; intros [= <- <-]; [by left|by right].
  - done.
  - intros k c k' m e. destruct (decide (k' = k)) as [->|]; [by rewrite lookup_delete_eq|by rewrite lookup_delete_ne].
  - intros c k m e. by rewrite lookup_empty.
  - intros now k m life c. cbn. rewrite lookup_insert_eq. eexists. split; [done|]. cbn. unfold Millisecond. lia.
  - intros l. induction l as [|e l IH]; cbn; [done|]. split.
    + destruct e; [done|]. intros H. constructor; [done|by apply IH].
    + intros H. pose proof (Forall_inv H) as E. cbn beta in E. subst e. by apply IH, (Forall_inv_tail H).
Defined.

Module ClientRuns.
#[local] Existing Instance ref_libs.
#[local] Existing Instance ref_dns.
#[local] Existing Instance ref_client.
#[local] Existing Instance ref_bolt.
#[local] Instance runStore : CacheStore fileStore := file_CacheStore true.

(** A client with a memory cache that keeps rejected responses in the file. *)
Definition exampleClient : Client (CL := ref_client) (Store := fileStore) :=
  Client_Start true true false
    (NewClient (mkClientOptions 0 false false 0 0 Prefix.zero true) (mkFileStore (set_db (CacheFile_New "" true 0) (Some bolt_empty)) [])).
Definition transport : DNSTransport := mkTransport "udp" "udp".
Definition world (now : Z) : World := mkWorld (now * nanoseconds) 0 (fun _ => None).
Definition question : Question := mkQuestion "example.org." TypeA ClassINET.
Definition request (id : Z) : Msg := mkMsg id false false true false 0 [question] [] [] [].
Definition answer (ttl : Z) : Msg :=
  mkMsg 0 true false true true 0 [question] [mkRR (mkHeader "example.org." TypeA ClassINET ttl) (RR_A [192; 0; 2; 1])] [] [].
Definition options : DNSQueryOptions := mkQueryOptions None 0 0 false false None 0 Prefix.zero false.

(** Two exchanges of the same question: the second waits for the first. *)
Definition twice : list (event (Store := fileStore)) :=
  [EExchange (world 100) None None transport (request 1) options None; EExchangeAsync (world 101) None None transport (request 2) options None].
Definition answeredOnce : list (event (Store := fileStore)) :=
  twice ++ [EAnswer 0 (world 102) (Ok (answer 300)); ECall 0 (world 103) None].

Lemma exampleClient_idle : idle exampleClient.
Proof. split_and!; [done| |done]. cbn. intros cond H. by apply not_elem_of_empty in H. Qed.
Lemma request_typed id : wellTyped (request id).
Proof. constructor. Qed.

Example twice_replies :
  match run answeredOnce (mkClientSystem exampleClient []) with
  | Ok (replies, y) => (replies, length (y_processes y))
  | Err _ => ([], 1%nat)
  end = ([(Some (withId 1 (answer 300)), None); (Some (withId 2 (normalizeTTL 299 (answer 300))), None)], 0%nat).
Proof. vm_compute. reflexivity. Qed.

Lemma exchanges_answered_witness :
  exists replies c' l more replies' c'', run twice (mkClientSystem exampleClient []) = Ok (replies, mkClientSystem c' l)
  /\ (length replies + total owes l = 2)%nat
  /\ run more (mkClientSystem c' l) = Ok (replies', mkClientSystem c'' []) /\ length replies' = total owes l.
Proof.
  destruct (exchanges_answered exampleClient twice (world 102) (Ok (answer 300)) exampleClient_idle) as
    (replies & c' & l & E & Hn & _ & _ & _ & _ & more & replies' & c'' & _ & _ & E' & Hr & _).
  { by repeat constructor. }
  exists replies, c', l, more, replies', c''. by split_and!.
Defined.

(** The answer is in the cache afterwards. *)
Definition finalClient : Client (CL := ref_client) (Store := fileStore) :=
  match run answeredOnce (mkClientSystem exampleClient []) with Ok (_, y) => y_client y | Err _ => exampleClient end.
Definition exampleKey : dnsCacheKey := mkDNSCacheKey question "udp" Prefix.zero 0.
Lemma answeredOnce_run : exists replies, run answeredOnce (mkClientSystem exampleClient []) = Ok (replies, mkClientSystem finalClient []).
Proof.
  pose proof twice_replies as E. unfold finalClient. destruct (run _ _) as [[replies [c l]]|e]; [|done].
  apply (f_equal snd) in E. cbn in E. destruct l; [|done]. by exists replies.
Qed.
Lemma messages_ok id : messageOk (request id).
Proof. unfold messageOk, questionOk. cbn. constructor; [|constructor]. cbn. unfold TypeA. lia. Qed.
Lemma answeredOnce_history : history answeredOnce (mkClientSystem exampleClient []).
Proof. split; [apply messages_ok|]. intros ? ? _. split; [apply messages_ok|]. intros ? ? _. split; [done|]. intros ? ? _. by split. Qed.


(** A second record of lifetime 0 is raised to the lifetime of the first. *)
Definition mixedAnswer : Msg :=
  {| (answer 300) with msg_Ns := [mkRR (mkHeader "example.org." TypeA ClassINET 0) (RR_A [192; 0; 2; 2])] |}.
Lemma response_lifetime_witness :
  exists m', applyResponseOptions question mixedAnswer options = (m', 300) /\ lifeOf mixedAnswer 300
  /\ Forall (fun r => hdr_Ttl (rr_Header r) = 300) (sections m').
Proof.
  destruct (response_lifetime question mixedAnswer options (fst (applyResponseOptions question mixedAnswer options)) 300) as (H1 & H2 & _).
  - by repeat constructor.
  - vm_compute. reflexivity.
  - eexists. split; [|split; [exact H1|]].
    + transitivity (fst (applyResponseOptions question mixedAnswer options), 300); vm_compute; reflexivity.
    + vm_compute in H2. by repeat constructor.
Defined.

(** The subnet of the options replaces the one of the message. *)
Definition subnet4 (n : Z) : Prefix := mkPrefix (Addr4 (n * 2 ^ 8)) 24.
Definition subnetOptions24 : DNSQueryOptions := mkQueryOptions None 0 0 false false None 0 (subnet4 7) false.
Lemma cache_key_subnet_witness :
  let sent := prepareExchangeMessage exampleClient (SetClientSubnet (request 1) (subnet4 9)) subnetOptions24 in
  clientSubnetFromMessage sent = subnet4 7
  /\ k_clientSubnet (newCacheKey (world 1) exampleClient transport question sent subnetOptions24) = subnet4 7.
Proof.
  destruct (cache_key_subnet (world 1) exampleClient transport question (SetClientSubnet (request 1) (subnet4 9)) subnetOptions24) as (H1 & _ & H3).
  - intros _. split; cbn; unfold Addr.wf; cbn; try done; lia.
  - cbn zeta. rewrite H1. by rewrite (H3 eq_refl).
Defined.

End ClientRuns.
