(* ===== verification/DNSLegacy.v ===== *)
(** * Legacy DNS rules: [matchDNS] and [exchangeLegacy] in [dns/router.go]

    In the legacy mode a rule is matched twice: before its server is asked, with
    the destination addresses left out, and, if it has conditions on addresses,
    again on the response; a response that fails sends the router on to the next
    rule.  The client is the class [LegacyClient]: the answers it gives turn by
    turn, and what the router relies on of the check.  [exchange_legacy_first]
    says which rule answers. *)

From S2P Require Import Prelude.
From S2P Require Import GoText.
From S2P Require Import NetIP.
From S2P Require Import Libs.
From S2P Require Import Metadata.
From S2P Require Import RuleItems.
From S2P Require Import RuleAction.
From S2P Require Import RuleEngine.
From S2P Require Import RuleSpec.
From S2P Require Import RuleSound.
From S2P Require Import RuleTheorems.
From S2P Require Import DNSQuery.
From S2P Require Import DNSRouter.
From S2P Require Import DNSMessage.
From S2P Require Import DNSClient.
Local Open Scope string_scope.
Local Open Scope Z_scope.

(** [errors.Is]. *)
Fixpoint errorsIs (target err : GoError) : bool :=
  bool_decide (err = target) || match err with E_Cause err _ | Rejected err => errorsIs target err | _ => false end.

Lemma errorsIs_cached err : errorsIs ErrResponseRejectedCached err = true -> errorsIs ErrResponseRejected err = true.
Proof.
  induction err as [| err IH msg | | | err IH | |]; cbn [errorsIs]; intros H; apply orb_true_iff in H as [H|H]; try done;
    try (apply bool_decide_eq_true in H; discriminate H).
  - apply bool_decide_eq_true in H. injection H as -> _. reflexivity.
  - rewrite (IH H). apply orb_true_r.
  - rewrite (IH H). apply orb_true_r.
Qed.

(** [client.Exchange], turn by turn: the turn, the server ([nil] is possible),
    the options and the check. *)
Class LegacyClient := {
  lc_Exchange : nat -> option DNSTransport -> DNSQueryOptions -> option (Msg -> bool) -> option Msg * option GoError;
  (* what the server answers in a turn, and the servers with a stored rejection of the question *)
  lc_says : nat -> option DNSTransport -> DNSQueryOptions -> Msg -> Prop;
  lc_refused : nat -> option DNSTransport -> Prop;
  (* an answer has passed the check *)
  lc_checked : forall n t o check response, lc_Exchange n t o (Some check) = (response, None) ->
    exists raw, lc_says n t o raw /\ check raw = true;
  (* a rejection comes from the check, or from the store of rejections *)
  lc_rejected : forall n t o check response err, lc_Exchange n t o (Some check) = (response, Some err) ->
    errorsIs ErrResponseRejected err = true ->
    (exists raw, lc_says n t o raw /\ check raw = false) \/ (errorsIs ErrResponseRejectedCached err = true /\ lc_refused n t) }.

Section legacy.
Context `{L : Libs}.
Context (env : RuleEnv).
Context (Transport : string -> option DNSTransport) (Default : DNSTransport) (defaultDomainStrategy : Z).

(** ** Preparing a query *)

Definition isResolverDiscoveryQuery (question : Question) : bool :=
  (q_Qtype question =? TypeSVCB) && (5 <? Z.of_nat (String.length (q_Name question)))
  && strings_EqualFold (String.substring 0 5 (q_Name question)) "_dns.".
Definition isAddressQuery (message : Msg) : bool :=
  existsb (fun question => (q_Qtype question =? TypeA) || (q_Qtype question =? TypeAAAA) || (q_Qtype question =? TypeHTTPS))
    (msg_Question message).

Definition emptyResponse (message : Msg) (recursionDesired recursionAvailable : bool) (rcode : Z) : Msg :=
  {| msg_Id := msg_Id message; msg_Response := true; msg_Authoritative := false;
     msg_RecursionDesired := recursionDesired; msg_RecursionAvailable := recursionAvailable; msg_Rcode := rcode;
     msg_Question := msg_Question message; msg_Answer := []; msg_Ns := []; msg_Extra := [] |}.

(** The metadata of the query, or the early answer; the power manager's count is
    left out. *)
Definition prepareExchange `{D : DNSLibs} (closing : bool) (message : Msg) (m : InboundContext) :
    InboundContext + (option Msg * option GoError) :=
  match msg_Question message with
  | [question] =>
      if isResolverDiscoveryQuery question
      then inr (Some (emptyResponse message (msg_RecursionDesired message) true RcodeSuccess), None)
      else if closing then inr (None, Some (E_New "dns router closed"))
      else
        let m := {| m with m_Destination := Socksaddr_zero; m_QueryType := q_Qtype question; m_DNSResponse := None;
                           m_NamedDNSResponses := ∅; m_DestinationAddressMatchFromResponse := false |} in
        let m := if q_Qtype question =? TypeA then {| m with m_IPVersion := 4 |}
                 else if q_Qtype question =? TypeAAAA then {| m with m_IPVersion := 6 |} else m in
        inl {| m with m_Domain := FqdnToDomain (q_Name question);
                      m_QueryClientSubnet := clientSubnetFromMessage message;
                      m_QueryDNSSEC := match dns_IsEdns0 message with Some r => OPT_Do r | None => false end |}
  | _ => inr (Some (emptyResponse message false false RcodeFormatError), None)
  end.

(** ** The next rule *)

Definition legacyRouteOptions (isFakeIP : bool) (action : RuleActionDNSRouteOptions) (o : DNSQueryOptions) : DNSQueryOptions :=
  let o := if negb (ao_Strategy action =? DomainStrategyAsIS) then {| o with qo_Strategy := ao_Strategy action |} else o in
  let o := if isFakeIP || ao_DisableCache action then {| o with qo_DisableCache := true |} else o in
  let o := if isSome (ao_RewriteTTL action) then {| o with qo_RewriteTTL := ao_RewriteTTL action |} else o in
  let o := if 0 <? ao_Timeout action then {| o with qo_Timeout := ao_Timeout action |} else o in
  let o := if Prefix.IsValid (ao_ClientSubnet action)
           then {| o with qo_ClientSubnet := ao_ClientSubnet action; qo_RemoveClientSubnet := false |} else o in
  if ao_RemoveClientSubnet action
  then {| o with qo_ClientSubnet := Prefix.zero; qo_RemoveClientSubnet := true |} else o.

(** What [matchDNS] gives, with the options and the metadata it changes; an
    index of -1 is [None]. *)
Record legacyMatch := mkLegacyMatch {
  lm_transport : option DNSTransport;
  lm_rule : option HeadlessRule;
  lm_ruleIndex : option nat;
  lm_options : DNSQueryOptions;
  lm_metadata : InboundContext }.

Fixpoint matchDNSLoop (allowFakeIP addressQuery : bool) (rules : list HeadlessRule) (i : nat) (o : DNSQueryOptions)
    (m : InboundContext) : legacyMatch :=
  match rules with
  | [] => mkLegacyMatch (Some Default) None None o m
  | currentRule :: rules =>
      if DNSRule_WithAddressLimit currentRule && negb addressQuery then matchDNSLoop allowFakeIP addressQuery rules (S i) o m
      else
        let m := set_DestinationAddressMatchFromResponse (ResetRuleCache m) false in
        let '(matched, m) := LegacyPreMatch env currentRule m in
        if negb matched then matchDNSLoop allowFakeIP addressQuery rules (S i) o m
        else
          match rule_Action currentRule with
          | Some (RuleActionDNSRoute server _ action) =>
              match Transport server with
              | None => matchDNSLoop allowFakeIP addressQuery rules (S i) o m
              | Some transport =>
                  let isFakeIP := String.eqb (tr_Type transport) DNSTypeFakeIP in
                  if isFakeIP && negb allowFakeIP then matchDNSLoop allowFakeIP addressQuery rules (S i) o m
                  else mkLegacyMatch (Some transport) (Some currentRule) (Some i) (legacyRouteOptions isFakeIP action o) m
              end
          | Some (ActDNSRouteOptions action) =>
              matchDNSLoop allowFakeIP addressQuery rules (S i) (legacyRouteOptions false action o) m
          | Some (RuleActionReject _ _) | Some (ActPredefined _) => mkLegacyMatch None (Some currentRule) (Some i) o m
          | _ => matchDNSLoop allowFakeIP addressQuery rules (S i) o m
          end
  end.
Definition matchDNS (rules : list HeadlessRule) (allowFakeIP : bool) (ruleIndex : option nat) (addressQuery : bool)
    (o : DNSQueryOptions) (m : InboundContext) : legacyMatch :=
  let currentRuleIndex := match ruleIndex with Some i => S i | None => 0%nat end in
  matchDNSLoop allowFakeIP addressQuery (drop currentRuleIndex rules) currentRuleIndex o m.

Definition addressLimitResponseCheck (rule : option HeadlessRule) (m : InboundContext) : option (Msg -> bool) :=
  match rule with
  | None => None
  | Some rule =>
      if negb (DNSRule_WithAddressLimit rule) then None
      else Some (fun response => MatchAddressLimit env rule m (Some response))
  end.

(** ** The exchange *)

Section exchange.
Context `{C : LegacyClient}.

(** What a rule answers without asking a server; no answer for the reject
    methods a DNS rule does not know. *)
Definition legacyAction (message : Msg) (rule : option HeadlessRule) : option exchangeWithRulesResult :=
  match rule with
  | None => None
  | Some rule =>
      match rule_Action rule with
      | Some (RuleActionReject method _) =>
          if String.eqb method RuleActionRejectMethodDefault then Some (responseResult (dnsRefusedResponse message) None)
          else if String.eqb method RuleActionRejectMethodDrop then Some (errorResult errDropped)
          else None
      | Some (ActPredefined action) => Some (responseResult (RuleActionPredefined_Response action message) None)
      | _ => None
      end
  end.

(** The loop; [n] counts the turns.  Without fuel there is no result. *)
Fixpoint exchangeLegacyLoop (fuel n : nat) (rules : list HeadlessRule) (message : Msg) (options : DNSQueryOptions)
    (ruleIndex : option nat) (m : InboundContext) : option exchangeWithRulesResult :=
  match fuel with
  | O => None
  | S fuel =>
      let found := matchDNS rules true ruleIndex (isAddressQuery message) options m in
      let m := lm_metadata found in
      match legacyAction message (lm_rule found) with
      | Some r => Some r
      | None =>
          let responseCheck := addressLimitResponseCheck (lm_rule found) m in
          let '(response, err) := lc_Exchange n (lm_transport found)
            (finalizeExchangeOptions defaultDomainStrategy (lm_options found)) responseCheck in
          let rejected :=
            match err with
            | None => false
            | Some err => errorsIs ErrResponseRejectedCached err || errorsIs ErrResponseRejected err
            end in
          if isSome responseCheck && rejected
          then exchangeLegacyLoop fuel (S n) rules message options (lm_ruleIndex found) m
          else Some (mkExchangeResult response (lm_transport found) None err)
      end
  end.
Definition exchangeLegacy (rules : list HeadlessRule) (message : Msg) (options : DNSQueryOptions) (m : InboundContext) :
    option exchangeWithRulesResult :=
  exchangeLegacyLoop (S (length rules)) 0 rules message options None m.
End exchange.

(** ** Which rule answers *)

(** The metadata up to what matching a rule changes. *)
Definition queryOf (m : InboundContext) : InboundContext := ResetRuleCache (set_DestinationAddressMatchFromResponse m false).
(** The rule holds of the query with a response. *)
Definition holdsOf (m : InboundContext) (h : HeadlessRule) (raw : Msg) : bool := spec_rule env h (limitMetadata m (Some raw)).

Lemma holdsOf_query m m' h raw : queryOf m = queryOf m' -> holdsOf m h raw = holdsOf m' h raw.
Proof.
  intros H. unfold holdsOf. f_equal.
  exact (f_equal (fun c => set_DestinationAddressMatchFromResponse (set_DNSResponse c (Some raw)) true) H).
Qed.

(** The rules the theorem is about: DNS rules of the legacy mode that keep host
    names and addresses apart, over rule-sets with accurate metadata, with a
    reject method that a DNS rule may have. *)
Record legacyRule (h : HeadlessRule) : Prop := {
  lr_DNS : isDNSRule h = true;
  lr_safe : safe_rule false h = true;
  lr_metadata : metadata_rule h = true;
  lr_method : forall method noDrop, rule_Action h = Some (RuleActionReject method noDrop) ->
    method = RuleActionRejectMethodDefault \/ method = RuleActionRejectMethodDrop }.

(** The pre-match turns down only a rule that holds of no response, and one
    without conditions on addresses only lets pass if it holds of every one. *)
Lemma prematch_turn h m : legacyRule h -> m_IgnoreDestinationIPCIDRMatch m = false ->
  let res := LegacyPreMatch env h (set_DestinationAddressMatchFromResponse (ResetRuleCache m) false) in
  m_IgnoreDestinationIPCIDRMatch (snd res) = false /\ queryOf (snd res) = queryOf m
  /\ (fst res = false -> forall raw, holdsOf m h raw = false)
  /\ (fst res = true -> DNSRule_WithAddressLimit h = false -> forall raw, holdsOf m h raw = true).
Proof.
  intros [Hdns Hsafe Hmeta _] Hi. cbn zeta. set (m0 := set_DestinationAddressMatchFromResponse m false).
  change (set_DestinationAddressMatchFromResponse (ResetRuleCache m) false) with (ResetRuleCache m0).
  pose proof (fun r => prematch_sound env h m0 r Hdns Hsafe Hi) as H. cbn zeta in H.
  destruct (LegacyPreMatch env h (ResetRuleCache m0)) as [b m1]. cbn [fst snd] in *.
  destruct (H None) as (Hr & Hi1 & _). split_and!; [done| | |].
  - exact (f_equal (fun c => set_DestinationAddressMatchFromResponse c false) Hr).
  - intros -> raw. destruct (H (Some raw)) as (_ & _ & q & _ & _ & Hv). exact Hv.
  - intros -> Hl raw. destruct (H (Some raw)) as (_ & _ & q & _ & Hc & Hv). apply Hv, Hc, no_limit_no_defer; done.
Qed.

Lemma check_holds h m check : legacyRule h -> m_IgnoreDestinationIPCIDRMatch m = false ->
  addressLimitResponseCheck (Some h) m = Some check -> forall raw, check raw = holdsOf m h raw.
Proof.
  intros [Hdns Hsafe _ _] Hi. unfold addressLimitResponseCheck. destruct (DNSRule_WithAddressLimit h); [|done].
  intros [= <-] raw. by apply limit_semantics.
Qed.

(** A rule that does not come into question: it is on addresses and the query is
    not, its server is missing or is one of fake addresses where these are not
    asked for, or its action decides nothing. *)
Definition unusable (allowFakeIP addressQuery : bool) (h : HeadlessRule) : Prop :=
  DNSRule_WithAddressLimit h && negb addressQuery = true
  \/ match rule_Action h with
     | Some (RuleActionDNSRoute server _ _) =>
         match Transport server with
         | None => True
         | Some t => String.eqb (tr_Type t) DNSTypeFakeIP && negb allowFakeIP = true
         end
     | Some (RuleActionReject _ _) | Some (ActPredefined _) => False
     | _ => True
     end.
Definition passed (allowFakeIP addressQuery : bool) (m : InboundContext) (h : HeadlessRule) : Prop :=
  unusable allowFakeIP addressQuery h \/ forall raw, holdsOf m h raw = false.
(** The server of a rule that was found. *)
Definition serverOf (h : HeadlessRule) (t : option DNSTransport) : Prop :=
  match rule_Action h with
  | Some (RuleActionDNSRoute server _ _) => t = Transport server /\ t <> None
  | Some (RuleActionReject _ _) | Some (ActPredefined _) => t = None
  | _ => False
  end.

Record foundOk (allowFakeIP addressQuery : bool) (rules : list HeadlessRule) (i : nat) (m : InboundContext) (f : legacyMatch) : Prop := {
  fd_ignore : m_IgnoreDestinationIPCIDRMatch (lm_metadata f) = false;
  fd_query : queryOf (lm_metadata f) = queryOf m;
  fd_rule :
    match lm_rule f with
    | None => lm_transport f = Some Default /\ lm_ruleIndex f = None /\ Forall (passed allowFakeIP addressQuery m) rules
    | Some h => exists before after, rules = (before ++ h :: after)%list /\ lm_ruleIndex f = Some (i + length before)%nat
        /\ Forall (passed allowFakeIP addressQuery m) before /\ serverOf h (lm_transport f)
        /\ (DNSRule_WithAddressLimit h = false -> forall raw, holdsOf m h raw = true)
    end }.

Lemma passed_query allowFakeIP addressQuery m m' h : queryOf m = queryOf m' ->
  passed allowFakeIP addressQuery m h -> passed allowFakeIP addressQuery m' h.
Proof. intros Hq [H|H]; [by left|right]. intros raw. rewrite <- (holdsOf_query m m' h raw Hq). apply H. Qed.

Lemma foundOk_skip allowFakeIP addressQuery h rules i m m' f : queryOf m' = queryOf m ->
  passed allowFakeIP addressQuery m h -> foundOk allowFakeIP addressQuery rules (S i) m' f ->
  foundOk allowFakeIP addressQuery (h :: rules) i m f.
Proof.
  intros Hq Hp [H1 H2 H3]. assert (Hps : forall l, Forall (passed allowFakeIP addressQuery m') l -> Forall (passed allowFakeIP addressQuery m) l).
  { intros l. apply List.Forall_impl. intros x. by apply passed_query. }
  split; [done|congruence|]. destruct (lm_rule f) as [x|].
  - destruct H3 as (before & after & -> & Hi & Hb & Hs & Hl). exists (h :: before), after. split_and!; [done| | |done|].
    + rewrite Hi. cbn. f_equal. lia.
    + constructor; auto.
    + intros Hx raw. rewrite (holdsOf_query m m' _ _ (eq_sym Hq)). by apply Hl.
  - destruct H3 as (? & ? & Hall). split_and!; [done..|]. constructor; auto.
Qed.

Lemma matchDNSLoop_found allowFakeIP addressQuery : forall rules i o m,
  Forall legacyRule rules -> m_IgnoreDestinationIPCIDRMatch m = false ->
  foundOk allowFakeIP addressQuery rules i m (matchDNSLoop allowFakeIP addressQuery rules i o m).
Proof.
  induction rules as [|h rules IH]; intros i o m Hall Hi; cbn [matchDNSLoop].
  { split; [done..|]. cbn. split_and!; [done..|constructor]. }
  pose proof (Forall_inv Hall) as Hh. apply Forall_inv_tail in Hall.
  destruct (DNSRule_WithAddressLimit h && negb addressQuery) eqn:El.
  { apply (foundOk_skip _ _ _ _ _ m m); [done|by left; left|by apply IH]. }
  destruct (prematch_turn h m Hh Hi) as (Hi1 & Hq & Hno & Hyes).
  destruct (LegacyPreMatch env h _) as [matched m1]. cbn [fst snd] in *.
  assert (Hskip : forall o', passed allowFakeIP addressQuery m h ->
    foundOk allowFakeIP addressQuery (h :: rules) i m (matchDNSLoop allowFakeIP addressQuery rules (S i) o' m1)).
  { intros o' Hp. apply (foundOk_skip _ _ _ _ _ m m1); [done|done|by apply IH]. }
  destruct matched; cbn [negb]; [|apply Hskip; right; by apply Hno].
  assert (Hfound : forall t o', serverOf h t ->
    foundOk allowFakeIP addressQuery (h :: rules) i m (mkLegacyMatch t (Some h) (Some i) o' m1)).
  { intros t o' Hs. split; [done..|]. cbn. exists [], rules. split_and!; [done|f_equal; cbn; lia|constructor|done|]. by apply Hyes. }
  unfold passed, unusable, serverOf in *. destruct (rule_Action h) as [[]|]; try (by apply Hskip; left; right); try (by apply Hfound).
  destruct (Transport Server) as [t|] eqn:Et; [|by apply Hskip; left; right].
  destruct (String.eqb (tr_Type t) DNSTypeFakeIP && negb allowFakeIP) eqn:Ef; [by apply Hskip; left; right|by apply Hfound].
Qed.

Section answers.
Context `{C : LegacyClient} (message : Msg) (m : InboundContext).
Notation addressQuery := (isAddressQuery message).

(** Its server was asked, and gave a response that the rule does not hold of, or
    is known to the store of rejections. *)
Definition turnedDown (h : HeadlessRule) : Prop :=
  DNSRule_WithAddressLimit h = true
  /\ exists n t o, serverOf h t /\ ((exists raw, lc_says n t o raw /\ holdsOf m h raw = false) \/ lc_refused n t).
(** The rule is not the one to answer. *)
Definition over (h : HeadlessRule) : Prop := passed true addressQuery m h \/ turnedDown h.

(** The result is that of the rule: the answer of its server, which, if the rule
    is on addresses, gave a response that it holds of, or what its action says. *)
Definition answered (h : HeadlessRule) (r : exchangeWithRulesResult) : Prop :=
  match rule_Action h with
  | Some (RuleActionDNSRoute server _ _) =>
      Transport server <> None /\ er_transport r = Transport server
      /\ exists n o check, lc_Exchange n (Transport server) o check = (er_response r, er_err r)
         /\ isSome check = DNSRule_WithAddressLimit h
         /\ (DNSRule_WithAddressLimit h = true -> er_err r = None ->
             exists raw, lc_says n (Transport server) o raw /\ holdsOf m h raw = true)
  | _ => legacyAction message (Some h) = Some r
  end
  /\ (DNSRule_WithAddressLimit h = false -> forall raw, holdsOf m h raw = true).
Definition askedDefault (r : exchangeWithRulesResult) : Prop :=
  exists n o, lc_Exchange n (Some Default) o None = (er_response r, er_err r) /\ er_transport r = Some Default.

Definition legacyEnds (rules : list HeadlessRule) (r : exchangeWithRulesResult) : Prop :=
  (exists before h after, rules = (before ++ h :: after)%list /\ Forall over before /\ answered h r)
  \/ (Forall over rules /\ askedDefault r).

Lemma over_passed rules m' : queryOf m' = queryOf m ->
  Forall (passed true addressQuery m') rules -> Forall over rules.
Proof. intros Hq. apply List.Forall_impl. intros h H. left. by apply (passed_query _ _ m'). Qed.

(** A turn that a rule ends, or that its check rejects. *)
Lemma turn_rule h n t o m' response err : legacyRule h ->
  m_IgnoreDestinationIPCIDRMatch m' = false -> queryOf m' = queryOf m -> serverOf h t ->
  (DNSRule_WithAddressLimit h = false -> forall raw, holdsOf m' h raw = true) ->
  legacyAction message (Some h) = None ->
  lc_Exchange n t o (addressLimitResponseCheck (Some h) m') = (response, err) ->
  if isSome (addressLimitResponseCheck (Some h) m')
     && match err with None => false | Some err => errorsIs ErrResponseRejectedCached err || errorsIs ErrResponseRejected err end
  then turnedDown h else answered h (mkExchangeResult response t None err).
Proof.
  intros Hh Hi Hq Hs Hall Hact He.
  assert (Hroute : exists server speculative a, rule_Action h = Some (RuleActionDNSRoute server speculative a)).
  { unfold serverOf, legacyAction in *. destruct (rule_Action h) as [[]|] eqn:Ea; try done; [by eauto|].
    destruct (lr_method h Hh _ _ Ea) as [-> | ->]; done. }
  destruct Hroute as (server & speculative & a & Ea).
  assert (Hcheck : isSome (addressLimitResponseCheck (Some h) m') = DNSRule_WithAddressLimit h)
    by (unfold addressLimitResponseCheck; by destruct (DNSRule_WithAddressLimit h)).
  rewrite Hcheck. destruct (DNSRule_WithAddressLimit h) eqn:El; cbn [andb].
  - destruct (addressLimitResponseCheck (Some h) m') as [check|] eqn:Ec; [|done].
    assert (Hc : forall raw, check raw = holdsOf m h raw).
    { intros raw. rewrite (check_holds h m' check Hh Hi Ec). by apply holdsOf_query. }
    assert (Hans : (err = None -> exists raw, lc_says n t o raw /\ holdsOf m h raw = true) ->
      answered h (mkExchangeResult response t None err)).
    { intros H. unfold answered, serverOf in *. rewrite Ea in *. destruct Hs as [-> Hs]. rewrite El. split; [|done].
      split_and!; [done..|]. exists n, o, (Some check). split_and!; [done..|]. intros _. exact H. }
    destruct err as [err|].
    + destruct (errorsIs ErrResponseRejectedCached err || errorsIs ErrResponseRejected err) eqn:Er; [|by apply Hans].
      assert (Hr : errorsIs ErrResponseRejected err = true) by (apply orb_true_iff in Er as [Er|Er]; [by apply errorsIs_cached|done]).
      split; [done|]. exists n, t, o. split; [done|]. destruct (lc_rejected _ _ _ _ _ _ He Hr) as [(raw & Hsay & Hf)|[_ Hf]]; [left|by right].
      exists raw. by rewrite <- Hc.
    + apply Hans. intros _. destruct (lc_checked _ _ _ _ _ He) as (raw & Hsay & Hf). exists raw. by rewrite <- Hc.
  - unfold answered, serverOf in *. rewrite Ea in *. destruct Hs as [-> Hs]. rewrite El. split.
    + split_and!; [done..|]. exists n, o, (addressLimitResponseCheck (Some h) m'). by split_and!.
    + intros _ raw. rewrite <- (holdsOf_query m' m h raw Hq). by apply Hall.
Qed.

Lemma exchangeLegacyLoop_ends options : forall fuel n done' rest ruleIndex m',
  Forall legacyRule rest -> Forall over done' -> (length rest < fuel)%nat ->
  match ruleIndex with Some i => S i | None => 0%nat end = length done' ->
  m_IgnoreDestinationIPCIDRMatch m' = false -> queryOf m' = queryOf m ->
  exists r, exchangeLegacyLoop fuel n (done' ++ rest) message options ruleIndex m' = Some r /\ legacyEnds (done' ++ rest) r.
Proof.
  induction fuel as [|fuel IH]; intros n done' rest ruleIndex m' Hrules Hover Hfuel Hix Hi Hq; [lia|]. cbn [exchangeLegacyLoop].
  unfold matchDNS. rewrite Hix, drop_app_length.
  destruct (matchDNSLoop_found true addressQuery rest (length done') options m' Hrules Hi) as [Hi1 Hq1 Hfound].
  set (f := matchDNSLoop true addressQuery rest (length done') options m') in *. destruct (lm_rule f) as [h|].
  - destruct Hfound as (before & after & -> & Hidx & Hbefore & Hserver & Hall). apply List.Forall_app in Hrules as [_ Hrules].
    pose proof (Forall_inv Hrules) as Hh. apply Forall_inv_tail in Hrules.
    assert (Hb : Forall over (done' ++ before)) by (apply List.Forall_app; split; [done|by apply (over_passed _ m')]).
    assert (Hend : forall r, answered h r -> legacyEnds (done' ++ before ++ h :: after) r).
    { intros r Hr. left. exists (done' ++ before)%list, h, after. by rewrite <- app_assoc. }
    assert (Hallm : DNSRule_WithAddressLimit h = false -> forall raw, holdsOf m h raw = true).
    { intros Hl raw. rewrite <- (holdsOf_query m' m h raw Hq). by apply Hall. }
    destruct (legacyAction message (Some h)) as [r|] eqn:Eact.
    { exists r. split; [done|]. apply Hend. split; [|done]. pose proof Eact as Eact'. unfold legacyAction in Eact.
      by destruct (rule_Action h) as [[]|]. }
    destruct (lc_Exchange _ _ _ _) as [response err] eqn:He.
    assert (Hallf : DNSRule_WithAddressLimit h = false -> forall raw, holdsOf (lm_metadata f) h raw = true).
    { intros Hl raw. rewrite (holdsOf_query _ m' h raw Hq1). by apply Hall. }
    pose proof (turn_rule h _ _ _ (lm_metadata f) response err Hh Hi1 ltac:(congruence) Hserver Hallf Eact He) as Hturn.
    destruct (isSome _ && _).
    + rewrite length_app in Hfuel. cbn [length] in Hfuel.
      destruct (IH (S n) (done' ++ before ++ [h])%list after (lm_ruleIndex f) (lm_metadata f)) as (r & Hr1 & Hr2);
        [done| |lia| |done|congruence|].
      * rewrite app_assoc. apply List.Forall_app. split; [done|]. constructor; [by right|constructor].
      * rewrite Hidx, !length_app. cbn. lia.
      * exists r. by rewrite <- !app_assoc in *.
    + eexists. split; [reflexivity|]. by apply Hend.
  - destruct Hfound as (Ht & _ & Hpassed). rewrite Ht. cbn [legacyAction addressLimitResponseCheck isSome andb].
    destruct (lc_Exchange _ _ _ _) as [response err] eqn:He. eexists. split; [reflexivity|]. right. split.
    + apply List.Forall_app. split; [done|by apply (over_passed _ m')].
    + by eexists _, _.
Qed.
End answers.

End legacy.

(** ** Examples *)

Module LegacyRuns.
Import RuleExamples.
#[local] Existing Instance ref_libs.

(** A server of foreign addresses, and the default. *)
Definition cn : DNSTransport := mkTransport "cn" "udp".
Definition main : DNSTransport := mkTransport "main" "udp".
Definition transports (tag : string) : option DNSTransport := if String.eqb tag "cn" then Some cn else None.
Definition saying (n : nat) (t : option DNSTransport) (o : DNSQueryOptions) : Msg :=
  match t with
  | Some t => if String.eqb (tr_Tag t) "cn" then answer [8; 8; 8; 8] else answer [9; 9; 9; if qo_DisableCache o then 1 else 2]
  | None => answer []
  end.
Definition plainExchange (n : nat) (t : option DNSTransport) (o : DNSQueryOptions) (check : option (Msg -> bool)) :
    option Msg * option GoError :=
  let raw := saying n t o in
  match check with
  | Some check => if check raw then (Some raw, None) else (Some raw, Some ErrResponseRejected)
  | None => (Some raw, None)
  end.
Lemma plainExchange_checked n t o check response : plainExchange n t o (Some check) = (response, None) ->
  exists raw, raw = saying n t o /\ check raw = true.
Proof. unfold plainExchange. destruct (check _) eqn:E; [|done]. by exists (saying n t o). Qed.
Lemma plainExchange_rejected n t o check response err : plainExchange n t o (Some check) = (response, Some err) ->
  errorsIs ErrResponseRejected err = true ->
  (exists raw, raw = saying n t o /\ check raw = false) \/ (errorsIs ErrResponseRejectedCached err = true /\ False).
Proof. unfold plainExchange. destruct (check _) eqn:E; [done|]. left. by exists (saying n t o). Qed.
#[local] Instance plainClient : LegacyClient :=
  Build_LegacyClient plainExchange (fun n t o raw => raw = saying n t o) (fun _ _ => False) plainExchange_checked plainExchange_rejected.

Definition noOptions : RuleActionDNSRouteOptions := mkDNSOptions 0 0 false false None Prefix.zero false.
Definition withAction (r : abstractDefaultRule) (action : RuleAction) : HeadlessRule :=
  match r with
  | mkDefaultRule its sa sp da dc dp all rs inv _ => DefaultDNSRule (mkDefaultRule its sa sp da dc dp all rs inv (Some action)) false "" false
  end.
(** Uncached for a name; the server [cn] for addresses of 1.1.1.0/24. *)
Definition uncachedRule : HeadlessRule :=
  withAction (domainRule (exDomainItem "a.example")) (ActDNSRouteOptions (mkDNSOptions 0 0 true false None Prefix.zero false)).
Definition addressRule : HeadlessRule := withAction (ipRule (cidr 1 1 1 0 24)) (RuleActionDNSRoute "cn" false noOptions).
Definition request : Msg :=
  {| msg_Id := 1; msg_Response := false; msg_Authoritative := false; msg_RecursionDesired := true;
     msg_RecursionAvailable := false; msg_Rcode := 0; msg_Question := [mkQuestion "a.example." TypeA ClassINET];
     msg_Answer := []; msg_Ns := []; msg_Extra := [] |}.
Definition plainQuery : DNSQueryOptions := mkQueryOptions None 0 0 false false None 0 Prefix.zero false.


(** The options of a rule are lost when a later rule is turned down: the default
    server is asked with the cache, unless the rule on addresses is not there. *)
Theorem legacy_options_lost :
  exchangeLegacy env0 transports main 0 [uncachedRule] request plainQuery (queryFor "a.example")
    = Some (mkExchangeResult (Some (answer [9; 9; 9; 1])) (Some main) None None)
  /\ exchangeLegacy env0 transports main 0 [uncachedRule; addressRule] request plainQuery (queryFor "a.example")
    = Some (mkExchangeResult (Some (answer [9; 9; 9; 2])) (Some main) None None).
Proof. vm_compute. auto. Qed.
End LegacyRuns.
