(* ===== verification/Srs.v ===== *)
(** * Rule-set files: [common/srs]

    The binary format of rule-sets: [Write] and [Read] with everything below
    them ([binary.go], [ip_set.go], [ip_cidr.go]).  A writer is the bytes it was
    given; that a write to it fails is not modelled.  The matchers, address sets
    and the compression inside a file are those of other packages ([SrsLibs]). *)

From S2P Require Import Prelude.
From S2P Require Import GoText.
From S2P Require Import Bytes.
From S2P Require Import NetIP.
From S2P Require Import Libs.
From S2P Require Import Metadata.
From S2P Require Import RuleItems.
From S2P Require Import RuleAction.
From S2P Require Import RuleEngine.
From S2P Require Import RuleOptions.
Local Open Scope string_scope.
Local Open Scope list_scope.
Local Open Scope Z_scope.

(** ** Libraries *)

(** A panic, also one that was given a cause. *)
Fixpoint isPanic (e : GoError) : bool :=
  match e with GoPanic _ => true | E_Cause e _ => isPanic e | _ => false end.

(** A reader that takes at least a byte, gives back an end of its input, and
    does not panic. *)
Definition consuming {A} (read : list Z -> result (A * list Z)) : Prop := forall reader,
  match read reader with
  | Ok (_, rest) => suffix rest reader /\ (length rest < length reader)%nat
  | Err e => isPanic e = false
  end.

(** [sing/common/domain], [sing/common/varbin], [sing/common/json/badjson],
    [go4.org/netipx] and [compress/zlib].  [IPSet_ranges] and [IPSet_fromRanges]
    are the conversion of an address set to and from its list of ranges. *)
Class SrsLibs `{L : Libs} := {
  DomainMatcher_Write : DomainMatcher -> list Z;
  domain_ReadMatcher : list Z -> result (DomainMatcher * list Z);
  DomainMatcher_Dump : DomainMatcher -> list string * list string;
  AdGuardMatcher_Write : AdGuardMatcher -> list Z;
  domain_ReadAdGuardMatcher : list Z -> result (AdGuardMatcher * list Z);
  AdGuardMatcher_Dump : AdGuardMatcher -> list string;
  IPSet_ranges : IPSet -> list (Addr * Addr);
  IPSet_fromRanges : list (Addr * Addr) -> IPSet;
  IPSet_Prefixes : IPSet -> list Prefix;
  varbin_ReadSlice : nat -> list Z -> result (list Z * list Z);
  TypedMap_Put : list (Z * list Prefix) -> Z -> list Prefix -> list (Z * list Prefix);
  zlib_Compress : list Z -> list Z;
  zlib_Reader : list Z -> result (list Z);
  ReadMatcher_Write m rest : domain_ReadMatcher (DomainMatcher_Write m ++ rest) = Ok (m, rest);
  ReadMatcher_consuming : consuming domain_ReadMatcher;
  ReadAdGuardMatcher_Write m rest : domain_ReadAdGuardMatcher (AdGuardMatcher_Write m ++ rest) = Ok (m, rest);
  ReadAdGuardMatcher_consuming : consuming domain_ReadAdGuardMatcher;
  IPSet_ranges_wf s : Forall (fun r => (Addr.wf (fst r) /\ Addr.IsValid (fst r) = true /\ Addr.hasZone (fst r) = false)
    /\ Addr.wf (snd r) /\ Addr.IsValid (snd r) = true /\ Addr.hasZone (snd r) = false) (IPSet_ranges s);
  IPSet_fromRanges_ranges s : IPSet_fromRanges (IPSet_ranges s) = s;
  ReadSlice_elements width l rest : Z.of_nat (length l) < 2 ^ 64 ->
    Forall (fun x => 0 <= x < 256 ^ Z.of_nat width) l ->
    varbin_ReadSlice width (uvarint (Z.of_nat (length l)) ++ concat (map (be_bytes width) l) ++ rest) = Ok (l, rest);
  ReadSlice_consuming width : consuming (varbin_ReadSlice width);
  TypedMap_Put_fresh m k v : k ∉ map fst m -> TypedMap_Put m k v = m ++ [(k, v)];
  zlib_roundtrip data : zlib_Reader (zlib_Compress data) = Ok data;
  zlib_total data : match zlib_Reader data with Ok _ => True | Err e => isPanic e = false end }.

(** ** Constants *)

Definition MagicBytes : list Z := [83; 82; 83].
Definition ruleItemQueryType : Z := 0.
Definition ruleItemNetwork : Z := 1.
Definition ruleItemDomain : Z := 2.
Definition ruleItemDomainKeyword : Z := 3.
Definition ruleItemDomainRegex : Z := 4.
Definition ruleItemSourceIPCIDR : Z := 5.
Definition ruleItemIPCIDR : Z := 6.
Definition ruleItemSourcePort : Z := 7.
Definition ruleItemSourcePortRange : Z := 8.
Definition ruleItemPort : Z := 9.
Definition ruleItemPortRange : Z := 10.
Definition ruleItemProcessName : Z := 11.
Definition ruleItemProcessPath : Z := 12.
Definition ruleItemPackageName : Z := 13.
Definition ruleItemWIFISSID : Z := 14.
Definition ruleItemWIFIBSSID : Z := 15.
Definition ruleItemAdGuardDomain : Z := 16.
Definition ruleItemProcessPathRegex : Z := 17.
Definition ruleItemNetworkType : Z := 18.
Definition ruleItemNetworkIsExpensive : Z := 19.
Definition ruleItemNetworkIsConstrained : Z := 20.
Definition ruleItemNetworkInterfaceAddress : Z := 21.
Definition ruleItemDefaultInterfaceAddress : Z := 22.
Definition ruleItemPackageNameRegex : Z := 23.
Definition ruleItemFinal : Z := 255.
Definition RuleSetVersion1 : Z := 1.
Definition RuleSetVersion2 : Z := 2.
Definition RuleSetVersion3 : Z := 3.
Definition RuleSetVersion4 : Z := 4.
Definition RuleSetVersion5 : Z := 5.
Definition RuleSetVersionCurrent : Z := RuleSetVersion5.
Definition maxLogicalRuleDepth : nat := 100.

Section srs.
Context `{SL : SrsLibs}.

(** ** Reading *)

Definition srsByte (reader : list Z) : result (Z * list Z) :=
  match reader with [] => Err ErrEOF | b :: reader => Ok (b, reader) end.

(** [for i := range length]: the elements one after the other.  Every element
    takes a byte, so a turn for every byte is enough. *)
Fixpoint readTimes {A} (read : nat -> list Z -> result (A * list Z)) (fuel : nat) (i : nat) (n : Z) (reader : list Z) :
    result (list A * list Z) :=
  if n <=? 0 then Ok ([], reader)
  else
    match fuel with
    | O => Err (GoPanic "the loop does not end")
    | S fuel =>
        let? '(x, reader) := read i reader in
        let? '(l, reader) := readTimes read fuel (S i) (n - 1) reader in
        Ok (x :: l, reader)
    end.
(** A list that its length comes before. *)
Definition readSized {A} (read : nat -> list Z -> result (A * list Z)) (reader : list Z) : result (list A * list Z) :=
  let? '(length', reader) := ReadUvarint reader in readTimes read (S (length reader)) 0 length' reader.

Definition readString (reader : list Z) : result (string * list Z) :=
  let? '(value, reader) := varbin_ReadSlice 1 reader in Ok (bytes_string value, reader).
Definition readRuleItemString (reader : list Z) : result (list string * list Z) :=
  readSized (fun _ => readString) reader.

Definition readIPSetAddr (reader : list Z) : result (Addr * list Z) :=
  let? '(addrLen, reader) := ReadUvarint reader in
  if negb (addrLen =? 4) && negb (addrLen =? 16) then Err ErrInvalid
  else
    let? '(addrBytes, reader) := ReadFull (Z.to_nat addrLen) reader in
    Ok (M_AddrFromIP addrBytes, reader).
Definition readIPRange (reader : list Z) : result ((Addr * Addr) * list Z) :=
  let? '(from, reader) := readIPSetAddr reader in
  let? '(to, reader) := readIPSetAddr reader in Ok ((from, to), reader).
Definition readIPSet (reader : list Z) : result (IPSet * list Z) :=
  let? '(version, reader) := srsByte reader in
  if negb (version =? 1) then Err ErrInvalid
  else
    let? '(length', reader) := readBE 8 reader in
    let? '(rr, reader) := readTimes (fun _ => readIPRange) (S (length reader)) 0 length' reader in
    Ok (IPSet_fromRanges rr, reader).
Definition readPrefix (reader : list Z) : result (Prefix * list Z) :=
  let? '(addrLen, reader) := ReadUvarint reader in
  if negb (addrLen =? 4) && negb (addrLen =? 16) then Err ErrInvalid
  else
    let? '(addrBytes, reader) := ReadFull (Z.to_nat addrLen) reader in
    let? '(prefixBits, reader) := srsByte reader in
    Ok (Prefix.PrefixFrom (M_AddrFromIP addrBytes) prefixBits, reader).
Definition readInterfaceEntry (reader : list Z) : result ((Z * list Prefix) * list Z) :=
  let? '(key, reader) := srsByte reader in
  let? '(value, reader) := readSized (fun _ => readPrefix) reader in Ok ((key, value), reader).

(** [option.DefaultHeadlessRule{}] *)
Definition emptyHeadless : DefaultHeadlessRuleOptions :=
  mkDefaultHeadlessRuleOptions [] [] [] [] [] [] [] [] [] [] [] [] [] [] [] [] [] [] false false [] [] None [] false
    None None None [] None false false.

(** One item of a default rule. *)
Definition readStrings (reader : list Z) (set : list string -> DefaultHeadlessRuleOptions) :
    result (DefaultHeadlessRuleOptions * list Z) :=
  let? '(l, reader) := readRuleItemString reader in Ok (set l, reader).
Definition readUints (width : nat) (reader : list Z) (set : list Z -> DefaultHeadlessRuleOptions) :
    result (DefaultHeadlessRuleOptions * list Z) :=
  let? '(l, reader) := varbin_ReadSlice width reader in Ok (set l, reader).
Definition readAddresses (reader : list Z) (set : IPSet -> DefaultHeadlessRuleOptions) :
    result (DefaultHeadlessRuleOptions * list Z) :=
  let? '(s, reader) := readIPSet reader in Ok (set s, reader).

Definition readRuleItem (recover : bool) (itemType lastItemType : Z) (r : DefaultHeadlessRuleOptions) (reader : list Z) :
    result (DefaultHeadlessRuleOptions * list Z) :=
  if itemType =? ruleItemQueryType then readUints 2 reader (fun l => {| r with h_QueryType := l |})
  else if itemType =? ruleItemNetwork then readStrings reader (fun l => {| r with h_Network := l |})
  else if itemType =? ruleItemDomain then
    let? '(matcher, reader) := domain_ReadMatcher reader in
    let r := {| r with h_DomainMatcher := Some matcher |} in
    let '(domain, domainSuffix) := DomainMatcher_Dump matcher in
    Ok (if recover then {| r with h_Domain := domain; h_DomainSuffix := domainSuffix |} else r, reader)
  else if itemType =? ruleItemDomainKeyword then readStrings reader (fun l => {| r with h_DomainKeyword := l |})
  else if itemType =? ruleItemDomainRegex then readStrings reader (fun l => {| r with h_DomainRegex := l |})
  else if itemType =? ruleItemSourceIPCIDR then
    readAddresses reader (fun s =>
      let r := {| r with h_SourceIPSet := Some s |} in
      if recover then {| r with h_SourceIPCIDR := map Prefix_String (IPSet_Prefixes s) |} else r)
  else if itemType =? ruleItemIPCIDR then
    readAddresses reader (fun s =>
      let r := {| r with h_IPSet := Some s |} in
      if recover then {| r with h_IPCIDR := map Prefix_String (IPSet_Prefixes s) |} else r)
  else if itemType =? ruleItemSourcePort then readUints 2 reader (fun l => {| r with h_SourcePort := l |})
  else if itemType =? ruleItemSourcePortRange then readStrings reader (fun l => {| r with h_SourcePortRange := l |})
  else if itemType =? ruleItemPort then readUints 2 reader (fun l => {| r with h_Port := l |})
  else if itemType =? ruleItemPortRange then readStrings reader (fun l => {| r with h_PortRange := l |})
  else if itemType =? ruleItemProcessName then readStrings reader (fun l => {| r with h_ProcessName := l |})
  else if itemType =? ruleItemProcessPath then readStrings reader (fun l => {| r with h_ProcessPath := l |})
  else if itemType =? ruleItemProcessPathRegex then readStrings reader (fun l => {| r with h_ProcessPathRegex := l |})
  else if itemType =? ruleItemPackageName then readStrings reader (fun l => {| r with h_PackageName := l |})
  else if itemType =? ruleItemPackageNameRegex then readStrings reader (fun l => {| r with h_PackageNameRegex := l |})
  else if itemType =? ruleItemWIFISSID then readStrings reader (fun l => {| r with h_WIFISSID := l |})
  else if itemType =? ruleItemWIFIBSSID then readStrings reader (fun l => {| r with h_WIFIBSSID := l |})
  else if itemType =? ruleItemAdGuardDomain then
    let? '(matcher, reader) := domain_ReadAdGuardMatcher reader in
    let r := {| r with h_AdGuardDomainMatcher := Some matcher |} in
    Ok (if recover then {| r with h_AdGuardDomain := AdGuardMatcher_Dump matcher |} else r, reader)
  else if itemType =? ruleItemNetworkType then readUints 1 reader (fun l => {| r with h_NetworkType := l |})
  else if itemType =? ruleItemNetworkIsExpensive then Ok ({| r with h_NetworkIsExpensive := true |}, reader)
  else if itemType =? ruleItemNetworkIsConstrained then Ok ({| r with h_NetworkIsConstrained := true |}, reader)
  else if itemType =? ruleItemNetworkInterfaceAddress then
    let? '(entries, reader) := readSized (fun _ => readInterfaceEntry) reader in
    Ok ({| r with h_NetworkInterfaceAddress := Some (foldl (fun m e => TypedMap_Put m (fst e) (snd e)) [] entries) |}, reader)
  else if itemType =? ruleItemDefaultInterfaceAddress then
    let? '(value, reader) := readSized (fun _ => readPrefix) reader in
    Ok ({| r with h_DefaultInterfaceAddress := value |}, reader)
  else Err (E_New (F_ToString ["unknown rule item type: "; strconv.Itoa itemType; ", last type: "; strconv.Itoa lastItemType])).

(** The items up to the final one; every item takes a byte. *)
Fixpoint readItems (fuel : nat) (recover : bool) (lastItemType : Z) (r : DefaultHeadlessRuleOptions) (reader : list Z) :
    result (DefaultHeadlessRuleOptions * list Z) :=
  match fuel with
  | O => Err (GoPanic "the loop does not end")
  | S fuel =>
      let? '(itemType, reader) := srsByte reader in
      if itemType =? ruleItemFinal then
        let? '(invert, reader) := srsByte reader in Ok ({| r with h_Invert := negb (invert =? 0) |}, reader)
      else
        let? '(r, reader) := readRuleItem recover itemType lastItemType r reader in
        readItems fuel recover itemType r reader
  end.
Definition readDefaultRule (recover : bool) (reader : list Z) : result (DefaultHeadlessRuleOptions * list Z) :=
  readItems (S (length reader)) recover 0 emptyHeadless reader.

Definition readMessage (what : string) (i : nat) : string := what ++ strconv.Itoa (Z.of_nat i) ++ "]".
Definition readLogicalRule (readRule : list Z -> result (HeadlessRuleOptions * list Z)) (reader : list Z) :
    result (LogicalHeadlessRuleOptions * list Z) :=
  let? '(mode, reader) := srsByte reader in
  let? mode := if mode =? 0 then Ok LogicalTypeAnd else if mode =? 1 then Ok LogicalTypeOr
               else Err (E_New ("unknown logical mode: " ++ strconv.Itoa mode)) in
  let? '(rules, reader) := readSized (fun i reader => result_cause (readRule reader) (readMessage "read logical rule [" i)) reader in
  let? '(invert, reader) := srsByte reader in
  Ok (mkLogicalHeadlessRuleOptions mode rules (negb (invert =? 0)), reader).

Definition emptyLogicalHeadless : LogicalHeadlessRuleOptions := mkLogicalHeadlessRuleOptions "" [] false.
(** [levels] is how much deeper rules may be nested: at depth [d] it is
    [maxLogicalRuleDepth + 1 - d]. *)
Fixpoint readRule (levels : nat) (recover : bool) (reader : list Z) : result (HeadlessRuleOptions * list Z) :=
  match levels with
  | O => Err (E_New "logical rule nested too deep")
  | S levels =>
      let? '(ruleType, reader) := srsByte reader in
      if ruleType =? 0 then
        let? '(r, reader) := readDefaultRule recover reader in
        Ok (mkHeadlessRuleOptions RuleTypeDefault r emptyLogicalHeadless, reader)
      else if ruleType =? 1 then
        let? '(l, reader) := readLogicalRule (readRule levels recover) reader in
        Ok (mkHeadlessRuleOptions RuleTypeLogical emptyHeadless l, reader)
      else Err (E_New ("unknown rule type: " ++ strconv.Itoa ruleType))
  end.

(** The version and the rules of a file. *)
Definition srs_Read (recover : bool) (reader : list Z) : result (Z * list HeadlessRuleOptions) :=
  let? '(magicBytes, reader) := ReadFull 3 reader in
  if negb (bool_decide (magicBytes = MagicBytes)) then Err (E_New "invalid sing-box rule-set file")
  else
    let? '(version, reader) := srsByte reader in
    if RuleSetVersionCurrent <? version then Err (E_New ("unsupported version: " ++ strconv.Itoa version))
    else
      let? bReader := zlib_Reader reader in
      let? '(rules, _) := readSized (fun i reader =>
        result_cause (readRule (S maxLogicalRuleDepth) recover reader) (readMessage "read rule[" i)) bReader in
      Ok (version, rules).

(** ** Writing *)

Definition stringBytes (s : string) : list Z := varbin_WriteUvarint (Z.of_nat (String.length s)) ++ string_bytes s.
Definition writeRuleItemString (itemType : Z) (value : list string) : list Z :=
  [itemType] ++ varbin_WriteUvarint (Z.of_nat (length value)) ++ concat (map stringBytes value).
Definition writeRuleItemUint8 (itemType : Z) (value : list Z) : list Z :=
  [itemType] ++ varbin_WriteUvarint (Z.of_nat (length value)) ++ concat (map (be_bytes 1) value).
Definition writeRuleItemUint16 (itemType : Z) (value : list Z) : list Z :=
  [itemType] ++ varbin_WriteUvarint (Z.of_nat (length value)) ++ concat (map (be_bytes 2) value).

Definition writeAddr (a : Addr) : list Z :=
  varbin_WriteUvarint (Z.of_nat (length (Addr.AsSlice a))) ++ Addr.AsSlice a.
Definition writeIPSet (set : IPSet) : list Z :=
  [1] ++ be_bytes 8 (Z.of_nat (length (IPSet_ranges set)))
  ++ concat (map (fun rr => writeAddr (fst rr) ++ writeAddr (snd rr)) (IPSet_ranges set)).
Definition writePrefix (prefix : Prefix) : list Z := writeAddr (p_Addr prefix) ++ [p_Bits prefix mod 256].
Definition writeRuleItemCIDR (itemType : Z) (value : list string) : result (list Z) :=
  let? entries := parseCIDRs 0 value in
  let? ipSet := result_of_option (IPSet_Build entries) (E_New "netipx.IPSetBuilder") in
  Ok ([itemType] ++ writeIPSet ipSet).

Definition writePrefixes (value : list Prefix) : list Z :=
  varbin_WriteUvarint (Z.of_nat (length value)) ++ concat (map writePrefix value).
Definition writeInterfaceAddress (m : list (Z * list Prefix)) : list Z :=
  [ruleItemNetworkInterfaceAddress] ++ varbin_WriteUvarint (Z.of_nat (length m))
  ++ concat (map (fun e => [fst e mod 256] ++ writePrefixes (snd e)) m).

(** What is written one after the other, up to the first error. *)
Fixpoint writeAll (l : list (result (list Z))) : result (list Z) :=
  match l with
  | [] => Ok []
  | r :: l => let? b := r in let? rest := writeAll l in Ok (b ++ rest)
  end.
Definition itemWhen (b : bool) (r : result (list Z)) : result (list Z) := if b then r else Ok [].
Definition sinceVersion (generateVersion version : Z) (message : string) (b : list Z) : result (list Z) :=
  if generateVersion <? version then Err (E_New message) else Ok b.

Definition writeDefaultRule (o : DefaultHeadlessRuleOptions) (generateVersion : Z) : result (list Z) :=
  writeAll [
    Ok [0];
    itemWhen (nonEmpty (h_QueryType o)) (Ok (writeRuleItemUint16 ruleItemQueryType (h_QueryType o)));
    itemWhen (nonEmpty (h_Network o)) (Ok (writeRuleItemString ruleItemNetwork (h_Network o)));
    itemWhen (nonEmpty (h_Domain o) || nonEmpty (h_DomainSuffix o))
      (Ok ([ruleItemDomain]
           ++ DomainMatcher_Write (NewMatcher (h_Domain o) (h_DomainSuffix o) (generateVersion =? RuleSetVersion1))));
    itemWhen (nonEmpty (h_DomainKeyword o)) (Ok (writeRuleItemString ruleItemDomainKeyword (h_DomainKeyword o)));
    itemWhen (nonEmpty (h_DomainRegex o)) (Ok (writeRuleItemString ruleItemDomainRegex (h_DomainRegex o)));
    itemWhen (nonEmpty (h_SourceIPCIDR o))
      (result_cause (writeRuleItemCIDR ruleItemSourceIPCIDR (h_SourceIPCIDR o)) "source_ip_cidr");
    itemWhen (nonEmpty (h_IPCIDR o)) (result_cause (writeRuleItemCIDR ruleItemIPCIDR (h_IPCIDR o)) "ipcidr");
    itemWhen (nonEmpty (h_SourcePort o)) (Ok (writeRuleItemUint16 ruleItemSourcePort (h_SourcePort o)));
    itemWhen (nonEmpty (h_SourcePortRange o)) (Ok (writeRuleItemString ruleItemSourcePortRange (h_SourcePortRange o)));
    itemWhen (nonEmpty (h_Port o)) (Ok (writeRuleItemUint16 ruleItemPort (h_Port o)));
    itemWhen (nonEmpty (h_PortRange o)) (Ok (writeRuleItemString ruleItemPortRange (h_PortRange o)));
    itemWhen (nonEmpty (h_ProcessName o)) (Ok (writeRuleItemString ruleItemProcessName (h_ProcessName o)));
    itemWhen (nonEmpty (h_ProcessPath o)) (Ok (writeRuleItemString ruleItemProcessPath (h_ProcessPath o)));
    itemWhen (nonEmpty (h_ProcessPathRegex o)) (Ok (writeRuleItemString ruleItemProcessPathRegex (h_ProcessPathRegex o)));
    itemWhen (nonEmpty (h_PackageName o)) (Ok (writeRuleItemString ruleItemPackageName (h_PackageName o)));
    itemWhen (nonEmpty (h_PackageNameRegex o))
      (sinceVersion generateVersion RuleSetVersion5 "`package_name_regex` rule item is only supported in version 5 or later"
        (writeRuleItemString ruleItemPackageNameRegex (h_PackageNameRegex o)));
    itemWhen (nonEmpty (h_NetworkType o))
      (sinceVersion generateVersion RuleSetVersion3 "`network_type` rule item is only supported in version 3 or later"
        (writeRuleItemUint8 ruleItemNetworkType (h_NetworkType o)));
    itemWhen (h_NetworkIsExpensive o)
      (sinceVersion generateVersion RuleSetVersion3 "`network_is_expensive` rule item is only supported in version 3 or later"
        [ruleItemNetworkIsExpensive]);
    itemWhen (h_NetworkIsConstrained o)
      (sinceVersion generateVersion RuleSetVersion3 "`network_is_constrained` rule item is only supported in version 3 or later"
        [ruleItemNetworkIsConstrained]);
    itemWhen (negb (typedMapEmpty (h_NetworkInterfaceAddress o)))
      (sinceVersion generateVersion RuleSetVersion4
        "`network_interface_address` rule item is only supported in version 4 or later"
        (writeInterfaceAddress (default [] (h_NetworkInterfaceAddress o))));
    itemWhen (nonEmpty (h_DefaultInterfaceAddress o))
      (sinceVersion generateVersion RuleSetVersion4
        "`default_interface_address` rule item is only supported in version 4 or later"
        ([ruleItemDefaultInterfaceAddress] ++ writePrefixes (h_DefaultInterfaceAddress o)));
    itemWhen (nonEmpty (h_WIFISSID o)) (Ok (writeRuleItemString ruleItemWIFISSID (h_WIFISSID o)));
    itemWhen (nonEmpty (h_WIFIBSSID o)) (Ok (writeRuleItemString ruleItemWIFIBSSID (h_WIFIBSSID o)));
    itemWhen (nonEmpty (h_AdGuardDomain o))
      (sinceVersion generateVersion RuleSetVersion2 "AdGuard rule items is only supported in version 2 or later"
        ([ruleItemAdGuardDomain] ++ AdGuardMatcher_Write (NewAdGuardMatcher (h_AdGuardDomain o))));
    Ok [ruleItemFinal];
    Ok [Z.b2z (h_Invert o)]].

Definition modeByte (mode : string) : result (list Z) :=
  if String.eqb mode LogicalTypeAnd then Ok [0] else if String.eqb mode LogicalTypeOr then Ok [1]
  else Err (GoPanic ("unknown logical mode: " ++ mode)).
Fixpoint writeRule (rule : HeadlessRuleOptions) (generateVersion : Z) : result (list Z) :=
  match rule with
  | mkHeadlessRuleOptions typ d l =>
      if String.eqb typ RuleTypeDefault then writeDefaultRule d generateVersion
      else if String.eqb typ RuleTypeLogical then writeLogicalRule l generateVersion
      else Err (GoPanic ("unknown rule type: " ++ typ))
  end
with writeLogicalRule (l : LogicalHeadlessRuleOptions) (generateVersion : Z) : result (list Z) :=
  match l with
  | mkLogicalHeadlessRuleOptions mode rules invert =>
      writeAll ([Ok [1]; modeByte mode; Ok (varbin_WriteUvarint (Z.of_nat (length rules)))]
                ++ map (fun rule => writeRule rule generateVersion) rules ++ [Ok [Z.b2z invert]])
  end.

Definition srs_Write (rules : list HeadlessRuleOptions) (generateVersion : Z) : result (list Z) :=
  let? content := writeAll (Ok (varbin_WriteUvarint (Z.of_nat (length rules)))
                            :: map (fun rule => writeRule rule generateVersion) rules) in
  Ok (MagicBytes ++ [generateVersion mod 256] ++ zlib_Compress content).
End srs.
