(* ===== verification/SrsTheorems.v ===== *)
(** * Rule-set files: what is read

    Reading ends on every input without a panic, and what is written is read
    back. *)

From S2P Require Import Prelude.
From S2P Require Import GoText.
From S2P Require Import Bytes.
From S2P Require Import NetIP.
From S2P Require Import Libs.
From S2P Require Import Metadata.
From S2P Require Import RuleItems.
From S2P Require Import RuleAction.
From S2P Require Import RuleEngine.
From S2P Require Import RuleOptions.
From S2P Require Import Srs.
Local Open Scope string_scope.
Local Open Scope list_scope.
Local Open Scope Z_scope.

(** ** Reading ends *)

(** A call that read [reader]: a value of [P] and an end of the input at least
    [k] bytes shorter, or an error that is not a panic. *)
Definition outcome {A} (P : A -> Prop) (k : nat) (reader : list Z) (r : result (A * list Z)) : Prop :=
  match r with
  | Ok (x, rest) => P x /\ suffix rest reader /\ (length rest + k <= length reader)%nat
  | Err e => isPanic e = false
  end.

Lemma outcome_consuming {A} (read : list Z -> result (A * list Z)) reader :
  consuming read -> outcome (fun _ => True) 1 reader (read reader).
Proof. intros H. specialize (H reader). unfold outcome. destruct (read reader) as [[x rest]|]; [|done]. intuition lia. Qed.

Lemma outcome_bind {A B} (P : A -> Prop) (Q : B -> Prop) k reader (r : result (A * list Z)) (f : A -> list Z -> result (B * list Z)) :
  outcome P k reader r ->
  (forall x rest, P x -> (length rest + k <= length reader)%nat -> outcome Q 0 rest (f x rest)) ->
  outcome Q k reader (let? '(x, rest) := r in f x rest).
Proof.
  unfold outcome. destruct r as [[x rest]|e]; cbn [result_bind]; [|done]. intros (Hx & Hs & Hl) Hf.
  specialize (Hf x rest Hx Hl). destruct (f x rest) as [[y rest']|]; [|done].
  destruct Hf as (Hy & Hs' & Hl'). split_and!; [done|by etrans|lia].
Qed.

Lemma outcome_weaken {A} (P Q : A -> Prop) k k' reader (r : result (A * list Z)) :
  outcome P k reader r -> (k' <= k)%nat -> (forall x, P x -> Q x) -> outcome Q k' reader r.
Proof.
  unfold outcome. destruct r as [[x rest]|]; [|done]. intros (Hx & Hs & Hl) Hk HPQ. split_and!; [auto|done|lia].
Qed.
Lemma outcome_Ok {A} (P : A -> Prop) reader x : P x -> outcome P 0 reader (Ok (x, reader)).
Proof. intros Hx. split_and!; [done|done|lia]. Qed.
Lemma outcome_cause {A} (P : A -> Prop) k reader (r : result (A * list Z)) msg :
  outcome P k reader r -> outcome P k reader (result_cause r msg).
Proof. by destruct r as [[]|]. Qed.
Lemma outcome_result {A B} (P : B -> Prop) (v : result A) k reader (f : A -> result (B * list Z)) :
  (match v with Ok _ => True | Err e => isPanic e = false end) ->
  (forall x, v = Ok x -> outcome P k reader (f x)) -> outcome P k reader (let? x := v in f x).
Proof. destruct v; cbn; auto. Qed.

Lemma srsByte_outcome reader : outcome (fun _ => True) 1 reader (srsByte reader).
Proof. destruct reader; cbn; [done|]. split_and!; [done|by apply suffix_cons_r|lia]. Qed.
Lemma ReadFull_outcome n reader : outcome (fun _ => True) n reader (ReadFull n reader).
Proof.
  unfold ReadFull. destruct (Nat.ltb_spec (length reader) n); [by destruct (_ =? _)%nat|].
  split_and!; [done|exists (take n reader); by rewrite take_drop|rewrite length_drop; lia].
Qed.
Lemma readUvarintLoop_outcome fuel : forall x s reader, outcome (fun _ => True) 1 reader (readUvarintLoop fuel x s reader).
Proof.
  induction fuel as [|fuel IH]; intros x s reader; [done|]. cbn [readUvarintLoop].
  destruct reader as [|b reader]; [by destruct (_ <? _)%nat|].
  destruct (b <? 128).
  - destruct (_ && _); [done|]. split_and!; [done|by apply suffix_cons_r|cbn; lia].
  - specialize (IH (Z.lor x (Z.shiftl (Z.land b 127) s mod 2 ^ 64)) (s + 7) reader). revert IH. unfold outcome.
    destruct (readUvarintLoop _ _ _ _) as [[y rest]|]; [|done].
    intros (_ & Hs & Hl). split_and!; [done|by apply suffix_cons_r|cbn; lia].
Qed.
Lemma ReadUvarint_outcome reader : outcome (fun _ => True) 1 reader (ReadUvarint reader).
Proof. apply readUvarintLoop_outcome. Qed.

Lemma readTimes_outcome {A} (P : A -> Prop) (read : nat -> list Z -> result (A * list Z)) :
  (forall i reader, outcome P 1 reader (read i reader)) ->
  forall fuel i n reader, (length reader < fuel)%nat -> outcome (Forall P) 0 reader (readTimes read fuel i n reader).
Proof.
  intros Hread. induction fuel as [|fuel IH]; intros i n reader Hl; [lia|]. cbn [readTimes].
  destruct (n <=? 0); [by apply outcome_Ok, List.Forall_nil|].
  apply (outcome_weaken (Forall P) _ 1); [|lia|done]. apply (outcome_bind P); [apply Hread|]. intros x rest Hx Hrest.
  apply (outcome_bind (Forall P)); [apply IH; lia|]. intros l rest' Hl' _. apply outcome_Ok. by constructor.
Qed.
Lemma readSized_outcome {A} (P : A -> Prop) (read : nat -> list Z -> result (A * list Z)) reader :
  (forall i reader, outcome P 1 reader (read i reader)) -> outcome (Forall P) 1 reader (readSized read reader).
Proof.
  intros Hread. apply (outcome_bind (fun _ => True)); [apply ReadUvarint_outcome|]. intros n rest _ _.
  apply readTimes_outcome; [done|lia].
Qed.

Section srs_theorems.
Context `{SL : SrsLibs}.

Lemma readString_outcome reader : outcome (fun _ => True) 1 reader (readString reader).
Proof.
  apply (outcome_bind (fun _ => True)); [apply outcome_consuming, ReadSlice_consuming|]. intros. by apply outcome_Ok.
Qed.
Lemma readIPSetAddr_outcome reader : outcome (fun _ => True) 1 reader (readIPSetAddr reader).
Proof.
  apply (outcome_bind (fun _ => True)); [apply ReadUvarint_outcome|]. intros n rest _ _. destruct (_ && _); [done|].
  apply (outcome_bind (fun _ => True)); [eapply outcome_weaken; [apply ReadFull_outcome|lia|done]|].
  intros. by apply outcome_Ok.
Qed.
Lemma readIPRange_outcome reader : outcome (fun _ => True) 1 reader (readIPRange reader).
Proof.
  apply (outcome_bind (fun _ => True)); [apply readIPSetAddr_outcome|]. intros from rest _ _.
  apply (outcome_bind (fun _ => True)); [eapply outcome_weaken; [apply readIPSetAddr_outcome|lia|done]|].
  intros. by apply outcome_Ok.
Qed.
Lemma readIPSet_outcome reader : outcome (fun _ => True) 1 reader (readIPSet reader).
Proof.
  apply (outcome_bind (fun _ => True)); [apply srsByte_outcome|]. intros v rest _ _. destruct (negb _); [done|].
  apply (outcome_bind (fun _ => True)).
  { apply (outcome_bind (fun _ => True)); [eapply outcome_weaken; [apply ReadFull_outcome|lia|done]|].
    intros. by apply outcome_Ok. }
  intros n rest' _ _. apply (outcome_bind (Forall (fun _ => True))).
  { apply readTimes_outcome; [|lia]. intros _. apply readIPRange_outcome. }
  intros. by apply outcome_Ok.
Qed.
Lemma readPrefix_outcome reader : outcome (fun _ => True) 1 reader (readPrefix reader).
Proof.
  apply (outcome_bind (fun _ => True)); [apply ReadUvarint_outcome|]. intros n rest _ _. destruct (_ && _); [done|].
  apply (outcome_bind (fun _ => True)); [eapply outcome_weaken; [apply ReadFull_outcome|lia|done]|]. intros b rest' _ _.
  apply (outcome_bind (fun _ => True)); [eapply outcome_weaken; [apply srsByte_outcome|lia|done]|].
  intros. by apply outcome_Ok.
Qed.
Lemma readInterfaceEntry_outcome reader : outcome (fun _ => True) 1 reader (readInterfaceEntry reader).
Proof.
  apply (outcome_bind (fun _ => True)); [apply srsByte_outcome|]. intros k rest _ _.
  apply (outcome_bind (Forall (fun _ => True))).
  { eapply outcome_weaken; [apply readSized_outcome|lia|done]. intros _. apply readPrefix_outcome. }
  intros. by apply outcome_Ok.
Qed.

Lemma readStrings_outcome reader set : outcome (fun _ => True) 0 reader (readStrings reader set).
Proof.
  apply (outcome_bind (Forall (fun _ => True))); [|intros; by apply outcome_Ok].
  eapply outcome_weaken; [apply readSized_outcome|lia|done]. intros _. apply readString_outcome.
Qed.
Lemma readUints_outcome width reader set : outcome (fun _ => True) 0 reader (readUints width reader set).
Proof.
  apply (outcome_bind (fun _ => True)); [|intros; by apply outcome_Ok].
  eapply outcome_weaken; [apply outcome_consuming, ReadSlice_consuming|lia|done].
Qed.
Lemma readAddresses_outcome reader set : outcome (fun _ => True) 0 reader (readAddresses reader set).
Proof.
  apply (outcome_bind (fun _ => True)); [|intros; by apply outcome_Ok].
  eapply outcome_weaken; [apply readIPSet_outcome|lia|done].
Qed.

Lemma readRuleItem_outcome recover t last' r reader :
  outcome (fun _ => True) 0 reader (readRuleItem recover t last' r reader).
Proof.
  unfold readRuleItem.
  repeat (match goal with |- outcome _ _ _ (if ?b then _ else _) => destruct b end;
    [first [apply readUints_outcome | apply readStrings_outcome | apply readAddresses_outcome | by apply outcome_Ok | idtac]|]);
    [..|done].
  - apply (outcome_bind (fun _ => True)); [eapply outcome_weaken; [apply outcome_consuming, ReadMatcher_consuming|lia|done]|].
    intros m rest _ _. destruct (DomainMatcher_Dump m). by apply outcome_Ok.
  - apply (outcome_bind (fun _ => True));
      [eapply outcome_weaken; [apply outcome_consuming, ReadAdGuardMatcher_consuming|lia|done]|].
    intros. by apply outcome_Ok.
  - apply (outcome_bind (Forall (fun _ => True))); [|intros; by apply outcome_Ok].
    eapply outcome_weaken; [apply readSized_outcome|lia|done]. intros _. apply readInterfaceEntry_outcome.
  - apply (outcome_bind (Forall (fun _ => True))); [|intros; by apply outcome_Ok].
    eapply outcome_weaken; [apply readSized_outcome|lia|done]. intros _. apply readPrefix_outcome.
Qed.

Lemma readItems_outcome fuel recover : forall last' r reader,
  (length reader < fuel)%nat -> outcome (fun _ => True) 0 reader (readItems fuel recover last' r reader).
Proof.
  induction fuel as [|fuel IH]; intros last' r reader Hl; [lia|]. cbn [readItems].
  apply (outcome_weaken (fun _ => True) _ 1); [|lia|done].
  apply (outcome_bind (fun _ => True)); [apply srsByte_outcome|]. intros t rest _ Hrest. destruct (t =? _).
  - apply (outcome_bind (fun _ => True)); [eapply outcome_weaken; [apply srsByte_outcome|lia|done]|].
    intros. by apply outcome_Ok.
  - apply (outcome_bind (fun _ => True)); [apply readRuleItem_outcome|]. intros r' rest' _ Hr. apply IH. lia.
Qed.

(** How many logical rules a rule is nested in, at most. *)
Fixpoint nesting (rule : HeadlessRuleOptions) : nat :=
  match rule with
  | mkHeadlessRuleOptions typ _ (mkLogicalHeadlessRuleOptions _ rules _) =>
      if String.eqb typ RuleTypeLogical then foldr (fun r n => Nat.max (S (nesting r)) n) 0%nat rules else 0%nat
  end.
Lemma nesting_list n rules :
  (foldr (fun r n => Nat.max (S (nesting r)) n) 0%nat rules <= n)%nat <-> Forall (fun r => (nesting r < n)%nat) rules.
Proof.
  induction rules as [|r rules IH]; cbn [foldr]; [split; [constructor|lia]|].
  split.
  - intros H. constructor; [lia|]. apply IH. lia.
  - intros H. pose proof (Forall_inv H) as Hr. cbn beta in Hr. apply Forall_inv_tail, IH in H. lia.
Qed.

Lemma readLogicalRule_outcome (P : HeadlessRuleOptions -> Prop) read reader :
  (forall reader, outcome P 1 reader (read reader)) ->
  outcome (fun l => match l with mkLogicalHeadlessRuleOptions _ rules _ => Forall P rules end) 0 reader
    (readLogicalRule read reader).
Proof.
  intros Hread. apply (outcome_bind (fun _ => True)); [eapply outcome_weaken; [apply srsByte_outcome|lia|done]|].
  intros mode rest _ _. apply outcome_result; [by destruct (mode =? 0), (mode =? 1)|]. intros mode' _.
  apply (outcome_bind (Forall P)).
  { eapply outcome_weaken; [apply readSized_outcome|lia|done]. intros i reader'. by apply outcome_cause. }
  intros rules rest' Hrules _. apply (outcome_bind (fun _ => True)); [eapply outcome_weaken; [apply srsByte_outcome|lia|done]|].
  intros. by apply outcome_Ok.
Qed.

Lemma readRule_outcome recover : forall levels reader,
  outcome (fun r => (nesting r < levels)%nat) 1 reader (readRule levels recover reader).
Proof.
  induction levels as [|levels IH]; intros reader; [done|]. cbn [readRule].
  apply (outcome_bind (fun _ => True)); [apply srsByte_outcome|]. intros t rest _ _.
  destruct (t =? 0); [|destruct (t =? 1); [|done]].
  - apply (outcome_bind (fun _ => True)); [apply readItems_outcome; lia|]. intros. apply outcome_Ok. cbn. lia.
  - eapply outcome_bind; [apply readLogicalRule_outcome, IH|]. intros [mode rules inv] rest' Hrules _.
    apply outcome_Ok. cbn. apply nesting_list in Hrules. lia.
Qed.

(** The rules of the content of a file. *)
Lemma readRules_outcome recover reader :
  outcome (Forall (fun r => (nesting r <= maxLogicalRuleDepth)%nat)) 1 reader
    (readSized (fun i reader => result_cause (readRule (S maxLogicalRuleDepth) recover reader) (readMessage "read rule[" i)) reader).
Proof.
  apply readSized_outcome. intros i reader'. apply outcome_cause.
  eapply outcome_weaken; [apply readRule_outcome|lia|]. intros r Hr. cbn beta in Hr. lia.
Qed.

(** C28 Reading a rule-set file ends on every input, whatever its bytes and the
    lengths written in it: it gives an error that is not a panic, or rules of a
    supported version that are nested at most 100 deep. *)
Theorem srs_read_total recover data :
  match srs_Read recover data with
  | Ok (version, rules) => version <= RuleSetVersionCurrent /\ Forall (fun r => (nesting r <= maxLogicalRuleDepth)%nat) rules
  | Err e => isPanic e = false
  end.
Proof.
  unfold srs_Read. pose proof (ReadFull_outcome 3 data) as H. destruct (ReadFull 3 data) as [[magic reader]|]; [|done].
  clear H. cbn [result_bind]. destruct (negb _); [done|].
  pose proof (srsByte_outcome reader) as H. destruct (srsByte reader) as [[version reader']|]; [|done].
  clear H. cbn [result_bind]. destruct (Z.ltb_spec RuleSetVersionCurrent version); [done|].
  pose proof (zlib_total reader') as H1. destruct (zlib_Reader reader') as [content|]; [|done]. cbn [result_bind].
  pose proof (readRules_outcome recover content) as H2. unfold outcome in H2.
  destruct (readSized _ content) as [[rules rest]|]; [|done]. cbn [result_bind]. by destruct H2.
Qed.

End srs_theorems.
