(* ===== verification/SrsRoundtrip.v ===== *)
(** * Rule-set files: the round trip

    What [Read] makes of the file [Write] made of a rule-set: the options as
    they are stored ([stored]).  The domain lists are stored as a matcher and
    the address lists as address sets; the lists themselves come back only when
    they are asked for ([recover]). *)

From Stdlib Require Import Btauto.
From S2P Require Import Prelude.
From S2P Require Import GoText.
From S2P Require Import Bytes.
From S2P Require Import NetIP.
From S2P Require Import Libs.
From S2P Require Import Metadata.
From S2P Require Import RuleItems.
From S2P Require Import RuleAction.
From S2P Require Import RuleEngine.
From S2P Require Import RuleSpec.
From S2P Require Import RuleOptions.
From S2P Require Import RuleBuildTheorems.
From S2P Require Import Srs.
From S2P Require Import SrsTheorems.
Local Open Scope string_scope.
Local Open Scope list_scope.
Local Open Scope Z_scope.

(** ** Values that fit their types *)

Definition small {A} (l : list A) : Prop := Z.of_nat (length l) < 2 ^ 64.
Definition smallStrings (l : list string) : Prop := small l /\ Forall (fun s => Z.of_nat (String.length s) < 2 ^ 64) l.
Definition uints (width : nat) (l : list Z) : Prop := small l /\ Forall (fun x => 0 <= x < 256 ^ Z.of_nat width) l.
Definition plainAddr (a : Addr) : Prop := Addr.wf a /\ Addr.IsValid a = true /\ Addr.hasZone a = false.
Definition plainPrefix (p : Prefix) : Prop := plainAddr (p_Addr p) /\ 0 <= p_Bits p <= Addr.BitLen (p_Addr p).
Definition plainPrefixes (l : list Prefix) : Prop := small l /\ Forall plainPrefix l.
Definition plainInterfaces (m : list (Z * list Prefix)) : Prop :=
  small m /\ NoDup (map fst m) /\ Forall (fun e => 0 <= fst e < 256 /\ plainPrefixes (snd e)) m.

Section stored.
Context `{SL : SrsLibs}.

(** The address set of a list of CIDRs. *)
Definition setOf (l : list string) : option IPSet :=
  match parseCIDRs 0 l with Ok entries => IPSet_Build entries | Err _ => None end.
Definition smallSet (l : list string) : Prop :=
  match setOf l with Some set => small (IPSet_ranges set) | None => True end.

Record plainOptions (o : DefaultHeadlessRuleOptions) : Prop := {
  po_QueryType : uints 2 (h_QueryType o);
  po_Network : smallStrings (h_Network o);
  po_DomainKeyword : smallStrings (h_DomainKeyword o);
  po_DomainRegex : smallStrings (h_DomainRegex o);
  po_SourceIPCIDR : smallSet (h_SourceIPCIDR o);
  po_IPCIDR : smallSet (h_IPCIDR o);
  po_SourcePort : uints 2 (h_SourcePort o);
  po_SourcePortRange : smallStrings (h_SourcePortRange o);
  po_Port : uints 2 (h_Port o);
  po_PortRange : smallStrings (h_PortRange o);
  po_ProcessName : smallStrings (h_ProcessName o);
  po_ProcessPath : smallStrings (h_ProcessPath o);
  po_ProcessPathRegex : smallStrings (h_ProcessPathRegex o);
  po_PackageName : smallStrings (h_PackageName o);
  po_PackageNameRegex : smallStrings (h_PackageNameRegex o);
  po_NetworkType : uints 1 (h_NetworkType o);
  po_WIFISSID : smallStrings (h_WIFISSID o);
  po_WIFIBSSID : smallStrings (h_WIFIBSSID o);
  po_NetworkInterfaceAddress : plainInterfaces (default [] (h_NetworkInterfaceAddress o));
  po_DefaultInterfaceAddress : plainPrefixes (h_DefaultInterfaceAddress o) }.
Fixpoint plainRule (rule : HeadlessRuleOptions) : Prop :=
  match rule with
  | mkHeadlessRuleOptions typ d (mkLogicalHeadlessRuleOptions _ rules _) =>
      if String.eqb typ RuleTypeDefault then plainOptions d
      else small rules /\ foldr (fun r P => plainRule r /\ P) True rules
  end.

(** ** What is stored *)

Definition storedDefault (version : Z) (recover : bool) (o : DefaultHeadlessRuleOptions) : DefaultHeadlessRuleOptions :=
  let hasDomain := nonEmpty (h_Domain o) || nonEmpty (h_DomainSuffix o) in
  let matcher := NewMatcher (h_Domain o) (h_DomainSuffix o) (version =? RuleSetVersion1) in
  let sourceSet := if nonEmpty (h_SourceIPCIDR o) then setOf (h_SourceIPCIDR o) else None in
  let set := if nonEmpty (h_IPCIDR o) then setOf (h_IPCIDR o) else None in
  let prefixes s := if recover then map Prefix_String (from_option IPSet_Prefixes [] s) else [] in
  let adGuard := NewAdGuardMatcher (h_AdGuardDomain o) in
  {| h_QueryType := h_QueryType o;
     h_Network := h_Network o;
     h_Domain := if recover && hasDomain then fst (DomainMatcher_Dump matcher) else [];
     h_DomainSuffix := if recover && hasDomain then snd (DomainMatcher_Dump matcher) else [];
     h_DomainKeyword := h_DomainKeyword o;
     h_DomainRegex := h_DomainRegex o;
     h_SourceIPCIDR := prefixes sourceSet;
     h_IPCIDR := prefixes set;
     h_SourcePort := h_SourcePort o;
     h_SourcePortRange := h_SourcePortRange o;
     h_Port := h_Port o;
     h_PortRange := h_PortRange o;
     h_ProcessName := h_ProcessName o;
     h_ProcessPath := h_ProcessPath o;
     h_ProcessPathRegex := h_ProcessPathRegex o;
     h_PackageName := h_PackageName o;
     h_PackageNameRegex := h_PackageNameRegex o;
     h_NetworkType := h_NetworkType o;
     h_NetworkIsExpensive := h_NetworkIsExpensive o;
     h_NetworkIsConstrained := h_NetworkIsConstrained o;
     h_WIFISSID := h_WIFISSID o;
     h_WIFIBSSID := h_WIFIBSSID o;
     h_NetworkInterfaceAddress :=
       if typedMapEmpty (h_NetworkInterfaceAddress o) then None else h_NetworkInterfaceAddress o;
     h_DefaultInterfaceAddress := h_DefaultInterfaceAddress o;
     h_Invert := h_Invert o;
     h_DomainMatcher := if hasDomain then Some matcher else None;
     h_SourceIPSet := sourceSet;
     h_IPSet := set;
     h_AdGuardDomain := if recover && nonEmpty (h_AdGuardDomain o) then AdGuardMatcher_Dump adGuard else [];
     h_AdGuardDomainMatcher := if nonEmpty (h_AdGuardDomain o) then Some adGuard else None;
     h_EmptyIPCIDR := false;
     h_EmptyLists := false |}.

Fixpoint stored (version : Z) (recover : bool) (rule : HeadlessRuleOptions) : HeadlessRuleOptions :=
  match rule with
  | mkHeadlessRuleOptions typ d (mkLogicalHeadlessRuleOptions mode rules invert) =>
      if String.eqb typ RuleTypeDefault
      then mkHeadlessRuleOptions RuleTypeDefault (storedDefault version recover d) emptyLogicalHeadless
      else mkHeadlessRuleOptions RuleTypeLogical emptyHeadless
             (mkLogicalHeadlessRuleOptions mode (map (stored version recover) rules) invert)
  end.

(** ** What can be written *)

Definition needs (b : bool) (version since : Z) : bool := negb b || (since <=? version).
Definition supportedDefault (version : Z) (o : DefaultHeadlessRuleOptions) : bool :=
  (negb (nonEmpty (h_SourceIPCIDR o)) || isSome (setOf (h_SourceIPCIDR o)))
  && (negb (nonEmpty (h_IPCIDR o)) || isSome (setOf (h_IPCIDR o)))
  && needs (nonEmpty (h_PackageNameRegex o)) version 5
  && needs (nonEmpty (h_NetworkType o) || h_NetworkIsExpensive o || h_NetworkIsConstrained o) version 3
  && needs (negb (typedMapEmpty (h_NetworkInterfaceAddress o)) || nonEmpty (h_DefaultInterfaceAddress o)) version 4
  && needs (nonEmpty (h_AdGuardDomain o)) version 2.
Fixpoint supported (version : Z) (rule : HeadlessRuleOptions) : bool :=
  match rule with
  | mkHeadlessRuleOptions typ d (mkLogicalHeadlessRuleOptions mode rules _) =>
      if String.eqb typ RuleTypeDefault then supportedDefault version d
      else String.eqb typ RuleTypeLogical && (String.eqb mode LogicalTypeAnd || String.eqb mode LogicalTypeOr)
           && forallb (supported version) rules
  end.
End stored.

(** ** Lists of encoded elements *)

Lemma concat_length {A B} (enc : A -> list B) l : (forall x, enc x <> []) -> (length l <= length (concat (map enc l)))%nat.
Proof.
  intros Henc. induction l as [|x l IH]; cbn; [lia|]. rewrite length_app.
  specialize (Henc x). destruct (enc x); [done|]. cbn. lia.
Qed.
Lemma uvarint_nonempty n : uvarint n <> [].
Proof. unfold uvarint. cbn [putUvarint]. by case_match. Qed.

Lemma readTimes_list {A B} (enc : A -> list Z) (f : A -> B) (read : nat -> list Z -> result (B * list Z)) rest l :
  Forall (fun x => forall i rest, read i (enc x ++ rest) = Ok (f x, rest)) l ->
  forall fuel i, (length l <= fuel)%nat ->
  readTimes read fuel i (Z.of_nat (length l)) (concat (map enc l) ++ rest) = Ok (map f l, rest).
Proof.
  induction l as [|x l IH]; intros H fuel i Hl.
  - by destruct fuel.
  - cbn [length] in Hl. destruct fuel as [|fuel]; [lia|]. cbn [readTimes].
    destruct (Z.leb_spec (Z.of_nat (length (x :: l))) 0); [cbn [length] in *; lia|].
    cbn [map concat]. rewrite <- app_assoc, (Forall_inv H). cbn [result_bind].
    replace (Z.of_nat (length (x :: l)) - 1) with (Z.of_nat (length l)) by (cbn [length]; lia).
    by rewrite (IH (Forall_inv_tail H)) by lia.
Qed.

Create HintDb srs.
#[export] Hint Resolve po_QueryType po_Network po_DomainKeyword po_DomainRegex po_SourcePort po_SourcePortRange po_Port
  po_PortRange po_ProcessName po_ProcessPath po_ProcessPathRegex po_PackageName po_PackageNameRegex po_NetworkType
  po_WIFISSID po_WIFIBSSID : srs.

Section roundtrip.
Context `{SL : SrsLibs}.

Lemma WriteUvarint_small {A} (l : list A) : small l -> varbin_WriteUvarint (Z.of_nat (length l)) = uvarint (Z.of_nat (length l)).
Proof. intros H. apply varbin_WriteUvarint_spec. unfold small in H. lia. Qed.

Lemma readSized_list {A B} (enc : A -> list Z) (f : A -> B) (read : nat -> list Z -> result (B * list Z)) rest l :
  small l -> (forall x, enc x <> []) -> Forall (fun x => forall i rest, read i (enc x ++ rest) = Ok (f x, rest)) l ->
  readSized read ((varbin_WriteUvarint (Z.of_nat (length l)) ++ concat (map enc l)) ++ rest) = Ok (map f l, rest).
Proof.
  intros Hs Henc H. unfold readSized. rewrite WriteUvarint_small, <- app_assoc by done.
  rewrite ReadUvarint_uvarint by (unfold small in Hs; lia). cbn [result_bind].
  apply readTimes_list; [done|]. rewrite length_app. pose proof (concat_length enc l Henc). lia.
Qed.

Lemma be_bytes_1 l : bytes_ok l -> concat (map (be_bytes 1) l) = l.
Proof.
  induction l as [|x l IH]; [done|]. intros H. cbn [map concat]. rewrite IH by apply (Forall_inv_tail H).
  cbn. pose proof (Forall_inv H) as Hx. unfold is_byte in Hx. by rewrite Z.mod_small.
Qed.

Lemma readString_stringBytes s rest : Z.of_nat (String.length s) < 2 ^ 64 -> readString (stringBytes s ++ rest) = Ok (s, rest).
Proof.
  intros Hs. unfold readString, stringBytes. rewrite varbin_WriteUvarint_spec by lia.
  pose proof (ReadSlice_elements 1 (string_bytes s) rest) as E. rewrite string_bytes_length, be_bytes_1 in E by apply string_bytes_ok.
  rewrite <- app_assoc, E; [cbn; by rewrite bytes_string_bytes|done|].
  eapply List.Forall_impl; [|apply string_bytes_ok]. intros b Hb. exact Hb.
Qed.
Lemma stringBytes_nonempty s : Z.of_nat (String.length s) < 2 ^ 64 -> stringBytes s <> [].
Proof.
  intros Hs. unfold stringBytes. rewrite varbin_WriteUvarint_spec by lia. intros [E _]%app_eq_nil. by apply uvarint_nonempty in E.
Qed.
Lemma readRuleItemString_strings l rest :
  smallStrings l ->
  readRuleItemString ((varbin_WriteUvarint (Z.of_nat (length l)) ++ concat (map stringBytes l)) ++ rest) = Ok (l, rest).
Proof.
  intros [Hs Hl]. unfold readRuleItemString, readSized. rewrite WriteUvarint_small, <- app_assoc by done.
  rewrite ReadUvarint_uvarint by (unfold small in Hs; lia). cbn [result_bind].
  rewrite (readTimes_list stringBytes id); [by rewrite map_id| |].
  - eapply List.Forall_impl; [|exact Hl]. intros s H i rest'. by apply readString_stringBytes.
  - rewrite length_app. apply Nat.le_trans with (length (concat (map stringBytes l))); [|lia]. clear Hs.
    induction l as [|s l IH]; cbn; [lia|]. rewrite length_app. specialize (IH (Forall_inv_tail Hl)).
    pose proof (stringBytes_nonempty s (Forall_inv Hl)). destruct (stringBytes s); [done|]. cbn. lia.
Qed.

(** ** Addresses *)

Lemma AsSlice_plain a : plainAddr a -> length (Addr.AsSlice a) = 4%nat \/ length (Addr.AsSlice a) = 16%nat.
Proof. intros (_ & Hv & _). destruct a; [done|left|right]; apply be_bytes_length. Qed.
Lemma writeAddr_nonempty a : plainAddr a -> writeAddr a <> [].
Proof.
  intros Ha. unfold writeAddr. intros [_ E]%app_eq_nil. apply AsSlice_plain in Ha. rewrite E in Ha. cbn in Ha. lia.
Qed.
Lemma readAddr_with {B} a rest (k : list Z -> list Z -> result B) :
  plainAddr a ->
  (let? '(addrLen, reader) := ReadUvarint (writeAddr a ++ rest) in
   if negb (addrLen =? 4) && negb (addrLen =? 16) then Err ErrInvalid
   else let? '(addrBytes, reader) := ReadFull (Z.to_nat addrLen) reader in k addrBytes reader)
  = k (Addr.AsSlice a) rest.
Proof.
  intros Ha. unfold writeAddr. pose proof (AsSlice_plain a Ha) as Hl.
  rewrite varbin_WriteUvarint_spec, <- app_assoc by (destruct Hl as [-> | ->]; lia).
  rewrite ReadUvarint_uvarint by (destruct Hl as [-> | ->]; lia). cbn [result_bind].
  replace (_ && _) with false by (by destruct Hl as [-> | ->]). rewrite Nat2Z.id, ReadFull_app. done.
Qed.
Lemma readIPSetAddr_write a rest : plainAddr a -> readIPSetAddr (writeAddr a ++ rest) = Ok (a, rest).
Proof.
  intros Ha. unfold readIPSetAddr. rewrite (readAddr_with a rest (fun b reader => Ok (M_AddrFromIP b, reader))) by done.
  destruct Ha as (? & ? & ?). by rewrite M_AddrFromIP_slice.
Qed.
Lemma readPrefix_write p rest : plainPrefix p -> readPrefix (writePrefix p ++ rest) = Ok (p, rest).
Proof.
  intros [Ha Hb]. unfold readPrefix, writePrefix. rewrite <- app_assoc.
  rewrite (readAddr_with (p_Addr p) _ (fun b reader => let? '(prefixBits, reader) := srsByte reader in
    Ok (Prefix.PrefixFrom (M_AddrFromIP b) prefixBits, reader))) by done.
  cbn [srsByte app result_bind]. assert (p_Bits p < 256) by (destruct (p_Addr p); cbn in Hb; lia).
  rewrite Z.mod_small by lia. destruct Ha as (? & ? & ?). rewrite M_AddrFromIP_slice by done.
  unfold Prefix.PrefixFrom. rewrite H1, bool_decide_true by done. cbn [andb]. rewrite hasZone_withoutZone by done. by destruct p.
Qed.
Lemma writePrefix_nonempty p : writePrefix p <> [].
Proof. unfold writePrefix. by intros [_ E]%app_eq_nil. Qed.
Lemma readPrefixes_write l rest :
  plainPrefixes l -> readSized (fun _ => readPrefix) (writePrefixes l ++ rest) = Ok (l, rest).
Proof.
  intros [Hs Hl]. unfold writePrefixes. rewrite (readSized_list writePrefix id); [by rewrite map_id|done|apply writePrefix_nonempty|].
  eapply List.Forall_impl; [|exact Hl]. intros p Hp i rest'. by apply readPrefix_write.
Qed.

Lemma readIPSet_write set rest : small (IPSet_ranges set) -> readIPSet (writeIPSet set ++ rest) = Ok (set, rest).
Proof.
  intros Hs. unfold readIPSet, writeIPSet. cbn [app srsByte result_bind Z.eqb negb Pos.eqb]. rewrite <- app_assoc.
  rewrite readBE_bytes by (unfold small in Hs; cbn; lia). cbn [result_bind]. pose proof (IPSet_ranges_wf set) as Hwf.
  rewrite (readTimes_list _ id); [by rewrite map_id; cbn; rewrite IPSet_fromRanges_ranges| |].
  - eapply List.Forall_impl; [|exact Hwf]. intros [from to] [H1 H2] i rest'. unfold readIPRange. cbn [fst snd] in *.
    rewrite <- app_assoc, readIPSetAddr_write by done. cbn [result_bind]. by rewrite readIPSetAddr_write.
  - rewrite length_app. apply Nat.le_trans with (length (concat (map (fun rr => writeAddr rr.1 ++ writeAddr rr.2) (IPSet_ranges set)))); [|lia].
    clear Hs. induction Hwf as [|[from to] l [H1 H2] _ IH]; cbn; [lia|]. rewrite !length_app.
    pose proof (writeAddr_nonempty from H1). destruct (writeAddr from); [done|]. cbn. lia.
Qed.

Lemma readInterfaces_write m rest :
  plainInterfaces m ->
  readSized (fun _ => readInterfaceEntry)
    ((varbin_WriteUvarint (Z.of_nat (length m)) ++ concat (map (fun e => [fst e mod 256] ++ writePrefixes (snd e)) m)) ++ rest)
  = Ok (m, rest).
Proof.
  intros (Hs & _ & Hm). rewrite (readSized_list _ id); [by rewrite map_id|done|by intros|].
  eapply List.Forall_impl; [|exact Hm]. intros [k v] [Hk Hv] i rest'. unfold readInterfaceEntry. cbn [fst snd app srsByte result_bind] in *.
  rewrite Z.mod_small, readPrefixes_write by done. done.
Qed.
Lemma TypedMap_Put_all m : NoDup (map fst m) -> foldl (fun acc e => TypedMap_Put acc (fst e) (snd e)) [] m = m.
Proof.
  intros Hm. enough (forall done', NoDup (map fst (done' ++ m)) ->
    foldl (fun acc e => TypedMap_Put acc (fst e) (snd e)) done' m = done' ++ m) by auto.
  clear Hm. induction m as [|[k v] m IH]; intros d Hd; cbn; [by rewrite app_nil_r|].
  rewrite TypedMap_Put_fresh.
  - rewrite IH; [by rewrite <- app_assoc|]. by rewrite <- app_assoc.
  - rewrite map_app in Hd. cbn in Hd. apply list.NoDup_app in Hd as (_ & Hd & _). intros Hk. apply (Hd k Hk). left.
Qed.

(** ** The items of a default rule *)

Definition okBytes (r : result (list Z)) : list Z := match r with Ok b => b | Err _ => [] end.
Lemma writeAll_Ok l b : writeAll l = Ok b <-> forallb is_ok l = true /\ b = concat (map okBytes l).
Proof.
  revert b. induction l as [|r l IH]; intros b; cbn; [naive_solver|].
  destruct r as [x|e]; cbn; [|naive_solver]. destruct (writeAll l) as [y|e]; cbn.
  - destruct (proj1 (IH y) eq_refl) as [H ->]. rewrite H. naive_solver.
  - split; [done|]. intros [H ->]. by specialize (proj2 (IH _) (conj H eq_refl)).
Qed.

(** The loop over the items, from the options read so far. *)
Definition reads (recover : bool) (r : DefaultHeadlessRuleOptions) (reader : list Z)
    (out : DefaultHeadlessRuleOptions * list Z) : Prop :=
  forall last' fuel, (length reader < fuel)%nat -> readItems fuel recover last' r reader = Ok out.

Lemma reads_item recover t body r r' rest out :
  t <> ruleItemFinal -> (forall last', readRuleItem recover t last' r (body ++ rest) = Ok (r', rest)) ->
  reads recover r' rest out -> reads recover r ((t :: body) ++ rest) out.
Proof.
  intros Ht Hitem Hrest last' fuel Hl. cbn [app length] in Hl. rewrite length_app in Hl.
  destruct fuel as [|fuel]; [lia|]. cbn [readItems app srsByte result_bind].
  rewrite (proj2 (Z.eqb_neq _ _)) by done. rewrite Hitem. cbn [result_bind]. apply Hrest. lia.
Qed.
(** An item that is written when [b] holds. *)
Lemma reads_when recover t b body r r' rest out s :
  t <> ruleItemFinal -> is_ok (itemWhen b s) = true -> (b = true -> s = Ok (t :: body) \/ is_ok s = false) ->
  (b = true -> forall last', readRuleItem recover t last' r (body ++ rest) = Ok (r', rest)) -> (b = false -> r = r') ->
  reads recover r' rest out -> reads recover r (okBytes (itemWhen b s) ++ rest) out.
Proof.
  intros Ht Hok Hs Hitem Hskip Hrest. destruct b; cbn [itemWhen] in *; [|by rewrite (Hskip eq_refl)].
  destruct (Hs eq_refl) as [-> | E]; [|by rewrite E in Hok]. cbn [okBytes]. by eapply reads_item; [| |exact Hrest]; auto.
Qed.

Lemma reads_strings recover t l set r r' rest out s :
  t <> ruleItemFinal -> is_ok (itemWhen (nonEmpty l) s) = true -> s = Ok (writeRuleItemString t l) \/ is_ok s = false -> smallStrings l ->
  (forall last' reader, readRuleItem recover t last' r reader = readStrings reader set) ->
  set [] = r -> set l = r' -> reads recover r' rest out ->
  reads recover r (okBytes (itemWhen (nonEmpty l) s) ++ rest) out.
Proof.
  intros Ht Hok Hs Hl Hset Hnil <- Hrest. eapply reads_when; [exact Ht|exact Hok|intros _; exact Hs| | |exact Hrest].
  - intros _ last'. rewrite Hset. unfold readStrings. rewrite readRuleItemString_strings by done. done.
  - intros E%nonEmpty_nil. by rewrite E.
Qed.
Lemma reads_uints recover width t l set r r' rest out s :
  t <> ruleItemFinal -> is_ok (itemWhen (nonEmpty l) s) = true ->
  s = Ok ([t] ++ varbin_WriteUvarint (Z.of_nat (length l)) ++ concat (map (be_bytes width) l)) \/ is_ok s = false ->
  uints width l -> (forall last' reader, readRuleItem recover t last' r reader = readUints width reader set) ->
  set [] = r -> set l = r' -> reads recover r' rest out ->
  reads recover r (okBytes (itemWhen (nonEmpty l) s) ++ rest) out.
Proof.
  intros Ht Hok Hs [Hsm Hl] Hset Hnil <- Hrest. eapply reads_when; [exact Ht|exact Hok|intros _; exact Hs| | |exact Hrest].
  - intros _ last'. rewrite Hset. unfold readUints. rewrite WriteUvarint_small, <- app_assoc by done.
    by rewrite ReadSlice_elements.
  - intros E%nonEmpty_nil. by rewrite E.
Qed.
Lemma reads_flag recover t b set r r' rest out s :
  t <> ruleItemFinal -> is_ok (itemWhen b s) = true -> s = Ok [t] \/ is_ok s = false ->
  (forall last' reader, readRuleItem recover t last' r reader = Ok (set true, reader)) ->
  set false = r -> set b = r' -> reads recover r' rest out ->
  reads recover r (okBytes (itemWhen b s) ++ rest) out.
Proof.
  intros Ht Hok Hs Hset Hf <- Hrest. eapply reads_when; [exact Ht|exact Hok|intros _; exact Hs| | |exact Hrest].
  - intros -> last'. by rewrite Hset.
  - by intros ->.
Qed.
Lemma reads_addresses recover t l set r r' rest out msg :
  t <> ruleItemFinal -> is_ok (itemWhen (nonEmpty l) (result_cause (writeRuleItemCIDR t l) msg)) = true -> smallSet l ->
  (forall last' reader, readRuleItem recover t last' r reader = readAddresses reader (fun s => set (Some s))) ->
  set None = r -> set (if nonEmpty l then setOf l else None) = r' -> reads recover r' rest out ->
  reads recover r (okBytes (itemWhen (nonEmpty l) (result_cause (writeRuleItemCIDR t l) msg)) ++ rest) out.
Proof.
  intros Ht Hok Hs Hset Hnone <- Hrest. unfold writeRuleItemCIDR, smallSet, setOf in *.
  destruct (nonEmpty l) eqn:Hl; [|by rewrite Hnone in Hrest]. cbn [itemWhen] in *.
  destruct (parseCIDRs 0 l) as [entries|]; [|done]. cbn [result_bind] in *.
  destruct (IPSet_Build entries) as [ipSet|]; [|done]. cbn [result_of_option result_bind result_cause okBytes] in *.
  eapply reads_item; [exact Ht| |exact Hrest]. intros last'. rewrite Hset. unfold readAddresses.
  rewrite readIPSet_write by done. done.
Qed.

(** The options of [s] that the first [n] items hold. *)
Definition upTo (n : nat) (s : DefaultHeadlessRuleOptions) : DefaultHeadlessRuleOptions :=
  let at' {A} (i : nat) (none v : A) : A := if (i <=? n)%nat then v else none in
  {| h_QueryType := at' 1%nat [] (h_QueryType s);
     h_Network := at' 2%nat [] (h_Network s);
     h_Domain := at' 3%nat [] (h_Domain s);
     h_DomainSuffix := at' 3%nat [] (h_DomainSuffix s);
     h_DomainKeyword := at' 4%nat [] (h_DomainKeyword s);
     h_DomainRegex := at' 5%nat [] (h_DomainRegex s);
     h_SourceIPCIDR := at' 6%nat [] (h_SourceIPCIDR s);
     h_IPCIDR := at' 7%nat [] (h_IPCIDR s);
     h_SourcePort := at' 8%nat [] (h_SourcePort s);
     h_SourcePortRange := at' 9%nat [] (h_SourcePortRange s);
     h_Port := at' 10%nat [] (h_Port s);
     h_PortRange := at' 11%nat [] (h_PortRange s);
     h_ProcessName := at' 12%nat [] (h_ProcessName s);
     h_ProcessPath := at' 13%nat [] (h_ProcessPath s);
     h_ProcessPathRegex := at' 14%nat [] (h_ProcessPathRegex s);
     h_PackageName := at' 15%nat [] (h_PackageName s);
     h_PackageNameRegex := at' 16%nat [] (h_PackageNameRegex s);
     h_NetworkType := at' 17%nat [] (h_NetworkType s);
     h_NetworkIsExpensive := at' 18%nat false (h_NetworkIsExpensive s);
     h_NetworkIsConstrained := at' 19%nat false (h_NetworkIsConstrained s);
     h_WIFISSID := at' 22%nat [] (h_WIFISSID s);
     h_WIFIBSSID := at' 23%nat [] (h_WIFIBSSID s);
     h_NetworkInterfaceAddress := at' 20%nat None (h_NetworkInterfaceAddress s);
     h_DefaultInterfaceAddress := at' 21%nat [] (h_DefaultInterfaceAddress s);
     h_Invert := at' 25%nat false (h_Invert s);
     h_DomainMatcher := at' 3%nat None (h_DomainMatcher s);
     h_SourceIPSet := at' 6%nat None (h_SourceIPSet s);
     h_IPSet := at' 7%nat None (h_IPSet s);
     h_AdGuardDomain := at' 24%nat [] (h_AdGuardDomain s);
     h_AdGuardDomainMatcher := at' 24%nat None (h_AdGuardDomainMatcher s);
     h_EmptyIPCIDR := false;
     h_EmptyLists := false |}.

Lemma sinceVersion_cases v since msg b : sinceVersion v since msg b = Ok b \/ is_ok (sinceVersion v since msg b) = false.
Proof. unfold sinceVersion. destruct (v <? since); auto. Qed.

Section itemSteps.
Context (recover : bool) (v : Z) (o : DefaultHeadlessRuleOptions) (Ho : plainOptions o).
Notation s := (storedDefault v recover o).

Lemma reads_domain rest out :
  reads recover (upTo 3 s) rest out ->
  reads recover (upTo 2 s)
    (okBytes (itemWhen (nonEmpty (h_Domain o) || nonEmpty (h_DomainSuffix o))
       (Ok ([ruleItemDomain] ++ DomainMatcher_Write (NewMatcher (h_Domain o) (h_DomainSuffix o) (v =? RuleSetVersion1))))) ++ rest) out.
Proof.
  intros Hrest. eapply reads_when; [| |intros _; by left| | |exact Hrest]; [done|by destruct (_ || _)|..].
  - intros E last'. unfold readRuleItem. cbn [Z.eqb ruleItemDomain ruleItemQueryType ruleItemNetwork Pos.eqb].
    rewrite ReadMatcher_Write. cbn [result_bind]. destruct (DomainMatcher_Dump _) as [d ds] eqn:Ed.
    unfold upTo, storedDefault. cbn. rewrite E, Ed. destruct recover; reflexivity.
  - intros E. unfold upTo, storedDefault. cbn. rewrite E. by destruct recover.
Qed.
Lemma reads_adguard rest out :
  is_ok (itemWhen (nonEmpty (h_AdGuardDomain o))
    (sinceVersion v RuleSetVersion2 "AdGuard rule items is only supported in version 2 or later"
      ([ruleItemAdGuardDomain] ++ AdGuardMatcher_Write (NewAdGuardMatcher (h_AdGuardDomain o))))) = true ->
  reads recover (upTo 24 s) rest out ->
  reads recover (upTo 23 s)
    (okBytes (itemWhen (nonEmpty (h_AdGuardDomain o))
    (sinceVersion v RuleSetVersion2 "AdGuard rule items is only supported in version 2 or later"
      ([ruleItemAdGuardDomain] ++ AdGuardMatcher_Write (NewAdGuardMatcher (h_AdGuardDomain o))))) ++ rest) out.
Proof.
  intros Hok Hrest. eapply (reads_when recover ruleItemAdGuardDomain);
    [|exact Hok|intros _; apply sinceVersion_cases| | |exact Hrest]; [done|..].
  - intros E last'. unfold readRuleItem. cbn -[storedDefault upTo]. rewrite ReadAdGuardMatcher_Write. cbn [result_bind].
    unfold upTo, storedDefault. cbn. rewrite E. destruct recover; reflexivity.
  - intros E. unfold upTo, storedDefault. cbn. rewrite E. by destruct recover.
Qed.
Lemma reads_interfaces msg rest out :
  is_ok (itemWhen (negb (typedMapEmpty (h_NetworkInterfaceAddress o)))
    (sinceVersion v RuleSetVersion4 msg (writeInterfaceAddress (default [] (h_NetworkInterfaceAddress o))))) = true ->
  reads recover (upTo 20 s) rest out ->
  reads recover (upTo 19 s)
    (okBytes (itemWhen (negb (typedMapEmpty (h_NetworkInterfaceAddress o)))
      (sinceVersion v RuleSetVersion4 msg (writeInterfaceAddress (default [] (h_NetworkInterfaceAddress o))))) ++ rest) out.
Proof.
  intros Hok Hrest. eapply (reads_when recover ruleItemNetworkInterfaceAddress);
    [|exact Hok|intros _; apply sinceVersion_cases| | |exact Hrest]; [done|..].
  - intros E last'. unfold readRuleItem. cbn -[storedDefault upTo].
    pose proof (po_NetworkInterfaceAddress o Ho) as Hm. rewrite readInterfaces_write by done.
    destruct Hm as (_ & Hm & _). cbn [result_bind]. rewrite TypedMap_Put_all by done. unfold upTo, storedDefault. cbn.
    apply negb_true_iff in E. rewrite E. by destruct (h_NetworkInterfaceAddress o).
  - intros E%negb_false_iff. unfold upTo, storedDefault. cbn. by rewrite E.
Qed.
Lemma reads_defaultInterface msg rest out :
  is_ok (itemWhen (nonEmpty (h_DefaultInterfaceAddress o))
    (sinceVersion v RuleSetVersion4 msg ([ruleItemDefaultInterfaceAddress] ++ writePrefixes (h_DefaultInterfaceAddress o)))) = true ->
  reads recover (upTo 21 s) rest out ->
  reads recover (upTo 20 s)
    (okBytes (itemWhen (nonEmpty (h_DefaultInterfaceAddress o))
      (sinceVersion v RuleSetVersion4 msg ([ruleItemDefaultInterfaceAddress] ++ writePrefixes (h_DefaultInterfaceAddress o)))) ++ rest) out.
Proof.
  intros Hok Hrest. eapply (reads_when recover ruleItemDefaultInterfaceAddress);
    [|exact Hok|intros _; apply sinceVersion_cases| | |exact Hrest]; [done|..].
  - intros E last'. unfold readRuleItem. cbn -[storedDefault upTo writePrefixes].
    by rewrite readPrefixes_write by apply (po_DefaultInterfaceAddress o Ho).
  - intros E%nonEmpty_nil. unfold upTo, storedDefault. cbn. by rewrite E.
Qed.
End itemSteps.


Lemma reads_source recover v o msg rest out :
  plainOptions o ->
  is_ok (itemWhen (nonEmpty (h_SourceIPCIDR o)) (result_cause (writeRuleItemCIDR ruleItemSourceIPCIDR (h_SourceIPCIDR o)) msg)) = true ->
  reads recover (upTo 6 (storedDefault v recover o)) rest out ->
  reads recover (upTo 5 (storedDefault v recover o))
    (okBytes (itemWhen (nonEmpty (h_SourceIPCIDR o))
       (result_cause (writeRuleItemCIDR ruleItemSourceIPCIDR (h_SourceIPCIDR o)) msg)) ++ rest) out.
Proof.
  intros Ho Hok. apply (reads_addresses recover ruleItemSourceIPCIDR (h_SourceIPCIDR o) (fun set =>
    let r := upTo 5 (storedDefault v recover o) in let r := {| r with h_SourceIPSet := set |} in
    if recover then {| r with h_SourceIPCIDR := map Prefix_String (from_option IPSet_Prefixes [] set) |} else r));
    [done|done|apply (po_SourceIPCIDR o Ho)|intros; by destruct recover|by destruct recover|by destruct recover].
Qed.
Lemma reads_ipcidr recover v o msg rest out :
  plainOptions o ->
  is_ok (itemWhen (nonEmpty (h_IPCIDR o)) (result_cause (writeRuleItemCIDR ruleItemIPCIDR (h_IPCIDR o)) msg)) = true ->
  reads recover (upTo 7 (storedDefault v recover o)) rest out ->
  reads recover (upTo 6 (storedDefault v recover o))
    (okBytes (itemWhen (nonEmpty (h_IPCIDR o)) (result_cause (writeRuleItemCIDR ruleItemIPCIDR (h_IPCIDR o)) msg)) ++ rest) out.
Proof.
  intros Ho Hok. apply (reads_addresses recover ruleItemIPCIDR (h_IPCIDR o) (fun set =>
    let r := upTo 6 (storedDefault v recover o) in let r := {| r with h_IPSet := set |} in
    if recover then {| r with h_IPCIDR := map Prefix_String (from_option IPSet_Prefixes [] set) |} else r));
    [done|done|apply (po_IPCIDR o Ho)|intros; by destruct recover|by destruct recover|by destruct recover].
Qed.

Ltac item_step n :=
  match goal with
  | |- reads ?rec (upTo _ ?s) (okBytes (itemWhen _ _) ++ _) _ =>
      first
        [ apply reads_domain | apply reads_adguard; [assumption|] | apply reads_interfaces; [assumption|assumption|]
        | apply reads_defaultInterface; [assumption|assumption|] | apply reads_source; [assumption|assumption|]
        | apply reads_ipcidr; [assumption|assumption|]
        | eapply (reads_strings rec _ _ _ _ (upTo n s));
            [|eassumption|first [left; reflexivity|apply sinceVersion_cases]|eauto with srs|intros; reflexivity|reflexivity|reflexivity|]; [done|]
        | eapply (reads_uints rec _ _ _ _ _ (upTo n s));
            [|eassumption|first [left; reflexivity|apply sinceVersion_cases]|eauto with srs|intros; reflexivity|reflexivity|reflexivity|]; [done|] ]
  end.

Lemma readDefaultRule_write recover v o b rest :
  plainOptions o -> writeDefaultRule o v = Ok b ->
  exists items, b = 0 :: items /\ readDefaultRule recover (items ++ rest) = Ok (storedDefault v recover o, rest).
Proof.
  intros Ho Hw. apply writeAll_Ok in Hw as [Hok Hb]. cbn [map concat okBytes app] in Hb.
  eexists. split; [exact Hb|]. clear Hb b. cbn [forallb] in Hok. repeat rewrite andb_true_iff in Hok. destruct_and! Hok.
  enough (H' : reads recover (upTo 0 (storedDefault v recover o)) _ (storedDefault v recover o, rest)) by (apply H'; lia).
  rewrite <- !app_assoc. cbn [app].
  item_step 1%nat.
  item_step 2%nat.
  item_step 3%nat.
  item_step 4%nat.
  item_step 5%nat.
  item_step 6%nat.
  item_step 7%nat.
  item_step 8%nat.
  item_step 9%nat.
  item_step 10%nat.
  item_step 11%nat.
  item_step 12%nat.
  item_step 13%nat.
  item_step 14%nat.
  item_step 15%nat.
  item_step 16%nat.
  item_step 17%nat.
  apply (reads_flag recover ruleItemNetworkIsExpensive _ (fun b => let r := upTo 17 (storedDefault v recover o) in {| r with h_NetworkIsExpensive := b |}) _ (upTo 18 (storedDefault v recover o)));
    [done|assumption|apply sinceVersion_cases|intros; reflexivity|reflexivity|reflexivity|].
  apply (reads_flag recover ruleItemNetworkIsConstrained _ (fun b => let r := upTo 18 (storedDefault v recover o) in {| r with h_NetworkIsConstrained := b |}) _ (upTo 19 (storedDefault v recover o)));
    [done|assumption|apply sinceVersion_cases|intros; reflexivity|reflexivity|reflexivity|].
  item_step 20%nat.
  item_step 21%nat.
  item_step 22%nat.
  item_step 23%nat.
  item_step 24%nat.
  intros last' fuel Hl. destruct fuel as [|fuel]; [cbn in Hl; lia|].
  cbn [readItems app srsByte result_bind ruleItemFinal Z.eqb Pos.eqb]. f_equal. f_equal.
  unfold upTo, storedDefault. cbn. by destruct (h_Invert o).
Qed.

(** ** Rules *)

Lemma is_ok_writeAll l : is_ok (writeAll l) = forallb is_ok l.
Proof.
  destruct (writeAll l) as [b|e] eqn:E; [by apply writeAll_Ok in E as [-> _]|].
  destruct (forallb is_ok l) eqn:E'; [|done]. by rewrite (proj2 (writeAll_Ok l _) (conj E' eq_refl)) in E.
Qed.
Lemma is_ok_itemWhen b s : is_ok (itemWhen b s) = negb b || is_ok s.
Proof. by destruct b. Qed.
Lemma is_ok_since v since msg b : is_ok (sinceVersion v since msg b) = (since <=? v).
Proof. unfold sinceVersion. rewrite Z.ltb_antisym. by destruct (since <=? v). Qed.
Lemma is_ok_cidr t l msg : is_ok (result_cause (writeRuleItemCIDR t l) msg) = isSome (setOf l).
Proof.
  unfold writeRuleItemCIDR, setOf. destruct (parseCIDRs 0 l) as [e|]; [|done]. cbn [result_bind]. by destruct (IPSet_Build e).
Qed.
Lemma writeDefaultRule_ok v o : is_ok (writeDefaultRule o v) = supportedDefault v o.
Proof.
  unfold writeDefaultRule, supportedDefault, needs. rewrite is_ok_writeAll. cbn [forallb is_ok].
  rewrite !is_ok_itemWhen, !is_ok_since, !is_ok_cidr. cbn [is_ok]. rewrite !orb_true_r, !andb_true_r. cbn [andb].
  unfold RuleSetVersion2, RuleSetVersion3, RuleSetVersion4, RuleSetVersion5.
  destruct (nonEmpty (h_NetworkType o)), (h_NetworkIsExpensive o), (h_NetworkIsConstrained o), (typedMapEmpty _),
    (nonEmpty (h_DefaultInterfaceAddress o)); cbn [negb orb]; btauto.
Qed.
Lemma forallb_ext_Forall {A} (f g : A -> bool) l : Forall (fun x => f x = g x) l -> forallb f l = forallb g l.
Proof. induction 1 as [|x l E _ IH]; cbn; congruence. Qed.
Lemma forallb_map_ok {A B} (f : A -> result B) l : forallb is_ok (map f l) = forallb (fun x => is_ok (f x)) l.
Proof. induction l; cbn; congruence. Qed.

Lemma writeRule_eq typ d mode rules inv v :
  writeRule (mkHeadlessRuleOptions typ d (mkLogicalHeadlessRuleOptions mode rules inv)) v
  = if String.eqb typ RuleTypeDefault then writeDefaultRule d v
    else if String.eqb typ RuleTypeLogical then
      writeAll ([Ok [1]; modeByte mode; Ok (varbin_WriteUvarint (Z.of_nat (length rules)))]
                ++ map (fun rule => writeRule rule v) rules ++ [Ok [Z.b2z inv]])
    else Err (GoPanic ("unknown rule type: " ++ typ)).
Proof. reflexivity. Qed.

(** Writing a rule fails exactly when it is not supported. *)
Lemma writeRule_ok v rule : is_ok (writeRule rule v) = supported v rule.
Proof.
  induction rule as [typ d mode rules inv IH] using HeadlessRuleOptions_nested_ind. rewrite writeRule_eq. cbn [supported].
  destruct (String.eqb typ RuleTypeDefault); [apply writeDefaultRule_ok|].
  destruct (String.eqb typ RuleTypeLogical); [|done]. cbn [andb]. rewrite is_ok_writeAll.
  cbn [app forallb is_ok andb]. rewrite forallb_app. cbn [forallb is_ok andb]. rewrite andb_true_r, forallb_map_ok.
  rewrite (forallb_ext_Forall _ (supported v) rules IH). unfold modeByte.
  destruct (String.eqb mode LogicalTypeAnd), (String.eqb mode LogicalTypeOr); reflexivity.
Qed.

Lemma plainRules_Forall rules : foldr (fun r P => plainRule r /\ P) True rules <-> Forall plainRule rules.
Proof.
  induction rules as [|r rules IH]; cbn; [split; [constructor|done]|]. rewrite IH.
  split; [intros []; by constructor|]. intros H. split; [apply (Forall_inv H)|apply (Forall_inv_tail H)].
Qed.

Lemma readSized_cause rules v recover levels (msg : string) rest :
  small rules ->
  Forall (fun r => forall rest, readRule levels recover (okBytes (writeRule r v) ++ rest) = Ok (stored v recover r, rest)) rules ->
  readSized (fun i reader => result_cause (readRule levels recover reader) (readMessage msg i))
    ((varbin_WriteUvarint (Z.of_nat (length rules)) ++ concat (map okBytes (map (fun rule => writeRule rule v) rules))) ++ rest)
  = Ok (map (stored v recover) rules, rest).
Proof.
  intros Hs H. unfold readSized. rewrite WriteUvarint_small, <- app_assoc by done.
  rewrite ReadUvarint_uvarint by (unfold small in Hs; lia). cbn [result_bind]. rewrite map_map. apply readTimes_list.
  - eapply List.Forall_impl; [|exact H]. intros r Hr i rest'. by rewrite Hr.
  - rewrite length_app. enough (length rules <= length (concat (map (fun r => okBytes (writeRule r v)) rules)))%nat by lia.
    clear Hs. induction rules as [|r rules IH]; cbn; [lia|]. rewrite length_app. specialize (IH (Forall_inv_tail H)).
    pose proof (Forall_inv H []) as Hr. destruct (okBytes (writeRule r v)); [|cbn; lia].
    by destruct levels.
Qed.

Lemma modeByte_cases mode :
  is_ok (modeByte mode) = true ->
  (modeByte mode = Ok [0] /\ mode = LogicalTypeAnd) \/ (modeByte mode = Ok [1] /\ mode = LogicalTypeOr).
Proof.
  unfold modeByte. destruct (String.eqb_spec mode LogicalTypeAnd); [by left|].
  destruct (String.eqb_spec mode LogicalTypeOr); [by right|done].
Qed.
Lemma readLogicalRule_write v recover levels mode rules inv rest :
  small rules -> is_ok (modeByte mode) = true ->
  Forall (fun r => forall rest, readRule levels recover (okBytes (writeRule r v) ++ rest) = Ok (stored v recover r, rest)) rules ->
  readLogicalRule (readRule levels recover)
    (okBytes (modeByte mode) ++ varbin_WriteUvarint (Z.of_nat (length rules))
     ++ concat (map okBytes (map (fun rule => writeRule rule v) rules)) ++ Z.b2z inv :: rest)
  = Ok (mkLogicalHeadlessRuleOptions mode (map (stored v recover) rules) inv, rest).
Proof.
  intros Hs Hmode H. rewrite (app_assoc (varbin_WriteUvarint _)).
  destruct (modeByte_cases mode Hmode) as [[-> ->]|[-> ->]]; unfold readLogicalRule;
    cbn [okBytes app srsByte result_bind Z.eqb Pos.eqb]; rewrite readSized_cause by done; by destruct inv.
Qed.

Lemma readRule_write v recover rule : forall levels rest b,
  (nesting rule < levels)%nat -> plainRule rule -> writeRule rule v = Ok b ->
  readRule levels recover (b ++ rest) = Ok (stored v recover rule, rest).
Proof.
  induction rule as [typ d mode rules inv IH] using HeadlessRuleOptions_nested_ind. intros levels rest b Hn Hp Hw.
  destruct levels as [|levels]; [lia|]. rewrite writeRule_eq in Hw. cbn [nesting plainRule stored] in *.
  destruct (String.eqb typ RuleTypeDefault) eqn:Ed.
  - destruct (readDefaultRule_write recover v d b rest Hp Hw) as (items & -> & E).
    cbn [readRule app srsByte result_bind Z.eqb]. by rewrite E.
  - destruct (String.eqb typ RuleTypeLogical); [|done]. destruct Hp as [Hs Hp]. apply plainRules_Forall in Hp.
    apply Nat.lt_succ_r, nesting_list in Hn. apply writeAll_Ok in Hw as [Hok ->].
    cbn [app forallb is_ok andb map concat okBytes] in *. rewrite forallb_app, andb_true_iff in Hok. destruct Hok as [Hmode Hok].
    apply andb_true_iff in Hok as [Hok _]. rewrite map_app, concat_app. cbn [map concat okBytes app].
    rewrite <- !app_assoc. cbn [readRule app srsByte result_bind Z.eqb Pos.eqb]. rewrite readLogicalRule_write; [done|done|done|].
    rewrite forallb_map_ok, forallb_forall in Hok. rewrite List.Forall_forall in *. intros r Hr rest'. specialize (Hok r Hr).
    destruct (writeRule r v) as [b|] eqn:E; [|done]. by apply (IH r Hr); auto.
Qed.

(** ** Files *)

(** Allowing deeper rules does not change what is read. *)
Lemma readTimes_mono {A} (read read' : nat -> list Z -> result (A * list Z)) :
  (forall i reader x, read i reader = Ok x -> read' i reader = Ok x) ->
  forall fuel i n reader x, readTimes read fuel i n reader = Ok x -> readTimes read' fuel i n reader = Ok x.
Proof.
  intros H. induction fuel as [|fuel IH]; intros i n reader x; cbn [readTimes]; [done|]. destruct (n <=? 0); [done|].
  intros E. apply result_bind_Ok in E as ([y reader'] & Hy & E). apply result_bind_Ok in E as ([l reader''] & Hl & E).
  rewrite (H _ _ _ Hy). cbn [result_bind]. by rewrite (IH _ _ _ _ Hl).
Qed.
Lemma readSized_mono {A} (read read' : nat -> list Z -> result (A * list Z)) reader x :
  (forall i reader x, read i reader = Ok x -> read' i reader = Ok x) ->
  readSized read reader = Ok x -> readSized read' reader = Ok x.
Proof.
  intros H E. apply result_bind_Ok in E as ([n reader'] & Hn & E). unfold readSized. rewrite Hn. cbn [result_bind].
  by eapply readTimes_mono.
Qed.
Lemma result_cause_Ok {A} (r : result A) msg x : result_cause r msg = Ok x <-> r = Ok x.
Proof. destruct r; cbn; naive_solver. Qed.
Lemma readRule_mono recover : forall levels levels' reader x,
  (levels <= levels')%nat -> readRule levels recover reader = Ok x -> readRule levels' recover reader = Ok x.
Proof.
  induction levels as [|levels IH]; intros levels' reader x Hl; [done|]. destruct levels' as [|levels']; [lia|].
  cbn [readRule]. destruct (srsByte reader) as [[t reader']|]; [|done]. cbn [result_bind].
  destruct (t =? 0); [done|]. destruct (t =? 1); [|done]. intros E. apply result_bind_Ok in E as ([l reader''] & El & E).
  unfold readLogicalRule in *. apply result_bind_Ok in El as ([m r1] & Hm & El). rewrite Hm. cbn [result_bind].
  apply result_bind_Ok in El as (mode & Hmode & El). rewrite Hmode. cbn [result_bind].
  apply result_bind_Ok in El as ([rules r2] & Hr & El).
  erewrite readSized_mono; [|intros i rd y|exact Hr]; [cbn [result_bind]; by rewrite El|].
  intros H. apply result_cause_Ok in H. apply result_cause_Ok. apply (IH levels'); [lia|done].
Qed.

Lemma nesting_stored v recover rule : is_ok (writeRule rule v) = true -> nesting (stored v recover rule) = nesting rule.
Proof.
  rewrite writeRule_ok. induction rule as [typ d mode rules inv IH] using HeadlessRuleOptions_nested_ind. cbn [supported stored nesting].
  destruct (String.eqb_spec typ RuleTypeDefault) as [->|]; [done|]. destruct (String.eqb typ RuleTypeLogical); [|done].
  cbn [andb]. intros [_ H]%andb_true_iff. cbn. rewrite forallb_forall in H. rewrite List.Forall_forall in IH.
  clear n d. induction rules as [|r rules IHr]; [done|]. cbn [map foldr].
  rewrite (IH r) by (try apply H; by left).
  by rewrite IHr by (intros x Hx; first [apply IH | apply H]; by right).
Qed.

(** The content of a file, as written and as read at a depth. *)
Definition contentOf (rules : list HeadlessRuleOptions) (v : Z) : list Z :=
  varbin_WriteUvarint (Z.of_nat (length rules)) ++ concat (map okBytes (map (fun rule => writeRule rule v) rules)).
Definition readContent (levels : nat) (recover : bool) (content : list Z) : result (list HeadlessRuleOptions * list Z) :=
  readSized (fun i reader => result_cause (readRule levels recover reader) (readMessage "read rule[" i)) content.

Lemma srs_Write_Ok rules v :
  forallb (supported v) rules = true ->
  srs_Write rules v = Ok (MagicBytes ++ [v mod 256] ++ zlib_Compress (contentOf rules v)).
Proof.
  intros H. unfold srs_Write. match goal with |- context [writeAll ?l] => assert (E : writeAll l = Ok (contentOf rules v)) end.
  { apply writeAll_Ok. split; [|done]. cbn [forallb is_ok andb]. rewrite forallb_map_ok, <- H.
    apply forallb_ext_Forall, List.Forall_forall. intros r _. apply writeRule_ok. }
  by rewrite E.
Qed.
Lemma srs_Read_content recover v content :
  0 <= v <= RuleSetVersionCurrent ->
  srs_Read recover (MagicBytes ++ [v mod 256] ++ zlib_Compress content)
  = let? '(rules, _) := readContent (S maxLogicalRuleDepth) recover content in Ok (v, rules).
Proof.
  intros Hv. unfold srs_Read. rewrite ReadFull_app' by done. cbn [result_bind]. rewrite bool_decide_true by done.
  cbn [negb app srsByte result_bind]. unfold RuleSetVersionCurrent, RuleSetVersion5 in *. rewrite Z.mod_small by lia.
  rewrite (proj2 (Z.ltb_ge _ _)) by lia. by rewrite zlib_roundtrip.
Qed.

Lemma readContent_write recover rules v levels :
  small rules -> Forall plainRule rules -> forallb (supported v) rules = true -> Forall (fun r => (nesting r < levels)%nat) rules ->
  readContent levels recover (contentOf rules v) = Ok (map (stored v recover) rules, []).
Proof.
  intros Hs Hp Hok Hn. unfold readContent, contentOf. rewrite <- (app_nil_r (varbin_WriteUvarint _ ++ _)).
  apply readSized_cause; [done|]. rewrite forallb_forall in Hok. rewrite List.Forall_forall in *.
  intros r Hr rest. specialize (Hok r Hr). rewrite <- writeRule_ok in Hok. destruct (writeRule r v) as [b|] eqn:E; [|done].
  by apply readRule_write; auto.
Qed.
Lemma readContent_deep recover rules v levels x rest :
  small rules -> Forall plainRule rules -> forallb (supported v) rules = true ->
  readContent levels recover (contentOf rules v) = Ok (x, rest) -> Forall (fun r => (nesting r < levels)%nat) rules.
Proof.
  intros Hs Hp Hok E.
  set (deep := (levels + foldr (fun r n => Nat.max (S (nesting r)) n) 0%nat rules)%nat).
  assert (Hd : readContent deep recover (contentOf rules v) = Ok (map (stored v recover) rules, [])).
  { apply readContent_write; [done..|]. eapply List.Forall_impl; [|apply nesting_list, Nat.le_refl]. cbn beta. lia. }
  assert (E' : readContent deep recover (contentOf rules v) = Ok (x, rest)).
  { eapply readSized_mono; [|exact E]. intros i rd y H. apply result_cause_Ok in H. apply result_cause_Ok.
    eapply readRule_mono; [|exact H]. lia. }
  rewrite Hd in E'. injection E' as <- <-.
  pose proof (readSized_outcome (fun r => (nesting r < levels)%nat) _ (contentOf rules v)
    (fun i rd => outcome_cause _ _ _ _ (readMessage "read rule[" i) (readRule_outcome recover levels rd))) as Hout.
  unfold readContent in E. rewrite E in Hout. destruct Hout as [Hout _]. rewrite List.Forall_map in Hout.
  rewrite forallb_forall in Hok. rewrite List.Forall_forall in *. intros r Hr. specialize (Hout r Hr). cbn beta in Hout.
  by rewrite nesting_stored in Hout by (rewrite writeRule_ok; auto).
Qed.

(** C8 A rule-set file is read back as it was written.  Writing fails exactly
    when a rule needs a later version, has a CIDR that does not parse, or an
    unknown type or mode.  Otherwise reading gives the rules in their stored
    form when none is nested more than 100 deep, and an error when one is: the
    writer has no limit on the depth. *)
Theorem srs_roundtrip recover rules v :
  0 <= v <= RuleSetVersionCurrent -> small rules -> Forall plainRule rules ->
  if forallb (supported v) rules then
    exists data, srs_Write rules v = Ok data
    /\ (Forall (fun r => (nesting r <= maxLogicalRuleDepth)%nat) rules ->
        srs_Read recover data = Ok (v, map (stored v recover) rules))
    /\ (~ Forall (fun r => (nesting r <= maxLogicalRuleDepth)%nat) rules -> is_ok (srs_Read recover data) = false)
  else is_ok (srs_Write rules v) = false.
Proof.
  intros Hv Hs Hp. destruct (forallb (supported v) rules) eqn:Hok.
  - eexists. split; [by apply srs_Write_Ok|]. rewrite srs_Read_content by done. split.
    + intros Hn. rewrite readContent_write; [done..|]. eapply List.Forall_impl; [|exact Hn]. cbn beta. lia.
    + intros Hn. destruct (readContent _ _ _) as [[x rest]|] eqn:E; [|done]. destruct Hn.
      apply readContent_deep in E; [|done..]. eapply List.Forall_impl; [|exact E]. cbn beta. lia.
  - unfold srs_Write. match goal with |- context [writeAll ?l] => assert (E : is_ok (writeAll l) = false) end.
    { rewrite is_ok_writeAll. cbn [forallb is_ok andb]. rewrite forallb_map_ok, <- Hok.
      apply forallb_ext_Forall, List.Forall_forall. intros r _. apply writeRule_ok. }
    by destruct (writeAll _).
Qed.
End roundtrip.
