(* ===== verification/SrsRules.v ===== *)
(** * Rule-set files: the rules of a compiled file

    The rules built from the stored options are those built from the options
    that were written, up to the descriptions of their items, and a rule-set
    loaded from the file is matched as the one it was compiled from. *)

From S2P Require Import Prelude.
From S2P Require Import GoText.
From S2P Require Import Bytes.
From S2P Require Import NetIP.
From S2P Require Import Libs.
From S2P Require Import Metadata.
From S2P Require Import RuleItems.
From S2P Require Import RuleAction.
From S2P Require Import RuleEngine.
From S2P Require Import RuleSpec.
From S2P Require Import RuleSound.
From S2P Require Import RuleOptions.
From S2P Require Import RuleBuild.
From S2P Require Import RuleBuildTheorems.
From S2P Require Import Srs.
From S2P Require Import SrsTheorems.
From S2P Require Import SrsRoundtrip.
Local Open Scope string_scope.
Local Open Scope list_scope.
Local Open Scope Z_scope.

(** ** Descriptions *)

Section undescribed.
Context `{L : Libs}.

(** An item with the description of one that was read from a file. *)
Definition undescribedItem (i : RuleItem) : RuleItem :=
  match i with
  | ItemDomain d => ItemDomain (NewRawDomainItem (d_matcher d))
  | ItemIPCIDR c => ItemIPCIDR (NewRawIPCIDRItem (cidr_isSource c) (ipSet c))
  | _ => i
  end.
Definition undescribed (r : abstractDefaultRule) : abstractDefaultRule :=
  let u := map undescribedItem in
  match r with
  | mkDefaultRule its sa sp da dc dp all rs inv act =>
      mkDefaultRule (u its) (u sa) (u sp) (u da) (u dc) (u dp)
        (map (fun a => match a with AllItemOf i => AllItemOf (undescribedItem i) | AllItemRuleSet => AllItemRuleSet end) all)
        rs inv act
  end.
Fixpoint undescribedRule (h : HeadlessRule) : HeadlessRule :=
  match h with
  | DefaultHeadlessRule r => DefaultHeadlessRule (undescribed r)
  | LogicalHeadlessRule (mkLogicalRule rules mode inv act) =>
      LogicalHeadlessRule (mkLogicalRule (map undescribedRule rules) mode inv act)
  | h => h
  end.

Context (env : RuleEnv).

Lemma undescribedItem_match i m : RuleItem_Match env (undescribedItem i) m = RuleItem_Match env i m.
Proof. by destruct i. Qed.
Lemma undescribed_any l m : matchAnyItem env (map undescribedItem l) m = matchAnyItem env l m.
Proof.
  unfold matchAnyItem. rewrite !common_Any_spec. induction l as [|i l IH]; [done|]. cbn. by rewrite undescribedItem_match, IH.
Qed.
Lemma undescribed_all l m :
  forallb (fun i => RuleItem_Match env i m) (map undescribedItem l) = forallb (fun i => RuleItem_Match env i m) l.
Proof. induction l as [|i l IH]; [done|]. cbn. by rewrite undescribedItem_match, IH. Qed.
Lemma nonEmpty_map {A B} (f : A -> B) l : nonEmpty (map f l) = nonEmpty l.
Proof. by destruct l. Qed.

Lemma undescribed_groups r m : evaluateGroups env (undescribed r) m = evaluateGroups env r m.
Proof.
  destruct r as [its sa sp da dc dp all rs inv act]. unfold evaluateGroups, destinationIPCIDRMatchesSource, destinationIPCIDRMatchesDestination.
  cbn [undescribed sourceAddressItems sourcePortItems destinationAddressItems destinationIPCIDRItems destinationPortItems].
  by rewrite !nonEmpty_map, !undescribed_any, length_map.
Qed.
Lemma undescribed_merge r m : evaluateForMerge env (undescribed r) m = evaluateForMerge env r m.
Proof.
  unfold evaluateForMerge. rewrite undescribed_groups. destruct (evaluateGroups env r m) as [g m'].
  destruct r as [its sa sp da dc dp all rs inv act]. cbn [undescribed items]. by rewrite undescribed_all.
Qed.
Lemma undescribed_match r m : DefaultRule_Match env (undescribed r) m = DefaultRule_Match env r m.
Proof.
  rewrite !DefaultRule_Match_eq. unfold matchInnerWith. rewrite undescribed_groups.
  destruct r as [its sa sp da dc dp all rs inv act]. cbn [undescribed allItems ruleSetItem rule_invert items].
  rewrite length_map. destruct (evaluateGroups env _ m) as [g m']. by rewrite undescribed_all.
Qed.

(** ** Rule-sets matched alike *)

Lemma loops_map (matchRule : HeadlessRule -> InboundContext -> bool * InboundContext) f rules :
  Forall (fun h => forall m, matchRule (f h) m = matchRule h m) rules ->
  (forall m d, logicalAndLoop matchRule (map f rules) m d = logicalAndLoop matchRule rules m d)
  /\ (forall m b d, logicalOrLoop matchRule (map f rules) m b d = logicalOrLoop matchRule rules m b d)
  /\ (forall sn m b d, anyHeadlessLoop matchRule sn (map f rules) m b d = anyHeadlessLoop matchRule sn rules m b d).
Proof.
  induction 1 as [|h rules Hh _ (IH1 & IH2 & IH3)]; [done|]. cbn. split_and!; intros.
  - rewrite Hh. destruct (matchRule h _) as [[] m']; [apply IH1|done].
  - rewrite Hh. destruct (matchRule h _) as [[] m']; [case_match; [done|apply IH2]|apply IH2].
  - rewrite Hh. destruct (matchRule h _) as [[] m']; [case_match; [done|apply IH3]|apply IH3].
Qed.

Lemma undescribedRule_match h : forall m, HeadlessRule_Match env (undescribedRule h) m = HeadlessRule_Match env h m.
Proof.
  apply (headless_rule_ind (fun _ => True) (fun _ => True) (fun _ => True)
    (fun r => Forall (fun h => forall m, HeadlessRule_Match env (undescribedRule h) m = HeadlessRule_Match env h m) (logical_rules r))
    (fun h => forall m, HeadlessRule_Match env (undescribedRule h) m = HeadlessRule_Match env h m)); try done.
  - intros r _ m. apply undescribed_match.
  - intros [rules mode inv act] Hr m. cbn [logical_rules] in Hr. apply (loops_map (HeadlessRule_Match env)) in Hr as (H1 & H2 & _).
    change (LogicalRule_Match env (mkLogicalRule (map undescribedRule rules) mode inv act) m
            = LogicalRule_Match env (mkLogicalRule rules mode inv act) m). rewrite !LogicalRule_Match_eq. cbn [logical_rules logical_mode logical_invert].
    by rewrite H1, H2.
Qed.

(** Two rule-sets that behave alike, alone and merged into the rule around them. *)
Definition sameSet (s s' : RuleSet) : Prop :=
  (forall m, RuleSet_Match env s' m = RuleSet_Match env s m)
  /\ match mergeableRule s, mergeableRule s' with
     | Some b, Some b' => forall m, evaluateForMerge env b' m = evaluateForMerge env b m
     | None, None => True
     | _, _ => False
     end.
Lemma sameSet_refl s : sameSet s s.
Proof. split; [done|]. by destruct (mergeableRule s). Qed.
Lemma sameSets_refl l : Forall2 sameSet l l.
Proof. induction l; constructor; [apply sameSet_refl|done]. Qed.
Lemma sameSet_undescribed tag rules md : sameSet (mkRuleSet tag rules md) (mkRuleSet tag (map undescribedRule rules) md).
Proof.
  split.
  - intros m. rewrite !RuleSet_Match_eq. cbn [set_rules].
    apply (loops_map (HeadlessRule_Match env) undescribedRule). apply List.Forall_forall. intros h _. apply undescribedRule_match.
  - unfold mergeableRule, mergeableRuleIn. cbn [set_rules]. destruct rules as [|h [|h' rules]]; [done| |by destruct h as [| | | |[]|]].
    destruct h as [| [its sa sp da dc dp all rs inv act] | | | [] |]; try done.
    cbn [map undescribedRule undescribed rule_invert ruleSetItem]. destruct (inv || _); [done|].
    intros m. apply (undescribed_merge (mkDefaultRule its sa sp da dc dp all rs inv act)).
Qed.

Lemma outerGroupsLoop_same i i' g sn sets sets' :
  ipCidrMatchSource i = ipCidrMatchSource i' -> ipCidrAcceptEmpty i = ipCidrAcceptEmpty i' ->
  Forall2 sameSet sets sets' -> forall m b d,
  outerGroupsLoop env (RuleSet_Match env) i' g sn sets' m b d = outerGroupsLoop env (RuleSet_Match env) i g sn sets m b d.
Proof.
  intros Hs He. induction 1 as [|s s' sets sets' [Hm Hb] _ IH]; intros m b d; [done|]. cbn [outerGroupsLoop].
  unfold prepareNestedMatch. rewrite <- Hs, <- He.
  destruct (mergeableRule s) as [br|], (mergeableRule s') as [br'|]; try done.
  - rewrite Hb. destruct (evaluateForMerge env br _) as [[bg bm] m']. destruct (_ && _); [|apply IH]. destruct (_ =? 0); [done|apply IH].
  - destruct (ruleGroupMatch_done g); [|apply IH]. rewrite Hm. destruct (RuleSet_Match env s _) as [[] m']; [|apply IH].
    destruct (_ =? 0); [done|apply IH].
Qed.
(** A rule-set item with one of its rule-sets replaced. *)
Lemma matchWithOuterGroups_same tags before s s' after a b m g :
  sameSet s s' ->
  matchWithOuterGroups env (mkRuleSetItem tags (before ++ s' :: after) a b) m g
  = matchWithOuterGroups env (mkRuleSetItem tags (before ++ s :: after) a b) m g.
Proof.
  intros H. rewrite !matchWithOuterGroups_eq. apply outerGroupsLoop_same; [done|done|].
  cbn [setList]. apply List.Forall2_app; [|constructor; [done|]]; apply sameSets_refl.
Qed.
End undescribed.

(** ** Building from the stored options *)

Section compiled.
Context `{SL : SrsLibs}.

(** Options as a source file gives them: without matchers and address sets, and
    without an empty list, which counts as a condition but is not written. *)
Record sourceOptions (o : DefaultHeadlessRuleOptions) : Prop := {
  so_DomainMatcher : h_DomainMatcher o = None;
  so_SourceIPSet : h_SourceIPSet o = None;
  so_IPSet : h_IPSet o = None;
  so_AdGuardDomainMatcher : h_AdGuardDomainMatcher o = None;
  so_NetworkInterfaceAddress : h_NetworkInterfaceAddress o <> Some [];
  so_EmptyIPCIDR : h_EmptyIPCIDR o = false;
  so_EmptyLists : h_EmptyLists o = false }.
Fixpoint sourceRule (rule : HeadlessRuleOptions) : Prop :=
  match rule with
  | mkHeadlessRuleOptions typ d (mkLogicalHeadlessRuleOptions _ rules _) =>
      if String.eqb typ RuleTypeDefault then sourceOptions d
      else foldr (fun r P => sourceRule r /\ P) True rules
  end.
Lemma sourceRules_Forall rules : foldr (fun r P => sourceRule r /\ P) True rules <-> Forall sourceRule rules.
Proof.
  induction rules as [|r rules IH]; cbn; [split; [constructor|done]|]. rewrite IH.
  split; [intros []; by constructor|]. intros H. split; [apply (Forall_inv H)|apply (Forall_inv_tail H)].
Qed.

(** What the second call gives when the first succeeds. *)
Definition follows {A B} (f : A -> B) (r : result A) (r' : result B) : Prop := forall x, r = Ok x -> r' = Ok (f x).
Lemma follows_bind {A B C D} (f : A -> B) (g : C -> D) r r' k k' :
  follows f r r' -> (forall x, r = Ok x -> follows g (k x) (k' (f x))) -> follows g (result_bind r k) (result_bind r' k').
Proof. intros H Hk y Hy. apply result_bind_Ok in Hy as (x & Hx & Hy). rewrite (H x Hx). by apply (Hk x). Qed.
Lemma follows_cause {A B} (f : A -> B) r r' msg msg' : follows f r r' -> follows f (result_cause r msg) (result_cause r' msg').
Proof. intros H x Hx. apply result_cause_Ok in Hx. by rewrite (H x Hx). Qed.

Lemma follows_add c c' fld item item' r :
  c = c' -> (c = true -> follows undescribedItem item item') ->
  follows undescribed (addWhen c fld item r) (addWhen c' fld item' (undescribed r)).
Proof.
  intros <- Hi. unfold addWhen. destruct c; [|by intros x [= <-]]. eapply follows_bind; [by apply Hi|].
  intros i _ x [= <-]. f_equal. destruct r, fld; cbn [appendItem undescribed]; by rewrite !map_app.
Qed.
Lemma follows_same_item (item : result RuleItem) : result_all (fun i => undescribedItem i = i) item -> follows undescribedItem item item.
Proof. intros H x ->. cbn in H. by rewrite H. Qed.
Lemma follows_domain d ds :
  follows undescribedItem (domainItem d ds) (Ok (ItemDomain (NewRawDomainItem (NewMatcher d ds false)))).
Proof. intros x Hx. unfold domainItem, NewDomainItem in Hx. do 2 (case_bool_decide; [done|]). by injection Hx as <-. Qed.
Lemma follows_cidr isSource l msg set :
  setOf l = Some set -> follows undescribedItem (cidrItem isSource l msg) (Ok (ItemIPCIDR (NewRawIPCIDRItem isSource set))).
Proof.
  intros Hset x Hx. unfold cidrItem, NewIPCIDRItem, setOf in *. destruct (parseCIDRs 0 l) as [e|]; [|done]. cbn [result_bind] in Hx.
  rewrite Hset in Hx. by injection Hx as <-.
Qed.
Lemma undescribed_regexes l :
  result_all (fun i => undescribedItem i = i) (domainRegexItem l) /\ result_all (fun i => undescribedItem i = i) (processPathRegexItem l)
  /\ result_all (fun i => undescribedItem i = i) (packageNameRegexItem l).
Proof.
  unfold domainRegexItem, processPathRegexItem, packageNameRegexItem. split_and!;
    match goal with |- result_all _ (result_bind ?r _) => by destruct r end.
Qed.
Lemma undescribed_portRange isSource l msg : result_all (fun i => undescribedItem i = i) (portRangeItem isSource l msg).
Proof. unfold portRangeItem. by destruct (result_cause _ _). Qed.

Ltac same_step :=
  eapply (follows_bind undescribed);
    [apply follows_add; [reflexivity|intros _; apply follows_same_item; try apply result_all_cause; first [reflexivity|apply undescribed_portRange|apply undescribed_regexes]]
    |let r := fresh "r" in intros r _].

Lemma headlessItems_stored nm v o r :
  2 <= v -> supportedDefault v o = true -> sourceOptions o ->
  follows undescribed (NewDefaultHeadlessRuleItems nm o r) (NewDefaultHeadlessRuleItems nm (storedDefault v false o) (undescribed r)).
Proof.
  intros Hv Hs Ho. unfold supportedDefault in Hs. repeat rewrite andb_true_iff in Hs. destruct Hs as [[[[[Hsrc Hip] _] _] _] _].
  unfold NewDefaultHeadlessRuleItems, storedDefault. cbn [andb h_QueryType h_Network h_Domain h_DomainSuffix h_DomainKeyword
    h_DomainRegex h_SourceIPCIDR h_IPCIDR h_SourcePort h_SourcePortRange h_Port h_PortRange h_ProcessName h_ProcessPath
    h_ProcessPathRegex h_PackageName h_PackageNameRegex h_NetworkType h_NetworkIsExpensive h_NetworkIsConstrained h_WIFISSID
    h_WIFIBSSID h_NetworkInterfaceAddress h_DefaultInterfaceAddress h_DomainMatcher h_SourceIPSet h_IPSet h_AdGuardDomain
    h_AdGuardDomainMatcher].
  rewrite (proj2 (Z.eqb_neq v RuleSetVersion1)) by (unfold RuleSetVersion1; lia).
  change (nonEmpty (@nil string)) with false. cbn [orb].
  rewrite (so_DomainMatcher o Ho), (so_SourceIPSet o Ho), (so_IPSet o Ho), (so_AdGuardDomainMatcher o Ho).
  do 2 same_step.
  eapply (follows_bind undescribed); [|intros rd _].
  { destruct (nonEmpty (h_Domain o) || _); [|by intros x [= <-]]. apply follows_add; [done|]. intros _. apply follows_domain. }
  do 2 same_step.
  eapply (follows_bind undescribed); [|intros rs _].
  { destruct (nonEmpty (h_SourceIPCIDR o)); [|by intros x [= <-]]. cbn [negb orb] in Hsrc.
    destruct (setOf (h_SourceIPCIDR o)) eqn:E; [|done]. apply follows_add; [done|]. intros _. by apply follows_cidr. }
  eapply (follows_bind undescribed); [|intros ri _].
  { destruct (nonEmpty (h_IPCIDR o)); [|by intros x [= <-]]. cbn [negb orb] in Hip.
    destruct (setOf (h_IPCIDR o)) eqn:E; [|done]. apply follows_add; [done|]. intros _. by apply follows_cidr. }
  do 14 same_step.
  eapply (follows_bind undescribed); [|intros rn _].
  { apply follows_add; [by destruct (typedMapEmpty (h_NetworkInterfaceAddress o)) eqn:E; rewrite ?E|]. intros H.
    destruct (typedMapEmpty (h_NetworkInterfaceAddress o)); [by destruct nm|]. by apply follows_same_item. }
  same_step.
  destruct (nonEmpty (h_AdGuardDomain o)); [|by intros x [= <-]]. apply follows_add; [done|]. intros _ x [= <-]. done.
Qed.

(** ** Validity and metadata *)

Lemma otherSet_stored v o :
  supportedDefault v o = true -> sourceOptions o ->
  existsb id (DefaultHeadlessRule_otherSet (storedDefault v false o)) = existsb id (DefaultHeadlessRule_otherSet o).
Proof.
  intros Hs Ho. unfold supportedDefault in Hs. repeat rewrite andb_true_iff in Hs. destruct Hs as [[[[[Hsrc _] _] _] _] _].
  unfold DefaultHeadlessRule_otherSet, storedDefault. cbn. unfold id.
  rewrite (so_DomainMatcher o Ho), (so_SourceIPSet o Ho), (so_AdGuardDomainMatcher o Ho), (so_EmptyLists o Ho).
  change (nonEmpty (@nil string)) with false.
  replace (isSome (if typedMapEmpty (h_NetworkInterfaceAddress o) then None else h_NetworkInterfaceAddress o)) with (isSome (h_NetworkInterfaceAddress o)).
  2: { pose proof (so_NetworkInterfaceAddress o Ho). by destruct (h_NetworkInterfaceAddress o) as [[|]|]. }
  replace (isSome (if nonEmpty (h_SourceIPCIDR o) then @setOf L (h_SourceIPCIDR o) else None)) with (nonEmpty (h_SourceIPCIDR o)).
  2: { destruct (nonEmpty (h_SourceIPCIDR o)); [|done]. by destruct (setOf _). }
  destruct (nonEmpty (h_Domain o)), (nonEmpty (h_DomainSuffix o)), (nonEmpty (h_SourceIPCIDR o)), (nonEmpty (h_AdGuardDomain o));
    cbn [orb isSome]; rewrite ?orb_true_r, ?orb_false_r; reflexivity.
Qed.
Lemma isIPCIDR_stored v o :
  supportedDefault v o = true -> sourceOptions o -> isIPCIDRHeadlessRule (storedDefault v false o) = isIPCIDRHeadlessRule o.
Proof.
  intros Hs Ho. unfold supportedDefault in Hs. repeat rewrite andb_true_iff in Hs. destruct Hs as [[[[[_ Hip] _] _] _] _].
  unfold isIPCIDRHeadlessRule, storedDefault. cbn. rewrite (so_IPSet o Ho).
  destruct (nonEmpty (h_IPCIDR o)); [|done]. by destruct (setOf _).
Qed.
Lemma IsValid_stored v o :
  supportedDefault v o = true -> sourceOptions o ->
  DefaultHeadlessRuleOptions_IsValid (storedDefault v false o) = DefaultHeadlessRuleOptions_IsValid o.
Proof.
  intros Hs Ho. unfold DefaultHeadlessRuleOptions_IsValid. rewrite otherSet_stored by done.
  pose proof (isIPCIDR_stored v o Hs Ho) as E. unfold isIPCIDRHeadlessRule in E. rewrite (so_EmptyIPCIDR o Ho).
  rewrite <- !orb_assoc. f_equal. rewrite !orb_assoc, E. cbn [storedDefault h_EmptyIPCIDR]. reflexivity.
Qed.

Lemma supported_rules v rules : forallb (supported v) rules = true <-> Forall (fun r => supported v r = true) rules.
Proof. rewrite forallb_forall, List.Forall_forall. done. Qed.

Lemma HasHeadlessRule1_stored v cond rule :
  (forall o, supportedDefault v o = true -> sourceOptions o -> cond (storedDefault v false o) = cond o) ->
  supported v rule = true -> sourceRule rule -> HasHeadlessRule1 cond (stored v false rule) = HasHeadlessRule1 cond rule.
Proof.
  intros Hc. induction rule as [typ d mode rules inv IH] using HeadlessRuleOptions_nested_ind.
  cbn [supported sourceRule stored HasHeadlessRule1]. destruct (String.eqb typ RuleTypeDefault); [by apply Hc|].
  destruct (String.eqb typ RuleTypeLogical); [|done]. cbn [andb]. intros [_ Hs]%andb_true_iff Ho%sourceRules_Forall.
  cbn [HasHeadlessRule1 String.eqb Ascii.eqb Bool.eqb RuleTypeLogical RuleTypeDefault emptyHeadless].
  apply supported_rules in Hs. induction rules as [|r rules IHr]; [done|]. cbn [map existsb].
  rewrite (Forall_inv IH (Forall_inv Hs) (Forall_inv Ho)). f_equal.
  apply IHr; [apply (Forall_inv_tail IH)|apply (Forall_inv_tail Hs)|apply (Forall_inv_tail Ho)].
Qed.
Lemma buildRuleSetMetadata_stored v rules :
  Forall (fun r => supported v r = true) rules -> Forall sourceRule rules ->
  buildRuleSetMetadata (map (stored v false) rules) = buildRuleSetMetadata rules.
Proof.
  intros Hs Ho.
  assert (H : forall cond, (forall o, supportedDefault v o = true -> sourceOptions o -> cond (storedDefault v false o) = cond o) ->
    HasHeadlessRule (map (stored v false) rules) cond = HasHeadlessRule rules cond).
  { intros cond Hc. unfold HasHeadlessRule. induction rules as [|r rules IH]; [done|]. cbn [map existsb].
    rewrite (HasHeadlessRule1_stored v cond r Hc (Forall_inv Hs) (Forall_inv Ho)). f_equal.
    apply IH; [apply (Forall_inv_tail Hs)|apply (Forall_inv_tail Ho)]. }
  unfold buildRuleSetMetadata. f_equal; apply H; try done.
  - intros. by apply isIPCIDR_stored.
  - intros. by apply otherSet_stored.
Qed.

(** ** Rules built from a file *)

Lemma all_result_stored v rules :
  Forall (fun r => HeadlessRuleOptions_IsValid (stored v false r) = HeadlessRuleOptions_IsValid r) rules ->
  all_result HeadlessRuleOptions_IsValid (map (stored v false) rules) = all_result HeadlessRuleOptions_IsValid rules.
Proof.
  induction 1 as [|r rules Hr _ IH]; [done|]. cbn [map all_result] in *. rewrite Hr.
  destruct (HeadlessRuleOptions_IsValid r) as [[]|]; [exact IH|done|done].
Qed.
Lemma LogicalIsValid_eq mode rules inv :
  LogicalHeadlessRuleOptions_IsValid (mkLogicalHeadlessRuleOptions mode rules inv)
  = if nonEmpty rules then all_result HeadlessRuleOptions_IsValid rules else Ok false.
Proof. reflexivity. Qed.
Lemma RuleIsValid_stored v rule :
  supported v rule = true -> sourceRule rule -> HeadlessRuleOptions_IsValid (stored v false rule) = HeadlessRuleOptions_IsValid rule.
Proof.
  induction rule as [typ d mode rules inv IH] using HeadlessRuleOptions_nested_ind. cbn [supported sourceRule stored].
  destruct (String.eqb_spec typ RuleTypeDefault) as [->|]; [intros; cbn; f_equal; by apply IsValid_stored|].
  destruct (String.eqb_spec typ RuleTypeLogical) as [->|]; [|done]. cbn [andb]. intros [_ Hs]%andb_true_iff Ho%sourceRules_Forall.
  change (LogicalHeadlessRuleOptions_IsValid (mkLogicalHeadlessRuleOptions mode (map (stored v false) rules) inv)
          = LogicalHeadlessRuleOptions_IsValid (mkLogicalHeadlessRuleOptions mode rules inv)).
  rewrite !LogicalIsValid_eq, nonEmpty_map. destruct (nonEmpty rules); [|done]. apply all_result_stored.
  apply supported_rules in Hs. rewrite List.Forall_forall in *. auto.
Qed.

Lemma follows_mapi {A B} (g : A -> A) (k k' : nat -> A -> result B) (u : B -> B) l : forall i,
  Forall (fun x => forall i, follows u (k i x) (k' i (g x))) l -> follows (map u) (mapi_result k i l) (mapi_result k' i (map g l)).
Proof.
  induction l as [|x l IH]; intros i H; [by intros y [= <-]|]. cbn [map mapi_result].
  eapply follows_bind; [apply (Forall_inv H)|]. intros y _. eapply follows_bind; [apply IH, (Forall_inv_tail H)|].
  intros ys _ z [= <-]. done.
Qed.

Lemma NewHeadlessRule_default nm d l :
  NewHeadlessRule nm (mkHeadlessRuleOptions RuleTypeDefault d l)
  = if negb (DefaultHeadlessRuleOptions_IsValid d) then Err (E_New "missing conditions") else NewDefaultHeadlessRule nm d.
Proof. reflexivity. Qed.
Lemma NewHeadlessRule_logical nm d mode rules inv :
  NewHeadlessRule nm (mkHeadlessRuleOptions RuleTypeLogical d (mkLogicalHeadlessRuleOptions mode rules inv))
  = let? valid := HeadlessRuleOptions_IsValid (mkHeadlessRuleOptions RuleTypeLogical d (mkLogicalHeadlessRuleOptions mode rules inv)) in
    if negb valid then Err (E_New "missing conditions")
    else let? mode := checkMode mode in
         let? rules := mapi_result (fun i sub => result_cause (NewHeadlessRule nm sub) (subRuleMessage i)) 0 rules in
         Ok (LogicalHeadlessRule (mkLogicalRule rules mode inv None)).
Proof. reflexivity. Qed.

Lemma NewHeadlessRule_stored nm v rule :
  2 <= v -> supported v rule = true -> sourceRule rule ->
  follows undescribedRule (NewHeadlessRule nm rule) (NewHeadlessRule nm (stored v false rule)).
Proof.
  intros Hv. induction rule as [typ d mode rules inv IH] using HeadlessRuleOptions_nested_ind. intros Hs Ho.
  pose proof (RuleIsValid_stored v _ Hs Ho) as Hvalid. cbn [supported sourceRule stored] in *.
  destruct (String.eqb_spec typ RuleTypeDefault) as [->|].
  - rewrite !NewHeadlessRule_default. rewrite IsValid_stored by done.
    destruct (negb _); [done|]. unfold NewDefaultHeadlessRule. eapply follows_bind.
    + apply (headlessItems_stored nm v d (emptyRule (h_Invert d) None)); done.
    + by intros r _ x [= <-].
  - destruct (String.eqb_spec typ RuleTypeLogical) as [->|]; [|done]. cbn [andb] in Hs. apply andb_true_iff in Hs as [_ Hs].
    apply sourceRules_Forall in Ho. apply supported_rules in Hs. rewrite !NewHeadlessRule_logical, Hvalid.
    apply (follows_bind id); [by intros x ->|]. intros valid _. destruct (negb valid) eqn:E; unfold id; rewrite E; [done|].
    apply (follows_bind id); [by intros x ->|]. intros mode' _.
    eapply (follows_bind (map undescribedRule)); [|by intros rs _ x [= <-]]. apply follows_mapi.
    rewrite List.Forall_forall in *. intros r Hr i. apply follows_cause. auto.
Qed.

(** C9 A rule-set behaves the same compiled as in source form, if its rules are
    nested at most 100 deep, have no empty list or map in their options, which
    the file does not keep, and no matcher or address set of a compiled file, and
    their values fit their types.  If such a rule-set loads and is written as
    version 2 or later, the file is read back,
    loads with the same metadata, and every rule that refers to the rule-set is
    matched in the same way, with the same effect on the connection's metadata. *)
Theorem compiled_rule_set nm validate v rules s s1 data :
  2 <= v <= RuleSetVersionCurrent -> small rules -> Forall plainRule rules -> Forall sourceRule rules ->
  Forall (fun r => (nesting r <= maxLogicalRuleDepth)%nat) rules ->
  reloadRules nm validate rules s = Ok s1 -> srs_Write rules v = Ok data ->
  exists options s2, srs_Read false data = Ok (v, options) /\ reloadRules nm validate options s = Ok s2
    /\ RuleSet_Metadata s2 = RuleSet_Metadata s1
    /\ forall env tags before after matchSource acceptEmpty m groups,
         matchWithOuterGroups env (mkRuleSetItem tags (before ++ s2 :: after) matchSource acceptEmpty) m groups
         = matchWithOuterGroups env (mkRuleSetItem tags (before ++ s1 :: after) matchSource acceptEmpty) m groups.
Proof.
  intros Hv Hsm Hp Hsrc Hn Hload Hw.
  assert (Hs : forallb (supported v) rules = true).
  { apply result_bind_Ok in Hw as (b & Hb & _). apply writeAll_Ok in Hb as [Hb _]. cbn [forallb is_ok andb] in Hb.
    rewrite forallb_map_ok in Hb. rewrite <- Hb. apply forallb_ext_Forall, List.Forall_forall. intros r _. by rewrite writeRule_ok. }
  rewrite (srs_Write_Ok _ _ Hs) in Hw.
  assert (data = MagicBytes ++ [v mod 256] ++ zlib_Compress (contentOf rules v)) as -> by congruence. destruct s as [tag old md]. cbn [reloadRules] in Hload.
  apply result_bind_Ok in Hload as (built & Hbuilt & Hload). apply result_bind_Ok in Hload as ([] & Hvalid & [= <-]).
  exists (map (stored v false) rules), (mkRuleSet tag (map undescribedRule built) (buildRuleSetMetadata rules)).
  split_and!.
  - rewrite srs_Read_content by lia. rewrite readContent_write; [done..|]. eapply List.Forall_impl; [|exact Hn]. cbn beta. lia.
  - cbn [reloadRules]. apply supported_rules in Hs.
    erewrite (follows_mapi (stored v false)); [cbn [result_bind]|..|exact Hbuilt].
    + rewrite buildRuleSetMetadata_stored by done. by rewrite Hvalid.
    + rewrite List.Forall_forall in *. intros r Hr i. apply follows_cause, NewHeadlessRule_stored; [lia|auto|auto].
  - done.
  - intros. apply matchWithOuterGroups_same, sameSet_undescribed.
Qed.
End compiled.
