(* ===== verification/SrsExamples.v ===== *)
(** * Rule-set files: a concrete instance

    The libraries of rule-set files instantiated by simple codecs, and the
    theorems applied to a small rule-set. *)

From S2P Require Import Prelude.
From S2P Require Import GoText.
From S2P Require Import Bytes.
From S2P Require Import NetIP.
From S2P Require Import Libs.
From S2P Require Import Metadata.
From S2P Require Import RuleItems.
From S2P Require Import RuleAction.
From S2P Require Import RuleEngine.
From S2P Require Import RuleOptions.
From S2P Require Import RuleBuild.
From S2P Require Import Srs.
From S2P Require Import SrsTheorems.
From S2P Require Import SrsRoundtrip.
From S2P Require Import SrsRules.
Local Open Scope string_scope.
Local Open Scope list_scope.
Local Open Scope Z_scope.

(** ** Codecs *)

(** A number as its bits. *)
Fixpoint writeCode (p : positive) : list Z :=
  match p with xH => [0] | xO p => 1 :: writeCode p | xI p => 2 :: writeCode p end.
Fixpoint readCode (reader : list Z) : result (positive * list Z) :=
  match reader with
  | [] => Err ErrEOF
  | 0 :: reader => Ok (xH, reader)
  | 1 :: reader => let? '(p, reader) := readCode reader in Ok (xO p, reader)
  | 2 :: reader => let? '(p, reader) := readCode reader in Ok (xI p, reader)
  | _ => Err ErrInvalid
  end.
Lemma readCode_write p rest : readCode (writeCode p ++ rest) = Ok (p, rest).
Proof. induction p as [p IH|p IH|]; cbn; by rewrite ?IH. Qed.
Lemma readCode_outcome reader : outcome (fun _ => True) 1 reader (readCode reader).
Proof.
  induction reader as [|b reader IH]; [done|].
  assert (Hb : forall f, outcome (fun _ => True) 1 (b :: reader) (let? '(p, reader) := readCode reader in Ok (f p : positive, reader))).
  { intros f. unfold outcome in *. destruct (readCode reader) as [[p rest]|]; [|done]. cbn.
    destruct IH as (_ & Hs & Hl). split_and!; [done|by apply suffix_cons_r|lia]. }
  cbn [readCode]. destruct b as [|[[|[]|]|[[]|[]|]|]|]; try done; try apply Hb.
  split_and!; [done|by apply suffix_cons_r|cbn; lia].
Qed.
Definition readAs {A} `{Countable A} (reader : list Z) : result (A * list Z) :=
  let? '(p, reader) := readCode reader in
  match decode p with Some x => Ok (x, reader) | None => Err ErrInvalid end.
Lemma readAs_write {A} `{Countable A} (x : A) rest : readAs (writeCode (encode x) ++ rest) = Ok (x, rest).
Proof. unfold readAs. rewrite readCode_write. cbn. by rewrite decode_encode. Qed.
Lemma consuming_outcome {A} (read : list Z -> result (A * list Z)) :
  (forall reader, outcome (fun _ => True) 1 reader (read reader)) -> consuming read.
Proof. intros H reader. specialize (H reader). unfold outcome in H. destruct (read reader) as [[x rest]|]; [|done]. intuition lia. Qed.
Lemma readAs_consuming {A} `{Countable A} : consuming (readAs (A := A)).
Proof.
  apply consuming_outcome. intros reader. apply (outcome_bind (fun _ => True)); [apply readCode_outcome|].
  intros p rest _ _. destruct (decode p); [by apply outcome_Ok|done].
Qed.


(** A slice: its length and its elements of [width] bytes. *)
Fixpoint chunks (n width : nat) (reader : list Z) : list Z :=
  match n with O => [] | S n => be_value (take width reader) :: chunks n width (drop width reader) end.
Definition ref_ReadSlice (width : nat) (reader : list Z) : result (list Z * list Z) :=
  let? '(n, reader) := ReadUvarint reader in
  if Z.of_nat (length reader) <? n * Z.of_nat width then Err ErrEOF
  else Ok (chunks (Z.to_nat n) width reader, drop (Z.to_nat n * width) reader).
Lemma ref_ReadSlice_consuming width : consuming (ref_ReadSlice width).
Proof.
  apply consuming_outcome. intros reader. apply (outcome_bind (fun _ => True)); [apply ReadUvarint_outcome|].
  intros n rest _ _. destruct (_ <? _); [done|]. split_and!; [done| |rewrite length_drop; lia].
  exists (take (Z.to_nat n * width) rest). by rewrite take_drop.
Qed.
Lemma chunks_elements width l rest :
  Forall (fun x => 0 <= x < 256 ^ Z.of_nat width) l ->
  chunks (length l) width (concat (map (be_bytes width) l) ++ rest) = l.
Proof.
  induction l as [|x l IH]; intros H; [done|]. cbn [length chunks map concat]. rewrite <- app_assoc.
  rewrite take_app_length', drop_app_length' by (by rewrite be_bytes_length).
  by rewrite be_value_bytes_small, IH by (apply (Forall_inv H) || apply (Forall_inv_tail H)).
Qed.
Lemma elements_length width l : length (concat (map (be_bytes width) l)) = (length l * width)%nat.
Proof. induction l as [|x l IH]; [done|]. cbn. rewrite length_app, be_bytes_length, IH. done. Qed.
Lemma ref_ReadSlice_elements width l rest :
  Z.of_nat (length l) < 2 ^ 64 -> Forall (fun x => 0 <= x < 256 ^ Z.of_nat width) l ->
  ref_ReadSlice width (uvarint (Z.of_nat (length l)) ++ concat (map (be_bytes width) l) ++ rest) = Ok (l, rest).
Proof.
  intros Hl Hx. unfold ref_ReadSlice. rewrite ReadUvarint_uvarint by lia. cbn [result_bind].
  rewrite (proj2 (Z.ltb_ge _ _)) by (rewrite length_app, elements_length; lia).
  rewrite Nat2Z.id, chunks_elements by done. rewrite drop_app_length' by (by rewrite elements_length). done.
Qed.

Definition ref_Put (m : list (Z * list Prefix)) (k : Z) (v : list Prefix) : list (Z * list Prefix) :=
  if bool_decide (k ∈ map fst m) then map (fun e => if fst e =? k then (k, v) else e) m else m ++ [(k, v)].

Definition setCode (s : list (Prefix + Addr)) : list (Addr * Addr) :=
  map (fun b => (Addr4 b, Addr4 b)) (writeCode (encode s)).
Definition setDecode (l : list (Addr * Addr)) : list (Prefix + Addr) :=
  match readAs (map (fun r => Addr.bits (fst r)) l) with Ok (s, _) => s | Err _ => [] end.
Lemma writeCode_small p : Forall (fun b => 0 <= b < 3) (writeCode p).
Proof. induction p as [p IH|p IH|]; cbn; (constructor; [lia|]); [exact IH|exact IH|constructor]. Qed.
Lemma setCode_wf s : Forall (fun r : Addr * Addr => (Addr.wf (fst r) /\ Addr.IsValid (fst r) = true /\ Addr.hasZone (fst r) = false)
  /\ Addr.wf (snd r) /\ Addr.IsValid (snd r) = true /\ Addr.hasZone (snd r) = false) (setCode s).
Proof.
  apply List.Forall_map. eapply List.Forall_impl; [|apply writeCode_small]. intros b Hb.
  cbn beta in Hb. assert (0 <= b < 2 ^ 32) by lia. done.
Qed.
Lemma setDecode_code s : setDecode (setCode s) = s.
Proof.
  unfold setDecode, setCode. rewrite map_map. cbn [fst Addr.bits]. rewrite map_id.
  rewrite <- (app_nil_r (writeCode _)), readAs_write. done.
Qed.

Definition ref_srs : @SrsLibs ref_libs.
Proof.
  refine (Build_SrsLibs ref_libs (fun m : list string * list string => writeCode (encode m)) (readAs (A := list string * list string))
    (fun m => m) (fun m : list string => writeCode (encode m)) (readAs (A := list string)) (fun m => m)
    setCode setDecode (fun _ => []) ref_ReadSlice ref_Put (fun l => l) (fun l => Ok l) _ _ _ _ _ _ _ _ _ _ _).
  - intros. apply readAs_write.
  - apply readAs_consuming.
  - intros. apply readAs_write.
  - apply readAs_consuming.
  - apply setCode_wf.
  - apply setDecode_code.
  - apply ref_ReadSlice_elements.
  - apply ref_ReadSlice_consuming.
  - intros m k v Hk. unfold ref_Put. by rewrite bool_decide_false.
  - done.
  - done.
Defined.

(** ** A rule-set *)

(** Nested once: a domain suffix, or a range of ports of a query that is not inverted. *)
Definition suffixOptions : DefaultHeadlessRuleOptions :=
  let r := emptyHeadless (L := ref_libs) in {| r with h_DomainSuffix := ["example.com"]; h_Invert := true |}.
Definition portOptions : DefaultHeadlessRuleOptions :=
  let r := emptyHeadless (L := ref_libs) in
  {| r with h_Port := [53; 443]; h_PortRange := ["1000:2000"]; h_NetworkInterfaceAddress := Some [(1, [mkPrefix (Addr4 10) 8])];
     h_NetworkIsExpensive := true |}.
Definition ruleOf (o : DefaultHeadlessRuleOptions (L := ref_libs)) : HeadlessRuleOptions :=
  mkHeadlessRuleOptions RuleTypeDefault o emptyLogicalHeadless.
Definition orOf (rules : list (HeadlessRuleOptions (L := ref_libs))) : HeadlessRuleOptions :=
  mkHeadlessRuleOptions RuleTypeLogical emptyHeadless (mkLogicalHeadlessRuleOptions LogicalTypeOr rules false).
Definition exampleRules : list (HeadlessRuleOptions (L := ref_libs)) := [orOf [ruleOf suffixOptions; ruleOf portOptions]].

Lemma exampleRules_small : small exampleRules.
Proof. unfold small. cbn. lia. Qed.
Ltac plain_field := unfold smallStrings, uints, small, smallSet, setOf, plainPrefixes, plainInterfaces; cbn;
  split_and?; repeat constructor; try done; try lia; try apply not_elem_of_nil.
Lemma exampleRules_plain : Forall (plainRule (SL := ref_srs)) exampleRules.
Proof.
  constructor; [|constructor]. split; [unfold small; cbn; lia|]. split; [|split; [|done]]; (constructor; plain_field).
Qed.
Lemma exampleRules_source : Forall (sourceRule (L := ref_libs)) exampleRules.
Proof. constructor; [|constructor]. split; [|split; [|done]]; by constructor. Qed.

Lemma srs_roundtrip_witness :
  exists data, srs_Write (SL := ref_srs) exampleRules 4 = Ok data
  /\ srs_Read (SL := ref_srs) true data = Ok (4, map (stored (SL := ref_srs) 4 true) exampleRules).
Proof.
  pose proof (srs_roundtrip (SL := ref_srs) true exampleRules 4 ltac:(unfold RuleSetVersionCurrent, RuleSetVersion5; lia)
    exampleRules_small exampleRules_plain) as H.
  assert (E : forallb (supported (L := ref_libs) 4) exampleRules = true) by reflexivity. rewrite E in H.
  destruct H as (data & Hw & Hr & _). exists data. split; [exact Hw|]. apply Hr. constructor; [by apply Nat.leb_le|constructor].
Defined.

Definition exampleSet : RuleSet (L := ref_libs) := mkRuleSet "example" [] (buildRuleSetMetadata (L := ref_libs) []).
Lemma compiled_rule_set_witness :
  exists s1 s2 data options,
    reloadRules true (fun _ _ => Ok tt) exampleRules exampleSet = Ok s1
    /\ srs_Write (SL := ref_srs) exampleRules 4 = Ok data
    /\ srs_Read (SL := ref_srs) false data = Ok (4, options)
    /\ reloadRules true (fun _ _ => Ok tt) options exampleSet = Ok s2
    /\ RuleSet_Metadata s2 = RuleSet_Metadata s1.
Proof.
  destruct (reloadRules true (fun _ _ => Ok tt) exampleRules exampleSet) as [s1|e] eqn:Hs.
  2: { assert (E : is_ok (reloadRules true (fun _ _ => Ok tt) exampleRules exampleSet) = true) by reflexivity. by rewrite Hs in E. }
  destruct (srs_Write (SL := ref_srs) exampleRules 4) as [data|e] eqn:Hw.
  2: { assert (E : is_ok (srs_Write (SL := ref_srs) exampleRules 4) = true) by reflexivity. by rewrite Hw in E. }
  destruct (compiled_rule_set (SL := ref_srs) true (fun _ _ => Ok tt) 4 exampleRules exampleSet s1 data
    ltac:(unfold RuleSetVersionCurrent, RuleSetVersion5; lia) exampleRules_small exampleRules_plain exampleRules_source
    ltac:(constructor; [by apply Nat.leb_le|constructor]) Hs Hw) as (options & s2 & Hr & Hs2 & Hmd & _).
  exists s1, s2, data, options. by split_and!.
Defined.

(** A file cut short is refused without a panic. *)
Lemma srs_read_total_witness :
  exists e, srs_Read (SL := ref_srs) false (MagicBytes ++ [4; 1; 0; 10; 3]) = Err e /\ isPanic e = false.
Proof.
  pose proof (srs_read_total (SL := ref_srs) false (MagicBytes ++ [4; 1; 0; 10; 3])) as H.
  destruct (srs_Read (SL := ref_srs) false (MagicBytes ++ [4; 1; 0; 10; 3])) as [[v rules]|e] eqn:E; [|by exists e].
  assert (F : is_ok (srs_Read (SL := ref_srs) false (MagicBytes ++ [4; 1; 0; 10; 3])) = false) by reflexivity. by rewrite E in F.
Defined.
