(* ===== verification/TLSFragment.v ===== *)
(** * Fragmenting the client hello: [common/tlsfragment]

    [IndexTLSServerName] finds the server name in the first bytes a client sends
    and [Conn.Write] sends them in pieces that are cut inside the name.  The
    constants of [index.go] are those of the fingerprint parser ([Ja3]).  The
    calls on the connection below are recorded in the order they are made;
    whether one fails, the public suffix of a name and the random numbers are
    arguments of the model. *)

From Stdlib Require Import Ascii.
From S2P Require Import Prelude.
From S2P Require Import GoText.
From S2P Require Import Bytes.
From S2P Require Import Ja3.
Local Open Scope string_scope.
Local Open Scope list_scope.
Local Open Scope Z_scope.

(** ** The server name ([index.go]) *)

Record MyServerName := mkMyServerName {
  sn_Index : Z; sn_Length : Z; sn_ServerName : string; sn_ExtensionsListLengthIndex : Z }.

(** The turns of the loop; [4+exLen] is an [uint16], so a turn need not advance. *)
Fixpoint indexExtensionsLoop (fuel : nat) (currentIndex : Z) (exs : list Z) : result (option MyServerName) :=
  match exs with
  | [] => Ok None
  | _ :: _ =>
      match fuel with
      | O => Err (GoPanic "the loop does not end")
      | S fuel =>
          if len exs <? extensionHeaderLen then Ok None
          else
            let? exType := uint16At exs 0 in
            let? exLen := uint16At exs 2 in
            if len exs <? extensionHeaderLen + exLen then Ok None
            else
              let? sex := slice exs extensionHeaderLen (extensionHeaderLen + exLen) in
              if exType =? sniExtensionType then
                if len sex <? sniExtensionHeaderLen then Ok None
                else
                  let? sniType := index sex 2 in
                  if negb (sniType =? 0) then Ok None
                  else
                    let? sniLen := uint16At sex 3 in
                    let? sex := sliceFrom sex sniExtensionHeaderLen in
                    Ok (Some (mkMyServerName (currentIndex + extensionHeaderLen + sniExtensionHeaderLen) sniLen
                                (bytes_string sex) 0))
              else
                let? exs := sliceFrom exs ((4 + exLen) mod 2 ^ 16) in
                indexExtensionsLoop fuel (currentIndex + 4 + exLen) exs
      end
  end.
Definition indexTLSServerNameFromExtensions (exs : list Z) : result (option MyServerName) :=
  if len exs =? 0 then Ok None
  else if len exs <? extensionsHeaderLen then Ok None
  else
    let? exsLen := uint16At exs 0 in
    let? exs := sliceFrom exs extensionsHeaderLen in
    if len exs <? exsLen then Ok None else indexExtensionsLoop (S (length exs)) extensionsHeaderLen exs.

Definition indexTLSServerNameFromHandshake (handshake : list Z) : result (option MyServerName) :=
  if len handshake <? handshakeHeaderLen + randomDataLen + sessionIDHeaderLen then Ok None
  else
    let? handshakeType := index handshake 0 in
    if negb (handshakeType =? 1) then Ok None
    else
      let? high := index handshake 1 in
      let? low := uint16At handshake 2 in
      if negb (len handshake - 4 =? high * 2 ^ 16 + low) then Ok None
      else
        let? tlsVersion := uint16At handshake 4 in
        if negb (tlsVersionOk tlsVersion) then Ok None
        else
          let? sessionIDLen := index handshake 38 in
          let currentIndex := handshakeHeaderLen + randomDataLen + sessionIDHeaderLen + sessionIDLen in
          if len handshake <? currentIndex then Ok None
          else
            let? cipherSuites := sliceFrom handshake currentIndex in
            if len cipherSuites <? cipherSuiteHeaderLen then Ok None
            else
              let? csLen := uint16At cipherSuites 0 in
              if len cipherSuites <? cipherSuiteHeaderLen + csLen + compressMethodHeaderLen then Ok None
              else
                let? compressMethodLen := index cipherSuites (cipherSuiteHeaderLen + csLen) in
                let currentIndex :=
                  currentIndex + cipherSuiteHeaderLen + csLen + compressMethodHeaderLen + compressMethodLen in
                if len handshake <? currentIndex then Ok None
                else
                  let? exs := sliceFrom handshake currentIndex in
                  let? serverName := indexTLSServerNameFromExtensions exs in
                  match serverName with
                  | None => Ok None
                  | Some s => Ok (Some {| s with sn_Index := sn_Index s + currentIndex; sn_ExtensionsListLengthIndex := currentIndex |})
                  end.

Definition IndexTLSServerName (payload : list Z) : result (option MyServerName) :=
  if len payload <? recordLayerHeaderLen then Ok None
  else
    let? contentType := index payload 0 in
    if negb (contentType =? 22) then Ok None
    else
      let? segmentLen := uint16At payload 3 in
      if len payload <? recordLayerHeaderLen + segmentLen then Ok None
      else
        let? handshake := sliceFrom payload recordLayerHeaderLen in
        let? serverName := indexTLSServerNameFromHandshake handshake in
        match serverName with
        | None => Ok None
        | Some s =>
            Ok (Some {| s with sn_Index := sn_Index s + recordLayerHeaderLen;
                               sn_ExtensionsListLengthIndex := sn_ExtensionsListLengthIndex s + recordLayerHeaderLen |})
        end.

(** ** Writing ([conn.go]) *)

(** The calls on the connection below; [writeAndWaitAck] writes its payload and
    waits for the acknowledgement. *)
Inductive FragmentCall :=
  | CallSetNoDelay (b : bool)
  | CallWriteAndWaitAck (payload : list Z)
  | CallWrite (payload : list Z)
  | CallSleep.

Record FragmentConn := mkFragmentConn {
  f_firstPacketWritten : bool; f_tcpConn : bool; f_splitPacket : bool; f_splitRecord : bool }.

Section fragment.
(** [rand_Intn k n] is the number the [k]-th call of a write gives; [calls tells]
    whether the last of the calls made so far failed. *)
Context (publicSuffix : string -> string) (rand_Intn : nat -> Z -> Z) (calls : list FragmentCall -> option GoError).

(** A call, after the calls made before. *)
Definition perform (call : FragmentCall) (trace : list FragmentCall) : list FragmentCall * result unit :=
  let trace := trace ++ [call] in
  (trace, match calls trace with Some err => Err err | None => Ok tt end).
(** The rest of the function, when the call did not fail. *)
Definition andThen {A} (call : list FragmentCall * result unit)
    (k : list FragmentCall -> list FragmentCall * result A) : list FragmentCall * result A :=
  match call with (trace, Ok _) => k trace | (trace, Err err) => (trace, Err err) end.
Definition fails {A} (trace : list FragmentCall) (r : result A)
    (k : A -> list FragmentCall * result Z) : list FragmentCall * result Z :=
  match r with Ok x => k x | Err err => (trace, Err err) end.

(** [strings.Count(s, ".")] *)
Fixpoint strings_Count_dot (s : string) : nat :=
  match s with
  | EmptyString => 0
  | String c s => (if Ascii.eqb c "."%char then 1 else 0) + strings_Count_dot s
  end%nat.

(** The indexes the payload is cut at. *)
Fixpoint splitIndexesLoop (i : nat) (currentIndex : Z) (splits : list string) : result (list Z) :=
  match splits with
  | [] => Ok []
  | split :: splits =>
      let n := Z.of_nat (String.length split) in
      if n <=? 0 then Err (GoPanic "invalid argument to Intn")
      else
        let splitAt := rand_Intn i n in
        let next := currentIndex + n + (match splits with [] => 0 | _ => 1 end) in
        let? rest := splitIndexesLoop (S i) next splits in
        Ok (currentIndex + splitAt :: rest)
  end.
Definition splitIndexes (serverName : MyServerName) : result (list Z) :=
  let name := sn_ServerName serverName in
  let splits := strings.SplitByte "."%char name in
  let currentIndex := sn_Index serverName in
  let splits :=
    if negb (String.eqb (publicSuffix name) "") then take (length splits - strings_Count_dot name) splits else splits in
  match splits with
  | first :: (_ :: _) as rest =>
      if String.eqb first "..." then splitIndexesLoop 0 (currentIndex + Z.of_nat (String.length first) + 1) (List.tl splits)
      else splitIndexesLoop 0 currentIndex splits
  | _ => splitIndexesLoop 0 currentIndex splits
  end.

(** The payload of turn [i]. *)
Definition fragmentPayload (splitRecord : bool) (b : list Z) (indexes : list Z) (i : nat) : result (list Z) :=
  let at' i := index indexes (Z.of_nat i) in
  if (i =? 0)%nat then
    let? end' := at' i in
    let? payload := slice b 0 end' in
    if splitRecord then sliceFrom payload recordLayerHeaderLen else Ok payload
  else if (i =? length indexes)%nat then let? start := at' (i - 1)%nat in sliceFrom b start
  else let? start := at' (i - 1)%nat in let? end' := at' i in slice b start end'.
(** A record of the version of the client's, around a payload. *)
Definition fragmentRecord (b payload : list Z) : list Z := take 3 b ++ be_bytes 2 (len payload) ++ payload.

(** The loop from turn [i] on, with [turns] to go, and the end of the function. *)
Fixpoint fragmentLoop (turns i : nat) (c : FragmentConn) (b indexes buffer : list Z) (trace : list FragmentCall) :
    list FragmentCall * result Z :=
  match turns with
  | O =>
      let finish trace :=
        if f_tcpConn c then andThen (perform (CallSetNoDelay false) trace) (fun trace => (trace, Ok (len b)))
        else (trace, Ok (len b)) in
      if f_splitRecord c && negb (f_splitPacket c) then andThen (perform (CallWrite buffer) trace) finish else finish trace
  | S turns =>
      fails trace (fragmentPayload (f_splitRecord c) b indexes i) (fun payload =>
        let buffer :=
          if f_splitRecord c then (if f_splitPacket c then [] else buffer) ++ fragmentRecord b payload else buffer in
        let payload := if f_splitRecord c && f_splitPacket c then buffer else payload in
        let next := fragmentLoop turns (S i) c b indexes buffer in
        if f_splitPacket c then
          if f_tcpConn c && negb (i =? length indexes)%nat then andThen (perform (CallWriteAndWaitAck payload) trace) next
          else
            andThen (perform (CallWrite payload) trace) (fun trace =>
              if negb (i =? length indexes)%nat then next (trace ++ [CallSleep]) else next trace)
        else next trace)
  end.

Definition Conn_Write (c : FragmentConn) (b : list Z) : FragmentConn * (list FragmentCall * result Z) :=
  let pass trace := andThen (perform (CallWrite b) trace) (fun trace => (trace, Ok (len b))) in
  if negb (f_firstPacketWritten c) && negb (len b =? 0) then
    ({| c with f_firstPacketWritten := true |},
     fails [] (IndexTLSServerName b) (fun serverName =>
       match serverName with
       | None => pass []
       | Some serverName =>
           let cut trace := fails trace (splitIndexes serverName) (fun indexes =>
             fragmentLoop (S (length indexes)) 0 c b indexes [] trace) in
           if f_splitPacket c && f_tcpConn c then andThen (perform (CallSetNoDelay true) []) cut else cut []
       end))
  else (c, pass []).
End fragment.
