(* ===== verification/TLSFragmentTheorems.v ===== *)
(** * Fragmenting the client hello: what is sent *)

From Stdlib Require Import Ascii.
From S2P Require Import Prelude.
From S2P Require Import GoText.
From S2P Require Import Bytes.
From S2P Require Import Ja3.
From S2P Require Import Ja3Theorems.
From S2P Require Import TLSFragment.
Local Open Scope string_scope.
Local Open Scope list_scope.
Local Open Scope Z_scope.

(** ** The index of the name *)

(** The name is in the bytes, at its index from [base]. *)
Definition nameAt (base : Z) (l : list Z) (s : MyServerName) : Prop :=
  exists pre post, l = pre ++ string_bytes (sn_ServerName s) ++ post /\ sn_Index s = base + len pre.
(** The search gives an answer, and a name that it finds is in the bytes. *)
Definition indexes (base : Z) (l : list Z) (r : result (option MyServerName)) : Prop :=
  exists o, r = Ok o /\ forall s, o = Some s -> nameAt base l s.
Lemma indexes_None base l : indexes base l (Ok None).
Proof. by exists None. Qed.
Lemma nameAt_prefix base p l s s' :
  nameAt base l s -> sn_ServerName s' = sn_ServerName s -> sn_Index s' - len p = sn_Index s -> nameAt base (p ++ l) s'.
Proof.
  intros (pre & post & -> & Hi) Hn Hi'. exists (p ++ pre), post. rewrite Hn, <- app_assoc, len_app. split; [done|lia].
Qed.
Lemma nameAt_base base d l s : nameAt (base + d) l s -> forall s', sn_ServerName s' = sn_ServerName s ->
  sn_Index s' = sn_Index s - d -> nameAt base l s'.
Proof. intros (pre & post & -> & Hi) s' Hn Hi'. exists pre, post. rewrite Hn. split; [done|lia]. Qed.

Lemma drop_split (l : list Z) i r : sliceFrom l i = Ok r -> exists p, l = p ++ r /\ len p = i.
Proof.
  unfold sliceFrom. destruct (Z.leb_spec 0 i), (Z.leb_spec i (len l)); try done. intros [= <-].
  exists (take (Z.to_nat i) l). rewrite take_drop. split; [done|]. unfold len in *. rewrite length_take. lia.
Qed.

Lemma indexExtensionsLoop_indexes : forall fuel i exs,
  bytes_ok exs -> len exs < 2 ^ 16 -> (length exs < fuel)%nat -> indexes i exs (indexExtensionsLoop fuel i exs).
Proof.
  induction fuel as [|fuel IH]; intros i exs Hb Hl Hf; [lia|]. destruct exs as [|x exs'] eqn:Hexs; [apply indexes_None|].
  cbn [indexExtensionsLoop]. rewrite <- Hexs in *. clear x exs' Hexs. unfold extensionHeaderLen, sniExtensionHeaderLen.
  destruct (Z.ltb_spec (len exs) 4); [apply indexes_None|].
  destruct (uint16At_ok exs 0 Hb) as (exType & -> & Ht); [lia..|]. cbn [result_bind].
  destruct (uint16At_ok exs 2 Hb) as (exLen & -> & Hn); [lia..|]. cbn [result_bind].
  destruct (Z.ltb_spec (len exs) (4 + exLen)); [apply indexes_None|].
  destruct (slice_ok exs 4 (4 + exLen) Hb) as (sex & -> & Hsl & Hsb & Hsex); [lia..|]. cbn [result_bind].
  destruct (exType =? sniExtensionType).
  - destruct (Z.ltb_spec (len sex) 5); [apply indexes_None|]. destruct (index_ok sex 2 Hsb) as (b & -> & _); [lia|].
    cbn [result_bind]. destruct (negb _); [apply indexes_None|]. destruct (uint16At_ok sex 3 Hsb) as (n & -> & _); [lia..|].
    cbn [result_bind]. destruct (sliceFrom_ok sex 5 Hsb) as (name & Es & _ & Hnb & _); [lia|]. rewrite Es. cbn [result_bind].
    eexists. split; [done|]. intros s [= <-]. destruct (drop_split _ _ _ Es) as (p & -> & Hp).
    exists (take 4 exs ++ p), (drop (Z.to_nat (4 + exLen)) exs). cbn [sn_ServerName sn_Index]. rewrite string_bytes_string by done.
    rewrite len_app, Hp. split; [|unfold len in *; rewrite length_take; lia].
    rewrite <- app_assoc, (app_assoc p), Hsex. replace (Z.to_nat (4 + exLen)) with (4 + Z.to_nat exLen)%nat by lia.
    replace (Z.to_nat (4 + exLen - 4)) with (Z.to_nat exLen) by lia. change (Z.to_nat 4) with 4%nat.
    by rewrite <- drop_drop, take_drop, take_drop.
  - rewrite Z.mod_small by (unfold len in *; lia). destruct (sliceFrom_ok exs (4 + exLen) Hb) as (rest & Es & Hrl & Hrb & _); [lia|].
    rewrite Es. cbn [result_bind]. destruct (IH (i + 4 + exLen) rest Hrb) as (o & -> & Ho); [lia|unfold len in *; lia|].
    exists o. split; [done|]. intros s Hs. destruct (drop_split _ _ _ Es) as (p & -> & Hp).
    eapply (nameAt_prefix i p rest {| s with sn_Index := sn_Index s - len p |}); [|done|done].
    eapply (nameAt_base i (4 + exLen) rest s); [|done|cbn; lia]. rewrite Z.add_assoc. by apply Ho.
Qed.

Lemma indexFromExtensions_indexes exs :
  bytes_ok exs -> len exs < 2 ^ 16 -> indexes 0 exs (indexTLSServerNameFromExtensions exs).
Proof.
  intros Hb Hl. unfold indexTLSServerNameFromExtensions, extensionsHeaderLen. destruct (_ =? 0); [apply indexes_None|].
  destruct (Z.ltb_spec (len exs) 2); [apply indexes_None|]. destruct (uint16At_ok exs 0 Hb) as (n & -> & _); [lia..|].
  cbn [result_bind]. destruct (sliceFrom_ok exs 2 Hb) as (rest & Es & Hrl & Hrb & _); [lia|]. rewrite Es. cbn [result_bind].
  destruct (_ <? _); [apply indexes_None|].
  destruct (indexExtensionsLoop_indexes (S (length rest)) 2 rest Hrb) as (o & -> & Ho); [lia..|]. exists o. split; [done|].
  intros s Hs. destruct (drop_split _ _ _ Es) as (p & -> & Hp).
  eapply (nameAt_prefix 0 p rest {| s with sn_Index := sn_Index s - len p |}); [|done|done].
  eapply (nameAt_base 0 2 rest s); [by apply Ho|done|cbn; lia].
Qed.

Lemma indexFromHandshake_indexes hs :
  bytes_ok hs -> len hs < 2 ^ 16 -> indexes 0 hs (indexTLSServerNameFromHandshake hs).
Proof.
  intros Hb Hl. unfold indexTLSServerNameFromHandshake, handshakeHeaderLen, randomDataLen, sessionIDHeaderLen,
    cipherSuiteHeaderLen, compressMethodHeaderLen.
  destruct (Z.ltb_spec (len hs) (6 + 32 + 1)); [apply indexes_None|].
  destruct (index_ok hs 0 Hb) as (t & -> & _); [lia|]. cbn [result_bind]. destruct (negb _); [apply indexes_None|].
  destruct (index_ok hs 1 Hb) as (hi & -> & _); [lia|]. cbn [result_bind].
  destruct (uint16At_ok hs 2 Hb) as (lo & -> & _); [lia..|]. cbn [result_bind]. destruct (negb _); [apply indexes_None|].
  destruct (uint16At_ok hs 4 Hb) as (v & -> & _); [lia..|]. cbn [result_bind]. destruct (negb _); [apply indexes_None|].
  destruct (index_ok hs 38 Hb) as (sl & -> & Hsl); [lia|]. cbn [result_bind].
  destruct (Z.ltb_spec (len hs) (6 + 32 + 1 + sl)); [apply indexes_None|].
  destruct (sliceFrom_ok hs (6 + 32 + 1 + sl) Hb) as (cs & -> & Hcl & Hcb & _); [lia|]. cbn [result_bind].
  destruct (Z.ltb_spec (len cs) 2); [apply indexes_None|].
  destruct (uint16At_ok cs 0 Hcb) as (cl & -> & Hcsl); [lia..|]. cbn [result_bind].
  destruct (Z.ltb_spec (len cs) (2 + cl + 1)); [apply indexes_None|].
  destruct (index_ok cs (2 + cl) Hcb) as (cm & -> & Hcm); [lia|]. cbn [result_bind].
  destruct (Z.ltb_spec (len hs) (6 + 32 + 1 + sl + 2 + cl + 1 + cm)); [apply indexes_None|].
  destruct (sliceFrom_ok hs (6 + 32 + 1 + sl + 2 + cl + 1 + cm) Hb) as (exs & Es & Hxl & Hxb & _); [lia|]. rewrite Es. cbn [result_bind].
  destruct (indexFromExtensions_indexes exs Hxb) as (o & -> & Ho); [lia|]. cbn [result_bind].
  destruct o as [s|]; [|apply indexes_None]. eexists. split; [done|]. intros s' [= <-].
  destruct (drop_split _ _ _ Es) as (p & -> & Hp). apply (nameAt_prefix 0 p exs s); [by apply Ho|done|cbn; lia].
Qed.

(** The search in the bytes of a write that are fewer than 65536. *)
Lemma IndexTLSServerName_indexes b :
  bytes_ok b -> len b < 2 ^ 16 ->
  exists o, IndexTLSServerName b = Ok o
  /\ forall s, o = Some s -> 5 <= sn_Index s /\ nameAt 0 b s.
Proof.
  intros Hb Hl. unfold IndexTLSServerName, recordLayerHeaderLen. destruct (Z.ltb_spec (len b) 5); [by exists None|].
  destruct (index_ok b 0 Hb) as (t & -> & _); [lia|]. cbn [result_bind]. destruct (negb _); [by exists None|].
  destruct (uint16At_ok b 3 Hb) as (n & -> & _); [lia..|]. cbn [result_bind]. destruct (_ <? _); [by exists None|].
  destruct (sliceFrom_ok b 5 Hb) as (hs & Es & Hhl & Hhb & _); [lia|]. rewrite Es. cbn [result_bind].
  destruct (indexFromHandshake_indexes hs Hhb) as (o & -> & Ho); [lia|]. cbn [result_bind].
  destruct o as [s|]; [|by exists None]. eexists. split; [done|]. intros s' [= <-]. cbn [sn_Index sn_ServerName].
  destruct (drop_split _ _ _ Es) as (p & -> & Hp). split.
  - destruct (Ho s eq_refl) as (pre & post & _ & Hi). pose proof (len_nonneg pre). lia.
  - apply (nameAt_prefix 0 p hs s); [by apply Ho|done|cbn; lia].
Qed.

(** ** The name of an encoded client hello *)

Lemma indexExtensionsLoop_step fuel i exType sex rest :
  0 <= exType < 2 ^ 16 -> exType <> 0 -> len (extensionWith exType sex rest) < 2 ^ 16 ->
  indexExtensionsLoop (S fuel) i (extensionWith exType sex rest) = indexExtensionsLoop fuel (i + 4 + len sex) rest.
Proof.
  intros Ht H0 Hlen. unfold extensionWith in *. rewrite !len_app, !len_be in Hlen.
  pose proof (len_nonneg sex). pose proof (len_nonneg rest).
  destruct (be_bytes 2 exType ++ _) as [|b l] eqn:E; [by rewrite be_bytes_2 in E|].
  cbn [indexExtensionsLoop]. rewrite <- !E. clear b l E.
  unfold extensionHeaderLen. rewrite ltb_len by (rewrite !len_app, !len_be; lia).
  rewrite uint16At_head by done. cbn [result_bind].
  rewrite uint16At_app by (rewrite ?len_be; lia). cbn [result_bind].
  rewrite ltb_len by (rewrite !len_app, !len_be; lia).
  rewrite (app_assoc (be_bytes 2 exType)).
  rewrite slice_app by (rewrite len_app, !len_be; lia). cbn [result_bind].
  rewrite (proj2 (Z.eqb_neq _ _)) by done.
  rewrite Z.mod_small by lia. rewrite (app_assoc _ sex).
  by rewrite sliceFrom_app by (rewrite !len_app, !len_be; lia).
Qed.
Lemma indexExtensionsLoop_name fuel i name rest :
  len (extensionWith 0 (extensionBody (ServerNameExt name)) rest) < 2 ^ 16 ->
  indexExtensionsLoop (S fuel) i (extensionWith 0 (extensionBody (ServerNameExt name)) rest)
  = Ok (Some (mkMyServerName (i + 4 + 5) (len name) (bytes_string name) 0)).
Proof.
  intros Hlen. unfold extensionWith in *. set (sex := extensionBody _) in *. rewrite !len_app, !len_be in Hlen.
  pose proof (len_nonneg sex). pose proof (len_nonneg rest). pose proof (len_nonneg name).
  assert (Hsl : len sex = 5 + len name) by (unfold sex; cbn [extensionBody]; rewrite !len_app, !len_be, len_cons, len_nil; lia).
  destruct (be_bytes 2 0 ++ _) as [|b l] eqn:E; [by rewrite be_bytes_2 in E|].
  cbn [indexExtensionsLoop]. rewrite <- !E. clear b l E.
  unfold extensionHeaderLen, sniExtensionHeaderLen. rewrite ltb_len by (rewrite !len_app, !len_be; lia).
  rewrite uint16At_head by done. cbn [result_bind].
  rewrite uint16At_app by (rewrite ?len_be; lia). cbn [result_bind].
  rewrite ltb_len by (rewrite !len_app, !len_be; lia). rewrite (app_assoc (be_bytes 2 0)).
  rewrite slice_app by (rewrite len_app, !len_be; lia). cbn [result_bind Z.eqb sniExtensionType]. rewrite ltb_len by lia.
  unfold sex. cbn [extensionBody]. change ([0] ++ ?r) with (0 :: r). rewrite index_app by by rewrite len_be. cbn [result_bind Z.eqb negb].
  rewrite (app_assoc (be_bytes 2 (len name + 3)) [0] _ : _ ++ 0 :: _ = _).
  rewrite uint16At_app by (rewrite ?len_app, ?len_be, ?len_cons, ?len_nil; lia). cbn [result_bind].
  rewrite (app_assoc _ (be_bytes 2 (len name)) name).
  by rewrite sliceFrom_app by (rewrite !len_app, !len_be, len_cons, len_nil; lia).
Qed.

(** The first server name of a list of extensions. *)
Fixpoint serverNameOf (exts : list helloExtension) : option (list Z) :=
  match exts with [] => None | ServerNameExt name :: _ => Some name | _ :: exts => serverNameOf exts end.

Lemma indexExtensionsLoop_encoded exts : forall fuel i,
  Forall extensionOk exts -> len (extensionsBytes exts) < 2 ^ 16 -> (length (extensionsBytes exts) < fuel)%nat ->
  exists o, indexExtensionsLoop fuel i (extensionsBytes exts) = Ok o
  /\ option_map (fun s => (sn_ServerName s, sn_Length s)) o
     = option_map (fun name => (bytes_string name, len name)) (serverNameOf exts).
Proof.
  induction exts as [|e exts IH]; intros fuel i Hok Hlen Hf; [exists None; by destruct fuel|].
  rewrite extensionsBytes_cons in *. fold (extensionWith (extensionType e) (extensionBody e) (extensionsBytes exts)) in *.
  pose proof (extensionType_range e (Forall_inv Hok)) as Ht. destruct fuel as [|fuel]; [lia|].
  destruct (decide (extensionType e = 0)) as [E|E].
  - destruct e; cbn in E; try done.
    + rewrite indexExtensionsLoop_name by done. by eexists.
    + subst type. destruct (Forall_inv Hok) as [_ Hn]. by destruct Hn; constructor.
  - rewrite indexExtensionsLoop_step by done. pose proof Hlen as Hlen'. unfold len in Hlen'.
    rewrite extensionWith_length in Hlen', Hf.
    replace (serverNameOf (e :: exts)) with (serverNameOf exts) by by destruct e.
    apply IH; [exact (Forall_inv_tail Hok)|unfold len; lia|lia].
Qed.

Lemma indexFromHandshake_encoded h : helloOk h ->
  exists o, indexTLSServerNameFromHandshake (helloHandshake h) = Ok o
  /\ option_map (fun s => (sn_ServerName s, sn_Length s)) o
     = option_map (fun name => (bytes_string name, len name)) (serverNameOf (h_extensions h)).
Proof.
  intros H. rewrite <- frameOf_handshake. pose proof (frameOf_ok h H) as Hfr. set (exs := extensionsBytes (h_extensions h)) in *.
  destruct (frameSuites_fields _ _ Hfr) as (H2 & _ & H5 & H6).
  destruct (frameHandshake_fields _ _ Hfr) as (E0 & E1 & E2 & E4 & E38 & Ecs). cbn zeta in *.
  destruct (frame_lengths _ _ Hfr) as [L1 L2]. pose proof (fo_length _ _ Hfr) as Hlen.
  set (f := frameOf h) in *. set (hs := frameHandshake f exs) in *. set (cs := frameSuites f exs) in *.
  pose proof (len_nonneg (fr_sessionID f)). pose proof (len_nonneg (fr_compression f)). pose proof (len_nonneg (fr_suites f)).
  pose proof (len_nonneg exs).
  unfold indexTLSServerNameFromHandshake, handshakeHeaderLen, randomDataLen, sessionIDHeaderLen, cipherSuiteHeaderLen, compressMethodHeaderLen.
  rewrite ltb_len, E0 by lia. cbn [result_bind Z.eqb Pos.eqb negb]. rewrite E1, E2. cbn [result_bind].
  replace (len hs - 4 =? 0 * 2 ^ 16 + (len hs - 4)) with true by (symmetry; apply Z.eqb_eq; lia). cbn [negb].
  rewrite E4. cbn [result_bind]. rewrite (proj2 (fo_version _ _ Hfr)). cbn [negb]. rewrite E38. cbn [result_bind].
  rewrite ltb_len by lia. change (6 + 32 + 1) with 39. rewrite Ecs. cbn [result_bind].
  rewrite ltb_len, H2 by lia. cbn [result_bind]. rewrite ltb_len by lia. rewrite H5. cbn [result_bind]. rewrite ltb_len by lia.
  assert (Es : sliceFrom hs (39 + len (fr_sessionID f) + 2 + len (fr_suites f) + 1 + len (fr_compression f))
    = Ok (be_bytes 2 (len exs) ++ exs)).
  { destruct (drop_split _ _ _ Ecs) as (p & Ep & Hp). destruct (drop_split _ _ _ H6) as (q & Eq & Hq).
    rewrite Ep, Eq, app_assoc. apply sliceFrom_app. rewrite len_app. lia. }
  rewrite Es. cbn [result_bind]. destruct (drop_split _ _ _ Es) as (p & Ep & Hp). pose proof (len_nonneg p). unfold indexTLSServerNameFromExtensions, extensionsHeaderLen. rewrite len_app, len_be.
  destruct (Z.eqb_spec (Z.of_nat 2 + len exs) 0); [lia|]. rewrite ltb_len by lia.
  rewrite uint16At_head by lia. cbn [result_bind]. rewrite sliceFrom_app by by rewrite len_be. cbn [result_bind]. rewrite ltb_len by lia.
  destruct (indexExtensionsLoop_encoded (h_extensions h) (S (length exs)) 2) as (o & Eo & Ho); [apply H|fold exs; lia|fold exs; lia|].
  fold exs in Eo. rewrite Eo. cbn [result_bind]. destruct o as [s|]; eexists; by split.
Qed.

Lemma serverName_bytes h name : bytes_ok (helloRecord h []) -> serverNameOf (h_extensions h) = Some name -> bytes_ok name.
Proof.
  intros Hb. assert (Hx : bytes_ok (extensionsBytes (h_extensions h))).
  { revert Hb. unfold bytes_ok, helloRecord, helloHandshake, helloBody. rewrite !Forall_app. tauto. }
  clear Hb. revert Hx. induction (h_extensions h) as [|e exts IH]; [done|]. rewrite extensionsBytes_cons. unfold bytes_ok in *.
  rewrite !Forall_app. intros (_ & _ & He & Hx). destruct e; cbn [serverNameOf]; try by apply IH.
  intros [= <-]. cbn [extensionBody] in He. rewrite !Forall_app in He. tauto.
Qed.

(** C24 The server name of any well-formed client hello that fits a record is
    found: the name that is given is the one the client encoded, with its
    length, and it stands at its index in the record.  Without a server name
    extension none is found. *)
Theorem server_name_indexed h :
  helloOk h -> bytes_ok (helloRecord h []) -> len (helloRecord h []) < 2 ^ 16 ->
  match serverNameOf (h_extensions h) with
  | None => IndexTLSServerName (helloRecord h []) = Ok None
  | Some name =>
      exists s, IndexTLSServerName (helloRecord h []) = Ok (Some s)
      /\ sn_Length s = len name /\ slice (helloRecord h []) (sn_Index s) (sn_Index s + sn_Length s) = Ok name
  end.
Proof.
  intros H Hb Hl. destruct (IndexTLSServerName_indexes _ Hb Hl) as (o & E & Ho).
  assert (En : option_map (fun s => (sn_ServerName s, sn_Length s)) o
     = option_map (fun name => (bytes_string name, len name)) (serverNameOf (h_extensions h))).
  { pose proof (ho_length _ H) as Hlen. pose proof (len_nonneg (helloHandshake h)). revert E.
    unfold IndexTLSServerName, helloRecord, recordLayerHeaderLen. rewrite app_nil_r.
    rewrite ltb_len by (rewrite !len_app, !len_be, len_cons, len_nil; lia).
    rewrite (index_app [] 22 _ 0 eq_refl : index ([22] ++ _) 0 = _). cbn [result_bind Z.eqb Pos.eqb negb].
    rewrite (app_assoc [22]). rewrite uint16At_app by (rewrite ?len_app, ?len_be, ?len_cons, ?len_nil; lia).
    cbn [result_bind]. rewrite ltb_len by (rewrite !len_app, !len_be, len_cons, len_nil; lia).
    rewrite (app_assoc ([22] ++ _)). rewrite sliceFrom_app by (rewrite !len_app, !len_be, len_cons, len_nil; lia). cbn [result_bind].
    destruct (indexFromHandshake_encoded h H) as (o' & -> & Ho'). cbn [result_bind]. rewrite <- Ho'.
    destruct o' as [s|]; by intros [= <-]. }
  destruct (serverNameOf (h_extensions h)) as [name|] eqn:Ename; destruct o as [s|]; try done.
  injection En as En El. exists s. split; [done|]. split; [done|].
  destruct (Ho s eq_refl) as (_ & pre & post & Es & Hi). rewrite El, Hi.
  assert (Hn : string_bytes (sn_ServerName s) = name) by (rewrite En; by eapply string_bytes_string, serverName_bytes).
  rewrite Es, Hn. apply slice_app; lia.
Qed.

(** ** Cutting *)

(** The labels of the name that are cut. *)
Definition cutLabels (publicSuffix : string -> string) (name : string) : list string :=
  let labels := strings.SplitByte "."%char name in if String.eqb (publicSuffix name) "" then labels else take 1 labels.
(** The bytes of labels with the dots between them. *)
Fixpoint span (labels : list string) : Z :=
  match labels with
  | [] => 0
  | [l] => Z.of_nat (String.length l)
  | l :: labels => Z.of_nat (String.length l) + 1 + span labels
  end.

Lemma span_cons x y l : span (x :: y :: l) = Z.of_nat (String.length x) + 1 + span (y :: l).
Proof. reflexivity. Qed.
Lemma span_nonneg labels : 0 <= span labels.
Proof.
  induction labels as [|x labels IH]; [done|]. destruct labels; [cbn; lia|]. rewrite span_cons. lia.
Qed.
Lemma SplitByte_count s : length (strings.SplitByte "."%char s) = S (strings_Count_dot s).
Proof.
  induction s as [|c s IH]; [done|]. cbn [strings.SplitByte strings_Count_dot]. destruct (Ascii.eqb c "."%char); cbn; [by rewrite IH|].
  by destruct (strings.SplitByte "."%char s).
Qed.
Lemma SplitByte_head s first labels : strings.SplitByte "."%char s = first :: labels -> first <> "...".
Proof.
  destruct s as [|c s]; cbn; [by intros [= <- <-]|]. destruct (Ascii.eqb_spec c "."%char); [by intros [= <- <-]|].
  destruct (strings.SplitByte "."%char s); intros [= <- <-]; congruence.
Qed.
Lemma SplitByte_span s : span (strings.SplitByte "."%char s) = Z.of_nat (String.length s).
Proof.
  induction s as [|c s IH]; [done|]. cbn [strings.SplitByte]. destruct (Ascii.eqb c "."%char).
  - pose proof (SplitByte_count s). destruct (strings.SplitByte "."%char s) as [|x l]; [done|]. rewrite span_cons, IH. cbn [String.length]. lia.
  - destruct (strings.SplitByte "."%char s) as [|x [|y l]]; [cbn in *; lia..|]. rewrite span_cons in *. cbn [String.length]. lia.
Qed.
Lemma span_take labels : 0 <= span (take 1 labels) <= span labels.
Proof.
  destruct labels as [|x [|y l]]; cbn [take]; [done|cbn [span]; lia|]. pose proof (span_nonneg (y :: l)).
  rewrite span_cons. change (span [x]) with (Z.of_nat (String.length x)). lia.
Qed.

Section write.
Context (publicSuffix : string -> string) (rand_Intn : nat -> Z -> Z) (calls : list FragmentCall -> option GoError).

Lemma splitIndexes_eq s :
  splitIndexes publicSuffix rand_Intn s = splitIndexesLoop rand_Intn 0 (sn_Index s) (cutLabels publicSuffix (sn_ServerName s)).
Proof.
  unfold splitIndexes, cutLabels. set (labels := strings.SplitByte _ _).
  pose proof (SplitByte_count (sn_ServerName s)) as Hc. fold labels in Hc.
  replace (length labels - strings_Count_dot (sn_ServerName s))%nat with 1%nat by lia.
  assert (E : (if negb (String.eqb (publicSuffix (sn_ServerName s)) "") then take 1 labels else labels)
    = (if String.eqb (publicSuffix (sn_ServerName s)) "" then labels else take 1 labels)) by by destruct (String.eqb _ _).
  rewrite E. destruct labels as [|x [|y l]] eqn:El; [by destruct (String.eqb _ _)..|].
  destruct (String.eqb _ ""); cbn [take]; [|done].
  destruct (String.eqb_spec x "..."); [|done]. by apply SplitByte_head in El.
Qed.

(** Indexes in ascending order between two bounds. *)
Fixpoint ascending (lo hi : Z) (idx : list Z) : Prop :=
  match idx with [] => lo <= hi | x :: idx => lo <= x <= hi /\ ascending x hi idx end.
Lemma ascending_low lo lo' hi idx : lo' <= lo -> ascending lo hi idx -> ascending lo' hi idx.
Proof. destruct idx; cbn; [lia|]. intros ? [? ?]. split; [lia|done]. Qed.

Lemma ascending_high lo hi hi' idx : hi <= hi' -> ascending lo hi idx -> ascending lo hi' idx.
Proof. revert lo. induction idx as [|x idx IH]; intros lo Hh; cbn; [lia|]. intros [? ?]. split; [lia|]. by apply IH. Qed.

Hypothesis rand_range : forall k n, 0 < n -> 0 <= rand_Intn k n < n.

(** One index for each label, before a byte of it; the labels stand one after the
    other from [cur] on, with a dot between. *)
Fixpoint cutInLabels (cur : Z) (labels : list string) (idx : list Z) : Prop :=
  match labels, idx with
  | [], [] => True
  | l :: labels, x :: idx =>
      cur <= x < cur + Z.of_nat (String.length l) /\ cutInLabels (cur + Z.of_nat (String.length l) + 1) labels idx
  | _, _ => False
  end.
Lemma cutInLabels_length labels : forall cur idx, cutInLabels cur labels idx -> length idx = length labels.
Proof. induction labels as [|l labels IH]; intros cur [|x idx]; cbn; try done. intros [_ H]. by rewrite (IH _ _ H). Qed.
Lemma cutInLabels_ascending labels : forall cur idx, labels <> [] -> cutInLabels cur labels idx -> ascending cur (cur + span labels) idx.
Proof.
  induction labels as [|l labels IH]; intros cur [|x idx] Hn; [done..|]. cbn [cutInLabels]. intros [Hx H].
  destruct labels as [|l' labels].
  - destruct idx; [|done]. cbn. lia.
  - apply IH in H; [|done]. rewrite span_cons. cbn [ascending]. pose proof (span_nonneg (l' :: labels)). split; [lia|].
    replace (cur + (Z.of_nat (String.length l) + 1 + span (l' :: labels)))
      with (cur + Z.of_nat (String.length l) + 1 + span (l' :: labels)) by lia.
    eapply ascending_low; [|exact H]. lia.
Qed.

Lemma splitIndexesLoop_ok : forall labels i cur,
  Forall (fun l => l <> "") labels ->
  exists idx, splitIndexesLoop rand_Intn i cur labels = Ok idx /\ cutInLabels cur labels idx.
Proof.
  induction labels as [|l labels IH]; intros i cur Hne; [by exists []|]. cbn [splitIndexesLoop].
  assert (0 < Z.of_nat (String.length l)) by (pose proof (Forall_inv Hne); destruct l; [done|]; cbn; lia).
  rewrite (proj2 (Z.leb_gt _ _)) by lia. pose proof (rand_range i (Z.of_nat (String.length l)) ltac:(done)).
  destruct labels as [|l' labels].
  - cbn [splitIndexesLoop result_bind]. eexists. split; [done|]. cbn. split; [lia|done].
  - destruct (IH (S i) (cur + Z.of_nat (String.length l) + 1) (Forall_inv_tail Hne)) as (idx & -> & Ha).
    cbn [result_bind]. eexists. split; [done|]. split; [lia|done].
Qed.
Lemma splitIndexesLoop_panics : forall labels i cur,
  ~ Forall (fun l => l <> "") labels -> panics (splitIndexesLoop rand_Intn i cur labels).
Proof.
  induction labels as [|l labels IH]; intros i cur Hne; [by destruct Hne; constructor|]. cbn [splitIndexesLoop].
  destruct (Z.leb_spec (Z.of_nat (String.length l)) 0) as [Hl|Hl]; [by eexists|].
  destruct (IH (S i) (cur + Z.of_nat (String.length l) + (match labels with [] => 0 | _ => 1 end))) as [m ->]; [|by exists m].
  intros Hf. apply Hne. constructor; [|done]. by intros ->.
Qed.

(** The pieces between the indexes, from [p] on. *)
Fixpoint cuts (p : Z) (idx : list Z) (b : list Z) : list (list Z) :=
  match idx with
  | [] => [drop (Z.to_nat p) b]
  | x :: idx => take (Z.to_nat (x - p)) (drop (Z.to_nat p) b) :: cuts x idx b
  end.
Lemma cuts_length p idx b : length (cuts p idx b) = S (length idx).
Proof. revert p. induction idx; intros p; cbn; [done|]. by rewrite IHidx. Qed.
Lemma cuts_concat idx b : forall p, 0 <= p -> ascending p (len b) idx -> concat (cuts p idx b) = drop (Z.to_nat p) b.
Proof.
  induction idx as [|x idx IH]; intros p Hp Ha; cbn [cuts concat]; [apply app_nil_r|]. destruct Ha as [Hx Ha].
  rewrite IH by (done || lia). replace (Z.to_nat x) with (Z.to_nat p + Z.to_nat (x - p))%nat by lia.
  by rewrite <- drop_drop, take_drop.
Qed.

Lemma slice_take b i j : 0 <= i <= j -> j <= len b -> slice b i j = Ok (take (Z.to_nat (j - i)) (drop (Z.to_nat i) b)).
Proof.
  intros Hi Hj. unfold slice. destruct (Z.leb_spec 0 i), (Z.leb_spec i j), (Z.leb_spec j (len b)); try lia. done.
Qed.
Lemma sliceFrom_drop b i : 0 <= i <= len b -> sliceFrom b i = Ok (drop (Z.to_nat i) b).
Proof. intros Hi. unfold sliceFrom. destruct (Z.leb_spec 0 i), (Z.leb_spec i (len b)); try lia. done. Qed.

(** Where piece [i] begins. *)
Definition cutStart (p : Z) (idx : list Z) (i : nat) : Z := match i with O => p | S j => nth j idx 0 end.
Lemma cuts_nth (b : list Z) : forall idx p i, (i <= length idx)%nat ->
  nth i (cuts p idx b) []
  = if (i =? length idx)%nat then drop (Z.to_nat (cutStart p idx i)) b
    else take (Z.to_nat (nth i idx 0 - cutStart p idx i)) (drop (Z.to_nat (cutStart p idx i)) b).
Proof.
  induction idx as [|x idx IH]; intros p i Hi; cbn [length] in *; [by replace i with 0%nat by lia|].
  destruct i as [|i]; [done|]. cbn [cuts nth Nat.eqb]. rewrite IH by lia. by destruct i.
Qed.
Lemma ascending_start (b : list Z) : forall idx p i, ascending p (len b) idx -> (i <= length idx)%nat ->
  p <= cutStart p idx i <= len b /\ ((i < length idx)%nat -> cutStart p idx i <= nth i idx 0 <= len b).
Proof.
  induction idx as [|x idx IH]; intros p i Ha Hi; cbn [length ascending] in *.
  - replace i with 0%nat by lia. cbn. split; [lia|]. lia.
  - destruct Ha as [Hx Ha]. destruct i as [|i]; [cbn; split; [lia|]; lia|].
    destruct (IH x i Ha ltac:(lia)) as [H1 H2]. cbn [cutStart nth].
    destruct i as [|i]; cbn [cutStart] in *; (split; [lia|]); intros; apply H2; lia.
Qed.
Lemma index_nth idx i : (i < length idx)%nat -> index idx (Z.of_nat i) = Ok (nth i idx 0).
Proof.
  intros Hi. unfold index. rewrite Nat2Z.id. destruct (idx !! i) as [x|] eqn:E; [|apply lookup_ge_None in E; lia].
  destruct (Z.leb_spec 0 (Z.of_nat i)); [|lia]. by rewrite (nth_lookup_Some _ _ _ _ E).
Qed.

Lemma fragmentPayload_ok (splitRecord : bool) b idx i :
  idx <> [] -> ascending 5 (len b) idx -> (i <= length idx)%nat ->
  fragmentPayload splitRecord b idx i = Ok (nth i (cuts (if splitRecord then 5 else 0) idx b) []).
Proof.
  intros Hne Ha Hi. set (p := if splitRecord then 5 else 0).
  assert (Hp : ascending p (len b) idx) by (eapply ascending_low; [|exact Ha]; subst p; destruct splitRecord; lia).
  destruct (ascending_start b idx p i Hp Hi) as [H1 H2]. rewrite cuts_nth by done. unfold fragmentPayload.
  destruct i as [|i]; cbn [cutStart] in *.
  - cbn [Nat.eqb]. destruct idx as [|x idx]; [done|]. cbn [length Nat.eqb]. rewrite index_nth by (cbn; lia). cbn [result_bind].
    destruct Ha as [Hx _]. cbn [nth]. rewrite slice_take by (pose proof (len_nonneg b); lia). cbn [result_bind]. change (Z.to_nat 0) with 0%nat.
    rewrite drop_0, Z.sub_0_r. subst p. destruct splitRecord; [|by rewrite drop_0, Z.sub_0_r].
    unfold recordLayerHeaderLen. rewrite sliceFrom_drop by (unfold len in *; rewrite length_take; lia). f_equal.
    rewrite skipn_firstn_comm. f_equal. lia.
  - change (S i =? 0)%nat with false. replace (S i - 1)%nat with i by lia. rewrite index_nth by lia. cbn [result_bind]. assert (0 <= p) by (subst p; destruct splitRecord; lia).
    destruct (Nat.eqb_spec (S i) (length idx)).
    + by rewrite sliceFrom_drop by lia.
    + rewrite index_nth by lia. cbn [result_bind]. rewrite slice_take; [done|..]; specialize (H2 ltac:(lia)); lia.
Qed.

(** The payloads of the writes among the calls. *)
Definition packets (trace : list FragmentCall) : list (list Z) :=
  concat (map (fun call => match call with CallWriteAndWaitAck p | CallWrite p => [p] | _ => [] end) trace).
Lemma packets_app t t' : packets (t ++ t') = packets t ++ packets t'.
Proof. unfold packets. by rewrite map_app, concat_app. Qed.

Hypothesis calls_ok : forall trace, calls trace = None.
Lemma perform_ok {A} call trace (k : list FragmentCall -> list FragmentCall * result A) :
  andThen (perform calls call trace) k = k (trace ++ [call]).
Proof. unfold perform. by rewrite calls_ok. Qed.

(** The piece as it is sent. *)
Definition sentPiece (splitRecord : bool) (b piece : list Z) : list Z := if splitRecord then fragmentRecord b piece else piece.

Lemma fragmentLoop_ok c b idx : forall turns i buffer trace,
  idx <> [] -> ascending 5 (len b) idx -> (turns + i = S (length idx))%nat ->
  let sent := map (sentPiece (f_splitRecord c) b) (drop i (cuts (if f_splitRecord c then 5 else 0) idx b)) in
  exists trace', fragmentLoop calls turns i c b idx buffer trace = (trace', Ok (len b))
  /\ packets trace' = packets trace ++ (if f_splitPacket c then sent else if f_splitRecord c then [buffer ++ concat sent] else []).
Proof.
  intros turns. induction turns as [|turns IH]; intros i buffer trace Hne Ha Hi sent.
  - assert (Hs : sent = []) by (unfold sent; rewrite drop_ge by (rewrite cuts_length; lia); done). rewrite Hs. cbn [fragmentLoop].
    destruct (f_splitRecord c), (f_splitPacket c), (f_tcpConn c); cbn [andb negb]; rewrite ?perform_ok; eexists; (split; [done|]);
      rewrite ?packets_app, <- ?app_assoc, ?app_nil_r; reflexivity.
  - set (pieces := cuts (if f_splitRecord c then 5 else 0) idx b) in *.
    assert (Hd : drop i pieces = nth i pieces [] :: drop (S i) pieces).
    { destruct (pieces !! i) as [x|] eqn:E; [|apply lookup_ge_None in E; subst pieces; rewrite cuts_length in E; lia].
      rewrite (drop_S _ _ _ E). f_equal. symmetry. by apply nth_lookup_Some. }
    cbn [fragmentLoop]. rewrite fragmentPayload_ok by (done || lia). cbn [fails]. fold pieces. set (x := nth i pieces []) in *.
    assert (Hsent : sent = sentPiece (f_splitRecord c) b x :: map (sentPiece (f_splitRecord c) b) (drop (S i) pieces))
      by (unfold sent; by rewrite Hd). rewrite Hsent. clear sent Hsent Hd.
    destruct (f_splitPacket c) eqn:Ep.
    + assert (Hpay : (if f_splitRecord c && true then (if f_splitRecord c then [] ++ fragmentRecord b x else buffer) else x)
        = sentPiece (f_splitRecord c) b x) by by destruct (f_splitRecord c).
      assert (Hcall : forall made buffer', packets made = [sentPiece (f_splitRecord c) b x] ->
        exists trace', fragmentLoop calls turns (S i) c b idx buffer' (trace ++ made) = (trace', Ok (len b))
        /\ packets trace' = packets trace ++ sentPiece (f_splitRecord c) b x :: map (sentPiece (f_splitRecord c) b) (drop (S i) pieces)).
      { intros made buffer' Hc. destruct (IH (S i) buffer' (trace ++ made) Hne Ha ltac:(lia)) as (t & -> & Ht).
        exists t. split; [done|]. rewrite Ht, packets_app, Hc, <- app_assoc. done. }
      rewrite Hpay. destruct (f_tcpConn c && negb (i =? length idx)%nat); rewrite perform_ok; [by apply Hcall|].
      destruct (negb (i =? length idx)%nat); [rewrite <- app_assoc|]; by apply Hcall.
    + destruct (IH (S i) (if f_splitRecord c then buffer ++ fragmentRecord b x else buffer) trace Hne Ha ltac:(lia)) as (t & E & Ht).
      exists t. split; [exact E|]. rewrite Ht. destruct (f_splitRecord c); [|done]. cbn [sentPiece concat]. by rewrite app_assoc.
Qed.

(** The records of a stream: the type and version of each, and its payload. *)
Fixpoint records (fuel : nat) (stream : list Z) : option (list (list Z * list Z)) :=
  match stream, fuel with
  | [], _ => Some []
  | _, O => None
  | _, S fuel =>
      let n := be_value (take 2 (drop 3 stream)) in
      if len stream <? 5 + n then None
      else option_map (cons (take 3 stream, take (Z.to_nat n) (drop 5 stream))) (records fuel (drop (5 + Z.to_nat n) stream))
  end.
Lemma records_sent (b : list Z) pieces : forall fuel,
  (3 <= length b)%nat -> Forall (fun x => len x < 2 ^ 16) pieces -> (length pieces <= fuel)%nat ->
  records fuel (concat (map (fragmentRecord b) pieces)) = Some (map (fun x => (take 3 b, x)) pieces).
Proof.
  induction pieces as [|x pieces IH]; intros fuel Hb Hx Hf; [by destruct fuel|]. cbn [length] in Hf. destruct fuel as [|fuel]; [lia|].
  cbn [map concat]. pose proof (Forall_inv Hx) as Hl. cbn beta in Hl. pose proof (len_nonneg x).
  set (rest := concat (map (fragmentRecord b) pieces)). unfold fragmentRecord. rewrite <- !app_assoc.
  assert (H3 : length (take 3 b) = 3%nat) by (rewrite length_take; lia).
  set (stream := take 3 b ++ _). assert (Hst : stream = take 3 b ++ be_bytes 2 (len x) ++ x ++ rest) by done.
  assert (E : records (S fuel) stream = let n := be_value (take 2 (drop 3 stream)) in
    if len stream <? 5 + n then None
    else option_map (cons (take 3 stream, take (Z.to_nat n) (drop 5 stream))) (records fuel (drop (5 + Z.to_nat n) stream))).
  { destruct stream; [|done]. by destruct (take 3 b). }
  assert (D3 : drop 3 stream = be_bytes 2 (len x) ++ x ++ rest) by (rewrite Hst; by apply drop_app_length').
  assert (D5 : drop 5 stream = x ++ rest).
  { change 5%nat with (3 + 2)%nat. rewrite <- drop_drop, D3. by apply drop_app_length'. }
  rewrite E, D3, D5. rewrite (take_app_length' _ _ 2) by by rewrite be_bytes_length. rewrite be_value_bytes_small by (cbn; lia). cbn zeta.
  rewrite ltb_len by (rewrite Hst, !len_app, len_be; unfold len at 2; rewrite H3; pose proof (len_nonneg rest); lia).
  rewrite <- drop_drop, D5. unfold len. rewrite Nat2Z.id, take_app_length, drop_app_length.
  subst rest. rewrite IH; [|done|apply (Forall_inv_tail Hx)|lia]. cbn [option_map map]. do 3 f_equal. rewrite Hst. by apply take_app_length'.
Qed.

Lemma cuts_small p idx (b : list Z) : forall n, len b < n -> Forall (fun x => len x < n) (cuts p idx b).
Proof.
  revert p. induction idx as [|x idx IH]; intros p n Hn; cbn [cuts].
  - constructor; [|constructor]. unfold len in *. rewrite length_drop. lia.
  - constructor; [|by apply IH]. unfold len in *. rewrite length_take, length_drop. lia.
Qed.

Lemma cutLabels_nonempty name : cutLabels publicSuffix name <> [].
Proof.
  unfold cutLabels. pose proof (SplitByte_count name). destruct (strings.SplitByte "."%char name); [done|]. by destruct (String.eqb _ _).
Qed.
Lemma cutLabels_span name : 0 <= span (cutLabels publicSuffix name) <= Z.of_nat (String.length name).
Proof.
  rewrite <- SplitByte_span. unfold cutLabels. destruct (String.eqb _ _); [|apply span_take].
  split; [apply span_nonneg|lia].
Qed.
Lemma nameAt_end b s : nameAt 0 b s -> sn_Index s + Z.of_nat (String.length (sn_ServerName s)) <= len b.
Proof.
  intros (pre & post & -> & Hi). pose proof (len_nonneg post). rewrite !len_app. unfold len at 2.
  rewrite string_bytes_length. lia.
Qed.

End write.

(** ** Long extensions *)

(** [4+exLen] wraps around to 0 for an extension of 65532 bytes: the loop over
    the extensions never gets past one. *)
Lemma index_does_not_end exType body i : 0 < exType < 2 ^ 16 -> 65532 <= len body ->
  forall fuel, indexExtensionsLoop fuel i (be_bytes 2 exType ++ be_bytes 2 65532 ++ body) = Err (GoPanic "the loop does not end").
Proof.
  intros Ht Hl fuel. revert i. set (exs := be_bytes 2 exType ++ _). assert (Hexs : exs = be_bytes 2 exType ++ be_bytes 2 65532 ++ body) by done.
  assert (Hlen : len exs = 4 + len body) by (rewrite Hexs, !len_app, !len_be; lia).
  assert (E0 : uint16At exs 0 = Ok exType) by (rewrite Hexs; apply uint16At_head; lia).
  assert (E2 : uint16At exs 2 = Ok 65532) by (rewrite Hexs; by apply uint16At_app).
  assert (Hne : exists x l, exs = x :: l) by (rewrite Hexs, be_bytes_2; cbn; by eexists _, _). clearbody exs.
  induction fuel as [|fuel IH]; intros i; destruct Hne as (x & l & Ex); [by rewrite Ex|]. rewrite Ex. cbn [indexExtensionsLoop]. rewrite <- Ex.
  unfold extensionHeaderLen. rewrite ltb_len, E0 by lia. cbn [result_bind]. rewrite E2. cbn [result_bind]. rewrite ltb_len by lia.
  rewrite slice_take by lia. cbn [result_bind]. rewrite (proj2 (Z.eqb_neq exType sniExtensionType)) by (unfold sniExtensionType; lia).
  change ((4 + 65532) mod 2 ^ 16) with 0. rewrite sliceFrom_drop by lia. cbn [result_bind]. change (Z.to_nat 0) with 0%nat. rewrite drop_0. apply IH.
Qed.
