(* ===== verification/TLSFragmentExamples.v ===== *)
(** * Fragmenting the client hello: examples

    The theorems at the client hello of the sniffer examples, whose name is
    [a.org]. *)

From Stdlib Require Import Ascii.
From S2P Require Import Prelude.
From S2P Require Import GoText.
From S2P Require Import Bytes.
From S2P Require Import Ja3.
From S2P Require Import Ja3Theorems.
From S2P Require Import TLSFragment.
From S2P Require Import TLSFragmentTheorems.
From S2P Require Import SniffExamples.
Local Open Scope string_scope.
Local Open Scope list_scope.
Local Open Scope Z_scope.

Lemma server_name_indexed_witness :
  exists s, IndexTLSServerName (helloRecord SniffRuns.example []) = Ok (Some s)
  /\ sn_Length s = 5 /\ slice (helloRecord SniffRuns.example []) (sn_Index s) (sn_Index s + sn_Length s) = Ok (string_bytes "a.org").
Proof. apply (server_name_indexed SniffRuns.example); [apply SniffRuns.example_ok|by apply SniffRuns.bytes_checked|reflexivity]. Defined.

(** Packets and records, cut in the first label, whose only byte is the first of the second piece. *)
Definition lastLabel (name : string) : string := List.last (strings.SplitByte "."%char name) "".
Definition exampleConn : FragmentConn := mkFragmentConn false true true true.

(** A name that begins with a dot is a panic. *)
Definition dotHello : hello := mkHello 771 771 (repeat 5 32) [] [4865] [0] [ServerNameExt (string_bytes ".org")].
Lemma dot_name_panics : panics (snd (snd (Conn_Write lastLabel (fun _ _ => 0) (fun _ => None) exampleConn (helloRecord dotHello [])))).
Proof. by eexists. Qed.
