(* ===== verification/Group.v ===== *)
(** * Outbound groups: [protocol/group], [common/urltest], [common/interrupt]

    The selector and the URL test group, the history of URL tests they share and
    the group of connections they interrupt.  The other outbounds are seen
    through [OutboundView]: what the outbound manager finds under a tag, and
    whether an outbound is a group.  The results of dialing and of URL tests and
    the time are arguments of the operations. *)

From S2P Require Import Prelude.
From S2P Require Import GoText.
From S2P Require Import Libs.
From S2P Require Import Bolt.
From S2P Require Import CacheFile.
Local Open Scope string_scope.
Local Open Scope list_scope.
Local Open Scope Z_scope.

(** ** Outbounds *)

(** An outbound; [ob_id] tells the objects of the program apart. *)
Record Detour := mkDetour { ob_id : nat; ob_Tag : string; ob_Network : list string }.
#[export] Instance Detour_eq_dec : EqDecision Detour.
Proof. solve_decision. Defined.

(** What type an outbound has; a group shows its choice and its members. *)
Inductive OutboundKind :=
  | PlainOutbound
  | GroupOutbound (now : string) (all : list string)
  | URLTestOutbound (now : string) (all : list string).
Record OutboundView := mkOutboundView {
  ov_Outbound : string -> option Detour;
  ov_kind : Detour -> OutboundKind }.
Definition groupNow (view : OutboundView) (o : Detour) : option string :=
  match ov_kind view o with PlainOutbound => None | GroupOutbound now _ | URLTestOutbound now _ => Some now end.

(** [RealTag]: the choices are followed; [None] when the fuel does not suffice. *)
Fixpoint realTagLoop (view : OutboundView) (fuel : nat) (detour : Detour) (tag : string) : option string :=
  match groupNow view detour with
  | None => Some tag
  | Some now =>
      match ov_Outbound view now with
      | None => Some now
      | Some detour => match fuel with O => None | S fuel => realTagLoop view fuel detour now end
      end
  end.
Definition RealTag (fuel : nat) (view : OutboundView) (detour : Detour) : option string :=
  realTagLoop view fuel detour (ob_Tag detour).

(** ** The history of URL tests ([common/urltest]) *)

Record URLTestHistory := mkURLTestHistory { uh_Time : Z; uh_Delay : Z }.
(** [hs_emitted] lists the hooks that were notified. *)
Record HistoryStorage := mkHistoryStorage {
  hs_delayHistory : gmap string URLTestHistory; hs_updateHooks : list nat; hs_emitted : list nat }.
Definition NewHistoryStorage : HistoryStorage := mkHistoryStorage ∅ [] [].
Definition AddUpdateHook (hook : nat) (s : HistoryStorage) : HistoryStorage :=
  {| s with hs_updateHooks := hs_updateHooks s ++ [hook] |}.
Definition NotifyUpdated (s : HistoryStorage) : HistoryStorage :=
  {| s with hs_emitted := hs_emitted s ++ hs_updateHooks s |}.
(** On a nil storage there is no history. *)
Definition LoadURLTestHistory (s : option HistoryStorage) (tag : string) : option URLTestHistory :=
  match s with None => None | Some s => hs_delayHistory s !! tag end.
Definition DeleteURLTestHistory (tag : string) (s : HistoryStorage) : HistoryStorage :=
  NotifyUpdated {| s with hs_delayHistory := delete tag (hs_delayHistory s) |}.
Definition StoreURLTestHistory (tag : string) (history : URLTestHistory) (s : HistoryStorage) : HistoryStorage :=
  NotifyUpdated {| s with hs_delayHistory := <[tag := history]> (hs_delayHistory s) |}.
Definition HistoryStorage_Close (s : HistoryStorage) : HistoryStorage := {| s with hs_updateHooks := [] |}.

(** ** Interrupting connections ([common/interrupt]) *)

Record groupConnItem := mkGroupConnItem { gc_conn : nat; gc_isExternal : bool }.
Definition InterruptGroup : Type := list groupConnItem.
(** [NewConn] and [NewPacketConn] *)
Definition Interrupt_NewConn (conn : nat) (isExternal : bool) (g : InterruptGroup) : InterruptGroup :=
  g ++ [mkGroupConnItem conn isExternal].
(** [Close] of a connection of the group *)
Definition Interrupt_CloseConn (conn : nat) (g : InterruptGroup) : InterruptGroup :=
  List.filter (fun i => negb (gc_conn i =? conn)%nat) g.
(** The connections that are closed, and those that stay. *)
Definition Interrupt (interruptExternalConnections : bool) (g : InterruptGroup) : list nat * InterruptGroup :=
  let toDelete i := negb (gc_isExternal i) || interruptExternalConnections in
  (map gc_conn (List.filter toDelete g), List.filter (fun i => negb (toDelete i)) g).

(** ** The selector ([selector.go]) *)

Record Selector := mkSelector {
  s_Tag : string;
  s_tags : list string;
  s_defaultTag : string;
  s_outbounds : gmap string Detour;
  s_selected : option Detour;
  s_hasHistory : bool;
  s_interruptGroup : InterruptGroup;
  s_interruptExternalConnections : bool }.

Definition NewSelector (tag : string) (outbounds : list string) (default' : string) (hasHistory interruptExist : bool) :
    result Selector :=
  if (length outbounds =? 0)%nat then Err (E_New "missing tags")
  else Ok (mkSelector tag outbounds default' ∅ None hasHistory [] interruptExist).

Definition Selector_Network (s : Selector) : list string :=
  match s_selected s with None => ["tcp"; "udp"] | Some selected => ob_Network selected end.
Definition Selector_Now (s : Selector) : result string :=
  match s_selected s with
  | Some selected => Ok (ob_Tag selected)
  | None => match s_tags s with tag :: _ => Ok tag | [] => Err (GoPanic "index out of range") end
  end.
Definition Selector_All (s : Selector) : list string := s_tags s.

Section selector.
Context `{L : Libs} `{B : Bbolt} (reopen : bool).

(** The members are looked up in the order of the options. *)
Fixpoint loadMembers (view : OutboundView) (i : nat) (tags : list string) (outbounds : gmap string Detour) :
    result (gmap string Detour) :=
  match tags with
  | [] => Ok outbounds
  | tag :: tags =>
      match ov_Outbound view tag with
      | None => Err (E_New (F_ToString ["outbound "; strconv.Itoa (Z.of_nat i); " not found: "; tag]))
      | Some detour => loadMembers view (S i) tags (<[tag := detour]> outbounds)
      end
  end.
Definition selectDefault (s : Selector) : result Selector :=
  if negb (String.eqb (s_defaultTag s) "") then
    match s_outbounds s !! s_defaultTag s with
    | None => Err (E_New ("default outbound not found: " ++ s_defaultTag s))
    | Some detour => Ok {| s with s_selected := Some detour |}
    end
  else
    match s_tags s with
    | tag :: _ => Ok {| s with s_selected := s_outbounds s !! tag |}
    | [] => Err (GoPanic "index out of range")
    end.
(** [cacheFile] is [None] when the context has none. *)
Definition Selector_Start (view : OutboundView) (s : Selector) (cacheFile : option CacheFile) :
    result Selector * option CacheFile :=
  match loadMembers view 0 (s_tags s) (s_outbounds s) with
  | Err err => (Err err, cacheFile)
  | Ok outbounds =>
      let s := {| s with s_outbounds := outbounds |} in
      match cacheFile with
      | Some c =>
          if negb (String.eqb (s_Tag s) "") then
            let '(selected, c) := LoadSelected reopen (s_Tag s) c in
            match (if negb (String.eqb selected "") then s_outbounds s !! selected else None) with
            | Some detour => (Ok {| s with s_selected := Some detour |}, Some c)
            | None => (selectDefault s, Some c)
            end
          else (selectDefault s, cacheFile)
      | None => (selectDefault s, cacheFile)
      end
  end.

(** The answer, the selector, the cache file, the connections that are closed
    and whether the history is notified; that the choice could not be stored is logged. *)
Definition SelectOutbound (tag : string) (s : Selector) (cacheFile : option CacheFile) :
    bool * Selector * option CacheFile * list nat * bool :=
  match s_outbounds s !! tag with
  | None => (false, s, cacheFile, [], false)
  | Some detour =>
      let old := s_selected s in
      let s := {| s with s_selected := Some detour |} in
      if bool_decide (old = Some detour) then (true, s, cacheFile, [], false)
      else
        let cacheFile :=
          match cacheFile with
          | Some c => if negb (String.eqb (s_Tag s) "") then Some (snd (StoreSelected reopen (s_Tag s) tag c)) else cacheFile
          | None => None
          end in
        let '(closed, group) := Interrupt (s_interruptExternalConnections s) (s_interruptGroup s) in
        (true, {| s with s_interruptGroup := group |}, cacheFile, closed, s_hasHistory s)
  end.
End selector.

(** [DialContext] and [ListenPacket]: the outbound that is dialed, and the
    connection that joins the group when it succeeds. *)
Definition Selector_DialContext (dial : Detour -> result nat) (isExternal : bool) (s : Selector) : result nat * Selector :=
  match s_selected s with
  | None => (Err (GoPanic "invalid memory address or nil pointer dereference"), s)
  | Some selected =>
      match dial selected with
      | Err err => (Err err, s)
      | Ok conn => (Ok conn, {| s with s_interruptGroup := Interrupt_NewConn conn isExternal (s_interruptGroup s) |})
      end
  end.

(** ** The URL test group ([urltest.go]) *)

Definition DefaultURLTestInterval : Z := 3 * 60 * nanoseconds.
Definition DefaultURLTestIdleTimeout : Z := 30 * 60 * nanoseconds.

(** [g_ticker] is the running ticker, [g_closed] whether the channel of the
    group is closed. *)
Record URLTestGroup := mkURLTestGroup {
  g_outbounds : list Detour;
  g_interval : Z;
  g_tolerance : Z;
  g_idleTimeout : Z;
  g_checking : bool;
  g_selectedOutboundTCP : option Detour;
  g_selectedOutboundUDP : option Detour;
  g_interruptGroup : InterruptGroup;
  g_interruptExternalConnections : bool;
  g_ticker : option nat;
  g_closed : bool;
  g_started : bool;
  g_lastActive : Z }.

Definition NewURLTestGroup (outbounds : list Detour) (interval tolerance idleTimeout : Z) (hasHistory interruptExternal : bool) :
    result URLTestGroup :=
  let interval := if interval =? 0 then DefaultURLTestInterval else interval in
  let tolerance := if tolerance =? 0 then 50 else tolerance in
  let idleTimeout := if idleTimeout =? 0 then DefaultURLTestIdleTimeout else idleTimeout in
  if idleTimeout <? interval then Err (E_New "interval must be less or equal than idle_timeout")
  else if negb hasHistory then Err (E_New "missing URL test history storage")
  else Ok (mkURLTestGroup outbounds interval tolerance idleTimeout false None None [] interruptExternal None false false 0).

(** The members of the group, as [URLTest.Start] looks them up. *)
Fixpoint loadOutbounds `{L : Libs} (view : OutboundView) (i : nat) (tags : list string) : result (list Detour) :=
  match tags with
  | [] => Ok []
  | tag :: tags =>
      match ov_Outbound view tag with
      | None => Err (E_New (F_ToString ["outbound "; strconv.Itoa (Z.of_nat i); " not found: "; tag]))
      | Some detour => let? outbounds := loadOutbounds view (S i) tags in Ok (detour :: outbounds)
      end
  end.
Definition NewURLTest (outbounds : list string) : result (list string) :=
  if (length outbounds =? 0)%nat then Err (E_New "missing tags") else Ok outbounds.
Definition URLTest_Start `{L : Libs} (view : OutboundView) (tags : list string) (interval tolerance idleTimeout : Z)
    (hasHistory interruptExternal : bool) : result URLTestGroup :=
  let? outbounds := loadOutbounds view 0 tags in
  NewURLTestGroup outbounds interval tolerance idleTimeout hasHistory interruptExternal.
Definition URLTest_Now (g : URLTestGroup) : string :=
  match g_selectedOutboundTCP g, g_selectedOutboundUDP g with
  | Some o, _ | None, Some o => ob_Tag o
  | None, None => ""
  end.

(** ** Activity *)

Definition Group_PostStart (now : Z) (g : URLTestGroup) : URLTestGroup := {| g with g_started := true; g_lastActive := now |}.
(** [ticker] is the new ticker; the second component tells whether [loopCheck] is started. *)
Definition Touch (now : Z) (ticker : nat) (g : URLTestGroup) : URLTestGroup * bool :=
  if negb (g_started g) then (g, false)
  else match g_ticker g with
       | Some _ => ({| g with g_lastActive := now |}, false)
       | None => ({| g with g_ticker := Some ticker |}, true)
       end.
Definition Group_Close (g : URLTestGroup) : result URLTestGroup :=
  match g_ticker g with
  | None => Ok g
  | Some _ =>
      if g_closed g then Err (GoPanic "close of closed channel") else Ok {| g with g_ticker := None; g_closed := true |}
  end.
(** The beginning of [loopCheck]: whether the outbounds are checked at once. *)
Definition loopCheck_begin (now : Z) (g : URLTestGroup) : URLTestGroup * bool :=
  if g_interval g <? now - g_lastActive g then ({| g with g_lastActive := now |}, true) else (g, false).
(** A tick of [ticker]: whether the loop goes on and checks the outbounds. *)
Definition loopCheck_tick (now : Z) (ticker : nat) (g : URLTestGroup) : URLTestGroup * bool :=
  if g_idleTimeout g <? now - g_lastActive g then
    (if bool_decide (g_ticker g = Some ticker) then {| g with g_ticker := None |} else g, false)
  else (g, true).

(** ** Choosing *)

Section choosing.
Context (view : OutboundView) (fuel : nat) (history : HistoryStorage).

(** The history of the outbound behind a member. *)
Definition historyOf (detour : Detour) : option URLTestHistory :=
  match RealTag fuel view detour with Some tag => LoadURLTestHistory (Some history) tag | None => None end.
Definition supports (network : string) (detour : Detour) : bool := bool_decide (network ∈ ob_Network detour).

(** [history.Delay+g.tolerance] is an [uint16]. *)
Fixpoint selectLoop (network : string) (tolerance : Z) (outbounds : list Detour) (minDelay : Z) (minOutbound : option Detour) :
    option Detour :=
  match outbounds with
  | [] => minOutbound
  | detour :: outbounds =>
      if negb (supports network detour) then selectLoop network tolerance outbounds minDelay minOutbound
      else
        match historyOf detour with
        | None => selectLoop network tolerance outbounds minDelay minOutbound
        | Some h =>
            if (minDelay =? 0) || ((uh_Delay h + tolerance) mod 2 ^ 16 <? minDelay)
            then selectLoop network tolerance outbounds (uh_Delay h) (Some detour)
            else selectLoop network tolerance outbounds minDelay minOutbound
        end
  end.
Definition selectedFor (network : string) (g : URLTestGroup) : option Detour :=
  if String.eqb network "tcp" then g_selectedOutboundTCP g
  else if String.eqb network "udp" then g_selectedOutboundUDP g else None.
Definition Select (network : string) (g : URLTestGroup) : option Detour * bool :=
  let start :=
    match selectedFor network g with
    | None => (0, None)
    | Some selected => match historyOf selected with Some h => (uh_Delay h, Some selected) | None => (0, None) end
    end in
  match selectLoop network (g_tolerance g) (g_outbounds g) (fst start) (snd start) with
  | Some minOutbound => (Some minOutbound, true)
  | None => (List.find (supports network) (g_outbounds g), false)
  end.

(** One half of [performUpdateCheck]: the selection, and whether it replaced one. *)
Definition updateSelected (network : string) (g : URLTestGroup) : option Detour * bool :=
  let old := selectedFor network g in
  match Select network g with
  | (Some outbound, exists') =>
      match old with
      | None => (Some outbound, false)
      | Some selected => if exists' && negb (bool_decide (outbound = selected)) then (Some outbound, true) else (old, false)
      end
  | (None, _) => (old, false)
  end.
(** The connections that are closed, and the group. *)
Definition performUpdateCheck (g : URLTestGroup) : list nat * URLTestGroup :=
  let '(tcp, updatedTCP) := updateSelected "tcp" g in
  let g := {| g with g_selectedOutboundTCP := tcp |} in
  let '(udp, updatedUDP) := updateSelected "udp" g in
  let g := {| g with g_selectedOutboundUDP := udp |} in
  if updatedTCP || updatedUDP then
    let '(closed, connections) := Interrupt (g_interruptExternalConnections g) (g_interruptGroup g) in
    (closed, {| g with g_interruptGroup := connections |})
  else ([], g).
End choosing.

(** [DialContext] and, with [network] "udp", [ListenPacket], after [Touch];
    [networkName] is [N.NetworkName]. *)
Definition URLTest_DialContext (networkName : string -> string) (view : OutboundView) (fuel : nat) (network : string) (dial : Detour -> result nat)
    (isExternal : bool) (history : HistoryStorage) (g : URLTestGroup) : result nat * HistoryStorage * URLTestGroup :=
  let name := networkName network in
  if negb (String.eqb name "tcp") && negb (String.eqb name "udp") then
    (Err (E_Cause (E_New "unknown network") network), history, g)
  else
    let outbound :=
      match selectedFor name g with Some o => Some o | None => fst (Select view fuel history network g) end in
    match outbound with
    | None => (Err (E_New "missing supported outbound"), history, g)
    | Some outbound =>
        match dial outbound with
        | Ok conn => (Ok conn, history, {| g with g_interruptGroup := Interrupt_NewConn conn isExternal (g_interruptGroup g) |})
        | Err err => (Err err, DeleteURLTestHistory (ob_Tag outbound) history, g)
        end
    end.

(** ** Testing *)

(** The tests a batch starts, in order: of an outbound, and of a nested group. *)
Inductive urlTestTask := TestOutbound (tag : string) | TestGroup (o : Detour).
Record urlTestBatch := mkURLTestBatch {
  b_checked : gset string; b_groups : list Detour; b_tasks : list urlTestTask;
  b_reads : nat (* how often the history was read *) }.

(** [urlTestBatch.test]; [None] when the fuel does not suffice.  The tests that
    were started run meanwhile: [historyAt] and [timeAt] are the history and the
    time at each reading. *)
Fixpoint batchTest (view : OutboundView) (historyAt : nat -> HistoryStorage) (timeAt : nat -> Z) (interval : Z) (force : bool) (fuel : nat)
    (outbounds : list Detour) (b : urlTestBatch) : option urlTestBatch :=
  match outbounds with
  | [] => Some b
  | detour :: outbounds =>
      match fuel with
      | O => None
      | S fuel =>
          let test := batchTest view historyAt timeAt interval force fuel in
          let tag := ob_Tag detour in
          if bool_decide (tag ∈ b_checked b) then test outbounds b
          else
            let checked := {[tag]} ∪ b_checked b in
            match ov_kind view detour with
            | URLTestOutbound _ _ =>
                test outbounds (mkURLTestBatch checked (b_groups b ++ [detour]) (b_tasks b ++ [TestGroup detour]) (b_reads b))
            | GroupOutbound _ all =>
                match test (omap (ov_Outbound view) all) (mkURLTestBatch checked (b_groups b ++ [detour]) (b_tasks b) (b_reads b)) with
                | Some b => test outbounds b
                | None => None
                end
            | PlainOutbound =>
                let n := b_reads b in
                let recent := match LoadURLTestHistory (Some (historyAt n)) tag with
                              | Some h => negb force && (timeAt n - uh_Time h <? interval)
                              | None => false
                              end in
                if recent then test outbounds (mkURLTestBatch (b_checked b) (b_groups b) (b_tasks b) (S n))
                else test outbounds (mkURLTestBatch checked (b_groups b) (b_tasks b ++ [TestOutbound tag]) (S n))
            end
      end
  end.

(** How the test of an outbound ends: with a delay, at a time; or with an error,
    which is ignored when the context of the batch is done. *)
Inductive urlTestEnd := TestDelay (now delay : Z) | TestFailed (cancelled : bool).
Definition finishTest (tag : string) (testResult : urlTestEnd) (history : HistoryStorage) : HistoryStorage :=
  match testResult with
  | TestDelay now delay => StoreURLTestHistory tag (mkURLTestHistory now delay) history
  | TestFailed cancelled => if cancelled then history else DeleteURLTestHistory tag history
  end.
(** The tests of a batch, in the order they end. *)
Definition finishTests (ended : list (string * urlTestEnd)) (history : HistoryStorage) : HistoryStorage :=
  foldl (fun h e => finishTest (fst e) (snd e) h) history ended.
(** The groups of the batch that get the delay of the outbound behind them. *)
Definition groupResults (view : OutboundView) (fuel : nat) (history : HistoryStorage) (groups : list Detour) : list (string * Z) :=
  omap (fun o => match historyOf view fuel history o with Some h => Some (ob_Tag o, uh_Delay h) | None => None end) groups.
