(* ===== verification/GroupTheorems.v ===== *)
(** * Outbound groups: the choice of an outbound *)

From S2P Require Import Prelude.
From S2P Require Import GoText.
From S2P Require Import Bytes.
From S2P Require Import Libs.
From S2P Require Import Bolt.
From S2P Require Import CacheFile.
From S2P Require Import CacheFileTheorems.
From S2P Require Import Lifecycle.
From S2P Require Import LifecycleTheorems.
From S2P Require Import Group.
Local Open Scope string_scope.
Local Open Scope list_scope.
Local Open Scope Z_scope.

(** ** The URL test group *)

Section select.
Context (view : OutboundView) (fuel : nat) (history : HistoryStorage) (network : string) (tolerance : Z).
Notation hist := (historyOf view fuel history).

(** A member that could be chosen, with its delay. *)
Definition tested (outbounds : list Detour) (o : Detour) (h : URLTestHistory) : Prop :=
  o ∈ outbounds /\ supports network o = true /\ hist o = Some h.
(** The delays are at least a millisecond, and the tolerance does not carry one
    out of its 16 bits. *)
Definition delaysFit : Prop := forall o h, hist o = Some h -> 0 < uh_Delay h /\ uh_Delay h + tolerance < 2 ^ 16.
(** What the loop holds. *)
Definition holds (minDelay : Z) (minOutbound : option Detour) : Prop :=
  match minOutbound with
  | None => minDelay = 0
  | Some o => exists h, hist o = Some h /\ minDelay = uh_Delay h
  end.

Lemma selectLoop_spec (Hfit : delaysFit) (Htol : 0 <= tolerance) : forall outbounds minDelay minOutbound,
  holds minDelay minOutbound ->
  match selectLoop view fuel history network tolerance outbounds minDelay minOutbound with
  | None => minOutbound = None /\ forall o h, ~ tested outbounds o h
  | Some o =>
      exists h, hist o = Some h
      /\ (minOutbound = Some o \/ tested outbounds o h)
      /\ (forall o' h', tested outbounds o' h' -> uh_Delay h <= uh_Delay h' + tolerance)
      /\ (forall m, minOutbound = Some m -> uh_Delay h <= minDelay /\ (o <> m -> uh_Delay h + tolerance < minDelay))
  end.
Proof.
  induction outbounds as [|d outbounds IH]; intros minDelay minOutbound Hm; cbn [selectLoop].
  - destruct minOutbound as [o|]; [|split; [done|]; by intros o h [Ho%elem_of_nil _]]. destruct Hm as (h & Hh & ->).
    exists h. split_and!; [done|by left|by intros o' h' [Ho%elem_of_nil _]|]. intros m [= <-]. by split.
  - assert (Hskip : (supports network d = false \/ hist d = None) ->
      match selectLoop view fuel history network tolerance outbounds minDelay minOutbound with
      | None => minOutbound = None /\ forall o h, ~ tested (d :: outbounds) o h
      | Some o => exists h, hist o = Some h /\ (minOutbound = Some o \/ tested (d :: outbounds) o h)
          /\ (forall o' h', tested (d :: outbounds) o' h' -> uh_Delay h <= uh_Delay h' + tolerance)
          /\ (forall m, minOutbound = Some m -> uh_Delay h <= minDelay /\ (o <> m -> uh_Delay h + tolerance < minDelay))
      end).
    { intros Hd. assert (Ht : forall o h, tested (d :: outbounds) o h <-> tested outbounds o h).
      { intros o h. unfold tested. rewrite elem_of_cons. split; [|tauto]. intros ([->|Ho] & Hs & Hh); [|tauto]. destruct Hd; congruence. }
      specialize (IH minDelay minOutbound Hm). destruct (selectLoop _ _ _ _ _ _ _ _) as [o|].
      - destruct IH as (h & Hh & Hor & Hle & Hmin). exists h. split_and!; [done| |by intros o' h' Ho'%Ht; apply (Hle o')|done].
        destruct Hor; [by left|right; by apply Ht].
      - destruct IH as [-> IH]. split; [done|]. intros o h Ho%Ht. by apply (IH o h). }
    destruct (supports network d) eqn:Hs; cbn [negb]; [|by apply Hskip; left].
    destruct (hist d) as [hd|] eqn:Hh; [|by apply Hskip; right]. clear Hskip. destruct (Hfit d hd Hh) as [Hpos Hlt].
    rewrite Z.mod_small by lia. assert (Htd : tested (d :: outbounds) d hd) by (split_and!; [left|done|done]).
    assert (Ht : forall o h, tested (d :: outbounds) o h -> o = d /\ h = hd \/ tested outbounds o h).
    { intros o h (Ho & Hso & Hho). apply elem_of_cons in Ho as [->|Ho]; [left; split; [done|congruence]|right; by split_and!]. }
    assert (Ht' : forall o h, tested outbounds o h -> tested (d :: outbounds) o h) by (intros o h (Ho & ? & ?); split_and!; [by right|done|done]).
    destruct ((minDelay =? 0) || (uh_Delay hd + tolerance <? minDelay)) eqn:Hsw.
    + specialize (IH (uh_Delay hd) (Some d)). destruct (selectLoop _ _ _ _ _ _ _ _) as [o|].
      * destruct IH as (h & Ho & Hor & Hle & Hmin); [by exists hd|]. destruct (Hmin d eq_refl) as [Hmd Hne]. exists h. split_and!; [done|..].
        -- right. destruct Hor as [[= ->]|Hor]; [|by apply Ht']. by replace h with hd by congruence.
        -- intros o' h' [[-> ->]|Ho']%Ht; [lia|]. by apply (Hle o').
        -- intros m Hmo. subst minOutbound. destruct Hm as (hm & Hhm & ->). destruct (Hfit m hm Hhm). lia.
      * destruct IH as [[=] _]. by exists hd.
    + specialize (IH minDelay minOutbound Hm). destruct (selectLoop _ _ _ _ _ _ _ _) as [o|].
      * destruct IH as (h & Ho & Hor & Hle & Hmin). exists h. split_and!; [done|destruct Hor; [by left|right; by apply Ht']| |done].
        intros o' h' [[-> ->]|Ho']%Ht; [|by apply (Hle o')].
        destruct minOutbound as [m|]; cbn in Hm; [|lia]. destruct (Hmin m eq_refl) as [Hmd _]. lia.
      * destruct IH as [-> _]. cbn in Hm. lia.
Qed.
End select.

(** The connections that [Interrupt] closes, and those it keeps. *)
Lemma Interrupt_spec external g :
  (forall conn, conn ∈ fst (Interrupt external g) <->
     exists i, i ∈ g /\ gc_conn i = conn /\ (gc_isExternal i = false \/ external = true))
  /\ forall i, i ∈ snd (Interrupt external g) <-> i ∈ g /\ gc_isExternal i = true /\ external = false.
Proof.
  split.
  - intros conn. cbn [Interrupt fst]. rewrite list_elem_of_In, in_map_iff. setoid_rewrite filter_In. setoid_rewrite list_elem_of_In.
    setoid_rewrite orb_true_iff. setoid_rewrite negb_true_iff. naive_solver.
  - intros i. cbn [Interrupt snd]. rewrite !list_elem_of_In, filter_In, negb_true_iff, orb_false_iff, negb_false_iff. tauto.
Qed.

Section update.
Context (view : OutboundView) (fuel : nat) (history : HistoryStorage).
Notation hist := (historyOf view fuel history).

(** The choice for a network after an update, from the choice before. *)
Record goodChoice (network : string) (tolerance : Z) (outbounds : list Detour) (old : option Detour) (o : Detour) : Prop := {
  gc_member : old = Some o \/ (o ∈ outbounds /\ supports network o = true);
  gc_best : (exists o' h', tested view fuel history network outbounds o' h') ->
    exists h, hist o = Some h
    /\ forall o' h', tested view fuel history network outbounds o' h' -> uh_Delay h <= uh_Delay h' + tolerance;
  gc_stable : forall s, old = Some s -> o <> s ->
    exists h, hist o = Some h /\ forall hs, hist s = Some hs -> uh_Delay h + tolerance < uh_Delay hs }.

Lemma updateSelected_spec network g :
  0 <= g_tolerance g -> delaysFit view fuel history (g_tolerance g) ->
  let '(new, replaced) := updateSelected view fuel history network g in
  let old := selectedFor network g in
  match new with
  | None => old = None /\ forall o, o ∈ g_outbounds g -> supports network o = false
  | Some o => goodChoice network (g_tolerance g) (g_outbounds g) old o
  end /\ replaced = isSome old && negb (bool_decide (new = old)).
Proof.
  intros Htol Hfit. unfold updateSelected, Select. set (old := selectedFor network g).
  set (start := match old with None => _ | Some _ => _ end).
  assert (Hold : holds view fuel history (fst start) (snd start)).
  { unfold start. destruct old as [o|]; [|done]. destruct (hist o) as [h|] eqn:Eh; [by exists h|done]. }
  assert (Hstart : forall s, old = Some s -> (hist s = None /\ snd start = None)
    \/ exists h, hist s = Some h /\ snd start = Some s /\ fst start = uh_Delay h).
  { intros s Es. unfold start. rewrite Es. destruct (hist s) as [h|]; [right; by exists h|by left]. }
  pose proof (selectLoop_spec view fuel history network (g_tolerance g) Hfit Htol (g_outbounds g) _ _ Hold) as Hspec.
  destruct (selectLoop _ _ _ _ _ _ _ _) as [o|].
  - destruct Hspec as (h & Ho & Hor & Hle & Hmin).
    assert (Hgood : goodChoice network (g_tolerance g) (g_outbounds g) old o).
    { split.
      - destruct Hor as [E|(? & ? & _)]; [|by right]. left. unfold start in E. destruct old as [s|]; [|done]. destruct (hist s); [|done]. cbn in E. congruence.
      - intros _. by exists h.
      - intros s Es Hne. exists h. split; [done|]. intros hs Hs. destruct (Hstart s Es) as [[]|(h' & Hh' & E1 & E2)]; [congruence|].
        destruct (Hmin s E1) as [_ H]. replace hs with h' by congruence. rewrite <- E2. by apply H. }
    destruct old as [s|]; [|done]. destruct (decide (o = s)) as [->|Hne].
    + rewrite bool_decide_true by done. cbn. by rewrite bool_decide_true.
    + rewrite bool_decide_false by done. cbn [negb andb]. split; [done|]. cbn. rewrite bool_decide_false; [done|]. by intros [= ->].
  - destruct Hspec as [Hnone Hno]. destruct (List.find _ _) as [o|] eqn:Ef.
    + apply List.find_some in Ef as [Hin Hs]. rewrite <- list_elem_of_In in Hin. destruct old as [s|].
      * cbn [andb]. rewrite bool_decide_true by done. split; [|done]. split; [by left| |by intros ? [= <-]].
        intros (o' & h' & Ht). by destruct (Hno o' h').
      * split; [|done]. split; [by right| |done]. intros (o' & h' & Ht). by destruct (Hno o' h').
    + assert (Hall : forall o, o ∈ g_outbounds g -> supports network o = false).
      { intros o Ho. rewrite list_elem_of_In in Ho. by apply (List.find_none _ _ Ef). }
      destruct old as [s|]; [|done]. cbn. rewrite bool_decide_true by done. split; [|done]. split; [by left| |by intros ? [= <-]].
      intros (o' & h' & Ht). by destruct (Hno o' h').
Qed.

(** C25 An update of the group chooses well, when every recorded delay is at least
    a millisecond and the tolerance carries none of them out of its 16 bits.  For
    each network the choice after it is, when a member has been tested, a tested outbound whose delay exceeds
    that of no tested member by more than the tolerance; a choice is replaced
    only by one that is faster by more than the tolerance, or when its own delay
    is not known; without a choice no member supports the network.  Connections
    are closed exactly when a choice is replaced: those of the group's own, and
    the external ones where that is configured. *)
Theorem url_test_update g :
  0 <= g_tolerance g -> delaysFit view fuel history (g_tolerance g) ->
  let closed := fst (performUpdateCheck view fuel history g) in
  let g' := snd (performUpdateCheck view fuel history g) in
  (forall network, network = "tcp" \/ network = "udp" ->
    match selectedFor network g' with
    | None => selectedFor network g = None /\ forall o, o ∈ g_outbounds g -> supports network o = false
    | Some o => goodChoice network (g_tolerance g) (g_outbounds g) (selectedFor network g) o
    end)
  /\ let replaced network := selectedFor network g <> None /\ selectedFor network g' <> selectedFor network g in
     ((replaced "tcp" \/ replaced "udp") ->
       (forall conn, conn ∈ closed <->
         exists i, i ∈ g_interruptGroup g /\ gc_conn i = conn /\ (gc_isExternal i = false \/ g_interruptExternalConnections g = true))
       /\ forall i, i ∈ g_interruptGroup g' <->
            i ∈ g_interruptGroup g /\ gc_isExternal i = true /\ g_interruptExternalConnections g = false)
     /\ (~ (replaced "tcp" \/ replaced "udp") -> closed = [] /\ g_interruptGroup g' = g_interruptGroup g).
Proof.
  intros Htol Hfit. cbn zeta. unfold performUpdateCheck.
  pose proof (updateSelected_spec "tcp" g Htol Hfit) as H1. destruct (updateSelected _ _ _ "tcp" g) as [tcp r1].
  set (g1 := {| g with g_selectedOutboundTCP := tcp |}).
  pose proof (updateSelected_spec "udp" g1 Htol Hfit) as H2. destruct (updateSelected _ _ _ "udp" g1) as [udp r2].
  cbn zeta in H1, H2. change (selectedFor "udp" g1) with (selectedFor "udp" g) in H2. change (g_outbounds g1) with (g_outbounds g) in H2.
  change (g_tolerance g1) with (g_tolerance g) in H2. destruct H1 as [H1 ->], H2 as [H2 ->].
  set (g2 := {| g1 with g_selectedOutboundUDP := udp |}).
  match goal with |- context [selectedFor _ (snd ?r)] => set (res := r) end.
  assert (Hsel : selectedFor "tcp" (snd res) = tcp /\ selectedFor "udp" (snd res) = udp)
    by (unfold res; by destruct (_ || _)). destruct Hsel as [Ht Hu]. rewrite Ht, Hu.
  split; [intros network [-> | ->]; [by rewrite Ht|by rewrite Hu]|].
  assert (Hrep : forall old new : option Detour, isSome old && negb (bool_decide (new = old)) = true <-> old <> None /\ new <> old).
  { intros old new. rewrite andb_true_iff, negb_true_iff, bool_decide_eq_false. destruct old; cbn; naive_solver. }
  rewrite <- !Hrep, <- orb_true_iff. unfold res. clear res Ht Hu. split.
  - intros ->. exact (Interrupt_spec (g_interruptExternalConnections g) (g_interruptGroup g)).
  - intros ->%not_true_iff_false. done.
Qed.
End update.

(** ** The outbound behind a group *)

Section real_tag.
Context (view : OutboundView) (order : list Managed).
(** The manager knows the outbounds that were started, each after the outbounds
    it depends on; a group chooses one of them. *)
Hypothesis order_first : dependenciesFirst order.
Hypothesis view_started : forall tag o, ov_Outbound view tag = Some o ->
  ob_Tag o = tag /\ exists mo, mo ∈ order /\ mo_Tag mo = tag
  /\ forall now, groupNow view o = Some now -> ov_Outbound view now = None \/ now ∈ mo_Dependencies mo.
Hypothesis order_tags : NoDup (map mo_Tag order).

Lemma order_same i j mo mo' : order !! i = Some mo -> order !! j = Some mo' -> mo_Tag mo = mo_Tag mo' -> i = j.
Proof.
  intros Hi Hj E. apply (NoDup_lookup (map mo_Tag order) i j (mo_Tag mo)); [done|..]; rewrite list_lookup_fmap.
  - by rewrite Hi.
  - rewrite Hj. cbn. by rewrite E.
Qed.

Lemma realTagLoop_ends : forall i mo fuel tag o,
  order !! i = Some mo -> mo_Tag mo = tag -> ov_Outbound view tag = Some o -> (i <= fuel)%nat ->
  exists real, realTagLoop view fuel o tag = Some real
  /\ (ov_Outbound view real = None \/ exists o', ov_Outbound view real = Some o' /\ groupNow view o' = None).
Proof.
  induction i as [i IH] using lt_wf_ind. intros mo fuel tag o Hi Htag Ho Hf.
  destruct (view_started tag o Ho) as (_ & mo' & Hin & Htag' & Hnow).
  apply list_elem_of_lookup in Hin as [i' Hi']. assert (i' = i) as -> by (eapply order_same; [done..|congruence]).
  assert (mo' = mo) as -> by congruence.
  destruct fuel as [|fuel]; cbn [realTagLoop]; (destruct (groupNow view o) as [now|] eqn:Eg;
    [|exists tag; split; [done|]; right; by exists o]); (destruct (ov_Outbound view now) as [d|] eqn:Ed; [|exists now; split; [done|by left]]);
    (destruct (Hnow now eq_refl) as [?|Hdep]; [congruence|]);
    destruct (order_first i mo now Hi Hdep) as (j & mo'' & Hj & Hj' & Ht); [lia|].
  eapply (IH j); [done|exact Hj'|exact Ht|exact Ed|lia].
Qed.

(** C32 Following the choices of nested groups ends: with the outbounds started
    in the order of their dependencies, at most as many steps as there are
    outbounds lead to a tag that no outbound has, or to the tag of an outbound
    that is not a group. *)
Theorem real_tag_ends detour fuel :
  ov_Outbound view (ob_Tag detour) = Some detour -> (length order <= fuel)%nat ->
  exists real, RealTag fuel view detour = Some real
  /\ (ov_Outbound view real = None \/ exists o, ov_Outbound view real = Some o /\ groupNow view o = None).
Proof.
  intros Hd Hf. destruct (view_started _ _ Hd) as (_ & mo & Hin & Ht & _). apply list_elem_of_lookup in Hin as [i Hi].
  apply (realTagLoop_ends i mo); [done..|]. apply lookup_lt_Some in Hi. lia.
Qed.
End real_tag.

(** ** A batch of tests *)

Section batch.
Context (view : OutboundView) (historyAt : nat -> HistoryStorage) (timeAt : nat -> Z) (interval : Z) (force : bool).
Notation test := (batchTest view historyAt timeAt interval force).

(** The members of a selector, and what is reached through selectors. *)
Definition members (o : Detour) : list Detour :=
  match ov_kind view o with GroupOutbound _ all => omap (ov_Outbound view) all | _ => [] end.
Inductive reached (outbounds : list Detour) : Detour -> Prop :=
  | reached_here o : o ∈ outbounds -> reached outbounds o
  | reached_member g o : reached outbounds g -> o ∈ members g -> reached outbounds o.
(** The last test is recent enough, at a reading of the history. *)
Definition recentlyTested (n : nat) (o : Detour) : bool :=
  match LoadURLTestHistory (Some (historyAt n)) (ob_Tag o) with
  | Some h => negb force && (timeAt n - uh_Time h <? interval)
  | None => false
  end.
Definition taskTag (t : urlTestTask) : string := match t with TestOutbound tag => tag | TestGroup o => ob_Tag o end.
(** The batch has dealt with the outbound. *)
Definition dealt (b : urlTestBatch) (o : Detour) : Prop :=
  ob_Tag o ∈ b_checked b \/ (ov_kind view o = PlainOutbound /\ exists n, recentlyTested n o = true).
(** The task an outbound needs. *)
Definition taskOf (o : Detour) : list urlTestTask :=
  match ov_kind view o with
  | PlainOutbound => [TestOutbound (ob_Tag o)]
  | URLTestOutbound _ _ => [TestGroup o]
  | GroupOutbound _ _ => []
  end.

(** What a run of the loop adds to the batch. *)
Record extends (known : Detour -> Prop) (b b' : urlTestBatch) : Prop := {
  ex_checked : b_checked b ⊆ b_checked b';
  ex_new : forall tag, tag ∈ b_checked b' -> tag ∈ b_checked b \/
    exists o, known o /\ ob_Tag o = tag /\ (ov_kind view o = PlainOutbound -> exists n, recentlyTested n o = false)
      /\ (forall m, m ∈ members o -> dealt b' m) /\ (forall t, t ∈ taskOf o -> t ∈ b_tasks b');
  ex_tasks : exists new, b_tasks b' = b_tasks b ++ new /\ NoDup (map taskTag new)
    /\ forall t, t ∈ new -> taskTag t ∈ b_checked b' /\ taskTag t ∉ b_checked b
         /\ exists o, known o /\ ob_Tag o = taskTag t /\ t ∈ taskOf o }.

Lemma dealt_mono b b' o : b_checked b ⊆ b_checked b' -> dealt b o -> dealt b' o.
Proof. intros Hs [H|H]; [left; set_solver|by right]. Qed.
Lemma extends_refl known b : extends known b b.
Proof. split; [done|by left|]. exists []. rewrite app_nil_r. split_and!; [done|constructor|by intros t Ht%elem_of_nil]. Qed.
Lemma extends_trans known b b1 b2 : extends known b b1 -> extends known b1 b2 -> extends known b b2.
Proof.
  intros [H1 H2 (n1 & E1 & D1 & T1)] [H1' H2' (n2 & E2 & D2 & T2)]. split.
  - set_solver.
  - intros tag Ht. destruct (H2' tag Ht) as [Ht1|Ho]; [|by right].
    destruct (H2 tag Ht1) as [?|(o & Ho & Et & Hr & Hm & Hk)]; [by left|right]. exists o. split_and!; [done..| |].
    + intros m Hm'. eapply dealt_mono; [exact H1'|]. by apply Hm.
    + intros t Ht'. rewrite E2. apply elem_of_app. left. by apply Hk.
  - exists (n1 ++ n2). rewrite E2, E1, <- app_assoc. split_and!; [done| |].
    + rewrite map_app. apply list.NoDup_app. split_and!; [done| |done].
      intros tag Ha Hb. apply list_elem_of_In, in_map_iff in Ha as (t & <- & Ht%list_elem_of_In).
      apply list_elem_of_In, in_map_iff in Hb as (t' & Et & Ht'%list_elem_of_In). destruct (T1 t Ht) as (Hc & _ & _).
      destruct (T2 t' Ht') as (_ & Hn & _). rewrite Et in Hn. set_solver.
    + intros t [Ht|Ht]%elem_of_app.
      * destruct (T1 t Ht) as (? & ? & Ho). split_and!; [set_solver|done|done].
      * destruct (T2 t Ht) as (? & Hn & Ho). split_and!; [done|set_solver|done].
Qed.

Lemma extends_same known b groups reads : extends known b (mkURLTestBatch (b_checked b) groups (b_tasks b) reads).
Proof. destruct (extends_refl known b) as [H1 H2 H3]. by split. Qed.
Lemma extends_single (known : Detour -> Prop) b o groups reads :
  known o -> ob_Tag o ∉ b_checked b -> members o = [] -> (ov_kind view o = PlainOutbound -> exists n, recentlyTested n o = false) ->
  length (taskOf o) = 1%nat ->
  extends known b (mkURLTestBatch ({[ob_Tag o]} ∪ b_checked b) groups (b_tasks b ++ taskOf o) reads).
Proof.
  intros Ho Hn Hm Hr Hl. split; cbn [b_checked b_tasks].
  - set_solver.
  - intros tag [->%elem_of_singleton|Ht]%elem_of_union; [right|by left]. exists o. rewrite Hm.
    split_and!; [done..|by intros m Hm'%elem_of_nil|]. intros t Ht. apply elem_of_app. by right.
  - assert (Htag : forall t, t ∈ taskOf o -> taskTag t = ob_Tag o).
    { intros t. unfold taskOf. destruct (ov_kind view o); [|by intros Ht%elem_of_nil|]; intros ->%list_elem_of_singleton; done. }
    exists (taskOf o). split_and!; [done| |].
    + destruct (taskOf o) as [|t [|]]; try done. apply list.NoDup_singleton.
    + intros t Ht. rewrite (Htag t Ht). split_and!; [set_solver|done|by exists o].
Qed.
Lemma extends_group (known : Detour -> Prop) b b2 o groups reads :
  known o -> ov_kind view o <> PlainOutbound -> taskOf o = [] ->
  extends known (mkURLTestBatch ({[ob_Tag o]} ∪ b_checked b) groups (b_tasks b) reads) b2 -> (forall m, m ∈ members o -> dealt b2 m) ->
  extends known b b2.
Proof.
  intros Ho Hk Ht [H1 H2 (new & E & D & T)] Hm. cbn [b_checked b_tasks] in *. split.
  - set_solver.
  - intros tag Hin. destruct (H2 tag Hin) as [[->%elem_of_singleton|?]%elem_of_union|Hx]; [right|by left|by right].
    exists o. rewrite Ht. split_and!; [done..|by intros t Ht'%elem_of_nil].
  - exists new. split_and!; [done..|]. intros t Hin. destruct (T t Hin) as (? & ? & ?). split_and!; [done|set_solver|done].
Qed.

Lemma batchTest_spec (known : Detour -> Prop) :
  (forall o m, known o -> m ∈ members o -> known m) ->
  forall fuel outbounds b b', (forall o, o ∈ outbounds -> known o) -> test fuel outbounds b = Some b' ->
  extends known b b' /\ forall o, o ∈ outbounds -> dealt b' o.
Proof.
  intros Hknown. induction fuel as [|fuel IH]; intros outbounds b b' Hout.
  { destruct outbounds; [|done]. intros [= <-]. split; [apply extends_refl|by intros o Ho%elem_of_nil]. }
  destruct outbounds as [|d outbounds]; [intros [= <-]; split; [apply extends_refl|by intros o Ho%elem_of_nil]|].
  assert (Hrest : forall b1, extends known b b1 -> dealt b1 d -> test fuel outbounds b1 = Some b' ->
    extends known b b' /\ forall o, o ∈ d :: outbounds -> dealt b' o).
  { intros b1 Hex Hd Hb. apply IH in Hb as [Hex' Hdealt]; [|intros; apply Hout; by right]. split; [by eapply extends_trans|].
    intros o [->|Ho]%elem_of_cons; [|by apply Hdealt]. eapply dealt_mono; [apply Hex'|done]. }
  assert (Hd : known d) by (apply Hout; left). cbn [batchTest]. case_bool_decide as Hc; [by apply Hrest; [apply extends_refl|left]|].
  destruct (ov_kind view d) as [|n all|n all] eqn:Ek.
  - cbn zeta. fold (recentlyTested (b_reads b) d). destruct (recentlyTested (b_reads b) d) eqn:Er;
      [apply Hrest; [apply extends_same|right; split; [done|by exists (b_reads b)]]|].
    apply Hrest; [|left; cbn; set_solver].
    replace [TestOutbound (ob_Tag d)] with (taskOf d) by (unfold taskOf; by rewrite Ek).
    apply extends_single; [done|done|unfold members; by rewrite Ek|by intros _; exists (b_reads b)|unfold taskOf; by rewrite Ek].
  - destruct (test fuel _ _) as [b2|] eqn:E2; [|done].
    assert (Hmem : members d = omap (ov_Outbound view) all) by (unfold members; by rewrite Ek). rewrite <- Hmem in E2.
    apply IH in E2 as [Hex Hdealt]; [|by intros m Hm; apply (Hknown d)].
    apply Hrest; [eapply extends_group; [done|by rewrite Ek|unfold taskOf; by rewrite Ek|exact Hex|done]|].
    left. apply (ex_checked _ _ _ Hex). cbn. set_solver.
  - apply Hrest; [|left; cbn; set_solver]. replace [TestGroup d] with (taskOf d) by (unfold taskOf; by rewrite Ek).
    apply extends_single; [done|done|unfold members; by rewrite Ek|by rewrite Ek|unfold taskOf; by rewrite Ek].
Qed.

(** Every selector is entered once, so the recursion ends. *)
Lemma batchTest_ends (tags : gset string) (known : Detour -> Prop) :
  (forall o m, known o -> m ∈ members o -> known m) -> (forall o, known o -> ob_Tag o ∈ tags) ->
  forall n outbounds b, (size (tags ∖ b_checked b) <= n)%nat -> (forall o, o ∈ outbounds -> known o) ->
  exists fuel0 b', forall fuel, (fuel0 <= fuel)%nat -> test fuel outbounds b = Some b'.
Proof.
  intros Hknown Htags. induction n as [|n IHn]; intros outbounds; induction outbounds as [|d outbounds IHo]; intros b Hn Hout;
    try (exists 0%nat, b; intros fuel _; by destruct fuel).
  - assert (Hin : ob_Tag d ∈ b_checked b).
    { apply dec_stable. intros Hc. assert (ob_Tag d ∈ tags ∖ b_checked b) by (apply elem_of_difference; split; [by apply Htags, Hout; left|done]).
      assert (tags ∖ b_checked b ≡ ∅) by (apply size_empty_iff; lia). set_solver. }
    destruct (IHo b Hn) as (f & b' & Hf); [intros; apply Hout; by right|]. exists (S f), b'. intros fuel Hfuel. destruct fuel as [|fuel]; [lia|].
    cbn [batchTest]. rewrite bool_decide_true by done. apply Hf. lia.
  - assert (Hd : known d) by (apply Hout; left). assert (Hout' : forall o, o ∈ outbounds -> known o) by (intros; apply Hout; by right).
    assert (Hstep : forall b1, b_checked b ⊆ b_checked b1 -> exists fuel0 b', forall fuel, (fuel0 <= fuel)%nat -> test fuel outbounds b1 = Some b').
    { intros b1 Hs. apply IHo; [|done]. etrans; [|exact Hn]. apply subseteq_size. set_solver. }
    destruct (decide (ob_Tag d ∈ b_checked b)) as [Hc|Hc].
    { destruct (Hstep b) as (f & b' & Hf); [done|]. exists (S f), b'. intros [|fuel] Hfuel; [lia|]. cbn [batchTest].
      rewrite bool_decide_true by done. apply Hf. lia. }
    destruct (ov_kind view d) as [|w all|w all] eqn:Ek.
    + set (n' := b_reads b).
      set (b1 := if recentlyTested n' d then mkURLTestBatch (b_checked b) (b_groups b) (b_tasks b) (S n')
                 else mkURLTestBatch ({[ob_Tag d]} ∪ b_checked b) (b_groups b) (b_tasks b ++ [TestOutbound (ob_Tag d)]) (S n')).
      destruct (Hstep b1) as (f & b' & Hf); [unfold b1; destruct (recentlyTested n' d); cbn; set_solver|]. exists (S f), b'. intros [|fuel] Hfuel; [lia|].
      cbn [batchTest]. rewrite bool_decide_false by done. rewrite Ek. cbn zeta. fold n' (recentlyTested n' d). unfold b1 in Hf.
      destruct (recentlyTested n' d); apply Hf; lia.
    + set (b1 := mkURLTestBatch ({[ob_Tag d]} ∪ b_checked b) (b_groups b ++ [d]) (b_tasks b) (b_reads b)).
      assert (Hmem : members d = omap (ov_Outbound view) all) by (unfold members; by rewrite Ek).
      destruct (IHn (members d) b1) as (f1 & b2 & Hf1).
      { assert (Hlt : (size (tags ∖ b_checked b1) < size (tags ∖ b_checked b))%nat).
        { apply subset_size. assert (ob_Tag d ∈ tags) by by apply Htags. cbn. set_solver. } lia. }
      { by intros m Hm; apply (Hknown d). }
      assert (Hs : b_checked b ⊆ b_checked b2).
      { specialize (Hf1 f1 ltac:(lia)). apply (batchTest_spec known Hknown) in Hf1 as [Hex _]; [|by intros m Hm; apply (Hknown d)].
        pose proof (ex_checked _ _ _ Hex). cbn in *. set_solver. }
      destruct (Hstep b2 Hs) as (f2 & b' & Hf2). exists (S (f1 + f2)), b'. intros [|fuel] Hfuel; [lia|].
      cbn [batchTest]. rewrite bool_decide_false by done. rewrite Ek, <- Hmem. fold b1. rewrite Hf1 by lia. apply Hf2. lia.
    + set (b1 := mkURLTestBatch ({[ob_Tag d]} ∪ b_checked b) (b_groups b ++ [d]) (b_tasks b ++ [TestGroup d]) (b_reads b)).
      destruct (Hstep b1) as (f & b' & Hf); [cbn; set_solver|]. exists (S f), b'. intros [|fuel] Hfuel; [lia|].
      cbn [batchTest]. rewrite bool_decide_false by done. rewrite Ek. apply Hf. lia.
Qed.

Lemma finishTests_lookup ended : NoDup (map fst ended) -> forall h tag,
  hs_delayHistory (finishTests ended h) !! tag =
  match (list_to_map ended : gmap string urlTestEnd) !! tag with
  | Some (TestDelay now delay) => Some (mkURLTestHistory now delay)
  | Some (TestFailed false) => None
  | Some (TestFailed true) | None => hs_delayHistory h !! tag
  end.
Proof.
  induction ended as [|[t d] ended IH]; intros Hd h tag; [done|]. cbn [map fst] in Hd.
  apply list.NoDup_cons in Hd as [Hn Hd]. cbn [finishTests foldl fst snd].
  change (foldl _ (finishTest t d h) ended) with (finishTests ended (finishTest t d h)).
  rewrite (IH Hd). cbn [list_to_map foldr]. change (list_to_map ((t, d) :: ended)) with (<[t := d]> (list_to_map ended : gmap string urlTestEnd)).
  destruct (decide (tag = t)) as [->|Hne].
  - rewrite lookup_insert_eq. rewrite (not_elem_of_list_to_map_1 (M := gmap string)) by done.
    destruct d as [now d|[|]]; cbn; [by rewrite lookup_insert_eq|done|by rewrite lookup_delete_eq].
  - rewrite lookup_insert_ne by done. assert (E : hs_delayHistory (finishTest t d h) !! tag = hs_delayHistory h !! tag).
    { destruct d as [now d|[|]]; cbn; [by rewrite lookup_insert_ne|done|by rewrite lookup_delete_ne]. }
    by rewrite E.
Qed.

(** C27 A batch of URL tests is complete and ends, also when selectors contain
    each other, whatever the history is at each reading of it; the outbounds
    reached have tags of a finite set, under which the manager knows them.  Every
    outbound reached through selectors is tested once, unless a reading found its
    last test recent and the batch is not forced; none is tested that every
    reading finds recent; every URL test group reached is told to test its own
    members; nothing else is tested.  In whatever order the tests end, one for an
    outbound, the history has afterwards the delay of each outbound that
    answered, with the time it did, none for one that failed unless the batch was
    cancelled, and the old entries of the others. *)
Theorem url_test_batch (tags : gset string) outbounds :
  (forall o, reached outbounds o -> ob_Tag o ∈ tags /\ ov_Outbound view (ob_Tag o) = Some o) ->
  exists fuel0 b, (forall fuel, (fuel0 <= fuel)%nat -> test fuel outbounds (mkURLTestBatch ∅ [] [] 0) = Some b)
  /\ NoDup (map taskTag (b_tasks b))
  /\ (forall t, t ∈ b_tasks b -> exists o, reached outbounds o /\ t ∈ taskOf o
        /\ (ov_kind view o = PlainOutbound -> exists n, recentlyTested n o = false))
  /\ (forall t o, reached outbounds o -> t ∈ taskOf o ->
        (ov_kind view o = PlainOutbound -> forall n, recentlyTested n o = false) -> t ∈ b_tasks b)
  /\ forall ended history, NoDup (map fst ended) -> forall tag,
       hs_delayHistory (finishTests ended history) !! tag =
       match (list_to_map ended : gmap string urlTestEnd) !! tag with
       | Some (TestDelay now delay) => Some (mkURLTestHistory now delay)
       | Some (TestFailed false) => None
       | Some (TestFailed true) | None => hs_delayHistory history !! tag
       end.
Proof.
  intros Hview. assert (Hmem : forall o m, reached outbounds o -> m ∈ members o -> reached outbounds m) by (intros; by eapply reached_member).
  destruct (batchTest_ends tags (reached outbounds) Hmem (fun o H => proj1 (Hview o H)) (size tags) outbounds (mkURLTestBatch ∅ [] [] 0))
    as (fuel0 & b & Hb).
  { apply subseteq_size. set_solver. }
  { intros o Ho. by apply reached_here. }
  destruct (batchTest_spec (reached outbounds) Hmem fuel0 outbounds _ b (fun o H => reached_here outbounds o H) (Hb fuel0 (le_n fuel0)))
    as [[_ Hnew (new & Et & Hd & Ht)] Hdealt]. cbn [b_tasks b_checked app] in *. subst new.
  assert (Hsame : forall o o', reached outbounds o -> reached outbounds o' -> ob_Tag o = ob_Tag o' -> o = o').
  { intros o o' Ho Ho' E. destruct (Hview o Ho) as [_ H1], (Hview o' Ho') as [_ H2]. rewrite E in H1. congruence. }
  assert (Hall : forall o, reached outbounds o -> dealt b o).
  { intros o Ho. induction Ho as [o Ho|g o Hg IH Ho]; [by apply Hdealt|]. destruct IH as [IH|[Hk _]].
    - destruct (Hnew _ IH) as [?|(g' & Hg' & Eg & _ & Hm & _)]; [set_solver|]. apply Hm. by rewrite (Hsame g' g) by done.
    - unfold members in Ho. rewrite Hk in Ho. by apply elem_of_nil in Ho. }
  exists fuel0, b. split_and!; [done|done| | |intros; by apply finishTests_lookup].
  - intros t Hin. destruct (Ht t Hin) as (Hc & _ & o & Ho & Eo & Hto). exists o. split_and!; [done..|]. intros Hk.
    destruct (Hnew _ Hc) as [?|(o' & Ho' & Eo' & Hr & _)]; [set_solver|]. rewrite <- (Hsame o' o) in * by (done || congruence). by apply Hr.
  - intros t o Ho Hto Hr. destruct (Hall o Ho) as [Hc|(Hk & n & Hrec)]; [|by rewrite Hr in Hrec].
    destruct (Hnew _ Hc) as [?|(o' & Ho' & Eo' & _ & _ & Hk)]; [set_solver|]. apply Hk. by rewrite (Hsame o' o).
Qed.
End batch.

(** ** The selector *)

Section selector.
Context `{L : Libs} `{B : Bbolt} (reopen : bool) (view : OutboundView).
Hypothesis view_tag : forall tag o, ov_Outbound view tag = Some o -> ob_Tag o = tag /\ tag <> "".

(** An open cache file. *)
Definition fileOk (c : CacheFile) : Prop := exists db, cf_db c = Some db /\ closedDB db /\ idOk (cf_cacheID c).

Lemma loadMembers_lookup : forall tags i init m, loadMembers view i tags init = Ok m ->
  (forall tag, m !! tag = if bool_decide (tag ∈ tags) then ov_Outbound view tag else init !! tag)
  /\ forall tag, tag ∈ tags -> is_Some (ov_Outbound view tag).
Proof.
  induction tags as [|t tags IH]; intros i init m; cbn [loadMembers].
  { intros [= <-]. split; [done|]. by intros tag H%elem_of_nil. }
  destruct (ov_Outbound view t) as [d|] eqn:Ed; [|done]. intros H. apply IH in H as [Hm Hs]. split.
  - intros tag. rewrite Hm. destruct (decide (tag ∈ tags)) as [Hin|Hin].
    + by rewrite !bool_decide_true by (done || by right).
    + rewrite bool_decide_false by done. destruct (decide (tag = t)) as [->|Hne].
      * rewrite lookup_insert_eq, bool_decide_true by left. by rewrite Ed.
      * rewrite lookup_insert_ne, bool_decide_false by (done || rewrite elem_of_cons; naive_solver). done.
  - intros tag [->|Hin]%elem_of_cons; [by rewrite Ed|by apply Hs].
Qed.

Lemma LoadSelected_file group c : snd (LoadSelected reopen group c) = c.
Proof.
  unfold LoadSelected, CacheFile.view. destruct (cf_db c) as [db|]; [|done].
  destruct (cf_bucket c db bucketSelected); [|done]. by destruct (_ <? _)%nat.
Qed.
Lemma StoreSelected_file group selected c c' :
  fileOk c -> StoreSelected reopen group selected c = (None, c') ->
  fileOk c' /\ fst (LoadSelected reopen group c') = selected.
Proof.
  intros (db & Hdb & Hcl & Hid) Hs. split; [|by apply (selected_roundtrip reopen c c' db group selected Hdb Hcl Hid Hs)].
  unfold StoreSelected in Hs. destruct (batch reopen _ c) as [[u|e] c1] eqn:E; [|done]. injection Hs as ->.
  apply batch_done in E as (? & db' & Hdb' & Htx & ->). rewrite Hdb in Hdb'. injection Hdb' as <-.
  exists db'. split_and!; [done| |done]. by eapply closed_storeEntry.
Qed.

(** What happens to a selector that was started. *)
Inductive SelectorOp :=
  | OpSelect (tag : string)
  | OpDial (r : Detour -> result nat) (isExternal : bool)
  | OpCloseConn (conn : nat).
Definition runSelectorOp (op : SelectorOp) (s : Selector) (c : CacheFile) : Selector * CacheFile :=
  match op with
  | OpSelect tag =>
      let '(_, s, c', _, _) := SelectOutbound reopen tag s (Some c) in (s, default c c')
  | OpDial r isExternal => (snd (Selector_DialContext r isExternal s), c)
  | OpCloseConn conn => ({| s with s_interruptGroup := Interrupt_CloseConn conn (s_interruptGroup s) |}, c)
  end.
(** No write to the cache file fails. *)
Definition storesOp (op : SelectorOp) (s : Selector) (c : CacheFile) : Prop :=
  match op with OpSelect tag => fst (StoreSelected reopen (s_Tag s) tag c) = None | _ => True end.
Fixpoint runSelector (ops : list SelectorOp) (s : Selector) (c : CacheFile) : Selector * CacheFile :=
  match ops with [] => (s, c) | op :: ops => let '(s, c) := runSelectorOp op s c in runSelector ops s c end.
Fixpoint storesAll (ops : list SelectorOp) (s : Selector) (c : CacheFile) : Prop :=
  match ops with
  | [] => True
  | op :: ops => storesOp op s c /\ storesAll ops (fst (runSelectorOp op s c)) (snd (runSelectorOp op s c))
  end.

(** What [Start] chooses from the cache file, among the outbounds that were found. *)
Definition startChoice (tag default' : string) (tags : list string) (outbounds : gmap string Detour) (c : CacheFile) : option Detour :=
  let selected := fst (LoadSelected reopen tag c) in
  match (if negb (String.eqb selected "") then outbounds !! selected else None) with
  | Some detour => Some detour
  | None => if negb (String.eqb default' "") then outbounds !! default' else match tags with t :: _ => outbounds !! t | [] => None end
  end.
(** A started selector and its cache file: the choice is a member, and the one a restart would make. *)
Record selectorOk (s : Selector) (c : CacheFile) : Prop := {
  so_file : fileOk c;
  so_tag : s_Tag s <> "";
  so_members : forall tag o, s_outbounds s !! tag = Some o -> tag ∈ s_tags s /\ ov_Outbound view tag = Some o;
  so_selected : exists tag o, s_selected s = Some o /\ s_outbounds s !! tag = Some o;
  so_persisted : startChoice (s_Tag s) (s_defaultTag s) (s_tags s) (s_outbounds s) c = s_selected s }.
(** What the options fix. *)
Definition sameOptions (s s' : Selector) : Prop :=
  s_Tag s' = s_Tag s /\ s_tags s' = s_tags s /\ s_defaultTag s' = s_defaultTag s /\ s_outbounds s' = s_outbounds s.

Lemma runSelectorOp_ok op s c :
  selectorOk s c -> storesOp op s c ->
  selectorOk (fst (runSelectorOp op s c)) (snd (runSelectorOp op s c)) /\ sameOptions s (fst (runSelectorOp op s c)).
Proof.
  intros [Hf Ht Hm (t0 & o0 & Hs & Ho) Hp] Hst. destruct op as [tag|r ext|conn]; cbn [runSelectorOp storesOp] in *.
  - unfold SelectOutbound. destruct (s_outbounds s !! tag) as [d|] eqn:Ed.
    2: { cbn [fst snd]. split; [split; [done..|by exists t0, o0|done]|done]. }
    case_bool_decide as Hsame.
    { cbn [fst snd]. split; [|done]. split; cbn; [done..|by exists tag, d|]. by rewrite <- Hsame. }
    destruct (String.eqb_spec (s_Tag s) ""); [done|]. cbn [negb s_Tag]. destruct (String.eqb_spec (s_Tag s) ""); [done|]. cbn [negb].
    destruct (StoreSelected reopen (s_Tag s) tag c) as [e c'] eqn:Es. cbn [fst] in Hst. subst e.
    destruct (StoreSelected_file _ _ _ _ Hf Es) as [Hf' Hload]. cbn. split; [|done]. split; cbn; [done..|by exists tag, d|].
    unfold startChoice. rewrite Hload. destruct (Hm tag d Ed) as [_ Hv]. destruct (view_tag tag d Hv) as [_ Hne].
    destruct (String.eqb_spec tag ""); [done|]. cbn. by rewrite Ed.
  - unfold Selector_DialContext. rewrite Hs. destruct (r o0); cbn; (split; [|done]); split; cbn; first [done|by exists t0, o0|congruence].
  - cbn. split; [|done]. split; cbn; first [done|by exists t0, o0|congruence].
Qed.

Lemma runSelector_ok ops : forall s c,
  selectorOk s c -> storesAll ops s c ->
  selectorOk (fst (runSelector ops s c)) (snd (runSelector ops s c)) /\ sameOptions s (fst (runSelector ops s c)).
Proof.
  induction ops as [|op ops IH]; intros s c Hok; cbn [runSelector storesAll]; [done|]. intros [Hst Hall].
  destruct (runSelectorOp_ok op s c Hok Hst) as [Hok' Hsame]. destruct (runSelectorOp op s c) as [s1 c1]. cbn [fst snd] in *.
  destruct (IH s1 c1 Hok' Hall) as [H1 H2]. split; [done|]. unfold sameOptions in *. naive_solver congruence.
Qed.

(** [Start] on an open cache file. *)
Lemma Selector_Start_eq s c m :
  s_Tag s <> "" -> loadMembers view 0 (s_tags s) (s_outbounds s) = Ok m ->
  Selector_Start reopen view s (Some c)
  = (match startChoice (s_Tag s) (s_defaultTag s) (s_tags s) m c with
     | Some o => Ok {| s with s_outbounds := m; s_selected := Some o |}
     | None => selectDefault {| s with s_outbounds := m |}
     end, Some c).
Proof.
  intros Ht Hm. unfold Selector_Start. rewrite Hm. cbn [s_Tag]. destruct (String.eqb_spec (s_Tag s) ""); [done|]. cbn [negb].
  pose proof (LoadSelected_file (s_Tag s) c) as Hc. unfold startChoice. destruct (LoadSelected reopen (s_Tag s) c) as [sel c']. cbn [snd fst] in *. subst c'.
  cbn [s_outbounds]. destruct (if negb (String.eqb sel "") then m !! sel else None) as [d|]; [done|].
  unfold selectDefault. cbn [s_defaultTag s_outbounds s_tags]. destruct (negb _); [by destruct (m !! s_defaultTag s)|].
  destruct (s_tags s) as [|t ts]; [done|]. by destruct (m !! t).
Qed.

Lemma selector_started s0 c s1 c1 :
  s_outbounds s0 = ∅ -> s_Tag s0 <> "" -> fileOk c -> Selector_Start reopen view s0 (Some c) = (Ok s1, Some c1) ->
  selectorOk s1 c1 /\ loadMembers view 0 (s_tags s0) (s_outbounds s0) = Ok (s_outbounds s1)
  /\ s_Tag s1 = s_Tag s0 /\ s_tags s1 = s_tags s0 /\ s_defaultTag s1 = s_defaultTag s0.
Proof.
  intros He Ht Hf Hs. destruct (loadMembers view 0 (s_tags s0) (s_outbounds s0)) as [m|e] eqn:Hm.
  2: { unfold Selector_Start in Hs. by rewrite Hm in Hs. }
  rewrite (Selector_Start_eq s0 c m Ht Hm) in Hs. destruct (loadMembers_lookup _ _ _ _ Hm) as [Hlook Hall].
  assert (Hmem : forall tag o, m !! tag = Some o -> tag ∈ s_tags s0 /\ ov_Outbound view tag = Some o).
  { intros tag o. rewrite Hlook, He. case_bool_decide; [done|]. by rewrite lookup_empty. }
  destruct (startChoice _ _ _ m c) as [o|] eqn:Ec.
  - injection Hs as <- <-. cbn. split_and!; try done. split; cbn; [done..| |by rewrite Ec].
    unfold startChoice in Ec. destruct (if negb _ then _ else None) as [d|] eqn:Ed.
    + injection Ec as ->. exists (fst (LoadSelected reopen (s_Tag s0) c)), o. split; [done|]. by destruct (String.eqb _ "").
    + destruct (String.eqb (s_defaultTag s0) ""); cbn [negb] in Ec; [|by exists (s_defaultTag s0), o].
      destruct (s_tags s0) as [|t ts]; [done|]. by exists t, o.
  - exfalso. unfold startChoice in Ec. destruct (if negb _ then _ else None) as [d|]; [done|]. unfold selectDefault in Hs.
    cbn [s_defaultTag s_outbounds s_tags] in Hs. destruct (String.eqb (s_defaultTag s0) ""); cbn [negb] in *; [|by rewrite Ec in Hs].
    destruct (s_tags s0) as [|t ts] eqn:Et; [done|]. destruct (Hall t) as [o Ho]; [left|].
    rewrite Hlook, bool_decide_true, Ho in Ec by left. done.
Qed.

(** C26 A selection lasts.  After a selector has been started on a cache file
    and any sequence of selections, connections and closed connections, as long
    as the cache file can be written, the selection is one of the members and
    dialing never meets an empty selection; and a selector with the same options
    that is started on the cache file as it is then makes the same selection. *)
Theorem selector_persists tag tags default' hasHistory interruptExist s0 c0 s1 c1 ops :
  tag <> "" -> fileOk c0 -> NewSelector tag tags default' hasHistory interruptExist = Ok s0 ->
  Selector_Start reopen view s0 (Some c0) = (Ok s1, Some c1) -> storesAll ops s1 c1 ->
  let s := fst (runSelector ops s1 c1) in
  let c := snd (runSelector ops s1 c1) in
  exists o, s_selected s = Some o /\ ob_Tag o ∈ tags /\ Selector_Now s = Ok (ob_Tag o)
  /\ (forall r isExternal, ~ exists m, fst (Selector_DialContext (fun _ => Ok r) isExternal s) = Err (GoPanic m))
  /\ exists s', Selector_Start reopen view s0 (Some c) = (Ok s', Some c) /\ s_selected s' = Some o.
Proof.
  intros Ht Hf Hnew Hstart Hstores. unfold NewSelector in Hnew. destruct (length tags =? 0)%nat; [done|]. injection Hnew as <-.
  destruct (selector_started (mkSelector tag tags default' ∅ None hasHistory [] interruptExist) c0 s1 c1 eq_refl Ht Hf Hstart) as (Hok & Hm & E1 & E2 & E3). cbn [s_Tag s_tags s_defaultTag s_outbounds] in *.
  destruct (runSelector_ok ops s1 c1 Hok Hstores) as [Hok' (F1 & F2 & F3 & F4)]. cbn zeta.
  destruct (runSelector ops s1 c1) as [s c]. cbn [fst snd] in *. destruct Hok' as [Hfile _ Hmem (t & o & Hs & Ho) Hp].
  destruct (Hmem t o Ho) as [Hin Hv]. destruct (view_tag t o Hv) as [Htag _].
  exists o. split_and!; [done|rewrite Htag; congruence|unfold Selector_Now; by rewrite Hs| |].
  - intros r ext (m & Hd). unfold Selector_DialContext in Hd. by rewrite Hs in Hd.
  - rewrite (Selector_Start_eq (mkSelector tag tags default' ∅ None hasHistory [] interruptExist) c (s_outbounds s1)) by done. cbn [s_Tag s_tags s_defaultTag].
    rewrite F1, F2, F3, F4, E1, E2, E3, Hs in Hp. rewrite Hp. by eexists.
Qed.
End selector.
