(* ===== verification/GroupExamples.v ===== *)
(** * Outbound groups: corners and examples *)

From S2P Require Import Prelude.
From S2P Require Import GoText.
From S2P Require Import Bytes.
From S2P Require Import Libs.
From S2P Require Import Bolt.
From S2P Require Import CacheFile.
From S2P Require Import CacheFileTheorems.
From S2P Require Import CacheFileExamples.
From S2P Require Import Lifecycle.
From S2P Require Import LifecycleTheorems.
From S2P Require Import Group.
From S2P Require Import GroupTheorems.
Local Open Scope string_scope.
Local Open Scope list_scope.
Local Open Scope Z_scope.

(** ** Corners *)

Section corners.
Context (view : OutboundView) (fuel : nat).

Section wrapping.
Context (history : HistoryStorage) (network : string).
Notation hist := (historyOf view fuel history).
Notation testedIn := (tested view fuel history network).

Lemma tested_cons d outbounds o h :
  testedIn (d :: outbounds) o h <-> testedIn outbounds o h \/ o = d /\ supports network d = true /\ hist d = Some h.
Proof. unfold tested. rewrite elem_of_cons. naive_solver. Qed.

(** The last one of the fastest. *)
Definition lastFastest (outbounds : list Detour) (o : Detour) (h : URLTestHistory) : Prop :=
  exists pre post, outbounds = pre ++ o :: post /\ supports network o = true /\ hist o = Some h
    /\ (forall o' h', testedIn outbounds o' h' -> uh_Delay h <= uh_Delay h')
    /\ forall o' h', testedIn post o' h' -> uh_Delay h < uh_Delay h'.

(** With a tolerance of 65535 the sum is the delay less one. *)
Lemma selectLoop_wraps : forall outbounds m hm,
  0 < uh_Delay hm -> (forall o h, testedIn outbounds o h -> 0 < uh_Delay h < 2 ^ 16) ->
  exists o h, selectLoop view fuel history network 65535 outbounds (uh_Delay hm) (Some m) = Some o /\ uh_Delay h <= uh_Delay hm
    /\ ((o = m /\ h = hm /\ forall o' h', testedIn outbounds o' h' -> uh_Delay hm < uh_Delay h') \/ lastFastest outbounds o h).
Proof.
  induction outbounds as [|d outbounds IH]; intros m hm Hpos Hall; cbn [selectLoop].
  { exists m, hm. split_and!; [done..|]. left. split_and!; [done..|]. by intros o h [Ho%elem_of_nil _]. }
  setoid_rewrite tested_cons in Hall. assert (Hall' : forall o h, testedIn outbounds o h -> 0 < uh_Delay h < 2 ^ 16) by eauto.
  assert (Hgo : forall m0 hm0, 0 < uh_Delay hm0 <= uh_Delay hm ->
    (forall h, supports network d = true -> hist d = Some h -> uh_Delay hm0 < uh_Delay h \/ m0 = d /\ hm0 = h) ->
    (m0 = m /\ hm0 = hm /\ (forall h, supports network d = true -> hist d = Some h -> uh_Delay hm < uh_Delay h)
     \/ m0 = d /\ supports network d = true /\ hist d = Some hm0) ->
    exists o h, selectLoop view fuel history network 65535 outbounds (uh_Delay hm0) (Some m0) = Some o /\ uh_Delay h <= uh_Delay hm
    /\ ((o = m /\ h = hm /\ forall o' h', testedIn (d :: outbounds) o' h' -> uh_Delay hm < uh_Delay h') \/ lastFastest (d :: outbounds) o h)).
  { intros m0 hm0 Hle Hd Hor. destruct (IH m0 hm0) as (o & h & -> & Hh & H); [lia|done|]. exists o, h. split_and!; [done|lia|].
    destruct H as [(-> & -> & Hno)|(pre & post & -> & Hs & Eo & Hmin & Hlast)].
    - destruct Hor as [(-> & -> & Hd')|(-> & Hs & Ed)].
      + left. split_and!; [done..|]. intros o' h' [Ho|(-> & ? & ?)]%tested_cons; eauto.
      + right. exists [], outbounds. split_and!; [done..| |done]. intros o' h' [Ho|(-> & ? & ?)]%tested_cons; [|replace h' with hm0 by congruence; lia].
        specialize (Hno o' h' Ho). lia.
    - right. exists (d :: pre), post. split_and!; [done..| |done]. intros o' h' [Ho|(-> & Hs' & Ed)]%tested_cons; [by apply (Hmin o')|].
      destruct (Hd h' Hs' Ed) as [|[_ <-]]; lia. }
  destruct (supports network d) eqn:Hs; cbn [negb]; [|apply Hgo; [lia|done|by left]].
  destruct (hist d) as [hd|] eqn:Ed; [|apply Hgo; [lia|done|by left]].
  assert (Hd : 0 < uh_Delay hd < 2 ^ 16) by (apply (Hall d); right; by split_and!).
  replace (uh_Delay hd + 65535) with (uh_Delay hd - 1 + 1 * 2 ^ 16) by lia. rewrite Z.mod_add, Z.mod_small by lia.
  destruct (Z.eqb_spec (uh_Delay hm) 0), (Z.ltb_spec (uh_Delay hd - 1) (uh_Delay hm)); try lia; cbn [orb].
  - apply Hgo; [lia|intros h _ [= ->]; by right|by right].
  - apply Hgo; [lia|intros h _ [= <-]; left; lia|left; split_and!; [done..|intros h _ [= <-]; lia]].
Qed.

(** A delay of 0 counts as none. *)
Lemma selectLoop_positive tolerance pre b hb post : forall minDelay minOutbound,
  supports network b = true -> hist b = Some hb -> 0 < uh_Delay hb -> (forall o h, ~ testedIn post o h) ->
  holds view fuel history minDelay minOutbound -> 0 <= minDelay -> (forall o h, hist o = Some h -> 0 <= uh_Delay h) ->
  exists o h, selectLoop view fuel history network tolerance (pre ++ b :: post) minDelay minOutbound = Some o /\ hist o = Some h /\ 0 < uh_Delay h.
Proof.
  intros minDelay minOutbound Hs Eb Hb Hpost Hm H0 Hnn. revert minDelay minOutbound Hm H0.
  induction pre as [|d pre IH]; intros minDelay minOutbound Hm H0; cbn [app selectLoop].
  - assert (Hend : forall md m, selectLoop view fuel history network tolerance post md m = m).
    { clear -Hpost. induction post as [|d post IH]; intros md m; [done|]. cbn [selectLoop]. setoid_rewrite tested_cons in Hpost.
      destruct (supports network d) eqn:Hs; cbn [negb]; [|apply IH; naive_solver].
      destruct (hist d) as [h|] eqn:Eh; [|apply IH; naive_solver]. destruct (Hpost d h). by right. }
    rewrite Hs, Eb, !Hend. cbn [negb]. destruct (_ || _) eqn:E; [by exists b, hb|]. apply orb_false_iff in E as [E%Z.eqb_neq _].
    destruct minOutbound as [o|]; [|done]. destruct Hm as (h & Eh & ->). exists o, h. split_and!; [done..|lia].
  - destruct (supports network d); cbn [negb]; [|by apply IH]. destruct (hist d) as [h|] eqn:Ed; [|by apply IH].
    destruct (_ || _); [|by apply IH]. apply IH; [by exists h|]. by apply (Hnn d).
Qed.
End wrapping.

(** C40 Where the choice goes wrong.  With a tolerance of 65535 the sum with the
    delay wraps around: a choice that is a tested member is not kept but gives
    way to the last listed of the fastest members, all delays being positive.  A
    choice of delay 0 gives way to a member of positive delay whenever the last
    tested member of the group has one.  When dialing the choice fails and it
    is a group, whose history is that of another outbound, the history that the
    next choice looks at is left as it was.  A started group that is used after
    it was closed, with its ticker running, cannot be closed again. *)
Theorem url_test_corners (history : HistoryStorage) (network : string) (g : URLTestGroup) (a : Detour) (ha : URLTestHistory) :
  network = "tcp" \/ network = "udp" -> selectedFor network g = Some a -> historyOf view fuel history a = Some ha ->
  (forall o h, historyOf view fuel history o = Some h -> 0 <= uh_Delay h < 2 ^ 16) ->
  (g_tolerance g = 65535 -> a ∈ g_outbounds g -> supports network a = true ->
   (forall o h, tested view fuel history network (g_outbounds g) o h -> 0 < uh_Delay h) ->
   exists o h, Select view fuel history network g = (Some o, true) /\ lastFastest history network (g_outbounds g) o h)
  /\ (uh_Delay ha = 0 -> forall pre b hb post, g_outbounds g = pre ++ b :: post ->
      supports network b = true -> historyOf view fuel history b = Some hb -> 0 < uh_Delay hb ->
      (forall o h, ~ tested view fuel history network post o h) ->
      exists o h, Select view fuel history network g = (Some o, true) /\ historyOf view fuel history o = Some h /\ 0 < uh_Delay h /\ o <> a)
  /\ (forall networkName dial isExternal err, networkName network = network -> dial a = Err err -> RealTag fuel view a <> Some (ob_Tag a) ->
      let '(r, history', g') := URLTest_DialContext networkName view fuel network dial isExternal history g in
      r = Err err /\ historyOf view fuel history' a = Some ha)
  /\ (g_ticker g <> None -> g_closed g = false -> g_started g = true -> forall now ticker,
      exists g1, Group_Close g = Ok g1 /\ Group_Close (fst (Touch now ticker g1)) = Err (GoPanic "close of closed channel")).
Proof.
  intros Hnet Hsel Ha Hnn. split_and!.
  - intros Ht Hin Hs Hpos. unfold Select. rewrite Hsel, Ha, Ht. cbn [fst snd].
    assert (Hta : tested view fuel history network (g_outbounds g) a ha) by done.
    destruct (selectLoop_wraps history network (g_outbounds g) a ha) as (o & h & -> & _ & [(_ & _ & Hno)|H]); [by eapply Hpos| | |by eauto].
    + intros o h Hto. split; [by eapply Hpos|]. by apply (Hnn o), Hto.
    + specialize (Hno a ha Hta). lia.
  - intros H0 pre b hb post E Hs Eb Hb Hpost. unfold Select. rewrite Hsel, Ha, E, H0. cbn [fst snd].
    destruct (selectLoop_positive history network (g_tolerance g) pre b hb post 0 (Some a)) as (o & h & -> & Eo & Hpos); try done.
    + by exists ha.
    + intros o h Eo. by apply (Hnn o).
    + exists o, h. split_and!; try done. intros ->. assert (h = ha) as -> by congruence. lia.
  - intros networkName dial ext err Hn Hdial Hreal. unfold URLTest_DialContext. rewrite Hn, Hsel.
    replace (negb (String.eqb network "tcp") && negb (String.eqb network "udp")) with false by (destruct Hnet; by subst).
    rewrite Hdial. split; [done|].
    unfold historyOf in *. destruct (RealTag fuel view a) as [t|]; [|done]. cbn in *. rewrite lookup_delete_ne; [done|congruence].
  - intros Ht Hc Hs now ticker. destruct (g_ticker g) as [t|] eqn:Et; [|done]. eexists. unfold Group_Close at 1. rewrite Et, Hc.
    split; [done|]. unfold Touch. cbn. by rewrite Hs.
Qed.
End corners.

(** ** Examples *)

Module GroupRuns.
#[local] Existing Instance ref_libs.
#[local] Existing Instance ref_bolt.

(** Two outbounds, and a selector of both that has chosen the second. *)
Definition tokyo : Detour := mkDetour 1 "tokyo" ["tcp"; "udp"].
Definition paris : Detour := mkDetour 2 "paris" ["tcp"].
Definition proxy : Detour := mkDetour 3 "proxy" ["tcp"].
Definition view0 : OutboundView := {|
  ov_Outbound tag := if String.eqb tag "tokyo" then Some tokyo else if String.eqb tag "paris" then Some paris
                     else if String.eqb tag "proxy" then Some proxy else None;
  ov_kind o := if bool_decide (o = proxy) then GroupOutbound "paris" ["tokyo"; "proxy"; "paris"] else PlainOutbound |}.
Definition history0 : HistoryStorage :=
  StoreURLTestHistory "tokyo" (mkURLTestHistory 0 80) (StoreURLTestHistory "paris" (mkURLTestHistory 0 300) NewHistoryStorage).
Definition group0 : URLTestGroup :=
  mkURLTestGroup [tokyo; proxy] 180 50 1800 false (Some proxy) None [mkGroupConnItem 7 false; mkGroupConnItem 8 true] false (Some 1%nat) false true 0.

Lemma history0_entries tag h : hs_delayHistory history0 !! tag = Some h -> uh_Delay h = 80 \/ uh_Delay h = 300.
Proof.
  cbn. destruct (decide (tag = "tokyo")) as [->|]; [rewrite lookup_insert_eq; intros [= <-]; by left|]. rewrite lookup_insert_ne by done.
  destruct (decide (tag = "paris")) as [->|]; [rewrite lookup_insert_eq; intros [= <-]; by right|]. by rewrite lookup_insert_ne, lookup_empty by done.
Qed.

Lemma url_test_update_witness :
  selectedFor "tcp" (snd (performUpdateCheck view0 5 history0 group0)) = Some tokyo
  /\ goodChoice view0 5 history0 "tcp" 50 [tokyo; proxy] (Some proxy) tokyo
  /\ fst (performUpdateCheck view0 5 history0 group0) = [7%nat].
Proof.
  destruct (url_test_update view0 5 history0 group0 ltac:(cbn; lia)) as [H _].
  { intros o h Ho. unfold historyOf in Ho. destruct (RealTag 5 view0 o); [|done]. apply history0_entries in Ho. cbn. lia. }
  specialize (H "tcp" (or_introl eq_refl)). split_and!; [reflexivity|exact H|reflexivity].
Defined.

Definition wrapping : URLTestGroup :=
  mkURLTestGroup [proxy; tokyo] 180 65535 1800 false (Some proxy) None [] false None false true 0.
Lemma url_test_corners_witness :
  exists o h, Select view0 5 history0 "tcp" wrapping = (Some o, true) /\ lastFastest view0 5 history0 "tcp" [proxy; tokyo] o h.
Proof.
  assert (Hd : forall o h, historyOf view0 5 history0 o = Some h -> uh_Delay h = 80 \/ uh_Delay h = 300).
  { intros o h. unfold historyOf. destruct (RealTag 5 view0 o); [apply history0_entries|done]. }
  apply (url_test_corners view0 5 history0 "tcp" wrapping proxy (mkURLTestHistory 0 300)).
  - by left.
  - reflexivity.
  - reflexivity.
  - intros o h [-> | ->]%Hd; lia.
  - reflexivity.
  - left.
  - reflexivity.
  - intros o h (_ & _ & [-> | ->]%Hd); lia.
Defined.

(** Started in the order of their dependencies. *)
Definition started (tag : string) (dependencies : list string) : Managed := mkManaged 0 "" tag dependencies (fun _ => None) None.
Definition order0 : list Managed := [started "tokyo" []; started "paris" []; started "proxy" ["tokyo"; "paris"]].
Lemma order0_first : dependenciesFirst order0.
Proof.
  intros [|[|[|i]]] o d [= <-] Hd; [by apply elem_of_nil in Hd..|].
  apply elem_of_cons in Hd as [-> | ->%list_elem_of_singleton]; [by exists 0%nat, (started "tokyo" []); split; [lia|]|].
  by exists 1%nat, (started "paris" []); split; [lia|].
Qed.
Lemma real_tag_ends_witness : exists real, RealTag 3 view0 proxy = Some real /\
  (ov_Outbound view0 real = None \/ exists o, ov_Outbound view0 real = Some o /\ groupNow view0 o = None).
Proof.
  apply (real_tag_ends view0 order0 order0_first); [| |done|done].
  - intros tag o. cbn. destruct (String.eqb_spec tag "tokyo") as [->|]; [intros [= <-]; split; [done|]; exists (started "tokyo" [])|].
    { split_and!; [left|done|done]. }
    destruct (String.eqb_spec tag "paris") as [->|]; [intros [= <-]; split; [done|]; exists (started "paris" [])|].
    { split_and!; [right; left|done|done]. }
    destruct (String.eqb_spec tag "proxy") as [->|]; [|done]. intros [= <-]. split; [done|]. exists (started "proxy" ["tokyo"; "paris"]).
    split_and!; [right; right; left|done|]. intros now [= <-]. right. right. left.
  - by apply (bool_decide_unpack (NoDup (map mo_Tag order0))); reflexivity.
Defined.

(** The selector contains itself. *)
Lemma url_test_batch_witness :
  exists fuel0 b, (forall fuel, (fuel0 <= fuel)%nat -> batchTest view0 (fun _ => history0) (fun n => 100 + Z.of_nat n) 180 true fuel [proxy] (mkURLTestBatch ∅ [] [] 0) = Some b)
  /\ NoDup (map taskTag (b_tasks b)).
Proof.
  destruct (url_test_batch view0 (fun _ => history0) (fun n => 100 + Z.of_nat n) 180 true {["tokyo"; "paris"; "proxy"]} [proxy]) as (fuel0 & b & H1 & H2 & _).
  2: by exists fuel0, b.
  assert (H : forall o, reached view0 [proxy] o -> o = proxy \/ o = tokyo \/ o = paris).
  { induction 1 as [o ->%list_elem_of_singleton|g o _ IH Ho]; [by left|]. destruct IH as [->|[->| ->]].
    - change (o ∈ [tokyo; proxy; paris]) in Ho. rewrite !elem_of_cons, elem_of_nil in Ho. naive_solver.
    - change (o ∈ @nil Detour) in Ho. by apply elem_of_nil in Ho.
    - change (o ∈ @nil Detour) in Ho. by apply elem_of_nil in Ho. }
  intros o [->|[->| ->]]%H; (split; [set_solver|reflexivity]).
Defined.

Definition selector0 : Selector := mkSelector "proxy" ["tokyo"; "paris"] "" ∅ None true [] false.
Lemma selector_persists_witness :
  exists s1 s', fst (Selector_Start true view0 selector0 (Some CacheFileRuns.file0)) = Ok s1
  /\ fst (Selector_Start true view0 selector0 (Some (snd (runSelector true [OpSelect "paris"] s1 CacheFileRuns.file0)))) = Ok s'
  /\ s_selected s' = s_selected (fst (runSelector true [OpSelect "paris"] s1 CacheFileRuns.file0)).
Proof.
  destruct (Selector_Start true view0 selector0 (Some CacheFileRuns.file0)) as [r c] eqn:E.
  assert (Hc : c = Some CacheFileRuns.file0) by (by rewrite <- (f_equal snd E : snd _ = c)). subst c.
  destruct r as [s1|e]; [|assert (H : is_ok (fst (Selector_Start true view0 selector0 (Some CacheFileRuns.file0))) = true) by reflexivity; by rewrite E in H].
  assert (Hs1 : s_Tag s1 = "proxy") by (assert (H : match fst (Selector_Start true view0 selector0 (Some CacheFileRuns.file0)) with Ok s => s_Tag s | Err _ => "" end = "proxy") by reflexivity; by rewrite E in H).
  assert (Hview : forall tag o, ov_Outbound view0 tag = Some o -> ob_Tag o = tag /\ tag <> "").
  { intros tag o. cbn. repeat (match goal with |- context [String.eqb tag ?t] => destruct (String.eqb_spec tag t) as [->|] end; [by intros [= <-]|]). done. }
  destruct (selector_persists true view0 Hview "proxy" ["tokyo"; "paris"] "" true false selector0 CacheFileRuns.file0 s1 CacheFileRuns.file0 [OpSelect "paris"])
    as (o & Ho & _ & _ & _ & s' & Hs' & Hsel); [done| |done|done| |].
  - exists bolt_empty. split_and!; [done|apply CacheFileRuns.closed_empty|by exists (string_bytes "laptop")].
  - cbn [storesAll storesOp]. split; [|done]. rewrite Hs1. reflexivity.
  - exists s1, s'. split_and!; [done|by rewrite Hs'|congruence].
Defined.
End GroupRuns.
